(* ===== verification/_CoqProject ===== *)
-Q . S2P
Prelude.v
Wire.v
CLib.v
Time.v
PluginApi.v
Posix.v
Filesystem.v
FsPath.v
FsTrace.v
FsSafety.v
FsList.v
MemKernel.v
FsProps.v
FsStore.v
FsRefine.v
FsSession.v
MemStore.v
FsPlugin.v
TcpProxy.v
TcpProps.v
TcpStream.v
TcpPlugin.v
Registry.v
Config.v
ConfigProps.v
Loader.v
Runtime.v
RuntimeProps.v
Serial.v
SerialProps.v
Local.v
LocalProps.v
Log.v
Server.v
ServerProps.v
ServerWitness.v
Heap.v
Json.v
JsonGrammar.v
JsonRead.v
Vault.v
VaultCatalog.v
VaultServe.v
VaultPages.v
VaultProps.v
VaultPaging.v
Curl.v
CurlProps.v
VaultPlugin.v
VaultWitness.v
Client.v
ClientCalls.v
ClientRetro.v
ClientSafety.v
ClientProps.v
ClientLink.v
ClientList.v
ClientPages.v
ClientVault.v
ClientFs.v
Samples.v
SamplesProps.v
SamplesLink.v
Spectrum.v
ClientWitness.v
SamplesWitness.v
ClientVaultWitness.v
ClientFsWitness.v
