(* ===== verification/Prelude.v ===== *)
(** * squid-server: verification library

    squid-server runs on a Linux host and offers services to small (8-bit)
    clients over a byte link.  libsquid, a third-party library, multiplexes the
    link into sockets; the server binds a socket to each of the ports 1 to 15
    that has a plugin, cuts the bytes of each socket into packets, hands every
    packet to the plugin of its port and sends the plugin's answer back.  The
    client library makes one synchronous call at a time in a workspace the
    caller owns.

    This library models the C sources as functions over explicit state and
    proves what makes them correct.  Names are those of the sources.

    ** How C is modelled

    - An integer is a [Z] in the range of its C type; a conversion that can
      lose bits is written with [u8], [u16], [u32], [u64] or [s16].
    - Memory a pointer points to is a [list Z].  [rd], [wr], [rd_bytes] and
      [wr_bytes] are [None] outside the array, and a byte that was never
      written holds a value no C object can hold, which [rd] refuses: [None] is
      undefined behaviour, and the safety theorems show that it does not occur.
    - Code with effects is in [ST S A] = [S -> option (A * S)] (Prelude.v), with
      [wp] as its weakest precondition; the client, which can wait for ever, is
      in [CT] (Client.v), which separates undefined behaviour from waiting.
    - Code that is not in the repository is a type class or a record of
      functions on an abstract world: the kernel ([Posix], [Sockets], [Tty],
      [LocalSockets]), the dynamic linker ([Linker]), the host clock ([clock]),
      libcurl ([Curl]), libsquid ([Squid], [SquidInit], [SquidClientSide],
      [ClientHost]) and the Interface 1 routines ([SpectrumHost]).  Nothing is
      assumed of them unless a theorem says so, through the classes [PosixLaws],
      [FileKernel], [SocketLaws], [SquidLaws], [RecvLaw], [SquidSockets],
      [EngineLaws], [LinkLaws], [Handshake], [CurlLaws] and [TtyLaws], which
      state the documented results of the calls, or the record [still_dir];
      concrete instances (MemKernel.v and MemStore.v, and the samples beside the
      theorems) show that the hypotheses can hold.  System calls are recorded in
      a trace, over which resource properties are stated.

    - The allocator is explicit where the code allocates (Heap.v): live blocks
      are a multiset, every allocation can fail, and freeing a block that is not
      live is undefined behaviour, so that a theorem on the multiset excludes
      leaks and double frees.

    ** The parts

    - Prelude.v, Wire.v, CLib.v: the monad and memory, little-endian fields and
      the response header common to the protocols, and the C library functions
      the sources use on text (strtol, strtok, isspace and the like).
    - PluginApi.v (include/squid_server/plugin_api.h): packets, the plugin
      record, and the contract between the runtime and a plugin as the class
      [GoodPlugin]; the echo, squidsys and time plugins.
    - Time.v (lib/time/time_core.c): the time service.
    - Posix.v, Filesystem.v (lib/filesystem/filesystem_core.c): the system-call
      interface and every request handler.  FsPath.v: path validation against
      the documented rule.  FsTrace.v: the descriptor and containment discipline
      [fd_run] over the trace.  FsSafety.v, FsList.v: the lemmas per handler,
      and paging.  MemKernel.v: a small kernel in memory.  FsProps.v: the
      theorems.  FsPlugin.v (filesystem_plugin.c): environment and life cycle.
    - FsStore.v: the service's abstract specification, a store of inodes with
      what every request does to it ([fs_step], [served]), and the documented
      behaviour of a kernel on the store ([FileKernel]).  FsRefine.v: each handler
      against it.  FsSession.v: sequences of requests.  MemStore.v: the kernel of
      MemKernel.v is such a kernel.
    - TcpProxy.v, TcpProps.v (lib/tcp_proxy/tcp_proxy_core.c), TcpPlugin.v
      (tcp_proxy_plugin.c): the TCP proxy, its theorems and its plugin object.
      TcpStream.v: the bytes that go over its connections.
    - Registry.v, Loader.v (src/plugin): the port table and the loading and
      unloading of plugins.
    - Config.v, ConfigProps.v (src/config): command line and configuration file.
    - Runtime.v, RuntimeProps.v (src/runtime/server_runtime.c): reassembly of
      packets, dispatch and the main loop, with the termination signal as an
      interleaved step.
    - Log.v (src/log), Server.v (the rest of src/runtime and src/app): the log,
      startup, the loading of the configured plugins, daemonize, the transport
      under the loop, and shutdown.  ServerProps.v, ServerWitness.v: the server
      from start to exit.
    - Serial.v, SerialProps.v (src/transport/serial): the serial transport.
    - Local.v, LocalProps.v (src/transport/local): the Unix-socket transport.
    - Heap.v: malloc, realloc and free.  Json.v (lib/retrovault/
      retrovault_json.c): the JSON scanner and readers; JsonGrammar.v: the
      grammar it implements; JsonRead.v: its readers on documents of the grammar.
    - Vault.v, VaultServe.v (lib/retrovault/retrovault_core.c): buffers and the
      reading of the catalog; cache, pages, downloads and the request handler.
      VaultCatalog.v: the catalog as a function of the JSON tree, and the
      ownership of its blocks.  VaultPages.v: the records of pages and the
      packages a request asks for.
      VaultProps.v: the invariant of the context, and what the service asks of
      its HTTP client as the class [HttpClient], which the service's theorems are
      proved against.  VaultPaging.v: following cursors and offsets.
    - Curl.v, CurlProps.v (retrovault_curl.c): the HTTP client on libcurl, an
      instance of [HttpClient].  VaultPlugin.v (retrovault_plugin.c): the plugin
      object.  VaultWitness.v: a context with a catalog.
    - Client.v, ClientCalls.v, ClientRetro.v (lib/client): the exchange and the
      typed calls; ClientSafety.v and ClientProps.v: their safety against any
      server; ClientLink.v, ClientList.v, ClientPages.v, ClientVault.v and
      ClientFs.v: what they deliver over a working link; ClientWitness.v,
      ClientVaultWitness.v, ClientFsWitness.v: a concrete link.  Spectrum.v (lib/client/z80/spectrum_if1.c): opening a
      client on a ZX Spectrum.
    - Samples.v (samples/echo, samples/sys): the two command-line programs, which
      put the local transport, the engine and the client library together.
      SamplesProps.v: their safety; SamplesLink.v: what they print when the server
      answers; SamplesWitness.v: a small engine they run on.

    ** What the theorems show

    - Services.  Whatever a client sends and the kernel answers, the handlers
      are memory safe and answer in the protocol's format
      ([fs_request_safe], [tcp_request_safe], [time_request_framed]).  The
      filesystem service stays inside its root and closes what it opens
      ([fs_request_contained]), changes nothing when it is read only
      ([fs_read_only_respected]), validates paths exactly as documented
      ([path_is_valid_exact]), delivers the bytes it read ([fs_read_delivers])
      and lists a directory below its root completely ([fs_list_complete]); its plugin opens
      and closes exactly its root ([fs_lifecycle]).  On a kernel that behaves as
      documented it implements the store, request by request
      ([fs_refines_store]), and a file that was written is read back
      ([fs_write_read_back]).  [root_listed_once] shows
      that the root itself can be listed only once.  The proxy holds at most one
      socket and leaks none ([tcp_one_socket]), keeps the old stream until a new
      one stands ([tcp_connect_replaces]), and enforces its allow list before
      any network call ([host_is_allowed_exact], [tcp_connect_denied]) with
      bounded timeouts ([tcp_timeouts_bounded]); over any sequence of requests its
      answers account for every byte the kernel took and delivered
      ([tcp_streams_exact]).
    - Retrovault.  The JSON scanner accepts exactly its grammar
      ([json_parse_exact]); the catalog read from a document is the one the
      document describes ([catalog_parse_exact], up to the total size of files of
      4 GiB and more, of which 32 bits are kept: [aggregate_size_wraps]); a refresh
      installs the catalog a reply offers, and one that fails does not cost the
      catalog ([catalog_kept]).  Whatever the request, the network and
      the allocator do, the handler is memory safe, answers in the format and
      neither leaks nor frees twice ([vault_request_safe], [vault_lifecycle]).
      Pages hold exactly the packages the documented filters select ([matching],
      [vault_list_complete]), downloads are complete ([download_reassembled]), and the HTTP client hands over what libcurl
      delivered, within its limit ([curl_get_exact]).
    - Server.  The port table is a partial map ([registry_map_laws]); loading is
      atomic and unloading runs in reverse ([load_atomic], [unload_reverse]);
      every configuration that can come out of the parser is well formed, but for
      the baud rate, of which the parser keeps 32 bits, and
      files and command lines mean what they should ([config_always_ok],
      [config_line_oriented], [config_roundtrip], [command_line_exact]).
      Dispatch refines a machine on byte streams, for any plugins that keep the
      contract ([dispatch_refines]), and the main loop is never stuck
      ([dispatch_loop_safe]) and returns within two turns of a termination
      signal ([signal_stops_loop]).  The libraries the configuration file
      names are loaded on their ports, exactly these and in order
      ([configured_plugins_exact]), and the server releases
      everything on every way from start to exit ([server_run_safe]).
    - Transport.  The serial ring is a lossless queue
      ([serial_stream_preserved], [serial_send_char_exact]), the line is set as
      configured ([line_is]) and restored ([serial_session_restores]), and the tick wraps as libsquid expects
      ([serial_tick_exact]).  A session of the local transport releases its
      descriptors and its socket file on every path
      ([local_session_protocol]).
    - Client.  No call leaves its workspace whatever the server sends
      ([client_calls_safe]); over a working link a call returns and stays in
      step ([client_exchange_in_step]), and the client and the server's handlers
      agree on the formats ([client_echo_roundtrip], [client_time_roundtrip],
      [client_list_decodes], [retro_pages_decoded]).  [client_lists_catalog]
      composes the client, the link, the plugin and the service: paging gives
      the whole catalog.  So do [client_fs_refines_store], by which every
      filesystem call of the client is a step of the store, and
      [client_file_roundtrip], by which a file written by the client is read
      back into its workspace.  Opening a client on the Spectrum leaves a usable client
      or no socket ([spectrum_open_exact]).
    - Samples.  Whatever the server and the user do, the programs are memory safe
      and give back the connection and the socket ([samples_safe]); with a server
      that answers, the echo sample prints every message typed
      ([echo_sample_echoes]) and the system sample the server's identification
      ([sys_sample_prints]).

    ** Fuel

    Loops over data recurse on the data.  The loops that depend on the
    environment take fuel: the restart of [poll] after a signal (TcpProxy.v,
    Serial.v), which returns with more fuel than the environment has signals
    left; the flush of the serial ring, which returns with more fuel than
    bytes and signals; the client's wait for bytes, where running out is
    [Waiting] and the link theorems give a bound beyond which every amount of
    fuel returns, as does the samples' wait for the handshake; a transfer of
    libcurl, which ends with more fuel than pieces it can still deliver
    ([curl_left]).  A client that pages through a directory
    or the catalog makes at most one request more than there are entries
    ([fs_list_complete], [client_lists_catalog]).  The JSON scanner recurses to
    the depth the code allows, and a buffer doubles its capacity at most 64
    times (lemma [grow_enough]).

    ** What is not modelled

    The texts the server only prints (the usage text, the message of strerror);
    server_transport.h, a struct around the table of libsquid hooks; the Z80
    assembly (the client library rewritten for the processor and the Interface 1
    routines); the tests.  libsquid, libcurl, the kernel and the dynamic linker
    are parameters.  The store of FsStore.v has no permissions: a kernel may
    refuse any call, and the theorems say what a refusal leaves behind. *)
From stdpp Require Import base numbers list list_numbers option.
From Stdlib Require Import ZArith Lia.

Local Open Scope Z_scope.

(** Indices and offsets are literals most of the time: let [cbn] compute
    with them. *)
#[global] Arguments Z.to_nat !_ / : simpl nomatch.
#[global] Arguments Pos.to_nat !_ / : simpl nomatch.

Lemma Forall_elem {A} (P : A -> Prop) l x : Forall P l -> x ∈ l -> P x.
Proof. intros H Hx. apply list_elem_of_lookup in Hx as [i Hi]. by apply (Forall_lookup_1 _ _ _ _ H Hi). Qed.

(** * Machine integers

    Every C scalar is a [Z]; the conversions the C code performs (explicit
    casts, unsigned arithmetic) are written with the wrap-around functions
    below, so that an overflow is visible in a definition. *)

Definition u8 (x : Z) : Z := x mod 2 ^ 8.
Definition u16 (x : Z) : Z := x mod 2 ^ 16.
Definition u32 (x : Z) : Z := x mod 2 ^ 32.
(** [size_t] and [uint64_t]. *)
Definition u64 (x : Z) : Z := x mod 2 ^ 64.
(** Conversion to a signed type of [w] bits (two's complement). *)
Definition swrap (w x : Z) : Z := (x + 2 ^ (w - 1)) mod 2 ^ w - 2 ^ (w - 1).
Definition s16 (x : Z) : Z := swrap 16 x.
Definition s32 (x : Z) : Z := swrap 32 x.

Definition UINT8_MAX : Z := 255.
Definition UINT32_MAX : Z := 4294967295.

Lemma u8_range x : 0 <= u8 x < 256.
Proof. unfold u8. change (2 ^ 8) with 256. apply Z.mod_pos_bound. lia. Qed.
Lemma u16_range x : 0 <= u16 x < 65536.
Proof. unfold u16. change (2 ^ 16) with 65536. apply Z.mod_pos_bound. lia. Qed.
Lemma u32_range x : 0 <= u32 x < 4294967296.
Proof. unfold u32. change (2 ^ 32) with 4294967296. apply Z.mod_pos_bound. lia. Qed.
Lemma u8_small x : 0 <= x < 256 -> u8 x = x.
Proof. intros. unfold u8. apply Z.mod_small. lia. Qed.
Lemma u16_small x : 0 <= x < 65536 -> u16 x = x.
Proof. intros. unfold u16. apply Z.mod_small. lia. Qed.
Lemma u32_small x : 0 <= x < 4294967296 -> u32 x = x.
Proof. intros. unfold u32. apply Z.mod_small. lia. Qed.
Lemma u64_small x : 0 <= x < 18446744073709551616 -> u64 x = x.
Proof. intros. unfold u64. apply Z.mod_small. lia. Qed.
Lemma s32_small x : 0 <= x < 2147483648 -> s32 x = x.
Proof.
  intros. unfold s32, swrap. change (2 ^ (32 - 1)) with 2147483648. change (2 ^ 32) with 4294967296.
  rewrite Z.mod_small; lia.
Qed.

(** * Buffers

    A C array of bytes is a list of cells.  A cell holds a byte 0..255 or
    the value [indeterminate] of an uninitialised local array.  Reading out
    of range, reading an indeterminate cell and writing out of range are
    undefined behaviour and give [None]; a theorem that a function returns
    [Some] on every input is therefore a memory-safety theorem. *)

Definition indeterminate : Z := -1.

Definition zlen {A} (l : list A) : Z := Z.of_nat (length l).

Definition is_byte (x : Z) : Prop := 0 <= x < 256.
Definition bytes_ok (l : list Z) : Prop := Forall is_byte l.

(** [b[i]] as an rvalue. *)
Definition rd (b : list Z) (i : Z) : option Z :=
  if i <? 0 then None
  else match b !! Z.to_nat i with
       | Some v => if v <? 0 then None else Some v
       | None => None
       end.

Fixpoint upd (b : list Z) (i : nat) (v : Z) : option (list Z) :=
  match b, i with
  | [], _ => None
  | _ :: b, O => Some (v :: b)
  | x :: b, S i => match upd b i v with Some b' => Some (x :: b') | None => None end
  end.

(** [b[i] = v]. *)
Definition wr (b : list Z) (i v : Z) : option (list Z) :=
  if i <? 0 then None else upd b (Z.to_nat i) v.

Fixpoint over (b src : list Z) {struct src} : option (list Z) :=
  match src, b with
  | [], _ => Some b
  | _ :: _, [] => None
  | v :: src, _ :: b => match over b src with Some b' => Some (v :: b') | None => None end
  end.

Fixpoint blit (b : list Z) (i : nat) (src : list Z) {struct i} : option (list Z) :=
  match i, b with
  | O, _ => over b src
  | S _, [] => None
  | S i, x :: b => match blit b i src with Some b' => Some (x :: b') | None => None end
  end.

(** [memcpy(b + i, src, |src|)]. *)
Definition wr_bytes (b : list Z) (i : Z) (src : list Z) : option (list Z) :=
  if i <? 0 then None else blit b (Z.to_nat i) src.

(** The [n] bytes at [b + i], as the source of a copy. *)
Definition rd_bytes (b : list Z) (i n : Z) : option (list Z) :=
  if (0 <=? i) && (0 <=? n) && (i + n <=? zlen b) then
    let l := take (Z.to_nat n) (drop (Z.to_nat i) b) in
    if forallb (fun v => 0 <=? v) l then Some l else None
  else None.

(** [char a[n];] before anything is stored in it. *)
Definition uninit (n : Z) : list Z := replicate (Z.to_nat n) indeterminate.

Lemma zlen_nil {A} : zlen (@nil A) = 0.
Proof. reflexivity. Qed.
Lemma zlen_cons {A} (x : A) l : zlen (x :: l) = 1 + zlen l.
Proof. unfold zlen. cbn [length]. lia. Qed.
Lemma zlen_app {A} (l k : list A) : zlen (l ++ k) = zlen l + zlen k.
Proof. unfold zlen. rewrite length_app. lia. Qed.
Lemma zlen_nonneg {A} (l : list A) : 0 <= zlen l.
Proof. unfold zlen. lia. Qed.
Lemma zlen_take {A} n (l : list A) : zlen (take n l) = Z.min (Z.of_nat n) (zlen l).
Proof. unfold zlen. rewrite length_take. lia. Qed.
Lemma zlen_drop {A} n (l : list A) : zlen (drop n l) = Z.max 0 (zlen l - Z.of_nat n).
Proof. unfold zlen. rewrite length_drop. lia. Qed.
Lemma zlen_nil_inv {A} (l : list A) : zlen l = 0 -> l = [].
Proof. destruct l; [done|]. rewrite zlen_cons. pose proof (zlen_nonneg l). lia. Qed.

Create HintDb squid.
Create Rewrite HintDb zlen.
#[export] Hint Rewrite @zlen_nil @zlen_cons @zlen_app @zlen_take @zlen_drop : zlen.

Lemma upd_length b i v b' : upd b i v = Some b' -> length b' = length b.
Proof.
  revert i b'. induction b as [|x b IH]; intros [|i] b' H; simplify_eq/=; [done|].
  destruct (upd b i v) as [c|] eqn:E; simplify_eq/=. by rewrite (IH _ _ E).
Qed.

Lemma upd_Some b i v : (i < length b)%nat -> upd b i v = Some (<[i := v]> b).
Proof.
  revert i. induction b as [|x b IH]; intros [|i] H; cbn in *; try lia; [done|].
  rewrite IH by lia. done.
Qed.

Lemma wr_Some b i v : 0 <= i < zlen b -> wr b i v = Some (<[Z.to_nat i := v]> b).
Proof.
  intros H. unfold wr, zlen in *. destruct (Z.ltb_spec i 0); [lia|].
  apply upd_Some. lia.
Qed.

Lemma wr_app p x q i v : i = zlen p -> wr (p ++ x :: q) i v = Some (p ++ v :: q).
Proof.
  intros ->. rewrite wr_Some by (unfold zlen; rewrite length_app; cbn; lia).
  unfold zlen. rewrite Nat2Z.id, insert_app_r_alt, Nat.sub_diag by lia. done.
Qed.

(** Writing past a prefix leaves the prefix alone. *)
Lemma wr_past p q k v : 0 <= k ->
  wr (p ++ q) (zlen p + k) v =
    match wr q k v with Some q' => Some (p ++ q') | None => None end.
Proof.
  intros Hk. unfold wr. pose proof (zlen_nonneg p).
  destruct (Z.ltb_spec (zlen p + k) 0), (Z.ltb_spec k 0); try lia.
  unfold zlen. rewrite Z2Nat.inj_add, Nat2Z.id by lia. generalize (Z.to_nat k) as n. clear.
  intros n. induction p as [|x p IH]; cbn; [by destruct (upd q n v)|].
  rewrite IH. by destruct (upd q n v).
Qed.

Lemma wr_length b i v b' : wr b i v = Some b' -> length b' = length b.
Proof. unfold wr. destruct (i <? 0); [done|]. apply upd_length. Qed.

Lemma wr_lookup b i v b' : wr b i v = Some b' -> b' !! Z.to_nat i = Some v.
Proof.
  intros E. pose proof (wr_length _ _ _ _ E) as Hl. unfold wr in E.
  destruct (Z.ltb_spec i 0); [done|]. destruct (decide (Z.to_nat i < length b)%nat).
  - rewrite upd_Some in E by done. injection E as <-. by apply list_lookup_insert_eq.
  - exfalso. clear Hl. revert E n. generalize (Z.to_nat i) as k. clear. revert b'.
    induction b as [|x b IH]; intros b' [|k] E Hk; cbn in *; try done; [lia|].
    destruct (upd b k v) eqn:Eu; [|done]. by apply (IH l k); [|lia].
Qed.

Lemma over_Some b src :
  (length src <= length b)%nat -> over b src = Some (src ++ drop (length src) b).
Proof.
  revert b. induction src as [|v src IH]; intros b H; [done|].
  destruct b as [|x b]; cbn in *; [lia|]. rewrite IH by lia. done.
Qed.

Lemma blit_app p q src :
  (length src <= length q)%nat ->
  blit (p ++ q) (length p) src = Some (p ++ src ++ drop (length src) q).
Proof.
  intros H. induction p as [|x p IH]; cbn; [by apply over_Some|]. by rewrite IH.
Qed.

Lemma wr_bytes_app p q src i :
  i = zlen p -> zlen src <= zlen q ->
  wr_bytes (p ++ q) i src = Some (p ++ src ++ drop (length src) q).
Proof.
  intros -> H. unfold wr_bytes, zlen in *.
  destruct (Z.ltb_spec (Z.of_nat (length p)) 0); [lia|].
  rewrite Nat2Z.id. apply blit_app. lia.
Qed.

Lemma wr_bytes_at b i src :
  0 <= i -> i + zlen src <= zlen b ->
  wr_bytes b i src =
    Some (take (Z.to_nat i) b ++ src ++ drop (length src) (drop (Z.to_nat i) b)).
Proof.
  intros Hi Hl. pose proof (zlen_nonneg src).
  rewrite <- (take_drop (Z.to_nat i) b) at 1.
  apply wr_bytes_app; [rewrite zlen_take|rewrite zlen_drop]; lia.
Qed.

Lemma over_length src b b' : over b src = Some b' -> length b' = length b.
Proof.
  revert b b'. induction src as [|v src IH]; intros [|x b] b' H; simplify_eq/=; try done.
  destruct (over b src) as [c|] eqn:E; simplify_eq/=. by rewrite (IH _ _ E).
Qed.

Lemma blit_length n b src b' : blit b n src = Some b' -> length b' = length b.
Proof.
  revert b b'.
  induction n as [|n IH]; intros [|x b] b' H; simplify_eq/=; eauto using over_length.
  - by apply over_length in H.
  - by apply over_length in H.
  - destruct (blit b n src) as [c|] eqn:E; simplify_eq/=. by rewrite (IH _ _ E).
Qed.

Lemma wr_bytes_length b i src b' : wr_bytes b i src = Some b' -> length b' = length b.
Proof. unfold wr_bytes. destruct (i <? 0); [done|]. apply blit_length. Qed.

Lemma rd_Some b i v : 0 <= i -> b !! Z.to_nat i = Some v -> 0 <= v -> rd b i = Some v.
Proof.
  intros ? H ?. unfold rd. destruct (Z.ltb_spec i 0); [lia|].
  rewrite H. destruct (Z.ltb_spec v 0); [lia|done].
Qed.

Lemma rd_inv b i v : rd b i = Some v -> 0 <= i < zlen b /\ b !! Z.to_nat i = Some v /\ 0 <= v.
Proof.
  unfold rd. destruct (Z.ltb_spec i 0); [done|].
  destruct (b !! Z.to_nat i) as [w|] eqn:E; [|done].
  destruct (Z.ltb_spec w 0); [done|]. intros; simplify_eq.
  apply lookup_lt_Some in E as ?. unfold zlen. split_and!; try lia. done.
Qed.

Lemma bytes_ok_lookup b i v : bytes_ok b -> b !! i = Some v -> 0 <= v < 256.
Proof. intros H E. exact (Forall_lookup_1 _ _ _ _ H E). Qed.

(** A request byte that is in range is readable and is a byte. *)
Lemma rd_ok b i : bytes_ok b -> 0 <= i < zlen b -> exists v, rd b i = Some v /\ 0 <= v < 256.
Proof.
  intros Hb Hi. unfold zlen in Hi.
  destruct (lookup_lt_is_Some_2 b (Z.to_nat i)) as [v E]; [lia|].
  pose proof (bytes_ok_lookup _ _ _ Hb E). exists v. split; [|done].
  apply rd_Some; try lia. done.
Qed.

Lemma bytes_ok_app l k : bytes_ok (l ++ k) <-> bytes_ok l /\ bytes_ok k.
Proof. apply Forall_app. Qed.
Lemma bytes_ok_take n l : bytes_ok l -> bytes_ok (take n l).
Proof. apply Forall_take. Qed.
Lemma bytes_ok_drop n l : bytes_ok l -> bytes_ok (drop n l).
Proof. apply Forall_drop. Qed.
#[export] Hint Resolve bytes_ok_take bytes_ok_drop u8_range u16_range u32_range
  zlen_nonneg : squid.

Lemma bytes_ok_forallb l : bytes_ok l -> forallb (fun v => 0 <=? v) l = true.
Proof.
  induction 1 as [|x l Hx _ IH]; [done|]. cbn. rewrite IH.
  unfold is_byte in Hx. destruct (Z.leb_spec 0 x); [done|lia].
Qed.

(** Decides a closed [bytes_ok]. *)
Lemma bytes_ok_dec l : forallb (fun x => (0 <=? x) && (x <? 256)) l = true -> bytes_ok l.
Proof.
  induction l as [|x l IH]; cbn; intros H; [constructor|].
  apply andb_true_iff in H as [H1 H2]. constructor; [unfold is_byte; lia|by apply IH].
Qed.

Lemma rd_bytes_ok b i n :
  bytes_ok b -> 0 <= i -> 0 <= n -> i + n <= zlen b ->
  rd_bytes b i n = Some (take (Z.to_nat n) (drop (Z.to_nat i) b)).
Proof.
  intros Hb ? ? ?. unfold rd_bytes.
  destruct (Z.leb_spec 0 i), (Z.leb_spec 0 n), (Z.leb_spec (i + n) (zlen b)); try lia.
  cbn. rewrite bytes_ok_forallb; [done|]. auto with squid.
Qed.
(** Reading defined bytes out of an array. *)
Lemma rd_bytes_mid p s q : bytes_ok s -> rd_bytes (p ++ s ++ q) (zlen p) (zlen s) = Some s.
Proof.
  intros Hs. unfold rd_bytes. rewrite !zlen_app. pose proof (zlen_nonneg p). pose proof (zlen_nonneg s).
  pose proof (zlen_nonneg q). destruct (Z.leb_spec 0 (zlen p)), (Z.leb_spec 0 (zlen s)),
    (Z.leb_spec (zlen p + zlen s) (zlen p + (zlen s + zlen q))); try lia. cbn [andb].
  unfold zlen. rewrite !Nat2Z.id, drop_app_length, take_app_length. by rewrite bytes_ok_forallb.
Qed.
Lemma rd_bytes_front s q : bytes_ok s -> rd_bytes (s ++ q) 0 (zlen s) = Some s.
Proof. apply (rd_bytes_mid []). Qed.

(** * Control: state, undefined behaviour and total correctness

    [ST S A] is C code over a state [S] that returns an [A]; [None] is
    undefined behaviour.  [wp m Q s]: [m] started in [s] has no undefined
    behaviour and ends with [Q]. *)

Definition ST (S A : Type) : Type := S -> option (A * S).
Definition ret {S A} (a : A) : ST S A := fun s => Some (a, s).
Definition bind {S A B} (m : ST S A) (k : A -> ST S B) : ST S B :=
  fun s => match m s with Some (a, s') => k a s' | None => None end.
(** A pure computation that may be undefined. *)
Definition lift {S A} (o : option A) : ST S A :=
  fun s => match o with Some a => Some (a, s) | None => None end.
Definition get {S} : ST S S := fun s => Some (s, s).
Definition put {S} (s : S) : ST S unit := fun _ => Some (tt, s).

Declare Scope squid_scope.
Delimit Scope squid_scope with squid.
Notation "'let!' x := m 'in' k" := (bind m (fun x => k))
  (at level 10, x name, m at level 100, k at level 200) : squid_scope.
Notation "'let!' ' p := m 'in' k" := (bind m (fun y => match y with p => k end))
  (at level 10, p pattern, m at level 100, k at level 200) : squid_scope.
Notation "'do!' m ';' k" := (bind m (fun _ => k))
  (at level 10, m at level 100, k at level 200) : squid_scope.
(** The same for computations without a state. *)
Notation "'let?' x := o 'in' k" := (match o with Some x => k | None => None end)
  (at level 10, x name, o at level 100, k at level 200) : squid_scope.
Notation "'let?' ' p := o 'in' k" := (match o with Some p => k | None => None end)
  (at level 10, p pattern, o at level 100, k at level 200) : squid_scope.

Definition wp {S A} (m : ST S A) (Q : A -> S -> Prop) (s : S) : Prop :=
  match m s with Some (a, s') => Q a s' | None => False end.

Section wp_rules.
Context {S : Type}.

Lemma wp_ret {A} (a : A) Q (s : S) : Q a s -> wp (ret a) Q s.
Proof. done. Qed.
Lemma wp_bind {A B} (m : ST S A) (k : A -> ST S B) Q s :
  wp m (fun a s' => wp (k a) Q s') s -> wp (bind m k) Q s.
Proof. unfold wp, bind. by destruct (m s) as [[a s']|]. Qed.
Lemma wp_mono {A} (m : ST S A) (P Q : A -> S -> Prop) s :
  wp m P s -> (forall a s', P a s' -> Q a s') -> wp m Q s.
Proof. unfold wp. destruct (m s) as [[a s']|]; [|done]. intros H1 H2. by apply H2. Qed.
Lemma wp_and {A} (m : ST S A) (P Q : A -> S -> Prop) s :
  wp m P s -> wp m Q s -> wp m (fun a s' => P a s' /\ Q a s') s.
Proof. unfold wp. by destruct (m s) as [[a s']|]. Qed.
Lemma wp_lift {A} (o : option A) a Q (s : S) : o = Some a -> Q a s -> wp (lift o) Q s.
Proof. intros ->. done. Qed.
Lemma wp_get Q (s : S) : Q s s -> wp get Q s.
Proof. done. Qed.
Lemma wp_put Q (s t : S) : Q tt t -> wp (put t) Q s.
Proof. done. Qed.
Lemma wp_inv {A} (m : ST S A) Q s : wp m Q s <-> exists a s', m s = Some (a, s') /\ Q a s'.
Proof.
  unfold wp. destruct (m s) as [[a s']|]; [|by split; [|intros (?&?&?&?)]].
  split; [eauto|]. intros (b&t&Hb&?). injection Hb as -> ->. done.
Qed.
End wp_rules.

(** [pc m Q s]: if [m] started in [s] returns, it ends with [Q].  Used beside
    [wp] for facts that do not need the absence of undefined behaviour. *)
Definition pc {S A} (m : ST S A) (Q : A -> S -> Prop) (s : S) : Prop :=
  forall a s', m s = Some (a, s') -> Q a s'.

Section pc_rules.
Context {S : Type}.
Lemma pc_ret {A} (a : A) Q (s : S) : Q a s -> pc (ret a) Q s.
Proof. by intros HQ b t [= <- <-]. Qed.
Lemma pc_bind {A B} (m : ST S A) (k : A -> ST S B) Q s :
  pc m (fun a s' => pc (k a) Q s') s -> pc (bind m k) Q s.
Proof. unfold pc, bind. intros Hm b t. destruct (m s) as [[a s']|]; [|done]. by apply Hm. Qed.
Lemma pc_mono {A} (m : ST S A) (P Q : A -> S -> Prop) s :
  pc m P s -> (forall a s', P a s' -> Q a s') -> pc m Q s.
Proof. unfold pc. eauto. Qed.
Lemma pc_lift {A} (o : option A) Q (s : S) : (forall a, o = Some a -> Q a s) -> pc (lift o) Q s.
Proof. intros HQ a t. unfold lift. destruct o; [|done]. intros [= <- <-]. by apply HQ. Qed.
Lemma wp_pc {A} (m : ST S A) (P Q : A -> S -> Prop) s :
  wp m P s -> pc m Q s -> wp m (fun a s' => P a s' /\ Q a s') s.
Proof. unfold wp, pc. destruct (m s) as [[a s']|]; [|done]. intros HP HQ. eauto. Qed.
End pc_rules.

(** * Tactics *)

(** Cases on the first boolean or option test of the goal, keeping the
    equation in a form [lia] reads. *)
Ltac case_test :=
  match goal with
  | |- context [if ?b then _ else _] =>
      lazymatch b with
      | context [if _ then _ else _] => fail
      | _ => let E := fresh "E" in destruct b eqn:E
      end
  end.

(** Splits the first [n] cells off a buffer known to be long enough. *)
Ltac split_cells b n :=
  lazymatch n with
  | O => idtac
  | S ?m =>
      let x := fresh "c" in
      destruct b as [|x b];
      [exfalso; autorewrite with zlen in *; lia | split_cells b m]
  end.

(** Arithmetic over lengths. *)
Ltac zlen_nonnegs :=
  repeat match goal with
  | |- context [zlen ?l] =>
      lazymatch goal with
      | _ : 0 <= zlen l |- _ => fail
      | _ => pose proof (zlen_nonneg l)
      end
  | _ : context [zlen ?l] |- _ =>
      lazymatch goal with
      | _ : 0 <= zlen l |- _ => fail
      | _ => pose proof (zlen_nonneg l)
      end
  end.
Ltac zlen_lia := autorewrite with zlen in *; zlen_nonnegs; lia.

(** Closes the side conditions of a theorem at a concrete input. *)
Ltac closed :=
  first [ apply bytes_ok_dec; vm_compute; reflexivity
        | vm_compute; reflexivity
        | vm_compute; intuition congruence ].
