(* ===== verification/Wire.v ===== *)
(** Little-endian integers on the wire, as the plugin cores read and write
    them, and the two-byte response header every plugin protocol shares. *)
From stdpp Require Import base numbers list option.
From Stdlib Require Import ZArith Lia.
From S2P Require Import Prelude.

Local Open Scope Z_scope.
Local Open Scope squid_scope.

(** [write_u16(output + i, value)]. *)
Definition write_u16 (output : list Z) (i value : Z) : option (list Z) :=
  let? output := wr output i (u8 (Z.land value 255)) in
  wr output (i + 1) (u8 (Z.shiftr value 8)).

(** [write_i16]: the two's complement bits of a signed value. *)
Definition write_i16 (output : list Z) (i value : Z) : option (list Z) :=
  write_u16 output i (u16 value).

Definition write_u32 (output : list Z) (i value : Z) : option (list Z) :=
  let? output := wr output i (u8 (Z.land value 255)) in
  let? output := wr output (i + 1) (u8 (Z.shiftr value 8)) in
  let? output := wr output (i + 2) (u8 (Z.shiftr value 16)) in
  wr output (i + 3) (u8 (Z.shiftr value 24)).

Definition read_u16 (input : list Z) (i : Z) : option Z :=
  let? b0 := rd input i in
  let? b1 := rd input (i + 1) in
  Some (u16 (Z.lor b0 (Z.shiftl b1 8))).

Definition read_u32 (input : list Z) (i : Z) : option Z :=
  let? b0 := rd input i in
  let? b1 := rd input (i + 1) in
  let? b2 := rd input (i + 2) in
  let? b3 := rd input (i + 3) in
  Some (Z.lor (Z.lor (Z.lor b0 (u32 (Z.shiftl b1 8))) (u32 (Z.shiftl b2 16)))
          (u32 (Z.shiftl b3 24))).

(** [write_status] / [write_response]: the header of every response.
    [response] is the pointer argument, [None] being [NULL]. *)
Definition write_status (opcode status : Z) (response : option (list Z))
    (response_capacity : Z) : option (list Z * Z) :=
  match response with
  | None => Some ([], -1)
  | Some response =>
      if response_capacity <? 2 then Some (response, -1)
      else
        let? response := wr response 0 (u8 (Z.lor opcode 128)) in
        let? response := wr response 1 status in
        Some (response, 2)
  end.

(** * The byte sequences these functions produce *)

Definition le16 (v : Z) : list Z := [u8 (Z.land v 255); u8 (Z.shiftr v 8)].
Definition le32 (v : Z) : list Z :=
  [u8 (Z.land v 255); u8 (Z.shiftr v 8); u8 (Z.shiftr v 16); u8 (Z.shiftr v 24)].

Lemma zlen_le16 v : zlen (le16 v) = 2.
Proof. reflexivity. Qed.
Lemma zlen_le32 v : zlen (le32 v) = 4.
Proof. reflexivity. Qed.
#[export] Hint Rewrite zlen_le16 zlen_le32 : zlen.

(** First two bytes of the response to [opcode]. *)
Definition header (opcode status : Z) : list Z := [u8 (Z.lor opcode 128); status].

(** What a client reads back from [le16] and [le32]. *)
Definition of_le16 (a b : Z) : Z := a + 256 * b.
Definition of_le32 (a b c d : Z) : Z := a + 256 * (b + 256 * (c + 256 * d)).

Lemma land_255 v : Z.land v 255 = v mod 256.
Proof. change 255 with (Z.ones 8). rewrite Z.land_ones; [done|lia]. Qed.

Lemma lor_shiftl a b k : 0 <= k -> 0 <= a < 2 ^ k -> Z.lor a (Z.shiftl b k) = a + b * 2 ^ k.
Proof.
  intros Hk Ha. rewrite <- Z.shiftl_mul_pow2 by done.
  symmetry. apply Z.add_nocarry_lor.
  apply Z.bits_inj'. intros n Hn. rewrite Z.land_spec, Z.bits_0.
  destruct (Z.ltb_spec n k).
  - rewrite Z.shiftl_spec_low by lia. by rewrite andb_false_r.
  - rewrite <- (Z.mod_small a (2 ^ k)) by lia. by rewrite Z.mod_pow2_bits_high by lia.
Qed.

Lemma read_u16_val a b : 0 <= a < 256 -> 0 <= b < 256 ->
  u16 (Z.lor a (Z.shiftl b 8)) = of_le16 a b.
Proof.
  intros. rewrite lor_shiftl by lia. unfold of_le16.
  rewrite u16_small by lia. lia.
Qed.

Lemma read_u32_val a b c d :
  0 <= a < 256 -> 0 <= b < 256 -> 0 <= c < 256 -> 0 <= d < 256 ->
  Z.lor (Z.lor (Z.lor a (u32 (Z.shiftl b 8))) (u32 (Z.shiftl c 16))) (u32 (Z.shiftl d 24))
  = of_le32 a b c d.
Proof.
  intros. rewrite !(u32_small (Z.shiftl _ _)) by (rewrite Z.shiftl_mul_pow2; lia).
  rewrite (lor_shiftl a), (lor_shiftl _ c), (lor_shiftl _ d) by lia.
  unfold of_le32. lia.
Qed.

(** Reading inside a request succeeds and gives a value of the width. *)
Lemma read_u16_ok b i : bytes_ok b -> 0 <= i -> i + 2 <= zlen b ->
  exists v, read_u16 b i = Some v /\ 0 <= v < 65536.
Proof.
  intros Hb ? ?. unfold read_u16.
  destruct (rd_ok b i) as (x & -> & _); [done|lia|].
  destruct (rd_ok b (i + 1)) as (y & -> & _); [done|lia|]. eauto with squid.
Qed.
Lemma read_u32_ok b i : bytes_ok b -> 0 <= i -> i + 4 <= zlen b ->
  exists v, read_u32 b i = Some v /\ 0 <= v < 4294967296.
Proof.
  intros Hb ? ?. unfold read_u32.
  destruct (rd_ok b i) as (x & -> & Hx); [done|lia|].
  destruct (rd_ok b (i + 1)) as (y & -> & Hy); [done|lia|].
  destruct (rd_ok b (i + 2)) as (z & -> & Hz); [done|lia|].
  destruct (rd_ok b (i + 3)) as (w & -> & Hw); [done|lia|].
  eexists. split; [done|]. rewrite read_u32_val by done. unfold of_le32. lia.
Qed.

Lemma le16_ok v : bytes_ok (le16 v).
Proof. repeat constructor; apply u8_range. Qed.
Lemma le32_ok v : bytes_ok (le32 v).
Proof. repeat constructor; apply u8_range. Qed.
#[export] Hint Resolve le16_ok le32_ok : squid.

Lemma of_le16_le16 v : 0 <= v < 65536 ->
  of_le16 (u8 (Z.land v 255)) (u8 (Z.shiftr v 8)) = v.
Proof.
  intros. rewrite land_255. unfold of_le16, u8. rewrite Z.shiftr_div_pow2 by lia.
  change (2 ^ 8) with 256. rewrite Z.mod_mod by lia.
  rewrite (Z.mod_small (v / 256)) by (split; [apply Z.div_pos|apply Z.div_lt_upper_bound]; lia).
  pose proof (Z.div_mod v 256). lia.
Qed.

Lemma of_le32_le32 v : 0 <= v < 4294967296 ->
  of_le32 (u8 (Z.land v 255)) (u8 (Z.shiftr v 8)) (u8 (Z.shiftr v 16)) (u8 (Z.shiftr v 24)) = v.
Proof.
  intros. rewrite land_255. unfold of_le32, u8. rewrite !Z.shiftr_div_pow2 by lia.
  change (2 ^ 8) with 256. change (2 ^ 16) with 65536. change (2 ^ 24) with 16777216.
  rewrite Z.mod_mod by lia. Z.div_mod_to_equations. lia.
Qed.

(** The bytes of a value that was read. *)
Lemma le32_of_le32 a b c d :
  is_byte a -> is_byte b -> is_byte c -> is_byte d -> le32 (of_le32 a b c d) = [a; b; c; d].
Proof.
  unfold is_byte, le32, of_le32. intros. rewrite land_255. unfold u8.
  rewrite !Z.shiftr_div_pow2 by lia.
  change (2 ^ 8) with 256. change (2 ^ 16) with 65536. change (2 ^ 24) with 16777216.
  rewrite Z.mod_mod by lia. repeat f_equal; Z.div_mod_to_equations; lia.
Qed.
Lemma read_u32_inv b i v : bytes_ok b -> 0 <= i -> read_u32 b i = Some v ->
  take 4 (drop (Z.to_nat i) b) = le32 v.
Proof.
  intros Hb Hi. unfold read_u32.
  destruct (rd b i) eqn:?; [|done]. destruct (rd b (i + 1)) eqn:?; [|done].
  destruct (rd b (i + 2)) eqn:?; [|done]. destruct (rd b (i + 3)) eqn:?; [|done]. intros [= <-].
  repeat match goal with E : rd b _ = Some _ |- _ => apply rd_inv in E as (_ & E & _) end.
  rewrite read_u32_val by (by eapply bytes_ok_lookup).
  rewrite le32_of_le32 by (by eapply bytes_ok_lookup).
  replace (Z.to_nat (i + 1)) with (Z.to_nat i + 1)%nat in * by lia.
  replace (Z.to_nat (i + 2)) with (Z.to_nat i + 2)%nat in * by lia.
  replace (Z.to_nat (i + 3)) with (Z.to_nat i + 3)%nat in * by lia.
  rewrite <- !lookup_drop in * |-.
  assert (E0 : drop (Z.to_nat i) b !! 0%nat = Some z) by (by rewrite lookup_drop, Nat.add_0_r).
  destruct (drop (Z.to_nat i) b) as [|? [|? [|? [|? ?]]]]; cbn in *; rewrite ?take_0; congruence.
Qed.

(** A value written at an offset is stored as its little-endian bytes. *)
Lemma write_u16_app p q i v :
  i = zlen p -> 2 <= zlen q ->
  write_u16 (p ++ q) i v = Some (p ++ le16 v ++ drop 2 q).
Proof.
  intros -> Hq. unfold write_u16.
  destruct q as [|a [|b q]]; try zlen_lia.
  rewrite wr_app by done. by rewrite wr_past by lia.
Qed.

Lemma write_u32_app p q i v :
  i = zlen p -> 4 <= zlen q ->
  write_u32 (p ++ q) i v = Some (p ++ le32 v ++ drop 4 q).
Proof.
  intros -> Hq. unfold write_u32.
  destruct q as [|a [|b [|c [|d q]]]]; try zlen_lia.
  rewrite wr_app by done. do 3 (rewrite wr_past by lia; cbn -[zlen Z.add u8 Z.land Z.shiftr]).
  done.
Qed.

(** * The response convention

    "Every response starts with [request_opcode | 0x80][status].  When
    status is not OK, those are the only two response bytes."  [reply_ok]
    says that a result [n] and the buffer after the call follow it; -1 means
    that no response is sent. *)
Definition reply_ok (opcode cap : Z) (buf buf' : list Z) (n : Z) : Prop :=
  length buf' = length buf /\
  (n = -1 \/
   2 <= n <= cap /\
   exists status body,
     take (Z.to_nat n) buf' = header opcode status ++ body /\ (status <> 0 -> body = [])).

Definition framed (opcode cap : Z) (buf : list Z) (res : option (list Z * Z)) : Prop :=
  exists buf' n, res = Some (buf', n) /\ reply_ok opcode cap buf buf' n.

Lemma write_status_eq opcode status buf cap :
  2 <= cap <= zlen buf ->
  write_status opcode status (Some buf) cap = Some (header opcode status ++ drop 2 buf, 2).
Proof.
  intros Hc. cbn. destruct (Z.ltb_spec cap 2); [lia|]. by split_cells buf 2%nat.
Qed.

Lemma reply_none opcode cap buf buf' : length buf' = length buf -> reply_ok opcode cap buf buf' (-1).
Proof. intros. split; [done|by left]. Qed.

Lemma reply_status opcode cap buf status :
  2 <= cap <= zlen buf -> reply_ok opcode cap buf (header opcode status ++ drop 2 buf) 2.
Proof.
  intros Hc. split_cells buf 2%nat. split; [done|right]. split; [lia|].
  exists status, []. done.
Qed.

Lemma reply_body opcode cap buf body n :
  2 + zlen body <= cap -> cap <= zlen buf -> n = 2 + zlen body ->
  reply_ok opcode cap buf (header opcode 0 ++ body ++ drop (2 + length body) buf) n.
Proof.
  intros Hc Hb ->. pose proof (zlen_nonneg body). split.
  - unfold zlen in *. rewrite !length_app, length_drop. cbn. lia.
  - right. split; [lia|]. exists 0, body. split; [|done].
    rewrite (app_assoc _ body). apply take_app_length'.
    rewrite length_app. unfold zlen. cbn. lia.
Qed.

(** A status-OK response of any size the buffer was filled for. *)
Lemma reply_success opcode cap buf rest n :
  length (header opcode 0 ++ rest) = length buf -> 2 <= n <= cap ->
  reply_ok opcode cap buf (header opcode 0 ++ rest) n.
Proof.
  intros Hl Hn. split; [done|right]. split; [done|].
  exists 0, (take (Z.to_nat (n - 2)) rest). split; [|done].
  replace (Z.to_nat n) with (2 + Z.to_nat (n - 2))%nat by lia. done.
Qed.

Lemma reply_ok_len opcode cap b buf buf' n :
  length b = length buf -> reply_ok opcode cap b buf' n -> reply_ok opcode cap buf buf' n.
Proof. unfold reply_ok. by intros ->. Qed.

Lemma framed_none opcode cap buf : framed opcode cap buf (Some (buf, -1)).
Proof. exists buf, (-1). split; [done|]. by apply reply_none. Qed.

Lemma framed_status opcode cap buf status :
  2 <= cap <= zlen buf -> framed opcode cap buf (write_status opcode status (Some buf) cap).
Proof.
  intros. rewrite write_status_eq by done. eexists _, _. split; [done|].
  by apply reply_status.
Qed.
#[export] Hint Resolve framed_none framed_status reply_none reply_status : squid.
