(* ===== verification/CLib.v ===== *)
(** The C library text functions the sources use: character classes of the
    "C" locale, NUL-terminated strings, [strtok], [strrchr] and the
    [strtol] family. *)
From stdpp Require Import base numbers list strings option.
From Stdlib Require Import ZArith Lia Ascii.
From S2P Require Import Prelude.

Local Open Scope Z_scope.
Local Open Scope squid_scope.

(** A string literal as its bytes, without the terminating NUL. *)
Definition text (s : string) : list Z :=
  map (fun c => Z.of_N (N_of_ascii c)) (String.list_ascii_of_string s).
Arguments text s%_string : simpl never.

Definition isspace (c : Z) : bool := (c =? 32) || ((9 <=? c) && (c <=? 13)).
Definition isdigit (c : Z) : bool := (48 <=? c) && (c <=? 57).
Definition isxdigit (c : Z) : bool :=
  isdigit c || ((97 <=? c) && (c <=? 102)) || ((65 <=? c) && (c <=? 70)).
Definition tolower (c : Z) : Z := if (65 <=? c) && (c <=? 90) then c + 32 else c.

Definition ch_slash : Z := 47.
Definition ch_dot : Z := 46.

(** A C string value: bytes without NUL. *)
Definition cstr_ok (s : list Z) : Prop := Forall (fun c => 0 < c < 256) s.

(** The string a [char] array holds: [None] when no NUL is found inside it or
    an indeterminate cell comes first. *)
Fixpoint cstring (b : list Z) : option (list Z) :=
  match b with
  | [] => None
  | c :: b =>
      if c <? 0 then None
      else if c =? 0 then Some []
      else match cstring b with Some s => Some (c :: s) | None => None end
  end.

(** The string in the buffer: the bytes before the first NUL. *)
Fixpoint before_nul (s : list Z) : list Z :=
  match s with
  | [] => []
  | c :: s => if c =? 0 then [] else c :: before_nul s
  end.

Definition eq_text (a b : list Z) : bool := bool_decide (a = b).

(** [strtok]: the maximal runs of characters that are not delimiters, in
    order; [strtok_r] called until it returns [NULL] yields this list. *)
Fixpoint tokens_from (delim : Z -> bool) (cur s : list Z) : list (list Z) :=
  match s with
  | [] => match cur with [] => [] | _ => [cur] end
  | c :: s =>
      if delim c then
        match cur with
        | [] => tokens_from delim [] s
        | _ => cur :: tokens_from delim [] s
        end
      else tokens_from delim (cur ++ [c]) s
  end.
Definition strtok_all (delim : Z -> bool) (s : list Z) : list (list Z) :=
  tokens_from delim [] s.

(** All fields between separators, empty ones included. *)
Fixpoint split_from (sep : Z) (cur s : list Z) : list (list Z) :=
  match s with
  | [] => [cur]
  | c :: s => if c =? sep then cur :: split_from sep [] s else split_from sep (cur ++ [c]) s
  end.

(** [strrchr s c]: index of the last occurrence. *)
Fixpoint strrchr (s : list Z) (c : Z) : option nat :=
  match s with
  | [] => None
  | x :: s =>
      match strrchr s c with
      | Some i => Some (S i)
      | None => if x =? c then Some O else None
      end
  end.

Fixpoint skip_while (p : Z -> bool) (s : list Z) : list Z :=
  match s with
  | [] => []
  | c :: s' => if p c then skip_while p s' else s
  end.

Fixpoint span (p : Z -> bool) (s : list Z) : list Z * list Z :=
  match s with
  | [] => ([], [])
  | c :: s' => if p c then let '(a, b) := span p s' in (c :: a, b) else ([], s)
  end.

Definition decimal (ds : list Z) : Z := fold_left (fun n d => 10 * n + (d - 48)) ds 0.

Definition LONG_MIN : Z := -9223372036854775808.
Definition LONG_MAX : Z := 9223372036854775807.

(** [strtol(s, &tail, 10)]: the value, clamped to [long], and the tail; the
    tail is [s] itself when no number is found. *)
Definition strtol (s : list Z) : Z * list Z :=
  let s1 := skip_while isspace s in
  let '(sign, s2) :=
    match s1 with
    | 45 :: r => (-1, r)
    | 43 :: r => (1, r)
    | _ => (1, s1)
    end in
  let '(ds, tail) := span isdigit s2 in
  match ds with
  | [] => (0, s)
  | _ => (Z.max LONG_MIN (Z.min LONG_MAX (sign * decimal ds)), tail)
  end.

(** [strtoul]/[strtoull] with 64-bit results: value, tail and whether
    [errno] is set to [ERANGE]; a minus sign negates modulo 2^64. *)
Definition strtoul (s : list Z) : Z * list Z * bool :=
  let s1 := skip_while isspace s in
  let '(neg, s2) :=
    match s1 with
    | 45 :: r => (true, r)
    | 43 :: r => (false, r)
    | _ => (false, s1)
    end in
  let '(ds, tail) := span isdigit s2 in
  match ds with
  | [] => (0, s, false)
  | _ =>
      let v := decimal ds in
      if v <? 2 ^ 64 then (if neg then u64 (- v) else v, tail, false)
      else (2 ^ 64 - 1, tail, true)
  end.

(** [snprintf(buf, capacity, ...)] of a text [s]: what the array holds as a
    string, and the length that would have been written. *)
Definition snprintf (capacity : Z) (s : list Z) : list Z * Z :=
  (take (Z.to_nat (capacity - 1)) s, zlen s).

(** The decimal digits of [n], as [printf("%u")] prints them, for a value
    below [10 ^ fuel]. *)
Fixpoint digits (fuel : nat) (n : Z) : list Z :=
  match fuel with
  | O => []
  | S fuel => (if n <? 10 then [] else digits fuel (n / 10)) ++ [48 + n mod 10]
  end.

Lemma cstring_app s rest : cstr_ok s -> cstring (s ++ 0 :: rest) = Some s.
Proof.
  induction 1 as [|c s Hc Hs IH]; [done|]. cbn. rewrite IH.
  destruct (Z.ltb_spec c 0), (Z.eqb_spec c 0); try lia; done.
Qed.

Lemma eq_text_true a b : eq_text a b = true <-> a = b.
Proof. apply bool_decide_eq_true. Qed.

Lemma tokens_from_app delim cur s :
  Forall (fun c => delim c = false) s ->
  tokens_from delim cur s = match cur ++ s with [] => [] | _ => [cur ++ s] end.
Proof.
  revert cur. induction s as [|c s IH]; intros cur H; cbn.
  - rewrite app_nil_r. by destruct cur.
  - apply Forall_cons_1 in H as [Hc Hs]. rewrite Hc, IH by done.
    by rewrite <- app_assoc.
Qed.

(** ** Printing and reading numbers *)

Lemma digits_isdigit fuel n : 0 <= n -> Forall (fun c => isdigit c = true) (digits fuel n).
Proof.
  revert n. induction fuel as [|fuel IH]; intros n Hn; [constructor|]. cbn [digits].
  pose proof (Z.mod_pos_bound n 10). pose proof (Z.div_pos n 10).
  apply Forall_app. split.
  - destruct (n <? 10); [constructor|apply IH; lia].
  - repeat constructor. unfold isdigit. lia.
Qed.

Lemma decimal_snoc ds d : decimal (ds ++ [d]) = 10 * decimal ds + (d - 48).
Proof. unfold decimal. by rewrite fold_left_app. Qed.

Lemma decimal_digits fuel n : 0 <= n < 10 ^ Z.of_nat fuel -> decimal (digits fuel n) = n.
Proof.
  revert n. induction fuel as [|fuel IH]; intros n Hn.
  - cbn in *. lia.
  - rewrite Nat2Z.inj_succ, Z.pow_succ_r in Hn by lia. cbn [digits]. rewrite decimal_snoc.
    pose proof (Z.div_mod n 10). pose proof (Z.mod_pos_bound n 10).
    destruct (Z.ltb_spec n 10).
    + rewrite Z.mod_small by lia. cbn. lia.
    + rewrite IH; [lia|]. split; [apply Z.div_pos; lia|apply Z.div_lt_upper_bound; lia].
Qed.

Lemma digits_nonempty fuel n : digits (S fuel) n <> [].
Proof. cbn [digits]. by destruct (if n <? 10 then _ else _). Qed.

Lemma span_all p s : Forall (fun c => p c = true) s -> span p s = (s, []).
Proof. induction 1 as [|c s Hc _ IH]; [done|]. cbn. by rewrite Hc, IH. Qed.

(** [strtol] reads back what [printf("%u")] writes. *)
Lemma strtol_digits fuel n :
  0 <= n < 10 ^ Z.of_nat (S fuel) -> n <= LONG_MAX -> strtol (digits (S fuel) n) = (n, []).
Proof.
  intros Hn Hmax.
  pose proof (digits_isdigit (S fuel) n ltac:(lia)) as Hd.
  pose proof (decimal_digits (S fuel) n Hn) as Hv.
  pose proof (digits_nonempty fuel n) as Hne.
  destruct (digits (S fuel) n) as [|c ds]; [done|]. unfold strtol.
  assert (Hc : 48 <= c <= 57).
  { apply Forall_cons_1 in Hd as [Hc _]. unfold isdigit in Hc. lia. }
  assert (Hsp : skip_while isspace (c :: ds) = c :: ds).
  { cbn [skip_while]. unfold isspace.
    by destruct (Z.eqb_spec c 32), (Z.leb_spec c 13); try lia; rewrite ?andb_false_r. }
  rewrite Hsp.
  assert (Hsign : (match c :: ds with
    | 45 :: r => (-1, r) | 43 :: r => (1, r) | _ => (1, c :: ds) end) = (1, c :: ds)).
  { assert (Hcases : c = 48 \/ c = 49 \/ c = 50 \/ c = 51 \/ c = 52 \/ c = 53 \/ c = 54
      \/ c = 55 \/ c = 56 \/ c = 57) by lia.
    by repeat destruct Hcases as [->|Hcases]; [..|subst c]. }
  rewrite Hsign, (span_all isdigit) by done. rewrite Hv. unfold LONG_MIN.
  f_equal. unfold LONG_MAX in *. lia.
Qed.

Lemma text_cstr_ok s : forallb (fun c => (0 <? c) && (c <? 256)) (text s) = true -> cstr_ok (text s).
Proof.
  unfold cstr_ok. induction (text s) as [|c l IH]; [constructor|]. cbn. intros H.
  apply andb_true_iff in H as [H1 H2]. constructor; [lia|by apply IH].
Qed.

Lemma cstr_bytes s : cstr_ok s -> bytes_ok s.
Proof. induction 1 as [|c l Hc _ IH]; constructor; [unfold is_byte; lia|exact IH]. Qed.
#[export] Hint Resolve cstr_bytes : squid.

(** The string in an array is what stands before its first NUL. *)
Lemma cstring_before_nul o rest : bytes_ok o -> cstring (o ++ 0 :: rest) = Some (before_nul o).
Proof.
  induction 1 as [|c o Hc Ho IH]; [done|]. cbn. unfold is_byte in Hc.
  destruct (Z.ltb_spec c 0), (Z.eqb_spec c 0); try lia; [done|]. by rewrite IH.
Qed.

Lemma before_nul_prefix s : before_nul s `prefix_of` s.
Proof.
  induction s as [|c s IH]; cbn; [done|]. destruct (c =? 0); [apply prefix_nil|].
  by apply prefix_cons.
Qed.
Lemma before_nul_id s : cstr_ok s -> before_nul s = s.
Proof. induction 1 as [|c s Hc _ IH]; cbn; [done|]. destruct (Z.eqb_spec c 0); [lia|by rewrite IH]. Qed.

(** [fgets(buffer, n + 1, file)]: the bytes up to and including the
    first newline, at most [n], and the rest of the file. *)
Fixpoint fgets (n : nat) (file : list Z) : list Z * list Z :=
  match n, file with
  | O, _ => ([], file)
  | _, [] => ([], [])
  | S n, c :: file =>
      if c =? 10 then ([c], file)
      else let '(line, rest) := fgets n file in (c :: line, rest)
  end.

Lemma fgets_app n file : let '(chunk, rest) := fgets n file in file = chunk ++ rest.
Proof.
  revert file. induction n as [|n IH]; intros [|c file]; cbn; try done.
  destruct (c =? 10); [done|]. specialize (IH file). destruct (fgets n file) as [a b].
  by rewrite IH.
Qed.

Lemma fgets_line n l rest :
  10 ∉ l -> (length l < n)%nat -> fgets n (l ++ 10 :: rest) = (l ++ [10], rest).
Proof.
  revert n. induction l as [|c l IH]; intros n Hnl Hn; destruct n as [|n]; cbn in *; try lia; [done|].
  apply not_elem_of_cons in Hnl as [Hc Hl].
  destruct (Z.eqb_spec c 10); [congruence|]. by rewrite IH by (done || lia).
Qed.

Lemma fgets_last n l : 10 ∉ l -> (length l <= n)%nat -> fgets n l = (l, []).
Proof.
  revert n. induction l as [|c l IH]; intros n Hnl Hn; destruct n as [|n]; cbn in *; try lia; try done.
  apply not_elem_of_cons in Hnl as [Hc Hl].
  destruct (Z.eqb_spec c 10); [congruence|]. by rewrite IH by (done || lia).
Qed.
