(* ===== verification/Time.v ===== *)
(** The time plugin (lib/time): the request handler of time_core.c and the
    packet entry of time_plugin.c.  The host clock ([time], [gmtime_r],
    [localtime_r], [strftime "%z"]) is a parameter. *)
From stdpp Require Import base numbers list option.
From Stdlib Require Import ZArith Lia.
From S2P Require Import Prelude CLib Wire.

Local Open Scope Z_scope.
Local Open Scope squid_scope.

(** ** Protocol constants (time_protocol.h) *)

Definition SQUID_TIME_PROTOCOL_VERSION : Z := 1.
Definition SQUID_TIME_OP_CAPABILITIES : Z := 0.
Definition SQUID_TIME_OP_GET : Z := 1.
Definition SQUID_TIME_RESPONSE_BIT : Z := 128.
Definition SQUID_TIME_STATUS_OK : Z := 0.
Definition SQUID_TIME_STATUS_BAD_REQUEST : Z := 1.
Definition SQUID_TIME_STATUS_UNAVAILABLE : Z := 2.
Definition SQUID_TIME_MODE_UTC : Z := 0.
Definition SQUID_TIME_MODE_LOCAL : Z := 1.
Definition SQUID_TIME_FEATURE_UTC : Z := 1.
Definition SQUID_TIME_FEATURE_LOCAL : Z := 2.
Definition SQUID_TIME_FEATURE_UNIX : Z := 4.
Definition SQUID_TIME_WEEKDAY_MASK : Z := 7.
Definition SQUID_TIME_DST_BIT : Z := 128.
Definition SQUID_TIME_UNIX_UNKNOWN : Z := 4294967295.
Definition SQUID_TIME_REPLY_SIZE : Z := 16.

(** ** The host clock *)

Record tm := Tm {
  tm_sec : Z; tm_min : Z; tm_hour : Z; tm_mday : Z; tm_mon : Z;
  tm_year : Z; tm_wday : Z; tm_isdst : Z }.

Record clock := Clock {
  time_now : Z;                        (** [time(NULL)], -1 on failure *)
  gmtime_r : Z -> option tm;
  localtime_r : Z -> option tm;
  strftime_z : tm -> list Z }.         (** the text "%z" expands to *)

(** ** time_core.c *)

(** [None] is the return value -1, [Some] the offset stored. *)
Definition parse_utc_offset (c : clock) (local_time : tm) : option Z :=
  let z := strftime_z c local_time in
  (* strftime stores nothing and returns 0 when text and NUL exceed 8 bytes *)
  let text := if zlen z <? 8 then z else [] in
  match text with
  | [t0; t1; t2; t3; t4] =>
      if negb ((t0 =? 43) || (t0 =? 45)) || negb (isdigit t1) || negb (isdigit t2)
         || negb (isdigit t3) || negb (isdigit t4) then None
      else
        let sign := if t0 =? 45 then -1 else 1 in
        let hours := (t1 - 48) * 10 + (t2 - 48) in
        let minutes := (t3 - 48) * 10 + (t4 - 48) in
        if (23 <? hours) || (59 <? minutes) then None
        else
          let total := sign * (hours * 60 + minutes) in
          if (total <? -32768) || (32767 <? total) then None
          else Some (s16 total)
  | _ => None
  end.

Definition handle_capabilities (opcode : Z) (response : list Z) (response_capacity : Z)
    : option (list Z * Z) :=
  if response_capacity <? 5 then Some (response, -1)
  else
    let? response := wr response 0 (u8 (Z.lor opcode SQUID_TIME_RESPONSE_BIT)) in
    let? response := wr response 1 SQUID_TIME_STATUS_OK in
    let? response := wr response 2 SQUID_TIME_PROTOCOL_VERSION in
    let? response := wr response 3
      (Z.lor (Z.lor SQUID_TIME_FEATURE_UTC SQUID_TIME_FEATURE_LOCAL)
         SQUID_TIME_FEATURE_UNIX) in
    let? response := wr response 4 SQUID_TIME_REPLY_SIZE in
    Some (response, 5).

(** The successful tail of [handle_get]: the 16-byte record. *)
Definition write_time_record (opcode mode now utc_offset : Z) (broken_down : tm)
    (response : list Z) : option (list Z * Z) :=
  let unix_time :=
    if (0 <=? now) && (now <=? UINT32_MAX) then u32 now else SQUID_TIME_UNIX_UNKNOWN in
  let weekday := u8 (Z.land (tm_wday broken_down) SQUID_TIME_WEEKDAY_MASK) in
  let weekday :=
    if (mode =? SQUID_TIME_MODE_LOCAL) && (0 <? tm_isdst broken_down)
    then Z.lor weekday SQUID_TIME_DST_BIT else weekday in
  let? response := wr response 0 (u8 (Z.lor opcode SQUID_TIME_RESPONSE_BIT)) in
  let? response := wr response 1 SQUID_TIME_STATUS_OK in
  let? response := write_u16 response 2 (u16 (tm_year broken_down + 1900)) in
  let? response := wr response 4 (u8 (tm_mon broken_down + 1)) in
  let? response := wr response 5 (u8 (tm_mday broken_down)) in
  let? response := wr response 6 (u8 (tm_hour broken_down)) in
  let? response := wr response 7 (u8 (tm_min broken_down)) in
  let? response := wr response 8 (u8 (tm_sec broken_down)) in
  let? response := wr response 9 weekday in
  let? response := write_i16 response 10 utc_offset in
  let? response := write_u32 response 12 unix_time in
  Some (response, SQUID_TIME_REPLY_SIZE).

Definition handle_get (c : clock) (opcode mode : Z) (response : list Z)
    (response_capacity : Z) : option (list Z * Z) :=
  let now := time_now c in
  let unavailable :=
    write_status opcode SQUID_TIME_STATUS_UNAVAILABLE (Some response) response_capacity in
  if response_capacity <? SQUID_TIME_REPLY_SIZE then Some (response, -1)
  else if now =? -1 then unavailable
  else if mode =? SQUID_TIME_MODE_UTC then
    match gmtime_r c now with
    | None => unavailable
    | Some broken_down => write_time_record opcode mode now 0 broken_down response
    end
  else
    match localtime_r c now with
    | None => unavailable
    | Some broken_down =>
        match parse_utc_offset c broken_down with
        | None => unavailable
        | Some utc_offset =>
            write_time_record opcode mode now utc_offset broken_down response
        end
    end.

Definition handle_squid_time_request (c : clock) (request : option (list Z))
    (request_size : Z) (response : option (list Z)) (response_capacity : Z)
    : option (list Z * Z) :=
  match request, response with
  | Some request, Some response =>
      if (request_size =? 0) || (response_capacity <? 2) then Some (response, -1)
      else
        let bad opcode :=
          write_status opcode SQUID_TIME_STATUS_BAD_REQUEST (Some response)
            response_capacity in
        let? opcode := rd request 0 in
        if opcode =? SQUID_TIME_OP_CAPABILITIES then
          if negb (request_size =? 1) then bad opcode
          else handle_capabilities opcode response response_capacity
        else if opcode =? SQUID_TIME_OP_GET then
          if negb (request_size =? 2) then bad opcode
          else
            let? mode := rd request 1 in
            if negb (mode =? SQUID_TIME_MODE_UTC)
               && negb (mode =? SQUID_TIME_MODE_LOCAL) then bad opcode
            else handle_get c opcode mode response response_capacity
        else bad opcode
  | _, Some response => Some (response, -1)
  | _, None => Some ([], -1)
  end.

(** ** Lemmas *)

Lemma handle_capabilities_framed opcode buf cap :
  2 <= cap <= zlen buf -> framed opcode cap buf (handle_capabilities opcode buf cap).
Proof.
  intros Hc. unfold handle_capabilities. case_test; [by apply framed_none|].
  assert (5 <= cap) by lia. split_cells buf 5%nat. cbn.
  eexists _, _. split; [done|].
  apply (reply_body _ _ (_ :: _ :: _ :: _ :: _ :: buf) [_; _; _]); zlen_lia.
Qed.

(** The record as a byte sequence. *)
Definition time_record (mode now utc_offset : Z) (t : tm) : list Z :=
  let unix_time :=
    if (0 <=? now) && (now <=? UINT32_MAX) then u32 now else SQUID_TIME_UNIX_UNKNOWN in
  let weekday := u8 (Z.land (tm_wday t) SQUID_TIME_WEEKDAY_MASK) in
  let weekday :=
    if (mode =? SQUID_TIME_MODE_LOCAL) && (0 <? tm_isdst t)
    then Z.lor weekday SQUID_TIME_DST_BIT else weekday in
  le16 (u16 (tm_year t + 1900)) ++
  [u8 (tm_mon t + 1); u8 (tm_mday t); u8 (tm_hour t); u8 (tm_min t); u8 (tm_sec t); weekday]
  ++ le16 (u16 utc_offset) ++ le32 unix_time.

Lemma time_record_len mode now off t : zlen (time_record mode now off t) = 14.
Proof. reflexivity. Qed.

Lemma write_time_record_eq opcode mode now off t buf :
  16 <= zlen buf ->
  write_time_record opcode mode now off t buf =
    Some (header opcode 0 ++ time_record mode now off t ++ drop 16 buf, 16).
Proof. intros H. split_cells buf 16%nat. reflexivity. Qed.

Lemma handle_get_framed c opcode mode buf cap :
  2 <= cap <= zlen buf -> framed opcode cap buf (handle_get c opcode mode buf cap).
Proof.
  intros Hc. unfold handle_get. case_test; [by apply framed_none|].
  assert (Hrec : forall off t, framed opcode cap buf
    (write_time_record opcode mode (time_now c) off t buf)).
  { intros off t. unfold SQUID_TIME_REPLY_SIZE in *.
    rewrite write_time_record_eq by lia. eexists _, _. split; [done|].
    apply (reply_body _ _ buf (time_record mode (time_now c) off t));
      rewrite ?time_record_len; lia. }
  repeat case_match; auto with squid.
Qed.

Lemma time_request_spec c request request_size buf cap :
  bytes_ok request -> 0 <= request_size <= zlen request -> cap <= zlen buf ->
  exists buf' n,
    handle_squid_time_request c (Some request) request_size (Some buf) cap
      = Some (buf', n) /\
    (request_size = 0 \/ cap < 2 -> buf' = buf /\ n = -1) /\
    (forall opcode, request !! O = Some opcode -> reply_ok opcode cap buf buf' n).
Proof.
  intros Hreq Hsz Hcap. unfold handle_squid_time_request.
  destruct ((request_size =? 0) || (cap <? 2)) eqn:E.
  { exists buf, (-1). split_and!; [done..|]. auto with squid. }
  destruct (rd_ok request 0) as (op & Hop & _); [done|lia|].
  rewrite Hop. pose proof (rd_inv _ _ _ Hop) as (_ & Hlk & _).
  assert (2 <= cap <= zlen buf) by lia.
  match goal with |- exists _ _, ?r = _ /\ _ => assert (Hf : framed op cap buf r) end.
  { destruct (op =? _); [case_test; auto using handle_capabilities_framed with squid|].
    destruct (op =? _); [|by auto with squid].
    case_test; [by auto with squid|].
    destruct (rd_ok request 1) as (m & Hm & _); [done|lia|]. rewrite Hm.
    case_test; auto using handle_get_framed with squid. }
  destruct Hf as (b & n & Hr & Hok).
  exists b, n. split_and!; [done|lia|]. intros o Ho. change (Z.to_nat 0) with O in Hlk.
  by simplify_eq.
Qed.

(** What GET answers when the host clock works: the fields of the record,
    read back as a client reads them. *)
Definition decode_time (r : list Z) : option (Z * list Z * Z * Z) :=
  match r with
  | [_; _; y0; y1; mon; day; hour; min; sec; wday; o0; o1; u0; u1; u2; u3] =>
      Some (of_le16 y0 y1, [mon; day; hour; min; sec; wday],
            s16 (of_le16 o0 o1), of_le32 u0 u1 u2 u3)
  | _ => None
  end.

(** A broken-down time as [gmtime_r] and [localtime_r] fill it in for a year
    that fits the protocol. *)
Definition tm_ok (t : tm) : Prop :=
  0 <= tm_year t + 1900 < 65536 /\ 0 <= tm_mon t < 12 /\ 1 <= tm_mday t <= 31 /\
  0 <= tm_hour t < 24 /\ 0 <= tm_min t < 60 /\ 0 <= tm_sec t <= 60 /\ 0 <= tm_wday t < 7.

Lemma s16_u16 v : -32768 <= v < 32768 -> s16 (u16 v) = v.
Proof.
  intros H. unfold s16, swrap, u16. change (2 ^ 16) with 65536. change (2 ^ (16 - 1)) with 32768.
  rewrite Zplus_mod_idemp_l, Z.mod_small; lia.
Qed.

Lemma decode_time_record opcode mode now off t :
  tm_ok t -> -32768 <= off < 32768 ->
  decode_time (header opcode 0 ++ time_record mode now off t) =
    Some (tm_year t + 1900,
          [tm_mon t + 1; tm_mday t; tm_hour t; tm_min t; tm_sec t;
           if (mode =? SQUID_TIME_MODE_LOCAL) && (0 <? tm_isdst t)
           then Z.lor (tm_wday t) SQUID_TIME_DST_BIT else tm_wday t],
          off, if (0 <=? now) && (now <=? UINT32_MAX) then now else SQUID_TIME_UNIX_UNKNOWN).
Proof.
  intros (Hy & Hm & Hd & Hh & Hmi & Hs & Hw) Ho. unfold time_record, header, le16, le32.
  cbn [app decode_time].
  rewrite (u16_small (tm_year t + 1900)), !u8_small with (x := tm_mon t + 1) by lia.
  rewrite (u8_small (tm_mday t)), (u8_small (tm_hour t)), (u8_small (tm_min t)),
    (u8_small (tm_sec t)) by lia.
  assert (Hwd : u8 (Z.land (tm_wday t) SQUID_TIME_WEEKDAY_MASK) = tm_wday t).
  { unfold SQUID_TIME_WEEKDAY_MASK. change 7 with (Z.ones 3). rewrite Z.land_ones by lia.
    change (2 ^ 3) with 8. rewrite Z.mod_small, u8_small by lia. done. }
  rewrite Hwd, !of_le16_le16 by (apply u16_range || lia).
  rewrite s16_u16 by lia. do 2 f_equal.
  destruct ((0 <=? now) && (now <=? UINT32_MAX)) eqn:E.
  - unfold UINT32_MAX in E. rewrite (u32_small now) by lia. apply of_le32_le32. lia.
  - reflexivity.
Qed.

(** The offset text "+hhmm" or "-hhmm" is read as minutes. *)
Lemma parse_utc_offset_eq c t sign h1 h2 m1 m2 :
  sign = 43 \/ sign = 45 ->
  strftime_z c t = [sign; 48 + h1; 48 + h2; 48 + m1; 48 + m2] ->
  0 <= h1 <= 9 -> 0 <= h2 <= 9 -> 0 <= m1 <= 9 -> 0 <= m2 <= 9 ->
  10 * h1 + h2 <= 23 -> 10 * m1 + m2 <= 59 ->
  parse_utc_offset c t =
    Some ((if sign =? 45 then -1 else 1) * (60 * (10 * h1 + h2) + (10 * m1 + m2))).
Proof.
  intros Hsg Hz Hh1 Hh2 Hm1 Hm2 Hh Hm.
  unfold parse_utc_offset. rewrite Hz. cbn [zlen length]. unfold isdigit.
  change (zlen _ <? 8) with true. cbn iota.
  replace (negb ((sign =? 43) || (sign =? 45))) with false by (destruct Hsg; subst; done).
  repeat match goal with |- context [48 <=? 48 + ?x] =>
    replace (48 <=? 48 + x) with true by lia; replace (48 + x <=? 57) with true by lia end.
  cbn [andb negb orb].
  replace (23 <? (48 + h1 - 48) * 10 + (48 + h2 - 48)) with false by lia.
  replace (59 <? (48 + m1 - 48) * 10 + (48 + m2 - 48)) with false by lia. cbn [orb].
  set (v := _ * (_ * 60 + _)).
  assert (Hv : v = (if sign =? 45 then -1 else 1) * (60 * (10 * h1 + h2) + (10 * m1 + m2)))
    by (subst v; case_test; lia).
  assert (-32768 <= v <= 32767) by (rewrite Hv; case_test; lia).
  replace ((v <? -32768) || (32767 <? v)) with false by lia. rewrite <- Hv. f_equal.
  unfold s16, swrap. change (2 ^ 16) with 65536. change (2 ^ (16 - 1)) with 32768.
  rewrite Z.mod_small; lia.
Qed.

Lemma s16_range x : -32768 <= s16 x < 32768.
Proof.
  unfold s16, swrap. change (2 ^ 16) with 65536. change (2 ^ (16 - 1)) with 32768.
  pose proof (Z.mod_pos_bound (x + 32768) 65536). lia.
Qed.
Lemma parse_utc_offset_range c t off : parse_utc_offset c t = Some off -> -32768 <= off < 32768.
Proof.
  unfold parse_utc_offset. intros E. repeat case_match; simplify_eq; apply s16_range.
Qed.

(** The time a request asks for: UTC, or the local time with its offset. *)
Definition requested_time (c : clock) (mode : Z) (t : tm) (off : Z) : Prop :=
  time_now c <> -1 /\
  (mode = SQUID_TIME_MODE_UTC /\ gmtime_r c (time_now c) = Some t /\ off = 0 \/
   mode = SQUID_TIME_MODE_LOCAL /\ localtime_r c (time_now c) = Some t /\
   parse_utc_offset c t = Some off).

Lemma time_get_eq c mode buf cap t off :
  requested_time c mode t off -> 16 <= cap <= zlen buf ->
  handle_squid_time_request c (Some [SQUID_TIME_OP_GET; mode]) 2 (Some buf) cap =
    Some (header 1 0 ++ time_record mode (time_now c) off t ++ drop 16 buf, 16).
Proof.
  intros (Hnow & Hmode) Hcap. unfold handle_squid_time_request. destruct (Z.ltb_spec cap 2); [lia|].
  assert (Hget : handle_get c 1 mode buf cap =
    Some (header 1 0 ++ time_record mode (time_now c) off t ++ drop 16 buf, 16)).
  { unfold handle_get, SQUID_TIME_REPLY_SIZE. destruct (Z.ltb_spec cap 16); [lia|].
    destruct (Z.eqb_spec (time_now c) (-1)); [done|].
    destruct Hmode as [(-> & Ht & ->)|(-> & Ht & Hoff)].
    - change (SQUID_TIME_MODE_UTC =? SQUID_TIME_MODE_UTC) with true. cbn iota. rewrite Ht.
      apply write_time_record_eq. lia.
    - change (SQUID_TIME_MODE_LOCAL =? SQUID_TIME_MODE_UTC) with false. cbn iota.
      rewrite Ht, Hoff. apply write_time_record_eq. lia. }
  destruct Hmode as [(-> & _)|(-> & _)]; cbn -[handle_get]; exact Hget.
Qed.

(** ** Properties *)

(** Whatever the request bytes, the clock and the response capacity, the
    handler is memory safe, never writes outside the response buffer, and its
    result is either -1 (no response) or a response that follows the protocol
    convention: it fits the capacity, starts with [opcode|0x80][status], and
    ends there when the status is not OK. *)
Theorem time_request_framed c request request_size buf cap :
  bytes_ok request -> 0 <= request_size <= zlen request -> cap <= zlen buf ->
  exists buf' n,
    handle_squid_time_request c (Some request) request_size (Some buf) cap
      = Some (buf', n) /\
    (request_size = 0 \/ cap < 2 -> buf' = buf /\ n = -1) /\
    (forall opcode, request !! O = Some opcode -> reply_ok opcode cap buf buf' n).
Proof. apply time_request_spec. Qed.

Definition sample_tm : tm := Tm 30 15 12 9 6 126 4 1.
Definition sample_clock : clock :=
  Clock 1783599330 (fun _ => Some (Tm 30 15 10 9 6 126 4 0)) (fun _ => Some sample_tm)
    (fun _ => [43; 48; 50; 48; 48]).

Lemma time_request_framed_witness :
  exists buf' n,
    handle_squid_time_request sample_clock (Some [1; 1]) 2 (Some (replicate 20 0)) 20
      = Some (buf', n) /\
    (2 = 0 \/ 20 < 2 -> buf' = replicate 20 0 /\ n = -1) /\
    (forall opcode, [1; 1] !! O = Some opcode -> reply_ok opcode 20 (replicate 20 0) buf' n).
Proof. apply time_request_framed; closed. Defined.

(** GET local: when the host clock delivers a broken-down time and a UTC
    offset text "+hhmm" or "-hhmm", the response is 16 bytes from which a client reads back
    exactly the date, the time, the weekday with the DST flag, the offset in
    minutes with its sign, and the Unix time (or the unknown marker when it
    does not fit 32 bits). *)
Theorem time_get_local_roundtrip c buf cap t sign h1 h2 m1 m2 :
  time_now c <> -1 -> localtime_r c (time_now c) = Some t -> tm_ok t ->
  sign = 43 \/ sign = 45 ->
  strftime_z c t = [sign; 48 + h1; 48 + h2; 48 + m1; 48 + m2] ->
  0 <= h1 <= 9 -> 0 <= h2 <= 9 -> 0 <= m1 <= 9 -> 0 <= m2 <= 9 ->
  10 * h1 + h2 <= 23 -> 10 * m1 + m2 <= 59 -> 16 <= cap <= zlen buf ->
  exists buf',
    handle_squid_time_request c (Some [1; 1]) 2 (Some buf) cap = Some (buf', 16) /\
    decode_time (take 16 buf') =
      Some (tm_year t + 1900,
            [tm_mon t + 1; tm_mday t; tm_hour t; tm_min t; tm_sec t;
             if 0 <? tm_isdst t then Z.lor (tm_wday t) SQUID_TIME_DST_BIT else tm_wday t],
            (if sign =? 45 then -1 else 1) * (60 * (10 * h1 + h2) + (10 * m1 + m2)),
            if (0 <=? time_now c) && (time_now c <=? UINT32_MAX) then time_now c
            else SQUID_TIME_UNIX_UNKNOWN).
Proof.
  intros Hnow Hlt Hok Hsg Hz Hh1 Hh2 Hm1 Hm2 Hh Hm Hcap.
  pose proof (parse_utc_offset_eq c t sign h1 h2 m1 m2 Hsg Hz Hh1 Hh2 Hm1 Hm2 Hh Hm) as Hoff.
  eexists. split; [apply (time_get_eq c 1 buf cap t); [by split; [|right]|done]|].
  rewrite app_assoc, take_app_length' by done.
  rewrite decode_time_record; [done|done|]. case_test; lia.
Qed.

Lemma time_get_local_roundtrip_witness :
  exists buf',
    handle_squid_time_request sample_clock (Some [1; 1]) 2 (Some (replicate 20 0)) 20
      = Some (buf', 16) /\
    decode_time (take 16 buf') =
      Some (2026, [7; 9; 12; 15; 30; 132], 120, 1783599330).
Proof.
  apply (time_get_local_roundtrip sample_clock (replicate 20 0) 20 sample_tm 43 0 2 0 0);
    try closed.
Defined.
