(* ===== verification/PluginApi.v ===== *)
(** The plugin ABI (include/squid_server/plugin_api.h), the contract the
    server relies on, and the packet entries of the plugins without state:
    echo, squidsys and time. *)
From stdpp Require Import base numbers list option strings.
From Stdlib Require Import ZArith Lia.
From S2P Require Import Prelude CLib Wire Time.

Local Open Scope Z_scope.
Local Open Scope squid_scope.

(** ** plugin_api.h *)

Definition server_system_port : Z := 0.
Definition server_plugin_port_min : Z := 1.
Definition server_plugin_port_max : Z := 15.
Definition server_port_min : Z := server_system_port.
Definition server_port_max : Z := server_plugin_port_max.
Definition server_port_count : Z := (server_port_max - server_port_min) + 1.

(** [packet_data] of the view is the bytes it points to, [None] is [NULL]. *)
Record server_packet_view := PacketView {
  view_data : option (list Z);
  view_size : Z }.

(** The response buffer keeps the pointer value [packet_data] (0 is [NULL])
    apart from the memory [packet_mem] behind it, because the server compares
    the pointer with the one it passed. *)
Record server_packet_buffer := PacketBuffer {
  packet_data : Z;
  packet_mem : list Z;
  packet_capacity : Z;
  packet_size : Z }.

(** The callbacks work on the state [S] of everything outside the server.
    Their first argument, the plugin itself, is always the plugin's own static
    object, never null, and is part of [S]; [handle_packet] returns the C result and [*response] after the call. *)
Definition handle_packet_fn (S : Type) : Type :=
  Z -> option server_packet_view -> option server_packet_buffer ->
  ST S (Z * option server_packet_buffer).

Record server_plugin (S : Type) := ServerPlugin {
  plugin_name : option (list Z);
  plugin_start : option (ST S Z);
  plugin_stop : option (ST S Z);
  plugin_handle_packet : option (handle_packet_fn S) }.
Arguments ServerPlugin {S} _ _ _ _.
Arguments plugin_name {S} _.
Arguments plugin_start {S} _.
Arguments plugin_stop {S} _.
Arguments plugin_handle_packet {S} _.

(** ** The contract *)

Definition view_ok (v : server_packet_view) : Prop :=
  exists data, view_data v = Some data /\ bytes_ok data /\
    0 < view_size v <= zlen data /\ view_size v < 2 ^ 31.

Definition buffer_ok (b : server_packet_buffer) : Prop :=
  0 < packet_data b /\ 0 < packet_capacity b <= zlen (packet_mem b) /\
  packet_capacity b < 2 ^ 31.

(** What a call may do to the response buffer. *)
Definition answered (b b' : server_packet_buffer) (r : Z) : Prop :=
  packet_data b' = packet_data b /\ packet_capacity b' = packet_capacity b /\
  length (packet_mem b') = length (packet_mem b) /\
  (r = 0 -> 0 <= packet_size b' <= packet_capacity b).

(** A plugin that honours the ABI: on a packet the server can pass, no
    undefined behaviour, the plugin's own invariant is kept, and an accepted
    packet has a response inside the buffer. *)
Class GoodPlugin {S} (Inv : S -> Prop) (h : handle_packet_fn S) : Prop :=
  good_packet : forall port v b s, Inv s -> view_ok v -> buffer_ok b ->
    wp (h port (Some v) (Some b))
      (fun r s' => Inv s' /\ exists b', r.2 = Some b' /\ answered b b' r.1) s.

(** The common packet entry: the guards, the core's handler on the bytes, and
    the translation of its result. *)
Section entry.
Context {S : Type}.

Definition packet_entry (core : list Z -> Z -> list Z -> Z -> ST S (list Z * Z))
    (request : option server_packet_view) (response : option server_packet_buffer)
    : ST S (Z * option server_packet_buffer) :=
  match request, response with
  | Some request, Some response =>
      match view_data request with
      | None => ret (-1, Some response)
      | Some data =>
          if (view_size request =? 0) || (packet_data response =? 0)
             || (packet_capacity response =? 0) then ret (-1, Some response)
          else
            let! '(mem, response_size) :=
              core data (view_size request) (packet_mem response) (packet_capacity response) in
            let response :=
              PacketBuffer (packet_data response) mem (packet_capacity response)
                (packet_size response) in
            if response_size <? 0 then ret (-1, Some response)
            else ret (0, Some (PacketBuffer (packet_data response) mem
                                 (packet_capacity response) (u64 response_size)))
      end
  | _, _ => ret (-1, response)
  end.

(** A core whose result follows the response convention makes a good plugin. *)
Lemma packet_entry_good (Inv : S -> Prop) core port v b s :
  (forall data size mem cap s, Inv s -> bytes_ok data -> 0 < size <= zlen data ->
     size < 2 ^ 31 -> 0 < cap <= zlen mem -> cap < 2 ^ 31 ->
     wp (core data size mem cap)
       (fun r s' => Inv s' /\ length r.1 = length mem /\ (r.2 < 0 \/ 0 <= r.2 <= cap)) s) ->
  Inv s -> view_ok v -> buffer_ok b ->
  wp ((fun (_ : Z) => packet_entry core) port (Some v) (Some b))
    (fun r s' => Inv s' /\ exists b', r.2 = Some b' /\ answered b b' r.1) s.
Proof.
  intros Hcore HI (data & Hd & Hb & Hsz & Hszi) (Hp & Hc & Hci). unfold packet_entry. rewrite Hd.
  destruct (Z.eqb_spec (view_size v) 0), (Z.eqb_spec (packet_data b) 0),
    (Z.eqb_spec (packet_capacity b) 0); try lia. cbn [orb].
  apply wp_bind. eapply wp_mono; [by apply Hcore|]. intros [mem k] s' (HI' & Hl & Hn). cbn in Hl, Hn.
  destruct (Z.ltb_spec k 0); apply wp_ret; (split; [done|]); eexists; (split; [done|]);
    (split_and!; [done..|]); cbn [packet_size packet_mem]; [done|].
  intros _. rewrite u64_small by lia. lia.
Qed.
End entry.

(** ** echo_plugin.c *)

Section echo.
Context {S : Type}.

Definition start_echo_plugin : ST S Z := ret 0.
Definition stop_echo_plugin : ST S Z := ret 0.

Definition handle_echo_packet : handle_packet_fn S := fun port_number request response =>
  match request, response with
  | Some request, Some response =>
      if packet_data response =? 0 then ret (-1, Some response)
      else if packet_capacity response <? view_size request then ret (-1, Some response)
      else
        let bytes_to_copy := view_size request in
        let! mem :=
          match view_data request with
          | Some data =>
              if 0 <? bytes_to_copy then
                lift (let? src := rd_bytes data 0 bytes_to_copy in
                      wr_bytes (packet_mem response) 0 src)
              else ret (packet_mem response)
          | None => ret (packet_mem response)
          end in
        ret (0, Some (PacketBuffer (packet_data response) mem (packet_capacity response)
                        bytes_to_copy))
  | _, _ => ret (-1, response)
  end.

Definition echo_plugin : server_plugin S :=
  ServerPlugin (Some (text "echo")) (Some start_echo_plugin) (Some stop_echo_plugin)
    (Some handle_echo_packet).

Lemma handle_echo_eq port data size b (s : S) :
  bytes_ok data -> 0 < size <= zlen data -> packet_data b <> 0 ->
  packet_capacity b <= zlen (packet_mem b) ->
  handle_echo_packet port (Some (PacketView (Some data) size)) (Some b) s =
    Some (if packet_capacity b <? size then (-1, Some b)
          else (0, Some (PacketBuffer (packet_data b)
                 (take (Z.to_nat size) data ++ drop (Z.to_nat size) (packet_mem b))
                 (packet_capacity b) size)), s).
Proof.
  intros Hb Hs Hp Hc. unfold handle_echo_packet. cbn [view_data view_size].
  destruct (Z.eqb_spec (packet_data b) 0); [done|].
  destruct (Z.ltb_spec (packet_capacity b) size); [done|].
  destruct (Z.ltb_spec 0 size); [|lia]. unfold bind.
  rewrite rd_bytes_ok by (done || lia). rewrite drop_0.
  assert (Hl : length (take (Z.to_nat size) data) = Z.to_nat size)
    by (rewrite length_take; unfold zlen in *; lia).
  rewrite wr_bytes_at by (unfold zlen in *; lia). by rewrite Hl.
Qed.

#[export] Instance echo_good : GoodPlugin (fun _ : S => True) handle_echo_packet.
Proof.
  intros port v b s _ (data & Hd & Hb & Hs & _) (Hp & Hc & _). destruct v as [d n].
  cbn [view_data view_size] in *. subst d. unfold wp. rewrite handle_echo_eq by (done || lia).
  destruct (Z.ltb_spec (packet_capacity b) n); cbn; (split; [done|]); eexists; (split; [done|]);
    split_and!; try done; cbn.
  - rewrite length_app, length_take, length_drop. unfold zlen in *. lia.
  - lia.
Qed.
End echo.

(** ** squidsys_plugin.c *)

(** [uname] (system name and release) and [gethostname] (with a 64-byte
    buffer): [None] is failure. *)
Record host_info := HostInfo {
  host_uname : option (list Z * list Z);
  host_name : option (list Z) }.

Section squidsys.
Context {S : Type}.
Variable host : host_info.

Definition start_squidsys_plugin : ST S Z := ret 0.
Definition stop_squidsys_plugin : ST S Z := ret 0.

(** [snprintf] into the response: the text that fits and a NUL, nothing
    else is written. *)
Definition snprintf_into (mem : list Z) (capacity : Z) (s : list Z) : option (list Z) :=
  wr_bytes mem 0 ((snprintf capacity s).1 ++ [0]).

Definition handle_squidsys_packet : handle_packet_fn S := fun port_number request response =>
  match request, response with
  | Some request, Some response =>
      if (packet_data response =? 0) || (packet_capacity response =? 0)
      then ret (-1, Some response)
      else
        let! is_id :=
          (if view_size request =? 2 then
             match view_data request with
             | Some data => let! d := lift (rd_bytes data 0 2) in ret (eq_text d (text "id"))
             | None => lift None
             end
           else ret false) in
        if (is_id : bool) then
          match host_uname host with
          | None => ret (-1, Some response)
          | Some (sysname, release) =>
              let hostname :=
                match host_name host with Some h => h | None => text "unknown" end in
              let s := hostname ++ [10] ++ sysname ++ [32] ++ release in
              let! mem := lift (snprintf_into (packet_mem response) (packet_capacity response) s) in
              let written := (snprintf (packet_capacity response) s).2 in
              ret (0, Some (PacketBuffer (packet_data response) mem (packet_capacity response)
                (if written <? packet_capacity response then written
                 else packet_capacity response)))
          end
        else ret (-1, Some response)
  | _, _ => ret (-1, response)
  end.

Definition squidsys_plugin : server_plugin S :=
  ServerPlugin (Some (text "squidsys")) (Some start_squidsys_plugin)
    (Some stop_squidsys_plugin) (Some handle_squidsys_packet).

#[export] Instance squidsys_good : GoodPlugin (fun _ : S => True) handle_squidsys_packet.
Proof.
  intros port v b s _ (data & Hd & Hb & Hs & _) (Hp & Hc & _). unfold handle_squidsys_packet.
  assert (Hfail : forall s', wp (ret (-1, Some b))
    (fun r (s' : S) => True /\ exists b', r.2 = Some b' /\ answered b b' r.1) s').
  { intros s'. apply wp_ret. split; [done|]. exists b. by repeat split. }
  destruct (Z.eqb_spec (packet_data b) 0), (Z.eqb_spec (packet_capacity b) 0); try lia.
  cbn [orb]. apply wp_bind. rewrite Hd. destruct (Z.eqb_spec (view_size v) 2); [|by apply wp_ret].
  apply wp_bind. eapply wp_lift; [apply rd_bytes_ok; [done|lia..]|]. apply wp_ret.
  case_test; [|done]. destruct (host_uname host) as [[sy re]|]; [|done].
  set (t := _ ++ [10] ++ _). set (w := fst (snprintf (packet_capacity b) t)).
  assert (Hw : zlen w <= packet_capacity b - 1)
    by (subst w; unfold snprintf; cbn [fst]; rewrite zlen_take; lia).
  unfold snprintf_into. apply wp_bind. eapply wp_lift.
  { apply wr_bytes_at; [done|]. fold w. zlen_lia. }
  apply wp_ret. split; [done|]. eexists. split; [done|]. split_and!; try done;
    cbn [packet_mem packet_size].
  - fold w. rewrite !length_app, length_take, !length_drop, ?length_app. cbn [length].
    unfold zlen in *. lia.
  - intros _. pose proof (zlen_nonneg t). change (snprintf (packet_capacity b) t).2 with (zlen t). case_test; lia.
Qed.
End squidsys.

(** ** time_plugin.c *)

Section time.
Context {S : Type}.
Variable clk : S -> clock.

Definition time_core (data : list Z) (size : Z) (mem : list Z) (cap : Z) : ST S (list Z * Z) :=
  fun s => lift (handle_squid_time_request (clk s) (Some data) size (Some mem) cap) s.

Definition handle_squid_time_packet : handle_packet_fn S := fun port_number =>
  packet_entry time_core.

Definition squid_time_plugin : server_plugin S :=
  ServerPlugin (Some (text "time")) None None (Some handle_squid_time_packet).

#[export] Instance time_good : GoodPlugin (fun _ : S => True) handle_squid_time_packet.
Proof.
  intros port v b s HI Hv Hb. apply (packet_entry_good (fun _ => True) time_core port v b s); try done.
  intros data size mem cap s' _ Hd Hs _ Hc _. unfold time_core, wp.
  destruct (time_request_spec (clk s') data size mem cap) as (b' & n & Hr & _ & Hok);
    [done|lia|lia|].
  rewrite Hr. cbn. split; [done|]. destruct data as [|op data]; [zlen_lia|].
  destruct (Hok op eq_refl) as [Hl Hn]. split; [done|]. lia.
Qed.
End time.
