(* ===== verification/Posix.v ===== *)
(** The operating-system interface the filesystem plugin is written
    against.  The kernel is a parameter: [Posix W] lists the system calls
    over an abstract kernel state [W], each returning the raw Linux result
    ([-errno] on failure).  The C library's convention (result -1 and
    [errno] set) is written out here, and every call is recorded in a trace,
    so that theorems can say which calls a handler makes. *)
From stdpp Require Import base numbers list option.
From Stdlib Require Import ZArith Lia.
From S2P Require Import Prelude.

Local Open Scope Z_scope.
Local Open Scope squid_scope.

(** ** Constants (Linux) *)

Definition EPERM : Z := 1.
Definition ENOENT : Z := 2.
Definition EINTR : Z := 4.
Definition EIO : Z := 5.
Definition EBADF : Z := 9.
Definition EAGAIN : Z := 11.
Definition EACCES : Z := 13.
Definition EEXIST : Z := 17.
Definition ENOTDIR : Z := 20.
Definition EISDIR : Z := 21.
Definition EINVAL : Z := 22.
Definition EFBIG : Z := 27.
Definition ENOSPC : Z := 28.
Definition EROFS : Z := 30.
Definition ENAMETOOLONG : Z := 36.
Definition ENOTEMPTY : Z := 39.
Definition ELOOP : Z := 40.
Definition EOVERFLOW : Z := 75.
Definition ETIMEDOUT : Z := 110.
Definition EINPROGRESS : Z := 115.
Definition EDQUOT : Z := 122.

Definition O_RDONLY : Z := 0.
Definition O_WRONLY : Z := 1.
Definition O_CREAT : Z := 64.
Definition O_TRUNC : Z := 512.
Definition O_DIRECTORY : Z := 65536.
Definition O_NOFOLLOW : Z := 131072.
Definition O_CLOEXEC : Z := 524288.
Definition AT_SYMLINK_NOFOLLOW : Z := 256.
Definition AT_REMOVEDIR : Z := 512.

Definition S_IFMT : Z := 61440.
Definition S_IFDIR : Z := 16384.
Definition S_IFREG : Z := 32768.
Definition S_ISREG (mode : Z) : bool := Z.land mode S_IFMT =? S_IFREG.
Definition S_ISDIR (mode : Z) : bool := Z.land mode S_IFMT =? S_IFDIR.

Record stat := Stat { st_mode : Z; st_size : Z; st_mtime : Z }.

(** A directory stream: the names [readdir] will return, and the [errno] it
    leaves when it then returns [NULL] (0 at the end of the directory). *)
Record dirstream := DirStream { ds_names : list (list Z); ds_errno : Z }.

Class Posix (W : Type) := {
  sys_open : list Z -> Z -> W -> Z * W;
  sys_dup : Z -> W -> Z * W;
  sys_openat : Z -> list Z -> Z -> Z -> W -> Z * W;
  sys_close : Z -> W -> W;
  sys_fstat : Z -> W -> Z * stat * W;
  sys_fstatat : Z -> list Z -> Z -> W -> Z * stat * W;
  sys_fdopendir : Z -> W -> Z * dirstream * W;
  sys_closedir : Z -> W -> W;
  sys_pread : Z -> Z -> Z -> W -> Z * list Z * W;
  sys_pwrite : Z -> list Z -> Z -> W -> Z * W;
  sys_mkdirat : Z -> list Z -> Z -> W -> Z * W;
  sys_unlinkat : Z -> list Z -> Z -> W -> Z * W;
  sys_renameat : Z -> list Z -> Z -> list Z -> W -> Z * W }.

(** What [readdir] can return as a name. *)
Definition entry_name (name : list Z) : Prop :=
  name <> [] /\ Forall (fun c => 0 < c < 256 /\ c <> 47) name.

(** [off_t] and [time_t] are 64-bit signed. *)
Definition stat_ok (st : stat) : Prop :=
  - 2 ^ 63 <= st_size st < 2 ^ 63 /\ - 2 ^ 63 <= st_mtime st < 2 ^ 63.

(** Documented facts about the calls that the handlers rely on: [pread]
    returns as many bytes as it stored and never more than asked, [pwrite]
    never more than given; directory entry names are non-empty strings
    without a slash; [struct stat] fields are in the range of their types. *)
Class PosixLaws (W : Type) `{Posix W} : Prop := {
  pread_bound : forall fd n off w,
    let '(r, data, _) := sys_pread fd n off w in
    0 <= n -> 0 <= r -> r <= n /\ zlen data = r /\ bytes_ok data;
  pwrite_bound : forall fd data off w, (sys_pwrite fd data off w).1 <= zlen data;
  readdir_names : forall fd w,
    Forall entry_name (ds_names (sys_fdopendir fd w).1.2);
  fstat_ok : forall fd w, stat_ok (sys_fstat fd w).1.2 }.

(** ** Calls as events *)

Inductive event :=
| EOpen (path : list Z) (flags r : Z)
| EDup (fd r : Z)
| EOpenat (dirfd : Z) (name : list Z) (flags r : Z)
| EClose (fd : Z)
| EFstat (fd r : Z)
| EFstatat (dirfd : Z) (name : list Z) (flags r : Z)
| EFdopendir (fd r : Z)
| EClosedir (fd : Z)
| EPread (fd n off : Z) (data : list Z) (r : Z)
| EPwrite (fd : Z) (data : list Z) (off r : Z)
| EMkdirat (dirfd : Z) (name : list Z) (r : Z)
| EUnlinkat (dirfd : Z) (name : list Z) (flags r : Z)
| ERenameat (olddir : Z) (oldname : list Z) (newdir : Z) (newname : list Z) (r : Z).

Record os (W : Type) := Os { world : W; errno : Z; trace : list event }.
Arguments Os {W} _ _ _.
Arguments world {W} _.
Arguments errno {W} _.
Arguments trace {W} _.

(** The C library's view of a raw result. *)
Definition libc (r : Z) : Z := if r <? 0 then -1 else r.
Definition after {W} (s : os W) (r : Z) (w : W) (e : event) : os W :=
  Os w (if r <? 0 then - r else errno s) (trace s ++ [e]).

Lemma libc_range r : libc r = -1 \/ 0 <= libc r.
Proof. unfold libc. destruct (Z.ltb_spec r 0); lia. Qed.

Section calls.
Context {W : Type} `{Posix W}.
Abbreviation M := (ST (os W)).

Definition set_errno (e : Z) : M unit := fun s => Some (tt, Os (world s) e (trace s)).
Definition get_errno : M Z := fun s => Some (errno s, s).

Definition c_open (path : list Z) (flags : Z) : M Z := fun s =>
  let '(r, w) := sys_open path flags (world s) in
  Some (libc r, after s r w (EOpen path flags (libc r))).
Definition c_dup (fd : Z) : M Z := fun s =>
  let '(r, w) := sys_dup fd (world s) in
  Some (libc r, after s r w (EDup fd (libc r))).
Definition c_openat (dirfd : Z) (name : list Z) (flags mode : Z) : M Z := fun s =>
  let '(r, w) := sys_openat dirfd name flags mode (world s) in
  Some (libc r, after s r w (EOpenat dirfd name flags (libc r))).
Definition c_close (fd : Z) : M unit := fun s =>
  Some (tt, after s 0 (sys_close fd (world s)) (EClose fd)).
Definition c_fstat (fd : Z) : M (Z * stat) := fun s =>
  let '(r, st, w) := sys_fstat fd (world s) in
  Some ((libc r, st), after s r w (EFstat fd (libc r))).
Definition c_fstatat (dirfd : Z) (name : list Z) (flags : Z) : M (Z * stat) := fun s =>
  let '(r, st, w) := sys_fstatat dirfd name flags (world s) in
  Some ((libc r, st), after s r w (EFstatat dirfd name flags (libc r))).
(** [NULL] is [None]; the stream owns the descriptor. *)
Definition c_fdopendir (fd : Z) : M (option dirstream) := fun s =>
  let '(r, d, w) := sys_fdopendir fd (world s) in
  Some (if r <? 0 then None else Some d, after s r w (EFdopendir fd (libc r))).
Definition c_closedir (fd : Z) : M unit := fun s =>
  Some (tt, after s 0 (sys_closedir fd (world s)) (EClosedir fd)).
Definition c_pread (fd n off : Z) : M (Z * list Z) := fun s =>
  let '(r, data, w) := sys_pread fd n off (world s) in
  let data := if r <? 0 then [] else data in
  Some ((libc r, data), after s r w (EPread fd n off data (libc r))).
Definition c_pwrite (fd : Z) (data : list Z) (off : Z) : M Z := fun s =>
  let '(r, w) := sys_pwrite fd data off (world s) in
  Some (libc r, after s r w (EPwrite fd data off (libc r))).
Definition c_mkdirat (dirfd : Z) (name : list Z) (mode : Z) : M Z := fun s =>
  let '(r, w) := sys_mkdirat dirfd name mode (world s) in
  Some (libc r, after s r w (EMkdirat dirfd name (libc r))).
Definition c_unlinkat (dirfd : Z) (name : list Z) (flags : Z) : M Z := fun s =>
  let '(r, w) := sys_unlinkat dirfd name flags (world s) in
  Some (libc r, after s r w (EUnlinkat dirfd name flags (libc r))).
Definition c_renameat (od : Z) (on : list Z) (nd : Z) (nn : list Z) : M Z := fun s =>
  let '(r, w) := sys_renameat od on nd nn (world s) in
  Some (libc r, after s r w (ERenameat od on nd nn (libc r))).

(** *** Rules that forget the kernel

    Each call ends in some state whose trace is extended by the call's
    event, with a result that is -1 or not negative. *)
Definition extends (s : os W) (e : event) (s' : os W) : Prop := trace s' = trace s ++ [e].

Lemma after_extends s r w e : extends s e (after s r w e).
Proof. done. Qed.

Lemma wp_set_errno e Q s :
  (forall s', trace s' = trace s -> Q tt s') -> wp (set_errno e) Q s.
Proof. intros HQ. by apply HQ. Qed.
Lemma wp_get_errno (Q : Z -> os W -> Prop) s : Q (errno s) s -> wp get_errno Q s.
Proof. done. Qed.

Ltac call_rule f :=
  intros HQ; unfold wp, f; repeat case_match; simplify_eq; apply HQ;
  auto using libc_range; done.

Lemma wp_dup fd Q s :
  (forall r s', (r = -1 \/ 0 <= r) -> extends s (EDup fd r) s' -> Q r s') ->
  wp (c_dup fd) Q s.
Proof. call_rule c_dup. Qed.
Lemma wp_openat d n f m Q s :
  (forall r s', (r = -1 \/ 0 <= r) -> extends s (EOpenat d n f r) s' -> Q r s') ->
  wp (c_openat d n f m) Q s.
Proof. call_rule c_openat. Qed.
Lemma wp_close fd Q s :
  (forall s', extends s (EClose fd) s' -> Q tt s') -> wp (c_close fd) Q s.
Proof. intros HQ. by apply HQ. Qed.
Lemma wp_fstatat d n f Q s :
  (forall r st s', (r = -1 \/ 0 <= r) -> extends s (EFstatat d n f r) s' -> Q (r, st) s') ->
  wp (c_fstatat d n f) Q s.
Proof. call_rule c_fstatat. Qed.
Lemma wp_closedir fd Q s :
  (forall s', extends s (EClosedir fd) s' -> Q tt s') -> wp (c_closedir fd) Q s.
Proof. intros HQ. by apply HQ. Qed.
Lemma wp_mkdirat d n m Q s :
  (forall r s', (r = -1 \/ 0 <= r) -> extends s (EMkdirat d n r) s' -> Q r s') ->
  wp (c_mkdirat d n m) Q s.
Proof. call_rule c_mkdirat. Qed.
Lemma wp_unlinkat d n f Q s :
  (forall r s', (r = -1 \/ 0 <= r) -> extends s (EUnlinkat d n f r) s' -> Q r s') ->
  wp (c_unlinkat d n f) Q s.
Proof. call_rule c_unlinkat. Qed.
Lemma wp_renameat od on nd nn Q s :
  (forall r s', (r = -1 \/ 0 <= r) -> extends s (ERenameat od on nd nn r) s' -> Q r s') ->
  wp (c_renameat od on nd nn) Q s.
Proof. call_rule c_renameat. Qed.

Context {LAWS : PosixLaws W}.

Lemma wp_fstat fd Q s :
  (forall r st s', (r = -1 \/ 0 <= r) -> stat_ok st ->
     extends s (EFstat fd r) s' -> Q (r, st) s') ->
  wp (c_fstat fd) Q s.
Proof.
  intros HQ. unfold wp, c_fstat. pose proof (fstat_ok fd (world s)) as HL.
  destruct (sys_fstat _ _) as [[r st] w]. apply HQ; auto using libc_range. done.
Qed.
Lemma wp_pread fd n off Q s :
  0 <= n ->
  (forall r data s', (r = -1 /\ data = [] \/ 0 <= r <= n /\ zlen data = r /\ bytes_ok data) ->
     extends s (EPread fd n off data r) s' -> Q (r, data) s') ->
  wp (c_pread fd n off) Q s.
Proof.
  intros Hn HQ. unfold wp, c_pread. pose proof (pread_bound fd n off (world s)) as HL.
  destruct (sys_pread _ _ _ _) as [[r data] w]. unfold libc.
  destruct (Z.ltb_spec r 0); apply HQ; try done; [by left|right].
  destruct HL as (?&?&?); try done.
Qed.
Lemma wp_pwrite fd data off Q s :
  (forall r s', (r = -1 \/ 0 <= r <= zlen data) -> extends s (EPwrite fd data off r) s' -> Q r s') ->
  wp (c_pwrite fd data off) Q s.
Proof.
  intros HQ. unfold wp, c_pwrite. pose proof (pwrite_bound fd data off (world s)) as HL.
  destruct (sys_pwrite _ _ _ _) as [r w]. unfold libc. cbn in HL.
  destruct (Z.ltb_spec r 0); apply HQ; try done; [by left|right; lia].
Qed.
Lemma wp_fdopendir fd Q s :
  (forall d s', Forall entry_name (ds_names d) ->
     forall r, 0 <= r -> extends s (EFdopendir fd r) s' -> Q (Some d) s') ->
  (forall s', extends s (EFdopendir fd (-1)) s' -> Q None s') ->
  wp (c_fdopendir fd) Q s.
Proof.
  intros HQ1 HQ2. unfold wp, c_fdopendir. pose proof (readdir_names fd (world s)) as HL.
  destruct (sys_fdopendir _ _) as [[r d] w]. unfold libc.
  destruct (Z.ltb_spec r 0); [by apply HQ2|]. by eapply HQ1.
Qed.
End calls.
