(* ===== verification/Filesystem.v ===== *)
(** The filesystem plugin core (lib/filesystem/filesystem_core.c): path
    validation, symlink-free path walking below the exported root, and the
    request handlers, over the kernel interface of Posix.v. *)
From stdpp Require Import base numbers list option.
From Stdlib Require Import ZArith Lia.
From S2P Require Import Prelude CLib Wire Posix.

Local Open Scope Z_scope.
Local Open Scope squid_scope.

(** ** Protocol constants (filesystem_protocol.h) *)

Definition SQUID_FS_PROTOCOL_VERSION : Z := 1.
Definition SQUID_FS_OP_CAPABILITIES : Z := 0.
Definition SQUID_FS_OP_STAT : Z := 1.
Definition SQUID_FS_OP_LIST : Z := 2.
Definition SQUID_FS_OP_READ : Z := 3.
Definition SQUID_FS_OP_WRITE : Z := 4.
Definition SQUID_FS_OP_MKDIR : Z := 5.
Definition SQUID_FS_OP_DELETE : Z := 6.
Definition SQUID_FS_OP_RENAME : Z := 7.
Definition SQUID_FS_RESPONSE_BIT : Z := 128.
Definition SQUID_FS_STATUS_OK : Z := 0.
Definition SQUID_FS_STATUS_BAD_REQUEST : Z := 1.
Definition SQUID_FS_STATUS_NOT_FOUND : Z := 2.
Definition SQUID_FS_STATUS_NOT_DIRECTORY : Z := 3.
Definition SQUID_FS_STATUS_IS_DIRECTORY : Z := 4.
Definition SQUID_FS_STATUS_ACCESS_DENIED : Z := 5.
Definition SQUID_FS_STATUS_EXISTS : Z := 6.
Definition SQUID_FS_STATUS_TOO_LARGE : Z := 7.
Definition SQUID_FS_STATUS_NOT_EMPTY : Z := 8.
Definition SQUID_FS_STATUS_READ_ONLY : Z := 9.
Definition SQUID_FS_STATUS_NO_SPACE : Z := 10.
Definition SQUID_FS_STATUS_IO_ERROR : Z := 11.
Definition SQUID_FS_FEATURE_STAT : Z := 1.
Definition SQUID_FS_FEATURE_LIST : Z := 2.
Definition SQUID_FS_FEATURE_READ : Z := 4.
Definition SQUID_FS_FEATURE_WRITE : Z := 8.
Definition SQUID_FS_FEATURE_MKDIR : Z := 16.
Definition SQUID_FS_FEATURE_DELETE : Z := 32.
Definition SQUID_FS_FEATURE_RENAME : Z := 64.
Definition SQUID_FS_TYPE_FILE : Z := 1.
Definition SQUID_FS_TYPE_DIRECTORY : Z := 2.
Definition SQUID_FS_TYPE_OTHER : Z := 3.
Definition SQUID_FS_WRITE_CREATE : Z := 1.
Definition SQUID_FS_WRITE_TRUNCATE : Z := 2.
Definition SQUID_FS_CURSOR_END : Z := 65535.
Definition SQUID_FS_SIZE_UNKNOWN : Z := 4294967295.
Definition SQUID_FS_PATH_MAX : Z := 240.

Definition squid_fs_page_header_size : Z := 5.
Definition squid_fs_read_header_size : Z := 11.

Record squid_fs_context := FsContext { root_fd : Z; read_only : Z }.

(** ** Pure helpers *)

Definition status_from_errno (error_number : Z) : Z :=
  if error_number =? ENOENT then SQUID_FS_STATUS_NOT_FOUND
  else if error_number =? ENOTDIR then SQUID_FS_STATUS_NOT_DIRECTORY
  else if error_number =? EISDIR then SQUID_FS_STATUS_IS_DIRECTORY
  else if (error_number =? EACCES) || (error_number =? EPERM) || (error_number =? ELOOP)
    then SQUID_FS_STATUS_ACCESS_DENIED
  else if error_number =? EEXIST then SQUID_FS_STATUS_EXISTS
  else if (error_number =? ENAMETOOLONG) || (error_number =? EOVERFLOW)
          || (error_number =? EFBIG) then SQUID_FS_STATUS_TOO_LARGE
  else if error_number =? ENOTEMPTY then SQUID_FS_STATUS_NOT_EMPTY
  else if error_number =? EROFS then SQUID_FS_STATUS_READ_ONLY
  else if (error_number =? ENOSPC) || (error_number =? EDQUOT) then SQUID_FS_STATUS_NO_SPACE
  else SQUID_FS_STATUS_IO_ERROR.

(** [filesystem_core.c] has its own copies of the wire functions. *)
Definition write_response := write_status.

(** The loop of [path_is_valid]; [n] is the number of iterations left, so
    that [index + n = input_size + 1]. *)
Fixpoint path_loop (n : nat) (input : list Z) (input_size index component_start : Z)
    (path : list Z) : option (bool * list Z) :=
  match n with
  | O => Some (true, path)
  | S n =>
      let? is_char :=
        (if index <? input_size then
           let? c := rd input index in Some (negb (c =? ch_slash))
         else Some false) in
      if is_char then
        let? c := rd input index in
        if c =? 0 then Some (false, path)
        else
          let? path := wr path index c in
          path_loop n input input_size (index + 1) component_start path
      else if index =? component_start then Some (false, path)
      else
        let? dot :=
          (if index - component_start =? 1 then
             let? c := rd input component_start in Some (c =? ch_dot)
           else Some false) in
        if dot then Some (false, path)
        else
          let? dotdot :=
            (if index - component_start =? 2 then
               let? c := rd input component_start in
               if c =? ch_dot then
                 let? d := rd input (component_start + 1) in Some (d =? ch_dot)
               else Some false
             else Some false) in
          if dotdot then Some (false, path)
          else
            let? path := (if index <? input_size then wr path index ch_slash else Some path) in
            path_loop n input input_size (index + 1) (index + 1) path
  end.

(** [input] is the byte pointer ([None] is [NULL]); the result is the C
    return value and the [path] array after the call. *)
Definition path_is_valid (input : option (list Z)) (input_size : Z) (allow_empty : bool)
    (path : list Z) : option (bool * list Z) :=
  if (input_size =? 0) && allow_empty then
    let? path := wr path 0 0 in Some (true, path)
  else
    match input with
    | None => Some (false, path)
    | Some input =>
        if (input_size =? 0) || (SQUID_FS_PATH_MAX <? input_size) then Some (false, path)
        else
          let? first := rd input 0 in
          if first =? ch_slash then Some (false, path)
          else
            let? last := rd input (input_size - 1) in
            if last =? ch_slash then Some (false, path)
            else
              let? '(ok, path) :=
                path_loop (Z.to_nat (input_size + 1)) input input_size 0 0 path in
              if ok then let? path := wr path input_size 0 in Some (true, path)
              else Some (false, path)
    end.

Definition file_type_from_mode (mode : Z) : Z :=
  if S_ISREG mode then SQUID_FS_TYPE_FILE
  else if S_ISDIR mode then SQUID_FS_TYPE_DIRECTORY
  else SQUID_FS_TYPE_OTHER.

Definition file_size_from_stat (information : stat) : Z :=
  if negb (S_ISREG (st_mode information)) || (st_size information <? 0)
     || (UINT32_MAX <? u64 (st_size information)) then
    if S_ISREG (st_mode information) then SQUID_FS_SIZE_UNKNOWN else 0
  else u32 (st_size information).

(** The pointer [request + i]. *)
Definition ptr (request : list Z) (i : Z) : option (list Z) :=
  if (0 <=? i) && (i <=? zlen request) then Some (drop (Z.to_nat i) request) else None.

Definition read_path_request (request : list Z) (request_size length_offset : Z)
    (allow_empty : bool) (path : list Z) : option (bool * list Z) :=
  if request_size <=? length_offset then Some (false, path)
  else
    let? path_size := rd request length_offset in
    if negb (path_size =? u64 (request_size - length_offset - 1)) then Some (false, path)
    else
      let? input := ptr request (length_offset + 1) in
      path_is_valid (Some input) path_size allow_empty path.

(** Whether a directory entry is the self or the parent entry. *)
Definition is_dot_entry (name : list Z) : bool :=
  eq_text name [ch_dot] || eq_text name [ch_dot; ch_dot].

(** [uint8_t record[249]] of one LIST entry: the bytes copied to the page. *)
Definition make_record (information : stat) (name : list Z) : option (list Z) :=
  let name_size := zlen name in
  let record := uninit 249 in
  let? record := wr record 0 (file_type_from_mode (st_mode information)) in
  let? record := wr record 1 (u8 name_size) in
  let? record := wr_bytes record 2 name in
  let? record := write_u32 record (2 + name_size) (file_size_from_stat information) in
  rd_bytes record 0 (6 + name_size).

(** How the LIST loop ends: a [return] inside it, the end of the directory,
    or the [break] when the page is full. *)
Inductive list_exit :=
| list_return (response : list Z) (result : Z)
| list_end (entry_count output_size : Z) (response : list Z)
| list_full (next_cursor entry_count output_size : Z) (response : list Z).

Section handlers.
Context {W : Type} `{Posix W}.
Abbreviation M := (ST (os W)).

(** ** Walking a path below the root *)

Definition open_root_copy (context : option squid_fs_context) : M Z :=
  match context with
  | Some context =>
      if root_fd context <? 0 then do! set_errno EBADF; ret (-1)
      else c_dup (root_fd context)
  | None => do! set_errno EBADF; ret (-1)
  end.

Definition open_directory_flags : Z :=
  Z.lor (Z.lor (Z.lor O_RDONLY O_DIRECTORY) O_CLOEXEC) O_NOFOLLOW.

(** The [while (component != NULL)] loop. *)
Fixpoint open_components (directory_fd : Z) (components : list (list Z)) : M Z :=
  match components with
  | [] => ret directory_fd
  | component :: components =>
      let! next_fd := c_openat directory_fd component open_directory_flags 0 in
      let! saved_errno := get_errno in
      do! c_close directory_fd;
      if next_fd <? 0 then do! set_errno saved_errno; ret (-1)
      else open_components next_fd components
  end.

Definition open_directory_path (context : squid_fs_context) (path : list Z) : M Z :=
  let! directory_fd := open_root_copy (Some context) in
  if directory_fd <? 0 then ret (-1)
  else
    match path with
    | [] => ret directory_fd
    | _ =>
        let! working := lift (wr_bytes (uninit (SQUID_FS_PATH_MAX + 1)) 0 (path ++ [0])) in
        let! working := lift (cstring working) in
        open_components directory_fd (strtok_all (Z.eqb ch_slash) working)
    end.

(** Returns the C result, [*parent_fd] and [*leaf]. *)
Definition open_parent_directory (context : squid_fs_context) (path : list Z)
    : M (Z * Z * list Z) :=
  match path with
  | [] => do! set_errno EINVAL; ret (-1, -1, [])
  | _ =>
      let! '(parent, leaf) :=
        match strrchr path ch_slash with
        | None => ret ([], path)
        | Some separator =>
            let parent_size := Z.of_nat separator in
            let! parent :=
              lift (wr_bytes (uninit (SQUID_FS_PATH_MAX + 1)) 0 (take separator path)) in
            let! parent := lift (wr parent parent_size 0) in
            let! parent := lift (cstring parent) in
            ret (parent, drop (S separator) path)
        end in
      let! parent_fd := open_directory_path context parent in
      ret (if 0 <=? parent_fd then 0 else -1, parent_fd, leaf)
  end.

(** ** Context *)

(** The result is the C return value and the context after the call;
    [context] or [root_path] may be [NULL]. *)
Definition init_squid_fs_context (context : option squid_fs_context)
    (root_path : option (list Z)) (ro : Z) : M (Z * option squid_fs_context) :=
  match context, root_path with
  | Some context, Some (c :: root_path) =>
      let! fd := c_open (c :: root_path) open_directory_flags in
      if fd <? 0 then ret (-1, Some (FsContext fd (read_only context)))
      else ret (0, Some (FsContext fd (if ro =? 0 then 0 else 1)))
  | _, _ => ret (-1, context)
  end.

Definition free_squid_fs_context (context : option squid_fs_context)
    : M (option squid_fs_context) :=
  match context with
  | None => ret None
  | Some context =>
      do! (if 0 <=? root_fd context then c_close (root_fd context) else ret tt);
      ret (Some (FsContext (-1) 0))
  end.

(** ** Request handlers

    Each returns the response array and the C result. *)

Definition reply (opcode status : Z) (response : list Z) (response_capacity : Z)
    : M (list Z * Z) :=
  lift (write_response opcode status (Some response) response_capacity).

Definition handle_capabilities (context : squid_fs_context) (opcode : Z)
    (response : list Z) (response_capacity : Z) : M (list Z * Z) :=
  let features :=
    Z.lor (Z.lor SQUID_FS_FEATURE_STAT SQUID_FS_FEATURE_LIST) SQUID_FS_FEATURE_READ in
  if response_capacity <? 9 then ret (response, -1)
  else
    let features :=
      if read_only context =? 0 then
        Z.lor features (Z.lor (Z.lor (Z.lor SQUID_FS_FEATURE_WRITE SQUID_FS_FEATURE_MKDIR)
          SQUID_FS_FEATURE_DELETE) SQUID_FS_FEATURE_RENAME)
      else features in
    lift (
      let? response := wr response 0 (u8 (Z.lor opcode SQUID_FS_RESPONSE_BIT)) in
      let? response := wr response 1 SQUID_FS_STATUS_OK in
      let? response := wr response 2 SQUID_FS_PROTOCOL_VERSION in
      let? response := write_u16 response 3 (u16 features) in
      let? response := wr response 5 SQUID_FS_PATH_MAX in
      let? response := wr response 6 squid_fs_page_header_size in
      let? response := wr response 7 squid_fs_read_header_size in
      let? response := wr response 8
        (if squid_fs_read_header_size <? response_capacity
         then u8 (response_capacity - squid_fs_read_header_size) else 0) in
      Some (response, 9)).

Definition handle_stat (context : squid_fs_context) (opcode : Z) (request : list Z)
    (request_size : Z) (response : list Z) (response_capacity : Z) : M (list Z * Z) :=
  let! '(ok, path) :=
    lift (read_path_request request request_size 1 true (uninit (SQUID_FS_PATH_MAX + 1))) in
  if negb ok then reply opcode SQUID_FS_STATUS_BAD_REQUEST response response_capacity
  else
    let! path := lift (cstring path) in
    let! '(result, information, parent_fd) :=
      match path with
      | [] =>
          let! '(result, information) := c_fstat (root_fd context) in
          ret (result, information, -1)
      | _ =>
          let! '(opened, parent_fd, leaf) := open_parent_directory context path in
          if opened =? 0 then
            let! '(result, information) := c_fstatat parent_fd leaf AT_SYMLINK_NOFOLLOW in
            ret (result, information, parent_fd)
          else ret (-1, Stat 0 0 0, parent_fd)
      end in
    if negb (result =? 0) then
      let! e := get_errno in
      let status := status_from_errno e in
      do! (if 0 <=? parent_fd then c_close parent_fd else ret tt);
      reply opcode status response response_capacity
    else
      do! (if 0 <=? parent_fd then c_close parent_fd else ret tt);
      if response_capacity <? 13 then ret (response, -1)
      else
        lift (
          let? response := wr response 0 (u8 (Z.lor opcode SQUID_FS_RESPONSE_BIT)) in
          let? response := wr response 1 SQUID_FS_STATUS_OK in
          let? response := wr response 2 (file_type_from_mode (st_mode information)) in
          let? response := write_u16 response 3 (u16 (Z.land (st_mode information) 511)) in
          let? response := write_u32 response 5 (file_size_from_stat information) in
          let? response := write_u32 response 9
            (if (st_mtime information <? 0) || (UINT32_MAX <? u64 (st_mtime information))
             then 0 else u32 (st_mtime information)) in
          Some (response, 13)).

(** The [while ((entry = readdir(directory)) != NULL)] loop over the names
    the stream still holds. *)
Fixpoint list_loop (directory_fd opcode cursor response_capacity : Z)
    (names : list (list Z)) (entry_index entry_count output_size : Z) (response : list Z)
    : M list_exit :=
  match names with
  | [] => ret (list_end entry_count output_size response)
  | d_name :: names =>
      if is_dot_entry d_name then
        list_loop directory_fd opcode cursor response_capacity names
          entry_index entry_count output_size response
      else if entry_index <? cursor then
        list_loop directory_fd opcode cursor response_capacity names
          (u16 (entry_index + 1)) entry_count output_size response
      else
        let name_size := zlen d_name in
        let record_size := 6 + name_size in
        if (UINT8_MAX <? name_size) || (249 <? record_size) then
          do! c_closedir directory_fd;
          let! '(response, result) :=
            reply opcode SQUID_FS_STATUS_TOO_LARGE response response_capacity in
          ret (list_return response result)
        else
          let! '(result, information) :=
            c_fstatat directory_fd d_name AT_SYMLINK_NOFOLLOW in
          if negb (result =? 0) then
            do! c_closedir directory_fd;
            let! e := get_errno in
            let! '(response, result) :=
              reply opcode (status_from_errno e) response response_capacity in
            ret (list_return response result)
          else if u64 (response_capacity - output_size) <? record_size then
            if entry_count =? 0 then
              do! c_closedir directory_fd;
              let! '(response, result) :=
                reply opcode SQUID_FS_STATUS_TOO_LARGE response response_capacity in
              ret (list_return response result)
            else ret (list_full entry_index entry_count output_size response)
          else
            let! record := lift (make_record information d_name) in
            let! response := lift (wr_bytes response output_size record) in
            list_loop directory_fd opcode cursor response_capacity names
              (u16 (entry_index + 1)) (u8 (entry_count + 1)) (output_size + record_size)
              response
  end.

(** The page header, written last. *)
Definition finish_page (opcode next_cursor entry_count output_size : Z) (response : list Z)
    : M (list Z * Z) :=
  lift (
    let? response := wr response 0 (u8 (Z.lor opcode SQUID_FS_RESPONSE_BIT)) in
    let? response := wr response 1 SQUID_FS_STATUS_OK in
    let? response := write_u16 response 2 next_cursor in
    let? response := wr response 4 entry_count in
    Some (response, s32 output_size)).

Definition handle_list (context : squid_fs_context) (opcode : Z) (request : list Z)
    (request_size : Z) (response : list Z) (response_capacity : Z) : M (list Z * Z) :=
  let bad := reply opcode SQUID_FS_STATUS_BAD_REQUEST response response_capacity in
  if request_size <? 4 then bad
  else
    let! '(ok, path) :=
      lift (read_path_request request request_size 3 true (uninit (SQUID_FS_PATH_MAX + 1))) in
    if negb ok then bad
    else
      let! cursor := lift (read_u16 request 1) in
      if (cursor =? SQUID_FS_CURSOR_END) || (response_capacity <? squid_fs_page_header_size)
      then bad
      else
        let! path := lift (cstring path) in
        let! directory_fd := open_directory_path context path in
        if directory_fd <? 0 then
          let! e := get_errno in
          reply opcode (status_from_errno e) response response_capacity
        else
          let! directory := c_fdopendir directory_fd in
          match directory with
          | None =>
              let! e := get_errno in
              do! c_close directory_fd;
              reply opcode (status_from_errno e) response response_capacity
          | Some directory =>
              do! set_errno 0;
              let! exit :=
                list_loop directory_fd opcode cursor response_capacity
                  (ds_names directory) 0 0 squid_fs_page_header_size response in
              match exit with
              | list_return response result => ret (response, result)
              | list_full next_cursor entry_count output_size response =>
                  do! c_closedir directory_fd;
                  finish_page opcode next_cursor entry_count output_size response
              | list_end entry_count output_size response =>
                  (* readdir returned NULL *)
                  do! (if ds_errno directory =? 0 then ret tt
                       else set_errno (ds_errno directory));
                  let! e := get_errno in
                  do! c_closedir directory_fd;
                  if negb (e =? 0) then
                    reply opcode (status_from_errno e) response response_capacity
                  else
                    finish_page opcode SQUID_FS_CURSOR_END entry_count output_size response
              end
          end.

(** Number of bytes READ asks [pread] for. *)
Definition read_chunk_size (response_capacity maximum_bytes file_size offset : Z) : Z :=
  let data_size := response_capacity - squid_fs_read_header_size in
  let data_size :=
    if (0 <? maximum_bytes) && (maximum_bytes <? data_size) then maximum_bytes
    else data_size in
  let data_size := if UINT8_MAX <? data_size then UINT8_MAX else data_size in
  if u64 (file_size - offset) <? data_size then u64 (file_size - offset) else data_size.

Definition handle_read (context : squid_fs_context) (opcode : Z) (request : list Z)
    (request_size : Z) (response : list Z) (response_capacity : Z) : M (list Z * Z) :=
  let fail status := reply opcode status response response_capacity in
  if request_size <? 7 then fail SQUID_FS_STATUS_BAD_REQUEST
  else
    let! '(ok, path) :=
      lift (read_path_request request request_size 6 false (uninit (SQUID_FS_PATH_MAX + 1))) in
    if negb ok then fail SQUID_FS_STATUS_BAD_REQUEST
    else if response_capacity <? squid_fs_read_header_size then ret (response, -1)
    else
      let! offset := lift (read_u32 request 1) in
      let! maximum_bytes := lift (rd request 5) in
      let! path := lift (cstring path) in
      let! '(opened, parent_fd, leaf) := open_parent_directory context path in
      if negb (opened =? 0) then
        let! e := get_errno in fail (status_from_errno e)
      else
        let! file_fd :=
          c_openat parent_fd leaf (Z.lor (Z.lor O_RDONLY O_CLOEXEC) O_NOFOLLOW) 0 in
        if file_fd <? 0 then
          let! e := get_errno in
          do! c_close parent_fd;
          fail (status_from_errno e)
        else
          do! c_close parent_fd;
          let! '(result, information) := c_fstat file_fd in
          if negb (result =? 0) then
            let! e := get_errno in
            do! c_close file_fd;
            fail (status_from_errno e)
          else if S_ISDIR (st_mode information) then
            do! c_close file_fd; fail SQUID_FS_STATUS_IS_DIRECTORY
          else if negb (S_ISREG (st_mode information)) then
            do! c_close file_fd; fail SQUID_FS_STATUS_ACCESS_DENIED
          else if (st_size information <? 0) || (UINT32_MAX <? u64 (st_size information)) then
            do! c_close file_fd; fail SQUID_FS_STATUS_TOO_LARGE
          else if u64 (st_size information) <? offset then
            do! c_close file_fd; fail SQUID_FS_STATUS_BAD_REQUEST
          else
            let data_size :=
              read_chunk_size response_capacity maximum_bytes (st_size information) offset in
            let! '(bytes_read, data) := c_pread file_fd data_size offset in
            let! response :=
              lift (wr_bytes response squid_fs_read_header_size data) in
            if bytes_read <? 0 then
              let! e := get_errno in
              do! c_close file_fd;
              reply opcode (status_from_errno e) response response_capacity
            else
              do! c_close file_fd;
              lift (
                let? response := wr response 0 (u8 (Z.lor opcode SQUID_FS_RESPONSE_BIT)) in
                let? response := wr response 1 SQUID_FS_STATUS_OK in
                let? response := write_u32 response 2 offset in
                let? response := write_u32 response 6 (u32 (st_size information)) in
                let? response := wr response 10 (u8 bytes_read) in
                Some (response, s32 (squid_fs_read_header_size + bytes_read))).

Definition handle_write (context : squid_fs_context) (opcode : Z) (request : list Z)
    (request_size : Z) (response : list Z) (response_capacity : Z) : M (list Z * Z) :=
  let fail status := reply opcode status response response_capacity in
  if negb (read_only context =? 0) then fail SQUID_FS_STATUS_READ_ONLY
  else if request_size <? 8 then fail SQUID_FS_STATUS_BAD_REQUEST
  else
    let cursor := 7 in
    let! offset := lift (read_u32 request 1) in
    let! flags := lift (rd request 5) in
    let! path_size := lift (rd request 6) in
    let unknown :=
      Z.land flags (Z.lnot (Z.lor SQUID_FS_WRITE_CREATE SQUID_FS_WRITE_TRUNCATE)) in
    let! '(ok, path) :=
      (if negb (unknown =? 0) || (u64 (request_size - cursor) <? path_size)
       then ret (false, uninit (SQUID_FS_PATH_MAX + 1))
       else
         let! input := lift (ptr request cursor) in
         lift (path_is_valid (Some input) path_size false (uninit (SQUID_FS_PATH_MAX + 1)))) in
    if negb ok then fail SQUID_FS_STATUS_BAD_REQUEST
    else
      let cursor := cursor + path_size in
      if request_size <=? cursor then fail SQUID_FS_STATUS_BAD_REQUEST
      else
        let! data_size := lift (rd request cursor) in
        let cursor := cursor + 1 in
        if negb (data_size =? u64 (request_size - cursor)) then
          fail SQUID_FS_STATUS_BAD_REQUEST
        else
          let open_flags := Z.lor (Z.lor O_WRONLY O_CLOEXEC) O_NOFOLLOW in
          let open_flags :=
            if negb (Z.land flags SQUID_FS_WRITE_CREATE =? 0)
            then Z.lor open_flags O_CREAT else open_flags in
          let open_flags :=
            if negb (Z.land flags SQUID_FS_WRITE_TRUNCATE =? 0)
            then Z.lor open_flags O_TRUNC else open_flags in
          let! path := lift (cstring path) in
          let! '(opened, parent_fd, leaf) := open_parent_directory context path in
          if negb (opened =? 0) then
            let! e := get_errno in fail (status_from_errno e)
          else
            let! file_fd := c_openat parent_fd leaf open_flags 438 in
            if file_fd <? 0 then
              let! e := get_errno in
              do! c_close parent_fd;
              fail (status_from_errno e)
            else
              do! c_close parent_fd;
              let! '(result, information) := c_fstat file_fd in
              if negb (result =? 0) then
                let! e := get_errno in
                do! c_close file_fd;
                fail (status_from_errno e)
              else if negb (S_ISREG (st_mode information)) then
                do! c_close file_fd; fail SQUID_FS_STATUS_ACCESS_DENIED
              else
                let! data := lift (rd_bytes request cursor data_size) in
                let! bytes_written := c_pwrite file_fd data offset in
                if bytes_written <? 0 then
                  let! e := get_errno in
                  do! c_close file_fd;
                  fail (status_from_errno e)
                else
                  do! c_close file_fd;
                  if response_capacity <? 7 then ret (response, -1)
                  else
                    lift (
                      let? response :=
                        wr response 0 (u8 (Z.lor opcode SQUID_FS_RESPONSE_BIT)) in
                      let? response := wr response 1 SQUID_FS_STATUS_OK in
                      let? response := write_u32 response 2 offset in
                      let? response := wr response 6 (u8 bytes_written) in
                      Some (response, 7)).

Definition handle_mkdir_or_delete (context : squid_fs_context) (opcode : Z)
    (request : list Z) (request_size : Z) (response : list Z) (response_capacity : Z)
    : M (list Z * Z) :=
  let fail status := reply opcode status response response_capacity in
  if negb (read_only context =? 0) then fail SQUID_FS_STATUS_READ_ONLY
  else
    let! '(ok, path) :=
      lift (read_path_request request request_size 1 false (uninit (SQUID_FS_PATH_MAX + 1))) in
    if negb ok then fail SQUID_FS_STATUS_BAD_REQUEST
    else
      let! path := lift (cstring path) in
      let! '(opened, parent_fd, leaf) := open_parent_directory context path in
      if negb (opened =? 0) then
        let! e := get_errno in fail (status_from_errno e)
      else
        let! result :=
          (if opcode =? SQUID_FS_OP_MKDIR then c_mkdirat parent_fd leaf 511
           else
             let! '(result, information) := c_fstatat parent_fd leaf AT_SYMLINK_NOFOLLOW in
             if result =? 0 then
               c_unlinkat parent_fd leaf
                 (if S_ISDIR (st_mode information) then AT_REMOVEDIR else 0)
             else ret result) in
        if negb (result =? 0) then
          let! e := get_errno in
          do! c_close parent_fd;
          fail (status_from_errno e)
        else
          do! c_close parent_fd;
          fail SQUID_FS_STATUS_OK.

Definition handle_rename (context : squid_fs_context) (opcode : Z) (request : list Z)
    (request_size : Z) (response : list Z) (response_capacity : Z) : M (list Z * Z) :=
  let fail status := reply opcode status response response_capacity in
  if negb (read_only context =? 0) then fail SQUID_FS_STATUS_READ_ONLY
  else if request_size <? 4 then fail SQUID_FS_STATUS_BAD_REQUEST
  else
    let cursor := 2 in
    let! old_size := lift (rd request 1) in
    let! '(ok, old_path) :=
      (if u64 (request_size - cursor) <? old_size
       then ret (false, uninit (SQUID_FS_PATH_MAX + 1))
       else
         let! input := lift (ptr request cursor) in
         lift (path_is_valid (Some input) old_size false (uninit (SQUID_FS_PATH_MAX + 1)))) in
    if negb ok then fail SQUID_FS_STATUS_BAD_REQUEST
    else
      let cursor := cursor + old_size in
      if request_size <=? cursor then fail SQUID_FS_STATUS_BAD_REQUEST
      else
        let! new_size := lift (rd request cursor) in
        let cursor := cursor + 1 in
        let! '(ok, new_path) :=
          (if negb (new_size =? u64 (request_size - cursor))
           then ret (false, uninit (SQUID_FS_PATH_MAX + 1))
           else
             let! input := lift (ptr request cursor) in
             lift (path_is_valid (Some input) new_size false
                     (uninit (SQUID_FS_PATH_MAX + 1)))) in
        if negb ok then fail SQUID_FS_STATUS_BAD_REQUEST
        else
          let! old_path := lift (cstring old_path) in
          let! '(opened_old, old_parent, old_leaf) := open_parent_directory context old_path in
          let! '(opened, new_parent, new_leaf) :=
            (if negb (opened_old =? 0) then ret (-1, -1, [])
             else
               let! new_path := lift (cstring new_path) in
               open_parent_directory context new_path) in
          if negb (opened =? 0) then
            let! e := get_errno in
            do! (if 0 <=? old_parent then c_close old_parent else ret tt);
            do! (if 0 <=? new_parent then c_close new_parent else ret tt);
            fail (status_from_errno e)
          else
            let! result := c_renameat old_parent old_leaf new_parent new_leaf in
            if negb (result =? 0) then
              let! e := get_errno in
              do! c_close old_parent;
              do! c_close new_parent;
              fail (status_from_errno e)
            else
              do! c_close old_parent;
              do! c_close new_parent;
              fail SQUID_FS_STATUS_OK.

Definition handle_squid_fs_request (context : option squid_fs_context)
    (request : option (list Z)) (request_size : Z) (response : option (list Z))
    (response_capacity : Z) : M (list Z * Z) :=
  match context, request, response with
  | Some context, Some request, Some response =>
      if (root_fd context <? 0) || (request_size =? 0) || (response_capacity <? 2)
      then ret (response, -1)
      else
        let! opcode := lift (rd request 0) in
        if opcode =? SQUID_FS_OP_CAPABILITIES then
          if negb (request_size =? 1)
          then reply opcode SQUID_FS_STATUS_BAD_REQUEST response response_capacity
          else handle_capabilities context opcode response response_capacity
        else if opcode =? SQUID_FS_OP_STAT then
          handle_stat context opcode request request_size response response_capacity
        else if opcode =? SQUID_FS_OP_LIST then
          handle_list context opcode request request_size response response_capacity
        else if opcode =? SQUID_FS_OP_READ then
          handle_read context opcode request request_size response response_capacity
        else if opcode =? SQUID_FS_OP_WRITE then
          handle_write context opcode request request_size response response_capacity
        else if (opcode =? SQUID_FS_OP_MKDIR) || (opcode =? SQUID_FS_OP_DELETE) then
          handle_mkdir_or_delete context opcode request request_size response
            response_capacity
        else if opcode =? SQUID_FS_OP_RENAME then
          handle_rename context opcode request request_size response response_capacity
        else reply opcode SQUID_FS_STATUS_BAD_REQUEST response response_capacity
  | _, _, Some response => ret (response, -1)
  | _, _, None => ret ([], -1)
  end.
End handlers.
