(* ===== verification/FsPath.v ===== *)
(** Path validation of the filesystem plugin against its documented rule,
    and the walk from a validated path to directory components. *)
From stdpp Require Import base numbers list option.
From Stdlib Require Import ZArith Lia.
From S2P Require Import Prelude CLib Wire Posix Filesystem.

Local Open Scope Z_scope.
Local Open Scope squid_scope.

(** ** The documented rule

    "Absolute paths, NUL bytes, empty components, ".", and ".." are
    rejected", and a path has at most [SQUID_FS_PATH_MAX] bytes. *)

Definition components (s : list Z) : list (list Z) := split_from ch_slash [] s.

(** The names a path goes through; the empty path is the root. *)
Definition names (path : list Z) : list (list Z) :=
  match path with [] => [] | _ => components path end.

Definition name_ok (c : list Z) : Prop := c <> [] /\ c <> [ch_dot] /\ c <> [ch_dot; ch_dot].

#[export] Instance name_ok_dec c : Decision (name_ok c).
Proof. unfold name_ok. apply _. Defined.

Definition valid_path (s : list Z) : Prop :=
  zlen s <= SQUID_FS_PATH_MAX /\ Forall (fun c => c <> 0) s /\ Forall name_ok (components s).

#[export] Instance valid_path_dec s : Decision (valid_path s).
Proof. unfold valid_path. apply _. Defined.

(** ** The loop *)

Lemma rd_app p x q i : i = zlen p -> 0 <= x -> rd (p ++ x :: q) i = Some x.
Proof.
  intros -> Hx. apply rd_Some; [apply zlen_nonneg| |done].
  unfold zlen. rewrite Nat2Z.id. by apply list_lookup_middle.
Qed.

(** The three component tests of the loop body, on the component [cur]. *)
Definition bad_component (input : list Z) (index component_start : Z) : option bool :=
  if index =? component_start then Some true
  else
    let? dot :=
      (if index - component_start =? 1 then
         let? c := rd input component_start in Some (c =? ch_dot)
       else Some false) in
    if dot then Some true
    else
      (if index - component_start =? 2 then
         let? c := rd input component_start in
         if c =? ch_dot then
           let? d := rd input (component_start + 1) in Some (d =? ch_dot)
         else Some false
       else Some false).

Lemma bad_component_eq pre cur rest :
  bytes_ok (pre ++ cur ++ rest) ->
  bad_component (pre ++ cur ++ rest) (zlen pre + zlen cur) (zlen pre)
    = Some (negb (bool_decide (name_ok cur))).
Proof.
  intros Hb. apply Forall_app in Hb as [_ Hb]. unfold bad_component.
  destruct cur as [|x [|y [|z cur]]].
  - rewrite zlen_nil, Z.add_0_r, Z.eqb_refl. done.
  - apply Forall_cons_1 in Hb as [Hx _]. unfold is_byte in Hx.
    rewrite zlen_cons, zlen_nil. destruct (Z.eqb_spec (zlen pre + (1 + 0)) (zlen pre)); [lia|].
    replace (zlen pre + (1 + 0) - zlen pre) with 1 by lia.
    cbn [app Z.eqb Pos.eqb]. rewrite rd_app by (done || lia).
    destruct (Z.eqb_spec x ch_dot) as [->|Hne].
    + rewrite bool_decide_false; [done|]. unfold name_ok; intuition congruence.
    + rewrite bool_decide_true; [done|]. unfold name_ok; intuition congruence.
  - apply Forall_cons_1 in Hb as [Hx Hb]. apply Forall_cons_1 in Hb as [Hy _].
    unfold is_byte in *.
    rewrite !zlen_cons, zlen_nil.
    destruct (Z.eqb_spec (zlen pre + (1 + (1 + 0))) (zlen pre)); [lia|].
    replace (zlen pre + (1 + (1 + 0)) - zlen pre) with 2 by lia.
    cbn [app Z.eqb Pos.eqb]. rewrite rd_app by (done || lia).
    destruct (Z.eqb_spec x ch_dot) as [->|Hne].
    + rewrite (cons_middle ch_dot), app_assoc, rd_app by (zlen_lia || lia).
      destruct (Z.eqb_spec y ch_dot) as [->|Hne].
      * rewrite bool_decide_false; [done|]. unfold name_ok; intuition congruence.
      * rewrite bool_decide_true; [done|]. unfold name_ok; intuition congruence.
    + rewrite bool_decide_true; [done|]. unfold name_ok; intuition congruence.
  - rewrite !zlen_cons. pose proof (zlen_nonneg cur).
    repeat match goal with |- context [?a =? ?b] => destruct (Z.eqb_spec a b); [lia|] end.
    rewrite bool_decide_true; [done|]. unfold name_ok; intuition congruence.
Qed.

Lemma path_loop_unfold n input input_size index component_start path :
  path_loop (S n) input input_size index component_start path =
    (let? is_char :=
       (if index <? input_size then
          let? c := rd input index in Some (negb (c =? ch_slash))
        else Some false) in
     if is_char then
       let? c := rd input index in
       if c =? 0 then Some (false, path)
       else
         let? path := wr path index c in
         path_loop n input input_size (index + 1) component_start path
     else
       let? bad := bad_component input index component_start in
       if bad then Some (false, path)
       else
         let? path := (if index <? input_size then wr path index ch_slash else Some path) in
         path_loop n input input_size (index + 1) (index + 1) path).
Proof.
  cbn [path_loop]. unfold bad_component.
  destruct (if index <? input_size then _ else _) as [[]|]; try done.
  destruct (index =? component_start); [done|].
  destruct (if index - component_start =? 1 then _ else _) as [[]|]; done.
Qed.

(** What the loop decides about the rest of the path. *)
Fixpoint scan (cur s : list Z) : bool :=
  match s with
  | [] => bool_decide (name_ok cur)
  | c :: s =>
      if c =? ch_slash then bool_decide (name_ok cur) && scan [] s
      else if c =? 0 then false
      else scan (cur ++ [c]) s
  end.

Lemma path_loop_spec rest : forall pre cur tail q,
  bytes_ok (pre ++ cur ++ rest ++ tail) -> zlen rest <= zlen q ->
  exists path',
    path_loop (S (length rest)) (pre ++ cur ++ rest ++ tail)
      (zlen (pre ++ cur ++ rest)) (zlen pre + zlen cur) (zlen pre) (pre ++ cur ++ q)
    = Some (scan cur rest, path') /\
    length path' = length (pre ++ cur ++ q) /\
    (scan cur rest = true -> path' = pre ++ cur ++ rest ++ drop (length rest) q).
Proof.
  induction rest as [|c rest IH]; intros pre cur tail q Hb Hq;
    cbn [length]; rewrite path_loop_unfold.
  - rewrite !zlen_app, zlen_nil. destruct (Z.ltb_spec (zlen pre + zlen cur)
      (zlen pre + (zlen cur + 0))); [lia|].
    rewrite bad_component_eq by done. cbn [scan].
    destruct (bool_decide (name_ok cur)); cbn; eexists; split_and!; done.
  - assert (Hc : 0 <= c < 256).
    { rewrite !bytes_ok_app in Hb. destruct Hb as (_ & _ & Hb & _). by inversion Hb. }
    rewrite !zlen_app, zlen_cons. pose proof (zlen_nonneg rest).
    destruct (Z.ltb_spec (zlen pre + zlen cur) (zlen pre + (zlen cur + (1 + zlen rest)))); [|lia].
    assert (Hrd : rd (pre ++ cur ++ (c :: rest) ++ tail) (zlen pre + zlen cur) = Some c).
    { rewrite (app_assoc pre cur). cbn [app]. apply rd_app; [by rewrite zlen_app|lia]. }
    destruct q as [|x q]; [zlen_lia|]. rewrite !zlen_cons in Hq.
    rewrite Hrd. cbn [scan].
    destruct (Z.eqb_spec c ch_slash) as [->|Hs]; cbn [negb].
    + rewrite bad_component_eq by done.
      destruct (bool_decide (name_ok cur)); cbn [negb andb];
        [|eexists; split_and!; done].
      rewrite (app_assoc pre cur (x :: q)), wr_app by (by rewrite zlen_app).
      specialize (IH (pre ++ cur ++ [ch_slash]) [] tail q).
      destruct IH as (path' & Heq & Hlen & Htrue); [|lia|].
      { cbn [app]. rewrite <- !app_assoc. exact Hb. }
      exists path'. split_and!.
      * rewrite <- Heq. cbn [app]. rewrite <- !app_assoc, !zlen_app, zlen_cons, !zlen_nil.
        cbn [app]. f_equal; lia.
      * rewrite Hlen. cbn [app]. rewrite !length_app. cbn. lia.
      * intros Ht. rewrite (Htrue Ht). cbn [app drop]. by rewrite <- !app_assoc.
    + destruct (Z.eqb_spec c 0) as [->|Hnz]; [eexists; split_and!; done|].
      rewrite (app_assoc pre cur (x :: q)), wr_app by (by rewrite zlen_app).
      specialize (IH pre (cur ++ [c]) tail q).
      destruct IH as (path' & Heq & Hlen & Htrue); [|lia|].
      { rewrite <- !app_assoc. exact Hb. }
      exists path'. split_and!.
      * rewrite <- Heq. rewrite <- !app_assoc, !zlen_app, zlen_cons, !zlen_nil.
        cbn [app]. f_equal; lia.
      * rewrite Hlen, !length_app. cbn. lia.
      * intros Ht. rewrite (Htrue Ht). cbn [app drop]. by rewrite <- !app_assoc.
Qed.

Lemma scan_spec s : forall cur,
  Forall (fun c => c <> 0) cur -> Forall (fun c => c <> ch_slash) cur ->
  scan cur s = true <->
  Forall (fun c => c <> 0) s /\ Forall name_ok (split_from ch_slash cur s).
Proof.
  induction s as [|c s IH]; intros cur Hz Hs; cbn.
  - rewrite bool_decide_eq_true, Forall_singleton. intuition.
  - destruct (Z.eqb_spec c ch_slash) as [->|Hne].
    + rewrite andb_true_iff, bool_decide_eq_true, IH, !Forall_cons_iff by done.
      unfold ch_slash. intuition lia.
    + destruct (Z.eqb_spec c 0) as [->|Hnz].
      * rewrite Forall_cons_iff. intuition congruence.
      * rewrite IH, Forall_cons_iff by (apply Forall_app; split; auto). intuition.
Qed.

Lemma scan_last_slash s : forall cur, scan cur (s ++ [ch_slash]) = false.
Proof.
  induction s as [|c s IH]; intros cur; cbn.
  - apply andb_false_r.
  - rewrite !IH. destruct (c =? ch_slash); [apply andb_false_r|by destruct (c =? 0)].
Qed.

Lemma scan_valid s : scan [] s = true <-> Forall (fun c => c <> 0) s /\ Forall name_ok (components s).
Proof. by apply scan_spec. Qed.

Lemma valid_path_scan s :
  zlen s <= SQUID_FS_PATH_MAX -> bool_decide (valid_path s) = scan [] s.
Proof.
  intros Hl. unfold valid_path.
  destruct (scan [] s) eqn:E.
  - apply bool_decide_true. split; [done|]. by apply scan_valid.
  - apply bool_decide_false. intros [_ Hv]. apply scan_valid in Hv. congruence.
Qed.

Lemma bytes_cstr s : bytes_ok s -> Forall (fun c => c <> 0) s -> cstr_ok s.
Proof.
  unfold bytes_ok, cstr_ok, is_byte. rewrite !Forall_forall. intros H1 H2 x Hx.
  specialize (H1 x Hx). specialize (H2 x Hx). lia.
Qed.

Lemma invalid_nil : ~ valid_path [].
Proof. intros (_ & _ & H). inversion H as [|? ? [? _] ?]. done. Qed.

(** The loop and the final NUL, on a path that fits the array. *)
Lemma path_tail_spec s tail path :
  bytes_ok (s ++ tail) -> zlen s < zlen path ->
  exists path',
    (let? '(ok, path) := path_loop (Z.to_nat (zlen s + 1)) (s ++ tail) (zlen s) 0 0 path in
     if ok then let? path := wr path (zlen s) 0 in Some (true, path)
     else Some (false, path)) = Some (scan [] s, path') /\
    length path' = length path /\ (scan [] s = true -> cstring path' = Some s).
Proof.
  intros Hb Hp.
  replace (Z.to_nat (zlen s + 1)) with (S (length s)) by (unfold zlen; lia).
  destruct (path_loop_spec s [] [] tail path) as (p1 & Heq & Hlen & Htrue); [done|lia|].
  cbn [app] in *. change (zlen (@nil Z) + zlen (@nil Z)) with 0 in Heq.
  change (zlen (@nil Z)) with 0 in Heq. rewrite Heq.
  destruct (scan [] s) eqn:E; [|by eexists].
  rewrite (Htrue eq_refl) in *.
  assert (exists y q, drop (length s) path = y :: q) as (y & q & Hq).
  { destruct (drop (length s) path) eqn:D; [|eauto].
    apply (f_equal length) in D. rewrite length_drop in D. unfold zlen in *. cbn in D. lia. }
  rewrite Hq in *. rewrite wr_app by done. eexists. split; [done|]. split.
  - rewrite <- Hlen, !length_app. done.
  - intros _. apply scan_valid in E as [Hz _]. apply bytes_ok_app in Hb as [Hb _].
    by apply cstring_app, bytes_cstr.
Qed.

Lemma path_is_valid_spec s tail allow path :
  bytes_ok (s ++ tail) -> zlen path = SQUID_FS_PATH_MAX + 1 ->
  let ok := bool_decide (valid_path s) || (allow && bool_decide (s = [])) in
  exists path',
    path_is_valid (Some (s ++ tail)) (zlen s) allow path = Some (ok, path') /\
    length path' = length path /\ (ok = true -> cstring path' = Some s).
Proof.
  intros Hb Hp ok. subst ok. unfold path_is_valid.
  destruct (Z.eqb_spec (zlen s) 0) as [H0|H0].
  { apply zlen_nil_inv in H0 as ->. rewrite (bool_decide_false _ invalid_nil).
    destruct allow; cbn -[zlen]; [|by eexists].
    destruct path as [|x path]; [done|]. by eexists. }
  assert (Hne : bool_decide (s = []) = false) by (apply bool_decide_false; by intros ->).
  rewrite Hne, andb_false_r, orb_false_r. cbn [andb orb].
  destruct (Z.ltb_spec SQUID_FS_PATH_MAX (zlen s)) as [Hlong|Hshort].
  { rewrite bool_decide_false; [by eexists|]. intros [? _]. lia. }
  rewrite valid_path_scan by done.
  destruct (path_tail_spec s tail path) as (path' & Htail); [done|lia|].
  destruct (exists_last (l := s)) as (s' & z & Hs); [by intros ->|].
  destruct (rd_ok (s ++ tail) 0) as (a & Ha & _); [done|zlen_lia|]. rewrite Ha.
  destruct (rd_ok (s ++ tail) (zlen s - 1)) as (y & Hy & _); [done|zlen_lia|]. rewrite Hy.
  destruct (Z.eqb_spec a ch_slash) as [->|_].
  { destruct s as [|b s]; [done|]. apply rd_inv in Ha as (_ & Ha & _).
    injection Ha as ->. by eexists. }
  destruct (Z.eqb_spec y ch_slash) as [->|_]; [|by exists path'].
  apply rd_inv in Hy as (_ & Hy & _).
  replace (Z.to_nat (zlen s - 1)) with (length s') in Hy
    by (rewrite Hs; unfold zlen; rewrite length_app; cbn; lia).
  rewrite Hs, <- app_assoc in Hy. cbn [app] in Hy.
  rewrite list_lookup_middle in Hy by done. injection Hy as ->.
  rewrite Hs, scan_last_slash. by eexists.
Qed.

(** ** Components of a validated path *)

(** A name that denotes an entry of one directory and nothing else. *)
Definition safe_name (n : list Z) : Prop :=
  name_ok n /\ Forall (fun c => c <> ch_slash) n /\ Forall (fun c => c <> 0) n.

Lemma split_from_spec s : forall cur,
  Forall (fun c => c <> ch_slash) cur -> Forall (fun c => c <> 0) cur ->
  Forall (fun c => c <> 0) s ->
  Forall (fun n => Forall (fun c => c <> ch_slash) n /\ Forall (fun c => c <> 0) n)
    (split_from ch_slash cur s).
Proof.
  induction s as [|c s IH]; intros cur Hs Hz Hzs; cbn.
  - by repeat constructor.
  - apply Forall_cons_1 in Hzs as [Hc Hzs]. destruct (Z.eqb_spec c ch_slash).
    + constructor; [done|]. by apply IH.
    + apply IH; [apply Forall_app; auto..|done].
Qed.

Lemma components_safe s : valid_path s -> Forall safe_name (components s).
Proof.
  intros (_ & Hz & Hn). pose proof (split_from_spec s [] ltac:(done) ltac:(done) Hz) as Hs.
  unfold safe_name, components in *. rewrite !Forall_forall in *. intuition; by apply Hs.
Qed.

(** [strtok_r] visits exactly the components of a valid path. *)
Lemma strtok_split s : forall cur,
  Forall name_ok (split_from ch_slash cur s) ->
  tokens_from (Z.eqb ch_slash) cur s = split_from ch_slash cur s.
Proof.
  induction s as [|c s IH]; intros cur H; cbn [tokens_from split_from] in *.
  - apply Forall_cons_1 in H as [[? _] _]. by destruct cur.
  - rewrite (Z.eqb_sym ch_slash c). destruct (c =? ch_slash); [|by apply IH].
    apply Forall_cons_1 in H as [[Hne _] Hs]. rewrite IH by done. by destruct cur.
Qed.

Lemma strrchr_None s c : strrchr s c = None -> Forall (fun x => x <> c) s.
Proof.
  induction s as [|x s IH]; cbn; [done|].
  destruct (strrchr s c); [done|]. destruct (Z.eqb_spec x c); [done|]. auto.
Qed.

Lemma strrchr_Some s c i :
  strrchr s c = Some i ->
  s = take i s ++ c :: drop (S i) s /\ Forall (fun x => x <> c) (drop (S i) s).
Proof.
  revert i. induction s as [|x s IH]; intros i; cbn; [done|].
  destruct (strrchr s c) as [j|] eqn:E.
  - intros [= <-]. destruct (IH j eq_refl) as [H1 H2]. cbn. by rewrite <- H1.
  - destruct (Z.eqb_spec x c) as [->|]; [|done]. intros [= <-]. cbn. rewrite drop_0.
    split; [done|]. by apply strrchr_None.
Qed.

Lemma split_no_sep sep l : forall cur,
  Forall (fun x => x <> sep) l -> split_from sep cur l = [cur ++ l].
Proof.
  induction l as [|c l IH]; intros cur H; cbn; [by rewrite app_nil_r|].
  apply Forall_cons_1 in H as [Hc H]. destruct (Z.eqb_spec c sep); [done|].
  rewrite IH by done. by rewrite <- app_assoc.
Qed.

Lemma split_last sep p l : forall cur,
  Forall (fun x => x <> sep) l ->
  split_from sep cur (p ++ sep :: l) = split_from sep cur p ++ [l].
Proof.
  induction p as [|c p IH]; intros cur H; cbn.
  - rewrite Z.eqb_refl. by rewrite split_no_sep.
  - destruct (c =? sep); cbn; by rewrite IH.
Qed.

(** Splitting a valid path at its last slash: the parent is a valid path and
    the leaf is a safe name. *)
Lemma valid_path_parent s i :
  valid_path s -> strrchr s ch_slash = Some i ->
  valid_path (take i s) /\ safe_name (drop (S i) s) /\ Z.of_nat i < zlen s.
Proof.
  intros Hv Hi. apply strrchr_Some in Hi as [Hs Hl].
  pose proof (components_safe s Hv) as Hc. unfold components in Hc.
  rewrite Hs, split_last in Hc by done. apply Forall_app in Hc as [Hp Hleaf].
  destruct Hv as (Hlen & Hz & _). rewrite Hs in Hz. apply Forall_app in Hz as [Hzp _].
  pose proof (f_equal zlen Hs) as Hlen'. rewrite zlen_app, zlen_cons, zlen_take in Hlen'.
  split_and!.
  - split_and!; [rewrite zlen_take; lia|done|].
    eapply Forall_impl; [|exact Hp]. by intros ? [? _].
  - by inversion Hleaf.
  - zlen_lia.
Qed.

Lemma valid_path_leaf s : valid_path s -> strrchr s ch_slash = None -> safe_name s.
Proof.
  intros Hv Hi. apply strrchr_None in Hi. pose proof (components_safe s Hv) as Hc.
  unfold components in Hc. rewrite split_no_sep in Hc by done. by inversion Hc.
Qed.

Lemma ptr_ok request i :
  0 <= i <= zlen request -> ptr request i = Some (drop (Z.to_nat i) request).
Proof.
  intros. unfold ptr.
  destruct (Z.leb_spec 0 i), (Z.leb_spec i (zlen request)); try lia. done.
Qed.

(** A counted path in a request: [size] bytes at offset [i]. *)
Lemma path_at_spec request i size allow path :
  bytes_ok request -> 0 <= i -> 0 <= size -> i + size <= zlen request ->
  zlen path = SQUID_FS_PATH_MAX + 1 ->
  let s := take (Z.to_nat size) (drop (Z.to_nat i) request) in
  exists path',
    path_is_valid (Some (drop (Z.to_nat i) request)) size allow path =
      Some (bool_decide (valid_path s) || (allow && bool_decide (s = [])), path') /\
    length path' = length path /\
    (bool_decide (valid_path s) || (allow && bool_decide (s = [])) = true ->
     cstring path' = Some s).
Proof.
  intros Hb Hi Hsz Hle Hp s.
  destruct (path_is_valid_spec s (drop (Z.to_nat size) (drop (Z.to_nat i) request)) allow path)
    as (p' & H1 & H2 & H3); [|done|].
  { subst s. rewrite take_drop. auto with squid. }
  exists p'. split; [|done]. rewrite <- H1. subst s. rewrite take_drop. f_equal.
  rewrite zlen_take, zlen_drop. lia.
Qed.

Lemma uninit_len n : 0 <= n -> zlen (uninit n) = n.
Proof. intros. unfold uninit, zlen. rewrite length_replicate. lia. Qed.

(** [read_path_request] accepts exactly the requests whose path field fills
    the rest of the request and is valid. *)
Lemma read_path_request_spec request request_size off allow :
  bytes_ok request -> 0 <= request_size <= zlen request -> request_size < 2 ^ 63 -> 0 <= off ->
  exists ok path',
    read_path_request request request_size off allow (uninit (SQUID_FS_PATH_MAX + 1))
      = Some (ok, path') /\
    (ok = true -> exists s,
       cstring path' = Some s /\ (valid_path s \/ allow = true /\ s = []) /\
       s = take (Z.to_nat (request_size - off - 1)) (drop (Z.to_nat (off + 1)) request) /\
       request !! Z.to_nat off = Some (zlen s) /\ off < request_size).
Proof.
  intros Hb Hsz Hbig Hoff. unfold read_path_request.
  destruct (Z.leb_spec request_size off); [by eexists _, _|].
  destruct (rd_ok request off) as (n & Hn & Hnr); [done|lia|]. rewrite Hn.
  rewrite u64_small by lia.
  destruct (Z.eqb_spec n (request_size - off - 1)) as [->|]; cbn [negb]; [|by eexists _, _].
  rewrite ptr_ok by lia.
  destruct (path_at_spec request (off + 1) (request_size - off - 1) allow
    (uninit (SQUID_FS_PATH_MAX + 1))) as (p' & H1 & H2 & H3);
    [done|lia|lia|lia|by rewrite uninit_len|].
  eexists _, p'. split; [exact H1|]. intros Hok. specialize (H3 Hok).
  eexists. split_and!; [exact H3| |done| |lia].
  - apply orb_true_iff in Hok as [Hok|Hok].
    + left. by apply bool_decide_eq_true in Hok.
    + right. apply andb_true_iff in Hok as [? Hok]. by apply bool_decide_eq_true in Hok.
  - apply rd_inv in Hn as (_ & Hn & _). rewrite Hn. f_equal.
    rewrite zlen_take, zlen_drop. lia.
Qed.

(** A request that ends with a counted valid path is accepted. *)
Lemma read_path_request_true pre path allow :
  bytes_ok pre -> bytes_ok path -> zlen path < 256 -> zlen pre < 65536 ->
  valid_path path \/ allow = true /\ path = [] ->
  let request := pre ++ zlen path :: path in
  exists p, read_path_request request (zlen request) (zlen pre) allow
      (uninit (SQUID_FS_PATH_MAX + 1)) = Some (true, p) /\ cstring p = Some path.
Proof.
  intros Hb1 Hb2 Hl Hpre Hv request. subst request. pose proof (zlen_nonneg path).
  unfold read_path_request. rewrite zlen_app, zlen_cons.
  destruct (Z.leb_spec (zlen pre + (1 + zlen path)) (zlen pre)); [lia|].
  rewrite rd_app by (done || lia).
  replace (zlen pre + (1 + zlen path) - zlen pre - 1) with (zlen path) by lia.
  rewrite u64_small, Z.eqb_refl by lia. cbn [negb].
  rewrite ptr_ok by (rewrite zlen_app, zlen_cons; zlen_nonnegs; lia).
  replace (Z.to_nat (zlen pre + 1)) with (S (length pre)) by (unfold zlen; lia).
  rewrite cons_middle, app_assoc, drop_app_length' by (rewrite length_app; cbn; lia).
  destruct (path_is_valid_spec path [] allow (uninit (SQUID_FS_PATH_MAX + 1)))
    as (p & H1 & _ & H3); [by rewrite app_nil_r|by rewrite uninit_len|].
  rewrite app_nil_r in H1. exists p.
  assert (Hok : bool_decide (valid_path path) || (allow && bool_decide (path = [])) = true).
  { destruct Hv as [Hv|[-> ->]]; [by rewrite bool_decide_true|apply orb_true_r]. }
  rewrite Hok in *. auto.
Qed.
