(* ===== verification/FsTrace.v ===== *)
(** Which system calls the filesystem plugin may make: the discipline on
    descriptors and names as a step relation over the call trace, the proof
    rules that keep a handler inside it, and the path walk. *)
From stdpp Require Import base numbers list option.
From Stdlib Require Import ZArith Lia.
From S2P Require Import Prelude CLib Wire Posix Filesystem FsPath.

Local Open Scope Z_scope.
Local Open Scope squid_scope.

(** ** The discipline *)

(** The open call does not follow a symbolic link in its last component. *)
Definition nofollow (flags : Z) : bool := negb (Z.land flags O_NOFOLLOW =? 0).

(** The event may change the exported tree. *)
Definition mutates (e : event) : bool :=
  match e with
  | EOpenat _ _ flags _ =>
      negb (Z.land flags (Z.lor (Z.lor O_WRONLY O_CREAT) O_TRUNC) =? 0)
  | EPwrite _ _ _ _ | EMkdirat _ _ _ | EUnlinkat _ _ _ _ | ERenameat _ _ _ _ _ => true
  | _ => false
  end.

(** [fd_step root fds e fds']: with the descriptors [fds] open beside the
    root, the event [e] only uses open descriptors, only names single
    components, follows no symbolic link, and leaves [fds'] open. *)
Inductive fd_step (root : Z) : list Z -> event -> list Z -> Prop :=
| step_dup fds fd r :
    fd = root -> 0 <= r -> fd_step root fds (EDup fd r) (r :: fds)
| step_dup_fail fds fd : fd = root -> fd_step root fds (EDup fd (-1)) fds
| step_openat fds d n f r :
    d ∈ root :: fds -> safe_name n -> nofollow f = true -> 0 <= r ->
    fd_step root fds (EOpenat d n f r) (r :: fds)
| step_openat_fail fds d n f :
    d ∈ root :: fds -> safe_name n -> nofollow f = true ->
    fd_step root fds (EOpenat d n f (-1)) fds
| step_close fds1 fd fds2 : fd_step root (fds1 ++ fd :: fds2) (EClose fd) (fds1 ++ fds2)
| step_closedir fds1 fd fds2 : fd_step root (fds1 ++ fd :: fds2) (EClosedir fd) (fds1 ++ fds2)
| step_fstat fds fd r : fd ∈ root :: fds -> fd_step root fds (EFstat fd r) fds
| step_fstatat fds d n r :
    d ∈ root :: fds -> safe_name n -> fd_step root fds (EFstatat d n AT_SYMLINK_NOFOLLOW r) fds
| step_fdopendir fds fd r : fd ∈ fds -> fd_step root fds (EFdopendir fd r) fds
| step_pread fds fd n off data r : fd ∈ fds -> fd_step root fds (EPread fd n off data r) fds
| step_pwrite fds fd data off r : fd ∈ fds -> fd_step root fds (EPwrite fd data off r) fds
| step_mkdirat fds d n r :
    d ∈ root :: fds -> safe_name n -> fd_step root fds (EMkdirat d n r) fds
| step_unlinkat fds d n f r :
    d ∈ root :: fds -> safe_name n -> fd_step root fds (EUnlinkat d n f r) fds
| step_renameat fds d n d' n' r :
    d ∈ root :: fds -> d' ∈ root :: fds -> safe_name n -> safe_name n' ->
    fd_step root fds (ERenameat d n d' n' r) fds.

Inductive fd_run (root : Z) : list Z -> list event -> list Z -> Prop :=
| run_nil fds : fd_run root fds [] fds
| run_snoc fds es fds' e fds'' :
    fd_run root fds es fds' -> fd_step root fds' e fds'' -> fd_run root fds (es ++ [e]) fds''.

(** ** Rules

    [progress root ro s0 s fds]: from the state [s0] the handler has reached
    [s], with exactly [fds] left open; when the export is read-only no
    mutating call was made. *)
Section rules.
Context {W : Type} `{Posix W}.
Variables (root ro : Z) (s0 : os W).

Definition progress (s : os W) (fds : list Z) : Prop :=
  exists es, trace s = trace s0 ++ es /\ fd_run root [] es fds /\
    (ro <> 0 -> Forall (fun e => mutates e = false) es).

Lemma progress_refl : progress s0 [].
Proof. exists []. rewrite app_nil_r. by repeat constructor. Qed.

Lemma progress_step s fds e s' fds' :
  progress s fds -> extends s e s' -> fd_step root fds e fds' ->
  (ro <> 0 -> mutates e = false) -> progress s' fds'.
Proof.
  intros (es & Ht & Hr & Hq) He Hs Hm. exists (es ++ [e]). split_and!.
  - rewrite He, Ht. by rewrite app_assoc.
  - by econstructor.
  - intros Hro. apply Forall_app. auto.
Qed.

Lemma wp_set_errno_p e Q s fds :
  progress s fds -> (forall s', progress s' fds -> Q tt s') -> wp (set_errno e) Q s.
Proof.
  intros (es & Ht & Hp) HQ. apply wp_set_errno. intros s' Hs. apply HQ.
  exists es. by rewrite Hs.
Qed.

Lemma wp_dup_p fd Q s fds :
  progress s fds -> fd = root ->
  (forall s', progress s' fds -> Q (-1) s') ->
  (forall r s', 0 <= r -> progress s' (r :: fds) -> Q r s') ->
  wp (c_dup fd) Q s.
Proof.
  intros Hp Hfd HQ1 HQ2. apply wp_dup. intros r s' [->|Hr] He; [apply HQ1|apply HQ2; [done|]];
    (eapply progress_step; [done..| |done]); by constructor.
Qed.

Lemma wp_openat_p d n f m Q s fds :
  progress s fds -> d ∈ root :: fds -> safe_name n -> nofollow f = true ->
  (ro <> 0 -> Z.land f (Z.lor (Z.lor O_WRONLY O_CREAT) O_TRUNC) = 0) ->
  (forall s', progress s' fds -> Q (-1) s') ->
  (forall r s', 0 <= r -> progress s' (r :: fds) -> Q r s') ->
  wp (c_openat d n f m) Q s.
Proof.
  intros Hp Hd Hn Hf Hro HQ1 HQ2. apply wp_openat.
  assert (Hm : forall r, ro <> 0 -> mutates (EOpenat d n f r) = false).
  { intros r Hr. cbn -[Z.land]. by rewrite (Hro Hr). }
  intros r s' [->|Hr] He; [apply HQ1|apply HQ2; [done|]];
    (eapply progress_step; [done..| |by auto]); by constructor.
Qed.

Lemma wp_close_p fd Q s fds1 fds2 :
  progress s (fds1 ++ fd :: fds2) ->
  (forall s', progress s' (fds1 ++ fds2) -> extends s (EClose fd) s' -> Q tt s') ->
  wp (c_close fd) Q s.
Proof.
  intros Hp HQ. apply wp_close. intros s' He. apply HQ; [|done].
  eapply progress_step; [done..| |done]. constructor.
Qed.
Lemma wp_closedir_p fd Q s fds1 fds2 :
  progress s (fds1 ++ fd :: fds2) ->
  (forall s', progress s' (fds1 ++ fds2) -> Q tt s') -> wp (c_closedir fd) Q s.
Proof.
  intros Hp HQ. apply wp_closedir. intros s' He. apply HQ.
  eapply progress_step; [done..| |done]. constructor.
Qed.

Lemma wp_fstatat_p d n Q s fds :
  progress s fds -> d ∈ root :: fds -> safe_name n ->
  (forall r st s', r = -1 \/ 0 <= r -> progress s' fds -> Q (r, st) s') ->
  wp (c_fstatat d n AT_SYMLINK_NOFOLLOW) Q s.
Proof.
  intros Hp Hd Hn HQ. apply wp_fstatat. intros r st s' Hr He. apply HQ; [done|].
  eapply progress_step; [done..| |done]. by constructor.
Qed.

(** Calls that change the tree need a writable export. *)
Lemma wp_mkdirat_p d n m Q s fds :
  ro = 0 -> progress s fds -> d ∈ root :: fds -> safe_name n ->
  (forall r s', progress s' fds -> Q r s') -> wp (c_mkdirat d n m) Q s.
Proof.
  intros Hro Hp Hd Hn HQ. apply wp_mkdirat. intros r s' _ He. apply HQ.
  eapply progress_step; [done..|by constructor|done].
Qed.
Lemma wp_unlinkat_p d n f Q s fds :
  ro = 0 -> progress s fds -> d ∈ root :: fds -> safe_name n ->
  (forall r s', progress s' fds -> Q r s') -> wp (c_unlinkat d n f) Q s.
Proof.
  intros Hro Hp Hd Hn HQ. apply wp_unlinkat. intros r s' _ He. apply HQ.
  eapply progress_step; [done..|by constructor|done].
Qed.
Lemma wp_renameat_p d n d' n' Q s fds :
  ro = 0 -> progress s fds -> d ∈ root :: fds -> d' ∈ root :: fds ->
  safe_name n -> safe_name n' ->
  (forall r s', progress s' fds -> Q r s') -> wp (c_renameat d n d' n') Q s.
Proof.
  intros Hro Hp Hd Hd' Hn Hn' HQ. apply wp_renameat. intros r s' _ He. apply HQ.
  eapply progress_step; [done..|by constructor|done].
Qed.

Context {LAWS : PosixLaws W}.

Lemma wp_fstat_p fd Q s fds :
  progress s fds -> fd ∈ root :: fds ->
  (forall r st s', r = -1 \/ 0 <= r -> stat_ok st -> progress s' fds -> Q (r, st) s') ->
  wp (c_fstat fd) Q s.
Proof.
  intros Hp Hfd HQ. apply wp_fstat. intros r st s' Hr Hst He. apply HQ; [done..|].
  eapply progress_step; [done..| |done]. by constructor.
Qed.
Lemma wp_pread_p fd n off Q s fds :
  progress s fds -> fd ∈ fds -> 0 <= n ->
  (forall r data s', (r = -1 /\ data = [] \/ 0 <= r <= n /\ zlen data = r /\ bytes_ok data) ->
     EPread fd n off data r ∈ trace s' -> progress s' fds -> Q (r, data) s') ->
  wp (c_pread fd n off) Q s.
Proof.
  intros Hp Hfd Hn HQ. apply wp_pread; [done|]. intros r data s' Hr He. apply HQ; [done| |].
  { rewrite He. apply elem_of_app. right. apply list_elem_of_here. }
  eapply progress_step; [done..| |done]. by constructor.
Qed.
Lemma wp_pwrite_p fd data off Q s fds :
  ro = 0 -> progress s fds -> fd ∈ fds ->
  (forall r s', r = -1 \/ 0 <= r <= zlen data -> progress s' fds -> Q r s') ->
  wp (c_pwrite fd data off) Q s.
Proof.
  intros Hro Hp Hfd HQ. apply wp_pwrite. intros r s' Hr He. apply HQ; [done|].
  eapply progress_step; [done..|by constructor|done].
Qed.
Lemma wp_fdopendir_p fd Q s fds :
  progress s fds -> fd ∈ fds ->
  (forall d s', Forall entry_name (ds_names d) -> progress s' fds -> Q (Some d) s') ->
  (forall s', progress s' fds -> Q None s') ->
  wp (c_fdopendir fd) Q s.
Proof.
  intros Hp Hfd HQ1 HQ2. apply wp_fdopendir.
  - intros d s' Hd r Hr He. apply HQ1; [done|].
    eapply progress_step; [done..| |done]. by constructor.
  - intros s' He. apply HQ2. eapply progress_step; [done..| |done]. by constructor.
Qed.
End rules.

(** ** Walking a path *)

Section walk.
Context {W : Type} `{Posix W}.
Variables (ro : Z) (s0 : os W) (context : squid_fs_context).
Hypothesis root_open : 0 <= root_fd context.
Local Abbreviation root := (root_fd context).
Local Abbreviation progress := (progress root ro s0).

Lemma open_components_spec names : forall fd Q s fds,
  Forall safe_name names -> 0 <= fd -> progress s (fd :: fds) ->
  (forall s', progress s' fds -> Q (-1) s') ->
  (forall r s', 0 <= r -> progress s' (r :: fds) -> Q r s') ->
  wp (open_components fd names) Q s.
Proof.
  induction names as [|n names IH]; intros fd Q s fds Hn Hfd Hp HQ1 HQ2; cbn [open_components].
  - by apply wp_ret, HQ2.
  - apply Forall_cons_1 in Hn as [Hn Hns].
    apply wp_bind. eapply wp_openat_p; [done| |done|reflexivity|reflexivity|..].
    { apply list_elem_of_further, list_elem_of_here. }
    + intros s1 Hp1. apply wp_bind, wp_get_errno, wp_bind.
      eapply (wp_close_p _ _ _ _ _ _ []); [done|]. intros s2 Hp2 _. cbn -[wp].
      apply wp_bind. eapply wp_set_errno_p; [done|]. intros s3 Hp3. by apply HQ1.
    + intros r s1 Hr Hp1. apply wp_bind, wp_get_errno, wp_bind.
      eapply (wp_close_p _ _ _ _ _ _ [r] fds); [exact Hp1|]. intros s2 Hp2 _.
      destruct (Z.ltb_spec r 0); [lia|]. by eapply IH.
Qed.

(** The copy that [strtok_r] cuts up gives the components of the path. *)
Lemma open_copied fd path Q s : bytes_ok path -> valid_path path ->
  wp (open_components fd (components path)) Q s ->
  wp (let! working := lift (wr_bytes (uninit (SQUID_FS_PATH_MAX + 1)) 0 (path ++ [0])) in
      let! working := lift (cstring working) in
      open_components fd (strtok_all (Z.eqb ch_slash) working)) Q s.
Proof.
  intros Hb (Hlen & Hz & Hn) Hw. apply wp_bind. eapply wp_lift.
  { apply (wr_bytes_app [] (uninit (SQUID_FS_PATH_MAX + 1)) (path ++ [0])); [done|].
    rewrite uninit_len by done. rewrite zlen_app. change (zlen [0]) with 1. lia. }
  cbn [app]. apply wp_bind. eapply wp_lift.
  { rewrite <- app_assoc. by apply cstring_app, bytes_cstr. }
  unfold strtok_all. by rewrite strtok_split.
Qed.

Lemma open_directory_path_spec path Q s fds :
  bytes_ok path -> (valid_path path \/ path = []) -> progress s fds ->
  (forall s', progress s' fds -> Q (-1) s') ->
  (forall r s', 0 <= r -> progress s' (r :: fds) -> Q r s') ->
  wp (open_directory_path context path) Q s.
Proof.
  intros Hb Hv Hp HQ1 HQ2. unfold open_directory_path, open_root_copy.
  destruct (Z.ltb_spec root 0); [lia|].
  apply wp_bind. eapply wp_dup_p; [done|done|intros s1 Hp1; by apply HQ1|].
  intros r s1 Hr Hp1. destruct (Z.ltb_spec r 0); [lia|].
  destruct path as [|c path]; [by apply HQ2|].
  destruct Hv as [Hv|]; [|done]. apply open_copied; [done..|].
  by eapply open_components_spec; [apply components_safe|..].
Qed.

(** The parent and the leaf of a valid path. *)
Lemma open_parent_split path : bytes_ok path -> valid_path path ->
  exists parent leaf, bytes_ok parent /\ (valid_path parent \/ parent = []) /\ safe_name leaf /\
    names path = names parent ++ [leaf] /\
    forall Q (s : os W),
      wp (let! parent_fd := open_directory_path context parent in
          ret (if 0 <=? parent_fd then 0 else -1, parent_fd, leaf)) Q s ->
      wp (open_parent_directory context path) Q s.
Proof.
  intros Hb Hv. unfold open_parent_directory.
  destruct path as [|c path]; [by destruct invalid_nil|]. set (p := c :: path) in *.
  change (names p) with (components p).
  destruct (strrchr p ch_slash) as [i|] eqn:E.
  2: { exists [], p. split_and!; [constructor|by right|by apply valid_path_leaf| |].
       - unfold components. by rewrite split_no_sep by (by apply strrchr_None).
       - intros Q s HQ. by apply wp_bind, wp_ret. }
  destruct (valid_path_parent p i Hv E) as (Hvp & Hl & Hi).
  exists (take i p), (drop (S i) p). split_and!; [auto with squid|by left|done| |].
  { destruct (take i p) as [|c' q] eqn:Et; [by destruct invalid_nil|]. rewrite <- Et.
    change (names (take i p)) with (match take i p with [] => [] | _ => components (take i p) end).
    apply strrchr_Some in E as [Hs Hns]. rewrite Et. cbn iota. rewrite <- Et.
    unfold components. rewrite Hs at 1. by rewrite split_last. }
  intros Q s HQ. destruct Hv as (Hlen & _). pose proof Hvp as (_ & Hz & _).
  assert (Hlt : zlen (take i p) = Z.of_nat i) by (rewrite zlen_take; lia).
  assert (Hlt' : length (uninit (SQUID_FS_PATH_MAX + 1)) = 241%nat) by reflexivity.
  apply wp_bind, wp_bind. eapply wp_lift.
  { apply (wr_bytes_app [] (uninit (SQUID_FS_PATH_MAX + 1)) (take i p)); [done|]. rewrite uninit_len by done. lia. }
  cbn [app]. destruct (drop (length (take i p)) (uninit (SQUID_FS_PATH_MAX + 1)))
    as [|y q] eqn:D.
  { apply (f_equal length) in D. rewrite length_drop in D. unfold zlen in Hlt.
    rewrite Hlt' in D. cbn [length] in D. unfold SQUID_FS_PATH_MAX in *. lia. }
  apply wp_bind. eapply wp_lift; [by apply wr_app|].
  apply wp_bind. eapply wp_lift; [apply cstring_app, bytes_cstr; auto with squid|].
  by apply wp_ret.
Qed.

(** Either nothing is left open and [-1, -1] is returned, or the parent of
    the leaf is open. *)
Lemma open_parent_directory_spec path Q s fds :
  bytes_ok path -> valid_path path -> progress s fds ->
  (forall leaf s', progress s' fds -> Q (-1, -1, leaf) s') ->
  (forall r leaf s', 0 <= r -> safe_name leaf -> progress s' (r :: fds) -> Q (0, r, leaf) s') ->
  wp (open_parent_directory context path) Q s.
Proof.
  intros Hb Hv Hp HQ1 HQ2.
  destruct (open_parent_split path Hb Hv) as (parent & leaf & Hbp & Hvp & Hl & _ & Hw).
  apply Hw, wp_bind. eapply open_directory_path_spec; [done..| |].
  - intros s1 Hp1. by apply wp_ret, HQ1.
  - intros r s1 Hr Hp1. destruct (Z.leb_spec 0 r); [|lia]. by apply wp_ret, HQ2.
Qed.
End walk.
