(* ===== verification/FsSafety.v ===== *)
(** Safety of the filesystem request handlers: for every request and every
    kernel they have no undefined behaviour, answer in the protocol's
    format, and keep to the system-call discipline of FsTrace.v. *)
From stdpp Require Import base numbers list option.
From Stdlib Require Import ZArith Lia.
From S2P Require Import Prelude CLib Wire Posix Filesystem FsPath FsTrace.

Local Open Scope Z_scope.
Local Open Scope squid_scope.

Lemma entry_safe n : entry_name n -> is_dot_entry n = false -> safe_name n.
Proof.
  intros [Hne Hc] Hd. unfold is_dot_entry, eq_text in Hd.
  apply orb_false_iff in Hd as [H1 H2].
  apply bool_decide_eq_false in H1. apply bool_decide_eq_false in H2.
  split; [done|]. split; (eapply Forall_impl; [|exact Hc]); unfold ch_slash; cbn; lia.
Qed.

Lemma file_size_range i : 0 <= file_size_from_stat i < 4294967296.
Proof.
  unfold file_size_from_stat. repeat case_test; unfold SQUID_FS_SIZE_UNKNOWN; try lia.
  apply u32_range.
Qed.
Lemma file_type_range m : 0 <= file_type_from_mode m < 256.
Proof. unfold file_type_from_mode. repeat case_test; cbv; intuition congruence. Qed.

(** The bytes of one LIST record. *)
Definition list_record (information : stat) (name : list Z) : list Z :=
  [file_type_from_mode (st_mode information); u8 (zlen name)] ++ name
  ++ le32 (file_size_from_stat information).

Lemma list_record_len i n : zlen (list_record i n) = 6 + zlen n.
Proof. unfold list_record. rewrite !zlen_app. change (zlen (le32 _)) with 4. 
  change (zlen [file_type_from_mode _; _]) with 2. lia. Qed.

Lemma list_record_ok i n : bytes_ok n -> bytes_ok (list_record i n).
Proof.
  intros. unfold list_record. rewrite !bytes_ok_app. split_and!; auto with squid.
  repeat constructor; try apply file_type_range; apply u8_range.
Qed.

Lemma make_record_eq i n :
  bytes_ok n -> 6 + zlen n <= 249 -> make_record i n = Some (list_record i n).
Proof.
  intros Hn Hl. unfold make_record.
  pose proof (uninit_len 249 ltac:(done)) as Hu. revert Hu.
  generalize (uninit 249) as b. intros b Hu.
  destruct b as [|b0 [|b1 b]]; try done. rewrite !zlen_cons in Hu.
  change (wr (b0 :: b1 :: b) 0 ?v) with (Some (v :: b1 :: b)). cbn beta iota.
  change (wr (?a :: b1 :: b) 1 ?v) with (Some (a :: v :: b)). cbn beta iota.
  change (?x :: ?y :: b) with ([x; y] ++ b).
  rewrite wr_bytes_app by (done || lia).
  rewrite app_assoc, write_u32_app; [|rewrite zlen_app; done|rewrite zlen_drop; unfold zlen in *; lia].
  set (t := drop 4 _).
  replace (([file_type_from_mode (st_mode i); u8 (zlen n)] ++ n)
    ++ le32 (file_size_from_stat i) ++ t) with (list_record i n ++ t)
    by (unfold list_record; by rewrite <- !app_assoc).
  pose proof (list_record_len i n) as Hrl. unfold rd_bytes.
  rewrite zlen_app, Hrl. pose proof (zlen_nonneg t). pose proof (zlen_nonneg n).
  destruct (Z.leb_spec 0 (6 + zlen n)), (Z.leb_spec (0 + (6 + zlen n)) (6 + zlen n + zlen t));
    try lia.
  cbn [andb Z.leb Z.compare Z.to_nat drop].
  rewrite drop_0, take_app_length' by (rewrite <- Hrl; unfold zlen; lia).
  by rewrite bytes_ok_forallb by (by apply list_record_ok).
Qed.

Section handlers.
Context {W : Type} `{PosixLaws W}.
Variables (s0 : os W) (context : squid_fs_context) (opcode cap : Z) (buf : list Z).
Hypothesis root_open : 0 <= root_fd context.
Hypothesis cap_ok : 2 <= cap <= zlen buf.
Hypothesis cap_int : cap < 2 ^ 31.
Local Abbreviation root := (root_fd context).
Local Abbreviation ro := (read_only context).
Local Abbreviation progress := (progress root ro s0).

(** What every handler ends with. *)
Definition replied (r : list Z * Z) (s : os W) : Prop :=
  reply_ok opcode cap buf r.1 r.2 /\ progress s [].

Lemma reply_spec status b s :
  length b = length buf -> progress s [] -> wp (reply opcode status b cap) replied s.
Proof.
  intros Hb Hp. eapply wp_lift; [apply write_status_eq|split; [|done]].
  - unfold zlen in *. rewrite Hb. lia.
  - eapply reply_ok_len; [exact Hb|]. apply reply_status. unfold zlen in *. rewrite Hb. lia.
Qed.

Lemma silent_spec b s :
  length b = length buf -> progress s [] -> wp (ret (b, -1)) replied s.
Proof. intros. apply wp_ret. split; [by apply reply_none|done]. Qed.

(** A status-OK response: header, body, the rest of the array. *)
Lemma body_spec b body n s o :
  length b = length buf -> o = Some (header opcode 0 ++ body ++ drop (2 + length body) b, n) ->
  n = 2 + zlen body -> n <= cap -> progress s [] -> wp (lift o) replied s.
Proof.
  intros Hb -> -> Hc Hp. eapply wp_lift; [done|]. split; [|done].
  eapply reply_ok_len; [exact Hb|]. assert (zlen b = zlen buf) by (unfold zlen; lia).
  apply reply_body; done || lia.
Qed.

(** Closing the only descriptor, and closing it if it was opened. *)
Lemma close_last_spec fd s (k : ST (os W) (list Z * Z)) Q :
  progress s [fd] -> (forall s', progress s' [] -> wp k Q s') ->
  wp (do! c_close fd; k) Q s.
Proof.
  intros Hp Hk. apply wp_bind. eapply (wp_close_p _ _ _ _ _ _ [] []); [exact Hp|]. intros s' Hp' _. by apply Hk.
Qed.

Ltac fail_reply := apply wp_bind, wp_get_errno; eapply close_last_spec; [eassumption|];
  intros; by apply reply_spec.

Lemma handle_capabilities_spec s :
  progress s [] -> wp (Filesystem.handle_capabilities context opcode buf cap) replied s.
Proof.
  intros Hp. unfold Filesystem.handle_capabilities. cbv zeta.
  set (f := if ro =? 0 then _ else _). clearbody f.
  destruct (Z.ltb_spec cap 9); [by apply silent_spec|].
  set (m := if _ <? cap then _ else _). clearbody m.
  eapply (body_spec buf ([SQUID_FS_PROTOCOL_VERSION] ++ le16 (u16 f) ++
    [SQUID_FS_PATH_MAX; squid_fs_page_header_size; squid_fs_read_header_size; m]) 9);
    [done| |reflexivity|lia|done].
  revert cap_ok. generalize buf as b. intros b Hb. split_cells b 9%nat. reflexivity.
Qed.

(** *** STAT *)

Definition stat_body (i : stat) : list Z :=
  [file_type_from_mode (st_mode i)] ++ le16 (u16 (Z.land (st_mode i) 511))
  ++ le32 (file_size_from_stat i)
  ++ le32 (if (st_mtime i <? 0) || (UINT32_MAX <? u64 (st_mtime i))
           then 0 else u32 (st_mtime i)).

Lemma close_opened_spec fd s (k : ST (os W) (list Z * Z)) Q :
  progress s (if 0 <=? fd then [fd] else []) -> (forall s', progress s' [] -> wp k Q s') ->
  wp (do! (if 0 <=? fd then c_close fd else ret tt); k) Q s.
Proof.
  intros Hp Hk. destruct (0 <=? fd); [by eapply close_last_spec|].
  apply wp_bind, wp_ret. by apply Hk.
Qed.

Lemma handle_stat_spec request request_size s :
  bytes_ok request -> 0 <= request_size <= zlen request -> request_size < 2 ^ 63 ->
  progress s [] ->
  wp (handle_stat context opcode request request_size buf cap) replied s.
Proof.
  intros Hb Hsz Hbig Hp. unfold handle_stat.
  destruct (read_path_request_spec request request_size 1 true) as (ok & p & Hr & Hok);
    [done..|]. apply wp_bind. eapply wp_lift; [exact Hr|].
  destruct ok; cbn [negb]; [|by apply reply_spec].
  destruct (Hok eq_refl) as (path & Hcs & Hv & Hpath & _).
  apply wp_bind. eapply wp_lift; [exact Hcs|].
  assert (Hpb : bytes_ok path) by (rewrite Hpath; auto with squid).
  apply wp_bind. eapply (wp_mono _ (fun r s' => progress s' (if 0 <=? r.2 then [r.2] else []))).
  - destruct path as [|c path].
    + apply wp_bind. eapply (wp_fstat_p root ro s0); [done|apply list_elem_of_here|].
      intros r st s1 Hr1 _ Hp1. by apply wp_ret.
    + apply wp_bind. eapply open_parent_directory_spec;
        [done|done|destruct Hv as [?|[_ ?]]; done|done| |].
      * intros leaf s1 Hp1. by apply wp_ret.
      * intros r leaf s1 Hr1 Hl Hp1. cbn [Z.eqb]. apply wp_bind.
        eapply wp_fstatat_p; [done|apply list_elem_of_further, list_elem_of_here|done|].
        intros r' st s2 Hr2 Hp2. apply wp_ret. cbn. by destruct (Z.leb_spec 0 r); [|lia].
  - intros [[r i] fd] s1 Hp1. cbn [snd] in Hp1. case_test.
    + apply wp_bind, wp_get_errno. apply close_opened_spec; [done|]. intros s2 Hp2.
      by apply reply_spec.
    + apply close_opened_spec; [done|]. intros s2 Hp2.
      case_test; [by apply silent_spec|].
      assert (13 <= cap) by lia.
      eapply (body_spec buf (stat_body i) 13); [done| |reflexivity|lia|done].
      unfold stat_body. set (mt := if (st_mtime i <? 0) || _ then 0 else _). clearbody mt.
      revert cap_ok. generalize buf as b. intros b Hcb. split_cells b 13%nat. reflexivity.
Qed.

(** *** LIST *)

Lemma list_loop_spec fd cursor names : forall entry_index entry_count out b s Q,
  Forall entry_name names -> 5 <= out <= cap -> length b = length buf -> progress s [fd] ->
  (forall b' n s', replied (b', n) s' -> Q (list_return b' n) s') ->
  (forall e c o b' s', length b' = length buf -> 5 <= o <= cap -> progress s' [fd] ->
     Q (list_end c o b') s' /\ Q (list_full e c o b') s') ->
  wp (list_loop fd opcode cursor cap names entry_index entry_count out b) Q s.
Proof.
  induction names as [|n names IH]; intros ei ec out b s Q Hn Ho Hb Hp HQ1 HQ2;
    cbn [list_loop].
  { apply wp_ret. by apply (HQ2 0). }
  apply Forall_cons_1 in Hn as [Hn Hns].
  assert (Hret : forall (st : Z) s' (b' : list Z), length b' = length buf -> progress s' [] ->
    wp (let! '(response, result) := reply opcode st b' cap in
        ret (list_return response result)) Q s').
  { intros st s' b' Hb' Hp'. apply wp_bind. eapply wp_mono; [by apply reply_spec|].
    intros [b2 n2] s2 Hr2. apply wp_ret. by apply HQ1. }
  destruct (is_dot_entry n) eqn:Hdot; [by apply IH|].
  case_test; [by apply IH|]. cbv zeta. destruct (_ || _) eqn:Elen.
  { apply wp_bind. eapply (wp_closedir_p _ _ _ _ _ _ [] []); [exact Hp|]. auto. }
  apply wp_bind. eapply wp_fstatat_p;
    [done|apply list_elem_of_further, list_elem_of_here|by apply entry_safe|].
  intros r st s1 Hr Hp1. destruct (r =? 0); cbn [negb].
  2: { apply wp_bind. eapply (wp_closedir_p _ _ _ _ _ _ [] []); [exact Hp1|].
       intros s2 Hp2. apply wp_bind, wp_get_errno. auto. }
  rewrite (u64_small (cap - out)) by lia.
  destruct (Z.ltb_spec (cap - out) (6 + zlen n)) as [Hfull|Hroom].
  { destruct (ec =? 0); [|by apply wp_ret, (HQ2 ei)].
    apply wp_bind. eapply (wp_closedir_p _ _ _ _ _ _ [] []); [exact Hp1|]. auto. }
  apply wp_bind. eapply wp_lift.
  { apply make_record_eq; [|lia]. destruct Hn as [_ Hn].
    eapply Forall_impl; [|exact Hn]. unfold is_byte. cbn. lia. }
  pose proof (list_record_len st n) as Hrl. pose proof (zlen_nonneg n).
  assert (Hbl : zlen b = zlen buf) by (unfold zlen; lia).
  apply wp_bind. eapply wp_lift.
  { apply wr_bytes_at; lia. }
  apply IH; try done; [lia|].
  rewrite !length_app, length_take, !length_drop. unfold zlen in *. lia.
Qed.

Lemma finish_page_spec next count out b s :
  length b = length buf -> 5 <= out <= cap -> progress s [] ->
  wp (finish_page opcode next count out b) replied s.
Proof.
  intros Hb Ho Hp. unfold finish_page.
  assert (Hbl : zlen b = zlen buf) by (unfold zlen; lia).
  split_cells b 5%nat.
  eapply wp_lift; [reflexivity|]. split; [|done]. cbn [fst snd].
  unfold s32, swrap.
  change (2 ^ 32) with 4294967296. change (2 ^ (32 - 1)) with 2147483648.
  rewrite Z.mod_small by lia.
  apply reply_success; [exact Hb|lia].
Qed.

Lemma handle_list_spec request request_size s :
  bytes_ok request -> 0 <= request_size <= zlen request -> request_size < 2 ^ 63 ->
  progress s [] ->
  wp (handle_list context opcode request request_size buf cap) replied s.
Proof.
  intros Hb Hsz Hbig Hp. unfold handle_list. case_test; [by apply reply_spec|].
  destruct (read_path_request_spec request request_size 3 true) as (ok & p & Hr & Hok);
    [done..|]. apply wp_bind. eapply wp_lift; [exact Hr|].
  destruct ok; cbn [negb]; [|by apply reply_spec].
  destruct (Hok eq_refl) as (path & Hcs & Hv & Hpath & _).
  assert (Hpb : bytes_ok path) by (rewrite Hpath; auto with squid).
  destruct (read_u16_ok request 1) as (cursor & Hcur & _); [done|lia|lia|].
  apply wp_bind. eapply wp_lift; [exact Hcur|].
  destruct (_ || _) eqn:Ecap; [by apply reply_spec|]. unfold squid_fs_page_header_size in *.
  apply wp_bind. eapply wp_lift; [exact Hcs|].
  apply wp_bind. eapply open_directory_path_spec; [done|done|tauto|done| |].
  { intros s1 Hp1. apply wp_bind, wp_get_errno. by apply reply_spec. }
  intros fd s1 Hfd Hp1. destruct (Z.ltb_spec fd 0); [lia|].
  apply wp_bind. eapply (wp_fdopendir_p root ro s0); [done|apply list_elem_of_here| |].
  2: { intros s2 Hp2. fail_reply. }
  intros d s2 Hd Hp2. apply wp_bind. eapply wp_set_errno_p; [done|]. intros s3 Hp3.
  apply wp_bind. apply list_loop_spec; [done|lia|done|done| |].
  { intros b' n s4 Hr4. by apply wp_ret. }
  intros e c o b' s4 Hlb Ho Hp4. split.
  - apply wp_bind.
    assert (Hk : forall s5, progress s5 [fd] -> wp (let! e := get_errno in
      do! c_closedir fd;
      if negb (e =? 0) then reply opcode (status_from_errno e) b' cap
      else finish_page opcode SQUID_FS_CURSOR_END c o b') replied s5).
    { intros s5 Hp5. apply wp_bind, wp_get_errno, wp_bind.
      eapply (wp_closedir_p _ _ _ _ _ _ [] []); [exact Hp5|]. intros s6 Hp6.
      case_test; [by apply reply_spec|by apply finish_page_spec]. }
    destruct (_ =? 0); [by apply wp_ret, Hk|].
    eapply wp_set_errno_p; [done|]. intros s5 Hp5. by apply Hk.
  - apply wp_bind. eapply (wp_closedir_p _ _ _ _ _ _ [] []); [exact Hp4|]. intros s6 Hp6.
    by apply finish_page_spec.
Qed.

(** *** READ and WRITE *)

Lemma read_chunk_bound maximum size offset :
  11 <= cap -> 0 <= offset <= size -> size <= UINT32_MAX ->
  0 <= maximum ->
  let n := read_chunk_size cap maximum size offset in
  0 <= n <= cap - 11 /\ n <= 255 /\ n <= size - offset /\ (0 < maximum -> n <= maximum).
Proof.
  intros Hc Ho Hs Hm. unfold read_chunk_size, squid_fs_read_header_size, UINT8_MAX, UINT32_MAX in *.
  cbv zeta. rewrite !(u64_small (size - offset)) by lia. repeat case_test; lia.
Qed.

Definition read_body (offset size : Z) (data : list Z) : list Z :=
  le32 offset ++ le32 (u32 size) ++ [u8 (zlen data)] ++ data.

Lemma read_response_eq offset size data b :
  11 + zlen data <= zlen b -> zlen data <= 255 ->
  (let? b := wr_bytes b 11 data in
   let? b := wr b 0 (u8 (Z.lor opcode SQUID_FS_RESPONSE_BIT)) in
   let? b := wr b 1 SQUID_FS_STATUS_OK in
   let? b := write_u32 b 2 offset in
   let? b := write_u32 b 6 (u32 size) in
   let? b := wr b 10 (u8 (zlen data)) in
   Some (b, s32 (11 + zlen data)))
  = Some (header opcode 0 ++ read_body offset size data
            ++ drop (2 + length (read_body offset size data)) b, 11 + zlen data).
Proof.
  intros Hl Hd. pose proof (zlen_nonneg data) as Hnn.
  unfold s32, swrap. change (2 ^ 32) with 4294967296. change (2 ^ (32 - 1)) with 2147483648.
  rewrite (Z.mod_small (11 + zlen data + _)) by lia.
  replace (11 + zlen data + 2147483648 - 2147483648) with (11 + zlen data) by lia.
  split_cells b 11%nat. rewrite wr_bytes_at by lia.
  change (take (Z.to_nat 11) (_ :: _)) with [c; c0; c1; c2; c3; c4; c5; c6; c7; c8; c9].
  change (drop (Z.to_nat 11) (_ :: _)) with b.
  unfold read_body. rewrite !length_app. reflexivity.
Qed.

(** No data in the response: -1, or an error status. *)
Definition no_data (r : list Z * Z) : Prop :=
  r.2 = -1 \/ r.2 = 2 /\ exists status, status <> 0 /\ take 2 r.1 = header opcode status.

(** The response carries the bytes that [pread] delivered for the offset
    the request names, no more than asked and all inside the file. *)
Definition delivered (request : list Z) (r : list Z * Z) (s : os W) : Prop :=
  exists offset maximum size fd want data,
    read_u32 request 1 = Some offset /\ rd request 5 = Some maximum /\
    EPread fd want offset data (zlen data) ∈ trace s /\
    zlen data <= want <= cap - 11 /\ (0 < maximum -> want <= maximum) /\
    offset + want <= size <= UINT32_MAX /\
    r.2 = 11 + zlen data /\
    take (Z.to_nat r.2) r.1 = header opcode 0 ++ read_body offset size data.

Lemma status_nonzero e : status_from_errno e <> 0.
Proof. unfold status_from_errno. repeat case_test; discriminate. Qed.

Lemma read_error status b s request :
  status <> 0 -> length b = length buf -> progress s [] ->
  wp (reply opcode status b cap) (fun r s => replied r s /\ (no_data r \/ delivered request r s)) s.
Proof.
  intros Hst Hb Hp. assert (Hbl : zlen b = zlen buf) by (unfold zlen; lia).
  pose proof (reply_spec status b s Hb Hp) as Hr. unfold reply, write_response in *.
  rewrite write_status_eq in * by lia. split; [exact Hr|]. left. right. split; [done|].
  exists status. done.
Qed.

Lemma read_silent s request :
  progress s [] ->
  wp (ret (buf, -1)) (fun r s => replied r s /\ (no_data r \/ delivered request r s)) s.
Proof. intros Hp. split; [by apply silent_spec|]. by left; left. Qed.

Ltac read_fail := first
  [ apply read_error; [done|done|done]
  | apply wp_bind, wp_get_errno; apply read_error; [apply status_nonzero|done|done]
  | apply wp_bind, wp_get_errno; eapply close_last_spec; [eassumption|];
    intros; apply read_error; [apply status_nonzero|done|done]
  | eapply close_last_spec; [eassumption|]; intros; apply read_error; done ].

(** The transfer: from the [pread] of [n] bytes to the response. *)
Lemma read_delivers request offset maximum size fd n s :
  read_u32 request 1 = Some offset -> rd request 5 = Some maximum ->
  0 <= n <= cap - 11 -> n <= 255 -> (0 < maximum -> n <= maximum) ->
  offset + n <= size <= UINT32_MAX -> progress s [fd] ->
  wp (let! '(bytes_read, data) := c_pread fd n offset in
      let! response := lift (wr_bytes buf squid_fs_read_header_size data) in
      if bytes_read <? 0 then
        let! e := get_errno in
        do! c_close fd;
        reply opcode (status_from_errno e) response cap
      else
        do! c_close fd;
        lift (
          let? response := wr response 0 (u8 (Z.lor opcode SQUID_FS_RESPONSE_BIT)) in
          let? response := wr response 1 SQUID_FS_STATUS_OK in
          let? response := write_u32 response 2 offset in
          let? response := write_u32 response 6 (u32 size) in
          let? response := wr response 10 (u8 bytes_read) in
          Some (response, s32 (squid_fs_read_header_size + bytes_read))))
    (fun r s => replied r s /\ (no_data r \/ delivered request r s)) s.
Proof.
  intros Hoff Hm Hn1 Hn2 Hn3 Hn4 Hp4. unfold squid_fs_read_header_size in *.
  apply wp_bind. eapply (wp_pread_p root ro s0); [done|apply list_elem_of_here|lia|].
  intros got data s5 Hgot Hev Hp5.
  assert (Hdl : zlen data <= n /\ (got = -1 \/ got = zlen data)).
  { destruct Hgot as [[-> ->]|(?&?&?)]; [|lia]. rewrite zlen_nil. lia. }
  destruct Hdl as [Hdl Hgd]. apply wp_bind. eapply wp_lift; [apply wr_bytes_at; lia|].
  pose proof (zlen_nonneg data). destruct (Z.ltb_spec got 0).
  - apply wp_bind, wp_get_errno. eapply close_last_spec; [done|]. intros s6 Hp6.
    apply read_error; [apply status_nonzero| |done]. unfold zlen in *.
    rewrite !length_app, length_take, !length_drop. lia.
  - apply wp_bind. eapply (wp_close_p _ _ _ _ _ _ [] []); [exact Hp5|].
    intros s6 Hp6 Hex. assert (got = zlen data) as -> by lia.
    pose proof (read_response_eq offset size data buf ltac:(lia) ltac:(lia)) as Heq.
    rewrite wr_bytes_at in Heq by lia.
    assert (Hlen : zlen (read_body offset size data) = 9 + zlen data)
      by (unfold read_body; zlen_lia).
    eapply wp_lift; [exact Heq|]. split.
    + split; [|done]. apply reply_body; cbn [snd]; lia.
    + right. exists offset, maximum, size, fd, n, data. cbn [fst snd].
      split_and!; try done; try lia.
      * rewrite Hex. apply elem_of_app. by left.
      * rewrite app_assoc. apply take_app_length'. rewrite length_app. change (length (header opcode 0)) with 2%nat.
        unfold zlen in *. lia.
Qed.

Lemma handle_read_spec request request_size s :
  bytes_ok request -> 0 <= request_size <= zlen request -> request_size < 2 ^ 63 ->
  progress s [] ->
  wp (handle_read context opcode request request_size buf cap)
    (fun r s => replied r s /\ (no_data r \/ delivered request r s)) s.
Proof.
  intros Hb Hsz Hbig Hp. unfold handle_read. cbv zeta. case_test; [read_fail|].
  destruct (read_path_request_spec request request_size 6 false) as (ok & p & Hr & Hok);
    [done..|]. apply wp_bind. eapply wp_lift; [exact Hr|].
  destruct ok; cbn [negb]; [|read_fail].
  destruct (Hok eq_refl) as (path & Hcs & Hv & Hpath & _).
  assert (Hpb : bytes_ok path) by (rewrite Hpath; auto with squid).
  destruct (Z.ltb_spec cap squid_fs_read_header_size); [by apply read_silent|].
  unfold squid_fs_read_header_size in *.
  destruct (read_u32_ok request 1) as (offset & Hoff & Ho); [done|lia|lia|].
  destruct (rd_ok request 5) as (maximum & Hm & Hmr); [done|lia|].
  apply wp_bind. eapply wp_lift; [exact Hoff|]. apply wp_bind. eapply wp_lift; [exact Hm|].
  apply wp_bind. eapply wp_lift; [exact Hcs|].
  apply wp_bind. eapply open_parent_directory_spec; [done|done|by destruct Hv as [?|[? _]]|done| |].
  { intros leaf s1 Hp1. read_fail. }
  intros parent leaf s1 Hpar Hleaf Hp1. cbn [Z.eqb negb].
  apply wp_bind. eapply wp_openat_p;
    [done|apply list_elem_of_further, list_elem_of_here|done|reflexivity|reflexivity| |].
  { intros s2 Hp2. read_fail. }
  intros fd s2 Hfd Hp2. destruct (Z.ltb_spec fd 0); [lia|].
  apply wp_bind. eapply (wp_close_p _ _ _ _ _ _ [fd] []); [exact Hp2|]. intros s3 Hp3 _.
  apply wp_bind. eapply (wp_fstat_p root ro s0);
    [done|apply list_elem_of_further, list_elem_of_here|].
  intros r i s4 _ Hst Hp4. cbn [app] in *.
  destruct (r =? 0); cbn [negb]; [|read_fail].
  destruct (S_ISDIR _).
  { read_fail. }
  destruct (S_ISREG _); cbn [negb].
  2: read_fail.
  destruct (_ || _) eqn:Esz.
  { read_fail. }
  destruct (Z.ltb_spec (u64 (st_size i)) offset).
  { read_fail. }
  assert (0 <= st_size i <= UINT32_MAX /\ u64 (st_size i) = st_size i) as [Hsize Hu].
  { apply orb_false_iff in Esz as [E1 E2]. destruct Hst as [Hst _].
    rewrite u64_small in * by lia. unfold UINT32_MAX in *. lia. }
  rewrite Hu in *.
  destruct (read_chunk_bound maximum (st_size i) offset) as (Hn1 & Hn2 & Hn3 & Hn4); [lia..|].
  set (n := read_chunk_size _ _ _ _) in *. clearbody n.
  eapply (read_delivers request offset maximum); try done; lia.
Qed.

(** A counted path taken from the middle of a request. *)
Lemma checked_path_spec (bad : bool) request i size s Q :
  bytes_ok request -> (bad = false -> 0 <= i /\ 0 <= size /\ i + size <= zlen request) ->
  (forall p, Q (false, p) s) ->
  (forall p path, bad = false -> cstring p = Some path -> valid_path path -> bytes_ok path ->
     path = take (Z.to_nat size) (drop (Z.to_nat i) request) -> Q (true, p) s) ->
  wp (if bad then ret (false, uninit (SQUID_FS_PATH_MAX + 1))
      else let! input := lift (ptr request i) in
           lift (path_is_valid (Some input) size false (uninit (SQUID_FS_PATH_MAX + 1))))
    Q (s : os W).
Proof.
  intros Hb Hbad HQ1 HQ2. destruct bad; [by apply wp_ret|].
  destruct (Hbad eq_refl) as (Hi & Hs & Hle).
  apply wp_bind. eapply wp_lift; [apply ptr_ok; lia|].
  destruct (path_at_spec request i size false (uninit (SQUID_FS_PATH_MAX + 1)))
    as (p & H1 & _ & H3); [done|done|done|done|by rewrite uninit_len|].
  eapply wp_lift; [exact H1|]. cbn [andb orb] in *. rewrite orb_false_r in *.
  destruct (bool_decide _) eqn:E; [|done].
  apply bool_decide_eq_true in E. eapply HQ2; [done|by apply H3|done|auto with squid|done].
Qed.

Definition write_body (offset written : Z) : list Z := le32 offset ++ [u8 written].

(** The part of WRITE after the request has been parsed. *)
Lemma write_flags_ok flags :
  nofollow
    (let open_flags := Z.lor (Z.lor O_WRONLY O_CLOEXEC) O_NOFOLLOW in
     let open_flags := if negb (Z.land flags SQUID_FS_WRITE_CREATE =? 0)
       then Z.lor open_flags O_CREAT else open_flags in
     if negb (Z.land flags SQUID_FS_WRITE_TRUNCATE =? 0)
       then Z.lor open_flags O_TRUNC else open_flags) = true.
Proof.
  destruct (negb (Z.land flags SQUID_FS_WRITE_CREATE =? 0)),
    (negb (Z.land flags SQUID_FS_WRITE_TRUNCATE =? 0)); reflexivity.
Qed.

Lemma handle_write_spec request request_size s :
  bytes_ok request -> 0 <= request_size <= zlen request -> request_size < 2 ^ 63 ->
  progress s [] ->
  wp (handle_write context opcode request request_size buf cap) replied s.
Proof.
  intros Hb Hsz Hbig Hp. unfold handle_write. cbv zeta.
  destruct (Z.eqb_spec ro 0) as [Hro|]; cbn [negb]; [|by apply reply_spec].
  destruct (Z.ltb_spec request_size 8); [by apply reply_spec|].
  destruct (read_u32_ok request 1) as (offset & Hoff & Ho); [done|lia|lia|].
  destruct (rd_ok request 5) as (flags & Hf & _); [done|lia|].
  destruct (rd_ok request 6) as (psize & Hps & Hpr); [done|lia|].
  apply wp_bind. eapply wp_lift; [exact Hoff|]. apply wp_bind. eapply wp_lift; [exact Hf|].
  apply wp_bind. eapply wp_lift; [exact Hps|]. apply wp_bind.
  apply checked_path_spec; [done| |intros p; by apply reply_spec|].
  { intros Hbad. apply orb_false_iff in Hbad as [_ Hbad]. rewrite u64_small in Hbad by lia. lia. }
  intros p path Hbad Hcs Hv Hpb _. cbn [negb].
  destruct (Z.leb_spec request_size (7 + psize)); [by apply reply_spec|].
  destruct (rd_ok request (7 + psize)) as (dsize & Hds & Hdr); [done|lia|].
  apply wp_bind. eapply wp_lift; [exact Hds|]. rewrite u64_small by lia.
  destruct (Z.eqb_spec dsize (request_size - (7 + psize + 1))) as [Hdeq|]; cbn [negb];
    [|by apply reply_spec].
  apply wp_bind. eapply wp_lift; [exact Hcs|].
  apply wp_bind. eapply open_parent_directory_spec; [done..| |].
  { intros leaf s1 Hp1. apply wp_bind, wp_get_errno. by apply reply_spec. }
  intros parent leaf s1 Hpar Hleaf Hp1. cbn [Z.eqb negb].
  apply wp_bind. eapply wp_openat_p; [done|apply list_elem_of_further, list_elem_of_here|done
    |apply write_flags_ok|done| |].
  { intros s2 Hp2. fail_reply. }
  intros fd s2 Hfd Hp2. destruct (Z.ltb_spec fd 0); [lia|].
  apply wp_bind. eapply (wp_close_p _ _ _ _ _ _ [fd] []); [exact Hp2|]. intros s3 Hp3 _.
  apply wp_bind. eapply (wp_fstat_p root ro s0);
    [done|apply list_elem_of_further, list_elem_of_here|].
  intros r i s4 _ Hst Hp4. cbn [app] in *.
  destruct (r =? 0); cbn [negb]; [|fail_reply].
  destruct (S_ISREG _); cbn [negb].
  2: { eapply close_last_spec; [done|]. intros. by apply reply_spec. }
  apply wp_bind. eapply wp_lift; [apply rd_bytes_ok; [done|lia..]|].
  apply wp_bind. eapply (wp_pwrite_p root ro s0); [done|done|apply list_elem_of_here|].
  intros w s5 Hw Hp5. destruct (Z.ltb_spec w 0); [fail_reply|].
  eapply close_last_spec; [done|]. intros s6 Hp6.
  destruct (Z.ltb_spec cap 7); [by apply silent_spec|].
  eapply (body_spec buf (write_body offset w) 7); [done| |reflexivity|lia|done].
  revert cap_ok. generalize buf as b. intros b Hcb. split_cells b 7%nat. reflexivity.
Qed.

(** *** MKDIR, DELETE, RENAME *)

Lemma handle_mkdir_or_delete_spec request request_size s :
  bytes_ok request -> 0 <= request_size <= zlen request -> request_size < 2 ^ 63 ->
  progress s [] ->
  wp (handle_mkdir_or_delete context opcode request request_size buf cap) replied s.
Proof.
  intros Hb Hsz Hbig Hp. unfold handle_mkdir_or_delete. cbv zeta.
  destruct (Z.eqb_spec ro 0) as [Hro|]; cbn [negb]; [|by apply reply_spec].
  destruct (read_path_request_spec request request_size 1 false) as (ok & p & Hr & Hok);
    [done..|]. apply wp_bind. eapply wp_lift; [exact Hr|].
  destruct ok; cbn [negb]; [|by apply reply_spec].
  destruct (Hok eq_refl) as (path & Hcs & Hv & Hpath & _).
  assert (Hpb : bytes_ok path) by (rewrite Hpath; auto with squid).
  apply wp_bind. eapply wp_lift; [exact Hcs|].
  apply wp_bind. eapply open_parent_directory_spec; [done|done|by destruct Hv as [?|[? _]]|done| |].
  { intros leaf s1 Hp1. apply wp_bind, wp_get_errno. by apply reply_spec. }
  intros parent leaf s1 Hpar Hleaf Hp1. cbn [Z.eqb negb].
  assert (Hin : parent ∈ root :: [parent]) by apply list_elem_of_further, list_elem_of_here.
  apply wp_bind. eapply (wp_mono _ (fun _ s' => progress s' [parent])).
  - destruct (opcode =? SQUID_FS_OP_MKDIR).
    { eapply wp_mkdirat_p; [done..|]. auto. }
    apply wp_bind. eapply wp_fstatat_p; [done..|]. intros r i s2 _ Hp2.
    destruct (r =? 0); [|by apply wp_ret].
    eapply wp_unlinkat_p; [done..|]. auto.
  - intros r s2 Hp2. destruct (r =? 0); cbn [negb]; [|fail_reply].
    eapply close_last_spec; [done|]. intros. by apply reply_spec.
Qed.

Lemma handle_rename_spec request request_size s :
  bytes_ok request -> 0 <= request_size <= zlen request -> request_size < 2 ^ 63 ->
  progress s [] ->
  wp (handle_rename context opcode request request_size buf cap) replied s.
Proof.
  intros Hb Hsz Hbig Hp. unfold handle_rename. cbv zeta.
  destruct (Z.eqb_spec ro 0) as [Hro|]; cbn [negb]; [|by apply reply_spec].
  destruct (Z.ltb_spec request_size 4); [by apply reply_spec|].
  destruct (rd_ok request 1) as (osize & Hos & Hor); [done|lia|].
  apply wp_bind. eapply wp_lift; [exact Hos|]. apply wp_bind.
  apply checked_path_spec; [done| |intros p; by apply reply_spec|].
  { intros Hbad. rewrite u64_small in Hbad by lia. lia. }
  intros p path Hbad Hcs Hv Hpb _. cbn [negb].
  destruct (Z.leb_spec request_size (2 + osize)); [by apply reply_spec|].
  destruct (rd_ok request (2 + osize)) as (nsize & Hns & Hnr); [done|lia|].
  apply wp_bind. eapply wp_lift; [exact Hns|]. apply wp_bind.
  apply checked_path_spec; [done| |intros p'; by apply reply_spec|].
  { intros Hb2. rewrite u64_small in Hb2 by lia. lia. }
  intros p2 path2 Hbad2 Hcs2 Hv2 Hpb2 _. cbn [negb].
  apply wp_bind. eapply wp_lift; [exact Hcs|].
  apply wp_bind. eapply open_parent_directory_spec; [done..| |].
  { intros leaf s1 Hp1. cbn [Z.eqb negb]. apply wp_bind, wp_ret. cbn [Z.eqb negb].
    apply wp_bind, wp_get_errno, wp_bind, wp_ret, wp_bind, wp_ret. by apply reply_spec. }
  intros op ol s1 Hop Hol Hp1. cbn [Z.eqb negb]. apply wp_bind, wp_bind.
  eapply wp_lift; [exact Hcs2|]. eapply open_parent_directory_spec; [done..| |].
  { intros leaf s2 Hp2. cbn [Z.eqb negb]. apply wp_bind, wp_get_errno.
    destruct (Z.leb_spec 0 op); [|lia]. eapply close_last_spec; [done|]. intros s3 Hp3.
    apply wp_bind, wp_ret. by apply reply_spec. }
  intros np nl s2 Hnp Hnl Hp2. cbn [Z.eqb negb].
  apply wp_bind. eapply wp_renameat_p; [done|exact Hp2|repeat constructor..|done|done|].
  intros r s3 Hp3. destruct (r =? 0); cbn [negb].
  - apply wp_bind. eapply (wp_close_p _ _ _ _ _ _ [np] []); [exact Hp3|]. intros s4 Hp4 _.
    eapply close_last_spec; [done|]. intros. by apply reply_spec.
  - apply wp_bind, wp_get_errno, wp_bind.
    eapply (wp_close_p _ _ _ _ _ _ [np] []); [exact Hp3|]. intros s4 Hp4 _.
    eapply close_last_spec; [done|]. intros. by apply reply_spec.
Qed.

Lemma fs_dispatch_spec request request_size s :
  bytes_ok request -> 0 < request_size <= zlen request -> request_size < 2 ^ 63 ->
  request !! O = Some opcode -> progress s [] ->
  wp (handle_squid_fs_request (Some context) (Some request) request_size (Some buf) cap)
    replied s.
Proof.
  intros Hb Hsz Hbig Hop Hp. unfold handle_squid_fs_request.
  destruct (_ || _) eqn:E; [lia|]. apply wp_bind.
  eapply wp_lift; [eapply rd_Some; [done|exact Hop|eapply bytes_ok_lookup; done]|].
  assert (Hs : 0 <= request_size <= zlen request) by lia.
  repeat case_test; try (eapply wp_mono; [by apply handle_read_spec|by intros ? ? [? _]]);
    auto using reply_spec, handle_capabilities_spec, handle_stat_spec,
    handle_list_spec, handle_write_spec, handle_mkdir_or_delete_spec,
    handle_rename_spec.
Qed.
End handlers.
