(* ===== verification/FsList.v ===== *)
(** Directory listing: paging through a directory below the root that does not
    change returns every entry exactly once, in directory order, and terminates. *)
From stdpp Require Import base numbers list option.
From Stdlib Require Import ZArith Lia.
From S2P Require Import Prelude CLib Wire Posix Filesystem FsPath FsTrace FsSafety.

Local Open Scope Z_scope.
Local Open Scope squid_scope.

(** ** What a page is meant to contain *)

Section page.
Variable info : list Z -> stat.

(** How many of the entries [es] fit in [room] bytes. *)
Fixpoint fits (room : Z) (es : list (list Z)) : nat :=
  match es with
  | [] => O
  | n :: es => if room <? 6 + zlen n then O else S (fits (room - (6 + zlen n)) es)
  end.

Definition records (es : list (list Z)) : list Z :=
  concat (map (fun n => list_record (info n) n) es).

Lemma fits_le es : forall room, (fits room es <= length es)%nat.
Proof.
  induction es as [|n es IH]; intros room; cbn [fits length]; [lia|].
  case_test; [lia|]. specialize (IH (room - (6 + zlen n))). lia.
Qed.

Lemma records_cons n es : records (n :: es) = list_record (info n) n ++ records es.
Proof. done. Qed.

Lemma fits_room es : forall room, 0 <= room -> zlen (records (take (fits room es) es)) <= room.
Proof.
  induction es as [|n es IH]; intros room Hr; cbn [fits]; [done|].
  destruct (Z.ltb_spec room (6 + zlen n)); [by rewrite take_0|].
  cbn [take]. rewrite records_cons, zlen_app, list_record_len.
  specialize (IH (room - (6 + zlen n)) ltac:(lia)). lia.
Qed.

End page.

(** ** Reading a page as a client does *)

Record dir_entry := DirEntry { de_type : Z; de_name : list Z; de_size : Z }.

Fixpoint decode_entries (count : nat) (b : list Z) : option (list dir_entry) :=
  match count with
  | O => Some []
  | S count =>
      match b with
      | ty :: len :: b =>
          let name := take (Z.to_nat len) b in
          match drop (Z.to_nat len) b with
          | s0 :: s1 :: s2 :: s3 :: b =>
              match decode_entries count b with
              | Some l => Some (DirEntry ty name (of_le32 s0 s1 s2 s3) :: l)
              | None => None
              end
          | _ => None
          end
      | _ => None
      end
  end.

(** Next cursor and entries of a LIST response. *)
Definition decode_page (response : list Z) : option (Z * list dir_entry) :=
  match response with
  | _ :: status :: c0 :: c1 :: count :: b =>
      if negb (status =? 0) then None
      else match decode_entries (Z.to_nat count) b with
           | Some l => Some (of_le16 c0 c1, l)
           | None => None
           end
  | _ => None
  end.

(** The documented entry for a name: the type is 1 for a regular file, 2 for a
    directory and 3 for anything else, by the format bits of the mode (octal
    0170000); the size is that of a regular file, 0xffffffff when it does not
    fit 32 bits, and 0 for everything else. *)
Definition mode_format (st : stat) : Z := Z.land (st_mode st) 61440.
Definition entry_type (st : stat) : Z :=
  if decide (mode_format st = 32768) then 1
  else if decide (mode_format st = 16384) then 2 else 3.
Definition entry_size (st : stat) : Z :=
  if decide (mode_format st = 32768) then
    if decide (0 <= st_size st < 2 ^ 32) then st_size st else 2 ^ 32 - 1
  else 0.
Definition entry_of (info : list Z -> stat) (n : list Z) : dir_entry :=
  DirEntry (entry_type (info n)) n (entry_size (info n)).

Lemma entry_type_eq st : entry_type st = file_type_from_mode (st_mode st).
Proof.
  unfold entry_type, file_type_from_mode, S_ISREG, S_ISDIR, mode_format, S_IFMT, S_IFREG, S_IFDIR.
  destruct (Z.eqb_spec (Z.land (st_mode st) 61440) 32768) as [->|Hr]; [done|].
  rewrite decide_False by done.
  destruct (Z.eqb_spec (Z.land (st_mode st) 61440) 16384) as [->|Hd]; [done|].
  by rewrite decide_False.
Qed.
Lemma entry_size_eq st : st_size st < 2 ^ 63 -> entry_size st = file_size_from_stat st.
Proof.
  intros Hs. unfold entry_size, file_size_from_stat, S_ISREG, mode_format, S_IFMT, S_IFREG.
  destruct (Z.eqb_spec (Z.land (st_mode st) 61440) 32768) as [->|Hr]; cbn [negb orb];
    [|by rewrite decide_False].
  rewrite decide_True by done. unfold UINT32_MAX, SQUID_FS_SIZE_UNKNOWN.
  change (2 ^ 32) with 4294967296. destruct (Z.ltb_spec (st_size st) 0); cbn [orb].
  { by rewrite decide_False by lia. }
  rewrite (u64_small (st_size st)) by lia. destruct (Z.ltb_spec 4294967295 (st_size st)).
  - by rewrite decide_False by lia.
  - rewrite decide_True by lia. by rewrite u32_small by lia.
Qed.

Lemma decode_records info es tail :
  (forall n, stat_ok (info n)) -> Forall (fun n => zlen n < 256) es ->
  decode_entries (length es) (records info es ++ tail) = Some (map (entry_of info) es).
Proof.
  intros Hst. induction 1 as [|n es Hn _ IH]; [done|]. pose proof (zlen_nonneg n).
  rewrite records_cons. unfold list_record. cbn [length decode_entries]. rewrite <- !app_assoc.
  cbn [app]. rewrite (u8_small (zlen n)) by lia.
  replace (Z.to_nat (zlen n)) with (length n) by (unfold zlen; lia).
  rewrite drop_app_length, take_app_length. unfold le32. cbn [app].
  rewrite IH. cbn [map]. unfold entry_of at 2. destruct (Hst n) as [[_ ?] _].
  rewrite entry_type_eq, entry_size_eq by done. do 3 f_equal. apply of_le32_le32, file_size_range.
Qed.

(** ** A directory that does not change *)

(** The entries LIST reports: all but "." and "..". *)
Definition visible (names : list (list Z)) : list (list Z) :=
  filter (fun n => n <> [46] /\ n <> [46; 46]) names.

Lemma is_dot_entry_true n : is_dot_entry n = true <-> ~ (n <> [46] /\ n <> [46; 46]).
Proof.
  unfold is_dot_entry, ch_dot. rewrite orb_true_iff, !eq_text_true.
  destruct (decide (n = [46])), (decide (n = [46; 46])); tauto.
Qed.

(** [still_dir root comps names info]: the system calls on a directory that is
    reached from the directory open as [root] through [comps] and that nobody
    changes.  In the states [Idle] the root can be duplicated; at depth [k] the
    next component can be opened, and then the descriptor of depth [k] be
    closed; a stream over the last descriptor, which [openat] gave and which so
    has an open file description of its own, yields [names] and then the end;
    each entry can be examined; closing the stream gives an idle state again.
    No call of the program itself occurs here. *)
Record still_dir {W} `{Posix W} (root : Z) (comps names : list (list Z)) (info : list Z -> stat)
    (Idle : W -> Prop) (At : nat -> Z -> W -> Prop) (Both : nat -> Z -> Z -> W -> Prop)
    (Reading : Z -> W -> Prop) : Prop := {
  still_dup w : Idle w -> let '(r, w') := sys_dup root w in 0 <= r /\ At O r w';
  still_openat k fd comp w : At k fd w -> comps !! k = Some comp ->
    let '(r, w') := sys_openat fd comp open_directory_flags 0 w in 0 <= r /\ Both k fd r w';
  still_close k fd r w : Both k fd r w -> At (S k) r (sys_close fd w);
  still_fdopendir fd w : At (length comps) fd w ->
    let '(r, d, w') := sys_fdopendir fd w in 0 <= r /\ d = DirStream names 0 /\ Reading fd w';
  still_fstatat fd name w : Reading fd w -> name ∈ visible names ->
    let '(r, st, w') := sys_fstatat fd name AT_SYMLINK_NOFOLLOW w in
    r = 0 /\ st = info name /\ Reading fd w';
  still_closedir fd w : Reading fd w -> Idle (sys_closedir fd w) }.

Section listing.
Context {W : Type} `{Posix W}.
Variables (context : squid_fs_context) (path : list Z) (names : list (list Z)).
Variables (info : list Z -> stat) (Idle : W -> Prop) (At : nat -> Z -> W -> Prop)
  (Both : nat -> Z -> Z -> W -> Prop) (Reading : Z -> W -> Prop).
Hypothesis dir : still_dir (root_fd context) (components path) names info Idle At Both Reading.
Hypothesis root_ok : 0 <= root_fd context.
Hypothesis path_ok : bytes_ok path.
Hypothesis path_valid : valid_path path.
Hypothesis names_ok : Forall entry_name names.
Hypothesis info_ok : forall n, stat_ok (info n).
Variables (opcode cap : Z).
(** Every entry fits a page of its own, as entry names of at most
    [min 243 (cap - 11)] bytes do, and the directory has a cursor value for
    every entry. *)
Hypothesis cap_ok : 5 <= cap <= 255.
Hypothesis entries_fit :
  Forall (fun n => 6 + zlen n <= Z.min 249 (cap - 5)) (visible names).
Hypothesis few : zlen (visible names) < 65535.

Lemma visible_cons n l :
  visible (n :: l) = if is_dot_entry n then visible l else n :: visible l.
Proof.
  unfold visible. rewrite filter_cons. pose proof (is_dot_entry_true n) as Hd.
  destruct (is_dot_entry n); [by rewrite decide_False by tauto|].
  destruct (decide _) as [|Hn]; [done|]. by apply Hd in Hn.
Qed.

(** *** The calls the handler makes on it *)

Lemma walk_still comps : forall pre fd (s : os W), components path = pre ++ comps ->
  0 <= fd -> At (length pre) fd (world s) ->
  wp (open_components fd comps)
    (fun r s' => 0 <= r /\ At (length (components path)) r (world s')) s.
Proof.
  induction comps as [|comp comps IH]; intros pre fd s Hc Hfd Hat; cbn [open_components].
  { apply wp_ret. by rewrite Hc, app_nil_r. }
  assert (Hk : components path !! length pre = Some comp) by (rewrite Hc; by apply list_lookup_middle).
  pose proof (still_openat _ _ _ _ _ _ _ _ dir _ fd comp _ Hat Hk) as Ho. unfold wp, bind, c_openat.
  destruct (sys_openat fd comp open_directory_flags 0 (world s)) as [r w]. destruct Ho as [Hr Ho].
  unfold libc. destruct (Z.ltb_spec r 0); [lia|]. cbn. destruct (Z.ltb_spec r 0); [lia|].
  apply (IH (pre ++ [comp])); [by rewrite <- app_assoc|done|]. rewrite length_app, Nat.add_1_r.
  by apply (still_close _ _ _ _ _ _ _ _ dir).
Qed.

Lemma open_still (s : os W) : Idle (world s) ->
  wp (open_directory_path context path)
    (fun r s' => 0 <= r /\ At (length (components path)) r (world s')) s.
Proof.
  intros Hi. unfold open_directory_path, open_root_copy. destruct (Z.ltb_spec (root_fd context) 0); [lia|].
  pose proof (still_dup _ _ _ _ _ _ _ _ dir _ Hi) as Hd. apply wp_bind. unfold wp, c_dup.
  destruct (sys_dup (root_fd context) (world s)) as [r w]. destruct Hd as [Hr Hd].
  unfold libc. destruct (Z.ltb_spec r 0); [lia|].
  destruct (Z.ltb_spec r 0); [lia|].
  assert (Hm : forall A (a b : A), match path with [] => a | _ :: _ => b end = b).
  { intros. destruct path; [|done]. by destruct path_valid as (_ & _ & [[? _] _]%Forall_cons_1). }
  rewrite Hm. apply open_copied; [done..|]. by apply (walk_still _ []).
Qed.

Lemma stream_still fd (s : os W) : At (length (components path)) fd (world s) ->
  wp (c_fdopendir fd) (fun d s' => d = Some (DirStream names 0) /\ Reading fd (world s')) s.
Proof.
  intros Ha. pose proof (still_fdopendir _ _ _ _ _ _ _ _ dir fd _ Ha) as Hd. unfold wp, c_fdopendir.
  destruct (sys_fdopendir fd (world s)) as [[r d] w]. destruct Hd as (Hr & -> & Hd).
  by destruct (Z.ltb_spec r 0); [lia|].
Qed.

Lemma stat_still fd name (s : os W) : Reading fd (world s) -> name ∈ visible names ->
  wp (c_fstatat fd name AT_SYMLINK_NOFOLLOW)
    (fun r s' => r = (0, info name) /\ Reading fd (world s') /\ errno s' = errno s) s.
Proof.
  intros Ha Hn. pose proof (still_fstatat _ _ _ _ _ _ _ _ dir fd name _ Ha Hn) as Hd.
  unfold wp, c_fstatat. destruct (sys_fstatat fd name AT_SYMLINK_NOFOLLOW (world s)) as [[r st] w].
  by destruct Hd as (-> & -> & Hd).
Qed.

Lemma close_still fd (s : os W) : Reading fd (world s) ->
  wp (c_closedir fd) (fun _ s' => Idle (world s')) s.
Proof. apply (still_closedir _ _ _ _ _ _ _ _ dir). Qed.

(** The loop before the cursor is reached. *)
Lemma list_skip fd cursor rest : forall index count out b Q s,
  0 <= index <= cursor -> cursor <= index + zlen (visible rest) -> cursor < 65535 ->
  (forall rest', rest' `suffix_of` rest ->
     visible rest' = drop (Z.to_nat (cursor - index)) (visible rest) ->
     wp (list_loop fd opcode cursor cap rest' cursor count out b) Q s) ->
  wp (list_loop fd opcode cursor cap rest index count out b) Q (s : os W).
Proof.
  induction rest as [|n rest IH]; intros index count out b Q s Hi Hc Hlt HQ.
  - change (zlen (visible [])) with 0 in Hc. replace index with cursor by lia. apply HQ; [done|].
    change (visible []) with (@nil (list Z)). by rewrite drop_nil.
  - destruct (Z.eq_dec index cursor) as [->|Hne].
    { apply HQ; [done|]. by rewrite Z.sub_diag. }
    cbn [list_loop]. rewrite visible_cons in Hc. rewrite visible_cons in HQ.
    destruct (is_dot_entry n) eqn:Hd.
    + apply IH; [lia|lia|lia|]. intros r Hr. apply HQ. by apply suffix_cons_r.
    + destruct (Z.ltb_spec index cursor); [|lia]. rewrite u16_small by lia.
      rewrite zlen_cons in Hc. apply IH; [lia..|]. intros r Hr Hv. apply HQ.
      * by apply suffix_cons_r.
      * rewrite Hv. replace (Z.to_nat (cursor - index)) with (S (Z.to_nat (cursor - (index + 1))))
          by lia. done.
Qed.

(** One visible entry at or behind the cursor: it is copied if it fits the
    page, and ends the page if not. *)
Lemma list_entry fd cursor n rest index count p q s Q :
  n ∈ names -> is_dot_entry n = false -> cursor <= index -> 0 <= index < 65535 ->
  0 <= count < 255 -> 5 <= zlen p <= cap -> cap <= zlen (p ++ q) ->
  (count = 0 -> zlen p = 5) -> Reading fd (world s) ->
  let rec := list_record (info n) n in
  (forall s', Reading fd (world s') -> errno s' = errno s ->
     if cap - zlen p <? 6 + zlen n then Q (list_full index count (zlen p) (p ++ q)) s'
     else wp (list_loop fd opcode cursor cap rest (index + 1) (count + 1) (zlen (p ++ rec))
                ((p ++ rec) ++ drop (length rec) q)) Q s') ->
  wp (list_loop fd opcode cursor cap (n :: rest) index count (zlen p) (p ++ q)) Q s.
Proof.
  intros Hin Hd Hci Hi Hc Hp Hq Hz Hrd rec HQ. cbn [list_loop]. rewrite Hd.
  destruct (Z.ltb_spec index cursor); [lia|]. cbv zeta.
  assert (Hvis : n ∈ visible names).
  { apply list_elem_of_filter. split; [|done].
    pose proof (is_dot_entry_true n) as Ht. rewrite Hd in Ht. by apply dec_stable; intros ?%Ht. }
  assert (Hfit : 6 + zlen n <= Z.min 249 (cap - 5)) by (by apply (Forall_elem _ _ n entries_fit)).
  assert (Hnok : entry_name n) by (by apply (Forall_elem _ _ n names_ok)).
  unfold UINT8_MAX. destruct (Z.ltb_spec 255 (zlen n)), (Z.ltb_spec 249 (6 + zlen n)); try lia.
  cbn [orb]. apply wp_bind. eapply wp_mono; [by apply stat_still|].
  intros [r st] s1 (Heq & Hrd1 & He1). injection Heq as -> ->. cbn [Z.eqb negb].
  rewrite (u64_small (cap - zlen p)) by lia. specialize (HQ s1 Hrd1 He1).
  destruct (Z.ltb_spec (cap - zlen p) (6 + zlen n)).
  { destruct (Z.eqb_spec count 0); [lia|]. by apply wp_ret. }
  apply wp_bind. eapply wp_lift.
  { apply make_record_eq; [|lia]. destruct Hnok as [_ Hn].
    eapply Forall_impl; [|exact Hn]. unfold is_byte. cbn. lia. }
  pose proof (list_record_len (info n) n) as Hrl. rewrite zlen_app in Hq.
  apply wp_bind. eapply wp_lift; [apply wr_bytes_app; [done|lia]|].
  rewrite (u16_small (index + 1)), (u8_small (count + 1)) by lia.
  replace (zlen p + (6 + zlen n)) with (zlen (p ++ rec)) by (rewrite zlen_app; subst rec; lia).
  by rewrite app_assoc.
Qed.

(** The loop from the cursor on: the entries that fit are copied, in order. *)
Lemma list_collect fd cursor rest : forall index count p q s Q,
  rest `suffix_of` names -> cursor <= index -> 0 <= index ->
  index + zlen (visible rest) < 65535 ->
  0 <= count -> 7 * count <= zlen p - 5 -> 5 <= zlen p <= cap -> cap <= zlen (p ++ q) ->
  (count = 0 -> zlen p = 5) -> Reading fd (world s) ->
  let es := visible rest in
  let k := fits (cap - zlen p) es in
  let recs := records info (take k es) in
  let b := p ++ recs ++ drop (length recs) q in
  (forall s', Reading fd (world s') -> errno s' = errno s ->
     if decide (k = length es)
     then Q (list_end (count + Z.of_nat k) (zlen p + zlen recs) b) s'
     else Q (list_full (index + Z.of_nat k) (count + Z.of_nat k) (zlen p + zlen recs) b) s') ->
  wp (list_loop fd opcode cursor cap rest index count (zlen p) (p ++ q)) Q s.
Proof.
  induction rest as [|n rest IH];
    intros index count p q s Q Hsuf Hci Hi0 Hi Hc0 Hc Hp Hq Hz Hrd; cbv zeta; intros HQ.
  { cbn [list_loop]. apply wp_ret. specialize (HQ s Hrd eq_refl). cbn in HQ.
    by rewrite !Z.add_0_r, drop_0 in HQ. }
  assert (Hin : n ∈ names).
  { destruct Hsuf as [pre ->]. apply elem_of_app. right. apply list_elem_of_here. }
  assert (Hsuf' : rest `suffix_of` names) by (by eapply suffix_cons_l).
  rewrite visible_cons in HQ, Hi. destruct (is_dot_entry n) eqn:Hd.
  { cbn [list_loop]. rewrite Hd. by eapply IH. }
  rewrite zlen_cons in Hi. pose proof (zlen_nonneg (visible rest)).
  assert (Hnok : entry_name n) by (by apply (Forall_elem _ _ n names_ok)).
  assert (1 <= zlen n) by (destruct Hnok, n; [done|zlen_lia]).
  eapply list_entry; try done; [lia..|]. intros s1 Hrd1 He1. cbn [fits] in HQ.
  pose proof (list_record_len (info n) n) as Hrl. rewrite zlen_app in Hq.
  set (rec := list_record (info n) n) in *.
  destruct (Z.ltb_spec (cap - zlen p) (6 + zlen n)) as [Hfull|Hroom].
  { specialize (HQ s1 Hrd1 He1). cbn [length] in HQ. destruct (decide _); [lia|].
    rewrite take_0 in HQ. cbn in HQ. by rewrite !Z.add_0_r, drop_0 in HQ. }
  eapply IH; try done; try (rewrite ?zlen_app, ?zlen_drop; unfold zlen in *; lia).
  cbv zeta. intros s2 Hrd2 He2. rewrite He1 in He2. specialize (HQ s2 Hrd2 He2).
  rewrite zlen_app, Hrl. replace (cap - (zlen p + (6 + zlen n))) with (cap - zlen p - (6 + zlen n)) by lia.
  set (k := fits _ (visible rest)) in *. cbn [take length] in HQ.
  rewrite records_cons in HQ. fold rec in HQ. rewrite zlen_app, Hrl in HQ. rewrite <- !app_assoc in *.
  rewrite length_app, drop_drop in *.
  destruct (decide (k = length (visible rest))) as [Hk|Hk].
  - rewrite decide_True in HQ by lia.
    replace (count + 1 + Z.of_nat k) with (count + Z.of_nat (S k)) by lia.
    by rewrite <- (Z.add_assoc (zlen p)).
  - rewrite decide_False in HQ by lia.
    replace (count + 1 + Z.of_nat k) with (count + Z.of_nat (S k)) by lia.
    replace (index + 1 + Z.of_nat k) with (index + Z.of_nat (S k)) by lia.
    by rewrite <- (Z.add_assoc (zlen p)).
Qed.

Definition list_request (cursor : Z) : list Z :=
  ([opcode] ++ le16 cursor) ++ zlen path :: path.

Local Abbreviation es := (visible names).

(** The page that starts at [cursor]. *)
Definition page_count (cursor : nat) : nat := fits (cap - 5) (drop cursor es).
Definition page_next (cursor : nat) : Z :=
  if decide (cursor + page_count cursor = length es)%nat then SQUID_FS_CURSOR_END
  else Z.of_nat (cursor + page_count cursor).
Definition page_records (cursor : nat) : list Z :=
  records info (take (page_count cursor) (drop cursor es)).
Definition page_bytes (cursor : nat) : list Z :=
  header opcode 0 ++ le16 (page_next cursor) ++ [Z.of_nat (page_count cursor)]
  ++ page_records cursor.

Lemma finish_page_eq next count recs p q :
  length p = 5%nat -> zlen recs < 2 ^ 30 -> 
  finish_page opcode next count (5 + zlen recs) (p ++ recs ++ q) =
    lift (S := os W)
      (Some (header opcode 0 ++ le16 next ++ [count] ++ recs ++ q, 5 + zlen recs)).
Proof.
  intros Hp Hr. destruct p as [|? [|? [|? [|? [|? [|? ?]]]]]]; try done.
  unfold finish_page. replace (s32 (5 + zlen recs)) with (5 + zlen recs); [done|].
  unfold s32, swrap. change (2 ^ 32) with 4294967296. change (2 ^ (32 - 1)) with 2147483648.
  pose proof (zlen_nonneg recs). rewrite Z.mod_small; lia.
Qed.

Lemma page_bytes_len cursor : zlen (page_bytes cursor) = 5 + zlen (page_records cursor).
Proof. unfold page_bytes, header. zlen_lia. Qed.

Lemma page_fits cursor : zlen (page_records cursor) <= cap - 5.
Proof. apply fits_room. lia. Qed.

(** What the handler reads back from a request for [cursor]. *)
Lemma list_request_path cursor : bytes_ok [opcode] ->
  exists p, read_path_request (list_request cursor) (zlen (list_request cursor)) 3 true
      (uninit (SQUID_FS_PATH_MAX + 1)) = Some (true, p) /\ cstring p = Some path.
Proof.
  intros Hop. pose proof (zlen_nonneg path). assert (Hpl : zlen path <= 240) by apply path_valid.
  apply (read_path_request_true ([opcode] ++ le16 cursor) path true); try done;
    [by apply bytes_ok_app; auto with squid| |by left].
  unfold list_request. zlen_lia.
Qed.

Lemma list_request_cursor cursor : 0 <= cursor < 65536 ->
  read_u16 (list_request cursor) 1 = Some cursor.
Proof.
  intros Hc. unfold list_request, read_u16, le16. cbn [app].
  change (rd (_ :: ?x :: _) 1) with (if x <? 0 then None else Some x).
  change (rd (_ :: _ :: ?x :: _) (1 + 1)) with (if x <? 0 then None else Some x).
  pose proof (u8_range (Z.land cursor 255)). pose proof (u8_range (Z.shiftr cursor 8)).
  destruct (Z.ltb_spec (u8 (Z.land cursor 255)) 0), (Z.ltb_spec (u8 (Z.shiftr cursor 8)) 0); try lia.
  rewrite read_u16_val by done. by rewrite of_le16_le16 by lia.
Qed.

(** The page header makes the collected records the page. *)
Lemma list_page_finished cursor buf s :
  Idle (world s) -> cap <= zlen buf ->
  wp (finish_page opcode (page_next cursor)
    (Z.of_nat (page_count cursor)) (5 + zlen (page_records cursor))
    (take 5 buf ++ page_records cursor ++ drop (length (page_records cursor)) (drop 5 buf)))
    (fun r s' => Idle (world s') /\ r.2 = zlen (page_bytes cursor) /\
       take (length (page_bytes cursor)) r.1 = page_bytes cursor) s.
Proof.
  intros Hs Hbuf. pose proof (page_fits cursor).
  rewrite finish_page_eq by (rewrite ?length_take; unfold zlen in *; lia).
  eapply wp_lift; [done|]. split; [done|]. cbn [fst snd]. rewrite page_bytes_len.
  split; [done|]. unfold page_bytes at 2. rewrite !app_assoc. apply take_app_length'.
  unfold page_bytes. by rewrite !app_assoc.
Qed.

Lemma handle_list_page cursor buf s :
  Idle (world s) -> (cursor <= length es)%nat -> bytes_ok [opcode] -> cap <= zlen buf ->
  wp (handle_list context opcode (list_request (Z.of_nat cursor))
        (zlen (list_request (Z.of_nat cursor))) buf cap)
    (fun r s' => Idle (world s') /\ r.2 = zlen (page_bytes cursor) /\
       take (length (page_bytes cursor)) r.1 = page_bytes cursor) s.
Proof.
  intros Hs Hcur Hop Hbuf. unfold zlen in few. pose proof (zlen_nonneg path).
  assert (Hrl : zlen (list_request (Z.of_nat cursor)) = 4 + zlen path) by (unfold list_request; zlen_lia).
  unfold handle_list. destruct (Z.ltb_spec (zlen (list_request (Z.of_nat cursor))) 4); [lia|].
  destruct (list_request_path (Z.of_nat cursor) Hop) as (p & Hrp & Hcs).
  apply wp_bind. eapply wp_lift; [exact Hrp|]. cbn [negb].
  apply wp_bind. eapply wp_lift; [apply list_request_cursor; lia|].
  unfold SQUID_FS_CURSOR_END, squid_fs_page_header_size.
  destruct (Z.eqb_spec (Z.of_nat cursor) 65535), (Z.ltb_spec cap 5); try lia. cbn [orb].
  apply wp_bind. eapply wp_lift; [exact Hcs|].
  apply wp_bind. eapply wp_mono; [by apply open_still|].
  intros fd s1 [Hfd Ho1]. destruct (Z.ltb_spec fd 0); [lia|].
  apply wp_bind. eapply wp_mono; [by apply stream_still|].
  intros d s2 [-> Hr2]. cbn [ds_names ds_errno]. apply wp_bind.
  eapply (wp_mono _ (fun _ s' => Reading fd (world s') /\ errno s' = 0)).
  { done. }
  intros [] s3 [Hr3 He3]. apply wp_bind.
  apply list_skip; [lia|unfold zlen; lia|lia|]. intros rest Hsuf Hvis.
  rewrite Z.sub_0_r, Nat2Z.id in Hvis.
  assert (Hb0 : zlen (take 5 buf) = 5) by (rewrite zlen_take; lia).
  match goal with |- wp _ ?Q0 _ =>
    pose proof (list_collect fd (Z.of_nat cursor) rest (Z.of_nat cursor) 0 (take 5 buf)
      (drop 5 buf) s3 Q0 Hsuf) as Hc end.
  rewrite Hb0, take_drop, Hvis in Hc. cbv zeta in Hc. fold (page_count cursor) in Hc.
  fold (page_records cursor) in Hc. apply Hc; clear Hc; try lia; try done.
  { rewrite zlen_drop. unfold zlen. lia. }
  intros s4 Hr4 He4. rewrite length_drop.
  pose proof (fun s5 Hs5 => list_page_finished cursor buf s5 Hs5 Hbuf) as Hfin.
  unfold page_next in Hfin. destruct (decide (page_count cursor = _)) as [Hk|Hk].
  - rewrite decide_True in Hfin by lia. cbn [Z.eqb]. apply wp_bind, wp_ret, wp_bind, wp_get_errno.
    apply wp_bind. eapply wp_mono; [by apply close_still|].
    intros [] s5 Hs5. rewrite He4, He3. cbn [Z.eqb negb]. by apply Hfin.
  - rewrite decide_False in Hfin by lia. rewrite <- Nat2Z.inj_add.
    apply wp_bind. eapply wp_mono; [by apply close_still|].
    intros [] s5 Hs5. by apply Hfin.
Qed.

Lemma page_next_range cursor : (cursor <= length es)%nat -> 0 <= page_next cursor < 65536.
Proof.
  intros Hc. unfold page_next, zlen, page_count in *. pose proof (fits_le (drop cursor es) (cap - 5)) as Hle.
  rewrite length_drop in Hle. case_decide; [done|]. lia.
Qed.

Lemma decode_page_bytes cursor :
  (cursor <= length es)%nat ->
  decode_page (page_bytes cursor)
  = Some (page_next cursor,
          map (entry_of info) (take (page_count cursor) (drop cursor es))).
Proof.
  intros Hc. unfold page_bytes, decode_page, header, le16. cbn [app Z.eqb negb].
  rewrite Nat2Z.id, of_le16_le16 by (by apply page_next_range).
  rewrite <- (app_nil_r (page_records cursor)). unfold page_records.
  assert (Hlen : length (take (page_count cursor) (drop cursor es)) = page_count cursor).
  { rewrite length_take. pose proof (fits_le (drop cursor es) (cap - 5)).
    unfold page_count. lia. }
  rewrite <- Hlen at 1. rewrite decode_records; [done|done|].
  apply Forall_take, Forall_drop. eapply Forall_impl; [|exact entries_fit]. cbn. lia.
Qed.

(** A page is only empty at the end of the directory. *)
Lemma page_progress cursor : (cursor < length es)%nat -> (0 < page_count cursor)%nat.
Proof.
  intros Hc. unfold page_count. destruct (drop cursor es) as [|n l] eqn:D.
  { apply (f_equal length) in D. rewrite length_drop in D. cbn in D. lia. }
  assert (Hfit : Forall (fun n => 6 + zlen n <= Z.min 249 (cap - 5)) (n :: l))
    by (rewrite <- D; by apply Forall_drop).
  apply Forall_cons_1 in Hfit as [Hfit _]. cbn [fits].
  destruct (Z.ltb_spec (cap - 5) (6 + zlen n)); lia.
Qed.

(** *** Reading a whole directory: one LIST request per page, starting at
    cursor 0, until the response says [SQUID_FS_CURSOR_END]. *)
Fixpoint read_dir (fuel : nat) (buf : list Z) (cursor : Z) : ST (os W) (option (list dir_entry)) :=
  match fuel with
  | O => ret None
  | S fuel =>
      let rq := list_request cursor in
      let! '(response, n) :=
        handle_squid_fs_request (Some context) (Some rq) (zlen rq) (Some buf) cap in
      match decode_page (take (Z.to_nat n) response) with
      | None => ret None
      | Some (next, l) =>
          if next =? SQUID_FS_CURSOR_END then ret (Some l)
          else
            let! more := read_dir fuel buf next in
            ret (match more with Some l' => Some (l ++ l') | None => None end)
      end
  end.

Lemma read_dir_from fuel : forall cursor buf s,
  opcode = SQUID_FS_OP_LIST ->
  Idle (world s) -> (cursor <= length es)%nat -> (length es - cursor < fuel)%nat -> cap <= zlen buf ->
  wp (read_dir fuel buf (Z.of_nat cursor))
    (fun r s' => Idle (world s') /\ r = Some (map (entry_of info) (drop cursor es))) s.
Proof.
  induction fuel as [|fuel IH]; intros cursor buf s Hop Hs Hc Hf Hbuf; [lia|].
  cbn [read_dir]. cbv zeta. apply wp_bind.
  eapply (wp_mono _ (fun r s' => Idle (world s') /\ r.2 = zlen (page_bytes cursor) /\
    take (length (page_bytes cursor)) r.1 = page_bytes cursor));
    [|intros [r n] s1 (Hs1 & Hn & Hr); cbn [fst snd] in Hn, Hr; subst n].
  { unfold handle_squid_fs_request.
    assert (Hrd : rd (list_request (Z.of_nat cursor)) 0 = Some opcode)
      by (unfold list_request; rewrite Hop; done).
    assert ((opcode =? SQUID_FS_OP_CAPABILITIES) = false /\ (opcode =? SQUID_FS_OP_STAT) = false
      /\ (opcode =? SQUID_FS_OP_LIST) = true) as (Ho1 & Ho2 & Ho3) by (by rewrite Hop).
    destruct (Z.ltb_spec (root_fd context) 0), (Z.eqb_spec (zlen (list_request (Z.of_nat cursor))) 0),
      (Z.ltb_spec cap 2); try lia; try (unfold list_request in *; zlen_lia). cbn [orb].
    apply wp_bind. eapply wp_lift; [exact Hrd|]. rewrite Ho1, Ho2, Ho3.
    apply handle_list_page; try done. rewrite Hop. by repeat constructor. }
  replace (Z.to_nat (zlen (page_bytes cursor))) with (length (page_bytes cursor))
    by (unfold zlen; lia).
  rewrite Hr, decode_page_bytes by done.
  pose proof (fits_le (drop cursor es) (cap - 5)) as Hle. fold (page_count cursor) in Hle.
  rewrite length_drop in Hle. unfold zlen in few. unfold page_next. case_decide as Hd.
  - cbn [Z.eqb Pos.eqb]. apply wp_ret. split; [done|]. rewrite take_ge; [done|].
    rewrite length_drop. lia.
  - pose proof (page_progress cursor ltac:(lia)).
    destruct (Z.eqb_spec (Z.of_nat (cursor + page_count cursor)) SQUID_FS_CURSOR_END) as [E|_];
      [unfold SQUID_FS_CURSOR_END in E; lia|].
    apply wp_bind. eapply wp_mono; [apply IH; try done; lia|].
    intros more s2 [Hs2 ->]. apply wp_ret. split; [done|]. f_equal. rewrite <- map_app. f_equal.
    rewrite <- drop_drop. apply take_drop.
Qed.
End listing.
