(* ===== verification/MemKernel.v ===== *)
(** A small in-memory kernel: a concrete instance of [Posix] with files,
    directories, descriptors and open file descriptions.  [dup] shares the
    open file description, and with it the directory read offset, as on
    Linux.  It serves as the model in which the theorems about the
    filesystem plugin are evaluated. *)
From stdpp Require Import base numbers list option strings.
From Stdlib Require Import ZArith Lia.
From S2P Require Import Prelude CLib Posix.

Local Open Scope Z_scope.

Inductive node := File (content : list Z) | Dir (entries : list (list Z * Z)).

Record mem := Mem {
  inodes : list (Z * node);
  ofds : list (Z * (Z * nat));   (** open file description: inode, offset *)
  fdtab : list (Z * Z);          (** descriptor: open file description *)
  next : Z }.

Fixpoint assoc {K A} `{EqDecision K} (k : K) (l : list (K * A)) : option A :=
  match l with
  | [] => None
  | (k', a) :: l => if decide (k = k') then Some a else assoc k l
  end.
Definition unset {K A} `{EqDecision K} (k : K) (l : list (K * A)) : list (K * A) :=
  filter (fun p => p.1 <> k) l.

Definition set_inode (i : Z) (n : node) (w : mem) : mem :=
  Mem ((i, n) :: unset i (inodes w)) (ofds w) (fdtab w) (next w).

(** The inode a descriptor refers to. *)
Definition fd_inode (fd : Z) (w : mem) : option (Z * node) :=
  match assoc fd (fdtab w) with
  | Some o =>
      match assoc o (ofds w) with
      | Some (i, _) => match assoc i (inodes w) with Some n => Some (i, n) | None => None end
      | None => None
      end
  | None => None
  end.

(** A new descriptor with a new open file description. *)
Definition new_fd (i : Z) (w : mem) : Z * mem :=
  (next w, Mem (inodes w) ((next w, (i, O)) :: ofds w) ((next w, next w) :: fdtab w) (next w + 1)).

Definition node_stat (n : node) : stat :=
  match n with
  | File c => Stat 33188 (Z.min (2 ^ 63 - 1) (zlen c)) 1000
  | Dir _ => Stat 16877 0 1000
  end.

Definition mem_openat (d : Z) (name : list Z) (flags mode : Z) (w : mem) : Z * mem :=
  match fd_inode d w with
  | Some (di, Dir es) =>
      match assoc name es with
      | Some i =>
          match assoc i (inodes w) with
          | Some (File c) =>
              if negb (Z.land flags O_DIRECTORY =? 0) then (- ENOTDIR, w)
              else new_fd i (if Z.land flags O_TRUNC =? 0 then w else set_inode i (File []) w)
          | Some (Dir _) => if Z.land flags O_WRONLY =? 0 then new_fd i w else (- EISDIR, w)
          | None => (- EIO, w)
          end
      | None =>
          if Z.land flags O_CREAT =? 0 then (- ENOENT, w)
          else
            let i := next w in
            let w := Mem (inodes w) (ofds w) (fdtab w) (next w + 1) in
            new_fd i (set_inode i (File []) (set_inode di (Dir (es ++ [(name, i)])) w))
      end
  | Some (_, File _) => (- ENOTDIR, w)
  | None => (- EBADF, w)
  end.

Definition mem_names (es : list (list Z * Z)) : list (list Z) :=
  [46] :: [46; 46] :: map fst es.

#[export] Instance entry_name_dec n : Decision (entry_name n).
Proof. unfold entry_name. apply _. Defined.

Definition mem_fdopendir (fd : Z) (w : mem) : Z * dirstream * mem :=
  match assoc fd (fdtab w), fd_inode fd w with
  | Some o, Some (i, Dir es) =>
      let off := match assoc o (ofds w) with Some (_, off) => off | None => O end in
      let names := drop off (mem_names es) in
      (0, DirStream (filter entry_name names) 0,
       Mem (inodes w) ((o, (i, length (mem_names es))) :: unset o (ofds w)) (fdtab w) (next w))
  | _, Some (_, File _) => (- ENOTDIR, DirStream [] 0, w)
  | _, _ => (- EBADF, DirStream [] 0, w)
  end.

Definition mem_pread (fd n off : Z) (w : mem) : Z * list Z * mem :=
  match fd_inode fd w with
  | Some (_, File c) =>
      let data := take (Z.to_nat n) (map u8 (drop (Z.to_nat off) c)) in (zlen data, data, w)
  | Some _ => (- EISDIR, [], w)
  | None => (- EBADF, [], w)
  end.

Definition mem_pwrite (fd : Z) (data : list Z) (off : Z) (w : mem) : Z * mem :=
  match fd_inode fd w, data with
  | Some (_, File _), [] => (0, w)
  | Some (i, File c), _ =>
      let pre := take (Z.to_nat off) c in
      let pad := replicate (Z.to_nat off - length pre) 0 in
      (zlen data,
       set_inode i (File (pre ++ pad ++ data ++ drop (Z.to_nat off + length data) c)) w)
  | _, _ => (- EBADF, w)
  end.

(** Applies [f] to the entries of the directory [d]. *)
Definition with_dir (d : Z) (w : mem) (f : Z -> list (list Z * Z) -> Z * mem) : Z * mem :=
  match fd_inode d w with
  | Some (di, Dir es) => f di es
  | Some _ => (- ENOTDIR, w)
  | None => (- EBADF, w)
  end.

(** Takes the entry [name] of inode [i] to the directory [d']. *)
Definition move_entry (di : Z) (es : list (list Z * Z)) (name : list Z) (i d' : Z)
    (name' : list Z) (w : mem) : Z * mem :=
  let w := set_inode di (Dir (unset name es)) w in
  with_dir d' w (fun di' es' => (0, set_inode di' (Dir (unset name' es' ++ [(name', i)])) w)).

#[export] Instance mem_posix : Posix mem := {
  (* every path names the root directory, inode 0 *)
  sys_open path flags w := new_fd 0 w;
  sys_dup fd w :=
    match assoc fd (fdtab w) with
    | Some o =>
        (next w, Mem (inodes w) (ofds w) ((next w, o) :: fdtab w) (next w + 1))
    | None => (- EBADF, w)
    end;
  sys_openat := mem_openat;
  sys_close fd w := Mem (inodes w) (ofds w) (unset fd (fdtab w)) (next w);
  sys_fstat fd w :=
    match fd_inode fd w with
    | Some (_, n) => (0, node_stat n, w)
    | None => (- EBADF, Stat 0 0 0, w)
    end;
  sys_fstatat d name flags w :=
    match fd_inode d w with
    | Some (_, Dir es) =>
        match assoc name es with
        | Some i => match assoc i (inodes w) with
                    | Some n => (0, node_stat n, w)
                    | None => (- EIO, Stat 0 0 0, w)
                    end
        | None => (- ENOENT, Stat 0 0 0, w)
        end
    | Some _ => (- ENOTDIR, Stat 0 0 0, w)
    | None => (- EBADF, Stat 0 0 0, w)
    end;
  sys_fdopendir := mem_fdopendir;
  sys_closedir fd w := Mem (inodes w) (ofds w) (unset fd (fdtab w)) (next w);
  sys_pread := mem_pread;
  sys_pwrite := mem_pwrite;
  sys_mkdirat d name mode w :=
    with_dir d w (fun di es =>
      match assoc name es with
      | Some _ => (- EEXIST, w)
      | None =>
          let i := next w in
          (0, set_inode i (Dir []) (set_inode di (Dir (es ++ [(name, i)]))
                (Mem (inodes w) (ofds w) (fdtab w) (next w + 1))))
      end);
  sys_unlinkat d name flags w :=
    with_dir d w (fun di es =>
      match assoc name es with
      | Some i =>
          match assoc i (inodes w) with
          | Some (Dir (_ :: _)) => (- ENOTEMPTY, w)
          | Some (Dir []) =>
              if Z.land flags AT_REMOVEDIR =? 0 then (- EISDIR, w)
              else (0, set_inode di (Dir (unset name es)) w)
          | Some (File _) =>
              if Z.land flags AT_REMOVEDIR =? 0 then (0, set_inode di (Dir (unset name es)) w)
              else (- ENOTDIR, w)
          | None => (- EIO, w)
          end
      | None => (- ENOENT, w)
      end);
  sys_renameat d name d' name' w :=
    with_dir d w (fun di es =>
      match assoc name es with
      | Some i =>
          with_dir d' w (fun _ es' =>
            match assoc name' es' with
            | Some j =>
                if decide (i = j) then (0, w)
                else
                  match assoc j (inodes w) with
                  | Some (Dir (_ :: _)) => (- ENOTEMPTY, w)
                  | Some _ => move_entry di es name i d' name' w
                  | None => (- EIO, w)
                  end
            | None => move_entry di es name i d' name' w
            end)
      | None => (- ENOENT, w)
      end) }.

#[export] Instance mem_laws : PosixLaws mem.
Proof.
  split.
  - intros fd n off w. cbn. unfold mem_pread.
    destruct (fd_inode fd w) as [[i [c|es]]|]; cbn; try (intros; done || lia).
    intros Hn _. set (l := map u8 _). rewrite zlen_take. split_and!; [lia|done|].
    apply bytes_ok_take. subst l. generalize (drop (Z.to_nat off) c). intros l.
    induction l; constructor; [apply u8_range|done].
  - intros fd data off w. cbn. unfold mem_pwrite. pose proof (zlen_nonneg data).
    destruct (fd_inode fd w) as [[i [c|es]]|], data; cbn; unfold EBADF; lia.
  - intros fd w. cbn. unfold mem_fdopendir.
    destruct (assoc fd (fdtab w)), (fd_inode fd w) as [[i [c|es]]|]; cbn; try constructor.
    apply Forall_forall. intros x Hx.
    by apply list_elem_of_filter in Hx as [? _].
  - intros fd w. cbn. destruct (fd_inode fd w) as [[i [c|es]]|]; cbn -[Z.pow];
      unfold stat_ok; cbn -[Z.pow]; try lia. pose proof (zlen_nonneg c). lia.
Qed.

(** An export with a directory [docs], a file [docs/a.txt] and a file [b]:
    the root directory is open as descriptor 3. *)
Definition sample_mem : mem :=
  Mem [(0, Dir [(text "docs", 1); (text "b", 3)]); (1, Dir [(text "a.txt", 2)]);
       (2, File (text "hello, squid")); (3, File [])]
    [(3, (0, O))] [(3, 3)] 4.
Definition sample_os : os mem := Os sample_mem 0 [].
