(* ===== verification/FsProps.v ===== *)
(** The filesystem plugin's properties, with the concrete runs that show that
    their hypotheses can hold; the run for listing is in MemStore.v. *)
From stdpp Require Import base numbers list option strings.
From Stdlib Require Import ZArith Lia.
From S2P Require Import Prelude CLib Wire Posix Filesystem FsPath FsTrace FsSafety FsList MemKernel.

Local Open Scope Z_scope.
Local Open Scope squid_scope.

(** ** Every request, every kernel *)

Section all_requests.
Context {W : Type} `{PosixLaws W}.
Variables (context : squid_fs_context) (request : list Z) (request_size : Z)
  (buf : list Z) (cap : Z) (s : os W).
Hypothesis request_ok : bytes_ok request.
Hypothesis size_ok : 0 < request_size <= zlen request.
Hypothesis size_int : request_size < 2 ^ 63.
Hypothesis root_ok : 0 <= root_fd context.
Hypothesis cap_ok : 2 <= cap <= zlen buf.
Hypothesis cap_int : cap < 2 ^ 31.

Lemma run_replied opcode :
  request !! O = Some opcode -> 
  wp (handle_squid_fs_request (Some context) (Some request) request_size (Some buf) cap)
    (replied s context opcode cap buf) s.
Proof. intros. apply fs_dispatch_spec; try done. apply progress_refl. Qed.

Lemma opcode_exists : exists opcode, request !! O = Some opcode.
Proof. apply lookup_lt_is_Some_2. unfold zlen in size_ok. lia. Qed.

(** C2. For every request, every kernel behaviour and every response
    capacity, the filesystem handler has no undefined behaviour, never
    writes outside the response buffer, and its result is -1 (no response)
    or a response that fits the capacity, starts with
    [opcode|0x80][status], and ends there when the status is not OK. *)
Theorem fs_request_safe :
  exists opcode buf' n s', request !! O = Some opcode /\
    handle_squid_fs_request (Some context) (Some request) request_size (Some buf) cap s
      = Some ((buf', n), s') /\ reply_ok opcode cap buf buf' n.
Proof.
  destruct opcode_exists as [opcode Hop].
  pose proof (run_replied opcode Hop) as Hw. apply wp_inv in Hw as ([b n] & s' & Hr & Hok & _).
  by exists opcode, b, n, s'.
Qed.

(** C1. Containment and descriptor discipline: every system call of a
    request uses the root descriptor or one the request itself opened and
    has not closed, names exactly one path component (no slash, no "." or
    ".."), opens and examines without following symbolic links, and every
    descriptor opened is closed again when the handler returns. *)
Theorem fs_request_contained :
  wp (handle_squid_fs_request (Some context) (Some request) request_size (Some buf) cap)
    (fun _ s' => exists es, trace s' = trace s ++ es /\ fd_run (root_fd context) [] es []) s.
Proof.
  destruct opcode_exists as [opcode Hop].
  eapply wp_mono; [exact (run_replied opcode Hop)|].
  intros r s' [_ (es & Ht & Hr & _)]. by exists es.
Qed.

(** C19. On a read-only export no request makes a system call that can
    change the exported tree: no open for writing, creation or truncation,
    no write, mkdir, unlink or rename. *)
Theorem fs_read_only_respected :
  read_only context <> 0 ->
  wp (handle_squid_fs_request (Some context) (Some request) request_size (Some buf) cap)
    (fun _ s' => exists es, trace s' = trace s ++ es /\
    Forall (fun e => mutates e = false) es) s.
Proof.
  intros Hro. destruct opcode_exists as [opcode Hop].
  eapply wp_mono; [exact (run_replied opcode Hop)|].
  intros r s' [_ (es & Ht & _ & Hm)]. exists es. auto.
Qed.

(** A READ response either carries no data (-1 or an error status) or
    is exactly [0x83][OK][offset][size][count][data], where [data] are the
    bytes one [pread] delivered at the offset the request names, at most
    the maximum the request names, inside the file's size. *)
Theorem fs_read_delivers :
  request !! O = Some SQUID_FS_OP_READ ->
  wp (handle_squid_fs_request (Some context) (Some request) request_size (Some buf) cap)
    (fun r s' => no_data SQUID_FS_OP_READ r \/
    delivered SQUID_FS_OP_READ cap request r s') s.
Proof.
  intros Hop. unfold handle_squid_fs_request.
  destruct (_ || _) eqn:E; [lia|]. apply wp_bind.
  eapply wp_lift; [eapply rd_Some; [done|exact Hop|done]|]. cbn [Z.eqb Pos.eqb].
  eapply wp_mono; [apply (handle_read_spec s context _ cap buf); try done; try lia|].
  { apply progress_refl. }
  by intros r s' [_ ?].
Qed.
End all_requests.

Definition sample_context (ro : Z) : squid_fs_context := FsContext 3 ro.
Definition sample_buf : list Z := replicate 255 0.
(** READ of docs/a.txt from offset 7, WRITE to it, RENAME of b. *)
Definition read_request : list Z := [3; 7; 0; 0; 0; 0; 10] ++ text "docs/a.txt".
Definition write_request : list Z := [4; 0; 0; 0; 0; 3; 10] ++ text "docs/a.txt" ++ [2; 1; 2].
Definition rename_request : list Z := [7; 1] ++ text "b" ++ [6] ++ text "docs/b".

Lemma fs_request_safe_witness :
  exists opcode buf' n s', write_request !! O = Some opcode /\
    handle_squid_fs_request (Some (sample_context 0)) (Some write_request) (zlen write_request)
      (Some sample_buf) 255 sample_os = Some ((buf', n), s') /\
    reply_ok opcode 255 sample_buf buf' n.
Proof. apply fs_request_safe; closed. Defined.

Lemma fs_request_contained_witness :
  wp (handle_squid_fs_request (Some (sample_context 0)) (Some rename_request)
        (zlen rename_request) (Some sample_buf) 255)
    (fun _ s' => exists es, trace s' = [] ++ es /\ fd_run 3 [] es []) sample_os.
Proof. apply (fs_request_contained (sample_context 0)); closed. Defined.

Lemma fs_read_only_respected_witness :
  wp (handle_squid_fs_request (Some (sample_context 1)) (Some read_request)
        (zlen read_request) (Some sample_buf) 255)
    (fun _ s' => exists es, trace s' = [] ++ es /\ Forall (fun e => mutates e = false) es)
    sample_os.
Proof. apply (fs_read_only_respected (sample_context 1)); closed. Defined.

Lemma fs_read_delivers_witness :
  wp (handle_squid_fs_request (Some (sample_context 1)) (Some read_request)
        (zlen read_request) (Some sample_buf) 255)
    (fun r s' => no_data SQUID_FS_OP_READ r \/ delivered SQUID_FS_OP_READ 255 read_request r s')
    sample_os.
Proof. apply (fs_read_delivers (sample_context 1)); closed. Defined.

(** ** Paths *)

(** C34. [path_is_valid] accepts exactly the documented paths: at most
    [SQUID_FS_PATH_MAX] bytes, no NUL, no empty, "." or ".." component (so not
    absolute), or the empty path where it is allowed; an accepted path is
    copied to the [path] array as a C string.  It never reads outside the
    path bytes nor writes outside the array. *)
Theorem path_is_valid_exact s tail allow path :
  bytes_ok (s ++ tail) -> zlen path = SQUID_FS_PATH_MAX + 1 ->
  exists ok path',
    path_is_valid (Some (s ++ tail)) (zlen s) allow path = Some (ok, path') /\
    (ok = true <-> valid_path s \/ allow = true /\ s = []) /\
    (ok = true -> cstring path' = Some s).
Proof.
  intros Hb Hp. destruct (path_is_valid_spec s tail allow path Hb Hp) as (p & H1 & _ & H3).
  eexists _, p. split; [exact H1|]. split; [|exact H3].
  rewrite orb_true_iff, andb_true_iff, !bool_decide_eq_true. done.
Qed.

Lemma path_is_valid_exact_witness :
  exists ok path',
    path_is_valid (Some (text "docs/a.txt" ++ [1])) (zlen (text "docs/a.txt")) false
      (uninit (SQUID_FS_PATH_MAX + 1)) = Some (ok, path') /\
    (ok = true <-> valid_path (text "docs/a.txt") \/ false = true /\ text "docs/a.txt" = []) /\
    (ok = true -> cstring path' = Some (text "docs/a.txt")).
Proof. apply path_is_valid_exact; [closed|reflexivity]. Defined.

(** ** Listing *)

(** C7. Paging through a directory below the exported root that does not
    change terminates and returns every entry except "." and ".." exactly
    once, in directory order, with its documented type and size, for every
    response capacity from 5 to 255 that has room for each entry's record on a
    page of its own (6 bytes and the name, at most 249) and every directory of
    fewer than 65535 entries: one request per page from cursor 0 until the
    response carries [SQUID_FS_CURSOR_END].  Only system calls are assumed to
    behave; the root itself, whose descriptor is duplicated, is left out. *)
Theorem fs_list_complete {W} `{Posix W} context path names info Idle At Both Reading cap buf
    (s : os W) :
  still_dir (root_fd context) (components path) names info Idle At Both Reading ->
  0 <= root_fd context -> bytes_ok path -> valid_path path ->
  Forall entry_name names -> (forall n, stat_ok (info n)) ->
  5 <= cap <= 255 -> cap <= zlen buf ->
  Forall (fun n => 6 + zlen n <= Z.min 249 (cap - 5)) (visible names) ->
  zlen (visible names) < 65535 -> Idle (world s) ->
  wp (read_dir context path SQUID_FS_OP_LIST cap (S (length (visible names))) buf 0)
    (fun r s' => Idle (world s') /\ r = Some (map (entry_of info) (visible names))) s.
Proof.
  intros Hd Hroot Hb Hp Hn Hst Hcap Hbuf Hfit Hfew Hs.
  eapply wp_mono; [eapply (read_dir_from context path names info Idle At Both Reading Hd Hroot Hb Hp
    Hn Hst SQUID_FS_OP_LIST cap Hcap Hfit Hfew _ O); try done; lia|].
  intros r s' [? ->]. by rewrite drop_0.
Qed.
