(* ===== verification/FsStore.v ===== *)
(** The abstract specification of the filesystem service: a store of inodes
    below an exported root and what every request does to it.  The kernel's
    documented behaviour on the store is the class [FileKernel]. *)
From stdpp Require Import base numbers list option gmap.
From Stdlib Require Import ZArith Lia.
From S2P Require Import Prelude CLib Wire Posix Filesystem FsPath FsTrace FsSafety.

Local Open Scope Z_scope.
Local Open Scope squid_scope.

(** ** The store *)

(** Regular files, directories, and everything else (links, devices). *)
Inductive fnode :=
| FFile (content : list Z)
| FDir (entries : gmap (list Z) Z)
| FOther.

(** The inodes, and the inode every open descriptor refers to. *)
Record store := Store { files : gmap Z fnode; handles : gmap Z Z }.
Lemma store_eta σ : σ = Store (files σ) (handles σ).
Proof. by destruct σ. Qed.

(** The inode of a path below a directory. *)
Fixpoint walk (ns : gmap Z fnode) (i : Z) (path : list (list Z)) : option Z :=
  match path with
  | [] => Some i
  | name :: path =>
      match ns !! i with
      | Some (FDir es) => match es !! name with Some j => walk ns j path | None => None end
      | _ => None
      end
  end.

Lemma walk_app ns : forall p i q,
  walk ns i (p ++ q) = match walk ns i p with Some j => walk ns j q | None => None end.
Proof.
  induction p as [|name p IH]; intros i q; [done|]. cbn [walk app].
  destruct (ns !! i) as [[c|es|]|]; try done. destruct (es !! name); [apply IH|done].
Qed.

(** The directory that holds the last component of a path. *)
Definition entry_at (ns : gmap Z fnode) (root : Z) (path : list Z) (di : Z)
    (es : gmap (list Z) Z) (leaf : list Z) : Prop :=
  exists parents, names path = parents ++ [leaf] /\ walk ns root parents = Some di /\
    ns !! di = Some (FDir es).

(** Writing [data] at [offset], with zeros in a gap; nothing when there is no
    data. *)
Definition patch (content : list Z) (offset : Z) (data : list Z) : list Z :=
  match data with
  | [] => content
  | _ =>
      take (Z.to_nat offset) content
      ++ replicate (Z.to_nat offset - length content) 0
      ++ data ++ drop (Z.to_nat offset + length data) content
  end.

Definition is_dir (n : fnode) : bool := match n with FDir _ => true | _ => false end.
Definition has (flags bit : Z) : bool := negb (Z.land flags bit =? 0).

(** *** One directory

    How the system calls on the entry [name] of the directory [di] with the
    entries [es] change the inodes. *)

(** [open] gives the inode [i]. *)
Inductive opens (flags : Z) (ns : gmap Z fnode) (di : Z) (es : gmap (list Z) Z) (name : list Z)
    (i : Z) : gmap Z fnode -> Prop :=
| opens_there n :
    es !! name = Some i -> ns !! i = Some n ->
    (has flags O_DIRECTORY = true -> is_dir n = true) ->
    (has flags O_WRONLY = true -> is_dir n = false) ->
    opens flags ns di es name i
      (match n with
       | FFile _ => if has flags O_TRUNC then <[i := FFile []]> ns else ns
       | _ => ns
       end)
| opens_new :
    has flags O_CREAT = true -> es !! name = None -> ns !! i = None ->
    opens flags ns di es name i (<[di := FDir (<[name := i]> es)]> (<[i := FFile []]> ns)).

Inductive makes (ns : gmap Z fnode) (di : Z) (es : gmap (list Z) Z) (name : list Z)
    : gmap Z fnode -> Prop :=
| makes_new i :
    es !! name = None -> ns !! i = None ->
    makes ns di es name (<[di := FDir (<[name := i]> es)]> (<[i := FDir ∅]> ns)).

(** An inode that has lost its last name may be gone. *)
Definition linked (ns : gmap Z fnode) (i : Z) : Prop :=
  exists di es name, ns !! di = Some (FDir es) /\ es !! name = Some i.
Definition released (i : Z) (ns ns' : gmap Z fnode) : Prop :=
  ns' = ns \/ ~ linked ns i /\ ns' = delete i ns.

(** A directory that can be removed or replaced is empty. *)
Definition removable (n : fnode) : Prop :=
  match n with FDir es => es = ∅ | _ => True end.

Inductive unlinks (ns : gmap Z fnode) (di : Z) (es : gmap (list Z) Z) (name : list Z)
    : gmap Z fnode -> Prop :=
| unlinks_entry i n ns' :
    es !! name = Some i -> ns !! i = Some n -> removable n ->
    released i (<[di := FDir (delete name es)]> ns) ns' ->
    unlinks ns di es name ns'.

(** [rename]; two names of one inode are left alone. *)
Inductive moves (ns : gmap Z fnode) (odi : Z) (oes : gmap (list Z) Z) (oname : list Z)
    (ndi : Z) (nes : gmap (list Z) Z) (nname : list Z) : gmap Z fnode -> Prop :=
| moves_same i :
    oes !! oname = Some i -> nes !! nname = Some i -> moves ns odi oes oname ndi nes nname ns
| moves_free i es :
    oes !! oname = Some i -> nes !! nname = None ->
    <[odi := FDir (delete oname oes)]> ns !! ndi = Some (FDir es) ->
    moves ns odi oes oname ndi nes nname
      (<[ndi := FDir (<[nname := i]> es)]> (<[odi := FDir (delete oname oes)]> ns))
| moves_over i j n es ns' :
    oes !! oname = Some i -> nes !! nname = Some j -> i <> j -> ns !! j = Some n ->
    removable n ->
    <[odi := FDir (delete oname oes)]> ns !! ndi = Some (FDir es) ->
    released j (<[ndi := FDir (<[nname := i]> es)]> (<[odi := FDir (delete oname oes)]> ns)) ns' ->
    moves ns odi oes oname ndi nes nname ns'.

(** What [stat] says of an inode; [off_t] is 64 bits wide. *)
Definition describes (n : fnode) (st : stat) : Prop :=
  match n with
  | FFile c => S_ISREG (st_mode st) = true /\ S_ISDIR (st_mode st) = false /\
      st_size st = Z.min (2 ^ 63 - 1) (zlen c)
  | FDir _ => S_ISREG (st_mode st) = false /\ S_ISDIR (st_mode st) = true
  | FOther => S_ISREG (st_mode st) = false /\ S_ISDIR (st_mode st) = false
  end.

(** ** The kernel

    An inode with a name or another open descriptor outlives a [close]. *)
Definition kept (σ : store) (fd i : Z) : Prop :=
  (exists fd', fd' <> fd /\ handles σ !! fd' = Some i) \/ linked (files σ) i.

(** A call on the store [σ] that gives [r] and leaves [w']: a failure changes
    nothing. *)
Definition result {W} (view : W -> store) (sound : W -> Prop) (σ : store) (r : Z) (w' : W)
    (ok : store -> Prop) : Prop :=
  sound w' /\ if r <? 0 then view w' = σ else ok (view w').

(** The documented behaviour of the calls, on descriptors that are open. *)
Class FileKernel (W : Type) `{Posix W} (view : W -> store) (sound : W -> Prop) : Prop := {
  fk_dup : forall fd i w, sound w -> handles (view w) !! fd = Some i ->
    let '(r, w') := sys_dup fd w in
    result view sound (view w) r w' (fun σ =>
      handles (view w) !! r = None /\ σ = Store (files (view w)) (<[r := i]> (handles (view w))));
  fk_openat : forall d di es name flags mode w, sound w -> nofollow flags = true ->
    handles (view w) !! d = Some di -> files (view w) !! di = Some (FDir es) ->
    let '(r, w') := sys_openat d name flags mode w in
    result view sound (view w) r w' (fun σ =>
      handles (view w) !! r = None /\ exists i, opens flags (files (view w)) di es name i (files σ) /\
        handles σ = <[r := i]> (handles (view w)));
  fk_close : forall fd i w, sound w -> handles (view w) !! fd = Some i -> kept (view w) fd i ->
    sound (sys_close fd w) /\
    view (sys_close fd w) = Store (files (view w)) (delete fd (handles (view w)));
  fk_fstat : forall fd i n w, sound w -> handles (view w) !! fd = Some i ->
    files (view w) !! i = Some n ->
    let '(r, st, w') := sys_fstat fd w in
    result view sound (view w) r w' (fun σ => σ = view w /\ describes n st);
  fk_fstatat : forall d di es name w, sound w ->
    handles (view w) !! d = Some di -> files (view w) !! di = Some (FDir es) ->
    let '(r, st, w') := sys_fstatat d name AT_SYMLINK_NOFOLLOW w in
    result view sound (view w) r w' (fun σ => σ = view w /\
      exists i n, es !! name = Some i /\ files (view w) !! i = Some n /\ describes n st);
  fk_fdopendir : forall fd i w, sound w -> handles (view w) !! fd = Some i ->
    let '(r, _, w') := sys_fdopendir fd w in result view sound (view w) r w' (fun σ => σ = view w);
  fk_closedir : forall fd i w, sound w -> handles (view w) !! fd = Some i -> kept (view w) fd i ->
    sound (sys_closedir fd w) /\
    view (sys_closedir fd w) = Store (files (view w)) (delete fd (handles (view w)));
  fk_pread : forall fd i c n off w, sound w -> handles (view w) !! fd = Some i ->
    files (view w) !! i = Some (FFile c) -> 0 <= n -> 0 <= off ->
    let '(r, data, w') := sys_pread fd n off w in
    result view sound (view w) r w' (fun σ => σ = view w /\
      data = take (Z.to_nat r) (drop (Z.to_nat off) c) /\ (0 < n -> off < zlen c -> 0 < r));
  fk_pwrite : forall fd i c data off w, sound w -> handles (view w) !! fd = Some i ->
    files (view w) !! i = Some (FFile c) -> bytes_ok data -> 0 <= off ->
    let '(r, w') := sys_pwrite fd data off w in
    result view sound (view w) r w' (fun σ => σ =
      Store (<[i := FFile (patch c off (take (Z.to_nat r) data))]> (files (view w))) (handles (view w)));
  fk_mkdirat : forall d di es name mode w, sound w ->
    handles (view w) !! d = Some di -> files (view w) !! di = Some (FDir es) ->
    let '(r, w') := sys_mkdirat d name mode w in
    result view sound (view w) r w' (fun σ =>
      r = 0 /\ makes (files (view w)) di es name (files σ) /\ handles σ = handles (view w));
  fk_unlinkat : forall d di es name flags w, sound w ->
    handles (view w) !! d = Some di -> files (view w) !! di = Some (FDir es) ->
    let '(r, w') := sys_unlinkat d name flags w in
    result view sound (view w) r w' (fun σ =>
      r = 0 /\ unlinks (files (view w)) di es name (files σ) /\ handles σ = handles (view w));
  fk_renameat : forall od odi oes oname nd ndi nes nname w, sound w ->
    handles (view w) !! od = Some odi -> files (view w) !! odi = Some (FDir oes) ->
    handles (view w) !! nd = Some ndi -> files (view w) !! ndi = Some (FDir nes) ->
    let '(r, w') := sys_renameat od oname nd nname w in
    result view sound (view w) r w' (fun σ =>
      r = 0 /\ moves (files (view w)) odi oes oname ndi nes nname (files σ) /\
      handles σ = handles (view w)) }.

(** ** Names stay *)

(** A new version of an inode that is no directory takes no name away. *)
Lemma linked_file ns i n x :
  (forall es, ns !! i <> Some (FDir es)) -> linked ns x -> linked (<[i := n]> ns) x.
Proof.
  intros Hi (di & es & name & Hd & He). exists di, es, name. split; [|done].
  rewrite lookup_insert_ne; [done|]. intros ->. by apply (Hi es).
Qed.
(** A new entry takes only the name of the inode it replaces. *)
Lemma linked_over ns di es name i x :
  ns !! di = Some (FDir es) -> (forall j, es !! name = Some j -> j <> x) -> linked ns x ->
  linked (<[di := FDir (<[name := i]> es)]> ns) x.
Proof.
  intros Hdi Hn (d & es' & name' & Hd & He). destruct (decide (d = di)) as [->|Hne].
  - rewrite Hdi in Hd. injection Hd as <-. exists di, (<[name := i]> es), name'.
    rewrite lookup_insert_eq. split; [done|]. rewrite lookup_insert_ne; [done|].
    intros ->. by apply (Hn x).
  - exists d, es', name'. by rewrite lookup_insert_ne.
Qed.
Lemma linked_entry ns di es name i x :
  ns !! di = Some (FDir es) -> es !! name = None -> linked ns x ->
  linked (<[di := FDir (<[name := i]> es)]> ns) x.
Proof. intros Hdi Hn. apply linked_over; [done|]. congruence. Qed.
Lemma linked_new ns di es name i : linked (<[di := FDir (<[name := i]> es)]> ns) i.
Proof. exists di, (<[name := i]> es), name. by rewrite !lookup_insert_eq. Qed.

Lemma opens_linked flags ns di es name i ns' x :
  ns !! di = Some (FDir es) -> opens flags ns di es name i ns' -> linked ns x -> linked ns' x.
Proof.
  intros Hdi [n He Hn _ _|_ He Hn] Hx.
  - destruct n; try done. destruct (has flags O_TRUNC); [|done]. apply linked_file; [|done]. congruence.
  - apply linked_entry; [|done|].
    + rewrite lookup_insert_ne; [done|]. congruence.
    + apply linked_file; [|done]. congruence.
Qed.
Lemma opens_found flags ns di es name i ns' :
  ns !! di = Some (FDir es) -> opens flags ns di es name i ns' -> linked ns' i.
Proof.
  intros Hdi [n He Hn _ _|_ He Hn]; [|apply linked_new]. assert (linked ns i) by (by exists di, es, name).
  destruct n; try done. destruct (has flags O_TRUNC); [|done]. apply linked_file; [|done]. congruence.
Qed.
Lemma makes_linked ns di es name ns' x :
  ns !! di = Some (FDir es) -> makes ns di es name ns' -> linked ns x -> linked ns' x.
Proof.
  intros Hdi [i He Hn] Hx. apply linked_entry; [|done|].
  - rewrite lookup_insert_ne; [done|]. congruence.
  - apply linked_file; [|done]. congruence.
Qed.

(** A directory with entries is neither removed nor replaced. *)
Definition occupied (ns : gmap Z fnode) (x : Z) : Prop :=
  exists es name i, ns !! x = Some (FDir es) /\ es !! name = Some i.

Lemma released_linked i n ns ns' x :
  i <> x -> ns !! i = Some n -> removable n -> linked ns x -> released i ns ns' -> linked ns' x.
Proof.
  intros Hne Hi Hr (d & es & name & Hd & He) [->|[_ ->]]; [by exists d, es, name|].
  exists d, es, name. rewrite lookup_delete_ne; [done|]. intros ->. rewrite Hi in Hd.
  injection Hd as ->. cbn in Hr. by subst es.
Qed.
Lemma occupied_ne ns i n x : ns !! i = Some n -> removable n -> occupied ns x -> i <> x.
Proof.
  intros Hi Hr (es & name & j & Hx & He) ->. rewrite Hi in Hx. injection Hx as ->. cbn in Hr. by subst es.
Qed.

(** Taking the entry of another inode away. *)
Lemma linked_delete ns di es name i x :
  ns !! di = Some (FDir es) -> es !! name = Some i -> i <> x -> linked ns x ->
  linked (<[di := FDir (delete name es)]> ns) x.
Proof.
  intros Hdi He Hne (d & es' & name' & Hd & He'). destruct (decide (d = di)) as [->|Hnd].
  - rewrite Hdi in Hd. injection Hd as <-. exists di, (delete name es), name'.
    rewrite lookup_insert_eq. split; [done|]. rewrite lookup_delete_ne; [done|]. by intros ->; congruence.
  - exists d, es', name'. by rewrite lookup_insert_ne.
Qed.

Lemma unlinks_linked ns di es name ns' x :
  ns !! di = Some (FDir es) -> unlinks ns di es name ns' -> occupied ns x -> linked ns x ->
  linked ns' x.
Proof.
  intros Hdi [i n ns'' He Hi Hr Hrel] Hox Hx.
  assert (i <> x) by (by eapply occupied_ne). assert (i <> di).
  { eapply occupied_ne; [done..|]. by exists es, name, i. }
  eapply (released_linked i n); [done| |done| |exact Hrel].
  - by rewrite lookup_insert_ne.
  - by eapply linked_delete.
Qed.

Lemma moved_entries (ns : gmap Z fnode) odi oes oname ndi nes es name k :
  ns !! odi = Some (FDir oes) -> ns !! ndi = Some (FDir nes) ->
  <[odi := FDir (delete oname oes)]> ns !! ndi = Some (FDir es) -> es !! name = Some k ->
  nes !! name = Some k.
Proof.
  intros Hod Hnd Hes Hk. destruct (decide (odi = ndi)) as [<-|Hd].
  - rewrite lookup_insert_eq in Hes. injection Hes as <-. apply lookup_delete_Some in Hk as [_ Hk].
    congruence.
  - rewrite lookup_insert_ne in Hes by done. congruence.
Qed.

Lemma moves_linked ns odi oes oname ndi nes nname ns' x :
  ns !! odi = Some (FDir oes) -> ns !! ndi = Some (FDir nes) ->
  moves ns odi oes oname ndi nes nname ns' -> occupied ns x -> linked ns x -> linked ns' x.
Proof.
  intros Hod Hnd Hm Hox Hx. destruct Hm as [i He He'|i es He He' Hes|i j n es ns'' He He' Hne Hj Hr Hes Hrel].
  - done.
  - destruct (decide (x = i)) as [->|Hxi]; [apply linked_new|]. apply linked_over; [done| |].
    + intros j Hj. pose proof (moved_entries _ _ _ _ _ _ _ _ _ Hod Hnd Hes Hj). congruence.
    + by eapply linked_delete.
  - assert (Hjx : j <> x) by (by eapply occupied_ne). assert (j <> ndi).
    { eapply occupied_ne; [done..|]. by exists nes, nname, j. }
    assert (j <> odi). { eapply occupied_ne; [done..|]. by exists oes, oname, i. }
    eapply (released_linked j n); [done| |done| |exact Hrel].
    { by rewrite !lookup_insert_ne. }
    destruct (decide (x = i)) as [->|Hxi]; [apply linked_new|]. apply linked_over; [done| |].
    + intros k Hk. pose proof (moved_entries _ _ _ _ _ _ _ _ _ Hod Hnd Hes Hk). congruence.
    + by eapply linked_delete.
Qed.

(** ** Requests *)

Inductive fs_op :=
| OpStat (path : list Z)
| OpRead (path : list Z) (offset maximum : Z)
| OpWrite (path : list Z) (offset flags : Z) (data : list Z)
| OpMkdir (path : list Z)
| OpDelete (path : list Z)
| OpRename (old new : list Z).

Definition op_code (op : fs_op) : Z :=
  match op with
  | OpStat _ => SQUID_FS_OP_STAT
  | OpRead _ _ _ => SQUID_FS_OP_READ
  | OpWrite _ _ _ _ => SQUID_FS_OP_WRITE
  | OpMkdir _ => SQUID_FS_OP_MKDIR
  | OpDelete _ => SQUID_FS_OP_DELETE
  | OpRename _ _ => SQUID_FS_OP_RENAME
  end.

(** The documented request formats. *)
Definition encode (op : fs_op) : list Z :=
  [op_code op] ++
  match op with
  | OpStat path | OpMkdir path | OpDelete path => [zlen path] ++ path
  | OpRead path offset maximum => le32 offset ++ [maximum; zlen path] ++ path
  | OpWrite path offset flags data =>
      le32 offset ++ [flags; zlen path] ++ path ++ [zlen data] ++ data
  | OpRename old new => [zlen old] ++ old ++ [zlen new] ++ new
  end.

(** Offsets are 32 bits wide. *)
Definition op_range (op : fs_op) : Prop :=
  match op with
  | OpRead _ offset _ | OpWrite _ offset _ _ => 0 <= offset < 4294967296
  | _ => True
  end.

(** The type and the size an answer reports. *)
Definition node_type (n : fnode) : Z :=
  match n with
  | FFile _ => SQUID_FS_TYPE_FILE
  | FDir _ => SQUID_FS_TYPE_DIRECTORY
  | FOther => SQUID_FS_TYPE_OTHER
  end.
Definition node_size (n : fnode) : Z :=
  match n with
  | FFile c => if zlen c <=? UINT32_MAX then zlen c else SQUID_FS_SIZE_UNKNOWN
  | _ => 0
  end.

(** The flags WRITE opens the file with. *)
Definition write_flags (flags : Z) : Z :=
  let open_flags := Z.lor (Z.lor O_WRONLY O_CLOEXEC) O_NOFOLLOW in
  let open_flags := if has flags SQUID_FS_WRITE_CREATE then Z.lor open_flags O_CREAT else open_flags in
  if has flags SQUID_FS_WRITE_TRUNCATE then Z.lor open_flags O_TRUNC else open_flags.

(** The file of a WRITE is open. *)
Definition entered (root : Z) (ns : gmap Z fnode) (path : list Z) (flags i : Z)
    (ns1 : gmap Z fnode) : Prop :=
  exists di es leaf, entry_at ns root path di es leaf /\
    opens (write_flags flags) ns di es leaf i ns1.

(** [fs_ok root cap op ns body ns']: what an OK answer with the body [body]
    means, for a response capacity [cap]. *)
Definition fs_ok (root cap : Z) (op : fs_op) (ns : gmap Z fnode) (body : list Z)
    (ns' : gmap Z fnode) : Prop :=
  match op with
  | OpStat path =>
      ns' = ns /\ exists i n mode mtime, walk ns root (names path) = Some i /\ ns !! i = Some n /\
        body = [node_type n] ++ le16 mode ++ le32 (node_size n) ++ le32 mtime
  | OpRead path offset maximum =>
      ns' = ns /\ exists i c data, walk ns root (names path) = Some i /\
        ns !! i = Some (FFile c) /\ offset <= zlen c <= UINT32_MAX /\
        data `prefix_of` drop (Z.to_nat offset) c /\ (data = [] -> offset = zlen c) /\
        zlen data <= Z.min 255 (cap - 11) /\ (0 < maximum -> zlen data <= maximum) /\
        body = le32 offset ++ le32 (zlen c) ++ [zlen data] ++ data
  | OpWrite path offset flags data =>
      exists i ns1 c written, entered root ns path flags i ns1 /\ ns1 !! i = Some (FFile c) /\
        0 <= written <= zlen data /\
        ns' = <[i := FFile (patch c offset (take (Z.to_nat written) data))]> ns1 /\
        body = le32 offset ++ [written]
  | OpMkdir path =>
      exists di es leaf, entry_at ns root path di es leaf /\ makes ns di es leaf ns' /\ body = []
  | OpDelete path =>
      exists di es leaf, entry_at ns root path di es leaf /\ unlinks ns di es leaf ns' /\ body = []
  | OpRename old new =>
      exists odi oes ol ndi nes nl, entry_at ns root old odi oes ol /\
        entry_at ns root new ndi nes nl /\ moves ns odi oes ol ndi nes nl ns' /\ body = []
  end.

(** A request that is refused changes nothing, except that WRITE may have
    created or emptied its file. *)
Definition fs_failed (root : Z) (op : fs_op) (ns ns' : gmap Z fnode) : Prop :=
  ns' = ns \/
  match op with
  | OpWrite path _ flags _ => exists i, entered root ns path flags i ns'
  | _ => False
  end.

Definition refused (opcode : Z) (reply : list Z) : Prop :=
  exists status, 0 < status < 256 /\ reply = header opcode status.

Definition fs_step (root cap : Z) (op : fs_op) (ns : gmap Z fnode) (reply : list Z)
    (ns' : gmap Z fnode) : Prop :=
  fs_failed root op ns ns' /\ refused (op_code op) reply \/
  exists body, fs_ok root cap op ns body ns' /\ reply = header (op_code op) 0 ++ body.

(** What the service does with any bytes: a request in one of the formats is
    a step, LIST and CAPABILITIES change nothing, everything else is refused. *)
Definition served (root cap : Z) (request : list Z) (ns : gmap Z fnode) (reply : list Z)
    (ns' : gmap Z fnode) : Prop :=
  (exists op, op_range op /\ request = encode op /\ fs_step root cap op ns reply ns') \/
  ns' = ns /\ exists opcode, request !! O = Some opcode /\
    (refused opcode reply \/ opcode = SQUID_FS_OP_CAPABILITIES \/ opcode = SQUID_FS_OP_LIST).
