(* ===== verification/FsRefine.v ===== *)
(** The filesystem service implements the store of FsStore.v: what every
    request does to the exported tree and what its answer says. *)
From stdpp Require Import base numbers list option gmap.
From Stdlib Require Import ZArith Lia.
From S2P Require Import Prelude CLib Wire Posix Filesystem FsPath FsTrace FsSafety FsStore.

Local Open Scope Z_scope.
Local Open Scope squid_scope.

(** ** The calls on the store *)

Section calls.
Context {W : Type} {PX : Posix W} (view : W -> store) (sound : W -> Prop)
  {FK : FileKernel W view sound} {PL : PosixLaws W}.

Definition at_store (s : os W) (ns : gmap Z fnode) (hs : gmap Z Z) : Prop :=
  sound (world s) /\ view (world s) = Store ns hs.

Section rules.
Context (ns : gmap Z fnode) (hs : gmap Z Z) (s : os W) (here : at_store s ns hs).

Lemma wp_set_errno_st e Q : (forall s', at_store s' ns hs -> Q tt s') -> wp (set_errno e) Q s.
Proof. intros HQ. by apply HQ. Qed.

(** A call by its law: the failure changes nothing. *)
Ltac store_rule law :=
  destruct here as [Hs Hv]; unfold wp, libc;
  generalize law; rewrite !Hv; cbn [files handles]; intros HL;
  repeat match type of HL with ?A -> _ => specialize (HL ltac:(assumption)) end;
  repeat match type of HL with
    context [let '(_, _) := ?c in _] => destruct c
  end; destruct HL as [Hs' HL]; revert HL;
  match goal with |- (if ?r <? 0 then _ else _) -> _ => destruct (Z.ltb_spec r 0) end; intros HL;
  [match goal with HQ : forall _, _ |- _ => by apply HQ end|].

Lemma wp_dup_st fd i Q : hs !! fd = Some i ->
  (forall s', at_store s' ns hs -> Q (-1) s') ->
  (forall r s', 0 <= r -> hs !! r = None -> at_store s' ns (<[r := i]> hs) -> Q r s') ->
  wp (c_dup fd) Q s.
Proof.
  intros Hfd HQ1 HQ2. unfold c_dup. store_rule (fk_dup fd i (world s)).
  destruct HL as [Hr HL]. by apply HQ2.
Qed.

Lemma wp_openat_st d di es name flags mode Q : nofollow flags = true ->
  hs !! d = Some di -> ns !! di = Some (FDir es) ->
  (forall s', at_store s' ns hs -> Q (-1) s') ->
  (forall r i ns' s', 0 <= r -> hs !! r = None -> opens flags ns di es name i ns' ->
     at_store s' ns' (<[r := i]> hs) -> Q r s') ->
  wp (c_openat d name flags mode) Q s.
Proof.
  intros Hf Hd Hdi HQ1 HQ2. unfold c_openat. store_rule (fk_openat d di es name flags mode (world s)).
  destruct HL as (Hr & i & Ho & Hh). eapply HQ2; [done|done|exact Ho|]. split; [done|].
  rewrite <- Hh. apply store_eta.
Qed.

Lemma wp_fstat_st fd i n Q : hs !! fd = Some i -> ns !! i = Some n ->
  (forall st s', at_store s' ns hs -> Q (-1, st) s') ->
  (forall r st s', 0 <= r -> describes n st -> at_store s' ns hs -> Q (r, st) s') ->
  wp (c_fstat fd) Q s.
Proof.
  intros Hfd Hi HQ1 HQ2. unfold c_fstat. store_rule (fk_fstat fd i n (world s)).
  destruct HL as [HL Hd]. by apply HQ2.
Qed.

Lemma wp_fstatat_st d di es name Q : hs !! d = Some di -> ns !! di = Some (FDir es) ->
  (forall st s', at_store s' ns hs -> Q (-1, st) s') ->
  (forall r st i n s', 0 <= r -> es !! name = Some i -> ns !! i = Some n -> describes n st ->
     at_store s' ns hs -> Q (r, st) s') ->
  wp (c_fstatat d name AT_SYMLINK_NOFOLLOW) Q s.
Proof.
  intros Hd Hdi HQ1 HQ2. unfold c_fstatat. store_rule (fk_fstatat d di es name (world s)).
  destruct HL as (HL & i & n & ? & ? & ?). by eapply HQ2.
Qed.

Lemma wp_fdopendir_st fd i Q : hs !! fd = Some i ->
  (forall d s', at_store s' ns hs -> Q d s') -> wp (c_fdopendir fd) Q s.
Proof.
  intros Hfd HQ. unfold c_fdopendir. store_rule (fk_fdopendir fd i (world s)). by apply HQ.
Qed.

Lemma wp_pread_st fd i c n off Q : hs !! fd = Some i -> ns !! i = Some (FFile c) ->
  0 <= n -> 0 <= off ->
  (forall s', at_store s' ns hs -> Q (-1, []) s') ->
  (forall data s', data `prefix_of` drop (Z.to_nat off) c -> zlen data <= n ->
     (0 < n -> off < zlen c -> data <> []) -> at_store s' ns hs -> Q (zlen data, data) s') ->
  wp (c_pread fd n off) Q s.
Proof.
  intros Hfd Hi Hn Ho HQ1 HQ2. unfold c_pread. pose proof (pread_bound fd n off (world s)) as Hb.
  store_rule (fk_pread fd i c n off (world s)).
  destruct HL as (HL & Hd & Hp). destruct Hb as (Hb & Hz & _); [done..|]. rewrite <- Hz.
  apply HQ2; [|lia| |done]; rewrite Hd.
  - exists (drop (Z.to_nat z) (drop (Z.to_nat off) c)). by rewrite take_drop.
  - rewrite <- Hd. intros Hn0 Hlt ->. specialize (Hp Hn0 Hlt). rewrite zlen_nil in Hz. lia.
Qed.

Lemma wp_pwrite_st fd i c data off Q : hs !! fd = Some i -> ns !! i = Some (FFile c) ->
  bytes_ok data -> 0 <= off ->
  (forall s', at_store s' ns hs -> Q (-1) s') ->
  (forall r s', 0 <= r <= zlen data ->
     at_store s' (<[i := FFile (patch c off (take (Z.to_nat r) data))]> ns) hs -> Q r s') ->
  wp (c_pwrite fd data off) Q s.
Proof.
  intros Hfd Hi Hd Ho HQ1 HQ2. unfold c_pwrite. pose proof (pwrite_bound fd data off (world s)) as Hb.
  store_rule (fk_pwrite fd i c data off (world s)). cbn in Hb. by apply HQ2.
Qed.

Lemma wp_mkdirat_st d di es name mode Q : hs !! d = Some di -> ns !! di = Some (FDir es) ->
  (forall s', at_store s' ns hs -> Q (-1) s') ->
  (forall ns' s', makes ns di es name ns' -> at_store s' ns' hs -> Q 0 s') ->
  wp (c_mkdirat d name mode) Q s.
Proof.
  intros Hd Hdi HQ1 HQ2. unfold c_mkdirat. store_rule (fk_mkdirat d di es name mode (world s)).
  destruct HL as (-> & Hm & Hh). eapply HQ2; [exact Hm|]. split; [done|].
  rewrite <- Hh. apply store_eta.
Qed.

Lemma wp_unlinkat_st d di es name flags Q : hs !! d = Some di -> ns !! di = Some (FDir es) ->
  (forall s', at_store s' ns hs -> Q (-1) s') ->
  (forall ns' s', unlinks ns di es name ns' -> at_store s' ns' hs -> Q 0 s') ->
  wp (c_unlinkat d name flags) Q s.
Proof.
  intros Hd Hdi HQ1 HQ2. unfold c_unlinkat. store_rule (fk_unlinkat d di es name flags (world s)).
  destruct HL as (-> & Hm & Hh). eapply HQ2; [exact Hm|]. split; [done|].
  rewrite <- Hh. apply store_eta.
Qed.

Lemma wp_renameat_st od odi oes oname nd ndi nes nname Q :
  hs !! od = Some odi -> ns !! odi = Some (FDir oes) ->
  hs !! nd = Some ndi -> ns !! ndi = Some (FDir nes) ->
  (forall s', at_store s' ns hs -> Q (-1) s') ->
  (forall ns' s', moves ns odi oes oname ndi nes nname ns' -> at_store s' ns' hs -> Q 0 s') ->
  wp (c_renameat od oname nd nname) Q s.
Proof.
  intros Ho Hod Hn Hnd HQ1 HQ2. unfold c_renameat.
  store_rule (fk_renameat od odi oes oname nd ndi nes nname (world s)).
  destruct HL as (-> & Hm & Hh). eapply HQ2; [exact Hm|]. split; [done|].
  rewrite <- Hh. apply store_eta.
Qed.
End rules.

(** ** Walking *)

Context (context : squid_fs_context) (root : Z).
Local Abbreviation rfd := (root_fd context).

(** The descriptors that stay open: the root's among them. *)
Definition base (hs : gmap Z Z) : Prop := 0 <= rfd /\ hs !! rfd = Some root.
Definition holds (ns : gmap Z fnode) (i : Z) : Prop := i = root \/ linked ns i.

Lemma base_insert fd i hs : hs !! fd = None -> base hs -> base (<[fd := i]> hs).
Proof. intros Hn [H0 Hb]. split; [done|]. rewrite lookup_insert_ne; [done|]. congruence. Qed.
Lemma holds_kept ns fd i hs : hs !! fd = None -> base hs -> holds ns i ->
  kept (Store ns (<[fd := i]> hs)) fd i.
Proof.
  intros Hn [_ Hb] [->|Hl]; [left|by right]. exists rfd. cbn. split; [congruence|].
  rewrite lookup_insert_ne; [done|congruence].
Qed.

Lemma wp_close_st fd i ns hs s Q :
  hs !! fd = None -> base hs -> holds ns i -> at_store s ns (<[fd := i]> hs) ->
  (forall s', at_store s' ns hs -> Q tt s') -> wp (c_close fd) Q s.
Proof.
  intros Hn Hb Hh [Hs Hv] HQ. unfold wp, c_close.
  pose proof (fk_close fd i (world s) Hs) as HL. rewrite Hv in HL. cbn [handles files] in HL.
  rewrite lookup_insert_eq, delete_insert_id in HL by done.
  apply HQ. by apply HL, holds_kept.
Qed.
Lemma wp_closedir_st fd i ns hs s Q :
  hs !! fd = None -> base hs -> holds ns i -> at_store s ns (<[fd := i]> hs) ->
  (forall s', at_store s' ns hs -> Q tt s') -> wp (c_closedir fd) Q s.
Proof.
  intros Hn Hb Hh [Hs Hv] HQ. unfold wp, c_closedir.
  pose proof (fk_closedir fd i (world s) Hs) as HL. rewrite Hv in HL. cbn [handles files] in HL.
  rewrite lookup_insert_eq, delete_insert_id in HL by done.
  apply HQ. by apply HL, holds_kept.
Qed.

(** Closing a descriptor opened before another one. *)
Lemma wp_close_under fd i fd' i' ns hs s Q :
  hs !! fd = None -> <[fd := i]> hs !! fd' = None -> base hs -> holds ns i ->
  at_store s ns (<[fd' := i']> (<[fd := i]> hs)) ->
  (forall s', hs !! fd' = None -> at_store s' ns (<[fd' := i']> hs) -> Q tt s') ->
  wp (c_close fd) Q s.
Proof.
  intros Hn Hn' Hb Hh Hat HQ. apply lookup_insert_None in Hn' as [Hn' Hne].
  rewrite insert_insert_ne in Hat by done.
  eapply wp_close_st; [|by apply base_insert|exact Hh|exact Hat|auto].
  by rewrite lookup_insert_ne.
Qed.

Lemma opens_directory ns di es name i ns' : opens open_directory_flags ns di es name i ns' ->
  ns' = ns /\ es !! name = Some i /\ exists es', ns !! i = Some (FDir es').
Proof.
  intros [n He Hn Hd _|Hc _ _]; [|done]. specialize (Hd eq_refl). destruct n as [|es'|]; [done| |done].
  split_and!; [done|done|]. by exists es'.
Qed.

Lemma open_components_st path : forall fd i es ns hs s Q,
  hs !! fd = None -> base hs -> holds ns i -> ns !! i = Some (FDir es) -> 0 <= fd ->
  at_store s ns (<[fd := i]> hs) ->
  (forall s', at_store s' ns hs -> Q (-1) s') ->
  (forall r j es' s', 0 <= r -> hs !! r = None -> walk ns i path = Some j -> holds ns j ->
     ns !! j = Some (FDir es') -> at_store s' ns (<[r := j]> hs) -> Q r s') ->
  wp (open_components fd path) Q s.
Proof.
  induction path as [|name path IH]; intros fd i es ns hs s Q Hn Hb Hh Hi Hfd Hat HQ1 HQ2;
    cbn [open_components].
  { apply wp_ret. by eapply HQ2. }
  apply wp_bind. eapply (wp_openat_st _ _ _ Hat); [done|by rewrite lookup_insert_eq|done|..].
  - intros s1 Hat1. apply wp_bind, wp_get_errno, wp_bind.
    eapply wp_close_st; [done..|]. intros s2 Hat2. cbn [Z.ltb Z.compare].
    apply wp_bind. eapply wp_set_errno_st; [done|]. intros s3 Hat3. by apply wp_ret, HQ1.
  - intros r j ns' s1 Hr Hrn Ho Hat1. apply opens_directory in Ho as (-> & Hj & es' & Hes').
    assert (Hlj : linked ns j) by (by exists i, es, name).
    apply wp_bind, wp_get_errno, wp_bind.
    eapply wp_close_under; [done|exact Hrn|done|done|exact Hat1|]. intros s2 Hrn2 Hat2.
    destruct (Z.ltb_spec r 0); [lia|].
    eapply (IH r j es'); [done|done|by right|done|done|done|done|].
    intros r' k es'' s3 Hr' Hrn' Hw. apply HQ2; [done|done|]. cbn [walk]. by rewrite Hi, Hj.
Qed.

Lemma open_directory_st path es ns hs s Q :
  bytes_ok path -> (valid_path path \/ path = []) ->
  base hs -> ns !! root = Some (FDir es) -> at_store s ns hs ->
  (forall s', at_store s' ns hs -> Q (-1) s') ->
  (forall r j es' s', 0 <= r -> hs !! r = None -> walk ns root (names path) = Some j ->
     holds ns j -> ns !! j = Some (FDir es') -> at_store s' ns (<[r := j]> hs) -> Q r s') ->
  wp (open_directory_path context path) Q s.
Proof.
  intros Hbp Hv Hb Hroot Hat HQ1 HQ2. unfold open_directory_path, open_root_copy.
  destruct Hb as [H0 Hb]. destruct (Z.ltb_spec rfd 0); [lia|].
  apply wp_bind. eapply (wp_dup_st _ _ _ Hat); [done|intros s1 Hat1; by apply wp_ret, HQ1|].
  intros r s1 Hr Hrn Hat1. destruct (Z.ltb_spec r 0); [lia|].
  destruct path as [|c path]; [apply wp_ret; by eapply (HQ2 r); [..|left|exact Hroot|]|].
  destruct Hv as [Hv|]; [|done]. apply open_copied; [done..|].
  eapply (open_components_st _ r root es); [done|by split|by left|done..].
Qed.

(** The parent directory of a path and its last name. *)
Lemma open_parent_st path res ns hs s Q :
  bytes_ok path -> valid_path path -> base hs -> ns !! root = Some (FDir res) ->
  at_store s ns hs ->
  (forall leaf s', at_store s' ns hs -> Q (-1, -1, leaf) s') ->
  (forall r di es leaf s', 0 <= r -> hs !! r = None -> entry_at ns root path di es leaf ->
     holds ns di -> at_store s' ns (<[r := di]> hs) -> Q (0, r, leaf) s') ->
  wp (open_parent_directory context path) Q s.
Proof.
  intros Hbp Hv Hb Hroot Hat HQ1 HQ2.
  destruct (open_parent_split context path Hbp Hv) as (parent & leaf & Hbp' & Hvp & Hl & Hn & Hw).
  apply Hw, wp_bind. eapply open_directory_st; [done..| |].
  - intros s1 Hat1. by apply wp_ret, HQ1.
  - intros r j es s1 Hr Hrn Hwk Hh Hj Hat1. destruct (Z.leb_spec 0 r); [|lia].
    apply wp_ret. eapply HQ2; [done|done| |done|done]. by exists (names parent).
Qed.

(** ** The handlers *)

Section handlers.
Context (ns : gmap Z fnode) (hs : gmap Z Z) (res : gmap (list Z) Z)
  (request : list Z) (opcode cap : Z) (buf : list Z).
Context (based : base hs) (root_dir : ns !! root = Some (FDir res)).
Context (request_ok : bytes_ok request) (request_int : zlen request < 2 ^ 63)
  (op : request !! O = Some opcode).
Context (cap_ok : 13 <= cap <= zlen buf) (cap_int : cap < 2 ^ 31).

(** What a handler ends with: the descriptors as they were, and the answer and
    the files as the store says. *)
Definition answered (r : list Z * Z) (s : os W) : Prop :=
  exists ns', at_store s ns' hs /\ served root cap request ns (take (Z.to_nat r.2) r.1) ns'.

Lemma reply_bytes status b (s : os W) :
  length b = length buf -> wp (reply opcode status b cap)
    (fun r s' => s' = s /\ take (Z.to_nat r.2) r.1 = header opcode status) s.
Proof.
  intros Hb. assert (zlen b = zlen buf) by (unfold zlen; lia).
  eapply wp_lift; [apply write_status_eq; lia|done].
Qed.

Lemma status_range e : 0 < status_from_errno e < 256.
Proof. unfold status_from_errno. by repeat case_test. Qed.

(** Refused, with nothing changed. *)
Lemma refuse_st status b s :
  0 < status < 256 -> length b = length buf -> at_store s ns hs ->
  wp (reply opcode status b cap) answered s.
Proof.
  intros Hst Hb Hat. eapply wp_mono; [by apply reply_bytes|]. intros r s' [-> E].
  exists ns. rewrite E. split; [done|]. right. split; [done|]. exists opcode. split; [done|]. left.
  by exists status.
Qed.
Lemma refuse_errno b s :
  length b = length buf -> at_store s ns hs ->
  wp (let! e := get_errno in reply opcode (status_from_errno e) b cap) answered s.
Proof. intros. apply wp_bind, wp_get_errno, refuse_st; [apply status_range|done..]. Qed.

(** Refused after a descriptor is closed. *)
Lemma refuse_close fd i status b s :
  0 < status < 256 -> length b = length buf -> hs !! fd = None -> holds ns i ->
  at_store s ns (<[fd := i]> hs) ->
  wp (do! c_close fd; reply opcode status b cap) answered s.
Proof.
  intros. apply wp_bind. eapply wp_close_st; [done..|]. intros. by apply refuse_st.
Qed.
Lemma refuse_errno_close fd i b s :
  length b = length buf -> hs !! fd = None -> holds ns i -> at_store s ns (<[fd := i]> hs) ->
  wp (let! e := get_errno in do! c_close fd; reply opcode (status_from_errno e) b cap) answered s.
Proof. intros. apply wp_bind, wp_get_errno. eapply refuse_close; [apply status_range|done..]. Qed.

(** An answer with status OK. *)
Lemma ok_st o body n s ns' fop :
  o = Some (header opcode 0 ++ body ++ drop (2 + length body) buf, n) -> n = 2 + zlen body ->
  op_range fop -> request = encode fop -> opcode = op_code fop -> fs_ok root cap fop ns body ns' ->
  at_store s ns' hs -> wp (lift o) answered s.
Proof.
  intros -> -> Hra Hrq Hop Hok Hat. eapply wp_lift; [done|]. exists ns'. split; [done|]. left.
  exists fop. split_and!; [done|done|]. right. exists body. split; [done|]. cbn [fst snd]. rewrite <- Hop, app_assoc.
  apply take_app_length'. rewrite length_app. unfold zlen. cbn. lia.
Qed.

(** A path that fills the rest of the request. *)
Lemma counted_path off path :
  0 <= off < zlen request -> request !! Z.to_nat off = Some (zlen path) ->
  path = take (Z.to_nat (zlen request - off - 1)) (drop (Z.to_nat (off + 1)) request) ->
  request = take (Z.to_nat off) request ++ [zlen path] ++ path.
Proof.
  intros Hoff Hl Hp. rewrite <- (take_drop_middle _ _ _ Hl) at 1. cbn [app]. do 2 f_equal.
  rewrite Hp, take_ge; [f_equal; lia|]. rewrite length_drop. unfold zlen in *. lia.
Qed.

Lemma describes_type n st : describes n st -> file_type_from_mode (st_mode st) = node_type n.
Proof. unfold file_type_from_mode. destruct n; cbn; [intros (-> & _)|intros (-> & ->)|intros (-> & ->)]; done. Qed.
Lemma describes_size n st : describes n st -> file_size_from_stat st = node_size n.
Proof.
  unfold file_size_from_stat. destruct n as [c|es|]; cbn [describes node_size];
    [|by intros (-> & _)..]. intros (-> & _ & ->). cbn [negb orb]. pose proof (zlen_nonneg c).
  rewrite u64_small by lia. unfold UINT32_MAX.
  destruct (Z.leb_spec (zlen c) 4294967295), (Z.ltb_spec (Z.min (2 ^ 63 - 1) (zlen c)) 0),
    (Z.ltb_spec 4294967295 (Z.min (2 ^ 63 - 1) (zlen c))); cbn [orb]; try lia;
    try done; rewrite u32_small by lia; lia.
Qed.

(** *** STAT *)

(** What is open when the information is there, and what it says. *)
Definition stat_opened (path : list Z) (r : Z * stat * Z) (s : os W) : Prop :=
  (r.2 = -1 /\ at_store s ns hs \/
   0 <= r.2 /\ exists di, hs !! r.2 = None /\ holds ns di /\ at_store s ns (<[r.2 := di]> hs)) /\
  (r.1.1 = 0 -> exists i n, walk ns root (names path) = Some i /\ ns !! i = Some n /\
     describes n r.1.2).

Lemma stat_open_st path s : bytes_ok path -> (valid_path path \/ path = []) -> at_store s ns hs ->
  wp match path with
     | [] => let! '(result, information) := c_fstat (root_fd context) in ret (result, information, -1)
     | _ =>
         let! '(opened, parent_fd, leaf) := open_parent_directory context path in
         if opened =? 0 then
           let! '(result, information) := c_fstatat parent_fd leaf AT_SYMLINK_NOFOLLOW in
           ret (result, information, parent_fd)
         else ret (-1, Stat 0 0 0, parent_fd)
     end (stat_opened path) s.
Proof.
  intros Hb Hv Hat. destruct path as [|c path].
  - apply wp_bind. destruct based as [_ Hbase].
    eapply (wp_fstat_st _ _ _ Hat); [exact Hbase|exact root_dir|..].
    + intros st s1 Hat1. apply wp_ret. split; [by left|done].
    + intros r st s1 Hr Hd Hat1. apply wp_ret. split; [by left|]. intros _.
      by exists root, (FDir res).
  - destruct Hv as [Hv|]; [|done]. apply wp_bind. eapply open_parent_st; [done..| |].
    { intros leaf s1 Hat1. apply wp_ret. split; [by left|done]. }
    intros r di es leaf s1 Hr Hrn He Hh Hat1. cbn [Z.eqb]. apply wp_bind.
    destruct He as (parents & Hn & Hw & Hdi).
    eapply (wp_fstatat_st _ _ _ Hat1); [by rewrite lookup_insert_eq|exact Hdi|..].
    + intros st s2 Hat2. apply wp_ret. split; [right; cbn; eauto|done].
    + intros r' st i n s2 Hr' Hes Hi Hd Hat2. apply wp_ret. split; [right; cbn; eauto|].
      intros _. exists i, n. rewrite Hn, walk_app, Hw. cbn. by rewrite Hdi, Hes.
Qed.

Lemma close_opened_st (path : list Z) r s (k : ST (os W) (list Z * Z)) Q :
  stat_opened path r s -> (forall s', at_store s' ns hs -> wp k Q s') ->
  wp (do! (if 0 <=? r.2 then c_close r.2 else ret tt); k) Q s.
Proof.
  intros [[[Hr Hat]|(Hr & di & Hrn & Hh & Hat)] _] Hk; apply wp_bind.
  - rewrite Hr. apply wp_ret. by apply Hk.
  - destruct (Z.leb_spec 0 r.2); [|lia]. by eapply wp_close_st.
Qed.

Lemma handle_stat_st s : opcode = SQUID_FS_OP_STAT -> at_store s ns hs ->
  wp (handle_stat context opcode request (zlen request) buf cap) answered s.
Proof.
  intros Hop Hat. unfold handle_stat. pose proof (zlen_nonneg request).
  destruct (read_path_request_spec request (zlen request) 1 true) as (ok & p & Hr & Hok);
    [done|lia|done|done|]. apply wp_bind. eapply wp_lift; [exact Hr|].
  destruct ok; cbn [negb]; [|by apply refuse_st].
  destruct (Hok eq_refl) as (path & Hcs & Hv & Hpath & Hlen & Hoff).
  apply wp_bind. eapply wp_lift; [exact Hcs|].
  assert (Hpb : bytes_ok path) by (rewrite Hpath; auto with squid).
  apply wp_bind. eapply wp_mono; [apply stat_open_st; [done|tauto|done]|].
  intros [[r st] fd] s1 Ho. destruct (Z.eqb_spec r 0) as [->|_]; cbn [negb].
  2: { apply wp_bind, wp_get_errno. apply (close_opened_st path (r, st, fd)); [done|].
       intros s2 Hat2. apply refuse_st; [apply status_range|done..]. }
  apply (close_opened_st path (0, st, fd)); [done|]. intros s2 Hat2.
  destruct (Z.ltb_spec cap 13); [lia|]. destruct Ho as [_ Ho].
  destruct (Ho eq_refl) as (i & n & Hw & Hi & Hd).
  eapply (ok_st _ (stat_body st) 13 _ ns (OpStat path)); [|done|done| |done| |done].
  - unfold stat_body. set (mt := if (st_mtime st <? 0) || _ then 0 else _). clearbody mt.
    revert cap_ok. generalize buf as b. intros b Hcb. split_cells b 13%nat. reflexivity.
  - rewrite (counted_path 1 path) by (done || lia). destruct request; [done|]. injection op as ->.
    by rewrite Hop.
  - split; [done|]. exists i, n. eexists _, _. split_and!; [done..|]. unfold stat_body.
    by rewrite (describes_type n), (describes_size n).
Qed.

(** *** READ *)

Definition read_flags : Z := Z.lor (Z.lor O_RDONLY O_CLOEXEC) O_NOFOLLOW.

Lemma opens_read ns0 di es name i ns' : opens read_flags ns0 di es name i ns' ->
  ns' = ns0 /\ es !! name = Some i /\ exists n, ns0 !! i = Some n.
Proof. intros [n He Hn _ _|Hc _ _]; [|done]. split_and!; [by destruct n|done|eauto]. Qed.

Lemma entry_walk ns0 path di es leaf i :
  entry_at ns0 root path di es leaf -> es !! leaf = Some i -> walk ns0 root (names path) = Some i.
Proof. intros (ps & -> & Hw & Hdi) He. rewrite walk_app, Hw. cbn. by rewrite Hdi, He. Qed.
Lemma entry_linked ns0 path di es leaf i :
  entry_at ns0 root path di es leaf -> es !! leaf = Some i -> holds ns0 i.
Proof. intros (ps & _ & _ & Hdi) He. right. by exists di, es, leaf. Qed.
Lemma entry_dir ns0 path di es leaf :
  entry_at ns0 root path di es leaf -> ns0 !! di = Some (FDir es).
Proof. by intros (ps & _ & _ & Hdi). Qed.

(** The request a parsed READ comes from. *)
Lemma read_encoded path offset maximum :
  opcode = SQUID_FS_OP_READ -> 6 < zlen request ->
  read_u32 request 1 = Some offset -> rd request 5 = Some maximum ->
  request !! Z.to_nat 6 = Some (zlen path) ->
  path = take (Z.to_nat (zlen request - 6 - 1)) (drop (Z.to_nat (6 + 1)) request) ->
  request = encode (OpRead path offset maximum).
Proof.
  intros Hop Hl Ho Hm H6 Hp. rewrite (counted_path 6 path) by (done || lia).
  apply read_u32_inv in Ho; [|done|done]. apply rd_inv in Hm as (_ & Hm & _).
  clear Hp H6. unfold encode. cbn [op_code]. rewrite <- Ho, <- Hop.
  revert op Hl Hm. generalize request as rq. intros rq Hrq Hl Hm.
  split_cells rq 6%nat. cbn in *. injection Hrq as ->. by injection Hm as ->.
Qed.

(** The last part: [pread] and the answer. *)
Lemma read_answer path offset maximum fd i c s :
  request = encode (OpRead path offset maximum) -> opcode = SQUID_FS_OP_READ ->
  0 <= offset <= zlen c -> zlen c <= UINT32_MAX -> 0 <= maximum -> offset < 4294967296 ->
  walk ns root (names path) = Some i -> ns !! i = Some (FFile c) -> holds ns i ->
  hs !! fd = None -> at_store s ns (<[fd := i]> hs) ->
  wp (let! '(bytes_read, data) := c_pread fd (read_chunk_size cap maximum (zlen c) offset) offset in
      let! response := lift (wr_bytes buf squid_fs_read_header_size data) in
      if bytes_read <? 0 then
        let! e := get_errno in
        do! c_close fd;
        reply opcode (status_from_errno e) response cap
      else
        do! c_close fd;
        lift (
          let? response := wr response 0 (u8 (Z.lor opcode SQUID_FS_RESPONSE_BIT)) in
          let? response := wr response 1 SQUID_FS_STATUS_OK in
          let? response := write_u32 response 2 offset in
          let? response := write_u32 response 6 (u32 (zlen c)) in
          let? response := wr response 10 (u8 bytes_read) in
          Some (response, s32 (squid_fs_read_header_size + bytes_read)))) answered s.
Proof.
  intros Hrq Hop Ho Hc Hm Ho32 Hw Hi Hh Hfd Hat. change squid_fs_read_header_size with 11.
  destruct (read_chunk_bound cap maximum (zlen c) offset) as (Hn1 & Hn2 & Hn3 & Hn4); [lia..|].
  assert (Hpos : read_chunk_size cap maximum (zlen c) offset = 0 -> offset = zlen c).
  { unfold read_chunk_size, squid_fs_read_header_size, UINT8_MAX, UINT32_MAX in *. cbv zeta.
    rewrite !(u64_small (zlen c - offset)) by lia. repeat case_test; lia. }
  set (n := read_chunk_size _ _ _ _) in *. clearbody n.
  apply wp_bind. eapply (wp_pread_st _ _ _ Hat); [by rewrite lookup_insert_eq|done|lia|lia|..].
  { intros s1 Hat1. apply wp_bind. eapply wp_lift; [apply wr_bytes_at; rewrite ?zlen_nil; lia|].
    cbn [Z.ltb Z.compare]. eapply refuse_errno_close; [|done..].
    cbn [app length]. by rewrite drop_0, take_drop. }
  intros data s1 Hpre Hdl Hne Hat1. pose proof (zlen_nonneg data) as Hd0.
  apply wp_bind. eapply wp_lift; [apply wr_bytes_at; lia|].
  destruct (Z.ltb_spec (zlen data) 0); [lia|]. apply wp_bind.
  eapply wp_close_st; [done..|]. intros s2 Hat2.
  pose proof (read_response_eq opcode offset (zlen c) data buf ltac:(lia) ltac:(lia)) as Heq.
  rewrite wr_bytes_at in Heq by lia.
  eapply (ok_st _ (read_body offset (zlen c) data) (11 + zlen data) _ ns); [exact Heq| |
    |exact Hrq|done| |done].
  { unfold read_body. zlen_lia. }
  { cbn. lia. }
  split; [done|]. exists i, c, data. unfold UINT32_MAX in *. split_and!; try done; try lia.
  - intros ->. destruct (Z.eq_dec n 0); [auto|]. destruct (Z.eq_dec offset (zlen c)); [done|].
    destruct Hne; [lia..|done].
  - unfold read_body. by rewrite u32_small, u8_small by lia.
Qed.

Lemma handle_read_st s : opcode = SQUID_FS_OP_READ -> at_store s ns hs ->
  wp (handle_read context opcode request (zlen request) buf cap) answered s.
Proof.
  intros Hop Hat. unfold handle_read. cbv zeta. case_test; [by apply refuse_st|].
  destruct (read_path_request_spec request (zlen request) 6 false) as (ok & p & Hr & Hok);
    [done|lia|done|done|]. apply wp_bind. eapply wp_lift; [exact Hr|].
  destruct ok; cbn [negb]; [|by apply refuse_st].
  destruct (Hok eq_refl) as (path & Hcs & [Hv|[? _]] & Hpath & Hlen & Hoff); [|done].
  assert (Hpb : bytes_ok path) by (rewrite Hpath; auto with squid).
  destruct (Z.ltb_spec cap squid_fs_read_header_size); [unfold squid_fs_read_header_size in *; lia|].
  destruct (read_u32_ok request 1) as (offset & Ho & Hor); [done|lia|lia|].
  destruct (rd_ok request 5) as (maximum & Hm & Hmr); [done|lia|].
  apply wp_bind. eapply wp_lift; [exact Ho|]. apply wp_bind. eapply wp_lift; [exact Hm|].
  apply wp_bind. eapply wp_lift; [exact Hcs|].
  assert (Hrq : request = encode (OpRead path offset maximum)) by (by apply read_encoded).
  apply wp_bind. eapply open_parent_st; [done..| |].
  { intros leaf s1 Hat1. by apply refuse_errno. }
  intros r di es leaf s1 Hr0 Hrn He Hh Hat1. cbn [Z.eqb negb]. apply wp_bind.
  eapply (wp_openat_st _ _ _ Hat1); [done|by rewrite lookup_insert_eq|by eapply entry_dir|..].
  { intros s2 Hat2. by eapply refuse_errno_close. }
  intros fd i ns' s2 Hfd Hfn Ho2 Hat2. destruct (Z.ltb_spec fd 0); [lia|].
  apply opens_read in Ho2 as (-> & Hes & n & Hi). apply wp_bind.
  eapply wp_close_under; [exact Hrn|exact Hfn|done|done|exact Hat2|]. intros s3 Hfn3 Hat3.
  assert (Hhi : holds ns i) by (by eapply entry_linked).
  apply wp_bind. eapply (wp_fstat_st _ _ _ Hat3); [by rewrite lookup_insert_eq|exact Hi|..].
  { intros st s4 Hat4. by eapply refuse_errno_close. }
  intros r' st s4 Hr' Hd Hat4. destruct (Z.eqb_spec r' 0); cbn [negb]; [|by eapply refuse_errno_close].
  destruct n as [c|des|]; cbn in Hd.
  2: { destruct Hd as [_ ->]. by eapply refuse_close. }
  2: { destruct Hd as [-> ->]. by eapply refuse_close. }
  destruct Hd as (-> & -> & ->). cbn [negb]. pose proof (zlen_nonneg c).
  destruct (_ || _) eqn:Esz; [by eapply refuse_close|]. rewrite u64_small in * by lia.
  unfold UINT32_MAX in Esz. assert (Hmin : Z.min (2 ^ 63 - 1) (zlen c) = zlen c) by lia.
  rewrite Hmin in *. destruct (Z.ltb_spec (zlen c) offset); [by eapply refuse_close|].
  eapply read_answer; try done; try lia; [unfold UINT32_MAX; lia|by eapply entry_walk].
Qed.

(** *** WRITE *)

(** Refused after the file was created or emptied. *)
Lemma refuse_failed fop ns' fd i b s status :
  op_range fop -> request = encode fop -> opcode = op_code fop -> fs_failed root fop ns ns' -> 0 < status < 256 ->
  length b = length buf -> hs !! fd = None -> holds ns' i -> at_store s ns' (<[fd := i]> hs) ->
  wp (do! c_close fd; reply opcode status b cap) answered s.
Proof.
  intros Hra Hrq Hop Hf Hst Hb Hfd Hh Hat. apply wp_bind. eapply wp_close_st; [done..|].
  intros s1 Hat1. eapply wp_mono; [by apply reply_bytes|]. intros r s' [-> E].
  exists ns'. rewrite E. split; [done|]. left. exists fop. split_and!; [done|done|]. left. split; [done|].
  rewrite <- Hop. by exists status.
Qed.

Lemma refuse_failed_errno fop ns' fd i b s :
  op_range fop -> request = encode fop -> opcode = op_code fop -> fs_failed root fop ns ns' ->
  length b = length buf -> hs !! fd = None -> holds ns' i -> at_store s ns' (<[fd := i]> hs) ->
  wp (let! e := get_errno in do! c_close fd; reply opcode (status_from_errno e) b cap) answered s.
Proof.
  intros. apply wp_bind, wp_get_errno. eapply refuse_failed; try done. apply status_range.
Qed.

(** A counted field of a request: its bytes and what follows. *)
Lemma counted_field k (field : list Z) :
  0 <= k -> k + 1 + zlen field <= zlen request -> request !! Z.to_nat k = Some (zlen field) ->
  field = take (Z.to_nat (zlen field)) (drop (Z.to_nat (k + 1)) request) ->
  drop (Z.to_nat k) request = [zlen field] ++ field ++ drop (Z.to_nat (k + 1 + zlen field)) request.
Proof.
  intros Hk Hl H1 Hf. erewrite drop_S by exact H1. cbn [app]. f_equal.
  rewrite Hf at 1. pose proof (zlen_nonneg field).
  replace (Z.to_nat (k + 1 + zlen field)) with (S (Z.to_nat k) + Z.to_nat (zlen field))%nat by lia.
  replace (Z.to_nat (k + 1)) with (S (Z.to_nat k)) by lia.
  by rewrite <- drop_drop, take_drop.
Qed.

Lemma write_encoded path offset flags data :
  opcode = SQUID_FS_OP_WRITE -> 7 + zlen path < zlen request ->
  read_u32 request 1 = Some offset -> rd request 5 = Some flags ->
  rd request 6 = Some (zlen path) -> path = take (Z.to_nat (zlen path)) (drop (Z.to_nat 7) request) ->
  rd request (7 + zlen path) = Some (zlen data) -> zlen data = zlen request - (7 + zlen path + 1) ->
  data = take (Z.to_nat (zlen data)) (drop (Z.to_nat (7 + zlen path + 1)) request) ->
  request = encode (OpWrite path offset flags data).
Proof.
  intros Hop Hl Ho Hf Hp Hpath Hd Hdl Hdata. pose proof (zlen_nonneg path). pose proof (zlen_nonneg data).
  apply rd_inv in Hp as (_ & Hp & _). apply rd_inv in Hd as (_ & Hd & _).
  pose proof (counted_field 6 path ltac:(lia) ltac:(lia) Hp Hpath) as E1.
  pose proof (counted_field (7 + zlen path) data ltac:(lia) ltac:(lia) Hd Hdata) as E2.
  replace (6 + 1 + zlen path) with (7 + zlen path) in E1 by lia. rewrite E2 in E1.
  rewrite (drop_ge request (Z.to_nat (7 + zlen path + 1 + zlen data))), app_nil_r in E1
    by (unfold zlen in *; lia).
  apply read_u32_inv in Ho; [|done|done]. apply rd_inv in Hf as (_ & Hf & _).
  unfold encode. cbn [op_code]. rewrite <- Ho, <- Hop.
  rewrite <- (take_drop 6 request) at 1. change (Z.to_nat 6) with 6%nat in E1. rewrite E1.
  clear - op Hf Hl. revert op Hf Hl. generalize request as rq. intros rq Hrq Hf Hl.
  assert (6 <= zlen rq) by (pose proof (zlen_nonneg path); lia). clear Hl.
  split_cells rq 6%nat. cbn in Hrq, Hf. injection Hrq as ->. by injection Hf as ->.
Qed.

Lemma opens_node flags ns0 di es name i ns' :
  ns0 !! di = Some (FDir es) -> has flags O_WRONLY = true -> opens flags ns0 di es name i ns' ->
  exists n, ns' !! i = Some n /\ is_dir n = false.
Proof.
  intros Hdi Hwr [n He Hi _ Hn|_ He Hi].
  - specialize (Hn Hwr). destruct n as [c|d|]; [|done|by exists FOther].
    destruct (has flags O_TRUNC); [|by eexists]. exists (FFile []). by rewrite lookup_insert_eq.
  - exists (FFile []). rewrite lookup_insert_ne by congruence. by rewrite lookup_insert_eq.
Qed.
Lemma write_flags_wronly flags : has (write_flags flags) O_WRONLY = true.
Proof. unfold write_flags. destruct (has flags _), (has flags _); done. Qed.

Lemma opens_holds flags ns0 di es name i ns' x :
  ns0 !! di = Some (FDir es) -> opens flags ns0 di es name i ns' -> holds ns0 x -> holds ns' x.
Proof. intros Hdi Ho [->|Hl]; [by left|right]. by eapply opens_linked. Qed.

(** The part of WRITE after the file is open. *)
Lemma write_answer path offset flags data fd i ns1 s :
  request = encode (OpWrite path offset flags data) -> opcode = SQUID_FS_OP_WRITE ->
  0 <= offset < 4294967296 -> zlen data <= 255 ->
  rd_bytes request (7 + zlen path + 1) (zlen data) = Some data -> bytes_ok data ->
  entered root ns path flags i ns1 -> holds ns1 i -> hs !! fd = None ->
  at_store s ns1 (<[fd := i]> hs) ->
  wp (let! '(result, information) := c_fstat fd in
      if negb (result =? 0) then
        let! e := get_errno in
        do! c_close fd;
        reply opcode (status_from_errno e) buf cap
      else if negb (S_ISREG (st_mode information)) then
        do! c_close fd; reply opcode SQUID_FS_STATUS_ACCESS_DENIED buf cap
      else
        let! data := lift (rd_bytes request (7 + zlen path + 1) (zlen data)) in
        let! bytes_written := c_pwrite fd data offset in
        if bytes_written <? 0 then
          let! e := get_errno in
          do! c_close fd;
          reply opcode (status_from_errno e) buf cap
        else
          do! c_close fd;
          if cap <? 7 then ret (buf, -1)
          else
            lift (
              let? response := wr buf 0 (u8 (Z.lor opcode SQUID_FS_RESPONSE_BIT)) in
              let? response := wr response 1 SQUID_FS_STATUS_OK in
              let? response := write_u32 response 2 offset in
              let? response := wr response 6 (u8 bytes_written) in
              Some (response, 7))) answered s.
Proof.
  intros Hrq Hop Ho Hdl Hrd Hdb He Hh Hfd Hat.
  set (fop := OpWrite path offset flags data) in *.
  assert (Hf : fs_failed root fop ns ns1) by (right; by exists i).
  pose proof He as (di & es & leaf & Hent & Hopen).
  destruct (opens_node _ _ _ _ _ _ _ (entry_dir _ _ _ _ _ Hent) (write_flags_wronly flags) Hopen)
    as (n & Hi & Hnd).
  apply wp_bind. eapply (wp_fstat_st _ _ _ Hat); [by rewrite lookup_insert_eq|exact Hi|..].
  { intros st s1 Hat1. by eapply (refuse_failed_errno fop). }
  intros r st s1 _ Hd Hat1. destruct (r =? 0); cbn [negb].
  2: { by eapply (refuse_failed_errno fop). }
  destruct n as [c|d|]; [|done|].
  2: { destruct Hd as [-> _]. by eapply (refuse_failed fop). }
  destruct Hd as (-> & _). cbn [negb]. apply wp_bind. eapply wp_lift; [exact Hrd|].
  apply wp_bind. eapply (wp_pwrite_st _ _ _ Hat1); [by rewrite lookup_insert_eq|exact Hi|done|lia|..].
  { intros s2 Hat2. cbn [Z.ltb Z.compare]. by eapply (refuse_failed_errno fop). }
  intros w s2 Hw Hat2. destruct (Z.ltb_spec w 0); [lia|]. apply wp_bind.
  eapply wp_close_st; [done|done| |exact Hat2|].
  { destruct Hh as [->|Hl]; [by left|right]. apply linked_file; [congruence|done]. }
  intros s3 Hat3. destruct (Z.ltb_spec cap 7); [lia|].
  eapply (ok_st _ (write_body offset w) 7); [|done| |exact Hrq|done| |exact Hat3]; [|done|].
  - revert cap_ok. generalize buf as b. intros b Hcb. split_cells b 7%nat. reflexivity.
  - exists i, ns1, c, w. split_and!; try done; try lia. unfold write_body. by rewrite u8_small by lia.
Qed.

Lemma handle_write_st s : opcode = SQUID_FS_OP_WRITE -> at_store s ns hs ->
  wp (handle_write context opcode request (zlen request) buf cap) answered s.
Proof.
  intros Hop Hat. unfold handle_write. cbv zeta.
  destruct (Z.eqb_spec (read_only context) 0) as [_|]; cbn [negb]; [|by apply refuse_st].
  destruct (Z.ltb_spec (zlen request) 8); [by apply refuse_st|].
  destruct (read_u32_ok request 1) as (offset & Ho & Hor); [done|lia|lia|].
  destruct (rd_ok request 5) as (flags & Hf & _); [done|lia|].
  destruct (rd_ok request 6) as (psize & Hps & Hpr); [done|lia|].
  apply wp_bind. eapply wp_lift; [exact Ho|]. apply wp_bind. eapply wp_lift; [exact Hf|].
  apply wp_bind. eapply wp_lift; [exact Hps|]. apply wp_bind.
  apply checked_path_spec; [done| |intros p; by apply refuse_st|].
  { intros Hbad. apply orb_false_iff in Hbad as [_ Hbad]. rewrite u64_small in Hbad by lia. lia. }
  intros p path Hbad Hcs Hv Hpb Hpath. cbn [negb].
  apply orb_false_iff in Hbad as [_ Hbad]. rewrite u64_small in Hbad by lia.
  destruct (Z.leb_spec (zlen request) (7 + psize)); [by apply refuse_st|].
  assert (psize = zlen path) as -> by (rewrite Hpath, zlen_take, zlen_drop; lia).
  destruct (rd_ok request (7 + zlen path)) as (dsize & Hds & Hdr); [done|lia|].
  apply wp_bind. eapply wp_lift; [exact Hds|]. rewrite u64_small by lia.
  destruct (Z.eqb_spec dsize (zlen request - (7 + zlen path + 1))) as [Hdeq|]; cbn [negb];
    [|by apply refuse_st].
  pose proof (rd_bytes_ok request (7 + zlen path + 1) dsize request_ok ltac:(lia) ltac:(lia) ltac:(lia)) as Hrd.
  remember (take (Z.to_nat dsize) (drop (Z.to_nat (7 + zlen path + 1)) request)) as data eqn:Hdata.
  assert (Hdb : bytes_ok data) by (rewrite Hdata; auto with squid).
  assert (dsize = zlen data) as -> by (rewrite Hdata, zlen_take, zlen_drop; lia).
  assert (Hrq : request = encode (OpWrite path offset flags data)) by (apply write_encoded; done || lia).
  apply wp_bind. eapply wp_lift; [exact Hcs|].
  apply wp_bind. eapply open_parent_st; [done..| |].
  { intros leaf s1 Hat1. by apply refuse_errno. }
  intros r di es leaf s1 Hr0 Hrn He Hh Hat1. cbn [Z.eqb negb]. apply wp_bind.
  eapply (wp_openat_st _ _ _ Hat1); [apply write_flags_ok|by rewrite lookup_insert_eq|by eapply entry_dir|..].
  { intros s2 Hat2. by eapply refuse_errno_close. }
  intros fd i ns1 s2 Hfd Hfn Ho2 Hat2. destruct (Z.ltb_spec fd 0); [lia|].
  pose proof (entry_dir _ _ _ _ _ He) as Hdi. apply wp_bind.
  eapply wp_close_under; [exact Hrn|exact Hfn|done|exact (opens_holds _ _ _ _ _ _ _ _ Hdi Ho2 Hh)|exact Hat2|].
  intros s3 Hfn3 Hat3.
  apply (write_answer path offset flags data fd i ns1); try done; try lia.
  { exists di, es, leaf. exact (conj He Ho2). }
  right. exact (opens_found _ _ _ _ _ _ _ Hdi Ho2).
Qed.

(** *** MKDIR and DELETE *)

Lemma path_encoded path fop :
  opcode = op_code fop -> encode fop = [op_code fop] ++ [zlen path] ++ path ->
  1 < zlen request -> request !! Z.to_nat 1 = Some (zlen path) ->
  path = take (Z.to_nat (zlen request - 1 - 1)) (drop (Z.to_nat (1 + 1)) request) ->
  request = encode fop.
Proof.
  intros Hop -> Hl H1 Hp. rewrite (counted_path 1 path) by (done || lia).
  destruct request; [done|]. injection op as ->. by rewrite Hop.
Qed.

(** An entry of a directory means that it is not empty. *)
Lemma entry_occupied ns0 di es name i :
  ns0 !! di = Some (FDir es) -> es !! name = Some i -> occupied ns0 di.
Proof. intros. by exists es, name, i. Qed.

Lemma unlinks_holds ns0 di es name ns' :
  ns0 !! di = Some (FDir es) -> unlinks ns0 di es name ns' -> holds ns0 di -> holds ns' di.
Proof.
  intros Hdi Hu [->|Hl]; [by left|right]. eapply unlinks_linked; [done..| |done].
  destruct Hu. by eapply entry_occupied.
Qed.
Lemma makes_holds ns0 di es name ns' :
  ns0 !! di = Some (FDir es) -> makes ns0 di es name ns' -> holds ns0 di -> holds ns' di.
Proof. intros Hdi Hm [->|Hl]; [by left|right]. by eapply makes_linked. Qed.

(** The answer to a request whose call has succeeded. *)
Lemma success_st fop fd di ns' s :
  op_range fop -> request = encode fop -> opcode = op_code fop -> fs_ok root cap fop ns [] ns' ->
  hs !! fd = None -> holds ns' di -> at_store s ns' (<[fd := di]> hs) ->
  wp (do! c_close fd; reply opcode SQUID_FS_STATUS_OK buf cap) answered s.
Proof.
  intros Hra Hrq Hop Hok Hfd Hh Hat. apply wp_bind. eapply wp_close_st; [done..|]. intros s1 Hat1.
  eapply (ok_st _ [] 2); [|done..]. apply write_status_eq. lia.
Qed.

(** MKDIR or DELETE: the system call. *)
Lemma change_entry_st path fop fd di es leaf s :
  (opcode = SQUID_FS_OP_MKDIR /\ fop = OpMkdir path \/ opcode = SQUID_FS_OP_DELETE /\ fop = OpDelete path) ->
  entry_at ns root path di es leaf -> holds ns di -> at_store s ns (<[fd := di]> hs) ->
  wp (if opcode =? SQUID_FS_OP_MKDIR then c_mkdirat fd leaf 511
      else
        let! '(result, information) := c_fstatat fd leaf AT_SYMLINK_NOFOLLOW in
        if result =? 0 then
          c_unlinkat fd leaf (if S_ISDIR (st_mode information) then AT_REMOVEDIR else 0)
        else ret result)
    (fun r s' => (r <> 0 /\ at_store s' ns (<[fd := di]> hs)) \/
       (r = 0 /\ exists ns', fs_ok root cap fop ns [] ns' /\ holds ns' di /\
          at_store s' ns' (<[fd := di]> hs))) s.
Proof.
  intros Hop He Hh Hat. pose proof (entry_dir _ _ _ _ _ He) as Hdi. destruct Hop as [[-> ->]|[-> ->]]; cbn [Z.eqb Pos.eqb SQUID_FS_OP_MKDIR SQUID_FS_OP_DELETE].
  - eapply (wp_mkdirat_st _ _ _ Hat); [by rewrite lookup_insert_eq|exact Hdi|by left|].
    intros ns' s1 Hm Hat1. right. split; [done|]. exists ns'. split_and!; [|by eapply makes_holds|done].
    by exists di, es, leaf.
  - apply wp_bind. eapply (wp_fstatat_st _ _ _ Hat); [by rewrite lookup_insert_eq|exact Hdi|..].
    { intros st s1 Hat1. apply wp_ret. by left. }
    intros r st i n s1 Hr _ _ _ Hat1. destruct (Z.eqb_spec r 0); [|apply wp_ret; by left].
    eapply (wp_unlinkat_st _ _ _ Hat1); [by rewrite lookup_insert_eq|exact Hdi|by left|].
    intros ns' s2 Hu Hat2. right. split; [done|]. exists ns'.
    split_and!; [|by eapply unlinks_holds|done]. by exists di, es, leaf.
Qed.

Lemma handle_mkdir_or_delete_st s :
  opcode = SQUID_FS_OP_MKDIR \/ opcode = SQUID_FS_OP_DELETE -> at_store s ns hs ->
  wp (handle_mkdir_or_delete context opcode request (zlen request) buf cap) answered s.
Proof.
  intros Hop Hat. unfold handle_mkdir_or_delete. cbv zeta. pose proof (zlen_nonneg request).
  destruct (Z.eqb_spec (read_only context) 0) as [_|]; cbn [negb]; [|by apply refuse_st].
  destruct (read_path_request_spec request (zlen request) 1 false) as (ok & p & Hr & Hok);
    [done|lia|done|done|]. apply wp_bind. eapply wp_lift; [exact Hr|].
  destruct ok; cbn [negb]; [|by apply refuse_st].
  destruct (Hok eq_refl) as (path & Hcs & [Hv|[? _]] & Hpath & Hlen & Hoff); [|done].
  assert (Hpb : bytes_ok path) by (rewrite Hpath; auto with squid).
  assert (exists fop, request = encode fop /\ opcode = op_code fop /\
    (opcode = SQUID_FS_OP_MKDIR /\ fop = OpMkdir path \/
     opcode = SQUID_FS_OP_DELETE /\ fop = OpDelete path)) as (fop & Hrq & Hoc & Hcase).
  { destruct Hop as [E|E]; [exists (OpMkdir path)|exists (OpDelete path)];
      (split; [by eapply (path_encoded path)|auto]). }
  apply wp_bind. eapply wp_lift; [exact Hcs|].
  apply wp_bind. eapply open_parent_st; [done..| |].
  { intros leaf s1 Hat1. by apply refuse_errno. }
  intros r di es leaf s1 Hr0 Hrn He Hh Hat1. cbn [Z.eqb negb]. apply wp_bind.
  eapply wp_mono; [by eapply (change_entry_st path fop)|].
  intros r' s2 [[Hne Hat2]|(-> & ns' & Hfs & Hh' & Hat2)].
  - destruct (Z.eqb_spec r' 0); [done|]. cbn [negb]. by eapply refuse_errno_close.
  - cbn [Z.eqb negb]. eapply success_st; try done. by destruct Hcase as [[_ ->]|[_ ->]].
Qed.

(** *** RENAME *)

Lemma rename_encoded old new :
  opcode = SQUID_FS_OP_RENAME -> 2 + zlen old < zlen request ->
  rd request 1 = Some (zlen old) -> old = take (Z.to_nat (zlen old)) (drop (Z.to_nat 2) request) ->
  rd request (2 + zlen old) = Some (zlen new) -> zlen new = zlen request - (2 + zlen old + 1) ->
  new = take (Z.to_nat (zlen new)) (drop (Z.to_nat (2 + zlen old + 1)) request) ->
  request = encode (OpRename old new).
Proof.
  intros Hop Hl Ho Hold Hn Hnl Hnew. pose proof (zlen_nonneg old). pose proof (zlen_nonneg new).
  apply rd_inv in Ho as (_ & Ho & _). apply rd_inv in Hn as (_ & Hn & _).
  pose proof (counted_field 1 old ltac:(lia) ltac:(lia) Ho Hold) as E1.
  pose proof (counted_field (2 + zlen old) new ltac:(lia) ltac:(lia) Hn Hnew) as E2.
  replace (1 + 1 + zlen old) with (2 + zlen old) in E1 by lia. rewrite E2 in E1.
  rewrite (drop_ge request (Z.to_nat (2 + zlen old + 1 + zlen new))), app_nil_r in E1
    by (unfold zlen in *; lia).
  unfold encode. cbn [op_code]. rewrite <- (take_drop 1 request) at 1.
  change (Z.to_nat 1) with 1%nat in E1. rewrite E1.
  destruct request; [done|]. injection op as ->. by rewrite Hop.
Qed.

Lemma moves_holds ns0 odi oes ol ndi nes nl ns' x :
  ns0 !! odi = Some (FDir oes) -> ns0 !! ndi = Some (FDir nes) ->
  moves ns0 odi oes ol ndi nes nl ns' -> occupied ns0 x -> holds ns0 x -> holds ns' x.
Proof.
  intros Ho Hn Hm Hox [->|Hl]; [by left|right].
  exact (moves_linked _ _ _ _ _ _ _ _ _ Ho Hn Hm Hox Hl).
Qed.

(** The target directory of a rename holds after it: when it has no entries no
    name of it is taken. *)
Lemma moves_target ns0 odi oes ol ndi nes nl ns' :
  ns0 !! odi = Some (FDir oes) -> ns0 !! ndi = Some (FDir nes) ->
  moves ns0 odi oes ol ndi nes nl ns' -> holds ns0 ndi -> holds ns' ndi.
Proof.
  intros Ho Hn Hm [->|Hl]; [by left|right].
  destruct Hm as [i He He'|i es He He' Hes|i j n es ns'' He He' Hne Hj Hr Hes Hrel].
  - done.
  - destruct (decide (ndi = i)) as [->|Hd]; [apply linked_new|].
    apply linked_over; [done| |eapply linked_delete; [exact Ho|exact He|congruence|done]].
    intros j Hj. pose proof (moved_entries _ _ _ _ _ _ _ _ _ Ho Hn Hes Hj). congruence.
  - eapply moves_linked; [exact Ho|exact Hn|exact (moves_over _ _ _ _ _ _ _ _ _ _ _ _ He He' Hne Hj Hr Hes Hrel)|by exists nes, nl, j|done].
Qed.

Lemma rename_answer old new op_ odi oes ol np ndi nes nl s :
  request = encode (OpRename old new) -> opcode = SQUID_FS_OP_RENAME ->
  entry_at ns root old odi oes ol -> entry_at ns root new ndi nes nl ->
  holds ns odi -> holds ns ndi -> hs !! op_ = None -> (<[op_ := odi]> hs : gmap Z Z) !! np = None ->
  at_store s ns (<[np := ndi]> (<[op_ := odi]> hs)) ->
  wp (let! result := c_renameat op_ ol np nl in
      if negb (result =? 0) then
        let! e := get_errno in
        do! c_close op_;
        do! c_close np;
        reply opcode (status_from_errno e) buf cap
      else
        do! c_close op_;
        do! c_close np;
        reply opcode SQUID_FS_STATUS_OK buf cap) answered s.
Proof.
  intros Hrq Hop Heo Hen Hho Hhn Hon Hnn Hat.
  pose proof (entry_dir _ _ _ _ _ Heo) as Hod. pose proof (entry_dir _ _ _ _ _ Hen) as Hnd.
  apply wp_bind. eapply (wp_renameat_st _ _ _ Hat _ odi oes _ _ ndi nes);
    [|done|by rewrite lookup_insert_eq|done|..].
  { rewrite lookup_insert_ne; [by rewrite lookup_insert_eq|]. intros ->. by rewrite lookup_insert_eq in Hnn. }
  - intros s1 Hat1. cbn [Z.eqb negb]. apply wp_bind, wp_get_errno, wp_bind.
    eapply wp_close_under; [exact Hon|exact Hnn|done|exact Hho|exact Hat1|]. intros s2 Hnn2 Hat2.
    eapply refuse_close; [apply status_range|done..].
  - intros ns' s1 Hm Hat1. cbn [Z.eqb negb]. apply wp_bind.
    eapply wp_close_under; [exact Hon|exact Hnn|done| |exact Hat1|].
    { eapply moves_holds; [exact Hod|exact Hnd|exact Hm| |done].
      by destruct Hm; eapply entry_occupied. }
    intros s2 Hnn2 Hat2. eapply (success_st (OpRename old new)); [done|done|done| |done| |exact Hat2].
    + exists odi, oes, ol, ndi, nes, nl. split_and!; done.
    + exact (moves_target _ _ _ _ _ _ _ _ Hod Hnd Hm Hhn).
Qed.

Lemma handle_rename_st s : opcode = SQUID_FS_OP_RENAME -> at_store s ns hs ->
  wp (handle_rename context opcode request (zlen request) buf cap) answered s.
Proof.
  intros Hop Hat. unfold handle_rename. cbv zeta.
  destruct (Z.eqb_spec (read_only context) 0) as [_|]; cbn [negb]; [|by apply refuse_st].
  destruct (Z.ltb_spec (zlen request) 4); [by apply refuse_st|].
  destruct (rd_ok request 1) as (osize & Hos & Hor); [done|lia|].
  apply wp_bind. eapply wp_lift; [exact Hos|]. apply wp_bind.
  apply checked_path_spec; [done| |intros p; by apply refuse_st|].
  { intros Hbad. rewrite u64_small in Hbad by lia. lia. }
  intros p old Hbad Hcs Hv Hpb Hold. rewrite u64_small in Hbad by lia. cbn [negb].
  destruct (Z.leb_spec (zlen request) (2 + osize)); [by apply refuse_st|].
  assert (osize = zlen old) as -> by (rewrite Hold, zlen_take, zlen_drop; lia).
  destruct (rd_ok request (2 + zlen old)) as (nsize & Hns & Hnr); [done|lia|].
  apply wp_bind. eapply wp_lift; [exact Hns|]. apply wp_bind.
  apply checked_path_spec; [done| |intros p'; by apply refuse_st|].
  { intros Hb2. rewrite u64_small in Hb2 by lia. lia. }
  intros p2 new Hbad2 Hcs2 Hv2 Hpb2 Hnew. rewrite u64_small in Hbad2 by lia. cbn [negb].
  assert (nsize = zlen new) as -> by (rewrite Hnew, zlen_take, zlen_drop; lia).
  assert (Hrq : request = encode (OpRename old new)) by (apply rename_encoded; done || lia).
  apply wp_bind. eapply wp_lift; [exact Hcs|].
  apply wp_bind. eapply open_parent_st; [done..| |].
  { intros leaf s1 Hat1. cbn [Z.eqb negb]. apply wp_bind, wp_ret. cbn [Z.eqb negb].
    apply wp_bind, wp_get_errno, wp_bind, wp_ret, wp_bind, wp_ret.
    apply refuse_st; [apply status_range|done..]. }
  intros fo odi oes ol s1 Hfo Hon Heo Hho Hat1. cbn [Z.eqb negb]. apply wp_bind, wp_bind.
  eapply wp_lift; [exact Hcs2|]. eapply open_parent_st; [done|done|by apply base_insert|done|exact Hat1|..].
  { intros leaf s2 Hat2. cbn [Z.eqb negb]. apply wp_bind, wp_get_errno.
    destruct (Z.leb_spec 0 fo); [|lia]. apply wp_bind. eapply wp_close_st; [done..|]. intros s3 Hat3.
    apply wp_bind, wp_ret. apply refuse_st; [apply status_range|done..]. }
  intros fn ndi nes nl s2 Hfn Hnn Hen Hhn Hat2. cbn [Z.eqb negb].
  by eapply rename_answer.
Qed.

(** *** LIST and CAPABILITIES change nothing *)

(** Any answer, with the files as they were. *)
Definition unchanged (r : list Z * Z) (s : os W) : Prop := at_store s ns hs.

Lemma reply_unchanged status b s : at_store s ns hs -> length b = length buf ->
  wp (reply opcode status b cap) unchanged s.
Proof. intros Hat Hb. eapply wp_mono; [by apply reply_bytes|]. by intros r s' [-> _]. Qed.

(** Leaving the loop with an answer. *)
Lemma list_leave fd di st b s Q :
  length b = length buf -> hs !! fd = None -> holds ns di -> at_store s ns (<[fd := di]> hs) ->
  (forall b' n s', at_store s' ns hs -> Q (list_return b' n) s') ->
  wp (do! c_closedir fd;
      let! '(response, result) := reply opcode st b cap in ret (list_return response result)) Q s.
Proof.
  intros Hb Hfd Hh Hat HQ. apply wp_bind. eapply wp_closedir_st; [done..|]. intros s2 Hat2.
  apply wp_bind. eapply wp_mono; [by apply reply_unchanged|]. intros [b2 n2] s3 Hat3.
  apply wp_ret. by apply HQ.
Qed.
Lemma list_leave_errno fd di b s Q :
  length b = length buf -> hs !! fd = None -> holds ns di -> at_store s ns (<[fd := di]> hs) ->
  (forall b' n s', at_store s' ns hs -> Q (list_return b' n) s') ->
  wp (do! c_closedir fd;
      let! e := get_errno in
      let! '(response, result) := reply opcode (status_from_errno e) b cap in
      ret (list_return response result)) Q s.
Proof.
  intros Hb Hfd Hh Hat HQ. apply wp_bind. eapply wp_closedir_st; [done..|]. intros s2 Hat2.
  apply wp_bind, wp_get_errno, wp_bind. eapply wp_mono; [by apply reply_unchanged|].
  intros [b2 n2] s3 Hat3. apply wp_ret. by apply HQ.
Qed.

Lemma list_loop_st fd di es cursor names_ : forall entry_index entry_count out b s Q,
  Forall entry_name names_ -> 5 <= out <= cap -> length b = length buf ->
  hs !! fd = None -> holds ns di -> ns !! di = Some (FDir es) -> at_store s ns (<[fd := di]> hs) ->
  (forall b' n s', at_store s' ns hs -> Q (list_return b' n) s') ->
  (forall e c o b' s', length b' = length buf -> 5 <= o <= cap ->
     at_store s' ns (<[fd := di]> hs) -> Q (list_end c o b') s' /\ Q (list_full e c o b') s') ->
  wp (list_loop fd opcode cursor cap names_ entry_index entry_count out b) Q s.
Proof.
  induction names_ as [|n names_ IH]; intros ei ec out b s Q Hn Ho Hb Hfd Hh Hdi Hat HQ1 HQ2;
    cbn [list_loop].
  { apply wp_ret. by apply (HQ2 0). }
  apply Forall_cons_1 in Hn as [Hn Hns].
  destruct (is_dot_entry n); [by apply IH|]. case_test; [by apply IH|]. cbv zeta.
  destruct (_ || _) eqn:Elen; [by eapply list_leave|]. apply wp_bind.
  eapply (wp_fstatat_st _ _ _ Hat); [by rewrite lookup_insert_eq|exact Hdi|..].
  { intros st s1 Hat1. by eapply list_leave_errno. }
  intros r st i nd s1 _ _ _ _ Hat1. destruct (r =? 0); cbn [negb]; [|by eapply list_leave_errno].
  rewrite (u64_small (cap - out)) by lia.
  destruct (Z.ltb_spec (cap - out) (6 + zlen n)) as [Hfull|Hroom].
  { destruct (ec =? 0); [by eapply list_leave|by apply wp_ret, (HQ2 ei)]. }
  apply wp_bind. eapply wp_lift.
  { apply make_record_eq; [|lia]. destruct Hn as [_ Hn].
    eapply Forall_impl; [exact Hn|]. unfold is_byte. cbn. lia. }
  pose proof (list_record_len st n) as Hrl. pose proof (zlen_nonneg n).
  assert (Hbl : zlen b = zlen buf) by (unfold zlen; lia).
  apply wp_bind. eapply wp_lift; [apply wr_bytes_at; lia|].
  apply IH; try done; [lia|].
  rewrite !length_app, length_take, !length_drop. unfold zlen in *. lia.
Qed.

Lemma finish_page_st next count out b s : length b = length buf -> 5 <= out <= cap ->
  at_store s ns hs -> wp (finish_page opcode next count out b) unchanged s.
Proof.
  intros Hb Ho Hat. unfold finish_page. assert (Hbl : zlen b = zlen buf) by (unfold zlen; lia).
  split_cells b 5%nat. by eapply wp_lift.
Qed.

Lemma wp_fdopendir_names fd i s Q : hs !! fd = None -> at_store s ns (<[fd := i]> hs) ->
  (forall s', at_store s' ns (<[fd := i]> hs) -> Q None s') ->
  (forall d s', Forall entry_name (ds_names d) -> at_store s' ns (<[fd := i]> hs) -> Q (Some d) s') ->
  wp (c_fdopendir fd) Q s.
Proof.
  intros Hfd Hat HQ1 HQ2.
  eapply wp_mono; [apply (wp_pc _ (fun _ s' => at_store s' ns (<[fd := i]> hs))
    (fun d _ => match d with Some d => Forall entry_name (ds_names d) | None => True end))|].
  - eapply (wp_fdopendir_st _ _ _ Hat); [by rewrite lookup_insert_eq|done].
  - intros d s'. unfold c_fdopendir. pose proof (readdir_names fd (world s)) as Hn.
    destruct (sys_fdopendir fd (world s)) as [[r d'] w']. destruct (r <? 0); by intros [= <- _].
  - intros [d|] s' [Hat' Hn]; auto.
Qed.

Lemma handle_list_st s : at_store s ns hs ->
  wp (handle_list context opcode request (zlen request) buf cap) unchanged s.
Proof.
  intros Hat. unfold handle_list. pose proof (zlen_nonneg request).
  case_test; [by apply reply_unchanged|].
  destruct (read_path_request_spec request (zlen request) 3 true) as (ok & p & Hr & Hok);
    [done|lia|done|done|]. apply wp_bind. eapply wp_lift; [exact Hr|].
  destruct ok; cbn [negb]; [|by apply reply_unchanged].
  destruct (Hok eq_refl) as (path & Hcs & Hv & Hpath & _).
  assert (Hpb : bytes_ok path) by (rewrite Hpath; auto with squid).
  destruct (read_u16_ok request 1) as (cursor & Hcur & _); [done|lia|lia|].
  apply wp_bind. eapply wp_lift; [exact Hcur|].
  destruct (_ || _) eqn:Ecap; [by apply reply_unchanged|]. unfold squid_fs_page_header_size in *.
  apply wp_bind. eapply wp_lift; [exact Hcs|].
  apply wp_bind. eapply open_directory_st; [done|tauto|done..| |].
  { intros s1 Hat1. cbn [Z.ltb Z.compare]. apply wp_bind, wp_get_errno. by apply reply_unchanged. }
  intros fd di es s1 Hfd Hfn _ Hh Hdi Hat1. destruct (Z.ltb_spec fd 0); [lia|].
  apply wp_bind. eapply (wp_fdopendir_names fd di); [done|exact Hat1|..].
  { intros s2 Hat2. apply wp_bind, wp_get_errno, wp_bind. eapply wp_close_st; [done..|].
    intros s3 Hat3. by apply reply_unchanged. }
  intros d s2 Hd Hat2. apply wp_bind. eapply (wp_set_errno_st _ _ _ Hat2). intros s3 Hat3.
  apply wp_bind. eapply list_loop_st; [done|lia|done|done|done|exact Hdi|exact Hat3|by intros; apply wp_ret|].
  intros e c o b' s4 Hlb Ho Hat4. split.
  - apply wp_bind. eapply (wp_mono _ (fun _ s' => at_store s' ns (<[fd := di]> hs))).
    { destruct (_ =? 0); [by apply wp_ret|]. by eapply (wp_set_errno_st _ _ _ Hat4). }
    intros [] s5 Hat5. apply wp_bind, wp_get_errno, wp_bind. eapply wp_closedir_st; [done..|].
    intros s6 Hat6. case_test; [by apply reply_unchanged|by apply finish_page_st].
  - apply wp_bind. eapply wp_closedir_st; [done..|]. intros s6 Hat6. by apply finish_page_st.
Qed.

Lemma unchanged_answered r s : opcode = SQUID_FS_OP_CAPABILITIES \/ opcode = SQUID_FS_OP_LIST ->
  unchanged r s -> answered r s.
Proof.
  intros Hop Hat. exists ns. split; [done|]. right. split; [done|]. exists opcode. split; [done|]. by right.
Qed.

Lemma handle_capabilities_st s : at_store s ns hs ->
  wp (Filesystem.handle_capabilities context opcode buf cap) unchanged s.
Proof.
  intros Hat. unfold Filesystem.handle_capabilities. cbv zeta.
  destruct (Z.ltb_spec cap 9); [lia|]. set (f := if read_only context =? 0 then _ else _).
  set (m := if _ <? cap then _ else _). clearbody f m.
  revert cap_ok. generalize buf as b. intros b Hb. split_cells b 9%nat. by eapply wp_lift.
Qed.

Lemma fs_dispatch_st s : at_store s ns hs ->
  wp (handle_squid_fs_request (Some context) (Some request) (zlen request) (Some buf) cap) answered s.
Proof.
  intros Hat. unfold handle_squid_fs_request.
  assert (0 < zlen request) by (destruct request; [done|rewrite zlen_cons; pose proof (zlen_nonneg l); lia]).
  destruct based as [Hr0 _]. destruct (_ || _) eqn:E; [lia|].
  apply wp_bind. eapply wp_lift; [eapply rd_Some; [done|exact op|eapply bytes_ok_lookup; done]|].
  assert (Hbad : wp (reply opcode SQUID_FS_STATUS_BAD_REQUEST buf cap) answered s) by (by apply refuse_st).
  repeat case_test; try exact Hbad;
    repeat match goal with
    | E : (_ =? _) = true |- _ => apply Z.eqb_eq in E
    | E : (_ || _) = true |- _ => apply orb_true_iff in E as [E|E]
    end;
    auto using handle_stat_st, handle_read_st, handle_write_st, handle_mkdir_or_delete_st,
      handle_rename_st.
  - eapply wp_mono; [by apply handle_capabilities_st|]. intros. apply unchanged_answered; auto.
  - eapply wp_mono; [by apply handle_list_st|]. intros. apply unchanged_answered; auto.
Qed.
End handlers.
End calls.
