(* ===== verification/FsSession.v ===== *)
(** Sessions of the filesystem service on the store of FsStore.v: a file that
    was written is read back. *)
From stdpp Require Import base numbers list option gmap.
From Stdlib Require Import ZArith Lia.
From S2P Require Import Prelude CLib Wire Posix Filesystem FsPath FsTrace FsSafety FsStore FsRefine.

Local Open Scope Z_scope.
Local Open Scope squid_scope.

(** ** The root stays a directory *)

Lemma walk_occupied ns root parents leaf di es i :
  walk ns root parents = Some di -> ns !! di = Some (FDir es) -> es !! leaf = Some i ->
  occupied ns root.
Proof.
  destruct parents as [|n ps]; cbn [walk].
  - intros [= <-] Hd He. by exists es, leaf, i.
  - destruct (ns !! root) as [[c|res|]|] eqn:E; try done.
    destruct (res !! n) as [j|] eqn:En; [|done]. intros _ _ _. by exists res, n, j.
Qed.

Definition root_ok (ns : gmap Z fnode) (root : Z) : Prop := exists res, ns !! root = Some (FDir res).

Lemma root_insert_dir ns root di es : root_ok ns root -> root_ok (<[di := FDir es]> ns) root.
Proof.
  intros [res Hr]. destruct (decide (di = root)) as [->|Hne].
  - exists es. by rewrite lookup_insert_eq.
  - exists res. by rewrite lookup_insert_ne.
Qed.
Lemma root_insert_other ns root i n :
  (forall es, ns !! i <> Some (FDir es)) -> root_ok ns root -> root_ok (<[i := n]> ns) root.
Proof.
  intros Hi [res Hr]. exists res. rewrite lookup_insert_ne; [done|]. intros ->. by apply (Hi res).
Qed.
Lemma root_released ns ns' root i :
  i <> root -> root_ok ns root -> released i ns ns' -> root_ok ns' root.
Proof. intros Hne [res Hr] [->|[_ ->]]; exists res; [done|]. by rewrite lookup_delete_ne. Qed.

Lemma root_opens flags ns di es name i ns' root :
  opens flags ns di es name i ns' -> root_ok ns root -> root_ok ns' root.
Proof.
  intros [n He Hi _ _|_ He Hi] Hr.
  - destruct n; try done. destruct (has flags O_TRUNC); [|done]. apply root_insert_other; [congruence|done].
  - apply root_insert_dir, root_insert_other; [congruence|done].
Qed.

Lemma root_step root cap fop ns reply ns' :
  root_ok ns root -> fs_step root cap fop ns reply ns' -> root_ok ns' root.
Proof.
  intros Hr [[[->|Hf] _]|(body & Hok & _)]; [done| |].
  { destruct fop; try done. destruct Hf as (i & di & es & leaf & _ & Ho). by eapply root_opens. }
  destruct fop as [p|p o m|p o f d|p|p|o n]; cbn in Hok.
  - by destruct Hok as [-> _].
  - by destruct Hok as [-> _].
  - destruct Hok as (i & ns1 & c & w & (di & es & leaf & _ & Ho) & Hi & _ & -> & _).
    apply root_insert_other; [congruence|]. by eapply root_opens.
  - destruct Hok as (di & es & leaf & _ & [i He Hi] & _).
    apply root_insert_dir, root_insert_other; [congruence|done].
  - destruct Hok as (di & es & leaf & (ps & _ & Hw & Hdi) & [i n ns'' He Hi Hrm Hrel] & _).
    eapply root_released; [|by apply root_insert_dir|exact Hrel].
    eapply occupied_ne; [exact Hi|exact Hrm|]. by eapply walk_occupied.
  - destruct Hok as (odi & oes & ol & ndi & nes & nl & (ps & _ & Hw & Hdi) & _ & Hm & _).
    destruct Hm as [|i es He _ _|i j n' es ns'' He _ _ Hj Hrm _ Hrel]; [done|by apply root_insert_dir, root_insert_dir|].
    eapply root_released; [|by apply root_insert_dir, root_insert_dir|exact Hrel].
    eapply occupied_ne; [exact Hj|exact Hrm|]. by eapply walk_occupied.
Qed.
Lemma root_served root cap request ns reply ns' :
  root_ok ns root -> served root cap request ns reply ns' -> root_ok ns' root.
Proof. intros Hr [(fop & _ & _ & Hs)|[-> _]]; [by eapply root_step|done]. Qed.

(** ** Files *)

Definition file_at (ns : gmap Z fnode) (root : Z) (path c : list Z) : Prop :=
  exists i, walk ns root (names path) = Some i /\ ns !! i = Some (FFile c).

(** Changing a file leaves every path as it was. *)
Lemma walk_file ns i n : (forall es, ns !! i <> Some (FDir es)) -> (forall es, n <> FDir es) ->
  forall path x, walk (<[i := n]> ns) x path = walk ns x path.
Proof.
  intros Hi Hn. induction path as [|name path IH]; intros x; [done|]. cbn [walk].
  destruct (decide (i = x)) as [->|Hne].
  - rewrite lookup_insert_eq. destruct n as [c|es|]; [|by destruct (Hn es)|];
      (destruct (ns !! x) as [[c'|es'|]|] eqn:E; try done; by destruct (Hi es')).
  - rewrite lookup_insert_ne by done. destruct (ns !! x) as [[c|es|]|]; try done.
    destruct (es !! name); [apply IH|done].
Qed.
(** A new entry breaks no path. *)
Lemma walk_entry ns di es name i : ns !! di = Some (FDir es) -> es !! name = None ->
  forall path x y, walk ns x path = Some y -> walk (<[di := FDir (<[name := i]> es)]> ns) x path = Some y.
Proof.
  intros Hdi Hn. induction path as [|n path IH]; intros x y; [done|]. cbn [walk].
  destruct (decide (di = x)) as [<-|Hne].
  - rewrite Hdi, lookup_insert_eq. destruct (es !! n) as [j|] eqn:E; [|done].
    rewrite lookup_insert_ne, E by congruence. apply IH.
  - rewrite lookup_insert_ne by done. destruct (ns !! x) as [[c|es'|]|]; try done.
    destruct (es' !! n); [apply IH|done].
Qed.

Lemma entry_at_walk ns root path di es leaf i :
  entry_at ns root path di es leaf -> es !! leaf = Some i -> walk ns root (names path) = Some i.
Proof. intros (ps & -> & Hw & Hdi) He. rewrite walk_app, Hw. cbn. by rewrite Hdi, He. Qed.
Lemma entry_at_found ns root path di es leaf i :
  entry_at ns root path di es leaf -> walk ns root (names path) = Some i -> es !! leaf = Some i.
Proof.
  intros (ps & -> & Hw & Hdi). rewrite walk_app, Hw. cbn. rewrite Hdi. by destruct (es !! leaf).
Qed.

(** A file opened for writing is at its path. *)
Lemma entered_walk root ns path flags i ns1 :
  entered root ns path flags i ns1 -> walk ns1 root (names path) = Some i.
Proof.
  intros (di & es & leaf & He & Ho). pose proof He as (ps & Hn & Hw & Hdi).
  destruct Ho as [n Hl Hi _ _|_ Hl Hi].
  - pose proof (entry_at_walk _ _ _ _ _ _ _ He Hl). destruct n; try done.
    destruct (has _ O_TRUNC); [|done]. rewrite walk_file; [done|congruence|done].
  - assert (Hne : i <> di) by congruence.
    rewrite Hn, walk_app. erewrite (walk_entry _ di es leaf i); [| |done|].
    + cbn [walk]. by rewrite !lookup_insert_eq.
    + by rewrite lookup_insert_ne.
    + rewrite walk_file; [exact Hw|congruence|done].
Qed.

Lemma entered_empty root ns path flags i ns1 c :
  has (write_flags flags) O_TRUNC = true -> entered root ns path flags i ns1 ->
  ns1 !! i = Some (FFile c) -> c = [].
Proof.
  intros Ht (di & es & leaf & (ps & _ & _ & Hdi) & Ho). destruct Ho as [n Hl Hi _ _|_ Hl Hi].
  - destruct n as [c'|es'|]; [rewrite Ht, lookup_insert_eq|rewrite Hi|rewrite Hi]; by intros [= <-].
  - rewrite lookup_insert_ne, lookup_insert_eq by congruence. by intros [= <-].
Qed.
Lemma entered_kept root ns path flags i ns1 :
  has (write_flags flags) O_TRUNC = false -> has (write_flags flags) O_CREAT = false ->
  entered root ns path flags i ns1 -> ns1 = ns /\ walk ns root (names path) = Some i.
Proof.
  intros Ht Hc (di & es & leaf & He & Ho). destruct Ho as [n Hl Hi _ _|Hc' _ _]; [|congruence].
  split; [destruct n; [by rewrite Ht|done..]|by eapply entry_at_walk].
Qed.

Lemma patch_first data : patch [] 0 data = data.
Proof. destruct data; [done|]. cbn. by rewrite app_nil_r. Qed.
Lemma patch_append c data : patch c (zlen c) data = c ++ data.
Proof.
  destruct data as [|x data]; [by rewrite app_nil_r|]. unfold patch, zlen. rewrite Nat2Z.id, firstn_all, Nat.sub_diag.
  cbn [replicate app]. rewrite drop_ge by lia. by rewrite app_nil_r.
Qed.

(** ** Requests and answers *)

Lemma le32_inj a b : 0 <= a < 4294967296 -> 0 <= b < 4294967296 -> le32 a = le32 b -> a = b.
Proof.
  intros Ha Hb E. rewrite <- (of_le32_le32 a), <- (of_le32_le32 b) by done.
  unfold le32 in E. injection E as E1 E2 E3 E4. by rewrite E1, E2, E3, E4.
Qed.

Lemma counted_inj (p q p' q' : list Z) :
  [zlen p] ++ p ++ q = [zlen p'] ++ p' ++ q' -> p = p' /\ q = q'.
Proof.
  intros E. injection E as El E. apply (app_inj_1 p p'); [|done]. unfold zlen in El. lia.
Qed.

(** A request in one of the formats is read as what it was made from. *)
Lemma encode_inj a b : op_range a -> op_range b -> encode a = encode b -> a = b.
Proof.
  destruct a as [p|p o m|p o f d|p|p|o n], b as [p'|p' o' m'|p' o' f' d'|p'|p'|o' n'];
    try (intros _ _ E; discriminate E); cbn [op_range]; intros Ha Hb E; unfold encode in E; cbn [op_code] in E.
  - injection E as _ ->. done.
  - apply app_inj_1 in E as [_ E]; [|done]. apply app_inj_1 in E as [E1 E]; [|done].
    injection E as -> _ ->. by rewrite (le32_inj o o').
  - apply app_inj_1 in E as [_ E]; [|done]. apply app_inj_1 in E as [E1 E]; [|done].
    injection E as -> E2 E. destruct (counted_inj p ([zlen d] ++ d) p' ([zlen d'] ++ d')) as [-> E3].
    { cbn [app]. by rewrite E2, E. }
    injection E3 as _ ->. by rewrite (le32_inj o o').
  - injection E as _ ->. done.
  - injection E as _ ->. done.
  - apply app_inj_1 in E as [_ E]; [|done]. apply counted_inj in E as [-> E]. injection E as _ ->. done.
Qed.

Lemma served_step root cap fop ns reply ns' : op_range fop ->
  served root cap (encode fop) ns reply ns' -> fs_step root cap fop ns reply ns'.
Proof.
  intros Hr [(fop' & Hr' & E & Hs)|(-> & opcode & Hop & Hans)].
  - by rewrite (encode_inj fop fop').
  - assert (opcode = op_code fop) as -> by (injection Hop as <-; done). left. split; [by left|].
    destruct Hans as [Href|[E|E]]; [done|by destruct fop..].
Qed.

(** The answers to a WRITE of all its data, and to a READ. *)
Definition written_answer (offset : Z) (data : list Z) : list Z :=
  header SQUID_FS_OP_WRITE 0 ++ le32 offset ++ [zlen data].
Definition read_answer (content : list Z) (offset : Z) (data : list Z) : list Z :=
  header SQUID_FS_OP_READ 0 ++ le32 offset ++ le32 (zlen content) ++ [zlen data] ++ data.

Lemma write_step_inv root cap path offset flags data ns ns' :
  fs_step root cap (OpWrite path offset flags data) ns (written_answer offset data) ns' ->
  exists i ns1 c, entered root ns path flags i ns1 /\ ns1 !! i = Some (FFile c) /\
    ns' = <[i := FFile (patch c offset data)]> ns1.
Proof.
  intros [[_ (st & Hst & E)]|(body & Hok & E)]; [done|].
  destruct Hok as (i & ns1 & c & w & He & Hi & Hw & -> & ->). exists i, ns1, c. split_and!; [done..|].
  unfold written_answer in E. cbn [op_code] in E. apply app_inv_head, app_inv_head in E.
  injection E as <-. rewrite take_ge; [done|]. unfold zlen. lia.
Qed.

Lemma write_new root cap path flags data ns ns' :
  has (write_flags flags) O_TRUNC = true ->
  fs_step root cap (OpWrite path 0 flags data) ns (written_answer 0 data) ns' ->
  file_at ns' root path data.
Proof.
  intros Ht Hs. apply write_step_inv in Hs as (i & ns1 & c & He & Hi & ->).
  rewrite (entered_empty _ _ _ _ _ _ _ Ht He Hi), patch_first. exists i. rewrite lookup_insert_eq.
  rewrite walk_file; [|congruence|done]. split; [by eapply entered_walk|done].
Qed.
Lemma write_more root cap path c data ns ns' :
  file_at ns root path c ->
  fs_step root cap (OpWrite path (zlen c) 0 data) ns (written_answer (zlen c) data) ns' ->
  file_at ns' root path (c ++ data).
Proof.
  intros (i & Hw & Hi) Hs. apply write_step_inv in Hs as (j & ns1 & c' & He & Hj & ->).
  apply entered_kept in He as [-> Hwj]; [|done|done]. assert (j = i) as -> by congruence.
  assert (c' = c) as -> by congruence. rewrite patch_append. exists i. rewrite lookup_insert_eq.
  by rewrite walk_file by congruence.
Qed.
Lemma read_written root cap path c offset maximum ns reply ns' :
  file_at ns root path c -> fs_step root cap (OpRead path offset maximum) ns reply ns' ->
  refused SQUID_FS_OP_READ reply \/
  exists data, reply = read_answer c offset data /\ data `prefix_of` drop (Z.to_nat offset) c /\
    (data = [] -> offset = zlen c).
Proof.
  intros (i & Hw & Hi) [[_ Hr]|(body & Hok & ->)]; [by left|right].
  destruct Hok as (_ & j & c' & data & Hwj & Hj & _ & Hp & He & _ & _ & ->).
  assert (j = i) as -> by congruence. assert (c' = c) as -> by congruence. by exists data.
Qed.

(** ** Sessions *)

Section sessions.
Context {W : Type} {PX : Posix W} (view : W -> store) (sound : W -> Prop)
  {FK : FileKernel W view sound} {PL : PosixLaws W}.
Context (context : squid_fs_context) (root : Z) (hs : gmap Z Z) (cap : Z).
Context (based : base context root hs) (cap_ok : 13 <= cap) (cap_int : cap < 2 ^ 31).

Lemma fs_request_served request buf ns (s : os W) :
  bytes_ok request -> 0 < zlen request < 2 ^ 63 -> cap <= zlen buf ->
  root_ok ns root -> at_store view sound s ns hs ->
  wp (handle_squid_fs_request (Some context) (Some request) (zlen request) (Some buf) cap)
    (fun r s' => (length r.1 = length buf /\ r.2 <= cap) /\ exists ns', at_store view sound s' ns' hs /\
       served root cap request ns (take (Z.to_nat r.2) r.1) ns') s.
Proof.
  intros Hb Hsz Hcap [res Hr] Hat.
  destruct request as [|opcode rq] eqn:E; [unfold zlen in Hsz; cbn in Hsz; lia|]. rewrite <- E in *.
  assert (Hop : request !! O = Some opcode) by (by rewrite E). pose proof based as [Hr0 _].
  apply wp_and.
  - eapply wp_mono; [apply (fs_dispatch_spec s context opcode cap buf); try done; try lia; apply progress_refl|].
    intros r s' [[Hl Hn] _]. split; [done|lia].
  - apply (fs_dispatch_st view sound context root ns hs res request opcode); done || lia.
Qed.

(** C3. The filesystem service implements its store: for every request and
    response array, in every state of a kernel that behaves as documented, the
    handler returns with the same descriptors open as before, and the files
    below the root and the answer are related as the store says.  A request in
    a documented format is a step (STAT, READ, WRITE, MKDIR, DELETE, RENAME on
    the inode its path names, with the answer in the documented format, or a
    refusal that changes nothing except that WRITE may have created or emptied
    its file); LIST and CAPABILITIES change nothing; any other request is
    refused and changes nothing. *)
Theorem fs_refines_store request buf ns (s : os W) :
  bytes_ok request -> 0 < zlen request < 2 ^ 63 -> cap <= zlen buf ->
  root_ok ns root -> at_store view sound s ns hs ->
  wp (handle_squid_fs_request (Some context) (Some request) (zlen request) (Some buf) cap)
    (fun r s' => exists ns', at_store view sound s' ns' hs /\
       served root cap request ns (take (Z.to_nat r.2) r.1) ns') s.
Proof.
  intros. eapply wp_mono; [by apply fs_request_served|]. by intros r s' [_ ?].
Qed.

(** The service answers [requests] one after another with one array. *)
Fixpoint fs_session (buf : list Z) (requests : list (list Z))
    : ST (os W) (list (list Z) * list Z) :=
  match requests with
  | [] => ret ([], buf)
  | request :: requests =>
      let! '(buf, n) :=
        handle_squid_fs_request (Some context) (Some request) (zlen request) (Some buf) cap in
      let answer := take (Z.to_nat n) buf in
      let! '(answers, buf) := fs_session buf requests in
      ret (answer :: answers, buf)
  end.

(** A session is a run of the store. *)
Inductive runs : list (list Z) -> gmap Z fnode -> list (list Z) -> gmap Z fnode -> Prop :=
| runs_nil ns : runs [] ns [] ns
| runs_cons rq rqs ns reply ns1 replies ns2 :
    served root cap rq ns reply ns1 -> runs rqs ns1 replies ns2 ->
    runs (rq :: rqs) ns (reply :: replies) ns2.

Lemma fs_session_runs requests : forall buf ns (s : os W),
  Forall (fun rq => bytes_ok rq /\ 0 < zlen rq < 2 ^ 63) requests -> cap <= zlen buf ->
  root_ok ns root -> at_store view sound s ns hs ->
  wp (fs_session buf requests) (fun '(answers, _) s' => exists ns',
    at_store view sound s' ns' hs /\ runs requests ns answers ns') s.
Proof.
  induction requests as [|rq requests IH]; intros buf ns s Hrq Hcap Hr Hat; cbn [fs_session].
  { apply wp_ret. exists ns. split; [done|constructor]. }
  apply Forall_cons_1 in Hrq as [[Hb Hsz] Hrq]. apply wp_bind.
  eapply wp_mono; [by apply fs_request_served|]. intros [b n] s1 ([Hl _] & ns1 & Hat1 & Hs1). cbn [fst snd] in *.
  apply wp_bind. eapply wp_mono; [apply IH; [done| |by eapply root_served|done]|].
  { unfold zlen in *. rewrite Hl. lia. }
  intros [answers b'] s2 (ns2 & Hat2 & Hr2). apply wp_ret. exists ns2. split; [done|].
  by econstructor.
Qed.

(** *** Writing a file and reading it back *)

(** WRITE requests for consecutive pieces; the first creates or empties the
    file. *)
Fixpoint append_from (path : list Z) (offset : Z) (chunks : list (list Z)) : list fs_op :=
  match chunks with
  | [] => []
  | data :: chunks => OpWrite path offset 0 data :: append_from path (offset + zlen data) chunks
  end.
Definition upload (path : list Z) (chunks : list (list Z)) : list fs_op :=
  match chunks with
  | [] => []
  | data :: chunks =>
      OpWrite path 0 (Z.lor SQUID_FS_WRITE_CREATE SQUID_FS_WRITE_TRUNCATE) data
      :: append_from path (zlen data) chunks
  end.

(** The answers when every piece was written as a whole. *)
Fixpoint all_written (offset : Z) (chunks : list (list Z)) : list (list Z) :=
  match chunks with
  | [] => []
  | data :: chunks => written_answer offset data :: all_written (offset + zlen data) chunks
  end.

Lemma append_runs path chunks : forall c rest ns replies ns',
  file_at ns root path c -> zlen c + zlen (concat chunks) < 4294967296 ->
  runs (map encode (append_from path (zlen c) chunks) ++ rest) ns
    (all_written (zlen c) chunks ++ replies) ns' ->
  exists ns1, file_at ns1 root path (c ++ concat chunks) /\ runs rest ns1 replies ns'.
Proof.
  induction chunks as [|d chunks IH]; intros c rest ns replies ns' Hf Hl Hrun;
    cbn [append_from all_written map app concat] in *.
  { exists ns. by rewrite app_nil_r. }
  inversion Hrun as [|? ? ? ? ns1 ? ? Hs Hrun']; subst. rewrite zlen_app in Hl.
  pose proof (zlen_nonneg c). pose proof (zlen_nonneg d). pose proof (zlen_nonneg (concat chunks)).
  apply served_step in Hs; [|cbn; lia]. apply write_more in Hs; [|done].
  rewrite <- zlen_app in Hrun'. rewrite app_assoc. eapply IH; [done|zlen_lia|done].
Qed.

Lemma upload_runs path chunks rest ns replies ns' :
  chunks <> [] -> zlen (concat chunks) < 4294967296 ->
  runs (map encode (upload path chunks) ++ rest) ns (all_written 0 chunks ++ replies) ns' ->
  exists ns1, file_at ns1 root path (concat chunks) /\ runs rest ns1 replies ns'.
Proof.
  intros Hne Hl Hrun. destruct chunks as [|d chunks]; [done|].
  cbn [upload all_written map app concat] in *.
  inversion Hrun as [|? ? ? ? ns1 ? ? Hs Hrun']; subst.
  apply served_step in Hs; [|cbn; lia]. apply write_new in Hs; [|done].
  eapply append_runs; [exact Hs| |exact Hrun']. zlen_lia.
Qed.

Lemma encode_ok fop :
  match fop with
  | OpRead path _ maximum => bytes_ok path /\ zlen path < 256 /\ is_byte maximum
  | OpWrite path _ flags data =>
      bytes_ok path /\ zlen path < 256 /\ is_byte flags /\ bytes_ok data /\ zlen data < 256
  | _ => False
  end -> bytes_ok (encode fop) /\ 0 < zlen (encode fop) < 2 ^ 63.
Proof.
  destruct fop as [p|p o m|p o f d|p|p|o n]; try done; unfold encode; cbn [op_code].
  - intros (Hp & Hl & Hm). split; [|zlen_lia]. pose proof (zlen_nonneg p).
    rewrite !bytes_ok_app. split_and!; [closed|auto with squid| |done].
    by repeat constructor; try apply Hm; lia.
  - intros (Hp & Hl & Hf & Hd & Hdl). split; [|zlen_lia]. pose proof (zlen_nonneg p). pose proof (zlen_nonneg d).
    rewrite !bytes_ok_app. split_and!; [closed|auto with squid| |done| |done];
      by repeat constructor; try apply Hf; lia.
Qed.

(** A file written through the service is read back: when every WRITE of
    consecutive pieces is answered with the size of the piece, a READ at any
    offset is refused or delivers, with the size of the whole file, the bytes
    of the pieces at that offset, at least one unless the offset is the end of
    the file. *)
Theorem fs_write_read_back path chunks offset maximum buf ns (s : os W) :
  bytes_ok path -> zlen path < 256 -> chunks <> [] ->
  Forall (fun d => bytes_ok d /\ zlen d < 256) chunks -> zlen (concat chunks) < 4294967296 ->
  0 <= offset < 4294967296 -> is_byte maximum -> cap <= zlen buf -> root_ok ns root ->
  at_store view sound s ns hs ->
  wp (fs_session buf (map encode (upload path chunks) ++ [encode (OpRead path offset maximum)]))
    (fun '(answers, _) _ => forall reply, answers = all_written 0 chunks ++ [reply] ->
       refused SQUID_FS_OP_READ reply \/
       exists data, reply = read_answer (concat chunks) offset data /\
         data `prefix_of` drop (Z.to_nat offset) (concat chunks) /\
         (data = [] -> offset = zlen (concat chunks))) s.
Proof.
  intros Hp Hpl Hne Hch Hl Ho Hm Hcap Hr Hat. eapply wp_mono; [apply fs_session_runs; [|done..]|].
  - apply Forall_app. split; [|apply Forall_singleton, encode_ok; done].
    assert (Happ : forall chunks off, Forall (fun d => bytes_ok d /\ zlen d < 256) chunks ->
      Forall (fun rq => bytes_ok rq /\ 0 < zlen rq < 2 ^ 63) (map encode (append_from path off chunks))).
    { clear - Hp Hpl. induction chunks as [|d ds IH]; intros off Hd; [constructor|].
      apply Forall_cons_1 in Hd as [[Hdb Hdl] Hd]. constructor; [|by apply IH]. by apply encode_ok. }
    destruct Hch as [|d ds [Hdb Hdl] Hds]; [done|]. constructor; [|by apply Happ]. by apply encode_ok.
  - intros [answers b] s' (ns' & _ & Hrun) reply ->.
    apply upload_runs in Hrun as (ns1 & Hf & Hrun); [|done|done].
    inversion Hrun as [|? ? ? ? ns2 ? ? Hs _]; subst. apply served_step in Hs; [|done].
    by eapply read_written.
Qed.
End sessions.
