(* ===== verification/MemStore.v ===== *)
(** The in-memory kernel of MemKernel.v behaves as FsStore.v asks of a kernel,
    and the theorems about the store evaluated on it. *)
From stdpp Require Import base numbers list option gmap strings.
From Stdlib Require Import ZArith Lia.
From S2P Require Import Prelude CLib Wire Posix Filesystem FsPath FsTrace FsSafety.
From S2P Require Import FsList FsStore FsRefine FsSession MemKernel FsProps.

Local Open Scope Z_scope.
Local Open Scope squid_scope.

(** ** Association lists as maps *)

Section assoc.
Context {K A : Type} `{Countable K}.
Local Abbreviation map_of l := (list_to_map l : gmap K A).

Lemma assoc_map (l : list (K * A)) k : assoc k l = map_of l !! k.
Proof.
  induction l as [|[k' a] l IH]; [done|]. cbn [assoc list_to_map foldr fst snd].
  destruct (decide (k = k')) as [->|Hne]; [by rewrite lookup_insert_eq|].
  by rewrite lookup_insert_ne.
Qed.
Lemma unset_map (l : list (K * A)) k : map_of (unset k l) = delete k (map_of l).
Proof.
  induction l as [|[k' a] l IH]; [exact (eq_sym (delete_empty k))|]. unfold unset in *.
  rewrite filter_cons. cbn [fst]. destruct (decide (k' <> k)) as [Hne|Heq]; cbn [list_to_map foldr fst snd].
  - rewrite IH. by rewrite delete_insert_ne.
  - assert (k' = k) as -> by (by apply dec_stable). rewrite IH. by rewrite delete_insert_eq.
Qed.
Lemma reset_map (l : list (K * A)) k a : map_of ((k, a) :: unset k l) = <[k := a]> (map_of l).
Proof. cbn. rewrite unset_map. apply insert_delete_eq. Qed.
Lemma append_map (l : list (K * A)) k a : map_of l !! k = None -> map_of (l ++ [(k, a)]) = <[k := a]> (map_of l).
Proof.
  intros Hk. rewrite list_to_map_app. cbn. rewrite insert_empty.
  rewrite insert_union_singleton_r by done. done.
Qed.
Lemma replace_map (l : list (K * A)) k a : map_of (unset k l ++ [(k, a)]) = <[k := a]> (map_of l).
Proof. rewrite append_map; rewrite unset_map; [apply insert_delete_eq|by rewrite lookup_delete_eq]. Qed.
End assoc.

(** ** The store of a state *)

Definition mem_node (n : node) : fnode :=
  match n with
  | File c => FFile (map u8 c)
  | Dir es => FDir (list_to_map es)
  end.
Definition mem_view (w : mem) : store :=
  Store (mem_node <$> (list_to_map (inodes w) : gmap Z node))
    (omap (fun o => fst <$> assoc o (ofds w)) (list_to_map (fdtab w) : gmap Z Z)).

(** Numbers that were given out are below [next]. *)
Definition mem_sound (w : mem) : Prop :=
  0 <= next w /\ Forall (fun p => p.1 < next w) (inodes w) /\
  Forall (fun p => p.1 < next w /\ p.2 < next w) (fdtab w).

Lemma mem_files w i : files (mem_view w) !! i = mem_node <$> assoc i (inodes w).
Proof. cbn. by rewrite lookup_fmap, assoc_map. Qed.
Lemma mem_handles w fd :
  handles (mem_view w) !! fd = o ← assoc fd (fdtab w); fst <$> assoc o (ofds w).
Proof. cbn. by rewrite lookup_omap, assoc_map. Qed.

(** The inode behind an open descriptor. *)
Lemma mem_fd w fd i n :
  handles (mem_view w) !! fd = Some i -> files (mem_view w) !! i = Some n ->
  exists nd, fd_inode fd w = Some (i, nd) /\ assoc i (inodes w) = Some nd /\ n = mem_node nd.
Proof.
  rewrite mem_handles, mem_files. unfold fd_inode. intros Hfd Hn.
  destruct (assoc fd (fdtab w)) as [o|]; [|done]. cbn in Hfd.
  destruct (assoc o (ofds w)) as [[i' off]|]; [|done]. cbn in Hfd. injection Hfd as ->.
  destruct (assoc i (inodes w)) as [nd|]; [|done]. injection Hn as <-. by exists nd.
Qed.
Lemma mem_fd_dir w fd i es :
  handles (mem_view w) !! fd = Some i -> files (mem_view w) !! i = Some (FDir es) ->
  exists l, fd_inode fd w = Some (i, Dir l) /\ assoc i (inodes w) = Some (Dir l) /\ es = list_to_map l.
Proof.
  intros Hfd Hn. destruct (mem_fd w fd i _ Hfd Hn) as ([c|l] & H1 & H2 & H3); [done|].
  exists l. by injection H3.
Qed.
Lemma mem_fd_file w fd i c :
  handles (mem_view w) !! fd = Some i -> files (mem_view w) !! i = Some (FFile c) ->
  exists c', fd_inode fd w = Some (i, File c') /\ c = map u8 c'.
Proof.
  intros Hfd Hn. destruct (mem_fd w fd i _ Hfd Hn) as ([c'|l] & H1 & H2 & H3); [|done].
  exists c'. by injection H3.
Qed.

(** *** What the changes of a state do to its store *)

Lemma view_set_inode i n w :
  mem_view (set_inode i n w) = Store (<[i := mem_node n]> (files (mem_view w))) (handles (mem_view w)).
Proof.
  unfold mem_view, set_inode. cbn [inodes ofds fdtab]. rewrite reset_map, fmap_insert. done.
Qed.
Lemma sound_set_inode i n w : i < next w -> mem_sound w -> mem_sound (set_inode i n w).
Proof.
  intros Hi (H0 & H1 & H2). split_and!; [done| |done]. constructor; [done|].
  cbn [set_inode inodes next]. apply Forall_forall. intros p Hp. apply list_elem_of_filter in Hp as [_ Hp].
  by eapply Forall_forall in H1.
Qed.

Lemma assoc_lt {A} (l : list (Z * A)) (m : Z) k a :
  Forall (fun p => p.1 < m) l -> assoc k l = Some a -> k < m.
Proof.
  induction 1 as [|[k' a'] l Hp _ IH]; cbn; [done|]. destruct (decide (k = k')) as [->|]; [done|auto].
Qed.
Lemma fd_lt w fd o : mem_sound w -> assoc fd (fdtab w) = Some o -> fd < next w /\ o < next w.
Proof.
  intros (_ & _ & Hf). induction Hf as [|[k o'] l Hp _ IH]; cbn; [done|].
  destruct (decide (fd = k)) as [->|]; [by intros [= ->]|auto].
Qed.
Lemma mem_fresh w : mem_sound w -> handles (mem_view w) !! next w = None.
Proof.
  intros Hs. rewrite mem_handles. destruct (assoc (next w) (fdtab w)) as [o|] eqn:E; [|done].
  apply fd_lt in E; [lia|done].
Qed.
Lemma mem_fresh_inode w : mem_sound w -> files (mem_view w) !! next w = None.
Proof.
  intros (_ & Hi & _). rewrite mem_files. destruct (assoc (next w) (inodes w)) eqn:E; [|done].
  apply (assoc_lt _ _ _ _ Hi) in E. lia.
Qed.

Lemma view_new_fd i w : mem_sound w ->
  let '(fd, w') := new_fd i w in
  fd = next w /\ mem_sound w' /\
  mem_view w' = Store (files (mem_view w)) (<[next w := i]> (handles (mem_view w))).
Proof.
  intros Hs. pose proof Hs as (H0 & H1 & H2). cbn. split_and!; [done| |].
  - split_and!; [cbn; lia| |]; cbn.
    + eapply Forall_impl; [exact H1|]. cbn. lia.
    + constructor; [cbn; lia|]. eapply Forall_impl; [exact H2|]. cbn. lia.
  - unfold mem_view. cbn [inodes ofds fdtab files handles]. f_equal. apply map_eq. intros fd.
    rewrite lookup_omap. cbn [list_to_map foldr fst snd].
    destruct (decide (next w = fd)) as [<-|Hne].
    + rewrite !lookup_insert_eq. cbn. by rewrite decide_True.
    + rewrite !lookup_insert_ne, lookup_omap, <- !assoc_map by done.
      destruct (assoc fd (fdtab w)) as [o|] eqn:E; [|done]. cbn.
      apply fd_lt in E; [|done]. by rewrite decide_False by lia.
Qed.

(** [next] alone says nothing about the store. *)
Definition bump (w : mem) : mem := Mem (inodes w) (ofds w) (fdtab w) (next w + 1).
Lemma view_bump w : mem_view (bump w) = mem_view w.
Proof. done. Qed.
Lemma sound_bump w : mem_sound w -> mem_sound (bump w).
Proof.
  intros (H0 & H1 & H2). split_and!; cbn; [lia|..]; (eapply Forall_impl; [eassumption|]); cbn; lia.
Qed.
Lemma inode_lt w i n : mem_sound w -> files (mem_view w) !! i = Some n -> i < next w.
Proof.
  intros (_ & H1 & _). rewrite mem_files. destruct (assoc i (inodes w)) eqn:E; [|done].
  intros _. by eapply assoc_lt.
Qed.

(** ** The laws *)

Local Abbreviation outcome := (result mem_view mem_sound).

Lemma outcome_fail w r (ok : store -> Prop) : mem_sound w -> r < 0 -> outcome (mem_view w) r w ok.
Proof. intros Hs Hr. split; [done|]. destruct (Z.ltb_spec r 0); [done|lia]. Qed.
Lemma outcome_ok σ w' r (ok : store -> Prop) :
  mem_sound w' -> 0 <= r -> ok (mem_view w') -> outcome σ r w' ok.
Proof. intros Hs Hr Hok. split; [done|]. destruct (Z.ltb_spec r 0); [lia|done]. Qed.

Lemma mem_dup fd i w : mem_sound w -> handles (mem_view w) !! fd = Some i ->
  let '(r, w') := sys_dup fd w in
  outcome (mem_view w) r w' (fun σ => handles (mem_view w) !! r = None /\
    σ = Store (files (mem_view w)) (<[r := i]> (handles (mem_view w)))).
Proof.
  intros Hs Hfd. pose proof (mem_fresh w Hs) as Hn. pose proof Hs as (H0 & H1 & H2).
  rewrite mem_handles in Hfd. cbn.
  destruct (assoc fd (fdtab w)) as [o|] eqn:E; [|done]. cbn in Hfd.
  destruct (fd_lt _ _ _ Hs E) as [_ Ho]. apply outcome_ok; [|done|].
  - split_and!; cbn; [lia|eapply Forall_impl; [exact H1|]; cbn; lia|].
    constructor; [cbn; lia|]. eapply Forall_impl; [exact H2|]. cbn. lia.
  - split; [done|]. unfold mem_view. cbn [inodes ofds fdtab files handles]. f_equal.
    cbn [list_to_map foldr fst snd]. by apply omap_insert_Some.
Qed.

(** What [open] promises, on the state it was called in. *)
Definition opened (flags : Z) (w : mem) (di : Z) (es : gmap (list Z) Z) (name : list Z) (r : Z)
    (σ : store) : Prop :=
  handles (mem_view w) !! r = None /\
  exists i, opens flags (files (mem_view w)) di es name i (files σ) /\
    handles σ = <[r := i]> (handles (mem_view w)).

Lemma mem_create di l es name flags w :
  mem_sound w -> files (mem_view w) !! di = Some (FDir es) -> es = list_to_map l ->
  es !! name = None -> has flags O_CREAT = true ->
  let '(r, w') := new_fd (next w)
    (set_inode (next w) (File []) (set_inode di (Dir (l ++ [(name, next w)])) (bump w))) in
  outcome (mem_view w) r w' (opened flags w di es name r).
Proof.
  intros Hs Hdi Hes En Hc. pose proof (inode_lt _ _ _ Hs Hdi) as Hlt. pose proof Hs as (H0 & _).
  set (w1 := set_inode (next w) (File []) (set_inode di (Dir (l ++ [(name, next w)])) (bump w))).
  assert (Hs1 : mem_sound w1).
  { subst w1. apply sound_set_inode; [cbn; lia|]. apply sound_set_inode; [cbn; lia|by apply sound_bump]. }
  pose proof (view_new_fd (next w) w1 Hs1) as Hv. destruct (new_fd (next w) w1) as [r w'].
  destruct Hv as (-> & Hs' & Hv). change (next w1) with (next w + 1) in *.
  apply outcome_ok; [done|lia|]. split; [exact (mem_fresh (bump w) (sound_bump w Hs))|].
  exists (next w). rewrite Hv. subst w1. rewrite !view_set_inode, view_bump. cbn [files handles mem_node map].
  split; [|done]. rewrite append_map, <- Hes by (by rewrite <- Hes).
  rewrite insert_insert_ne by lia. apply opens_new; [done|done|by apply mem_fresh_inode].
Qed.

Lemma mem_openat_law d di es name flags mode w : mem_sound w ->
  handles (mem_view w) !! d = Some di -> files (mem_view w) !! di = Some (FDir es) ->
  let '(r, w') := mem_openat d name flags mode w in
  outcome (mem_view w) r w' (opened flags w di es name r).
Proof.
  intros Hs Hd Hdi. pose proof (mem_fresh w Hs) as Hfresh. pose proof Hs as (H0 & _).
  pose proof (inode_lt _ _ _ Hs Hdi) as Hlt.
  destruct (mem_fd_dir _ _ _ _ Hd Hdi) as (l & Hfd & Ha & Hes). unfold mem_openat.
  rewrite Hfd, (assoc_map l), <- Hes. destruct (es !! name) as [i|] eqn:En.
  - destruct (assoc i (inodes w)) as [[c|l']|] eqn:Ei; [| |by apply outcome_fail].
    + assert (Hi : files (mem_view w) !! i = Some (FFile (map u8 c))) by (by rewrite mem_files, Ei).
      destruct (Z.land flags O_DIRECTORY =? 0) eqn:Ed; cbn [negb]; [|by apply outcome_fail].
      set (w1 := if Z.land flags O_TRUNC =? 0 then w else set_inode i (File []) w).
      assert (Hs1 : mem_sound w1).
      { subst w1. destruct (Z.land flags O_TRUNC =? 0); [done|]. apply sound_set_inode; [by eapply inode_lt|done]. }
      assert (Hn1 : next w1 = next w) by (subst w1; by destruct (Z.land flags O_TRUNC =? 0)).
      pose proof (view_new_fd i w1 Hs1) as Hv. destruct (new_fd i w1) as [r w'].
      rewrite Hn1 in Hv. destruct Hv as (-> & Hs' & Hv). apply outcome_ok; [done|done|]. split; [done|].
      exists i. rewrite Hv. subst w1. cbn [files handles]. split.
      * pose proof (opens_there flags (files (mem_view w)) di es name i _ En Hi) as Ho. cbn [is_dir] in Ho.
        unfold has in Ho. destruct (Z.land flags O_TRUNC =? 0); [|rewrite view_set_inode; cbn [files]];
          apply Ho; rewrite ?Ed; done.
      * destruct (Z.land flags O_TRUNC =? 0); [done|by rewrite view_set_inode].
    + destruct (Z.land flags O_WRONLY =? 0) eqn:Ew; [|by apply outcome_fail].
      pose proof (view_new_fd i w Hs) as Hv. destruct (new_fd i w) as [r w'].
      destruct Hv as (-> & Hs' & Hv). apply outcome_ok; [done|done|]. split; [done|].
      exists i. rewrite Hv. split; [|done]. cbn [files].
      apply (opens_there flags (files (mem_view w)) di es name i (FDir (list_to_map l'))); try done.
      * by rewrite mem_files, Ei.
      * unfold has. by rewrite Ew.
  - destruct (Z.land flags O_CREAT =? 0) eqn:Ec; [by apply outcome_fail|].
    apply (mem_create di l); try done. unfold has. by rewrite Ec.
Qed.

Lemma mem_close fd i w : mem_sound w -> handles (mem_view w) !! fd = Some i ->
  mem_sound (sys_close fd w) /\
  mem_view (sys_close fd w) = Store (files (mem_view w)) (delete fd (handles (mem_view w))).
Proof.
  intros (H0 & H1 & H2) _. split.
  - split_and!; [done|done|]. cbn. apply Forall_forall. intros p Hp.
    apply list_elem_of_filter in Hp as [_ Hp]. by eapply Forall_forall in H2.
  - unfold mem_view. cbn [sys_close mem_posix inodes ofds fdtab files handles]. f_equal.
    by rewrite unset_map, omap_delete.
Qed.

Lemma mem_describes nd : describes (mem_node nd) (node_stat nd).
Proof. destruct nd as [c|es]; cbn; [|done]. split_and!; [done|done|]. unfold zlen. by rewrite length_map. Qed.

Lemma mem_fstat fd i n w : mem_sound w -> handles (mem_view w) !! fd = Some i ->
  files (mem_view w) !! i = Some n ->
  let '(r, st, w') := sys_fstat fd w in
  outcome (mem_view w) r w' (fun σ => σ = mem_view w /\ describes n st).
Proof.
  intros Hs Hfd Hi. destruct (mem_fd _ _ _ _ Hfd Hi) as (nd & Hnd & _ & ->). cbn. rewrite Hnd.
  apply outcome_ok; [done|done|]. split; [done|apply mem_describes].
Qed.

Lemma mem_fstatat d di es name w : mem_sound w ->
  handles (mem_view w) !! d = Some di -> files (mem_view w) !! di = Some (FDir es) ->
  let '(r, st, w') := sys_fstatat d name AT_SYMLINK_NOFOLLOW w in
  outcome (mem_view w) r w' (fun σ => σ = mem_view w /\
    exists i n, es !! name = Some i /\ files (mem_view w) !! i = Some n /\ describes n st).
Proof.
  intros Hs Hd Hdi. destruct (mem_fd_dir _ _ _ _ Hd Hdi) as (l & Hfd & _ & Hes). cbn.
  rewrite Hfd, (assoc_map l), <- Hes. destruct (es !! name) as [i|] eqn:En; [|by apply outcome_fail].
  destruct (assoc i (inodes w)) as [nd|] eqn:Ei; [|by apply outcome_fail].
  apply outcome_ok; [done|done|]. split; [done|]. exists i, (mem_node nd). cbn [files].
  split_and!; [done| |apply mem_describes]. pose proof (mem_files w i) as E. rewrite Ei in E. done.
Qed.

Lemma mem_fdopendir_law fd i w : mem_sound w -> handles (mem_view w) !! fd = Some i ->
  let '(r, _, w') := sys_fdopendir fd w in
  outcome (mem_view w) r w' (fun σ => σ = mem_view w).
Proof.
  intros Hs Hfd. rewrite mem_handles in Hfd. cbn. unfold mem_fdopendir, fd_inode.
  destruct (assoc fd (fdtab w)) as [o|] eqn:E; [|done]. cbn in Hfd.
  destruct (assoc o (ofds w)) as [[i' off]|] eqn:Eo; [|done]. injection Hfd as ->.
  destruct (assoc i (inodes w)) as [[c|es]|]; [by apply outcome_fail| |by apply outcome_fail].
  apply outcome_ok; [done|done|]. unfold mem_view. cbn [inodes ofds fdtab]. f_equal. apply map_eq.
  intros fd'. rewrite !lookup_omap. destruct (list_to_map (fdtab w) !! fd') as [o'|]; [|done]. cbn.
  rewrite !assoc_map. destruct (decide (o' = o)) as [->|Hne].
  - rewrite <- assoc_map, Eo. done.
  - rewrite unset_map, lookup_delete_ne by done. done.
Qed.

Lemma mem_pread_law fd i c n off w : mem_sound w -> handles (mem_view w) !! fd = Some i ->
  files (mem_view w) !! i = Some (FFile c) -> 0 <= n -> 0 <= off ->
  let '(r, data, w') := sys_pread fd n off w in
  outcome (mem_view w) r w' (fun σ => σ = mem_view w /\
    data = take (Z.to_nat r) (drop (Z.to_nat off) c) /\ (0 < n -> off < zlen c -> 0 < r)).
Proof.
  intros Hs Hfd Hi Hn Ho. destruct (mem_fd_file _ _ _ _ Hfd Hi) as (c' & Hf & ->). cbn. unfold mem_pread.
  rewrite Hf. apply outcome_ok; [done|apply zlen_nonneg|]. split; [done|].
  assert (El : map u8 (drop (Z.to_nat off) c') = drop (Z.to_nat off) (map u8 c')) by apply fmap_drop.
  rewrite El. clear El. set (l := drop (Z.to_nat off) (map u8 c')). split.
  - unfold zlen. rewrite Nat2Z.id, length_take.
    destruct (decide (Z.to_nat n <= length l)%nat); [by rewrite Nat.min_l by lia|].
    rewrite Nat.min_r by lia. rewrite take_ge by lia. by rewrite firstn_all.
  - intros Hn0 Hlt. subst l. unfold zlen in *. rewrite length_take, length_drop. rewrite length_map in *. lia.
Qed.

Lemma map_u8_bytes data : bytes_ok data -> map u8 data = data.
Proof. induction 1 as [|x l Hx _ IH]; [done|]. cbn. by rewrite u8_small, IH. Qed.

Lemma mem_pwrite_law fd i c data off w : mem_sound w -> handles (mem_view w) !! fd = Some i ->
  files (mem_view w) !! i = Some (FFile c) -> bytes_ok data -> 0 <= off ->
  let '(r, w') := sys_pwrite fd data off w in
  outcome (mem_view w) r w' (fun σ => σ =
    Store (<[i := FFile (patch c off (take (Z.to_nat r) data))]> (files (mem_view w)))
      (handles (mem_view w))).
Proof.
  intros Hs Hfd Hi Hd Ho. pose proof (inode_lt _ _ _ Hs Hi) as Hlt.
  destruct (mem_fd_file _ _ _ _ Hfd Hi) as (c' & Hf & Hc). cbn. unfold mem_pwrite.
  rewrite Hf. destruct data as [|x data].
  - apply outcome_ok; [done|done|]. cbn [take patch]. rewrite insert_id by done. apply store_eta.
  - apply outcome_ok; [by apply sound_set_inode|apply zlen_nonneg|]. rewrite view_set_inode. f_equal. f_equal.
    cbn [mem_node]. f_equal. unfold zlen. rewrite Nat2Z.id, firstn_all. cbn [patch].
    rewrite !map_app, (map_u8_bytes (x :: data)) by done. rewrite Hc, length_map, length_take.
    f_equal; [apply fmap_take|]. f_equal; [|f_equal; apply fmap_drop].
    replace (Z.to_nat off - Z.to_nat off `min` length c')%nat with (Z.to_nat off - length c')%nat by lia.
    exact (fmap_replicate u8 _ 0).
Qed.

Lemma mem_mkdirat_law d di es name mode w : mem_sound w ->
  handles (mem_view w) !! d = Some di -> files (mem_view w) !! di = Some (FDir es) ->
  let '(r, w') := sys_mkdirat d name mode w in
  outcome (mem_view w) r w' (fun σ => r = 0 /\
    makes (files (mem_view w)) di es name (files σ) /\ handles σ = handles (mem_view w)).
Proof.
  intros Hs Hd Hdi. pose proof (inode_lt _ _ _ Hs Hdi) as Hlt. pose proof Hs as (H0 & _).
  destruct (mem_fd_dir _ _ _ _ Hd Hdi) as (l & Hfd & _ & Hes). cbn. unfold with_dir.
  rewrite Hfd, (assoc_map l), <- Hes. destruct (es !! name) as [i|] eqn:En; [by apply outcome_fail|].
  fold (bump w). apply outcome_ok; [|done|].
  - apply sound_set_inode; [cbn; lia|]. apply sound_set_inode; [cbn; lia|by apply sound_bump].
  - rewrite !view_set_inode, view_bump. cbn [files handles mem_node]. split_and!; [done| |done].
    rewrite append_map, <- Hes by (by rewrite <- Hes). rewrite insert_insert_ne by lia.
    apply makes_new; [done|by apply mem_fresh_inode].
Qed.

Lemma mem_unlinkat_law d di es name flags w : mem_sound w ->
  handles (mem_view w) !! d = Some di -> files (mem_view w) !! di = Some (FDir es) ->
  let '(r, w') := sys_unlinkat d name flags w in
  outcome (mem_view w) r w' (fun σ => r = 0 /\
    unlinks (files (mem_view w)) di es name (files σ) /\ handles σ = handles (mem_view w)).
Proof.
  intros Hs Hd Hdi. pose proof (inode_lt _ _ _ Hs Hdi) as Hlt.
  destruct (mem_fd_dir _ _ _ _ Hd Hdi) as (l & Hfd & _ & Hes). cbn. unfold with_dir.
  rewrite Hfd, (assoc_map l), <- Hes. destruct (es !! name) as [i|] eqn:En; [|by apply outcome_fail].
  assert (Hok : forall nd, assoc i (inodes w) = Some nd -> removable (mem_node nd) ->
    outcome (mem_view w) 0 (set_inode di (Dir (unset name l)) w) (fun σ => 0 = 0 /\
      unlinks (files (mem_view w)) di es name (files σ) /\ handles σ = handles (mem_view w))).
  { intros nd Hnd Hr. apply outcome_ok; [by apply sound_set_inode|done|]. rewrite view_set_inode.
    cbn [mem_node files handles]. split_and!; [done| |done].
    apply (unlinks_entry _ _ _ _ i (mem_node nd)); [done| |done|left].
    - pose proof (mem_files w i) as E. by rewrite Hnd in E.
    - by rewrite unset_map, <- Hes. }
  destruct (assoc i (inodes w)) as [[c|[|e l']]|] eqn:Ei; try (by apply outcome_fail);
    destruct (Z.land flags AT_REMOVEDIR =? 0); try (by apply outcome_fail); by eapply Hok.
Qed.

Lemma mem_move di oes l name i d' ndi nes name' w : mem_sound w ->
  files (mem_view w) !! di = Some (FDir oes) -> oes = list_to_map l ->
  handles (mem_view w) !! d' = Some ndi -> files (mem_view w) !! ndi = Some (FDir nes) ->
  exists es w', move_entry di l name i d' name' w = (0, w') /\ mem_sound w' /\
    <[di := FDir (delete name oes)]> (files (mem_view w)) !! ndi = Some (FDir es) /\
    mem_view w' = Store (<[ndi := FDir (<[name' := i]> es)]>
      (<[di := FDir (delete name oes)]> (files (mem_view w)))) (handles (mem_view w)).
Proof.
  intros Hs Hdi Hl Hd Hndi. pose proof (inode_lt _ _ _ Hs Hdi). pose proof (inode_lt _ _ _ Hs Hndi).
  unfold move_entry, with_dir. set (w1 := set_inode di (Dir (unset name l)) w).
  assert (Hv1 : mem_view w1 = Store (<[di := FDir (delete name oes)]> (files (mem_view w))) (handles (mem_view w))).
  { subst w1. rewrite view_set_inode. cbn [mem_node]. by rewrite unset_map, <- Hl. }
  assert (Hs1 : mem_sound w1) by (by apply sound_set_inode).
  assert (exists es, files (mem_view w1) !! ndi = Some (FDir es)) as [es Hes].
  { rewrite Hv1. cbn [files]. destruct (decide (di = ndi)) as [<-|Hne].
    - eexists. by rewrite lookup_insert_eq.
    - exists nes. by rewrite lookup_insert_ne. }
  destruct (mem_fd_dir w1 d' ndi es) as (l' & Hfd & _ & Hl'); [by rewrite Hv1|done|]. rewrite Hfd.
  eexists es, _. split_and!; [done|by apply sound_set_inode| |].
  - rewrite Hv1 in Hes. done.
  - rewrite view_set_inode, Hv1. cbn [mem_node files handles]. by rewrite replace_map, <- Hl'.
Qed.

Lemma mem_renameat_law od odi oes oname nd ndi nes nname w : mem_sound w ->
  handles (mem_view w) !! od = Some odi -> files (mem_view w) !! odi = Some (FDir oes) ->
  handles (mem_view w) !! nd = Some ndi -> files (mem_view w) !! ndi = Some (FDir nes) ->
  let '(r, w') := sys_renameat od oname nd nname w in
  outcome (mem_view w) r w' (fun σ => r = 0 /\
    moves (files (mem_view w)) odi oes oname ndi nes nname (files σ) /\
    handles σ = handles (mem_view w)).
Proof.
  intros Hs Hod Hodi Hnd Hndi. destruct (mem_fd_dir _ _ _ _ Hod Hodi) as (l & Hfd & _ & Hes).
  destruct (mem_fd_dir _ _ _ _ Hnd Hndi) as (l' & Hfd' & _ & Hes'). cbn. unfold with_dir.
  rewrite Hfd, (assoc_map l), <- Hes. destruct (oes !! oname) as [i|] eqn:En; [|by apply outcome_fail].
  rewrite Hfd', (assoc_map l'), <- Hes'.
  destruct (mem_move odi oes l oname i nd ndi nes nname w Hs Hodi Hes Hnd Hndi)
    as (es & w' & Em & Hs' & Hmes & Hv).
  destruct (nes !! nname) as [j|] eqn:Enn.
  2: { rewrite Em. apply outcome_ok; [done|done|]. rewrite Hv. split_and!; [done| |done]. by eapply moves_free. }
  destruct (decide (i = j)) as [->|Hij].
  { apply outcome_ok; [done|done|]. split_and!; [done| |done]. by eapply moves_same. }
  assert (Hok : forall n, assoc j (inodes w) = Some n -> removable (mem_node n) ->
    outcome (mem_view w) 0 w' (fun σ => 0 = 0 /\
      moves (files (mem_view w)) odi oes oname ndi nes nname (files σ) /\ handles σ = handles (mem_view w))).
  { intros n Hn Hr. apply outcome_ok; [done|done|]. rewrite Hv. split_and!; [done| |done].
    pose proof (mem_files w j) as E. rewrite Hn in E. eapply moves_over; [done|done|done|exact E|done|done|by left]. }
  destruct (assoc j (inodes w)) as [[c|[|e l2]]|] eqn:Ej; try (by apply outcome_fail); rewrite Em; by eapply Hok.
Qed.

#[export] Instance mem_kernel : FileKernel mem mem_view mem_sound.
Proof.
  split.
  - apply mem_dup.
  - intros d di es name flags mode w Hs _. by apply mem_openat_law.
  - intros fd i w Hs Hfd _. by apply (mem_close fd i).
  - apply mem_fstat.
  - apply mem_fstatat.
  - apply mem_fdopendir_law.
  - intros fd i w Hs Hfd _. by apply (mem_close fd i).
  - apply mem_pread_law.
  - apply mem_pwrite_law.
  - apply mem_mkdirat_law.
  - apply mem_unlinkat_law.
  - apply mem_renameat_law.
Qed.

(** ** Runs *)

Local Abbreviation sample_files := (files (mem_view sample_mem)).
Local Abbreviation sample_handles := (handles (mem_view sample_mem)).

Lemma sample_sound : mem_sound sample_mem.
Proof. split; [done|]. split; repeat constructor. Qed.
Lemma sample_at_store : at_store mem_view mem_sound sample_os sample_files sample_handles.
Proof. split; [apply sample_sound|apply store_eta]. Qed.
Lemma sample_base : base (sample_context 0) 0 sample_handles.
Proof. split; [done|]. vm_compute. reflexivity. Qed.
Lemma sample_root : root_ok sample_files 0.
Proof. eexists. vm_compute. reflexivity. Qed.

Lemma fs_refines_store_witness :
  wp (handle_squid_fs_request (Some (sample_context 0)) (Some rename_request) (zlen rename_request)
        (Some sample_buf) 255)
    (fun r s' => exists ns', at_store mem_view mem_sound s' ns' sample_handles /\
       served 0 255 rename_request sample_files (take (Z.to_nat r.2) r.1) ns') sample_os.
Proof.
  apply (fs_refines_store mem_view mem_sound (sample_context 0) 0 sample_handles 255 sample_base);
    [closed|closed|closed|closed|closed|apply sample_root|apply sample_at_store].
Defined.

(** The rename is answered OK and moves [b] below [docs]. *)
Example rename_moves :
  wp (handle_squid_fs_request (Some (sample_context 0)) (Some rename_request) (zlen rename_request)
        (Some sample_buf) 255)
    (fun r s' => take (Z.to_nat r.2) r.1 = header SQUID_FS_OP_RENAME 0 /\
       walk (files (mem_view (world s'))) 0 (names (text "docs/b")) = Some 3 /\
       walk (files (mem_view (world s'))) 0 (names (text "b")) = None) sample_os.
Proof. by vm_compute. Qed.

Definition new_path : list Z := text "docs/new".
Definition new_chunks : list (list Z) := [text "squid "; text "server"; text "!"].

Lemma fs_write_read_back_witness :
  wp (fs_session (sample_context 0) 255 sample_buf
        (map encode (upload new_path new_chunks) ++ [encode (OpRead new_path 6 4)]))
    (fun '(answers, _) _ => forall reply, answers = all_written 0 new_chunks ++ [reply] ->
       refused SQUID_FS_OP_READ reply \/
       exists data, reply = read_answer (concat new_chunks) 6 data /\
         data `prefix_of` drop (Z.to_nat 6) (concat new_chunks) /\
         (data = [] -> 6 = zlen (concat new_chunks))) sample_os.
Proof.
  apply (fs_write_read_back mem_view mem_sound (sample_context 0) 0 sample_handles 255 sample_base
    ltac:(lia) ltac:(lia) new_path new_chunks 6 4 sample_buf sample_files);
    [closed|closed|done| |closed|closed|closed|closed|apply sample_root|apply sample_at_store].
  repeat constructor; closed.
Defined.

(** This session writes every piece and reads four bytes back. *)
Example new_file_read_back :
  wp (fs_session (sample_context 0) 255 sample_buf
        (map encode (upload new_path new_chunks) ++ [encode (OpRead new_path 6 4)]))
    (fun '(answers, _) _ => answers = all_written 0 new_chunks ++
       [read_answer (concat new_chunks) 6 (text "serv")]) sample_os.
Proof. by vm_compute. Qed.

(** ** A directory that does not change

    A directory [docs] with three files and a directory, too large for one
    page of 20 bytes. *)
Definition shelf_entries : list (list Z * Z) :=
  [(text "a", 2); (text "bb", 3); (text "ccc", 4); (text "dddd", 5)].
Definition shelf_top : list (list Z * Z) := [(text "docs", 1)].
Definition shelf_inodes : list (Z * node) :=
  [(0, Dir shelf_top); (1, Dir shelf_entries); (2, File (text "hello")); (3, File (text "hello"));
   (4, File (text "hello")); (5, Dir [])].
Definition shelf : mem := Mem shelf_inodes [(3, (0, O))] [(3, 3)] 6.
Definition shelf_info (n : list Z) : stat :=
  node_stat (if decide (n = text "dddd") then Dir [] else File (text "hello")).

Definition shelf_idle (w : mem) : Prop :=
  mem_sound w /\ inodes w = shelf_inodes /\ assoc 3 (fdtab w) = Some 3 /\
  exists off, assoc 3 (ofds w) = Some (0, off).
(** [fd] is open on the inode [i]; what [P] says of the read offset. *)
Definition shelf_open (fd i : Z) (P : nat -> Prop) (w : mem) : Prop :=
  shelf_idle w /\ fd <> 3 /\ fd < next w /\
  exists o off, assoc fd (fdtab w) = Some o /\ assoc o (ofds w) = Some (i, off) /\ P off.
Definition shelf_at (k : nat) (fd : Z) : mem -> Prop :=
  match k with
  | O => shelf_open fd 0 (fun _ => True)
  | _ => shelf_open fd 1 (fun off => off = O)
  end.
Definition shelf_both (k : nat) (fd r : Z) (w : mem) : Prop :=
  shelf_open r 1 (fun off => off = O) w /\ fd <> r /\ fd <> 3.

Lemma assoc_unset {A} (k k' : Z) (l : list (Z * A)) : k <> k' -> assoc k (unset k' l) = assoc k l.
Proof. intros Hne. rewrite !assoc_map, unset_map. by rewrite lookup_delete_ne. Qed.

Lemma shelf_inode fd i P w : shelf_open fd i P w ->
  fd_inode fd w = (fun n => (i, n)) <$> assoc i shelf_inodes.
Proof.
  intros ((_ & Hi & _) & _ & _ & o & off & Hf & Ho & _). unfold fd_inode. rewrite Hf, Ho, Hi.
  by destruct (assoc i shelf_inodes).
Qed.

Lemma shelf_idle_close fd w : shelf_idle w -> fd <> 3 -> shelf_idle (sys_close fd w).
Proof.
  intros ((H0 & H1 & H2) & Hi & Hf & Ho) Hne. split_and!; [|done| |done].
  - split_and!; [done|done|]. cbn. apply Forall_forall. intros p Hp.
    apply list_elem_of_filter in Hp as [_ Hp]. by eapply Forall_forall in H2.
  - cbn. by rewrite assoc_unset.
Qed.

(** A new descriptor [next w] with the description [o]. *)
Lemma shelf_new o i off os P w :
  shelf_idle w -> o <= next w -> assoc o os = Some (i, off) -> P off ->
  (exists off', assoc 3 os = Some (0, off')) ->
  0 <= next w /\ next w <> 3 /\
  shelf_open (next w) i P (Mem (inodes w) os ((next w, o) :: fdtab w) (next w + 1)).
Proof.
  intros (Hs & Hi & Hf & _) Ho Ha HP Hroot. pose proof (fd_lt _ _ _ Hs Hf) as [? _].
  destruct Hs as (H0 & H1 & H2). split_and!; [done|lia|]. split_and!.
  - split_and!; [|done| |done].
    + split_and!; cbn; [lia|eapply Forall_impl; [exact H1|]; cbn; lia|].
      constructor; [cbn; lia|]. eapply Forall_impl; [exact H2|]. cbn. lia.
    + cbn [fdtab assoc]. rewrite decide_False by lia. done.
  - lia.
  - cbn. lia.
  - exists o, off. cbn [fdtab assoc ofds]. by rewrite decide_True.
Qed.

Lemma shelf_dup w : shelf_idle w -> let '(r, w') := sys_dup 3 w in 0 <= r /\ shelf_at O r w'.
Proof.
  intros Hw. pose proof Hw as (Hs & _ & Hf & off & Ho). pose proof (fd_lt _ _ _ Hs Hf) as [_ ?].
  cbn. rewrite Hf. edestruct (shelf_new 3 0 off (ofds w) (fun _ => True) w) as (? & _ & Hn);
    [done|lia|done|done|by exists off|done].
Qed.

Lemma shelf_openat k fd comp w : shelf_at k fd w -> components (text "docs") !! k = Some comp ->
  let '(r, w') := sys_openat fd comp open_directory_flags 0 w in 0 <= r /\ shelf_both k fd r w'.
Proof.
  intros Hat Hc. destruct k as [|[|k]]; try done. injection Hc as <-. pose proof Hat as (Hw & Hne & Hlt & _).
  cbn [sys_openat mem_posix]. unfold mem_openat. rewrite (shelf_inode fd 0 _ w Hat).
  pose proof Hw as (Hs & Hi & Hf & off & Ho). rewrite Hi. pose proof (fd_lt _ _ _ Hs Hf) as [? _].
  cbn -[assoc Z.land new_fd].
  change (assoc (text "docs") shelf_top) with (Some 1). cbv beta iota.
  change (assoc 1 shelf_inodes) with (Some (Dir shelf_entries)). cbv beta iota.
  change (Z.land open_directory_flags O_WRONLY =? 0) with true. cbv beta iota. unfold new_fd.
  destruct (shelf_new (next w) 1 O ((next w, (1, O)) :: ofds w) (fun off => off = O) w) as (? & ? & ?);
    [done|lia|by cbn; rewrite decide_True|done| |].
  - exists off. cbn. by rewrite decide_False by lia.
  - split; [done|]. split_and!; [done|lia|done].
Qed.

Lemma shelf_close k fd r w : shelf_both k fd r w -> shelf_at (S k) r (sys_close fd w).
Proof.
  intros ((Hw & Hne & Hlt & o & off & Hf & Ho & ->) & Hr & Hfd). split_and!; [by apply shelf_idle_close|done|done|].
  exists o, O. cbn. by rewrite assoc_unset by done.
Qed.

Lemma shelf_fdopendir fd w : shelf_at 1 fd w ->
  let '(r, d, w') := sys_fdopendir fd w in
  0 <= r /\ d = DirStream (mem_names shelf_entries) 0 /\ shelf_open fd 1 (fun _ => True) w'.
Proof.
  intros Hat. pose proof Hat as (Hw & Hne & Hlt & o & off & Hf & Ho & ->). cbn [sys_fdopendir mem_posix].
  unfold mem_fdopendir. rewrite (shelf_inode fd 1 _ w Hat), Hf, Ho.
  change (assoc 1 shelf_inodes) with (Some (Dir shelf_entries)). cbv beta iota. cbn [fmap option_fmap option_map].
  split; [done|]. split; [by vm_compute|]. destruct Hw as (Hs & Hi & H3 & off3 & Ho3).
  assert (o <> 3) by (intros ->; congruence). split_and!; [|done|done|].
  - split_and!; [done|done|done|]. exists off3. cbn -[mem_names]. rewrite decide_False by done. by rewrite assoc_unset.
  - exists o, (length (mem_names shelf_entries)). cbn -[mem_names]. by rewrite decide_True.
Qed.

Lemma shelf_fstatat fd name w : shelf_open fd 1 (fun _ => True) w ->
  name ∈ visible (mem_names shelf_entries) ->
  let '(r, st, w') := sys_fstatat fd name AT_SYMLINK_NOFOLLOW w in
  r = 0 /\ st = shelf_info name /\ shelf_open fd 1 (fun _ => True) w'.
Proof.
  intros Hat Hn. cbn [sys_fstatat mem_posix]. rewrite (shelf_inode fd 1 _ w Hat).
  pose proof Hat as ((_ & Hi & _) & _). rewrite Hi.
  change (assoc 1 shelf_inodes) with (Some (Dir shelf_entries)). cbn [fmap option_fmap option_map].
  change (visible (mem_names shelf_entries)) with [text "a"; text "bb"; text "ccc"; text "dddd"] in Hn.
  repeat (apply elem_of_cons in Hn as [->|Hn]; [split_and!; [by vm_compute..|done]|]). by apply elem_of_nil in Hn.
Qed.

Lemma shelf_closedir fd w : shelf_open fd 1 (fun _ => True) w -> shelf_idle (sys_closedir fd w).
Proof. intros (Hw & Hne & _). by apply (shelf_idle_close fd). Qed.

Lemma shelf_still :
  still_dir 3 (components (text "docs")) (mem_names shelf_entries) shelf_info shelf_idle shelf_at
    shelf_both (fun fd => shelf_open fd 1 (fun _ => True)).
Proof.
  split; [apply shelf_dup|apply shelf_openat|apply shelf_close|apply shelf_fdopendir|
    apply shelf_fstatat|apply shelf_closedir].
Qed.

Lemma shelf_info_ok n : stat_ok (shelf_info n).
Proof. unfold shelf_info. case_decide; by vm_compute. Qed.
Lemma shelf_idle_start : shelf_idle shelf.
Proof. split_and!; [split_and!; [done|repeat constructor..]|done|done|by exists O]. Qed.

Lemma fs_list_complete_witness :
  wp (read_dir (FsContext 3 0) (text "docs") SQUID_FS_OP_LIST 20 5 sample_buf 0)
    (fun r s' => shelf_idle (world s') /\ r = Some
      [DirEntry 1 (text "a") 5; DirEntry 1 (text "bb") 5; DirEntry 1 (text "ccc") 5;
       DirEntry 2 (text "dddd") 0]) (Os shelf 0 []).
Proof.
  apply (fs_list_complete (FsContext 3 0) (text "docs") (mem_names shelf_entries) shelf_info
    shelf_idle shelf_at shelf_both (fun fd => shelf_open fd 1 (fun _ => True)) 20 sample_buf
    (Os shelf 0 []) shelf_still);
    [done|closed| |repeat constructor; closed|apply shelf_info_ok|lia|done| |done|apply shelf_idle_start].
  - apply (bool_decide_unpack _). vm_compute. exact I.
  - apply (bool_decide_unpack _). vm_compute. exact I.
Defined.
