(* ===== verification/FsPlugin.v ===== *)
(** The filesystem plugin object (lib/filesystem/filesystem_plugin.c): its
    configuration from the environment, its life cycle and its packet entry.
    The plugin pointer the server passes is the plugin's own static object,
    whose context is the static [plugin_state]; both are never NULL. *)
From stdpp Require Import base numbers list option strings.
From Stdlib Require Import ZArith Lia.
From S2P Require Import Prelude CLib Wire PluginApi Posix.
From S2P Require Import Filesystem FsPath FsTrace FsSafety MemKernel.

Local Open Scope Z_scope.
Local Open Scope squid_scope.

(** [getenv]. *)
Definition environment : Type := list Z -> option (list Z).

Definition squid_fs_default_root : list Z := text "/opt/squid/share".

Record squid_fs_plugin_state := FsPluginState {
  fs_context : squid_fs_context;
  fs_started : Z }.

(** The kernel and the static [plugin_state]. *)
Record fs_world (W : Type) := FsWorld { fs_os : os W; fs_state : squid_fs_plugin_state }.
Arguments FsWorld {W} _ _.
Arguments fs_os {W} _.
Arguments fs_state {W} _.

Definition environment_is_true (getenv : environment) (name : list Z) : bool :=
  match getenv name with
  | Some value =>
      eq_text value (text "1") || eq_text value (text "true") || eq_text value (text "yes")
  | None => false
  end.

Definition nonempty (s : option (list Z)) : bool :=
  match s with Some (_ :: _) => true | _ => false end.
Definition str (s : option (list Z)) : list Z := match s with Some s => s | None => [] end.

(** [Some] is the C result 0 with the path, [None] the result -1. *)
Definition get_root_path (getenv : environment) (path_capacity : Z) : option (list Z) :=
  let configured := getenv (text "SQUID_FS_ROOT") in
  let stage_root := getenv (text "SQUID_SERVER_STAGE_ROOT") in
  let '(path, written) :=
    if nonempty configured then snprintf path_capacity (str configured)
    else if nonempty stage_root then
      snprintf path_capacity (str stage_root ++ squid_fs_default_root)
    else snprintf path_capacity squid_fs_default_root in
  if (0 <=? written) && (written <? path_capacity) then Some path else None.

Section plugin.
Context {W : Type} `{Posix W}.
Variable getenv : environment.
Abbreviation M := (ST (fs_world W)).

(** Kernel calls of the plugin. *)
Definition on_os {A} (m : ST (os W) A) : M A := fun w =>
  match m (fs_os w) with
  | Some (a, o) => Some (a, FsWorld o (fs_state w))
  | None => None
  end.
Definition get_state : M squid_fs_plugin_state := fun w => Some (fs_state w, w).
Definition set_state (st : squid_fs_plugin_state) : M unit :=
  fun w => Some (tt, FsWorld (fs_os w) st).

Definition start_squid_fs_plugin : M Z :=
  match get_root_path getenv 1024 with
  | None => ret (-1)
  | Some root_path =>
      let! state := get_state in
      if negb (fs_started state =? 0) then ret 0
      else
        do! set_state (FsPluginState (FsContext (-1) 0) 0);
        let! '(result, context) :=
          on_os (init_squid_fs_context (Some (FsContext (-1) 0)) (Some root_path)
                   (if environment_is_true getenv (text "SQUID_FS_READ_ONLY") then 1 else 0)) in
        let context := match context with Some c => c | None => FsContext (-1) 0 end in
        do! set_state (FsPluginState context 0);
        if negb (result =? 0) then ret (-1)
        else
          do! set_state (FsPluginState context 1);
          ret 0
  end.

Definition stop_squid_fs_plugin : M Z :=
  let! state := get_state in
  if negb (fs_started state =? 0) then
    let! context := on_os (free_squid_fs_context (Some (fs_context state))) in
    let context := match context with Some c => c | None => fs_context state end in
    do! set_state (FsPluginState context 0);
    ret 0
  else ret 0.

Definition fs_core (data : list Z) (size : Z) (mem : list Z) (cap : Z) : M (list Z * Z) :=
  let! state := get_state in
  if fs_started state =? 0 then ret (mem, -1)
  else
    on_os (handle_squid_fs_request (Some (fs_context state)) (Some data) size (Some mem) cap).

Definition handle_squid_fs_packet : handle_packet_fn (fs_world W) := fun port_number =>
  packet_entry fs_core.

Definition squid_fs_plugin : server_plugin (fs_world W) :=
  ServerPlugin (Some (text "filesystem")) (Some start_squid_fs_plugin)
    (Some stop_squid_fs_plugin) (Some handle_squid_fs_packet).

(** A started plugin has an open root. *)
Definition fs_inv (w : fs_world W) : Prop :=
  fs_started (fs_state w) <> 0 -> 0 <= root_fd (fs_context (fs_state w)).

Lemma wp_on_os {A} (m : ST (os W) A) Q w :
  wp m (fun a o => Q a (FsWorld o (fs_state w))) (fs_os w) -> wp (on_os m) Q w.
Proof. unfold wp, on_os. by destruct (m (fs_os w)) as [[a o]|]. Qed.

Lemma on_os_eq {A} (m : ST (os W) A) w a o :
  m (fs_os w) = Some (a, o) -> on_os m w = Some (a, FsWorld o (fs_state w)).
Proof. unfold on_os. by intros ->. Qed.

#[export] Instance fs_good {LAWS : PosixLaws W} : GoodPlugin fs_inv handle_squid_fs_packet.
Proof.
  intros port v b w HI Hv Hb. apply (packet_entry_good fs_inv fs_core port v b w); try done.
  clear -LAWS. intros data size mem cap w HI Hd Hs Hsi Hc Hci. unfold fs_core.
  apply wp_bind. change (wp get_state ?Q w) with (Q (fs_state w) w). cbv beta.
  destruct (Z.eqb_spec (fs_started (fs_state w)) 0) as [E|E]; [apply wp_ret; cbn; auto with lia|].
  specialize (HI E). apply wp_on_os.
  destruct (Z.ltb_spec cap 2) as [Hsmall|Hcap].
  - unfold handle_squid_fs_request. destruct (_ || _) eqn:Eg; [|lia].
    apply wp_ret. cbn. split; [by intros _|]. auto with lia.
  - destruct data as [|op data]; [zlen_lia|].
    eapply wp_mono; [apply (fs_dispatch_spec (fs_os w) _ op); try done; try lia|].
    { apply progress_refl. }
    intros [b' n] o [[Hl Hn] _]. cbn in *. split; [by intros _|]. split; [done|]. lia.
Qed.

(** *** Life cycle *)

Lemma start_spec w :
  fs_inv w ->
  wp start_squid_fs_plugin (fun r w' =>
    fs_inv w' /\
    (r = 0 -> fs_started (fs_state w') <> 0) /\
    (fs_started (fs_state w) <> 0 -> w' = w) /\
    (forall e, e ∈ trace (fs_os w') -> e ∈ trace (fs_os w) \/
       exists path fd, e = EOpen path open_directory_flags fd /\
         get_root_path getenv 1024 = Some path)) w.
Proof.
  intros HI. unfold start_squid_fs_plugin.
  destruct (get_root_path getenv 1024) as [path|] eqn:Ep.
  2: { apply wp_ret. split_and!; auto. }
  apply wp_bind. change (wp get_state ?Q w) with (Q (fs_state w) w). cbv beta.
  destruct (Z.eqb_spec (fs_started (fs_state w)) 0) as [E|E]; cbn [negb].
  2: { apply wp_ret. split_and!; auto. }
  set (ro := if environment_is_true getenv _ then 1 else 0). unfold bind, set_state, wp, on_os. cbn [fs_os fs_state].
  destruct path as [|c path].
  { cbn. split_and!; [by intros []|done|done|auto]. }
  cbn -[c_open]. unfold bind, c_open.
  destruct (sys_open (c :: path) open_directory_flags (world (fs_os w))) as [r k].
  assert (Htr : forall e, e ∈ trace (after (fs_os w) r k (EOpen (c :: path) open_directory_flags (libc r)))
    -> e ∈ trace (fs_os w) \/ exists path' fd, e = EOpen path' open_directory_flags fd /\
         Some (c :: path) = Some path').
  { cbn [after trace]. intros e He. apply elem_of_app in He as [He|He]; [by left|right].
    apply list_elem_of_singleton in He as ->. eauto. }
  destruct (Z.ltb_spec (libc r) 0); cbn -[after open_directory_flags].
  - split_and!; try done. unfold fs_inv. cbn. lia.
  - split_and!; try done. by intros _.
Qed.

Lemma stop_spec w :
  wp stop_squid_fs_plugin (fun r w' =>
    r = 0 /\ fs_started (fs_state w') = 0 /\ fs_inv w' /\
    trace (fs_os w') = trace (fs_os w) ++
      (if (fs_started (fs_state w) =? 0) || (root_fd (fs_context (fs_state w)) <? 0) then []
       else [EClose (root_fd (fs_context (fs_state w)))])) w.
Proof.
  unfold stop_squid_fs_plugin. apply wp_bind.
  change (wp get_state ?Q w) with (Q (fs_state w) w). cbv beta.
  destruct (Z.eqb_spec (fs_started (fs_state w)) 0) as [E|E]; cbn [negb orb].
  { apply wp_ret. rewrite app_nil_r. split_and!; auto. unfold fs_inv. by rewrite E. }
  unfold bind, set_state, wp, on_os, free_squid_fs_context.
  destruct (Z.leb_spec 0 (root_fd (fs_context (fs_state w)))),
    (Z.ltb_spec (root_fd (fs_context (fs_state w))) 0); try lia; cbn; unfold fs_inv; cbn;
    rewrite ?app_nil_r; done.
Qed.
End plugin.

(** ** Properties *)

Section lifecycle.
Context {W : Type} `{PosixLaws W}.

(** Life cycle of the filesystem plugin: starting a started plugin
    changes nothing; a start that reports success leaves the plugin started
    with an open root, and the only system call it makes is the opening of
    the configured root directory, without following a link; stopping closes
    exactly that descriptor, and a stopped plugin answers no packet and makes
    no system call. *)
Theorem fs_lifecycle getenv (w : fs_world W) :
  fs_inv w ->
  wp (start_squid_fs_plugin getenv) (fun r w1 =>
    (fs_started (fs_state w) <> 0 -> w1 = w) /\
    (r = 0 -> 0 <= root_fd (fs_context (fs_state w1))) /\
    (forall e, e ∈ trace (fs_os w1) -> e ∈ trace (fs_os w) \/
       exists path fd, e = EOpen path open_directory_flags fd /\
         get_root_path getenv 1024 = Some path) /\
    wp stop_squid_fs_plugin (fun r2 w2 =>
      r2 = 0 /\
      (r = 0 -> trace (fs_os w2) =
         trace (fs_os w1) ++ [EClose (root_fd (fs_context (fs_state w1)))]) /\
      forall port v b,
        exists b', handle_squid_fs_packet port v b w2 = Some ((-1, b'), w2)) w1) w.
Proof.
  intros HI. eapply wp_mono; [by apply start_spec|].
  intros r w1 (HI1 & Hst & Hidem & Htr). split_and!; [auto|auto|done|].
  eapply wp_mono; [apply stop_spec|]. intros r2 w2 (-> & Hst2 & _ & Htr2). split_and!; [done| |].
  - intros Hr. rewrite Htr2. specialize (Hst Hr). specialize (HI1 Hst).
    destruct (Z.eqb_spec (fs_started (fs_state w1)) 0); [done|].
    destruct (Z.ltb_spec (root_fd (fs_context (fs_state w1))) 0); [lia|done].
  - intros port v b. unfold handle_squid_fs_packet, packet_entry.
    destruct v as [v|]; [|by eexists]. destruct b as [b|]; [|by eexists].
    destruct (view_data v); [|by eexists]. case_test; [by eexists|].
    unfold fs_core, bind, get_state. cbn -[Z.eqb]. rewrite Hst2. by eexists.
Qed.
End lifecycle.

(** The plugin before its first start, on a kernel where the open succeeds. *)
Definition stopped_world : fs_world mem :=
  FsWorld sample_os (FsPluginState (FsContext (-1) 0) 0).

Lemma fs_lifecycle_witness :
  wp (start_squid_fs_plugin (fun _ => None)) (fun r w1 =>
    (0 <> 0 -> w1 = stopped_world) /\
    (r = 0 -> 0 <= root_fd (fs_context (fs_state w1))) /\
    (forall e, e ∈ trace (fs_os w1) -> e ∈ [] \/
       exists path fd, e = EOpen path open_directory_flags fd /\
         get_root_path (fun _ => None) 1024 = Some path) /\
    wp stop_squid_fs_plugin (fun r2 w2 =>
      r2 = 0 /\
      (r = 0 -> trace (fs_os w2) =
         trace (fs_os w1) ++ [EClose (root_fd (fs_context (fs_state w1)))]) /\
      forall port v b,
        exists b', handle_squid_fs_packet port v b w2 = Some ((-1, b'), w2)) w1) stopped_world.
Proof. apply (fs_lifecycle (fun _ => None) stopped_world). intros []. reflexivity. Defined.

(** The second LIST of the root directory: [open_root_copy] duplicates the
    root descriptor, so all listings of the root share one open file
    description and its read offset.  After one complete listing the next one
    finds the directory at its end and reports no entries, although nothing
    has changed; a subdirectory is opened anew and is listed again. *)
Definition list_root : list Z := [2; 0; 0; 0].
Definition list_docs : list Z := [2; 0; 0; 4] ++ text "docs".
Definition answer (rq : list Z) : ST (os mem) (list Z) :=
  let! '(b, n) :=
    handle_squid_fs_request (Some (FsContext 3 0)) (Some rq) (zlen rq)
      (Some (replicate 255 0)) 255 in
  ret (take (Z.to_nat n) b).

(** Listing the exported root twice: the first listing reports both
    entries and the end of the directory, the second reports the end of the
    directory and no entries, while a subdirectory can be listed again. *)
Theorem root_listed_once :
  wp (let! a1 := answer list_root in
      let! a2 := answer list_root in
      let! b1 := answer list_docs in
      let! b2 := answer list_docs in
      ret (a1, a2, b1, b2))
    (fun r _ =>
       r = ([130; 0; 255; 255; 2] ++ [2; 4] ++ text "docs" ++ [0; 0; 0; 0]
              ++ [1; 1] ++ text "b" ++ [0; 0; 0; 0],
            [130; 0; 255; 255; 0],
            [130; 0; 255; 255; 1; 1; 5] ++ text "a.txt" ++ [12; 0; 0; 0],
            [130; 0; 255; 255; 1; 1; 5] ++ text "a.txt" ++ [12; 0; 0; 0])) sample_os.
Proof. vm_compute. reflexivity. Qed.
