(* ===== verification/TcpProxy.v ===== *)
(** The TCP proxy core (lib/tcp_proxy/tcp_proxy_core.c).  The socket calls,
    the resolver and [poll] are a parameter, with the raw [-errno] results. *)
From stdpp Require Import base numbers list option strings.
From Stdlib Require Import ZArith Lia.
From S2P Require Import Prelude CLib Wire Posix.

Local Open Scope Z_scope.
Local Open Scope squid_scope.

(** ** Protocol constants (tcp_proxy_protocol.h) *)

Definition SQUID_TCP_PROTOCOL_VERSION : Z := 1.
Definition SQUID_TCP_OP_CAPABILITIES : Z := 0.
Definition SQUID_TCP_OP_CONNECT : Z := 1.
Definition SQUID_TCP_OP_WRITE : Z := 2.
Definition SQUID_TCP_OP_READ : Z := 3.
Definition SQUID_TCP_OP_CLOSE : Z := 4.
Definition SQUID_TCP_OP_STATUS : Z := 5.
Definition SQUID_TCP_RESPONSE_BIT : Z := 128.
Definition SQUID_TCP_STATUS_OK : Z := 0.
Definition SQUID_TCP_STATUS_BAD_REQUEST : Z := 1.
Definition SQUID_TCP_STATUS_NOT_CONNECTED : Z := 2.
Definition SQUID_TCP_STATUS_DNS_FAILED : Z := 3.
Definition SQUID_TCP_STATUS_CONNECT_FAILED : Z := 4.
Definition SQUID_TCP_STATUS_IO_ERROR : Z := 5.
Definition SQUID_TCP_STATUS_TIMEOUT : Z := 6.
Definition SQUID_TCP_STATUS_DENIED : Z := 7.
Definition SQUID_TCP_FEATURE_IPV4 : Z := 1.
Definition SQUID_TCP_FEATURE_IPV6 : Z := 2.
Definition SQUID_TCP_FEATURE_DNS : Z := 4.
Definition SQUID_TCP_FAMILY_UNKNOWN : Z := 0.
Definition SQUID_TCP_FAMILY_IPV4 : Z := 4.
Definition SQUID_TCP_FAMILY_IPV6 : Z := 6.
Definition SQUID_TCP_READ_EOF : Z := 1.
Definition SQUID_TCP_HOST_MAX : Z := 240.
Definition SQUID_TCP_READ_HEADER_SIZE : Z := 4.
Definition SQUID_TCP_READ_WAIT_MAX_MS : Z := 10000.
Definition squid_tcp_default_connect_timeout_ms : Z := 5000.
Definition squid_tcp_default_write_timeout_ms : Z := 5000.
Definition squid_tcp_timeout_max_ms : Z := 60000.
Definition squid_tcp_allowlist_max : Z := 1024.

Definition AF_INET6 : Z := 10.
Definition POLLIN : Z := 1.
Definition POLLOUT : Z := 4.
Definition POLLERR : Z := 8.
Definition POLLNVAL : Z := 32.
Definition O_NONBLOCK : Z := 2048.

(** ** The operating system *)

(** One entry of the list [getaddrinfo] returns. *)
Record addrinfo := AddrInfo { ai_family : Z; ai_addr : list Z }.

Class Sockets (W : Type) := {
  sys_socket : addrinfo -> W -> Z * W;
  sys_fcntl_getfl : Z -> W -> Z * W;
  sys_fcntl_setfl : Z -> Z -> W -> Z * W;
  sys_connect : Z -> addrinfo -> W -> Z * W;
  (** result and [revents] *)
  sys_poll : Z -> Z -> Z -> W -> Z * Z * W;
  (** result and [SO_ERROR] *)
  sys_getsockopt : Z -> W -> Z * Z * W;
  sys_send : Z -> list Z -> W -> Z * W;
  sys_recv : Z -> Z -> W -> Z * list Z * W;
  sys_close_socket : Z -> W -> W;
  getaddrinfo : list Z -> list Z -> W -> Z * list addrinfo * W;
  (** how many more times [poll] will be interrupted by a signal *)
  pending_signals : W -> nat }.

(** Documented facts: [recv] stores at most what was asked, [send] takes at
    most what was given; a [poll] that fails with [EINTR] has used up a
    signal. *)
Class SocketLaws (W : Type) `{Sockets W} : Prop := {
  recv_bound : forall fd n w,
    let '(r, data, _) := sys_recv fd n w in
    0 <= n -> 0 <= r -> r <= n /\ zlen data = r /\ bytes_ok data;
  send_bound : forall fd data w, (sys_send fd data w).1 <= zlen data;
  poll_signal : forall fd ev t w,
    let '(r, _, w') := sys_poll fd ev t w in
    r = - EINTR -> (pending_signals w' < pending_signals w)%nat }.

Inductive tcp_event :=
| TResolve (host service : list Z)
| TSocket (r : Z)
| TFcntl (fd : Z)
| TConnect (fd : Z) (address : addrinfo) (r : Z)
| TPoll (fd events timeout : Z)
| TGetsockopt (fd : Z)
| TSend (fd : Z) (data : list Z) (r : Z)
| TRecv (fd n : Z) (data : list Z) (r : Z)
| TClose (fd : Z).

Record tcp_os (W : Type) := TcpOs { t_world : W; t_errno : Z; t_trace : list tcp_event }.
Arguments TcpOs {W} _ _ _.
Arguments t_world {W} _.
Arguments t_errno {W} _.
Arguments t_trace {W} _.

(** ** Context and pure helpers *)

(** [allowed_hosts] is the string the array holds. *)
Record squid_tcp_context := TcpContext {
  socket_fd : Z;
  connect_timeout_ms : Z;
  write_timeout_ms : Z;
  allowed_hosts : list Z }.

(** A null [context] is [None], and so is a null list of hosts. *)
Definition init_squid_tcp_context (context : option squid_tcp_context) (hosts : option (list Z))
    (connect_timeout write_timeout : Z) : option squid_tcp_context :=
  let c :=
    if connect_timeout =? 0 then squid_tcp_default_connect_timeout_ms else connect_timeout in
  let w := if write_timeout =? 0 then squid_tcp_default_write_timeout_ms else write_timeout in
  let c := if squid_tcp_timeout_max_ms <? c then squid_tcp_timeout_max_ms else c in
  let w := if squid_tcp_timeout_max_ms <? w then squid_tcp_timeout_max_ms else w in
  match context with
  | None => None
  | Some _ =>
      Some (TcpContext (-1) c w
        (match hosts with
         | Some hosts => (snprintf squid_tcp_allowlist_max hosts).1
         | None => []
         end))
  end.

Fixpoint equal_ci (lhs rhs : list Z) : bool :=
  match lhs, rhs with
  | [], [] => true
  | a :: lhs, b :: rhs => if tolower a =? tolower b then equal_ci lhs rhs else false
  | _, _ => false
  end.
Definition text_equals_case_insensitive (lhs rhs : list Z) : bool :=
  if negb (zlen lhs =? zlen rhs) then false else equal_ci lhs rhs.

Definition ch_comma : Z := 44.

(** [while ((end > start) && isspace(end[-1])) --end]. *)
Fixpoint trim_end (s : list Z) : list Z :=
  match s with
  | [] => []
  | c :: s =>
      match trim_end s with
      | [] => if isspace c then [] else [c]
      | t => c :: t
      end
  end.

(** The outer [while] loop over the entries; every turn shortens [cursor]. *)
Fixpoint allow_loop (fuel : nat) (cursor host : list Z) : bool :=
  match fuel, cursor with
  | S fuel, _ :: _ =>
      let start := skip_while isspace cursor in
      let entry := trim_end (span (fun c => negb (c =? ch_comma)) start).1 in
      if text_equals_case_insensitive entry host then true
      else
        let cursor := drop (length entry) start in
        let cursor := skip_while (fun c => negb (c =? ch_comma)) cursor in
        let cursor := match cursor with _ :: cursor => cursor | [] => [] end in
        allow_loop fuel cursor host
  | _, _ => false
  end.

Definition host_is_allowed (context : squid_tcp_context) (host : list Z) : bool :=
  match allowed_hosts context with
  | [] => true
  | [c] => if c =? 42 then true else allow_loop 1 [c] host
  | hosts => allow_loop (length hosts) hosts host
  end.

(** The loop of [host_is_valid]: result and the [text] array. *)
Fixpoint host_loop (n : nat) (host : list Z) (index : Z) (text : list Z)
    : option (bool * list Z) :=
  match n with
  | O => Some (true, text)
  | S n =>
      let? c := rd host index in
      if (c =? 0) || isspace c || (c =? ch_slash) || (c =? 92) then Some (false, text)
      else
        let? text := wr text index c in
        host_loop n host (index + 1) text
  end.

Definition host_is_valid (host : option (list Z)) (host_size : Z) (text : list Z)
    : option (bool * list Z) :=
  match host with
  | None => Some (false, text)
  | Some host =>
      if (host_size =? 0) || (SQUID_TCP_HOST_MAX <? host_size) then Some (false, text)
      else
        let? '(ok, text) := host_loop (Z.to_nat host_size) host 0 text in
        if ok then let? text := wr text host_size 0 in Some (true, text)
        else Some (false, text)
  end.

(** [snprintf("%u")] of a 16-bit value. *)
Definition decimal_text (n : Z) : list Z := digits 5 n.

Section tcp.
Context {W : Type} `{Sockets W}.
Abbreviation M := (ST (tcp_os W)).

(** A call with its result as the C library reports it. *)
Definition t_after (s : tcp_os W) (r : Z) (w : W) (e : tcp_event) : tcp_os W :=
  TcpOs w (if r <? 0 then - r else t_errno s) (t_trace s ++ [e]).
Definition t_set_errno (e : Z) : M unit := fun s => Some (tt, TcpOs (t_world s) e (t_trace s)).
Definition t_get_errno : M Z := fun s => Some (t_errno s, s).
Definition t_socket (a : addrinfo) : M Z := fun s =>
  let '(r, w) := sys_socket a (t_world s) in Some (libc r, t_after s r w (TSocket (libc r))).
Definition t_fcntl (fd : Z) (f : W -> Z * W) : M Z := fun s =>
  let '(r, w) := f (t_world s) in Some (libc r, t_after s r w (TFcntl fd)).
Definition t_connect (fd : Z) (a : addrinfo) : M Z := fun s =>
  let '(r, w) := sys_connect fd a (t_world s) in
  Some (libc r, t_after s r w (TConnect fd a (libc r))).
Definition t_poll (fd events timeout : Z) : M (Z * Z) := fun s =>
  let '(r, revents, w) := sys_poll fd events timeout (t_world s) in
  Some ((libc r, revents), t_after s r w (TPoll fd events timeout)).
Definition t_getsockopt (fd : Z) : M (Z * Z) := fun s =>
  let '(r, e, w) := sys_getsockopt fd (t_world s) in
  Some ((libc r, e), t_after s r w (TGetsockopt fd)).
Definition t_send (fd : Z) (data : list Z) : M Z := fun s =>
  let '(r, w) := sys_send fd data (t_world s) in
  Some (libc r, t_after s r w (TSend fd data (libc r))).
Definition t_recv (fd n : Z) : M (Z * list Z) := fun s =>
  let '(r, data, w) := sys_recv fd n (t_world s) in
  let data := if r <? 0 then [] else data in
  Some ((libc r, data), t_after s r w (TRecv fd n data (libc r))).
Definition t_close (fd : Z) : M unit := fun s =>
  Some (tt, t_after s 0 (sys_close_socket fd (t_world s)) (TClose fd)).
Definition t_getaddrinfo (host service : list Z) : M (Z * list addrinfo) := fun s =>
  let '(r, l, w) := getaddrinfo host service (t_world s) in
  Some ((r, l), TcpOs w (t_errno s) (t_trace s ++ [TResolve host service])).

(** ** Connections *)

Definition close_connection (context : squid_tcp_context) : M squid_tcp_context :=
  if 0 <=? socket_fd context then
    do! t_close (socket_fd context);
    ret (TcpContext (-1) (connect_timeout_ms context) (write_timeout_ms context)
           (allowed_hosts context))
  else ret context.

Definition free_squid_tcp_context (context : option squid_tcp_context)
    : M (option squid_tcp_context) :=
  match context with
  | None => ret None
  | Some context =>
      do! close_connection context;
      ret (Some (TcpContext (-1) 0 0 []))
  end.

Definition set_nonblocking (fd : Z) : M Z :=
  let! flags := t_fcntl fd (sys_fcntl_getfl fd) in
  if flags <? 0 then ret (-1)
  else t_fcntl fd (sys_fcntl_setfl fd (Z.lor flags O_NONBLOCK)).

(** The [do ... while] around [poll]; running out of [fuel] is an endless
    loop. *)
Fixpoint poll_loop (fuel : nat) (fd events timeout_ms : Z) : M (Z * Z) :=
  match fuel with
  | O => lift None
  | S fuel =>
      let! '(result, revents) := t_poll fd events timeout_ms in
      let! e := t_get_errno in
      if (result <? 0) && (e =? EINTR) then poll_loop fuel fd events timeout_ms
      else ret (result, revents)
  end.

Definition wait_for_socket (fd events timeout_ms : Z) : M Z := fun s =>
  (let! '(result, revents) :=
     poll_loop (S (pending_signals (t_world s))) fd events timeout_ms in
   if result <=? 0 then ret result
   else if negb (Z.land revents (Z.lor POLLERR POLLNVAL) =? 0) then
     do! t_set_errno EIO; ret (-1)
   else ret 1) s.

Definition connect_address (address : addrinfo) (timeout_ms : Z) : M Z :=
  let! fd := t_socket address in
  if fd <? 0 then ret (-1)
  else
    let! blocking := set_nonblocking fd in
    if negb (blocking =? 0) then do! t_close fd; ret (-1)
    else
      let! result := t_connect fd address in
      let! e := t_get_errno in
      if negb (result =? 0) && negb (e =? EINPROGRESS) then do! t_close fd; ret (-1)
      else if negb (result =? 0) then
        let! result := wait_for_socket fd POLLOUT timeout_ms in
        if result <=? 0 then
          do! (if result =? 0 then t_set_errno ETIMEDOUT else ret tt);
          do! t_close fd;
          ret (-1)
        else
          let! '(opt, socket_error) := t_getsockopt fd in
          if negb (opt =? 0) || negb (socket_error =? 0) then
            do! (if negb (socket_error =? 0) then t_set_errno socket_error else ret tt);
            do! t_close fd;
            ret (-1)
          else ret fd
      else ret fd.

(** The [for] loop over the addresses: descriptor and family. *)
Fixpoint connect_loop (addresses : list addrinfo) (timeout_ms : Z) : M (Z * Z) :=
  match addresses with
  | [] => ret (-1, SQUID_TCP_FAMILY_UNKNOWN)
  | address :: addresses =>
      let! fd := connect_address address timeout_ms in
      if 0 <=? fd then
        ret (fd, if ai_family address =? AF_INET6 then SQUID_TCP_FAMILY_IPV6
                 else SQUID_TCP_FAMILY_IPV4)
      else connect_loop addresses timeout_ms
  end.

(** ** Request handlers: response array, C result, context *)

Definition answer : Type := list Z * Z * squid_tcp_context.

Definition t_reply (context : squid_tcp_context) (opcode status : Z) (response : list Z)
    (response_capacity : Z) : M answer :=
  let! '(response, n) := lift (write_status opcode status (Some response) response_capacity) in
  ret (response, n, context).

Definition handle_capabilities (context : squid_tcp_context) (opcode : Z) (response : list Z)
    (response_capacity : Z) : M answer :=
  if response_capacity <? 7 then ret (response, -1, context)
  else
    let! response := lift (
      let? response := wr response 0 (u8 (Z.lor opcode SQUID_TCP_RESPONSE_BIT)) in
      let? response := wr response 1 SQUID_TCP_STATUS_OK in
      let? response := wr response 2 SQUID_TCP_PROTOCOL_VERSION in
      let? response := wr response 3
        (Z.lor (Z.lor SQUID_TCP_FEATURE_IPV4 SQUID_TCP_FEATURE_IPV6) SQUID_TCP_FEATURE_DNS) in
      let? response := wr response 4 SQUID_TCP_HOST_MAX in
      let? response := wr response 5
        (if SQUID_TCP_READ_HEADER_SIZE <? response_capacity
         then u8 (response_capacity - SQUID_TCP_READ_HEADER_SIZE) else 0) in
      wr response 6 (if 2 <? response_capacity then u8 (response_capacity - 2) else 0)) in
    ret (response, 7, context).

Definition handle_connect (context : squid_tcp_context) (opcode : Z) (request : list Z)
    (request_size : Z) (response : list Z) (response_capacity : Z) : M answer :=
  let fail status := t_reply context opcode status response response_capacity in
  if request_size <? 5 then fail SQUID_TCP_STATUS_BAD_REQUEST
  else
    let! port := lift (read_u16 request 1) in
    let! host_size := lift (rd request 3) in
    let! '(ok, host) :=
      (if (port =? 0) || negb (host_size =? u64 (request_size - 4))
       then ret (false, uninit (SQUID_TCP_HOST_MAX + 1))
       else lift (host_is_valid (Some (drop 4 request)) host_size
                    (uninit (SQUID_TCP_HOST_MAX + 1)))) in
    if negb ok then fail SQUID_TCP_STATUS_BAD_REQUEST
    else
      let! host := lift (cstring host) in
      if negb (host_is_allowed context host) then fail SQUID_TCP_STATUS_DENIED
      else
        let service := (snprintf 6 (decimal_text port)).1 in
        let! '(lookup_result, addresses) := t_getaddrinfo host service in
        if negb (lookup_result =? 0) then fail SQUID_TCP_STATUS_DNS_FAILED
        else
          let! '(connected_fd, family) :=
            connect_loop addresses (connect_timeout_ms context) in
          if connected_fd <? 0 then
            let! e := t_get_errno in
            fail (if e =? ETIMEDOUT then SQUID_TCP_STATUS_TIMEOUT
                  else SQUID_TCP_STATUS_CONNECT_FAILED)
          else if response_capacity <? 3 then
            do! t_close connected_fd;
            ret (response, -1, context)
          else
            let! context := close_connection context in
            let context :=
              TcpContext connected_fd (connect_timeout_ms context) (write_timeout_ms context)
                (allowed_hosts context) in
            let! response := lift (
              let? response := wr response 0 (u8 (Z.lor opcode SQUID_TCP_RESPONSE_BIT)) in
              let? response := wr response 1 SQUID_TCP_STATUS_OK in
              wr response 2 family) in
            ret (response, 3, context).

Definition handle_write (context : squid_tcp_context) (opcode : Z) (request : list Z)
    (request_size : Z) (response : list Z) (response_capacity : Z) : M answer :=
  let fail context status := t_reply context opcode status response response_capacity in
  let! bad :=
    (if request_size <? 3 then ret true
     else
       let! n := lift (rd request 1) in
       ret (negb (n =? u64 (request_size - 2)) || (n =? 0))) in
  if (bad : bool) then fail context SQUID_TCP_STATUS_BAD_REQUEST
  else if socket_fd context <? 0 then fail context SQUID_TCP_STATUS_NOT_CONNECTED
  else
    let! data_size := lift (rd request 1) in
    let! ready := wait_for_socket (socket_fd context) POLLOUT (write_timeout_ms context) in
    if ready =? 0 then fail context SQUID_TCP_STATUS_TIMEOUT
    else if ready <? 0 then
      let! context := close_connection context in fail context SQUID_TCP_STATUS_IO_ERROR
    else
      let! data := lift (rd_bytes request 2 data_size) in
      let! written := t_send (socket_fd context) data in
      if written <=? 0 then
        let! e := t_get_errno in
        if (written <? 0) && (e =? EAGAIN) then fail context SQUID_TCP_STATUS_TIMEOUT
        else
          let! context := close_connection context in fail context SQUID_TCP_STATUS_IO_ERROR
      else if response_capacity <? 3 then ret (response, -1, context)
      else
        let! response := lift (
          let? response := wr response 0 (u8 (Z.lor opcode SQUID_TCP_RESPONSE_BIT)) in
          let? response := wr response 1 SQUID_TCP_STATUS_OK in
          wr response 2 (u8 written)) in
        ret (response, 3, context).

(** How many bytes READ asks [recv] for. *)
Definition read_capacity (response_capacity maximum_bytes : Z) : Z :=
  let data_capacity := response_capacity - SQUID_TCP_READ_HEADER_SIZE in
  let data_capacity :=
    if (0 <? maximum_bytes) && (maximum_bytes <? data_capacity) then maximum_bytes
    else data_capacity in
  if UINT8_MAX <? data_capacity then UINT8_MAX else data_capacity.

Definition handle_read (context : squid_tcp_context) (opcode : Z) (request : list Z)
    (request_size : Z) (response : list Z) (response_capacity : Z) : M answer :=
  let fail context status := t_reply context opcode status response response_capacity in
  if negb (request_size =? 4) then fail context SQUID_TCP_STATUS_BAD_REQUEST
  else if socket_fd context <? 0 then fail context SQUID_TCP_STATUS_NOT_CONNECTED
  else if response_capacity <? SQUID_TCP_READ_HEADER_SIZE then ret (response, -1, context)
  else
    let! wait_ms := lift (read_u16 request 1) in
    let! maximum_bytes := lift (rd request 3) in
    if SQUID_TCP_READ_WAIT_MAX_MS <? wait_ms then fail context SQUID_TCP_STATUS_BAD_REQUEST
    else
      let! ready := wait_for_socket (socket_fd context) POLLIN wait_ms in
      if ready <? 0 then
        let! context := close_connection context in fail context SQUID_TCP_STATUS_IO_ERROR
      else
        let! response := lift (
          let? response := wr response 0 (u8 (Z.lor opcode SQUID_TCP_RESPONSE_BIT)) in
          let? response := wr response 1 SQUID_TCP_STATUS_OK in
          let? response := wr response 2 0 in
          wr response 3 0) in
        if ready =? 0 then ret (response, SQUID_TCP_READ_HEADER_SIZE, context)
        else
          let! '(received, data) :=
            t_recv (socket_fd context) (read_capacity response_capacity maximum_bytes) in
          let! response := lift (wr_bytes response SQUID_TCP_READ_HEADER_SIZE data) in
          if received =? 0 then
            let! response := lift (wr response 2 SQUID_TCP_READ_EOF) in
            let! context := close_connection context in
            ret (response, SQUID_TCP_READ_HEADER_SIZE, context)
          else if received <? 0 then
            let! e := t_get_errno in
            if e =? EAGAIN then ret (response, SQUID_TCP_READ_HEADER_SIZE, context)
            else
              let! context := close_connection context in
              t_reply context opcode SQUID_TCP_STATUS_IO_ERROR response response_capacity
          else
            let! response := lift (wr response 3 (u8 received)) in
            ret (response, s32 (SQUID_TCP_READ_HEADER_SIZE + received), context).

Definition handle_status (context : squid_tcp_context) (opcode : Z) (response : list Z)
    (response_capacity : Z) : M answer :=
  if response_capacity <? 3 then ret (response, -1, context)
  else
    let! response := lift (
      let? response := wr response 0 (u8 (Z.lor opcode SQUID_TCP_RESPONSE_BIT)) in
      let? response := wr response 1 SQUID_TCP_STATUS_OK in
      wr response 2 (if 0 <=? socket_fd context then 1 else 0)) in
    ret (response, 3, context).

(** The [switch] over the opcode. *)
Definition tcp_dispatch (context : squid_tcp_context) (opcode : Z) (request : list Z)
    (request_size : Z) (response : list Z) (response_capacity : Z) : M answer :=
  let bad := t_reply context opcode SQUID_TCP_STATUS_BAD_REQUEST response response_capacity in
  if opcode =? SQUID_TCP_OP_CAPABILITIES then
    if negb (request_size =? 1) then bad
    else handle_capabilities context opcode response response_capacity
  else if opcode =? SQUID_TCP_OP_CONNECT then
    handle_connect context opcode request request_size response response_capacity
  else if opcode =? SQUID_TCP_OP_WRITE then
    handle_write context opcode request request_size response response_capacity
  else if opcode =? SQUID_TCP_OP_READ then
    handle_read context opcode request request_size response response_capacity
  else if opcode =? SQUID_TCP_OP_CLOSE then
    if negb (request_size =? 1) then bad
    else
      let! context := close_connection context in
      t_reply context opcode SQUID_TCP_STATUS_OK response response_capacity
  else if opcode =? SQUID_TCP_OP_STATUS then
    if negb (request_size =? 1) then bad
    else handle_status context opcode response response_capacity
  else bad.

(** Null pointers are [None]; the context afterwards is the last component. *)
Definition handle_squid_tcp_request (context : option squid_tcp_context)
    (request : option (list Z)) (request_size : Z) (response : option (list Z))
    (response_capacity : Z) : M (list Z * Z * option squid_tcp_context) :=
  match context, request, response with
  | Some ctx, Some request, Some response =>
      if (request_size =? 0) || (response_capacity <? 2) then ret (response, -1, context)
      else
        let! opcode := lift (rd request 0) in
        let! '(response, n, ctx) :=
          tcp_dispatch ctx opcode request request_size response response_capacity in
        ret (response, n, Some ctx)
  | _, _, Some response => ret (response, -1, context)
  | _, _, None => ret ([], -1, context)
  end.
End tcp.
