(* ===== verification/TcpProps.v ===== *)
(** The TCP proxy: destination control, safety and the socket discipline. *)
From stdpp Require Import base numbers list option strings.
From Stdlib Require Import ZArith Lia.
From S2P Require Import Prelude CLib Wire Posix PluginApi FsPath TcpProxy.

Local Open Scope Z_scope.
Local Open Scope squid_scope.

(** ** Destination control *)

(** [core] is [e] without the white space around it. *)
Definition spaces (s : list Z) : Prop := Forall (fun c => isspace c = true) s.
Definition stripped (e core : list Z) : Prop :=
  (exists l r, e = l ++ core ++ r /\ spaces l /\ spaces r) /\
  (forall c t, core = c :: t -> isspace c = false) /\
  (forall c t, core = t ++ [c] -> isspace c = false).

(** The documented rule: the list is empty or "*", or one of its
    comma-separated entries, without surrounding white space, is the host up
    to case. *)
Definition listed (hosts host : list Z) : Prop :=
  exists e core, e ∈ split_from ch_comma [] hosts /\ stripped e core /\
    map tolower core = map tolower host.
Definition host_rule (hosts host : list Z) : Prop := hosts = [] \/ hosts = [42] \/ listed hosts host.

(** *** What the scan cuts off *)

Lemma skip_spaces l s : spaces l -> skip_while isspace (l ++ s) = skip_while isspace s.
Proof. induction 1 as [|c l Hc _ IH]; [done|]. cbn. by rewrite Hc. Qed.
Lemma skip_while_parts e : exists l, spaces l /\ e = l ++ skip_while isspace e /\
  forall c t, skip_while isspace e = c :: t -> isspace c = false.
Proof.
  induction e as [|c e (l & Hl & He & Hh)]; [exists []; by split_and!; [constructor|..]|]. cbn. destruct (isspace c) eqn:E.
  - exists (c :: l). split_and!; [by constructor|by cbn; f_equal|done].
  - exists []. split_and!; [constructor|done|]. by intros ? ? [= <- _].
Qed.

Lemma trim_end_spaces a r : spaces r -> trim_end (a ++ r) = trim_end a.
Proof.
  intros Hr. induction a as [|c a IH]; cbn; [|by rewrite IH].
  induction Hr as [|c r Hc _ IH]; [done|]. cbn. by rewrite IH, Hc.
Qed.
Lemma trim_end_word t c : isspace c = false -> trim_end (t ++ [c]) = t ++ [c].
Proof.
  intros Hc. induction t as [|d t IH]; cbn; [by rewrite Hc|]. rewrite IH. by destruct t.
Qed.
Lemma trim_end_parts e : exists r, spaces r /\ e = trim_end e ++ r /\
  forall c t, trim_end e = t ++ [c] -> isspace c = false.
Proof.
  induction e as [|c e (r & Hr & He & Hl)]; [exists []; split_and!; [constructor|done|by intros ? []]|].
  cbn [trim_end]. destruct (trim_end e) as [|d t] eqn:E.
  - destruct (isspace c) eqn:Ec.
    + exists (c :: r). split_and!; [by constructor|by cbn; f_equal|by intros ? []].
    + exists r. split_and!; [done|by cbn; f_equal|].
      intros x [|y t]; [by intros [= <-]|]. intros [= _ Ht]. by destruct t.
  - exists r. split_and!; [done|by cbn; f_equal|]. intros x [|y t']; [by intros [=]|].
    intros [= <- Ht]. by apply (Hl x t').
Qed.

Lemma stripped_scan e core : stripped e core <-> core = trim_end (skip_while isspace e).
Proof.
  split.
  - intros ((l & r & -> & Hl & Hr) & Hfirst & Hlast). rewrite skip_spaces by done.
    destruct core as [|c t _] using rev_ind.
    + cbn. rewrite <- (app_nil_r r), skip_spaces by done. done.
    + rewrite <- (trim_end_word t c) at 1 by (by eapply Hlast). rewrite <- (trim_end_spaces _ r Hr).
      f_equal. destruct t as [|d t]; cbn; [by rewrite (Hfirst c [])|].
      by rewrite (Hfirst d (t ++ [c])).
  - intros ->. destruct (skip_while_parts e) as (l & Hl & He & Hh).
    destruct (trim_end_parts (skip_while isspace e)) as (r & Hr & Hs & Hlast). split_and!; [|  |done].
    + exists l, r. by rewrite <- Hs.
    + intros c t Ht. rewrite Ht in Hs. by apply (Hh c (t ++ r)).
Qed.

Lemma equal_ci_spec a b : equal_ci a b = true <-> map tolower a = map tolower b.
Proof.
  revert b. induction a as [|x a IH]; intros [|y b]; cbn; try done.
  destruct (Z.eqb_spec (tolower x) (tolower y)) as [->|Hne].
  - rewrite IH. split; [by intros ->|by intros [= ->]].
  - split; [done|]. intros [= ? ?]. done.
Qed.

Lemma text_equals_spec a b : text_equals_case_insensitive a b = equal_ci a b.
Proof.
  unfold text_equals_case_insensitive. destruct (Z.eqb_spec (zlen a) (zlen b)); [done|]. cbn.
  destruct (equal_ci a b) eqn:E; [|done]. apply equal_ci_spec in E.
  apply (f_equal length) in E. rewrite !length_map in E. unfold zlen in *. lia.
Qed.

Definition no_comma (s : list Z) : Prop := Forall (fun c => c <> ch_comma) s.

(** A string is its first field and then nothing or a comma and the rest. *)
Lemma first_field s :
  exists e, no_comma e /\
    ((s = e /\ split_from ch_comma [] s = [e]) \/
     exists r, s = e ++ ch_comma :: r /\ split_from ch_comma [] s = e :: split_from ch_comma [] r).
Proof.
  assert (Hg : forall s cur, exists e, no_comma e /\
    ((s = e /\ split_from ch_comma cur s = [cur ++ e]) \/
     exists r, s = e ++ ch_comma :: r /\
       split_from ch_comma cur s = (cur ++ e) :: split_from ch_comma [] r)).
  { clear s. induction s as [|c s IH]; intros cur.
    - exists []. split; [constructor|]. left. by rewrite app_nil_r.
    - cbn. destruct (Z.eqb_spec c ch_comma) as [->|Hne].
      + exists []. split; [constructor|]. right. exists s. by rewrite app_nil_r.
      + destruct (IH (cur ++ [c])) as (e & He & [[-> Hs]|(r & -> & Hs)]).
        * exists (c :: e). split; [by constructor|]. left. by rewrite Hs, <- app_assoc.
        * exists (c :: e). split; [by constructor|]. right. exists r.
          by rewrite Hs, <- app_assoc. }
  destruct (Hg s []) as (e & He & Hs). exists e. by split.
Qed.

Definition field_end (rest : list Z) : Prop := rest = [] \/ exists r, rest = ch_comma :: r.

Lemma skip_space_field e rest :
  field_end rest -> skip_while isspace (e ++ rest) = skip_while isspace e ++ rest.
Proof.
  intros Hr. induction e as [|c e IH]; cbn.
  - destruct Hr as [->|[r ->]]; done.
  - by destruct (isspace c).
Qed.

Lemma span_field e rest :
  no_comma e -> field_end rest -> span (fun c => negb (c =? ch_comma)) (e ++ rest) = (e, rest).
Proof.
  intros He Hr. induction He as [|c e Hc _ IH]; cbn.
  - destruct Hr as [->|[r ->]]; done.
  - destruct (Z.eqb_spec c ch_comma); [done|]. cbn. by rewrite IH.
Qed.

Lemma skip_field e rest :
  no_comma e -> field_end rest -> skip_while (fun c => negb (c =? ch_comma)) (e ++ rest) = rest.
Proof.
  intros He Hr. induction He as [|c e Hc _ IH]; cbn.
  - destruct Hr as [->|[r ->]]; done.
  - destruct (Z.eqb_spec c ch_comma); [done|]. cbn. done.
Qed.

Lemma no_comma_skip e : no_comma e -> no_comma (skip_while isspace e).
Proof. induction 1; cbn; [constructor|]. destruct (isspace _); [done|by constructor]. Qed.

Lemma trim_end_len e : (length (trim_end e) <= length e)%nat.
Proof.
  induction e as [|c e IH]; cbn; [done|].
  destruct (trim_end e); [destruct (isspace c)|]; cbn in *; lia.
Qed.

Lemma allow_step s e rest :
  no_comma e -> field_end rest -> s = e ++ rest ->
  let start := skip_while isspace s in
  let entry := trim_end (span (fun c => negb (c =? ch_comma)) start).1 in
  entry = trim_end (skip_while isspace e) /\
  skip_while (fun c => negb (c =? ch_comma)) (drop (length entry) start) = rest.
Proof.
  intros He Hr -> start entry. subst start entry.
  rewrite skip_space_field, span_field by (done || by apply no_comma_skip). cbn [fst].
  split; [done|]. rewrite drop_app_le by apply trim_end_len.
  apply skip_field; [|done]. apply Forall_drop. by apply no_comma_skip.
Qed.

Lemma allow_loop_spec host fuel : forall s,
  host <> [] -> (length s <= fuel)%nat ->
  allow_loop fuel s host = true <->
  exists e, e ∈ split_from ch_comma [] s /\
    map tolower (trim_end (skip_while isspace e)) = map tolower host.
Proof.
  assert (Hnil : host <> [] ->
    ~ exists e, e ∈ split_from ch_comma [] [] /\
      map tolower (trim_end (skip_while isspace e)) = map tolower host).
  { intros Hh (e & Hin & Heq). cbn in Hin. apply list_elem_of_singleton in Hin as ->. 
    by destruct host. }
  induction fuel as [|fuel IH]; intros s Hh Hl.
  { destruct s; [|cbn in Hl; lia]. cbn [allow_loop]. split; [done|]. intros Hx.
    by apply Hnil in Hh. }
  destruct s as [|c s0]; [cbn [allow_loop]; split; [done|]; intros Hx; by apply Hnil in Hh|].
  set (s := c :: s0) in *.
  assert (Hunf : allow_loop (S fuel) s host =
    let start := skip_while isspace s in
    let entry := trim_end (span (fun c => negb (c =? ch_comma)) start).1 in
    if text_equals_case_insensitive entry host then true
    else
      let cursor := skip_while (fun c => negb (c =? ch_comma)) (drop (length entry) start) in
      allow_loop fuel (match cursor with _ :: cursor => cursor | [] => [] end) host) by done.
  rewrite Hunf. clear Hunf. cbv zeta.
  destruct (first_field s) as (e & He & Hs).
  assert (exists rest, field_end rest /\ s = e ++ rest /\
    split_from ch_comma [] s = e :: match rest with _ :: r => split_from ch_comma [] r | [] => [] end)
    as (rest & Hfe & Hse & Hsp).
  { destruct Hs as [[-> Hsp]|(r & -> & Hsp)].
    - exists []. rewrite app_nil_r. split_and!; [by left|done|done].
    - exists (ch_comma :: r). split_and!; [right; by eexists|done|done]. }
  destruct (allow_step s e rest He Hfe Hse) as [-> ->].
  rewrite text_equals_spec, Hsp. destruct (equal_ci (trim_end (skip_while isspace e)) host) eqn:Eq.
  - split; [|done]. intros _. exists e. split; [apply list_elem_of_here|]. by apply equal_ci_spec.
  - assert (Hne : map tolower (trim_end (skip_while isspace e)) <> map tolower host).
    { intros Hx. apply equal_ci_spec in Hx. congruence. }
    destruct Hfe as [->|[r ->]].
    + assert (Ha : allow_loop fuel [] host = false) by (by destruct fuel). rewrite Ha.
      split; [done|]. intros (x & Hin & Hx). apply list_elem_of_singleton in Hin as ->. done.
    + rewrite IH by (done || (apply (f_equal length) in Hse; rewrite length_app in Hse;
        cbn in *; lia)).
      split; intros (x & Hin & Hx).
      * exists x. split; [by apply list_elem_of_further|done].
      * inversion Hin; subst; [done|]. eauto.
Qed.

Lemma allow_loop_listed host s :
  host <> [] -> allow_loop (length s) s host = true <-> listed s host.
Proof.
  intros Hh. rewrite allow_loop_spec by done. split.
  - intros (e & Hin & He). eexists e, _. split; [done|]. by split; [apply stripped_scan|].
  - intros (e & core & Hin & ->%stripped_scan & He). by exists e.
Qed.

Lemma host_is_allowed_spec context host :
  host <> [] -> host_is_allowed context host = true <-> host_rule (allowed_hosts context) host.
Proof.
  intros Hh. unfold host_is_allowed, host_rule. destruct (allowed_hosts context) as [|c [|d s]].
  - split; [by left|done].
  - destruct (Z.eqb_spec c 42) as [->|Hc]; [split; [by right; left|done]|].
    rewrite (allow_loop_listed host [c]) by done. split; [by right; right|].
    intros [?|[?|?]]; [done|congruence|done].
  - rewrite allow_loop_listed by done. split; [by right; right|].
    intros [?|[?|?]]; done.
Qed.

(** C33. Destination control: a host is allowed exactly when the list is empty or
    "*", or one of its comma-separated entries, with surrounding white space
    removed on both sides, equals it up to case; in particular the scan of the list
    terminates for every list. *)
Theorem host_is_allowed_exact context host :
  host <> [] -> host_is_allowed context host = true <-> host_rule (allowed_hosts context) host.
Proof. apply host_is_allowed_spec. Qed.

Lemma host_is_allowed_exact_witness :
  host_is_allowed (TcpContext (-1) 1 1 (text "a.org , Example.COM,b")) (text "example.com") = true
  <-> host_rule (text "a.org , Example.COM,b") (text "example.com").
Proof. apply host_is_allowed_exact. discriminate. Defined.

(** ** Socket discipline *)

(** With the sockets [fds] open, the event uses only open sockets and leaves
    the given ones open. *)
Inductive tcp_step : list Z -> tcp_event -> list Z -> Prop :=
| tcp_resolve fds h sv : tcp_step fds (TResolve h sv) fds
| tcp_socket fds r : 0 <= r -> tcp_step fds (TSocket r) (r :: fds)
| tcp_socket_fail fds : tcp_step fds (TSocket (-1)) fds
| tcp_fcntl fds fd : fd ∈ fds -> tcp_step fds (TFcntl fd) fds
| tcp_connect fds fd a r : fd ∈ fds -> tcp_step fds (TConnect fd a r) fds
| tcp_poll fds fd ev t : fd ∈ fds -> tcp_step fds (TPoll fd ev t) fds
| tcp_getsockopt fds fd : fd ∈ fds -> tcp_step fds (TGetsockopt fd) fds
| tcp_send fds fd data r : fd ∈ fds -> tcp_step fds (TSend fd data r) fds
| tcp_recv fds fd n data r : fd ∈ fds -> tcp_step fds (TRecv fd n data r) fds
| tcp_close fds1 fd fds2 : tcp_step (fds1 ++ fd :: fds2) (TClose fd) (fds1 ++ fds2).

Inductive tcp_run : list Z -> list tcp_event -> list Z -> Prop :=
| tcp_run_nil fds : tcp_run fds [] fds
| tcp_run_snoc fds es fds' e fds'' :
    tcp_run fds es fds' -> tcp_step fds' e fds'' -> tcp_run fds (es ++ [e]) fds''.

(** The socket a context holds. *)
Definition held (context : squid_tcp_context) : list Z :=
  if 0 <=? socket_fd context then [socket_fd context] else [].

Section safety.
Context {W : Type} `{SocketLaws W}.
Variables (fds0 : list Z) (s0 : tcp_os W).

Definition tprogress (s : tcp_os W) (fds : list Z) : Prop :=
  exists es, t_trace s = t_trace s0 ++ es /\ tcp_run fds0 es fds.

Lemma tprogress_refl : tprogress s0 fds0.
Proof. exists []. rewrite app_nil_r. split; [done|constructor]. Qed.

Lemma tprogress_step s fds e w er fds' :
  tprogress s fds -> tcp_step fds e fds' -> tprogress (TcpOs w er (t_trace s ++ [e])) fds'.
Proof.
  intros (es & Ht & Hr) Hs. exists (es ++ [e]). split; [|by econstructor].
  cbn. by rewrite Ht, <- app_assoc.
Qed.

Lemma tprogress_errno s e fds : tprogress s fds -> tprogress (TcpOs (t_world s) e (t_trace s)) fds.
Proof. done. Qed.

Ltac use_rule :=
  intros Hp Hfd HQ; unfold wp, t_fcntl, t_connect, t_getsockopt; repeat case_match; simplify_eq; apply HQ;
  try apply libc_range; eapply tprogress_step; [done|by constructor].

Lemma wp_t_socket a Q s fds :
  tprogress s fds -> (forall s', tprogress s' fds -> Q (-1) s') ->
  (forall r s', 0 <= r -> tprogress s' (r :: fds) -> Q r s') -> wp (t_socket a) Q s.
Proof.
  intros Hp HQ1 HQ2. unfold wp, t_socket. destruct (sys_socket a (t_world s)) as [r w].
  destruct (libc_range r) as [E|E].
  - rewrite E. apply HQ1. eapply tprogress_step; [done|constructor].
  - apply HQ2; [done|]. eapply tprogress_step; [done|by constructor].
Qed.
Lemma wp_t_fcntl fd f Q s fds :
  tprogress s fds -> fd ∈ fds -> (forall r s', tprogress s' fds -> Q r s') ->
  wp (t_fcntl fd f) Q s.
Proof. use_rule. Qed.
Lemma wp_t_connect fd a Q s fds :
  tprogress s fds -> fd ∈ fds -> (forall r s', tprogress s' fds -> Q r s') ->
  wp (t_connect fd a) Q s.
Proof. use_rule. Qed.
Lemma wp_t_getsockopt fd Q s fds :
  tprogress s fds -> fd ∈ fds -> (forall r s', tprogress s' fds -> Q r s') ->
  wp (t_getsockopt fd) Q s.
Proof. use_rule. Qed.
Lemma wp_t_get_errno (Q : Z -> tcp_os W -> Prop) s : Q (t_errno s) s -> wp t_get_errno Q s.
Proof. done. Qed.
Lemma wp_t_set_errno e Q s fds :
  tprogress s fds -> (forall s', tprogress s' fds -> Q tt s') -> wp (t_set_errno e) Q s.
Proof. intros Hp HQ. by apply HQ. Qed.
Lemma wp_t_close fd Q s fds1 fds2 :
  tprogress s (fds1 ++ fd :: fds2) -> (forall s', tprogress s' (fds1 ++ fds2) -> Q tt s') ->
  wp (t_close fd) Q s.
Proof. intros Hp HQ. apply HQ. eapply tprogress_step; [done|constructor]. Qed.
Lemma wp_t_getaddrinfo h sv Q s fds :
  tprogress s fds -> (forall r s', tprogress s' fds -> Q r s') -> wp (t_getaddrinfo h sv) Q s.
Proof.
  intros Hp HQ. unfold wp, t_getaddrinfo. destruct (getaddrinfo h sv (t_world s)) as [[r l] w].
  apply HQ. eapply tprogress_step; [done|constructor].
Qed.
Lemma wp_t_send fd data Q s fds :
  tprogress s fds -> fd ∈ fds ->
  (forall r s', r = -1 \/ 0 <= r <= zlen data -> tprogress s' fds -> Q r s') ->
  wp (t_send fd data) Q s.
Proof.
  intros Hp Hfd HQ. unfold wp, t_send. pose proof (send_bound fd data (t_world s)) as HL.
  destruct (sys_send fd data (t_world s)) as [r w]. cbn in HL. apply HQ.
  - unfold libc. destruct (Z.ltb_spec r 0); [by left|right; lia].
  - eapply tprogress_step; [done|by constructor].
Qed.
Lemma wp_t_recv fd n Q s fds :
  tprogress s fds -> fd ∈ fds -> 0 <= n ->
  (forall r data s', (r = -1 /\ data = [] \/ 0 <= r <= n /\ zlen data = r /\ bytes_ok data) ->
     TRecv fd n data r ∈ t_trace s' -> tprogress s' fds -> Q (r, data) s') ->
  wp (t_recv fd n) Q s.
Proof.
  intros Hp Hfd Hn HQ. unfold wp, t_recv. pose proof (recv_bound fd n (t_world s)) as HL.
  destruct (sys_recv fd n (t_world s)) as [[r data] w]. apply HQ.
  - unfold libc. destruct (Z.ltb_spec r 0); [by left|right]. destruct HL as (?&?&?); try done.
  - cbn. apply elem_of_app. right. apply list_elem_of_here.
  - eapply tprogress_step; [done|by constructor].
Qed.

(** The [poll] loop ends: each interruption uses up a signal. *)
Lemma poll_loop_spec fd ev t fuel : forall Q s fds,
  tprogress s fds -> fd ∈ fds -> (pending_signals (t_world s) < fuel)%nat ->
  (forall r s', tprogress s' fds -> Q r s') -> wp (poll_loop fuel fd ev t) Q s.
Proof.
  induction fuel as [|fuel IH]; intros Q s fds Hp Hfd Hf HQ; [lia|]. cbn [poll_loop].
  apply wp_bind. unfold wp at 1, t_poll. pose proof (poll_signal fd ev t (t_world s)) as HL.
  destruct (sys_poll fd ev t (t_world s)) as [[r rev] w].
  assert (Hp' : tprogress (t_after s r w (TPoll fd ev t)) fds)
    by (eapply tprogress_step; [done|by constructor]).
  apply wp_bind, wp_t_get_errno. case_test; [|by apply wp_ret, HQ].
  eapply IH; try done. cbn [t_after t_world t_errno] in *.
  apply andb_true_iff in E as [E1 E2]. unfold libc in E1.
  destruct (Z.ltb_spec r 0); [|lia]. specialize (HL ltac:(lia)). lia.
Qed.

Lemma wait_spec fd ev t Q s fds :
  tprogress s fds -> fd ∈ fds ->
  (forall r s', tprogress s' fds -> Q r s') -> wp (wait_for_socket fd ev t) Q s.
Proof.
  intros Hp Hfd HQ. unfold wait_for_socket.
  change (wp (let! '(result, revents) := poll_loop (S (pending_signals (t_world s))) fd ev t in
    if result <=? 0 then ret result
    else if negb (Z.land revents (Z.lor POLLERR POLLNVAL) =? 0) then
      do! t_set_errno EIO; ret (-1) else ret 1) Q s).
  apply wp_bind. eapply poll_loop_spec; [done|done|lia|]. intros [r rev] s1 Hp1.
  case_test; [by apply wp_ret, HQ|]. case_test; [|by apply wp_ret, HQ].
  apply wp_bind. eapply wp_t_set_errno; [done|]. intros s2 Hp2. by apply wp_ret, HQ.
Qed.

Lemma connect_address_spec a t Q s fds :
  tprogress s fds -> (forall s', tprogress s' fds -> Q (-1) s') ->
  (forall r s', 0 <= r -> tprogress s' (r :: fds) -> Q r s') ->
  wp (connect_address a t) Q s.
Proof.
  intros Hp HQ1 HQ2. unfold connect_address. apply wp_bind.
  eapply wp_t_socket; [done|intros s1 Hp1; by apply wp_ret, HQ1|]. intros fd s1 Hfd Hp1.
  destruct (Z.ltb_spec fd 0); [lia|].
  assert (Hin : fd ∈ fd :: fds) by apply list_elem_of_here.
  assert (Hclose : forall s', tprogress s' (fd :: fds) ->
    wp (do! t_close fd; ret (-1)) Q s').
  { intros s' Hp'. apply wp_bind. eapply (wp_t_close _ _ _ []); [done|]. intros. by apply wp_ret, HQ1. }
  apply wp_bind. unfold set_nonblocking. apply wp_bind. eapply wp_t_fcntl; [done|done|].
  intros fl s2 Hp2. assert (Hrest : forall b s3, tprogress s3 (fd :: fds) ->
    wp (if negb (b =? 0) then do! t_close fd; ret (-1)
        else
          let! result := t_connect fd a in
          let! e := t_get_errno in
          if negb (result =? 0) && negb (e =? EINPROGRESS) then do! t_close fd; ret (-1)
          else if negb (result =? 0) then
            let! result := wait_for_socket fd POLLOUT t in
            if result <=? 0 then
              do! (if result =? 0 then t_set_errno ETIMEDOUT else ret tt);
              do! t_close fd; ret (-1)
            else
              let! '(opt, socket_error) := t_getsockopt fd in
              if negb (opt =? 0) || negb (socket_error =? 0) then
                do! (if negb (socket_error =? 0) then t_set_errno socket_error else ret tt);
                do! t_close fd; ret (-1)
              else ret fd
          else ret fd) Q s3).
  { intros b s3 Hp3. case_test; [by apply Hclose|].
    apply wp_bind. eapply wp_t_connect; [done|done|]. intros r s4 Hp4.
    apply wp_bind, wp_t_get_errno. case_test; [by apply Hclose|].
    case_test; [|by apply wp_ret, HQ2].
    apply wp_bind. eapply wait_spec; [done|done|]. intros r2 s5 Hp5. case_test.
    { apply wp_bind. case_test; [eapply wp_t_set_errno; [done|]; auto|by apply wp_ret, Hclose]. }
    apply wp_bind. eapply wp_t_getsockopt; [done|done|]. intros [o er] s6 Hp6.
    destruct (_ || _); [|by apply wp_ret, HQ2].
    apply wp_bind. case_test; [eapply wp_t_set_errno; [done|]; auto|by apply wp_ret, Hclose]. }
  case_test; [by apply wp_ret, Hrest|]. eapply wp_t_fcntl; [done|done|]. auto.
Qed.

Lemma connect_loop_spec addrs t : forall Q s fds,
  tprogress s fds -> (forall f s', tprogress s' fds -> Q (-1, f) s') ->
  (forall r f s', 0 <= r -> 0 <= f < 256 -> tprogress s' (r :: fds) -> Q (r, f) s') ->
  wp (connect_loop addrs t) Q s.
Proof.
  induction addrs as [|a addrs IH]; intros Q s fds Hp HQ1 HQ2; cbn [connect_loop].
  { by apply wp_ret, HQ1. }
  apply wp_bind. eapply connect_address_spec; [done| |].
  - intros s1 Hp1. by eapply IH.
  - intros r s1 Hr Hp1. destruct (Z.leb_spec 0 r); [|lia]. apply wp_ret, HQ2; [done| |done].
    case_test; cbv; intuition congruence.
Qed.
End safety.

(** ** Host names *)

(** What the validity loop accepts. *)
Definition host_char (c : Z) : bool :=
  negb ((c =? 0) || isspace c || (c =? ch_slash) || (c =? 92)).

Lemma host_loop_spec rest : forall pre tail q,
  bytes_ok (pre ++ rest ++ tail) -> zlen rest < zlen q ->
  exists text', host_loop (length rest) (pre ++ rest ++ tail) (zlen pre) (pre ++ q)
    = Some (forallb host_char rest, text') /\
    (forallb host_char rest = true -> text' = pre ++ rest ++ drop (length rest) q).
Proof.
  induction rest as [|c rest IH]; intros pre tail q Hb Hq; cbn [length host_loop].
  { exists (pre ++ q). cbn. by rewrite drop_0. }
  assert (Hc : 0 <= c < 256).
  { rewrite !bytes_ok_app in Hb. destruct Hb as (_ & Hb & _). by inversion Hb. }
  cbn [app]. rewrite rd_app by (done || lia). cbn [forallb]. unfold host_char at 1 3.
  destruct (_ || _); cbn [negb andb]; [by eexists|].
  destruct q as [|x q]; [zlen_lia|]. rewrite wr_app by done.
  rewrite !zlen_cons in Hq.
  specialize (IH (pre ++ [c]) tail q). rewrite <- !app_assoc in IH. cbn [app] in IH.
  rewrite zlen_app in IH. destruct IH as (t & Heq & Ht); [done|lia|].
  exists t. split; [|done]. by rewrite <- Heq.
Qed.

Lemma host_is_valid_spec request size :
  bytes_ok request -> 0 <= size -> 4 + size <= zlen request ->
  let host := take (Z.to_nat size) (drop 4 request) in
  exists ok t, host_is_valid (Some (drop 4 request)) size (uninit (SQUID_TCP_HOST_MAX + 1))
    = Some (ok, t) /\
    (ok = true <-> 0 < size <= SQUID_TCP_HOST_MAX /\ forallb host_char host = true) /\
    (ok = true -> cstring t = Some host).
Proof.
  intros Hb Hs Hl host. unfold host_is_valid.
  destruct (Z.eqb_spec size 0), (Z.ltb_spec SQUID_TCP_HOST_MAX size); cbn [orb];
    try (eexists _, _; split_and!; [done|intuition lia|done]).
  assert (Hhl : zlen host = size) by (subst host; rewrite zlen_take, zlen_drop; lia).
  assert (Hbh : bytes_ok host) by (subst host; auto with squid).
  destruct (host_loop_spec host [] (drop (Z.to_nat size) (drop 4 request))
    (uninit (SQUID_TCP_HOST_MAX + 1))) as (t & Heq & Ht).
  { cbn [app]. subst host. rewrite take_drop. auto with squid. }
  { rewrite uninit_len; [lia|done]. }
  cbn [app] in *. change (zlen (@nil Z)) with 0 in Heq. subst host. rewrite take_drop in Heq.
  set (host := take _ _) in *.
  replace (Z.to_nat size) with (length host) by (unfold zlen in *; lia). rewrite Heq.
  destruct (forallb host_char host) eqn:Ef.
  2: { eexists _, _. split_and!; [done| |done]. intuition congruence. }
  rewrite (Ht eq_refl).
  assert (Hlu : length (uninit (SQUID_TCP_HOST_MAX + 1)) = 241%nat) by reflexivity.
  destruct (drop (length host) (uninit (SQUID_TCP_HOST_MAX + 1))) as [|y q] eqn:D.
  { apply (f_equal length) in D. rewrite length_drop, Hlu in D. cbn [length] in D.
    unfold zlen, SQUID_TCP_HOST_MAX in *. lia. }
  rewrite wr_app by lia. eexists _, _. split_and!; [done|intuition lia|].
  intros _. apply cstring_app, bytes_cstr; [done|].
  clear -Ef. induction host as [|c host IH]; [constructor|]. cbn in Ef.
  apply andb_true_iff in Ef as [Ec Ef]. constructor; [|auto]. intros ->. done.
Qed.


Section handlers.
Context {W : Type} `{SocketLaws W}.
Variables (s0 : tcp_os W) (fds0 : list Z) (opcode cap : Z) (buf : list Z).
Hypothesis cap_ok : 2 <= cap <= zlen buf.
Local Abbreviation tprogress := (tprogress fds0 s0).

Definition tcp_replied (r : answer) (s : tcp_os W) : Prop :=
  reply_ok opcode cap buf r.1.1 r.1.2 /\ tprogress s (held r.2).

Lemma t_reply_spec context status b s :
  length b = length buf -> tprogress s (held context) ->
  wp (t_reply context opcode status b cap) tcp_replied s.
Proof.
  intros Hb Hp. assert (zlen b = zlen buf) by (unfold zlen; lia).
  unfold t_reply. apply wp_bind. eapply wp_lift; [apply write_status_eq; lia|].
  apply wp_ret. split; [|done]. eapply reply_ok_len; [exact Hb|]. apply reply_status. lia.
Qed.

Lemma t_silent_spec context b s :
  length b = length buf -> tprogress s (held context) ->
  wp (ret (b, -1, context)) tcp_replied s.
Proof. intros. apply wp_ret. split; [by apply reply_none|done]. Qed.

Lemma held_closed c w hosts : held (TcpContext (-1) c w hosts) = [].
Proof. done. Qed.

Lemma close_connection_spec context Q s fds :
  tprogress s (held context ++ fds) ->
  (forall s' c, c = TcpContext (if 0 <=? socket_fd context then -1 else socket_fd context)
       (connect_timeout_ms context) (write_timeout_ms context) (allowed_hosts context) ->
     held c = [] -> tprogress s' fds -> Q c s') ->
  wp (close_connection context) Q s.
Proof.
  intros Hp HQ. unfold close_connection, held in *.
  destruct (Z.leb_spec 0 (socket_fd context)) as [Hle|Hlt].
  - apply wp_bind. eapply (wp_t_close _ _ _ _ _ []); [exact Hp|]. intros s' Hp'.
    apply wp_ret. by eapply HQ.
  - apply wp_ret. eapply (HQ s); [by destruct context| |done].
    by destruct (Z.leb_spec 0 (socket_fd context)); [lia|].
Qed.

(** [close_connection] then an error reply. *)
Lemma close_reply_spec context status b s :
  length b = length buf -> tprogress s (held context) ->
  wp (let! context := close_connection context in t_reply context opcode status b cap)
    tcp_replied s.
Proof.
  intros Hb Hp. apply wp_bind. eapply close_connection_spec; [by rewrite app_nil_r|].
  intros s' c _ Hh Hp'. apply t_reply_spec; [done|]. by rewrite Hh.
Qed.

Lemma t_body_spec context b body n s o (k : list Z -> ST (tcp_os W) answer) :
  length b = length buf -> o = Some (header opcode 0 ++ body ++ drop (2 + length body) b) ->
  n = 2 + zlen body -> n <= cap -> tprogress s (held context) ->
  k = (fun response => ret (response, n, context)) ->
  wp (let! response := lift o in k response) tcp_replied s.
Proof.
  intros Hb -> -> Hc Hp ->. apply wp_bind. eapply wp_lift; [done|]. apply wp_ret. split; [|done].
  cbn [fst snd]. assert (zlen b = zlen buf) by (unfold zlen; lia).
  eapply reply_ok_len; [exact Hb|]. apply reply_body; lia.
Qed.

Lemma tcp_capabilities_spec context s :
  tprogress s (held context) ->
  wp (TcpProxy.handle_capabilities context opcode buf cap) tcp_replied s.
Proof.
  intros Hp. unfold TcpProxy.handle_capabilities.
  destruct (Z.ltb_spec cap 7); [by apply t_silent_spec|].
  set (m := if _ <? cap then u8 (cap - _) else 0). set (m2 := if 2 <? cap then _ else _).
  clearbody m m2.
  eapply (t_body_spec context buf [SQUID_TCP_PROTOCOL_VERSION; 7; SQUID_TCP_HOST_MAX; m; m2] 7);
    [done| |reflexivity|lia|done|done].
  revert cap_ok. generalize buf as b. intros b Hb. split_cells b 7%nat. reflexivity.
Qed.

Lemma tcp_status_spec context s :
  tprogress s (held context) -> wp (handle_status context opcode buf cap) tcp_replied s.
Proof.
  intros Hp. unfold handle_status.
  destruct (Z.ltb_spec cap 3); [by apply t_silent_spec|]. set (m := if 0 <=? _ then _ else _).
  clearbody m. eapply (t_body_spec context buf [m] 3); [done| |reflexivity|lia|done|done].
  revert cap_ok. generalize buf as b. intros b Hb. split_cells b 3%nat. reflexivity.
Qed.

(** *** CONNECT *)

(** CONNECT either keeps the context or answers OK with a new socket and the
    address family. *)
Definition connect_kept (context : squid_tcp_context) (r : answer) : Prop :=
  r.2 = context \/
  exists family, r.1.2 = 3 /\ take 3 r.1.1 = header opcode 0 ++ [family] /\
    0 <= socket_fd r.2 /\ r.2 = TcpContext (socket_fd r.2) (connect_timeout_ms context)
      (write_timeout_ms context) (allowed_hosts context).

Lemma connect_fail context status b s :
  length b = length buf -> tprogress s (held context) ->
  wp (t_reply context opcode status b cap)
    (fun r s' => tcp_replied r s' /\ connect_kept context r) s.
Proof.
  intros Hb Hp. pose proof (t_reply_spec context status b s Hb Hp) as Hr.
  unfold t_reply, wp, bind, lift, ret in *.
  destruct (write_status opcode status (Some b) cap) as [[b' n]|]; [|done].
  split; [done|]. by left.
Qed.
Lemma connect_silent context b s :
  length b = length buf -> tprogress s (held context) ->
  wp (ret (b, -1, context)) (fun r s' => tcp_replied r s' /\ connect_kept context r) s.
Proof. intros Hb Hp. split; [by apply t_silent_spec|by left]. Qed.

(** The reply to a CONNECT that has a socket. *)
Lemma connect_replies context fd f s :
  0 <= fd -> 3 <= cap -> 0 <= f < 256 -> tprogress s [fd] ->
  wp (let! response := lift (
        let? response := wr buf 0 (u8 (Z.lor opcode SQUID_TCP_RESPONSE_BIT)) in
        let? response := wr response 1 SQUID_TCP_STATUS_OK in
        wr response 2 f) in
      ret (response, 3, TcpContext fd (connect_timeout_ms context) (write_timeout_ms context)
        (allowed_hosts context)))
    (fun r s' => tcp_replied r s' /\ connect_kept context r) s.
Proof.
  intros Hfd Hcap Hf Hp.
  assert (Heq : (let? response := wr buf 0 (u8 (Z.lor opcode SQUID_TCP_RESPONSE_BIT)) in
    let? response := wr response 1 SQUID_TCP_STATUS_OK in wr response 2 f) =
    Some (header opcode 0 ++ [f] ++ drop 3 buf)).
  { revert cap_ok. generalize buf as b. intros b Hb2. split_cells b 3%nat. reflexivity. }
  apply wp_bind. eapply wp_lift; [exact Heq|]. apply wp_ret. split; [split|].
  - cbn [fst snd]. apply (reply_body opcode cap buf [f]); [rewrite zlen_cons, zlen_nil; lia|lia|done].
  - unfold held. cbn [socket_fd snd]. by destruct (Z.leb_spec 0 fd); [|lia].
  - right. by exists f.
Qed.

Lemma tcp_connect_spec context request request_size s :
  bytes_ok request -> 0 < request_size <= zlen request -> request_size < 2 ^ 63 ->
  tprogress s (held context) ->
  wp (handle_connect context opcode request request_size buf cap)
    (fun r s' => tcp_replied r s' /\ connect_kept context r) s.
Proof.
  intros Hb Hsz Hbig Hp. unfold handle_connect. cbv zeta.
  destruct (Z.ltb_spec request_size 5); [by apply connect_fail|].
  destruct (read_u16_ok request 1) as (port & Hport & _); [done|lia|lia|].
  destruct (rd_ok request 3) as (hs & Hhs & Hhr); [done|lia|].
  apply wp_bind. eapply wp_lift; [exact Hport|]. apply wp_bind. eapply wp_lift; [exact Hhs|].
  rewrite u64_small by lia. apply wp_bind.
  destruct (port =? 0); cbn [orb]; [apply wp_ret; by apply connect_fail|].
  destruct (Z.eqb_spec hs (request_size - 4)) as [->|]; cbn [negb];
    [|apply wp_ret; by apply connect_fail].
  destruct (host_is_valid_spec request (request_size - 4)) as (ok & t & Hv & _ & Hcs);
    [done|lia|lia|]. eapply wp_lift; [exact Hv|].
  destruct ok; cbn [negb]; [|by apply connect_fail].
  apply wp_bind. eapply wp_lift; [by apply Hcs|].
  destruct (host_is_allowed _ _); cbn [negb]; [|by apply connect_fail].
  apply wp_bind. eapply wp_t_getaddrinfo; [done|]. intros [lr addrs] s1 Hp1.
  destruct (lr =? 0); cbn [negb]; [|by apply connect_fail].
  apply wp_bind. eapply connect_loop_spec; [done| |].
  { intros f s2 Hp2. cbn [Z.ltb Z.compare]. apply wp_bind, wp_t_get_errno. by apply connect_fail. }
  intros fd f s2 Hfd Hf Hp2. destruct (Z.ltb_spec fd 0); [lia|].
  destruct (Z.ltb_spec cap 3).
  { apply wp_bind. eapply (wp_t_close _ _ _ _ _ []); [exact Hp2|]. intros s3 Hp3.
    by apply connect_silent. }
  apply wp_bind. unfold close_connection.
  unfold held in Hp2. destruct (0 <=? socket_fd context).
  - apply wp_bind. eapply (wp_t_close _ _ _ _ _ [fd] []); [exact Hp2|]. intros s3 Hp3.
    apply wp_ret. by apply (connect_replies context).
  - apply wp_ret. by apply (connect_replies context).
Qed.

(** *** WRITE and READ *)

Lemma held_in context : 0 <= socket_fd context -> socket_fd context ∈ held context.
Proof.
  intros Hs. unfold held. destruct (Z.leb_spec 0 (socket_fd context)); [|lia].
  apply list_elem_of_here.
Qed.

Lemma tcp_write_spec context request request_size s :
  bytes_ok request -> 0 < request_size <= zlen request -> request_size < 2 ^ 63 ->
  tprogress s (held context) ->
  wp (TcpProxy.handle_write context opcode request request_size buf cap) tcp_replied s.
Proof.
  intros Hb Hsz Hbig Hp. unfold TcpProxy.handle_write. cbv zeta. apply wp_bind.
  destruct (Z.ltb_spec request_size 3); [apply wp_ret; by apply t_reply_spec|].
  destruct (rd_ok request 1) as (n & Hn & Hnr); [done|lia|].
  apply wp_bind. eapply wp_lift; [exact Hn|]. apply wp_ret. rewrite u64_small by lia.
  destruct (_ || _) eqn:Ebad; [by apply t_reply_spec|].
  destruct (Z.ltb_spec (socket_fd context) 0) as [|Hfd]; [by apply t_reply_spec|].
  apply wp_bind. eapply wp_lift; [exact Hn|].
  apply wp_bind. eapply wait_spec; [done|by apply held_in|]. intros r s1 Hp1.
  case_test; [by apply t_reply_spec|]. case_test; [by apply close_reply_spec|].
  apply wp_bind. eapply wp_lift; [apply rd_bytes_ok; [done|lia..]|].
  apply wp_bind. eapply wp_t_send; [done|by apply held_in|]. intros w s2 Hw Hp2.
  destruct (Z.leb_spec w 0).
  { apply wp_bind, wp_t_get_errno. case_test; [by apply t_reply_spec|by apply close_reply_spec]. }
  destruct (Z.ltb_spec cap 3); [by apply t_silent_spec|].
  eapply (t_body_spec _ buf [u8 w] 3); [done| |reflexivity|lia|done|done].
  revert cap_ok. generalize buf as b. intros b Hb2. split_cells b 3%nat. reflexivity.
Qed.

Lemma read_capacity_bound maximum :
  4 <= cap -> 0 <= maximum -> 0 <= read_capacity cap maximum <= cap - 4 /\
    read_capacity cap maximum <= 255 /\ (0 < maximum -> read_capacity cap maximum <= maximum).
Proof.
  intros Hc Hm. unfold read_capacity, SQUID_TCP_READ_HEADER_SIZE, UINT8_MAX. cbv zeta.
  repeat case_test; lia.
Qed.

(** The response after a successful [recv]. *)
Definition tcp_read_body (flags : Z) (data : list Z) : list Z := [flags; u8 (zlen data)] ++ data.

Lemma tcp_read_response data b :
  4 + zlen data <= zlen b -> zlen data <= 255 ->
  exists b4 b5,
    (let? b := wr b 0 (u8 (Z.lor opcode SQUID_TCP_RESPONSE_BIT)) in
     let? b := wr b 1 SQUID_TCP_STATUS_OK in
     let? b := wr b 2 0 in wr b 3 0) = Some b4 /\
    b4 = header opcode 0 ++ [0; 0] ++ drop 4 b /\
    wr_bytes b4 4 data = Some b5 /\
    b5 = header opcode 0 ++ [0; 0] ++ data ++ drop (4 + length data) b.
Proof.
  intros Hl Hd. pose proof (zlen_nonneg data). split_cells b 4%nat. eexists _, _. split; [reflexivity|]. split; [reflexivity|].
  rewrite !zlen_cons in Hl.
  split; [|reflexivity]. apply (wr_bytes_app (header opcode 0 ++ [0; 0]) b data); [done|lia].
Qed.

(** A READ response without data. *)
Lemma empty_read c fl b s :
  4 <= cap -> tprogress s (held c) -> b = header opcode 0 ++ [fl; 0] ++ drop 4 buf ->
  wp (ret (b, 4, c)) tcp_replied s.
Proof.
  intros Hcap Hp ->. apply wp_ret. split; [|done]. cbn [fst snd].
  apply reply_success; [|lia]. rewrite !length_app, length_drop. cbn. unfold zlen in *. lia.
Qed.

Lemma tcp_read_spec context request request_size s :
  bytes_ok request -> 0 < request_size <= zlen request -> request_size < 2 ^ 63 ->
  tprogress s (held context) ->
  wp (TcpProxy.handle_read context opcode request request_size buf cap) tcp_replied s.
Proof.
  intros Hb Hsz Hbig Hp. unfold TcpProxy.handle_read. cbv zeta.
  destruct (Z.eqb_spec request_size 4); cbn [negb]; [|by apply t_reply_spec].
  destruct (Z.ltb_spec (socket_fd context) 0) as [|Hfd]; [by apply t_reply_spec|].
  unfold SQUID_TCP_READ_HEADER_SIZE.
  destruct (Z.ltb_spec cap 4); [by apply t_silent_spec|].
  destruct (read_u16_ok request 1) as (wait & Hwait & _); [done|lia|lia|].
  destruct (rd_ok request 3) as (mx & Hmx & Hmr); [done|lia|].
  apply wp_bind. eapply wp_lift; [exact Hwait|]. apply wp_bind. eapply wp_lift; [exact Hmx|].
  case_test; [by apply t_reply_spec|].
  apply wp_bind. eapply wait_spec; [done|by apply held_in|]. intros r s1 Hp1.
  case_test; [by apply close_reply_spec|].
  destruct (read_capacity_bound mx) as (Hc1 & Hc2 & Hc3); [done|lia|].
  destruct (tcp_read_response [] buf) as (b4 & _ & Hb4 & Hb4e & _); [rewrite zlen_nil; lia|done|].
  apply wp_bind. eapply wp_lift; [exact Hb4|].
  assert (Hl4 : length b4 = length buf).
  { subst b4. rewrite !length_app, length_drop. cbn. unfold zlen in *. lia. }
  case_test; [by eapply empty_read|].
  apply wp_bind. eapply (wp_t_recv fds0 s0); [done|by apply held_in|lia|].
  intros got data s2 Hgot _ Hp2.
  assert (Hdl : zlen data <= read_capacity cap mx).
  { destruct Hgot as [[_ ->]|(?&?&?)]; [rewrite zlen_nil|]; lia. }
  destruct (tcp_read_response data buf) as (b4' & b5 & Hb4' & Hb4e' & Hb5 & Hb5e); [lia|lia|].
  assert (b4' = b4) as -> by congruence.
  apply wp_bind. eapply wp_lift; [exact Hb5|].
  destruct (Z.eqb_spec got 0) as [->|Hg0].
  { assert (data = []) as ->.
    { destruct Hgot as [[? _]|(_ & Hz & _)]; [done|]. by apply zlen_nil_inv. }
    apply wp_bind. eapply (wp_lift _ (header opcode 0 ++ [1; 0] ++ drop 4 buf)); [by subst b5|].
    apply wp_bind. eapply close_connection_spec; [by rewrite app_nil_r|]. intros s3 c _ Hh Hp3.
    eapply (empty_read c); [done|by rewrite Hh|done]. }
  destruct (Z.ltb_spec got 0) as [Hneg|Hpos].
  { assert (data = []) as -> by (destruct Hgot as [[_ ?]|(?&_)]; [done|lia]).
    apply wp_bind, wp_t_get_errno. case_test; [by eapply empty_read|].
    apply close_reply_spec; [|done]. subst b5. rewrite !length_app, length_drop. cbn.
    unfold zlen in *. lia. }
  destruct Hgot as [[-> _]|(Hg1 & Hg2 & _)]; [lia|].
  apply wp_bind. eapply (wp_lift _ (header opcode 0 ++ tcp_read_body 0 data
    ++ drop (4 + length data) buf)); [subst b5 got; done|]. apply wp_ret. split; [|done].
  cbn [fst snd]. unfold s32, swrap. change (2 ^ 32) with 4294967296.
  change (2 ^ (32 - 1)) with 2147483648. rewrite Z.mod_small by lia.
  apply reply_success; [|lia].
  unfold tcp_read_body. rewrite !length_app, length_drop. cbn. unfold zlen in *. lia.
Qed.

Lemma tcp_dispatch_spec context request request_size s :
  bytes_ok request -> 0 < request_size <= zlen request -> request_size < 2 ^ 63 ->
  request !! O = Some opcode -> tprogress s (held context) ->
  wp (tcp_dispatch context opcode request request_size buf cap) tcp_replied s.
Proof.
  intros Hb Hsz Hbig Hop Hp. unfold tcp_dispatch.
  repeat case_test; try (eapply wp_mono; [by apply tcp_connect_spec|by intros ? ? [? _]]);
    auto using t_reply_spec, tcp_capabilities_spec,
    tcp_write_spec, tcp_read_spec, close_reply_spec, tcp_status_spec.
Qed.
End handlers.

(** ** Properties *)

Section requests.
Context {W : Type} `{SocketLaws W}.
Variables (context : squid_tcp_context) (request : list Z) (request_size : Z)
  (buf : list Z) (cap : Z) (s : tcp_os W).
Hypothesis request_ok : bytes_ok request.
Hypothesis size_ok : 0 < request_size <= zlen request.
Hypothesis size_int : request_size < 2 ^ 63.
Hypothesis cap_ok : 2 <= cap <= zlen buf.

Lemma tcp_opcode : exists opcode, request !! O = Some opcode.
Proof. apply lookup_lt_is_Some_2. unfold zlen in size_ok. lia. Qed.

Lemma wp_tcp_request opcode Q : request !! O = Some opcode ->
  wp (tcp_dispatch context opcode request request_size buf cap) (fun r => Q (r.1, Some r.2)) s ->
  wp (handle_squid_tcp_request (Some context) (Some request) request_size (Some buf) cap) Q s.
Proof.
  intros Hop Hw. unfold handle_squid_tcp_request. destruct (_ || _) eqn:E; [lia|]. apply wp_bind.
  eapply wp_lift; [eapply rd_Some; [done|exact Hop|by eapply bytes_ok_lookup]|].
  apply wp_bind. eapply wp_mono; [exact Hw|]. by intros [[b n] c] s' HQ.
Qed.

Lemma tcp_request_returns :
  exists opcode buf' n context' s', request !! O = Some opcode /\
    handle_squid_tcp_request (Some context) (Some request) request_size (Some buf) cap s
      = Some ((buf', n, Some context'), s') /\ reply_ok opcode cap buf buf' n.
Proof.
  destruct tcp_opcode as [op Hop].
  pose proof (tcp_dispatch_spec s (held context) op cap buf cap_ok context request
    request_size s request_ok size_ok size_int Hop (tprogress_refl _ _)) as Hw.
  assert (Hr : wp (handle_squid_tcp_request (Some context) (Some request) request_size (Some buf) cap)
    (fun r _ => exists c, r.2 = Some c /\ reply_ok op cap buf r.1.1 r.1.2) s).
  { apply (wp_tcp_request op); [done|]. eapply wp_mono; [exact Hw|]. intros r s' [Hok _]. by exists r.2. }
  apply wp_inv in Hr as ([[b n] oc] & s' & Hr & c & Hc & Hok). cbn in Hc. subst oc.
  by exists op, b, n, c, s'.
Qed.

(** C14. For every request, every behaviour of the network and every response
    capacity, the TCP proxy returns (the wait survives any finite number of
    signals), has no undefined behaviour, and its answer is -1 or a response
    in the protocol's format inside the buffer. *)
Theorem tcp_request_safe :
  exists opcode buf' n context' s', request !! O = Some opcode /\
    handle_squid_tcp_request (Some context) (Some request) request_size (Some buf) cap s
      = Some ((buf', n, Some context'), s') /\ reply_ok opcode cap buf buf' n.
Proof. apply tcp_request_returns. Qed.

(** C15. Socket discipline of the proxy: every call uses the connection's
    socket or one this request opened and has not closed, and at the end of
    every request exactly the socket the context holds is open: no socket
    leaks, none is used after it was closed, and a successful CONNECT closes
    the stream it replaces. *)
Theorem tcp_one_socket :
  wp (handle_squid_tcp_request (Some context) (Some request) request_size (Some buf) cap)
    (fun r s' => exists context' es, r.2 = Some context' /\ t_trace s' = t_trace s ++ es /\
       tcp_run (held context) es (held context')) s.
Proof.
  destruct tcp_opcode as [op Hop]. apply (wp_tcp_request op); [done|].
  eapply wp_mono; [by apply (tcp_dispatch_spec s (held context) op cap buf); try apply tprogress_refl|].
  intros r s' [_ (es & Ht & Hrun)]. by exists r.2, es.
Qed.

(** A CONNECT that does not answer OK leaves the old stream and its
    settings as they were; one that answers OK has a new connected socket and
    keeps the settings. *)
Theorem tcp_connect_replaces :
  request !! O = Some SQUID_TCP_OP_CONNECT ->
  wp (handle_squid_tcp_request (Some context) (Some request) request_size (Some buf) cap)
    (fun r _ => exists context', r.2 = Some context' /\
       connect_kept SQUID_TCP_OP_CONNECT context (r.1, context')) s.
Proof.
  intros Hop. apply (wp_tcp_request SQUID_TCP_OP_CONNECT); [done|]. unfold tcp_dispatch.
  cbn [Z.eqb Pos.eqb].
  eapply wp_mono; [apply (tcp_connect_spec s (held context)); try done; try apply tprogress_refl|].
  intros [bn c] s' [_ Hk]. by exists c.
Qed.
End requests.

Definition connect_request (port : Z) (host : list Z) : list Z :=
  [SQUID_TCP_OP_CONNECT] ++ le16 port ++ [zlen host] ++ host.

(** Destination control comes first: a well-formed CONNECT to a host the
    allow list does not name is answered DENIED without any call of the
    resolver or of a socket function, and the connection is unchanged. *)
Theorem tcp_connect_denied {W} `{Sockets W} context port host buf cap (s : tcp_os W) :
  0 < port < 65536 -> bytes_ok host -> 0 < zlen host <= SQUID_TCP_HOST_MAX ->
  forallb host_char host = true -> ~ host_rule (allowed_hosts context) host ->
  2 <= cap <= zlen buf ->
  handle_squid_tcp_request (Some context) (Some (connect_request port host))
    (zlen (connect_request port host)) (Some buf) cap s
  = Some ((header SQUID_TCP_OP_CONNECT SQUID_TCP_STATUS_DENIED ++ drop 2 buf, 2, Some context), s).
Proof.
  intros Hport Hb Hl Hc Hrule Hcap. unfold SQUID_TCP_HOST_MAX in Hl.
  set (rq := connect_request port host).
  assert (Hrl : zlen rq = 4 + zlen host) by (subst rq; unfold connect_request; zlen_lia).
  assert (Hrb : bytes_ok rq).
  { subst rq. unfold connect_request. rewrite !bytes_ok_app. split_and!; auto with squid.
    - by repeat constructor.
    - constructor; [unfold is_byte; lia|constructor]. }
  assert (Hp16 : read_u16 rq 1 = Some port).
  { subst rq. unfold connect_request, read_u16, le16. cbn [app].
    change (rd (_ :: ?x :: _) 1) with (if x <? 0 then None else Some x).
    change (rd (_ :: _ :: ?x :: _) (1 + 1)) with (if x <? 0 then None else Some x).
    pose proof (u8_range (Z.land port 255)). pose proof (u8_range (Z.shiftr port 8)).
    destruct (Z.ltb_spec (u8 (Z.land port 255)) 0), (Z.ltb_spec (u8 (Z.shiftr port 8)) 0); try lia.
    rewrite read_u16_val by done. by rewrite of_le16_le16 by lia. }
  assert (Hrd3 : rd rq 3 = Some (zlen host)).
  { apply rd_Some; [done|done|lia]. }
  destruct (host_is_valid_spec rq (zlen host)) as (ok & t & Hv & Hiff & Hcs); [done|lia|lia|].
  assert (Hhost : take (Z.to_nat (zlen host)) (drop 4 rq) = host).
  { change (drop 4 rq) with host. apply take_ge. unfold zlen. lia. }
  rewrite Hhost in *. assert (ok = true) as -> by (apply Hiff; unfold SQUID_TCP_HOST_MAX; auto).
  assert (Ha : host_is_allowed context host = false).
  { destruct (host_is_allowed context host) eqn:E; [|done]. exfalso. apply Hrule.
    apply host_is_allowed_spec; [|done]. intros Hn. rewrite Hn in Hl. change (zlen (@nil Z)) with 0 in Hl. lia. }
  unfold handle_squid_tcp_request. rewrite Hrl.
  destruct (Z.eqb_spec (4 + zlen host) 0), (Z.ltb_spec cap 2); try lia. cbn [orb].
  unfold bind at 1, lift at 1. change (rd rq 0) with (Some SQUID_TCP_OP_CONNECT).
  cbv beta iota. unfold bind at 1. unfold tcp_dispatch. change (SQUID_TCP_OP_CONNECT =? SQUID_TCP_OP_CAPABILITIES) with false.
  change (SQUID_TCP_OP_CONNECT =? SQUID_TCP_OP_CONNECT) with true. cbn iota.
  unfold handle_connect. destruct (Z.ltb_spec (4 + zlen host) 5); [lia|].
  unfold bind, lift. rewrite Hp16, Hrd3. rewrite u64_small by lia.
  destruct (Z.eqb_spec port 0), (Z.eqb_spec (zlen host) (4 + zlen host - 4)); try lia.
  cbn [orb negb]. rewrite Hv. cbn [negb]. rewrite (Hcs eq_refl), Ha. cbn [negb].
  unfold t_reply, bind, lift. rewrite write_status_eq by lia. done.
Qed.
