(* ===== verification/TcpStream.v ===== *)
(** The byte streams of the TCP proxy: what the client is told was written and
    read is exactly what the kernel took and delivered, in order, over any
    sequence of requests. *)
From stdpp Require Import base numbers list option strings.
From Stdlib Require Import ZArith Lia.
From S2P Require Import Prelude CLib Wire Posix TcpProxy TcpProps.

Local Open Scope Z_scope.
Local Open Scope squid_scope.

(** ** Streams *)

(** The bytes a call moved. *)
Definition sent_in (e : tcp_event) : list Z :=
  match e with TSend _ data r => take (Z.to_nat r) data | _ => [] end.
Definition got_in (e : tcp_event) : list Z :=
  match e with TRecv _ _ data _ => data | _ => [] end.
Definition sent (es : list tcp_event) : list Z := concat (map sent_in es).
Definition got (es : list tcp_event) : list Z := concat (map got_in es).

Lemma sent_app es es' : sent (es ++ es') = sent es ++ sent es'.
Proof. unfold sent. by rewrite map_app, concat_app. Qed.
Lemma got_app es es' : got (es ++ es') = got es ++ got es'.
Proof. unfold got. by rewrite map_app, concat_app. Qed.

(** What an answer tells the client: the part of its data that was written,
    and the data that was read, as many bytes as the length at offset 3 says. *)
Definition accepted (request reply : list Z) : list Z :=
  match request, reply with
  | op :: _ :: data, [tag; status; n] =>
      if decide (op = 2 /\ tag = 130 /\ status = 0) then take (Z.to_nat n) data else []
  | _, _ => []
  end.
Definition delivered (request reply : list Z) : list Z :=
  match request, reply with
  | op :: _, tag :: status :: _ :: len :: data =>
      if decide (op = 3 /\ tag = 131 /\ status = 0) then take (Z.to_nat len) data else []
  | _, _ => []
  end.

(** The documented formats of the OK answers to WRITE and READ: the number of
    bytes written is at least one and no more than the request carries; the
    length byte of a READ is the number of bytes behind it. *)
Definition well_formed (request reply : list Z) : Prop :=
  reply !! 1%nat = Some 0 ->
  (request !! 0%nat = Some 2 -> exists n, reply = [130; 0; n] /\ 1 <= n <= zlen request - 2) /\
  (request !! 0%nat = Some 3 -> exists flags data, reply = [131; 0; flags; zlen data] ++ data).

Section traffic.
Context {W : Type} `{SocketLaws W}.
Local Abbreviation M := (ST (tcp_os W)).

(** When [m] returns, the bytes it sent and received are as [T] says. *)
Definition traffic {A} (m : M A) (T : A -> list Z -> list Z -> Prop) : Prop :=
  forall s a s', m s = Some (a, s') ->
    exists es, t_trace s' = t_trace s ++ es /\ T a (sent es) (got es).
Definition silent {A} (m : M A) : Prop := traffic m (fun _ o i => o = [] /\ i = []).

Lemma traffic_ret {A} (a : A) (T : A -> list Z -> list Z -> Prop) : T a [] [] -> traffic (ret a) T.
Proof. intros HT s a' s' [= <- <-]. exists []. by rewrite app_nil_r. Qed.
Lemma traffic_lift {A} (o : option A) (T : A -> list Z -> list Z -> Prop) :
  (forall a, o = Some a -> T a [] []) -> traffic (lift o) T.
Proof.
  intros HT s a s' E. unfold lift in E. destruct o; [|done]. injection E as <- <-.
  exists []. rewrite app_nil_r. auto.
Qed.
Lemma traffic_bind {A B} (m : M A) (k : A -> M B) T1 T :
  traffic m T1 ->
  (forall a o i, T1 a o i -> traffic (k a) (fun b o' i' => T b (o ++ o') (i ++ i'))) ->
  traffic (bind m k) T.
Proof.
  intros Hm Hk s b s' E. unfold bind in E. destruct (m s) as [[a s1]|] eqn:E1; [|done].
  destruct (Hm _ _ _ E1) as (es & Htr & HT). destruct (Hk a _ _ HT _ _ _ E) as (es' & Htr' & HT').
  exists (es ++ es'). by rewrite Htr', Htr, app_assoc, sent_app, got_app.
Qed.
Lemma traffic_silent {A B} (m : M A) (k : A -> M B) T :
  silent m -> (forall a, traffic (k a) T) -> traffic (bind m k) T.
Proof. intros Hm Hk. eapply traffic_bind; [exact Hm|]. intros a o i [-> ->]. apply Hk. Qed.
Lemma traffic_silent_some {A B} (a : A) (k : A -> M B) T :
  traffic (k a) T -> traffic (bind (lift (Some a)) k) T.
Proof. intros Hk s b s' E. by apply Hk. Qed.
Lemma traffic_mono {A} (m : M A) (T T' : A -> list Z -> list Z -> Prop) :
  traffic m T -> (forall a o i, T a o i -> T' a o i) -> traffic m T'.
Proof. intros Hm HT s a s' E. destruct (Hm _ _ _ E) as (es & ? & ?). eauto. Qed.

Lemma silent_ret {A} (a : A) : silent (ret a).
Proof. by apply traffic_ret. Qed.
Lemma silent_lift {A} (o : option A) : silent (lift o).
Proof. by apply traffic_lift. Qed.
Lemma silent_bind {A B} (m : M A) (k : A -> M B) : silent m -> (forall a, silent (k a)) -> silent (bind m k).
Proof. intros. by apply traffic_silent. Qed.

(** A call that moves no bytes. *)
Lemma silent_call {A} (m : M A) (event : A -> tcp_event) :
  (forall s a s', m s = Some (a, s') -> t_trace s' = t_trace s ++ [event a]) ->
  (forall a, sent_in (event a) = [] /\ got_in (event a) = []) -> silent m.
Proof.
  intros Hm He s a s' E. exists [event a]. destruct (He a) as [E1 E2]. split; [by apply Hm|].
  unfold sent, got. cbn. by rewrite E1, E2.
Qed.
Lemma silent_none {A} (m : M A) :
  (forall s a s', m s = Some (a, s') -> t_trace s' = t_trace s) -> silent m.
Proof. intros Hm s a s' E. exists []. rewrite app_nil_r. split; [by eapply Hm|done]. Qed.

Ltac silent_call e :=
  apply (silent_call _ e); [|done];
  unfold t_socket, t_fcntl, t_connect, t_poll, t_getsockopt, t_close, t_getaddrinfo;
  intros ? ? ? E; repeat case_match; injection E; intros; subst; done.

Lemma silent_socket a : silent (t_socket a).
Proof. silent_call TSocket. Qed.
Lemma silent_fcntl fd f : silent (t_fcntl fd f).
Proof. silent_call (fun _ : Z => TFcntl fd). Qed.
Lemma silent_connect fd a : silent (t_connect fd a).
Proof. silent_call (TConnect fd a). Qed.
Lemma silent_poll fd ev t : silent (t_poll fd ev t).
Proof. silent_call (fun _ : Z * Z => TPoll fd ev t). Qed.
Lemma silent_getsockopt fd : silent (t_getsockopt fd).
Proof. silent_call (fun _ : Z * Z => TGetsockopt fd). Qed.
Lemma silent_close fd : silent (t_close fd).
Proof. silent_call (fun _ : unit => TClose fd). Qed.
Lemma silent_resolve h sv : silent (t_getaddrinfo h sv).
Proof. silent_call (fun _ : Z * list addrinfo => TResolve h sv). Qed.
Lemma silent_get_errno : silent t_get_errno.
Proof. apply silent_none. by intros s a s' [= <- <-]. Qed.
Lemma silent_set_errno e : silent (t_set_errno e).
Proof. apply silent_none. by intros s a s' [= <- <-]. Qed.

(** Goes through code that moves no bytes. *)
Ltac silent_steps :=
  repeat first
    [ lazymatch goal with |- silent (bind _ _) => apply silent_bind; [|intros ?] end
    | apply silent_ret | apply silent_lift | apply silent_get_errno | apply silent_set_errno
    | apply silent_socket | apply silent_fcntl | apply silent_connect | apply silent_poll
    | apply silent_getsockopt | apply silent_close | apply silent_resolve
    | assumption | case_match ].

Lemma silent_poll_loop fd ev t : forall fuel, silent (poll_loop fuel fd ev t).
Proof. induction fuel as [|fuel IH]; cbn [poll_loop]; silent_steps. Qed.
Lemma silent_wait fd ev t : silent (wait_for_socket fd ev t).
Proof.
  intros s a s' E. unfold wait_for_socket in E.
  refine ((_ : silent (let! '(result, revents) := poll_loop (S (pending_signals (t_world s))) fd ev t in
    if result <=? 0 then ret result
    else if negb (Z.land revents (Z.lor POLLERR POLLNVAL) =? 0) then do! t_set_errno EIO; ret (-1)
    else ret 1)) s a s' E).
  pose proof (silent_poll_loop fd ev t (S (pending_signals (t_world s)))). silent_steps.
Qed.
Lemma silent_connect_address a t : silent (connect_address a t).
Proof. pose proof silent_wait. unfold connect_address, set_nonblocking. silent_steps; auto. Qed.
Lemma silent_connect_loop t : forall addresses, silent (connect_loop addresses t).
Proof.
  induction addresses as [|a addresses IH]; cbn [connect_loop]; silent_steps.
  apply silent_connect_address.
Qed.
Lemma silent_close_connection context : silent (close_connection context).
Proof. unfold close_connection. silent_steps. Qed.

Lemma traffic_send fd data : traffic (t_send fd data) (fun r o i =>
  i = [] /\ o = take (Z.to_nat r) data /\ r <= zlen data).
Proof.
  intros s r s' E. unfold t_send in E. pose proof (send_bound fd data (t_world s)) as Hb.
  destruct (sys_send fd data (t_world s)) as [r0 w]. injection E as <- <-.
  exists [TSend fd data (libc r0)]. split; [done|]. unfold sent, got. cbn in *. rewrite app_nil_r.
  split_and!; try done. pose proof (zlen_nonneg data). unfold libc. destruct (Z.ltb_spec r0 0); lia.
Qed.

Lemma traffic_recv fd n : 0 <= n -> traffic (t_recv fd n) (fun '(r, data) o i =>
  o = [] /\ i = data /\ (r <= 0 -> data = []) /\ (0 < r -> zlen data = r /\ r <= n)).
Proof.
  intros Hn s [r data] s' E. unfold t_recv in E. pose proof (recv_bound fd n (t_world s)) as Hb.
  destruct (sys_recv fd n (t_world s)) as [[r0 d] w]. injection E as <- <- <-. eexists [_].
  split; [done|]. unfold sent, got. cbn. rewrite app_nil_r. split_and!; try done; unfold libc.
  - destruct (Z.ltb_spec r0 0); [done|]. intros Hz. destruct (Hb Hn ltac:(lia)) as (_ & Hl & _).
    apply zlen_nil_inv. lia.
  - destruct (Z.ltb_spec r0 0); [lia|]. intros _. destruct (Hb Hn ltac:(lia)) as (? & ? & _). lia.
Qed.

(** ** The handlers

    [told request]: the answer tells the client what was moved. *)
Definition told (request : list Z) (r : answer) (o i : list Z) : Prop :=
  let reply := take (Z.to_nat r.1.2) r.1.1 in
  o = accepted request reply /\ i = delivered request reply /\ well_formed request reply.

Section handlers.
Context (context : squid_tcp_context) (request : list Z) (opcode cap : Z) (buf : list Z).
Context (op : request !! O = Some opcode) (cap_ok : 4 <= cap <= zlen buf).

Lemma accepted_short reply : (length reply < 3)%nat -> accepted request reply = [].
Proof. intros Hl. destruct reply as [|? [|? [|]]]; cbn in Hl; try lia; by destruct request as [|? []]. Qed.
Lemma delivered_short reply : (length reply < 4)%nat -> delivered request reply = [].
Proof. intros Hl. destruct reply as [|? [|? [|? [|]]]]; cbn in Hl; try lia; by destruct request. Qed.
Lemma accepted_op reply : opcode <> 2 -> accepted request reply = [].
Proof.
  intros Hop. destruct request as [|x [|y rq]]; [done|done|]. injection op as ->.
  destruct reply as [|? [|? [|? []]]]; try done. cbn. by rewrite decide_False by tauto.
Qed.
Lemma delivered_op reply : opcode <> 3 -> delivered request reply = [].
Proof.
  intros Hop. destruct request as [|x rq]; [done|]. injection op as ->.
  destruct reply as [|? [|? [|? []]]]; try done. cbn. by rewrite decide_False by tauto.
Qed.
Lemma well_formed_op reply : opcode <> 2 -> opcode <> 3 -> well_formed request reply.
Proof. intros H2 H3 _. rewrite op. split; congruence. Qed.

(** A status alone tells nothing. *)
Lemma told_reply c status b : (status = 0 -> opcode <> 2 /\ opcode <> 3) ->
  traffic (t_reply c opcode status b cap) (told request).
Proof.
  intros Hst. unfold t_reply. eapply traffic_bind.
  { apply (traffic_lift _ (fun r o i => o = [] /\ i = [] /\ r.2 <= 2 /\
      (r.2 = -1 \/ r.1 !! 1%nat = Some status))). intros [b' n] E.
    unfold write_status in E. destruct (_ <? 2); [injection E as <- <-; cbn; by split_and!; [..|left]|].
    destruct (wr b 0 _) as [b1|] eqn:E1; [|discriminate E]. cbv beta iota in E.
    destruct (wr b1 1 status) as [b2|] eqn:E2; [|discriminate E]. injection E as <- <-.
    split_and!; [done|done|done|right]. exact (wr_lookup b1 1 status b2 E2). }
  intros [b' n] o i (-> & -> & Hn & Hb). apply traffic_ret. unfold told. cbn [fst snd] in *.
  assert (Hl : (length (take (Z.to_nat n) b') <= 2)%nat) by (rewrite length_take; lia).
  rewrite accepted_short, delivered_short by lia. split_and!; [done|done|].
  destruct (Z.eq_dec status 0) as [Hz|Hnz]; [by destruct (Hst Hz); apply well_formed_op|].
  intros Hlk. apply lookup_take_Some in Hlk as [Hlk Hn1]. destruct Hb as [->|Hb]; [cbn in Hn1; lia|].
  congruence.
Qed.
Lemma told_close_reply c status b : (status = 0 -> opcode <> 2 /\ opcode <> 3) ->
  traffic (let! c := close_connection c in t_reply c opcode status b cap) (told request).
Proof. intros. apply traffic_silent; [apply silent_close_connection|]. intros. by apply told_reply. Qed.

(** Other requests move nothing. *)
Lemma told_other (m : M answer) : silent m -> opcode <> 2 -> opcode <> 3 -> traffic m (told request).
Proof.
  intros Hm H2 H3. eapply traffic_mono; [exact Hm|]. intros r o i [-> ->].
  unfold told. rewrite accepted_op, delivered_op by done. split_and!; [done|done|by apply well_formed_op].
Qed.

Lemma told_write request_size : bytes_ok request -> 0 < request_size -> request_size < 2 ^ 63 ->
  opcode = 2 -> request_size = zlen request ->
  traffic (TcpProxy.handle_write context opcode request request_size buf cap) (told request).
Proof.
  intros Hb Hsz Hbig Hop Hlen. unfold TcpProxy.handle_write. cbv zeta.
  apply traffic_silent; [destruct (_ <? _); repeat (apply silent_bind; [|intros ?]);
    apply silent_ret || apply silent_lift|]. intros bad.
  destruct bad; [by apply told_reply|]. destruct (_ <? _); [by apply told_reply|].
  eapply traffic_bind.
  { apply (traffic_lift _ (fun n o i => o = [] /\ i = [] /\ rd request 1 = Some n)). auto. }
  intros n o i (-> & -> & Hn). apply traffic_silent; [apply silent_wait|]. intros ready.
  destruct (ready =? 0); [by apply told_reply|]. destruct (ready <? 0); [by apply told_close_reply|].
  eapply traffic_bind.
  { apply (traffic_lift _ (fun d o i => o = [] /\ i = [] /\ rd_bytes request 2 n = Some d)). auto. }
  intros d o i (-> & -> & Hd). eapply traffic_bind; [apply traffic_send|].
  intros w o i (-> & -> & Hw). cbn [app]. destruct (Z.leb_spec w 0) as [Hz|Hpos].
  { replace (Z.to_nat w) with 0%nat by lia. rewrite take_0. cbn [app].
    apply traffic_silent; [apply silent_get_errno|]. intros e.
    destruct (_ && _); [by apply told_reply|by apply told_close_reply]. }
  destruct (Z.ltb_spec cap 3); [lia|].
  assert (Hwd : is_byte n /\ take (Z.to_nat w) d = take (Z.to_nat w) (drop 2 request) /\ w <= 255 /\
    w <= zlen request - 2).
  { destruct (rd_inv _ _ _ Hn) as (_ & Hlk & Hn0). assert (is_byte n) by (by eapply bytes_ok_lookup).
    split; [done|]. unfold rd_bytes in Hd. repeat case_match; simplify_eq.
    rewrite zlen_take, zlen_drop in Hw. change (Z.to_nat 2) with 2%nat in *. rewrite take_take.
    unfold is_byte in *. split; [f_equal; lia|lia]. }
  destruct Hwd as (_ & -> & Hw255 & Hwl). eapply traffic_bind.
  { apply (traffic_lift _ (fun b o i => o = [] /\ i = [] /\ take 3 b = [u8 (Z.lor opcode 128); 0; w])).
    intros b. rewrite (u8_small w) by lia. clear Hd Hw. revert cap_ok. generalize buf as b0. intros b0 Hb0.
    split_cells b0 4%nat. intros [= <-]. done. }
  intros b o i (-> & -> & Htk). apply traffic_ret. unfold told. cbn [fst snd app].
  change (Z.to_nat 3) with 3%nat. rewrite Htk, app_nil_r, delivered_op by (done || lia). subst opcode.
  split_and!; [|done|].
  - destruct request as [|x [|y data]]; [done|done|]. injection op as ->. done.
  - intros _. split; [|intros Hx; rewrite op in Hx; done]. intros _. exists w. split; [done|lia].
Qed.

(** The response array of a READ that has [data] for the client. *)
Definition read_array (flags n : Z) (data : list Z) : list Z :=
  header opcode 0 ++ [flags; n] ++ data ++ drop (4 + length data) buf.

Lemma read_array_bytes data : 4 + zlen data <= zlen buf ->
  wr_bytes (read_array 0 0 []) 4 data = Some (read_array 0 0 data).
Proof.
  intros Hl. unfold read_array. cbn [app length]. rewrite <- (drop_drop buf (length data) 4).
  apply (wr_bytes_app (header opcode 0 ++ [0; 0]) (drop 4 buf) data); [done|].
  rewrite zlen_drop. lia.
Qed.

(** The data the client is told of are those the array holds. *)
Lemma told_array flags n data size c : opcode = 3 -> size = 4 + zlen data -> n = zlen data ->
  told request (read_array flags n data, size, c) [] data.
Proof.
  intros Hop -> ->. unfold told. cbn [fst snd]. rewrite accepted_op by lia.
  replace (Z.to_nat (4 + zlen data)) with (4 + length data)%nat by (unfold zlen; lia).
  assert (Hr : take (4 + length data) (read_array flags (zlen data) data) =
    [131; 0; flags; zlen data] ++ data).
  { unfold read_array. subst opcode. cbn. by rewrite take_app_length. }
  rewrite Hr. split_and!; [done| |].
  - destruct request as [|x rq]; [done|]. injection op as ->. cbn. rewrite decide_True by done.
    replace (Z.to_nat (zlen data)) with (length data) by (unfold zlen; lia). by rewrite firstn_all.
  - intros _. split; [intros Hx; rewrite op in Hx; congruence|]. intros _. by exists flags, data.
Qed.

Lemma told_read request_size : bytes_ok request -> opcode = 3 ->
  traffic (TcpProxy.handle_read context opcode request request_size buf cap) (told request).
Proof.
  intros Hb Hop. unfold TcpProxy.handle_read. cbv zeta. destruct (negb _); [by apply told_reply|].
  destruct (_ <? 0); [by apply told_reply|]. unfold SQUID_TCP_READ_HEADER_SIZE.
  destruct (Z.ltb_spec cap 4); [lia|].
  apply traffic_silent; [apply silent_lift|]. intros wait. eapply traffic_bind.
  { apply (traffic_lift _ (fun n o i => o = [] /\ i = [] /\ rd request 3 = Some n)). auto. }
  intros mx o i (-> & -> & Hmx). destruct (_ <? wait); [by apply told_reply|].
  apply traffic_silent; [apply silent_wait|]. intros ready.
  destruct (ready <? 0); [by apply told_close_reply|]. eapply traffic_bind.
  { apply (traffic_lift _ (fun b o i => o = [] /\ i = [] /\ b = read_array 0 0 [])). intros b.
    unfold read_array. revert cap_ok. generalize buf as b0. intros b0 Hb0.
    split_cells b0 4%nat. by intros [= <-]. }
  intros b o i (-> & -> & ->).
  destruct (ready =? 0); [by apply traffic_ret, told_array|].
  assert (Hm0 : 0 <= mx) by (by destruct (rd_inv _ _ _ Hmx) as (_ & _ & ?)).
  destruct (read_capacity_bound cap mx) as (Hc1 & Hc2 & Hc3); [lia|done|].
  eapply traffic_bind; [apply traffic_recv; lia|]. intros [r data] o i (-> & -> & Hz & Hr).
  assert (Hdl : zlen data <= cap - 4).
  { destruct (Z.le_gt_cases r 0); [rewrite Hz, zlen_nil by done; lia|]. destruct Hr; lia. }
  rewrite read_array_bytes by lia. apply traffic_silent_some.
  destruct (Z.eqb_spec r 0) as [->|Hr0].
  { rewrite Hz by done. apply (traffic_silent_some (read_array 1 0 [])).
    apply traffic_silent; [apply silent_close_connection|]. intros c.
    by apply traffic_ret, told_array. }
  destruct (Z.ltb_spec r 0) as [Hneg|Hpos].
  { rewrite Hz by lia. apply traffic_silent; [apply silent_get_errno|]. intros e.
    destruct (e =? EAGAIN); [by apply traffic_ret, told_array|by apply told_close_reply]. }
  destruct (Hr ltac:(lia)) as [Hd Hdc]. apply (traffic_silent_some (read_array 0 (u8 r) data)).
  apply traffic_ret. cbn [app]. rewrite app_nil_r. apply told_array; [done| |by rewrite u8_small; lia].
  unfold s32, swrap. change (2 ^ 32) with 4294967296. change (2 ^ (32 - 1)) with 2147483648.
  rewrite Z.mod_small by lia. lia.
Qed.

(** CONNECT moves no bytes of the stream. *)
Lemma silent_connect_request request_size :
  silent (handle_connect context opcode request request_size buf cap).
Proof.
  pose proof silent_connect_loop. pose proof silent_close_connection.
  unfold handle_connect, t_reply. cbv zeta. silent_steps; auto.
Qed.

Lemma told_dispatch request_size : bytes_ok request -> 0 < request_size -> request_size < 2 ^ 63 ->
  request_size = zlen request ->
  traffic (tcp_dispatch context opcode request request_size buf cap) (told request).
Proof.
  intros Hb Hsz Hbig Hlen. unfold tcp_dispatch, SQUID_TCP_OP_CAPABILITIES, SQUID_TCP_OP_CONNECT,
    SQUID_TCP_OP_WRITE, SQUID_TCP_OP_READ, SQUID_TCP_OP_CLOSE, SQUID_TCP_OP_STATUS.
  repeat case_test; try (by apply told_reply); try (apply told_write || apply told_read; lia || done);
    try (apply told_close_reply; lia);
    apply told_other; try lia; try apply silent_connect_request;
    unfold handle_capabilities, handle_status; silent_steps.
Qed.
End handlers.

(** ** Sessions *)

(** The proxy serves [requests] one after another with one response array;
    the answers, the array and the context it ends with. *)
Fixpoint tcp_session (context : squid_tcp_context) (buf : list Z) (cap : Z)
    (requests : list (list Z)) : M (list (list Z) * list Z * squid_tcp_context) :=
  match requests with
  | [] => ret ([], buf, context)
  | request :: requests =>
      let! '(buf, n, context') :=
        handle_squid_tcp_request (Some context) (Some request) (zlen request) (Some buf) cap in
      let answer := take (Z.to_nat n) buf in
      let! '(answers, buf, context) := tcp_session (default context context') buf cap requests in
      ret (answer :: answers, buf, context)
  end.

Lemma traffic_request context request cap buf :
  bytes_ok request -> 0 < zlen request < 2 ^ 63 -> 4 <= cap <= zlen buf ->
  traffic (handle_squid_tcp_request (Some context) (Some request) (zlen request) (Some buf) cap)
    (fun r => told request (r.1, context)).
Proof.
  intros Hb Hsz Hcap. unfold handle_squid_tcp_request. destruct (_ || _) eqn:E; [lia|].
  destruct request as [|opcode rq]; [unfold zlen in Hsz; cbn in Hsz; lia|].
  rewrite (rd_Some (opcode :: rq) 0 opcode); [|done|done|by eapply (bytes_ok_lookup _ 0%nat)].
  apply traffic_silent_some. eapply traffic_bind.
  { apply (told_dispatch _ (opcode :: rq)); done || lia. }
  intros [[b n] c] o i Ht. apply traffic_ret. by rewrite !app_nil_r.
Qed.

(** C16. What the proxy tells its client is what happened on the network: over
    any sequence of requests, for every behaviour of the sockets and every
    response capacity from 4 bytes on, every OK answer to WRITE and READ has
    its documented format, with the length byte of a READ the number of data
    bytes behind it; the bytes the kernel took are, in order and with nothing
    lost or repeated, the parts of the WRITE data the answers report as
    written, and the bytes the kernel delivered are the data of the READ
    answers, cut at that length. *)
Theorem tcp_streams_exact requests context buf cap (s : tcp_os W) :
  Forall (fun rq => bytes_ok rq /\ 0 < zlen rq < 2 ^ 63) requests -> 4 <= cap <= zlen buf ->
  wp (tcp_session context buf cap requests) (fun '(answers, _, _) s' =>
    Forall2 well_formed requests answers /\
    exists es, t_trace s' = t_trace s ++ es /\
      sent es = concat (zip_with accepted requests answers) /\
      got es = concat (zip_with delivered requests answers)) s.
Proof.
  intros Hrq. revert context buf s.
  induction Hrq as [|rq requests [Hb Hsz] _ IH]; intros context buf s Hcap; cbn [tcp_session].
  { apply wp_ret. split; [constructor|]. exists []. by rewrite app_nil_r. }
  destruct (tcp_request_returns context rq (zlen rq) buf cap s Hb ltac:(lia) ltac:(lia) ltac:(lia))
    as (opcode & b & n & c & s1 & _ & E & Hok).
  destruct (traffic_request context rq cap buf Hb Hsz Hcap s _ s1 E) as (es & Htr & Ho & Hi & Hwf).
  apply wp_bind. unfold wp at 1. rewrite E. cbn [default].
  apply wp_bind. eapply wp_mono; [apply IH|].
  { unfold reply_ok in Hok. unfold zlen in *. destruct Hok as [Hlen _]. rewrite Hlen. lia. }
  intros [[answers b'] c'] s2 (Hl & es' & Htr' & Ho' & Hi'). apply wp_ret.
  split; [by constructor|]. exists (es ++ es'). rewrite Htr', Htr, app_assoc, sent_app, got_app.
  cbn [zip_with concat]. split; [done|]. by rewrite Ho', Hi', Ho, Hi.
Qed.
End traffic.
