(* ===== verification/TcpPlugin.v ===== *)
(** The TCP proxy plugin object (lib/tcp_proxy/tcp_proxy_plugin.c), and the
    proxy's theorems at concrete inputs. *)
From stdpp Require Import base numbers list option strings.
From Stdlib Require Import ZArith Lia.
From S2P Require Import Prelude CLib Wire Posix PluginApi TcpProxy TcpProps TcpStream.

Local Open Scope Z_scope.
Local Open Scope squid_scope.

Record squid_tcp_plugin_state := TcpPluginState {
  tcp_context : squid_tcp_context;
  tcp_started : Z }.

Record tcp_world (W : Type) := TcpWorld { tcp_os_of : tcp_os W; tcp_state : squid_tcp_plugin_state }.
Arguments TcpWorld {W} _ _.
Arguments tcp_os_of {W} _.
Arguments tcp_state {W} _.

Definition UINT_MAX : Z := 4294967295.

Definition read_timeout_environment (getenv : list Z -> option (list Z)) (name : list Z) : Z :=
  match getenv name with
  | None | Some [] => 0
  | Some value =>
      let '(v, after, overflow) := strtoul value in
      if overflow || match after with [] => false | _ => true end || (UINT_MAX <? v)
      then 0 else u32 v
  end.

Section plugin.
Context {W : Type} `{Sockets W}.
Variable getenv : list Z -> option (list Z).
Abbreviation M := (ST (tcp_world W)).

Definition on_net {A} (m : ST (tcp_os W) A) : M A := fun w =>
  match m (tcp_os_of w) with
  | Some (a, o) => Some (a, TcpWorld o (tcp_state w))
  | None => None
  end.
Definition get_tcp : M squid_tcp_plugin_state := fun w => Some (tcp_state w, w).
Definition set_tcp (st : squid_tcp_plugin_state) : M unit :=
  fun w => Some (tt, TcpWorld (tcp_os_of w) st).

Definition start_squid_tcp_plugin : M Z :=
  let! state := get_tcp in
  if negb (tcp_started state =? 0) then ret 0
  else
    let context :=
      init_squid_tcp_context (Some (tcp_context state)) (getenv (text "SQUID_TCP_ALLOWED_HOSTS"))
        (read_timeout_environment getenv (text "SQUID_TCP_CONNECT_TIMEOUT_MS"))
        (read_timeout_environment getenv (text "SQUID_TCP_WRITE_TIMEOUT_MS")) in
    do! set_tcp (TcpPluginState (default (tcp_context state) context) 1);
    ret 0.

Definition stop_squid_tcp_plugin : M Z :=
  let! state := get_tcp in
  if negb (tcp_started state =? 0) then
    let! context := on_net (free_squid_tcp_context (Some (tcp_context state))) in
    do! set_tcp (TcpPluginState (default (tcp_context state) context) 0);
    ret 0
  else ret 0.

(** The core updates the context through the pointer. *)
Definition tcp_core (data : list Z) (size : Z) (mem : list Z) (cap : Z) : M (list Z * Z) :=
  let! state := get_tcp in
  if tcp_started state =? 0 then ret (mem, -1)
  else
    let! '(response, n, context) :=
      on_net (handle_squid_tcp_request (Some (tcp_context state)) (Some data) size (Some mem) cap) in
    do! set_tcp (TcpPluginState (default (tcp_context state) context) (tcp_started state));
    ret (response, n).

Definition handle_squid_tcp_packet : handle_packet_fn (tcp_world W) := fun port_number =>
  packet_entry tcp_core.

Definition squid_tcp_plugin : server_plugin (tcp_world W) :=
  ServerPlugin (Some (text "tcp_proxy")) (Some start_squid_tcp_plugin)
    (Some stop_squid_tcp_plugin) (Some handle_squid_tcp_packet).

Lemma wp_on_net {A} (m : ST (tcp_os W) A) Q w :
  wp m (fun a o => Q a (TcpWorld o (tcp_state w))) (tcp_os_of w) -> wp (on_net m) Q w.
Proof. unfold wp, on_net. by destruct (m (tcp_os_of w)) as [[a o]|]. Qed.

#[export] Instance tcp_good {LAWS : SocketLaws W} :
  GoodPlugin (fun _ : tcp_world W => True) handle_squid_tcp_packet.
Proof.
  intros port v b w HI Hv Hb.
  apply (packet_entry_good (fun _ => True) tcp_core port v b w); try done.
  clear -LAWS. intros data size mem cap w _ Hd Hs Hsi Hc Hci. unfold tcp_core.
  apply wp_bind. change (wp get_tcp ?Q w) with (Q (tcp_state w) w). cbv beta.
  destruct (Z.eqb_spec (tcp_started (tcp_state w)) 0); [apply wp_ret; cbn; auto with lia|].
  apply wp_bind, wp_on_net.
  destruct (Z.ltb_spec cap 2) as [Hsmall|Hcap].
  - unfold handle_squid_tcp_request. destruct (_ || _) eqn:Eg; [|lia].
    apply wp_ret. apply wp_bind. change (wp (set_tcp ?x) ?Q ?y) with (Q tt (TcpWorld (tcp_os_of y) x)).
    cbv beta. apply wp_ret. cbn. auto with lia.
  - destruct data as [|op data]; [zlen_lia|].
    apply (wp_tcp_request (tcp_context (tcp_state w)) (op :: data) size mem cap (tcp_os_of w)
      ltac:(done) ltac:(lia) ltac:(lia) op); [done|].
    eapply wp_mono; [apply (tcp_dispatch_spec (tcp_os_of w) (held (tcp_context (tcp_state w))) op);
      try done; try lia; apply tprogress_refl|].
    intros [[b' k] c] o [[Hl Hn] _]. cbn [fst snd] in *. apply wp_bind.
    change (wp (set_tcp ?x) ?Q ?y) with (Q tt (TcpWorld (tcp_os_of y) x)). cbv beta.
    apply wp_ret. cbn. split; [done|]. split; [done|]. lia.
Qed.
End plugin.

(** ** Configuration *)

(** The timeouts the plugin starts with are always between 1 and 60000 ms,
    whatever the environment variables contain: an unset, malformed, negative
    or too large value means the default of 5000 ms or the cap, never an
    unbounded wait. *)
Theorem tcp_timeouts_bounded context hosts getenv :
  exists c, init_squid_tcp_context (Some context) hosts
    (read_timeout_environment getenv (text "SQUID_TCP_CONNECT_TIMEOUT_MS"))
    (read_timeout_environment getenv (text "SQUID_TCP_WRITE_TIMEOUT_MS")) = Some c /\
  socket_fd c = -1 /\ 1 <= connect_timeout_ms c <= 60000 /\ 1 <= write_timeout_ms c <= 60000 /\
  zlen (allowed_hosts c) < squid_tcp_allowlist_max.
Proof.
  assert (Hr : forall name, 0 <= read_timeout_environment getenv name < 4294967296).
  { intros name. unfold read_timeout_environment. destruct (getenv name) as [[|c v]|]; try lia.
    destruct (strtoul (c :: v)) as [[x after] ov]. destruct (_ || _); [lia|]. apply u32_range. }
  pose proof (Hr (text "SQUID_TCP_CONNECT_TIMEOUT_MS")) as H1.
  pose proof (Hr (text "SQUID_TCP_WRITE_TIMEOUT_MS")) as H2. eexists. split; [done|].
  unfold squid_tcp_timeout_max_ms, squid_tcp_default_connect_timeout_ms,
    squid_tcp_default_write_timeout_ms. cbn [socket_fd connect_timeout_ms write_timeout_ms allowed_hosts].
  split; [done|]. split; [repeat case_test; lia|]. split; [repeat case_test; lia|].
  destruct hosts as [h|]; [|done]. unfold snprintf, squid_tcp_allowlist_max. cbn [fst].
  rewrite zlen_take. lia.
Qed.

(** ** A small network *)

(** Two addresses for every host; the first refuses, the second connects as
    socket 9; one byte can be read, and one signal arrives while waiting. *)
Record mini_net := MiniNet { mn_signals : nat; mn_next : Z }.
#[local] Instance mini_sockets : Sockets mini_net := {
  sys_socket a w := (mn_next w, MiniNet (mn_signals w) (mn_next w + 1));
  sys_fcntl_getfl fd w := (2, w);
  sys_fcntl_setfl fd fl w := (0, w);
  sys_connect fd a w := (if ai_family a =? AF_INET6 then - EACCES else - EINPROGRESS, w);
  sys_poll fd ev t w :=
    match mn_signals w with
    | O => (1, ev, w)
    | S n => (- EINTR, 0, MiniNet n (mn_next w))
    end;
  sys_getsockopt fd w := (0, 0, w);
  sys_send fd data w := (zlen data, w);
  sys_recv fd n w := (Z.min 1 n, take (Z.to_nat (Z.min 1 n)) [65], w);
  sys_close_socket fd w := w;
  getaddrinfo h sv w := (0, [AddrInfo AF_INET6 []; AddrInfo 2 []], w);
  pending_signals := mn_signals }.

#[local] Instance mini_laws : SocketLaws mini_net.
Proof.
  split.
  - intros fd n w. cbn [sys_recv mini_sockets]. intros Hn Hr.
    destruct (Z.eq_dec n 0) as [->|Hn0]; [split_and!; [lia|done|constructor]|].
    replace (Z.min 1 n) with 1 by lia. split_and!; [lia|done|]. by repeat constructor.
  - intros fd data w. cbn. lia.
  - intros fd ev t w. cbn. destruct (mn_signals w) eqn:E; [done|]. cbn. lia.
Qed.

Definition mini_os : tcp_os mini_net := TcpOs (MiniNet 1 8) 0 [].
Definition open_context : squid_tcp_context := TcpContext 7 5000 5000 (text "a.org, B.org").
Definition mini_buf : list Z := replicate 255 0.
Definition good_connect : list Z := [1; 80; 0; 5] ++ text "b.ORG".

Lemma tcp_request_safe_witness :
  exists opcode buf' n context' s', good_connect !! O = Some opcode /\
    handle_squid_tcp_request (Some open_context) (Some good_connect) 9 (Some mini_buf) 255 mini_os
      = Some ((buf', n, Some context'), s') /\ reply_ok opcode 255 mini_buf buf' n.
Proof. apply tcp_request_safe; closed. Defined.

Lemma tcp_one_socket_witness :
  wp (handle_squid_tcp_request (Some open_context) (Some good_connect) 9 (Some mini_buf) 255)
    (fun r s' => exists context' es, r.2 = Some context' /\ t_trace s' = [] ++ es /\
       tcp_run [7] es (held context')) mini_os.
Proof. apply (tcp_one_socket open_context good_connect 9 mini_buf 255 mini_os); closed. Defined.

Lemma tcp_connect_replaces_witness :
  wp (handle_squid_tcp_request (Some open_context) (Some good_connect) 9 (Some mini_buf) 255)
    (fun r _ => exists context', r.2 = Some context' /\
       connect_kept SQUID_TCP_OP_CONNECT open_context (r.1, context')) mini_os.
Proof. apply tcp_connect_replaces; closed. Defined.

(** This CONNECT succeeds and replaces socket 7 by socket 9. *)
Example good_connect_connects :
  wp (handle_squid_tcp_request (Some open_context) (Some good_connect) 9 (Some mini_buf) 255)
    (fun r s' => take 3 r.1.1 = [129; 0; 4] /\ (socket_fd <$> r.2) = Some 9 /\
       TClose 8 ∈ t_trace s' /\ TClose 7 ∈ t_trace s') mini_os.
Proof.
  vm_compute. split_and!; [done|done|..]; repeat (apply list_elem_of_here || apply list_elem_of_further).
Qed.

Lemma tcp_connect_denied_witness :
  handle_squid_tcp_request (Some open_context) (Some (connect_request 80 (text "evil.org")))
    (zlen (connect_request 80 (text "evil.org"))) (Some mini_buf) 255 mini_os
  = Some ((header SQUID_TCP_OP_CONNECT SQUID_TCP_STATUS_DENIED ++ drop 2 mini_buf, 2,
           Some open_context), mini_os).
Proof.
  apply tcp_connect_denied; try closed.
  intros [?|[?|(e & core & Hin & ->%stripped_scan & He)]]; [discriminate|discriminate|].
  assert (Hall : Forall (fun e => map tolower (trim_end (skip_while isspace e)) <> map tolower (text "evil.org"))
    (split_from ch_comma [] (allowed_hosts open_context)))
    by (apply (bool_decide_unpack _); vm_compute; exact I).
  exact (Forall_elem _ _ _ Hall Hin He).
Defined.

(** A session: connect, write three bytes, read, close. *)
Definition mini_session : list (list Z) :=
  [good_connect; [2; 3; 72; 105; 33]; [3; 100; 0; 0]; [4]].

Lemma tcp_streams_exact_witness :
  wp (tcp_session open_context mini_buf 255 mini_session) (fun '(answers, _, _) s' =>
    Forall2 well_formed mini_session answers /\
    exists es, t_trace s' = [] ++ es /\
      sent es = concat (zip_with accepted mini_session answers) /\
      got es = concat (zip_with delivered mini_session answers)) mini_os.
Proof.
  apply (tcp_streams_exact mini_session open_context mini_buf 255 mini_os); [|closed].
  repeat constructor; closed.
Defined.

(** Its answers report the three bytes written and the byte read. *)
Example mini_session_moves :
  wp (tcp_session open_context mini_buf 255 mini_session) (fun '(answers, _, _) _ =>
    concat (zip_with accepted mini_session answers) = [72; 105; 33] /\
    concat (zip_with delivered mini_session answers) = [65]) mini_os.
Proof. by vm_compute. Qed.
