(* ===== verification/Registry.v ===== *)
(** The plugin registry (src/plugin/server_plugin_registry.c), and the
    loader's [clear_plugin_slot], which works on it. *)
From stdpp Require Import base numbers list option strings.
From Stdlib Require Import ZArith Lia.
From S2P Require Import Prelude CLib PluginApi.

Local Open Scope Z_scope.
Local Open Scope squid_scope.

(** ** The registry *)

Record server_plugin_slot (P : Type) := Slot { slot_port : Z; slot_plugin : option P }.
Arguments Slot {P} _ _.
Arguments slot_port {P} _.
Arguments slot_plugin {P} _.

Definition is_valid_server_port (port_number : Z) : bool := port_number <=? server_port_max.
Definition is_valid_assignable_server_port (port_number : Z) : bool :=
  (server_plugin_port_min <=? port_number) && (port_number <=? server_plugin_port_max).

Section registry.
Context {P : Type}.

(** [slots[server_port_count]]. *)
Local Abbreviation server_plugin_registry := (list (server_plugin_slot P)).

(** [None] is a NULL registry, which is left alone. *)
Definition init_server_plugin_registry (registry : option server_plugin_registry)
    : option server_plugin_registry :=
  match registry with
  | None => None
  | Some slots =>
      Some (imap (fun index _ => Slot (u8 (Z.of_nat index + server_port_min)) None) slots)
  end.

(** The index of a port; [size_t] arithmetic on a checked port. *)
Definition slot_index (port_number : Z) : nat := Z.to_nat (port_number - server_port_min).

(** The C result and the registry after the call; the outer [None] is a slot
    access out of range. *)
Definition register_server_plugin (registry : option server_plugin_registry)
    (port_number : Z) (plugin : option P) : option (Z * option server_plugin_registry) :=
  match registry, plugin with
  | Some slots, Some plugin =>
      if negb (is_valid_server_port port_number) then Some (-1, registry)
      else
        let index := slot_index port_number in
        let? slot := slots !! index in
        match slot_plugin slot with
        | Some _ => Some (-1, registry)
        | None => Some (0, Some (<[index := Slot (slot_port slot) (Some plugin)]> slots))
        end
  | _, _ => Some (-1, registry)
  end.

Definition find_server_plugin (registry : option server_plugin_registry) (port_number : Z)
    : option (option P) :=
  match registry with
  | None => Some None
  | Some slots =>
      if negb (is_valid_server_port port_number) then Some None
      else let? slot := slots !! slot_index port_number in Some (slot_plugin slot)
  end.

Definition count_registered_server_plugins (registry : option server_plugin_registry) : Z :=
  match registry with
  | None => 0
  | Some slots =>
      fold_left (fun count slot =>
        match slot_plugin slot with Some _ => count + 1 | None => count end) slots 0
  end.

(** clear_plugin_slot of the loader. *)
Definition clear_plugin_slot (registry : option server_plugin_registry) (port_number : Z)
    : option (option server_plugin_registry) :=
  match registry with
  | None => Some None
  | Some slots =>
      if negb (is_valid_server_port port_number) then Some registry
      else
        let index := slot_index port_number in
        let? slot := slots !! index in
        Some (Some (<[index := Slot (slot_port slot) None]> slots))
  end.

(** *** The registry as a partial map from ports to plugins *)

Definition registry_ok (slots : server_plugin_registry) : Prop :=
  length slots = 16%nat /\ forall i slot, slots !! i = Some slot -> slot_port slot = Z.of_nat i.

(** What a registry maps [port] to. *)
Definition mapped (slots : server_plugin_registry) (port : Z) : option P :=
  match slots !! slot_index port with Some slot => slot_plugin slot | None => None end.

Lemma slot_in slots port :
  registry_ok slots -> 0 <= port <= 15 ->
  slots !! slot_index port = Some (Slot port (mapped slots port)).
Proof.
  intros [Hl Hp] Hr. unfold mapped, slot_index, server_port_min, server_system_port.
  destruct (lookup_lt_is_Some_2 slots (Z.to_nat (port - 0))) as [[p pl] E]; [lia|].
  rewrite E. pose proof (Hp _ _ E) as Hpp. cbn in *. f_equal. f_equal. lia.
Qed.

Lemma mapped_insert slots port port' pl :
  registry_ok slots -> 0 <= port <= 15 -> 0 <= port' ->
  mapped (<[slot_index port := Slot port pl]> slots) port'
    = if decide (port' = port) then pl else mapped slots port'.
Proof.
  intros [Hl _] Hr Hr'. unfold mapped, slot_index, server_port_min, server_system_port.
  case_decide as E.
  - subst. rewrite list_lookup_insert_eq by lia. done.
  - rewrite list_lookup_insert_ne by lia. done.
Qed.

Lemma registry_ok_insert slots port pl :
  registry_ok slots -> 0 <= port <= 15 ->
  registry_ok (<[slot_index port := Slot port pl]> slots).
Proof.
  intros [Hl Hp] Hr. split; [by rewrite length_insert|]. intros i slot Hi.
  apply list_lookup_insert_Some in Hi as [(<- & <- & _)|[_ Hi]]; [|eauto].
  cbn. unfold slot_index, server_port_min, server_system_port. lia.
Qed.

Lemma init_registry_ok slots r :
  length slots = 16%nat -> init_server_plugin_registry (Some slots) = Some r ->
  registry_ok r /\ forall port, mapped r port = None.
Proof.
  intros Hl [= <-]. split; [split|].
  - by rewrite length_imap.
  - intros i slot Hi. rewrite list_lookup_imap in Hi.
    destruct (slots !! i) eqn:E; [|done]. apply lookup_lt_Some in E.
    injection Hi as <-. cbn. unfold server_port_min, server_system_port.
    rewrite u8_small by lia. lia.
  - intros port. unfold mapped. rewrite list_lookup_imap. by destruct (slots !! _).
Qed.

Lemma register_eq slots port pl :
  registry_ok slots -> 0 <= port <= 15 ->
  register_server_plugin (Some slots) port (Some pl) =
    Some (match mapped slots port with
          | Some _ => (-1, Some slots)
          | None => (0, Some (<[slot_index port := Slot port (Some pl)]> slots))
          end).
Proof.
  intros Hok Hr. unfold register_server_plugin, is_valid_server_port.
  unfold server_port_max, server_plugin_port_max. destruct (Z.leb_spec port 15); [|lia].
  rewrite (slot_in _ _ Hok Hr). cbn. by destruct (mapped slots port).
Qed.

Lemma find_eq slots port :
  registry_ok slots -> 0 <= port <= 15 ->
  find_server_plugin (Some slots) port = Some (mapped slots port).
Proof.
  intros Hok Hr. unfold find_server_plugin, is_valid_server_port.
  unfold server_port_max, server_plugin_port_max. destruct (Z.leb_spec port 15); [|lia].
  by rewrite (slot_in _ _ Hok Hr).
Qed.

Lemma clear_eq slots port :
  registry_ok slots -> 0 <= port <= 15 ->
  clear_plugin_slot (Some slots) port = Some (Some (<[slot_index port := Slot port None]> slots)).
Proof.
  intros Hok Hr. unfold clear_plugin_slot, is_valid_server_port.
  unfold server_port_max, server_plugin_port_max. destruct (Z.leb_spec port 15); [|lia].
  by rewrite (slot_in _ _ Hok Hr).
Qed.

Lemma count_acc slots : forall acc,
  fold_left (fun count slot =>
    match slot_plugin slot with Some _ => count + 1 | None => count end) slots acc
  = acc + Z.of_nat (length (filter (fun s : server_plugin_slot P => is_Some (slot_plugin s)) slots)).
Proof.
  induction slots as [|[p pl] slots IH]; intros acc; cbn [fold_left]; [cbn; lia|].
  rewrite IH, filter_cons. cbn. destruct pl.
  - rewrite decide_True by done. cbn [length]. lia.
  - rewrite decide_False by (intros [? ?]; done). lia.
Qed.

(** The registry is a partial map from the ports 0..15 to plugins:
    registering succeeds exactly on a free valid port, then a lookup of that
    port finds the plugin, every other port is unchanged and the count grows
    by one; otherwise the registry is unchanged. *)
Theorem registry_map_laws slots port pl :
  registry_ok slots -> 0 <= port < 256 ->
  exists r slots',
    register_server_plugin (Some slots) port (Some pl) = Some (r, Some slots') /\
    registry_ok slots' /\
    (r = 0 <-> port <= 15 /\ find_server_plugin (Some slots) port = Some None) /\
    (r <> 0 -> slots' = slots) /\
    (r = 0 ->
       (forall q, 0 <= q < 256 -> find_server_plugin (Some slots') q =
          if q =? port then Some (Some pl) else find_server_plugin (Some slots) q) /\
       count_registered_server_plugins (Some slots') =
         count_registered_server_plugins (Some slots) + 1).
Proof.
  intros Hok Hp. destruct (Z.leb_spec port 15) as [Hle|Hgt].
  2: { exists (-1), slots. unfold register_server_plugin, is_valid_server_port.
       unfold server_port_max, server_plugin_port_max. destruct (Z.leb_spec port 15); [lia|].
       split_and!; try done. intuition lia. }
  rewrite register_eq, find_eq by (done || lia). destruct (mapped slots port) eqn:Em.
  { eexists _, _. split_and!; [done|done| |done|done]. intuition congruence. }
  eexists _, _. split_and!; [done|apply registry_ok_insert; (done || lia)|done|done|].
  intros _. split.
  - intros q Hq. destruct (Z.leb_spec q 15).
    + rewrite !find_eq, mapped_insert by (done || lia || apply registry_ok_insert; done || lia).
      case_decide; destruct (Z.eqb_spec q port); done.
    + unfold find_server_plugin, is_valid_server_port, server_port_max, server_plugin_port_max.
      destruct (Z.leb_spec q 15); [lia|]. by destruct (Z.eqb_spec q port); [lia|].
  - unfold count_registered_server_plugins. rewrite !count_acc.
    pose proof (slot_in slots port Hok ltac:(lia)) as Hs. rewrite Em in Hs.
    pose proof (f_equal (filter (fun s => is_Some (slot_plugin s))) (take_drop_middle _ _ _ Hs))
      as Hsplit. rewrite <- Hsplit.
    rewrite insert_take_drop by (apply lookup_lt_Some in Hs; done).
    rewrite !filter_app, !filter_cons. cbn. rewrite decide_True by done.
    rewrite decide_False by (intros [? ?]; done). rewrite !length_app. cbn [length]. lia.
Qed.
End registry.

Definition empty_registry : list (server_plugin_slot Z) :=
  imap (fun i _ => Slot (Z.of_nat i) None) (replicate 16 tt).

Lemma registry_map_laws_witness :
  exists r slots',
    register_server_plugin (Some empty_registry) 3 (Some 42) = Some (r, Some slots') /\
    registry_ok slots' /\
    (r = 0 <-> 3 <= 15 /\ find_server_plugin (Some empty_registry) 3 = Some None) /\
    (r <> 0 -> slots' = empty_registry) /\
    (r = 0 ->
       (forall q, 0 <= q < 256 -> find_server_plugin (Some slots') q =
          if q =? 3 then Some (Some 42) else find_server_plugin (Some empty_registry) q) /\
       count_registered_server_plugins (Some slots') =
         count_registered_server_plugins (Some empty_registry) + 1).
Proof.
  apply registry_map_laws; [|lia].
  destruct (init_registry_ok (replicate 16 (Slot 0 (@None Z))) empty_registry); [done|done|done].
Defined.
