(* ===== verification/Config.v ===== *)
(** The command line (src/config/server_config.c) and the plugin
    configuration file (src/config/server_plugin_config.c).  A [char] array
    that holds a string is the string. *)
From stdpp Require Import base numbers list option strings.
From Stdlib Require Import ZArith Lia.
From S2P Require Import Prelude CLib PluginApi Registry.

Local Open Scope Z_scope.
Local Open Scope squid_scope.

(** ** server_config.c *)

Inductive server_run_mode := server_run_mode_console | server_run_mode_daemon.

Definition server_default_config_path : list Z := text "/opt/squid/etc/squid_server.conf".
Definition server_default_system_plugin_path : list Z :=
  text "/opt/squid/lib/plugins/libsquidsys.so".
Definition server_plugin_path_max : Z := 512.

Record server_config := ServerConfig {
  run_mode : server_run_mode;
  show_help : bool;
  config_path : list Z }.

Definition init_server_config : server_config :=
  ServerConfig server_run_mode_console false server_default_config_path.

(** The [for] loop over [argv[1..]]: C result, [*config] and
    [*error_message] ([None] is NULL). *)
Fixpoint parse_arguments (config : server_config) (argv : list (list Z))
    : Z * server_config * option (list Z) :=
  match argv with
  | [] => (0, config, None)
  | argument :: argv =>
      if eq_text argument (text "--help") || eq_text argument (text "-h") then
        (0, ServerConfig (run_mode config) true (config_path config), None)
      else if eq_text argument (text "--console") then
        parse_arguments
          (ServerConfig server_run_mode_console (show_help config) (config_path config)) argv
      else if eq_text argument (text "--daemon") then
        parse_arguments
          (ServerConfig server_run_mode_daemon (show_help config) (config_path config)) argv
      else if eq_text argument (text "--config") then
        match argv with
        | [] => (-1, config, Some (text "missing path after --config"))
        | path :: argv =>
            if server_plugin_path_max <=? zlen path then
              (-1, config, Some (text "configuration path is too long"))
            else
              parse_arguments (ServerConfig (run_mode config) (show_help config) path) argv
        end
      else (-1, config, Some (text "unknown argument"))
  end.

(** [argv] includes the program name. *)
Definition parse_server_config (argv : list (list Z)) : Z * server_config * option (list Z) :=
  parse_arguments init_server_config (tail argv).

Definition server_run_mode_name (m : server_run_mode) : list Z :=
  match m with
  | server_run_mode_console => text "console"
  | server_run_mode_daemon => text "daemon"
  end.

(** ** server_plugin_config.c *)

Definition server_plugin_mapping_max : Z := server_plugin_port_max.
Definition server_serial_device_path_max : Z := 64.
Definition server_squid_payload_min : Z := 16.
Definition server_squid_payload_max : Z := 112.
Definition server_squid_payload_default : Z := server_squid_payload_max.

Record server_plugin_mapping := Mapping { map_port : Z; map_path : list Z }.

(** [mappings] holds the first [mapping_count] entries of the array. *)
Record server_plugin_config_file := ConfigFile {
  system_plugin_path : list Z;
  mappings : list server_plugin_mapping;
  serial_device : list Z;
  serial_baud : Z;
  serial_databits : Z;
  serial_parity : Z;
  serial_stopbits : Z;
  serial_flow : Z;
  squid_payload : Z }.

Definition trim_left (s : list Z) : list Z := skip_while isspace s.

(** [trim_right]: white space at the end is overwritten by NULs. *)
Fixpoint trim_right (s : list Z) : list Z :=
  match s with
  | [] => []
  | c :: s =>
      match trim_right s with
      | [] => if isspace c then [] else [c]
      | t => c :: t
      end
  end.

(** [copy_plugin_path]: [None] is -1. *)
Definition copy_plugin_path (source : option (list Z)) : option (list Z) :=
  match source with
  | Some source => if server_plugin_path_max <=? zlen source then None else Some source
  | None => None
  end.

Definition find_plugin_mapping (config : server_plugin_config_file) (port_number : Z)
    : option server_plugin_mapping :=
  find (fun m => map_port m =? port_number) (mappings config).

Definition parse_port_number (s : option (list Z)) : option Z :=
  match s with
  | None => None
  | Some s =>
      let '(parsed_value, tail) := strtol s in
      if eq_text tail s || negb (eq_text tail []) then None
      else if (parsed_value <? 0) || (255 <? parsed_value) then None
      else Some (u8 parsed_value)
  end.

(** A directive either changes the configuration or fails with a message. *)
Definition outcome : Type := server_plugin_config_file + list Z.
Definition fails (message : string) : outcome := inr (text message).
Arguments fails message%_string.

Definition set_mappings (config : server_plugin_config_file) (sys : list Z)
    (m : list server_plugin_mapping) : server_plugin_config_file :=
  ConfigFile sys m (serial_device config) (serial_baud config) (serial_databits config)
    (serial_parity config) (serial_stopbits config) (serial_flow config) (squid_payload config).
Definition set_serial (config : server_plugin_config_file) (device : list Z)
    (baud databits parity stopbits flow payload : Z) : server_plugin_config_file :=
  ConfigFile (system_plugin_path config) (mappings config) device baud databits parity stopbits
    flow payload.

Definition parse_system_plugin_line (config : server_plugin_config_file)
    (path_token extra_token : option (list Z)) : outcome :=
  match path_token, extra_token with
  | Some _, None =>
      match copy_plugin_path path_token with
      | None => fails "system plugin path is too long"
      | Some path => inl (set_mappings config path (mappings config))
      end
  | _, _ => fails "invalid system_plugin directive"
  end.

Definition parse_plugin_line (config : server_plugin_config_file)
    (port_token path_token extra_token : option (list Z)) : outcome :=
  match port_token, path_token, extra_token with
  | Some _, Some _, None =>
      match parse_port_number port_token with
      | None => fails "invalid port number"
      | Some port_number =>
          if negb (is_valid_assignable_server_port port_number) then
            fails "plugin ports must be in the range 1-15"
          else
            match find_plugin_mapping config port_number with
            | Some _ => fails "duplicate plugin port assignment"
            | None =>
                if server_plugin_mapping_max <=? zlen (mappings config) then
                  fails "too many plugin mappings"
                else
                  match copy_plugin_path path_token with
                  | None => fails "plugin path is too long"
                  | Some path =>
                      inl (set_mappings config (system_plugin_path config)
                             (mappings config ++ [Mapping port_number path]))
                  end
            end
      end
  | _, _, _ => fails "invalid plugin directive"
  end.

Definition init_server_plugin_config_file : server_plugin_config_file :=
  ConfigFile server_default_system_plugin_path [] [] 9600 8 0 1 1 server_squid_payload_default.

(** The serial directives and [squid_payload], after the keyword. *)
Definition parse_serial_device (config : server_plugin_config_file)
    (first_value second_value : option (list Z)) : outcome :=
  match first_value, second_value with
  | Some device, None =>
      if server_serial_device_path_max <=? zlen device then fails "serial device path is too long"
      else inl (set_serial config device (serial_baud config) (serial_databits config)
                  (serial_parity config) (serial_stopbits config) (serial_flow config)
                  (squid_payload config))
  | _, _ => fails "invalid serial_device directive"
  end.

Definition parse_serial_baud (config : server_plugin_config_file)
    (first_value second_value : option (list Z)) : outcome :=
  match first_value, second_value with
  | Some value, None =>
      let '(parsed_baud, tail) := strtol value in
      if eq_text tail value || negb (eq_text tail []) || (parsed_baud <=? 0) then
        fails "invalid serial baud rate"
      else inl (set_serial config (serial_device config) (s32 parsed_baud)
                  (serial_databits config) (serial_parity config) (serial_stopbits config)
                  (serial_flow config) (squid_payload config))
  | _, _ => fails "invalid serial_baud directive"
  end.

Definition parse_serial_databits (config : server_plugin_config_file)
    (first_value second_value : option (list Z)) : outcome :=
  match first_value, second_value with
  | Some value, None =>
      if negb (eq_text value (text "7")) && negb (eq_text value (text "8")) then
        fails "serial_databits must be 7 or 8"
      else inl (set_serial config (serial_device config) (serial_baud config)
                  (if eq_text value (text "7") then 7 else 8) (serial_parity config)
                  (serial_stopbits config) (serial_flow config) (squid_payload config))
  | _, _ => fails "serial_databits must be 7 or 8"
  end.

Definition parse_serial_parity (config : server_plugin_config_file)
    (first_value second_value : option (list Z)) : outcome :=
  let set p := inl (set_serial config (serial_device config) (serial_baud config)
    (serial_databits config) p (serial_stopbits config) (serial_flow config)
    (squid_payload config)) in
  match first_value, second_value with
  | Some value, None =>
      if eq_text value (text "none") then set 0
      else if eq_text value (text "even") then set 1
      else if eq_text value (text "odd") then set 2
      else fails "serial_parity must be none, even, or odd"
  | _, _ => fails "invalid serial_parity directive"
  end.

Definition parse_serial_stopbits (config : server_plugin_config_file)
    (first_value second_value : option (list Z)) : outcome :=
  match first_value, second_value with
  | Some value, None =>
      if negb (eq_text value (text "1")) && negb (eq_text value (text "2")) then
        fails "serial_stopbits must be 1 or 2"
      else inl (set_serial config (serial_device config) (serial_baud config)
                  (serial_databits config) (serial_parity config)
                  (if eq_text value (text "2") then 2 else 1) (serial_flow config)
                  (squid_payload config))
  | _, _ => fails "serial_stopbits must be 1 or 2"
  end.

Definition parse_serial_flow (config : server_plugin_config_file)
    (first_value second_value : option (list Z)) : outcome :=
  let set f := inl (set_serial config (serial_device config) (serial_baud config)
    (serial_databits config) (serial_parity config) (serial_stopbits config) f
    (squid_payload config)) in
  match first_value, second_value with
  | Some value, None =>
      if eq_text value (text "none") then set 0
      else if eq_text value (text "rtscts") then set 1
      else if eq_text value (text "xonxoff") then set 2
      else fails "serial_flow must be none, rtscts, or xonxoff"
  | _, _ => fails "invalid serial_flow directive"
  end.

Definition parse_squid_payload (config : server_plugin_config_file)
    (first_value second_value : option (list Z)) : outcome :=
  match first_value, second_value with
  | Some _, None =>
      match parse_port_number first_value with
      | Some p =>
          if (p <? server_squid_payload_min) || (server_squid_payload_max <? p) then
            fails "squid_payload must be from 16 to 112"
          else inl (set_serial config (serial_device config) (serial_baud config)
                      (serial_databits config) (serial_parity config) (serial_stopbits config)
                      (serial_flow config) p)
      | None => fails "squid_payload must be from 16 to 112"
      end
  | _, _ => fails "squid_payload must be from 16 to 112"
  end.

(** One line that is not blank and not a comment: the comparison of the
    keyword with the directives. *)
Definition parse_directive (config : server_plugin_config_file) (line : list Z) : outcome :=
  let tokens := strtok_all (fun c => (c =? 32) || (c =? 9)) line in
  let keyword := tokens !! 0%nat in
  let first_value := tokens !! 1%nat in
  let second_value := tokens !! 2%nat in
  let extra_value := tokens !! 3%nat in
  let is_keyword (k : list Z) := match keyword with Some w => eq_text w k | None => false end in
  if is_keyword (text "system_plugin") then
    parse_system_plugin_line config first_value second_value
  else if is_keyword (text "plugin") then
    parse_plugin_line config first_value second_value extra_value
  else if is_keyword (text "serial_device") then
    parse_serial_device config first_value second_value
  else if is_keyword (text "serial_baud") then parse_serial_baud config first_value second_value
  else if is_keyword (text "serial_databits") then
    parse_serial_databits config first_value second_value
  else if is_keyword (text "serial_parity") then
    parse_serial_parity config first_value second_value
  else if is_keyword (text "serial_stopbits") then
    parse_serial_stopbits config first_value second_value
  else if is_keyword (text "serial_flow") then parse_serial_flow config first_value second_value
  else if is_keyword (text "squid_payload") then
    parse_squid_payload config first_value second_value
  else fails "unknown plugin configuration directive".

(** The body of the [while (fgets(...))] loop. *)
Definition parse_line (config : server_plugin_config_file) (line_buffer : list Z) : outcome :=
  let line := trim_left (trim_right line_buffer) in
  match line with
  | [] => inl config
  | 35 :: _ => inl config
  | _ => parse_directive config line
  end.

Definition line_buffer_size : nat := 1024.

(** The loop; [fuel] bounds the number of lines. *)
Fixpoint parse_lines (fuel : nat) (config : server_plugin_config_file) (file : list Z)
    : server_plugin_config_file * option (list Z) :=
  match fuel, file with
  | S fuel, _ :: _ =>
      let '(chunk, rest) := fgets (line_buffer_size - 1) file in
      match parse_line config (before_nul chunk) with
      | inl config => parse_lines fuel config rest
      | inr message => (config, Some message)
      end
  | _, _ => (config, None)
  end.

(** [file] is the content of the file, [None] when it cannot be opened; the
    result is the C return value, [*config_file] and [*error_message]. *)
Definition parse_server_plugin_config_file (file_path : option (list Z)) (file : option (list Z))
    : Z * server_plugin_config_file * option (list Z) :=
  match file_path, file with
  | None, _ => (-1, init_server_plugin_config_file, Some (text "missing plugin configuration path"))
  | Some _, None =>
      (-1, init_server_plugin_config_file, Some (text "failed to open plugin configuration"))
  | Some _, Some content =>
      match parse_lines (length content) init_server_plugin_config_file content with
      | (config, None) => (0, config, None)
      | (config, Some message) => (-1, config, Some message)
      end
  end.
