(* ===== verification/ConfigProps.v ===== *)
(** The configuration file: what every parse guarantees, the line-oriented
    reading of the file, the round trip with a printed configuration, and
    the command line. *)
From stdpp Require Import base numbers list option strings.
From Stdlib Require Import ZArith Lia.
From S2P Require Import Prelude CLib PluginApi Registry Config.

Local Open Scope Z_scope.
Local Open Scope squid_scope.

(** ** Well-formed configurations *)

(** A path the C arrays hold with its NUL. *)
Definition path_ok (p : list Z) : Prop := cstr_ok p /\ zlen p < server_plugin_path_max.

Definition mapping_ok (m : server_plugin_mapping) : Prop :=
  1 <= map_port m <= 15 /\ path_ok (map_path m).

Record config_ok (c : server_plugin_config_file) : Prop := {
  ok_system : path_ok (system_plugin_path c);
  ok_mappings : Forall mapping_ok (mappings c);
  ok_distinct : NoDup (map map_port (mappings c));
  ok_count : zlen (mappings c) <= 15;
  ok_device : cstr_ok (serial_device c) /\ zlen (serial_device c) < 64;
  (** an [int], and no more: the parser keeps the low 32 bits of the number *)
  ok_baud : - 2 ^ 31 <= serial_baud c < 2 ^ 31;
  ok_databits : serial_databits c = 7 \/ serial_databits c = 8;
  ok_parity : 0 <= serial_parity c <= 2;
  ok_stopbits : serial_stopbits c = 1 \/ serial_stopbits c = 2;
  ok_flow : 0 <= serial_flow c <= 2;
  ok_payload : 16 <= squid_payload c <= 112 }.

Lemma init_config_ok : config_ok init_server_plugin_config_file.
Proof.
  split; cbn; rewrite ?zlen_nil; unfold server_squid_payload_default, server_squid_payload_max;
    try lia; try (by constructor).
  - split; [by apply text_cstr_ok|]. by vm_compute.
  - split; [constructor|]. lia.
Qed.

(** ** Each directive keeps the configuration well formed *)

Definition keeps (r : outcome) : Prop :=
  match r with inl c => config_ok c | inr _ => True end.
Definition token_ok (t : option (list Z)) : Prop :=
  match t with Some s => cstr_ok s | None => True end.

Lemma copy_plugin_path_ok t p : token_ok t -> copy_plugin_path t = Some p -> path_ok p.
Proof.
  unfold copy_plugin_path. destruct t as [s|]; [|done]. intros Ht.
  destruct (Z.leb_spec server_plugin_path_max (zlen s)); [done|]. intros [= <-]. done.
Qed.

Lemma find_none_fresh c port :
  find_plugin_mapping c port = None -> port ∉ map map_port (mappings c).
Proof.
  unfold find_plugin_mapping. intros H Hin. apply list_elem_of_fmap in Hin as (m & -> & Hm).
  apply list_elem_of_In in Hm. pose proof (find_none _ _ H _ Hm) as Hx. cbn in Hx. lia.
Qed.

Lemma parse_system_plugin_line_keeps c t1 t2 :
  config_ok c -> token_ok t1 -> keeps (parse_system_plugin_line c t1 t2).
Proof.
  intros [] Ht. unfold parse_system_plugin_line.
  destruct t1 as [s|], t2; try done.
  destruct (copy_plugin_path (Some s)) as [p|] eqn:E; [|done].
  split; cbn; try done. by eapply copy_plugin_path_ok.
Qed.

Lemma parse_plugin_line_keeps c t1 t2 t3 :
  config_ok c -> token_ok t2 -> keeps (parse_plugin_line c t1 t2 t3).
Proof.
  intros [] Ht. unfold parse_plugin_line.
  destruct t1 as [s1|], t2 as [s2|], t3; try done.
  destruct (parse_port_number _) as [port|]; [|done].
  destruct (is_valid_assignable_server_port port) eqn:Hport; [|done].
  destruct (find_plugin_mapping c port) eqn:Hf; [done|]. cbn [negb].
  destruct (Z.leb_spec server_plugin_mapping_max (zlen (mappings c))) as [|Hlt]; [done|].
  destruct (copy_plugin_path (Some s2)) as [p|] eqn:E; [|done].
  unfold is_valid_assignable_server_port in Hport.
  change server_plugin_port_min with 1 in Hport. change server_plugin_port_max with 15 in Hport.
  change server_plugin_mapping_max with 15 in Hlt.
  split; cbn; try done.
  - apply Forall_app. split; [done|]. apply Forall_singleton. split; cbn; [lia|].
    by eapply copy_plugin_path_ok.
  - rewrite map_app. apply NoDup_app. split_and!; [done| |apply NoDup_singleton].
    intros x Hx ->%list_elem_of_singleton. by eapply find_none_fresh.
  - zlen_lia.
Qed.

Lemma parse_serial_device_keeps c t1 t2 :
  config_ok c -> token_ok t1 -> keeps (parse_serial_device c t1 t2).
Proof.
  intros [] Ht. unfold parse_serial_device. destruct t1 as [s|], t2; try done.
  destruct (Z.leb_spec server_serial_device_path_max (zlen s)); [done|].
  change server_serial_device_path_max with 64 in *. by split.
Qed.

Ltac keep_fields H := destruct H; repeat (case_test || case_match); try done; by split; cbn; auto; lia.

Lemma s32_range x : - 2 ^ 31 <= s32 x < 2 ^ 31.
Proof.
  unfold s32, swrap. change (2 ^ (32 - 1)) with (2 ^ 31).
  pose proof (Z.mod_pos_bound (x + 2 ^ 31) (2 ^ 32) ltac:(done)) as Hm.
  change (2 ^ 32) with (2 ^ 31 + 2 ^ 31) in *. lia.
Qed.
Lemma parse_serial_baud_keeps c t1 t2 : config_ok c -> keeps (parse_serial_baud c t1 t2).
Proof.
  intros H. unfold parse_serial_baud. destruct t1 as [t|], t2; try done.
  destruct (strtol t) as [b tail]. pose proof (s32_range b). keep_fields H.
Qed.
Lemma parse_serial_databits_keeps c t1 t2 : config_ok c -> keeps (parse_serial_databits c t1 t2).
Proof. intros H. unfold parse_serial_databits. keep_fields H. Qed.
Lemma parse_serial_parity_keeps c t1 t2 : config_ok c -> keeps (parse_serial_parity c t1 t2).
Proof. intros H. unfold parse_serial_parity. keep_fields H. Qed.
Lemma parse_serial_stopbits_keeps c t1 t2 : config_ok c -> keeps (parse_serial_stopbits c t1 t2).
Proof. intros H. unfold parse_serial_stopbits. keep_fields H. Qed.
Lemma parse_serial_flow_keeps c t1 t2 : config_ok c -> keeps (parse_serial_flow c t1 t2).
Proof. intros H. unfold parse_serial_flow. keep_fields H. Qed.
Lemma parse_squid_payload_keeps c t1 t2 : config_ok c -> keeps (parse_squid_payload c t1 t2).
Proof.
  intros H. unfold parse_squid_payload, server_squid_payload_min, server_squid_payload_max.
  destruct t1, t2; try done. destruct (parse_port_number _) as [p|]; [|done].
  destruct (Z.ltb_spec p 16), (Z.ltb_spec 112 p); try done. destruct H. by split.
Qed.

#[local] Hint Resolve parse_system_plugin_line_keeps parse_plugin_line_keeps
  parse_serial_device_keeps parse_serial_baud_keeps parse_serial_databits_keeps
  parse_serial_parity_keeps parse_serial_stopbits_keeps parse_serial_flow_keeps
  parse_squid_payload_keeps : squid.

(** ** Tokens and lines carry no NUL *)

Lemma tokens_from_ok (P : Z -> Prop) delim cur s :
  Forall P cur -> Forall P s -> Forall (Forall P) (tokens_from delim cur s).
Proof.
  revert cur. induction s as [|c s IH]; intros cur Hcur Hs; cbn.
  - destruct cur; [constructor|by apply Forall_singleton].
  - apply Forall_cons_1 in Hs as [Hc Hs]. destruct (delim c).
    + destruct cur; [|constructor]; auto.
    + apply IH; [|done]. apply Forall_app; auto.
Qed.

Lemma token_lookup_ok delim s i : cstr_ok s -> token_ok (strtok_all delim s !! i).
Proof.
  intros Hs. pose proof (tokens_from_ok _ delim [] s (Forall_nil_2 _) Hs) as H.
  unfold strtok_all. destruct (tokens_from delim [] s !! i) eqn:E; [|done]. cbn.
  exact (Forall_lookup_1 _ _ _ _ H E).
Qed.
#[local] Hint Resolve token_lookup_ok : squid.

Lemma parse_directive_keeps c line : config_ok c -> cstr_ok line -> keeps (parse_directive c line).
Proof.
  intros Hc Hl. unfold parse_directive.
  repeat (case_test; [auto with squid|]). done.
Qed.

Lemma trim_right_prefix s : exists w, s = trim_right s ++ w /\ Forall (fun c => isspace c = true) w.
Proof.
  induction s as [|c s (w & E & Hw)]; [by exists []|]. cbn.
  destruct (trim_right s) as [|x t] eqn:Et.
  - cbn in E. destruct (isspace c) eqn:Hc.
    + exists (c :: w). cbn. rewrite <- E. split; [done|constructor; [done|by rewrite E]].
    + exists w. by rewrite E at 1.
  - exists w. split; [by rewrite E at 1|done].
Qed.

Lemma skip_while_suffix p s : exists w, s = w ++ skip_while p s.
Proof.
  induction s as [|c s [w E]]; [by exists []|]. cbn. destruct (p c); [|by exists []].
  exists (c :: w). by rewrite E at 1.
Qed.

Lemma trim_ok s : cstr_ok s -> cstr_ok (trim_left (trim_right s)).
Proof.
  intros Hs. destruct (trim_right_prefix s) as (w & E & _).
  destruct (skip_while_suffix isspace (trim_right s)) as (v & E'). unfold trim_left.
  unfold cstr_ok in *. rewrite E in Hs. apply Forall_app in Hs as [Hs _].
  rewrite E' in Hs. by apply Forall_app in Hs as [_ Hs].
Qed.

Lemma parse_line_keeps c s : config_ok c -> cstr_ok s -> keeps (parse_line c s).
Proof.
  intros Hc Hs. apply trim_ok in Hs. unfold parse_line.
  destruct (trim_left (trim_right s)) as [|x l]; [done|].
  pose proof (parse_directive_keeps c (x :: l) Hc Hs).
  repeat case_match; done.
Qed.

Lemma before_nul_ok s : bytes_ok s -> cstr_ok (before_nul s).
Proof.
  induction 1 as [|c s Hc _ IH]; [constructor|]. cbn.
  destruct (Z.eqb_spec c 0); constructor; [unfold is_byte in Hc; lia|done].
Qed.

Lemma parse_lines_keeps fuel c file :
  config_ok c -> bytes_ok file -> config_ok (parse_lines fuel c file).1.
Proof.
  revert c file. induction fuel as [|fuel IH]; intros c file Hc Hf; [done|].
  cbn [parse_lines]. destruct file as [|b file]; [done|].
  pose proof (fgets_app (line_buffer_size - 1) (b :: file)) as E.
  destruct (fgets _ _) as [chunk rest]. rewrite E in Hf. apply bytes_ok_app in Hf as [H1 H2].
  pose proof (parse_line_keeps c (before_nul chunk) Hc (before_nul_ok _ H1)) as Hk.
  destruct (parse_line c _) as [c'|m]; [by apply IH|done].
Qed.

Lemma parse_file_keeps file_path file :
  match file with Some content => bytes_ok content | None => True end ->
  config_ok (parse_server_plugin_config_file file_path file).1.2.
Proof.
  intros Hf. unfold parse_server_plugin_config_file. pose proof init_config_ok as Hi.
  destruct file_path as [p|]; [|done]. destruct file as [content|]; [|done].
  pose proof (parse_lines_keeps (length content) _ content Hi Hf) as Hk. by destruct (parse_lines _ _ _) as [c [m|]].
Qed.

(** C29. Whatever bytes the configuration file holds, and whether parsing
    succeeds or stops at an error, the configuration handed to the runtime is
    well formed: at most 15 mappings, on distinct ports 1 to 15, with every
    path terminated inside its array, data bits, parity, stop bits, flow control
    and payload in the ranges the transport and libsquid accept; the result is
    0 exactly when no error message is given.  Of the baud rate it says only
    that it is a C [int]: the parser keeps the low 32 bits of the number in
    the file, so a rate may come out negative ([config_baud_truncated]). *)
Theorem config_always_ok file_path file :
  match file with Some content => bytes_ok content | None => True end ->
  let '(r, c, message) := parse_server_plugin_config_file file_path file in
  config_ok c /\ (r = 0 /\ message = None \/ r = -1 /\ message <> None).
Proof.
  intros Hf. pose proof (parse_file_keeps file_path file Hf) as Hk. unfold parse_server_plugin_config_file in *.
  destruct file_path as [p|]; [|split; [done|right; done]].
  destruct file as [content|]; [|split; [done|right; done]].
  destruct (parse_lines _ _ _) as [c [m|]]; (split; [done|]); [right|left]; done.
Qed.

Lemma config_always_ok_witness :
  bytes_ok (text "plugin 3 /lib/e.so") /\
  let '(r, c, message) :=
    parse_server_plugin_config_file (Some (text "c")) (Some (text "plugin 3 /lib/e.so")) in
  config_ok c /\ (r = 0 /\ message = None \/ r = -1 /\ message <> None).
Proof.
  split; [closed|].
  apply (config_always_ok (Some (text "c")) (Some (text "plugin 3 /lib/e.so"))). closed.
Defined.

(** ** The file is read line by line *)

(** The reference reading: the file split at its newlines, each line parsed
    in turn until one fails. *)
Fixpoint run_lines (config : server_plugin_config_file) (lines : list (list Z))
    : server_plugin_config_file * option (list Z) :=
  match lines with
  | [] => (config, None)
  | line :: lines =>
      match parse_line config (before_nul line) with
      | inl config => run_lines config lines
      | inr message => (config, Some message)
      end
  end.

Lemma trim_right_snoc s : trim_right (s ++ [10]) = trim_right s.
Proof. induction s as [|c s IH]; [done|]. cbn. by rewrite IH. Qed.

Lemma before_nul_snoc s :
  before_nul (s ++ [10]) = before_nul s \/ before_nul (s ++ [10]) = before_nul s ++ [10].
Proof.
  induction s as [|c s IH]; [by right|]. cbn. destruct (c =? 0); [by left|].
  destruct IH as [-> | ->]; [by left|by right].
Qed.

Lemma parse_line_newline c s : parse_line c (before_nul (s ++ [10])) = parse_line c (before_nul s).
Proof.
  unfold parse_line. destruct (before_nul_snoc s) as [-> | ->]; [done|]. by rewrite trim_right_snoc.
Qed.

Lemma split_from_line cur l rest :
  10 ∉ l -> split_from 10 cur (l ++ 10 :: rest) = (cur ++ l) :: split_from 10 [] rest.
Proof.
  revert cur. induction l as [|c l IH]; intros cur H; cbn; [by rewrite app_nil_r|].
  apply not_elem_of_cons in H as [Hc Hl].
  destruct (Z.eqb_spec c 10); [congruence|]. rewrite IH by done. by rewrite <- app_assoc.
Qed.

Lemma split_from_last cur l : 10 ∉ l -> split_from 10 cur l = [cur ++ l].
Proof.
  revert cur. induction l as [|c l IH]; intros cur H; cbn; [by rewrite app_nil_r|].
  apply not_elem_of_cons in H as [Hc Hl].
  destruct (Z.eqb_spec c 10); [congruence|]. rewrite IH by done. by rewrite <- app_assoc.
Qed.

Lemma first_newline (s : list Z) : 10 ∉ s \/ exists l rest, s = l ++ 10 :: rest /\ 10 ∉ l.
Proof.
  destruct (decide (10 ∈ s)) as [H|H]; [right|by left].
  apply list_elem_of_split_l in H as (l & rest & -> & Hl). by exists l, rest.
Qed.

Lemma parse_lines_enough n : forall fuel c file,
  (length file <= n)%nat -> (length file <= fuel)%nat ->
  Forall (fun l => zlen l < 1023) (split_from 10 [] file) ->
  parse_lines fuel c file = run_lines c (split_from 10 [] file).
Proof.
  induction n as [|n IH]; intros fuel c file Hn Hfuel Hshort.
  { destruct file; [|cbn in Hn; lia]. by destruct fuel. }
  destruct (first_newline file) as [Hno|(l & rest & -> & Hl)].
  - rewrite split_from_last in * by done. cbn [app] in *.
    apply Forall_cons_1 in Hshort as [Hshort _]. unfold zlen in Hshort. cbn [run_lines].
    destruct fuel as [|fuel], file as [|b file]; cbn [length] in *; try lia; try done.
    cbn [parse_lines]. rewrite fgets_last by (done || (cbn [length]; unfold line_buffer_size; lia)).
    destruct (parse_line c _); [|done]. by destruct fuel.
  - rewrite split_from_line in * by done. cbn [app] in *.
    apply Forall_cons_1 in Hshort as [Hl1 Hshort]. unfold zlen in Hl1. cbn [run_lines].
    rewrite !length_app in *. cbn [length] in *. destruct fuel as [|fuel]; [lia|].
    cbn [parse_lines]. rewrite fgets_line by (done || (unfold line_buffer_size; lia)).
    rewrite parse_line_newline. destruct (l ++ 10 :: rest) as [|b f] eqn:E; [by destruct l|].
    destruct (parse_line c _); [|done]. apply IH; [lia..|done].
Qed.

(** C28. A file whose lines are shorter than the line buffer is parsed line by
    line: the loop over [fgets] gives the result of splitting the file at its
    newlines and parsing each line in turn, stopping at the first one that
    fails. *)
Theorem config_line_oriented path content :
  Forall (fun l => zlen l < 1023) (split_from 10 [] content) ->
  parse_server_plugin_config_file (Some path) (Some content) =
    match run_lines init_server_plugin_config_file (split_from 10 [] content) with
    | (c, None) => (0, c, None)
    | (c, Some message) => (-1, c, Some message)
    end.
Proof.
  intros H. unfold parse_server_plugin_config_file.
  by rewrite (parse_lines_enough (length content)) by done.
Qed.

Lemma config_line_oriented_witness :
  let content := text "# one" ++ [10] ++ text "plugin 3 /e" ++ [10] in
  parse_server_plugin_config_file (Some []) (Some content) =
    match run_lines init_server_plugin_config_file [text "# one"; text "plugin 3 /e"; []] with
    | (c, None) => (0, c, None)
    | (c, Some message) => (-1, c, Some message)
    end.
Proof.
  apply (config_line_oriented [] (text "# one" ++ [10] ++ text "plugin 3 /e" ++ [10])).
  vm_compute. repeat constructor.
Defined.

(** The bound is needed: the tail of a long comment is read as a directive. *)
Definition long_comment : list Z :=
  35 :: replicate 1022 32 ++ text "serial_databits 7" ++ [10].
Lemma config_long_comment_is_parsed :
  let '(r, c, _) := parse_server_plugin_config_file (Some []) (Some long_comment) in
  r = 0 /\ serial_databits c = 7.
Proof. vm_compute. done. Qed.

(** A baud rate above [INT_MAX] is accepted and stored modulo 2^32, here as
    a negative number. *)
Lemma config_baud_truncated :
  let '(r, c, _) :=
    parse_server_plugin_config_file (Some []) (Some (text "serial_baud 4294967295")) in
  r = 0 /\ serial_baud c = -1.
Proof. vm_compute. done. Qed.

(** ** Printing a configuration and reading it back *)

Definition word (w : list Z) : Prop :=
  w <> [] /\ Forall (fun c => isspace c = false /\ 0 < c < 256) w.

Fixpoint unwords (ws : list (list Z)) : list Z :=
  match ws with
  | [] => []
  | [w] => w
  | w :: ws => w ++ 32 :: unwords ws
  end.

Definition parity_word (p : Z) : list Z :=
  if p =? 0 then text "none" else if p =? 1 then text "even" else text "odd".
Definition flow_word (f : Z) : list Z :=
  if f =? 0 then text "none" else if f =? 1 then text "rtscts" else text "xonxoff".

Definition scalar_lines (c : server_plugin_config_file) : list (list (list Z)) :=
  [[text "system_plugin"; system_plugin_path c]] ++
  (if eq_text (serial_device c) [] then [] else [[text "serial_device"; serial_device c]]) ++
  [[text "serial_baud"; digits 10 (serial_baud c)];
   [text "serial_databits"; digits 1 (serial_databits c)];
   [text "serial_parity"; parity_word (serial_parity c)];
   [text "serial_stopbits"; digits 1 (serial_stopbits c)];
   [text "serial_flow"; flow_word (serial_flow c)];
   [text "squid_payload"; digits 3 (squid_payload c)]].
Definition mapping_line (m : server_plugin_mapping) : list (list Z) :=
  [text "plugin"; digits 2 (map_port m); map_path m].

(** The configuration file that describes [c]. *)
Definition config_lines (c : server_plugin_config_file) : list (list (list Z)) :=
  scalar_lines c ++ map mapping_line (mappings c).
Definition render_config (c : server_plugin_config_file) : list Z :=
  concat (map (fun ws => unwords ws ++ [10]) (config_lines c)).

(** Paths are single words, and the baud rate is a positive [int]. *)
Record printable (c : server_plugin_config_file) : Prop := {
  pr_system : word (system_plugin_path c);
  pr_device : serial_device c = [] \/ word (serial_device c);
  pr_paths : Forall (fun m => word (map_path m)) (mappings c);
  pr_baud : 0 < serial_baud c < 2 ^ 31 }.

Definition blank (c : Z) : bool := (c =? 32) || (c =? 9).

Lemma word_not_blank w : word w -> Forall (fun c => blank c = false) w.
Proof.
  intros [_ H]. induction H as [|c w [Hc _] _ IH]; constructor; [|done].
  unfold isspace, blank in *. lia.
Qed.

Lemma tokens_from_word cur w rest :
  word w -> tokens_from blank cur (w ++ 32 :: rest) = (cur ++ w) :: tokens_from blank [] rest.
Proof.
  intros Hw. pose proof (word_not_blank w Hw) as Hb. destruct Hw as [Hne _].
  assert (H : forall cur, cur ++ w <> [] ->
    tokens_from blank cur (w ++ 32 :: rest) = (cur ++ w) :: tokens_from blank [] rest).
  { clear Hne cur. induction Hb as [|c w Hc _ IH]; intros cur Hne; cbn.
    - rewrite app_nil_r in *. by destruct cur.
    - rewrite Hc, IH; rewrite <- app_assoc; done. }
  apply H. by destruct cur.
Qed.

Lemma strtok_unwords ws : Forall word ws -> strtok_all blank (unwords ws) = ws.
Proof.
  unfold strtok_all. induction 1 as [|w ws Hw Hws IH]; [done|].
  destruct ws as [|v ws].
  - cbn [unwords]. rewrite tokens_from_app by by apply word_not_blank.
    destruct Hw as [Hne _]. by destruct w.
  - change (unwords (w :: v :: ws)) with (w ++ 32 :: unwords (v :: ws)).
    by rewrite tokens_from_word, IH.
Qed.

Lemma unwords_ok (P : Z -> Prop) ws :
  P 32 -> Forall (Forall P) ws -> Forall P (unwords ws).
Proof.
  intros H32. induction 1 as [|w ws Hw Hws IH]; [constructor|].
  destruct ws as [|v ws]; [done|]. apply Forall_app. split; [done|by constructor].
Qed.

Lemma word_forall (P : Z -> Prop) ws :
  (forall c, isspace c = false -> 0 < c < 256 -> P c) -> Forall word ws -> Forall (Forall P) ws.
Proof.
  intros HP H. eapply Forall_impl; [exact H|]. intros w [_ Hw].
  eapply Forall_impl; [exact Hw|]. intros c [??]. by apply HP.
Qed.

Lemma trim_right_last s : Forall (fun c => isspace c = false) s -> trim_right s = s.
Proof.
  induction 1 as [|c s Hc _ IH]; [done|]. cbn. rewrite IH, Hc. by destruct s.
Qed.

Lemma trim_right_app s t : trim_right t = t -> t <> [] -> trim_right (s ++ t) = s ++ t.
Proof.
  intros Ht Hne. induction s as [|c s IH]; [done|]. cbn. rewrite IH.
  by destruct s; cbn; [destruct t|].
Qed.

Lemma trim_right_unwords ws : Forall word ws -> ws <> [] ->
  trim_right (unwords ws) = unwords ws /\ unwords ws <> [].
Proof.
  induction 1 as [|w ws Hw Hws IH]; intros Hne; [done|].
  destruct ws as [|v ws].
  - cbn. destruct Hw as [H1 H2]. split; [|done]. apply trim_right_last.
    eapply Forall_impl; [exact H2|]. by intros ? [].
  - destruct IH as [IH1 IH2]; [done|].
    change (unwords (w :: v :: ws)) with (w ++ 32 :: unwords (v :: ws)).
    split; [|by destruct w].
    change (32 :: unwords (v :: ws)) with ([32] ++ unwords (v :: ws)).
    rewrite app_assoc. by apply trim_right_app.
Qed.

(** A printed line reaches [parse_directive] unchanged. *)
Lemma parse_line_words c w ws :
  Forall word (w :: ws) -> head w <> Some 35 ->
  parse_line c (before_nul (unwords (w :: ws))) = parse_directive c (unwords (w :: ws)).
Proof.
  intros Hws Hk. rewrite before_nul_id by (apply unwords_ok; [lia|]; by apply word_forall).
  unfold parse_line. rewrite (proj1 (trim_right_unwords _ Hws ltac:(done))).
  apply Forall_cons_1 in Hws as [[Hne Hw] _]. destruct w as [|k w]; [done|].
  assert (E : exists t, unwords ((k :: w) :: ws) = k :: t) by (destruct ws; by eexists).
  destruct E as [t ->]. apply Forall_cons_1 in Hw as [[Hsp _] _].
  unfold trim_left. cbn [skip_while]. rewrite Hsp.
  repeat case_match; cbn in Hk; congruence.
Qed.

Definition word_b (w : list Z) : bool :=
  negb (eq_text w []) && forallb (fun c => negb (isspace c) && (0 <? c) && (c <? 256)) w.
Lemma word_b_word w : word_b w = true -> word w.
Proof.
  unfold word_b. intros [H1 H2]%andb_true_iff. split.
  - intros ->. done.
  - induction w as [|c w IH]; [constructor|]. cbn in H2. apply andb_true_iff in H2 as [Hc H2].
    constructor; [destruct (isspace c); [done|cbn in Hc; lia]|].
    destruct w; [constructor|by apply IH].
Qed.

Lemma digits_word fuel n : 0 <= n -> word (digits (S fuel) n).
Proof.
  intros Hn. split; [apply digits_nonempty|].
  eapply Forall_impl; [by apply digits_isdigit|]. intros c Hc.
  unfold isdigit, isspace in *. lia.
Qed.

Lemma digits_length fuel n : zlen (digits fuel n) <= Z.of_nat fuel.
Proof.
  revert n. induction fuel as [|fuel IH]; intros n; [done|]. cbn [digits].
  rewrite zlen_app. change (zlen [48 + n mod 10]) with 1.
  destruct (n <? 10); rewrite ?zlen_nil; [lia|]. specialize (IH (n / 10)). lia.
Qed.

Lemma parse_port_digits fuel n :
  0 <= n <= 255 -> n < 10 ^ Z.of_nat (S fuel) -> parse_port_number (Some (digits (S fuel) n)) = Some n.
Proof.
  intros Hn Hf. unfold parse_port_number. rewrite strtol_digits by (unfold LONG_MAX; lia).
  destruct (eq_text [] (digits (S fuel) n)) eqn:E.
  { apply eq_text_true in E. by destruct (digits_nonempty fuel n). }
  change (eq_text [] []) with true. cbn [orb negb].
  destruct (Z.ltb_spec n 0), (Z.ltb_spec 255 n); try lia. cbn [orb]. by rewrite u8_small by lia.
Qed.

(** Evaluates the keyword comparisons of [parse_directive] on a printed line. *)
Ltac run_directive :=
  rewrite parse_line_words; [|repeat (apply Forall_cons; split); try done; by apply word_b_word|done];
  unfold parse_directive; change (fun c : Z => (c =? 32) || (c =? 9)) with blank;
  rewrite strtok_unwords by (repeat (apply Forall_cons; split); try done; by apply word_b_word);
  cbn [lookup list_lookup];
  repeat match goal with
  | |- context [eq_text (text ?a) (text ?b)] =>
      let v := eval vm_compute in (eq_text (text a) (text b)) in
      change (eq_text (text a) (text b)) with v
  end; cbv iota.

Definition step (c : server_plugin_config_file) (ws : list (list Z)) : outcome :=
  parse_line c (before_nul (unwords ws)).

Section steps.
Context (c : server_plugin_config_file).

Lemma step_system p : word p -> path_ok p ->
  step c [text "system_plugin"; p] = inl (set_mappings c p (mappings c)).
Proof.
  intros Hw [_ Hp]. unfold step. run_directive.
  unfold parse_system_plugin_line, copy_plugin_path.
  by destruct (Z.leb_spec server_plugin_path_max (zlen p)); [lia|].
Qed.

Lemma step_device d : word d -> zlen d < 64 ->
  step c [text "serial_device"; d] =
    inl (set_serial c d (serial_baud c) (serial_databits c) (serial_parity c)
           (serial_stopbits c) (serial_flow c) (squid_payload c)).
Proof.
  intros Hw Hd. unfold step. run_directive. unfold parse_serial_device.
  change server_serial_device_path_max with 64. by destruct (Z.leb_spec 64 (zlen d)); [lia|].
Qed.

Lemma step_baud b : 0 < b < 2 ^ 31 ->
  step c [text "serial_baud"; digits 10 b] =
    inl (set_serial c (serial_device c) b (serial_databits c) (serial_parity c)
           (serial_stopbits c) (serial_flow c) (squid_payload c)).
Proof.
  intros Hb. pose proof (digits_word 9 b ltac:(lia)). unfold step. run_directive.
  unfold parse_serial_baud. rewrite strtol_digits by (unfold LONG_MAX; cbn; lia).
  destruct (eq_text [] (digits 10 b)) eqn:E.
  { apply eq_text_true in E. by destruct (digits_nonempty 9 b). }
  change (eq_text [] []) with true. destruct (Z.leb_spec b 0); [lia|]. cbn [orb negb].
  unfold s32, swrap. change (2 ^ (32 - 1)) with 2147483648. change (2 ^ 32) with 4294967296.
  change (2 ^ 31) with 2147483648 in Hb. rewrite Z.mod_small by lia. by rewrite Z.add_simpl_r.
Qed.

Lemma step_databits n : n = 7 \/ n = 8 ->
  step c [text "serial_databits"; digits 1 n] =
    inl (set_serial c (serial_device c) (serial_baud c) n (serial_parity c)
           (serial_stopbits c) (serial_flow c) (squid_payload c)).
Proof. intros [-> | ->]; unfold step; run_directive; done. Qed.

Lemma step_parity p : 0 <= p <= 2 ->
  step c [text "serial_parity"; parity_word p] =
    inl (set_serial c (serial_device c) (serial_baud c) (serial_databits c) p
           (serial_stopbits c) (serial_flow c) (squid_payload c)).
Proof.
  intros Hp. assert (p = 0 \/ p = 1 \/ p = 2) as [-> | [-> | ->]] by lia;
    unfold step; cbn [parity_word Z.eqb Pos.eqb]; run_directive; done.
Qed.

Lemma step_stopbits n : n = 1 \/ n = 2 ->
  step c [text "serial_stopbits"; digits 1 n] =
    inl (set_serial c (serial_device c) (serial_baud c) (serial_databits c) (serial_parity c)
           n (serial_flow c) (squid_payload c)).
Proof. intros [-> | ->]; unfold step; run_directive; done. Qed.

Lemma step_flow f : 0 <= f <= 2 ->
  step c [text "serial_flow"; flow_word f] =
    inl (set_serial c (serial_device c) (serial_baud c) (serial_databits c) (serial_parity c)
           (serial_stopbits c) f (squid_payload c)).
Proof.
  intros Hf. assert (f = 0 \/ f = 1 \/ f = 2) as [-> | [-> | ->]] by lia;
    unfold step; cbn [flow_word Z.eqb Pos.eqb]; run_directive; done.
Qed.

Lemma step_payload n : 16 <= n <= 112 ->
  step c [text "squid_payload"; digits 3 n] =
    inl (set_serial c (serial_device c) (serial_baud c) (serial_databits c) (serial_parity c)
           (serial_stopbits c) (serial_flow c) n).
Proof.
  intros Hn. pose proof (digits_word 2 n ltac:(lia)). unfold step. run_directive.
  unfold parse_squid_payload. rewrite parse_port_digits by (cbn; lia).
  unfold server_squid_payload_min, server_squid_payload_max.
  by destruct (Z.ltb_spec n 16), (Z.ltb_spec 112 n); try lia.
Qed.

Lemma step_mapping m :
  mapping_ok m -> word (map_path m) -> map_port m ∉ map map_port (mappings c) ->
  zlen (mappings c) < 15 ->
  step c (mapping_line m) = inl (set_mappings c (system_plugin_path c) (mappings c ++ [m])).
Proof.
  destruct m as [port p]. intros [Hport [_ Hp]] Hw Hfresh Hcount. cbn [map_port map_path] in *.
  pose proof (digits_word 1 port ltac:(lia)). unfold step, mapping_line. cbn [map_port map_path].
  run_directive. unfold parse_plugin_line. rewrite parse_port_digits by (cbn; lia).
  assert (Hv : is_valid_assignable_server_port port = true).
  { unfold is_valid_assignable_server_port, server_plugin_port_min, server_plugin_port_max. lia. }
  rewrite Hv. cbn [negb].
  assert (Hf : find_plugin_mapping c port = None).
  { destruct (find_plugin_mapping c port) as [m|] eqn:E; [|done]. exfalso. apply Hfresh.
    apply find_some in E as [Hin Hp'%Z.eqb_eq]. rewrite <- Hp'. apply list_elem_of_fmap.
    exists m. split; [done|]. by apply list_elem_of_In. }
  rewrite Hf. change server_plugin_mapping_max with 15.
  destruct (Z.leb_spec 15 (zlen (mappings c))); [lia|]. unfold copy_plugin_path.
  by destruct (Z.leb_spec server_plugin_path_max (zlen p)); [lia|].
Qed.
End steps.

Fixpoint steps (c : server_plugin_config_file) (ls : list (list (list Z)))
    : server_plugin_config_file * option (list Z) :=
  match ls with
  | [] => (c, None)
  | ws :: ls =>
      match step c ws with inl c => steps c ls | inr m => (c, Some m) end
  end.

Lemma steps_run c ls : steps c ls = run_lines c (map unwords ls).
Proof.
  revert c. induction ls as [|ws ls IH]; intros c; [done|]. cbn. unfold step.
  destruct (parse_line c _); [apply IH|done].
Qed.

Lemma steps_cons c c' ws ls : step c ws = inl c' -> steps c (ws :: ls) = steps c' ls.
Proof. cbn. by intros ->. Qed.

Lemma steps_mappings c ms :
  Forall mapping_ok ms -> Forall (fun m => word (map_path m)) ms ->
  NoDup (map map_port (mappings c ++ ms)) -> zlen (mappings c ++ ms) <= 15 ->
  steps c (map mapping_line ms) =
    (set_mappings c (system_plugin_path c) (mappings c ++ ms), None).
Proof.
  revert c. induction ms as [|m ms IH]; intros c Hok Hw Hnd Hlen; cbn [map steps].
  - rewrite app_nil_r. by destruct c.
  - apply Forall_cons_1 in Hok as [Hm Hok]. apply Forall_cons_1 in Hw as [Hmw Hw].
    rewrite step_mapping; [|done|done| |].
    + rewrite IH; cbn; rewrite <- ?app_assoc; done.
    + rewrite map_app in Hnd. apply NoDup_app in Hnd as (_ & Hd & _).
      intros Hin. apply (Hd _ Hin). cbn. apply list_elem_of_here.
    + zlen_lia.
Qed.

Lemma steps_config c : config_ok c -> printable c ->
  steps init_server_plugin_config_file (config_lines c) = (c, None).
Proof.
  intros [] []. unfold config_lines, scalar_lines. cbn [app].
  rewrite (steps_cons _ _ _ _ (step_system _ _ pr_system0 ok_system0)).
  set (c1 := set_mappings _ _ _).
  set (c2 := set_serial c1 (serial_device c) 9600 8 0 1 1 112).
  assert (E : forall rest, steps c1
      ((if eq_text (serial_device c) [] then [] else [[text "serial_device"; serial_device c]])
       ++ rest) = steps c2 rest).
  { intros rest. destruct (eq_text (serial_device c) []) eqn:E; cbn [app].
    - apply eq_text_true in E. unfold c2. by rewrite E.
    - apply steps_cons. rewrite step_device; [done| |tauto].
      destruct pr_device0 as [Hd|]; [|done]. rewrite Hd in E. done. }
  rewrite <- app_assoc, E. clear E. cbn [app].
  rewrite (steps_cons _ _ _ _ (step_baud _ _ pr_baud0)).
  rewrite (steps_cons _ _ _ _ (step_databits _ _ ok_databits0)).
  rewrite (steps_cons _ _ _ _ (step_parity _ _ ok_parity0)).
  rewrite (steps_cons _ _ _ _ (step_stopbits _ _ ok_stopbits0)).
  rewrite (steps_cons _ _ _ _ (step_flow _ _ ok_flow0)).
  rewrite (steps_cons _ _ _ _ (step_payload _ _ ok_payload0)).
  rewrite steps_mappings by done. by destruct c.
Qed.

Definition short_line (ws : list (list Z)) : Prop :=
  Forall word ws /\ zlen (unwords ws) < 1023.

Lemma unwords2_length a b : zlen (unwords [a; b]) = zlen a + 1 + zlen b.
Proof. cbn [unwords]. autorewrite with zlen. lia. Qed.
Lemma unwords3_length a b d : zlen (unwords [a; b; d]) = zlen a + 1 + (zlen b + 1 + zlen d).
Proof. cbn [unwords]. autorewrite with zlen. lia. Qed.

Lemma short_pair k v : word_b (text k) = true -> zlen (text k) <= 20 -> word v -> zlen v < 512 ->
  short_line [text k; v].
Proof.
  intros Hk Hkl Hv Hvl. split.
  - repeat (apply Forall_cons; split); try done. by apply word_b_word.
  - rewrite unwords2_length. lia.
Qed.

Lemma small_digits_word fuel n : 0 <= n -> word (digits (S fuel) n) /\ zlen (digits (S fuel) n) <= Z.of_nat (S fuel).
Proof. split; [by apply digits_word|apply digits_length]. Qed.

Lemma config_lines_short c : config_ok c -> printable c -> Forall short_line (config_lines c).
Proof.
  intros [] []. unfold config_lines, scalar_lines.
  destruct ok_system0 as [_ Hs]. change server_plugin_path_max with 512 in Hs.
  pose proof (small_digits_word 9 (serial_baud c) ltac:(lia)) as [??].
  pose proof (small_digits_word 0 (serial_databits c) ltac:(lia)) as [??].
  pose proof (small_digits_word 0 (serial_stopbits c) ltac:(lia)) as [??].
  pose proof (small_digits_word 2 (squid_payload c) ltac:(lia)) as [??].
  repeat apply Forall_app_2.
  - apply Forall_singleton, short_pair; done || lia.
  - destruct (eq_text (serial_device c) []) eqn:E; [constructor|].
    apply Forall_singleton, short_pair; try done; [|lia].
    destruct pr_device0 as [Hd|]; [|done]. by rewrite Hd in E.
  - repeat (apply Forall_cons; split); [..|constructor]; apply short_pair; try done; try lia;
      unfold parity_word, flow_word; repeat case_test; try (by apply word_b_word); by vm_compute.
  - apply Forall_map. eapply Forall_impl; [by apply Forall_and; split; [exact ok_mappings0|exact pr_paths0]|].
    intros m [[Hp [_ Hl]] Hw]. change server_plugin_path_max with 512 in Hl.
    pose proof (small_digits_word 1 (map_port m) ltac:(lia)) as [??]. split.
    + repeat (apply Forall_cons; split); try done. by apply word_b_word.
    + unfold mapping_line. rewrite unwords3_length. change (zlen (text "plugin")) with 6. lia.
Qed.

Lemma split_render ls : Forall (fun l => 10 ∉ l) ls ->
  split_from 10 [] (concat (map (fun l => l ++ [10]) ls)) = ls ++ [[]].
Proof.
  induction 1 as [|l ls Hl _ IH]; [done|]. cbn [map concat].
  rewrite <- app_assoc. cbn [app]. rewrite split_from_line by done. by rewrite IH.
Qed.

Lemma run_lines_blank c ls : run_lines c (ls ++ [[]]) = run_lines c ls.
Proof.
  revert c. induction ls as [|l ls IH]; intros c; [done|]. cbn.
  destruct (parse_line c _); [apply IH|done].
Qed.

(** C27. Round trip: the file printed from a well-formed configuration (paths
    without white space, a positive [int] baud rate) parses without error to
    exactly that configuration. *)
Theorem config_roundtrip path c :
  config_ok c -> printable c ->
  parse_server_plugin_config_file (Some path) (Some (render_config c)) = (0, c, None).
Proof.
  intros Hc Hp. pose proof (config_lines_short c Hc Hp) as Hs.
  assert (Hnl : Forall (fun l => 10 ∉ l) (map unwords (config_lines c))).
  { apply Forall_map. eapply Forall_impl; [exact Hs|]. intros ws [Hw _].
    assert (Forall (fun x => x <> 10) (unwords ws)) as Hx.
    { apply unwords_ok; [lia|]. apply word_forall; [|done]. by intros x Hx _ ->. }
    intros Hin. by apply (Forall_elem _ _ _ Hx Hin). }
  unfold parse_server_plugin_config_file, render_config.
  replace (map _ (config_lines c)) with (map (fun l => l ++ [10]) (map unwords (config_lines c)))
    by apply map_map.
  set (file := concat _).
  assert (E : split_from 10 [] file = map unwords (config_lines c) ++ [[]]) by by apply split_render.
  rewrite (parse_lines_enough (length file)); [|done|done|].
  - by rewrite E, run_lines_blank, <- steps_run, steps_config.
  - rewrite E. apply Forall_app_2; [|by apply Forall_singleton].
    apply Forall_map. eapply Forall_impl; [exact Hs|]. by intros ws [].
Qed.

Definition sample_config : server_plugin_config_file :=
  ConfigFile (text "/lib/sys.so") [Mapping 2 (text "/lib/echo.so"); Mapping 15 (text "/lib/fs.so")]
    (text "/dev/ttyS0") 115200 7 1 2 1 64.
Lemma path_ok_text s :
  forallb (fun c => (0 <? c) && (c <? 256)) (text s) && (zlen (text s) <? 512) = true ->
  path_ok (text s).
Proof.
  intros [H1 H2]%andb_true_iff. split; [by apply text_cstr_ok|].
  change server_plugin_path_max with 512. lia.
Qed.

Lemma sample_config_ok : config_ok sample_config.
Proof.
  split; cbn; try lia.
  - by apply path_ok_text.
  - repeat (apply Forall_cons; split); [..|constructor]; (split; cbn; [lia|by apply path_ok_text]).
  - apply NoDup_cons. rewrite list_elem_of_singleton. split; [done|apply NoDup_singleton].
  - by vm_compute.
  - split; [by apply text_cstr_ok|by vm_compute].
Qed.

Lemma config_roundtrip_witness :
  parse_server_plugin_config_file (Some (text "x")) (Some (render_config sample_config)) =
    (0, sample_config, None).
Proof.
  apply (config_roundtrip (text "x") sample_config); [exact sample_config_ok|].
  split; cbn; [by apply word_b_word|by right; apply word_b_word| |lia].
  repeat (apply Forall_cons; split); [by apply word_b_word..|constructor].
Defined.

(** ** The command line *)

Inductive switch := sw_console | sw_daemon | sw_config (path : list Z).

Definition switch_args (s : switch) : list (list Z) :=
  match s with
  | sw_console => [text "--console"]
  | sw_daemon => [text "--daemon"]
  | sw_config path => [text "--config"; path]
  end.
Definition apply_switch (c : server_config) (s : switch) : server_config :=
  match s with
  | sw_console => ServerConfig server_run_mode_console (show_help c) (config_path c)
  | sw_daemon => ServerConfig server_run_mode_daemon (show_help c) (config_path c)
  | sw_config path => ServerConfig (run_mode c) (show_help c) path
  end.
Definition switch_fits (s : switch) : Prop :=
  match s with sw_config path => zlen path < 512 | _ => True end.

(** The ways a command line can end after well-formed switches. *)
Inductive ending :=
  | end_args
  | end_help (h : bool) (rest : list (list Z))
  | end_config_missing
  | end_config_long (path : list Z) (rest : list (list Z))
  | end_unknown (arg : list Z) (rest : list (list Z)).
Definition ending_args (e : ending) : list (list Z) :=
  match e with
  | end_args => []
  | end_help h rest => (if h then text "-h" else text "--help") :: rest
  | end_config_missing => [text "--config"]
  | end_config_long path rest => text "--config" :: path :: rest
  | end_unknown arg rest => arg :: rest
  end.
Definition ending_ok (e : ending) : Prop :=
  match e with
  | end_config_long path _ => 512 <= zlen path
  | end_unknown arg _ =>
      arg ∉ [text "--help"; text "-h"; text "--console"; text "--daemon"; text "--config"]
  | _ => True
  end.
Definition ending_result (c : server_config) (e : ending)
    : Z * server_config * option (list Z) :=
  match e with
  | end_args => (0, c, None)
  | end_help _ _ => (0, ServerConfig (run_mode c) true (config_path c), None)
  | end_config_missing => (-1, c, Some (text "missing path after --config"))
  | end_config_long _ _ => (-1, c, Some (text "configuration path is too long"))
  | end_unknown _ _ => (-1, c, Some (text "unknown argument"))
  end.

Ltac eval_keywords :=
  repeat match goal with
  | |- context [eq_text (text ?a) (text ?b)] =>
      let v := eval vm_compute in (eq_text (text a) (text b)) in
      change (eq_text (text a) (text b)) with v
  end; cbv iota; cbn [orb].

Lemma parse_arguments_ending c e :
  ending_ok e -> parse_arguments c (ending_args e) = ending_result c e.
Proof.
  destruct e as [|[]| |path rest|arg rest]; intros H; cbn [ending_args parse_arguments]; eval_keywords;
    try done.
  - change server_plugin_path_max with 512. cbn in H. by destruct (Z.leb_spec 512 (zlen path)); [|lia].
  - cbn in H. rewrite !not_elem_of_cons in H. destruct H as (H1 & H2 & H3 & H4 & H5 & _).
    unfold eq_text. by rewrite !bool_decide_eq_false_2.
Qed.

Lemma parse_arguments_switches c ss args :
  Forall switch_fits ss ->
  parse_arguments c (concat (map switch_args ss) ++ args) =
    parse_arguments (fold_left apply_switch ss c) args.
Proof.
  intros H. revert c. induction H as [|s ss Hs _ IH]; intros c; [done|].
  cbn [map concat fold_left]. rewrite <- app_assoc.
  destruct s as [| |path]; cbn [switch_args app parse_arguments]; eval_keywords; rewrite ?IH; try done.
  change server_plugin_path_max with 512. cbn in Hs.
  by destruct (Z.leb_spec 512 (zlen path)); [lia|].
Qed.

(** The command line does what its usage text says, on every argument
    list: the switches before the first help request, error or end are applied
    from left to right, help stops the scan with success, and a missing or too
    long path or an unknown argument stops it with the message for that
    error. *)
Theorem command_line_exact program ss e :
  Forall switch_fits ss -> ending_ok e ->
  parse_server_config (program :: concat (map switch_args ss) ++ ending_args e) =
    ending_result (fold_left apply_switch ss init_server_config) e.
Proof.
  intros Hs He. unfold parse_server_config. cbn [tail].
  by rewrite parse_arguments_switches, parse_arguments_ending.
Qed.

(** The decomposition covers every argument list. *)
Lemma command_line_cases args :
  exists ss e, Forall switch_fits ss /\ ending_ok e /\
    args = concat (map switch_args ss) ++ ending_args e.
Proof.
  induction args as [args IH] using (induction_ltof1 _ (@length (list Z))). unfold ltof in IH.
  destruct args as [|a args]; [by exists [], end_args|].
  destruct (decide (a = text "--help")) as [->|H1]; [by exists [], (end_help false args)|].
  destruct (decide (a = text "-h")) as [->|H2]; [by exists [], (end_help true args)|].
  destruct (decide (a = text "--console")) as [->|H3].
  { destruct (IH args) as (ss & e & Hs & He & ->); [cbn; lia|].
    exists (sw_console :: ss), e. by split_and!; [constructor| |]. }
  destruct (decide (a = text "--daemon")) as [->|H4].
  { destruct (IH args) as (ss & e & Hs & He & ->); [cbn; lia|].
    exists (sw_daemon :: ss), e. by split_and!; [constructor| |]. }
  destruct (decide (a = text "--config")) as [->|H5].
  - destruct args as [|path args]; [by exists [], end_config_missing|].
    destruct (Z.lt_ge_cases (zlen path) 512).
    + destruct (IH args) as (ss & e & Hs & He & ->); [cbn; lia|].
      exists (sw_config path :: ss), e. by split_and!; [constructor| |].
    + by exists [], (end_config_long path args).
  - exists [], (end_unknown a args). split_and!; [constructor| |done]. cbn.
    rewrite !not_elem_of_cons. split_and!; try done. apply not_elem_of_nil.
Qed.

Lemma command_line_exact_witness :
  parse_server_config [text "squid"; text "--daemon"; text "--config"; text "/etc/c"; text "-x"] =
    (-1, ServerConfig server_run_mode_daemon false (text "/etc/c"), Some (text "unknown argument")).
Proof.
  apply (command_line_exact (text "squid") [sw_daemon; sw_config (text "/etc/c")]
           (end_unknown (text "-x") [])).
  - repeat (apply Forall_cons; split); [done|by vm_compute|constructor].
  - cbn. rewrite !not_elem_of_cons. split_and!; try done. apply not_elem_of_nil.
Defined.
