(* ===== verification/Loader.v ===== *)
(** The plugin loader (src/plugin/server_plugin_loader.c).  The dynamic
    linker is a parameter; the calls that matter for resources (opening and
    closing a library, starting and stopping a plugin) are recorded. *)
From stdpp Require Import base numbers list option strings.
From Stdlib Require Import ZArith Lia.
From S2P Require Import Prelude CLib PluginApi Registry.

Local Open Scope Z_scope.
Local Open Scope squid_scope.

Definition server_plugin_path_max : Z := 512.

(** ** The dynamic linker *)

Class Linker (W : Type) := {
  dlopen : list Z -> W -> option Z * W;
  dlerror : W -> option (list Z) * W;
  (** [dlsym(handle, "get_server_plugin")]: whether the symbol was found *)
  dlsym : Z -> W -> bool * W;
  (** calling the factory of the library *)
  factory : Z -> W -> option (server_plugin W) * W;
  dlclose : Z -> W -> W }.

Inductive ld_event :=
| LOpen (path : list Z) (handle : Z)
| LClose (handle : Z)
| LStart (port r : Z)
| LStop (port : Z).

Record ld_state (W : Type) := LdState { ld_world : W; ld_trace : list ld_event }.
Arguments LdState {W} _ _.
Arguments ld_world {W} _.
Arguments ld_trace {W} _.

(** ** Data *)

Record loaded_server_plugin (P : Type) := Loaded {
  loaded_port : Z;
  loaded_handle : option Z;
  loaded_plugin : option P;
  loaded_path : list Z }.
Arguments Loaded {P} _ _ _ _.
Arguments loaded_port {P} _.
Arguments loaded_handle {P} _.
Arguments loaded_plugin {P} _.
Arguments loaded_path {P} _.

(** An entry with all bytes zero. *)
Definition zero_entry {P} : loaded_server_plugin P := Loaded 0 None None [].

Record server_plugin_loader (P : Type) := Loader {
  loaded_plugins : list (loaded_server_plugin P);
  loaded_count : nat }.
Arguments Loader {P} _ _.
Arguments loaded_plugins {P} _.
Arguments loaded_count {P} _.

(** [copy_text]: result and destination array. *)
Definition copy_text (destination : option (list Z)) (destination_size : Z)
    (source : option (list Z)) : option (Z * option (list Z)) :=
  match destination, source with
  | Some dst, Some source =>
      if destination_size =? 0 then Some (-1, destination)
      else if destination_size <=? zlen source then Some (-1, destination)
      else let? dst := wr_bytes dst 0 (source ++ [0]) in Some (0, Some dst)
  | _, _ => Some (-1, destination)
  end.

Definition set_error_text (error_buffer : option (list Z)) (error_buffer_size : Z)
    (message : list Z) : option (option (list Z)) :=
  match error_buffer with
  | None => Some None
  | Some buf =>
      if error_buffer_size =? 0 then Some error_buffer
      else
        let? '(r, buf') := copy_text error_buffer error_buffer_size (Some message) in
        if negb (r =? 0) then let? buf := wr buf 0 0 in Some (Some buf) else Some buf'
  end.

(** [resolve_plugin_path]: the result as a string, [None] is -1. *)
Definition resolve_plugin_path (stage_root : option (list Z)) (plugin_path : list Z)
    (resolved_path_size : Z) : option (list Z) :=
  match stage_root, plugin_path with
  | Some stage_root, 47 :: _ =>
      let '(path, written_length) := snprintf resolved_path_size (stage_root ++ plugin_path) in
      if (written_length <? 0) || (resolved_path_size <=? written_length) then None
      else Some path
  | _, _ => if resolved_path_size <=? zlen plugin_path then None else Some plugin_path
  end.

Definition init_server_plugin_loader {P} (loader : option (server_plugin_loader P))
    : option (server_plugin_loader P) :=
  match loader with
  | None => None
  | Some loader => Some (Loader (map (fun _ => zero_entry) (loaded_plugins loader)) 0)
  end.

Section loader.
Context {W : Type} `{Linker W}.
(** [getenv("SQUID_SERVER_STAGE_ROOT")]. *)
Variable stage_root : option (list Z).
Local Abbreviation plugin := (server_plugin W).
Local Abbreviation registry := (option (list (server_plugin_slot plugin))).
Abbreviation M := (ST (ld_state W)).

Definition linker {A} (f : W -> A * W) (ev : A -> list ld_event) : M A := fun s =>
  let '(a, w) := f (ld_world s) in Some (a, LdState w (ld_trace s ++ ev a)).
Definition ld_open (path : list Z) : M (option Z) :=
  linker (dlopen path) (fun h => match h with Some h => [LOpen path h] | None => [] end).
Definition ld_close (handle : Z) : M unit :=
  linker (fun w => (tt, dlclose handle w)) (fun _ => [LClose handle]).
(** A callback of the plugin. *)
Definition callback (f : ST W Z) (ev : Z -> ld_event) : M Z := fun s =>
  match f (ld_world s) with
  | Some (r, w) => Some (r, LdState w (ld_trace s ++ [ev r]))
  | None => None
  end.

(** Result, loader, registry and error buffer. *)
Definition load_result : Type :=
  Z * option (server_plugin_loader plugin) * registry * option (list Z).

(** [set_error_text(...); return -1]. *)
Definition load_fail (loader : option (server_plugin_loader plugin)) (reg : registry)
    (error_buffer : option (list Z)) (error_buffer_size : Z) (message : list Z)
    : M load_result :=
  let! error_buffer := lift (set_error_text error_buffer error_buffer_size message) in
  ret (-1, loader, reg, error_buffer).

Definition load_server_plugin (loader_ptr : option (server_plugin_loader plugin)) (reg : registry)
    (port_number : Z) (plugin_path : option (list Z)) (error_buffer : option (list Z))
    (error_buffer_size : Z) : M load_result :=
  let fail reg message := load_fail loader_ptr reg error_buffer error_buffer_size message in
  match loader_ptr, reg, plugin_path with
  | Some loader, Some _, Some plugin_path =>
      if negb (is_valid_server_port port_number) then fail reg (text "invalid plugin port")
      else if server_port_count <=? Z.of_nat (loaded_count loader) then
        fail reg (text "plugin loader is full")
      else
        match resolve_plugin_path stage_root plugin_path server_plugin_path_max with
        | None => fail reg (text "failed to resolve plugin path")
        | Some resolved =>
            let! library_handle := ld_open resolved in
            match library_handle with
            | None =>
                let! dl_error := linker dlerror (fun _ => []) in
                fail reg (match dl_error with
                          | Some e => e
                          | None => text "failed to open plugin library"
                          end)
            | Some handle =>
                let! _ := linker dlerror (fun _ => []) in
                let! found := linker (dlsym handle) (fun _ => []) in
                let! dl_error := linker dlerror (fun _ => []) in
                if negb found || match dl_error with Some _ => true | None => false end then
                  let! '(r, l, g, e) :=
                    fail reg (match dl_error with
                              | Some e => e
                              | None => text "missing get_server_plugin symbol"
                              end) in
                  do! ld_close handle;
                  ret (r, l, g, e)
                else
                  let! plugin := linker (factory handle) (fun _ => []) in
                  match plugin with
                  | Some plugin =>
                      match plugin_name plugin with
                      | None =>
                          let! '(r, l, g, e) :=
                            fail reg (text "plugin factory returned no plugin") in
                          do! ld_close handle;
                          ret (r, l, g, e)
                      | Some _ =>
                          let! '(registered, reg) :=
                            lift (register_server_plugin reg port_number (Some plugin)) in
                          if negb (registered =? 0) then
                            let! '(r, l, g, e) :=
                              fail reg (text "plugin port is already assigned") in
                            do! ld_close handle;
                            ret (r, l, g, e)
                          else
                            let! started :=
                              match plugin_start plugin with
                              | Some start => callback start (LStart port_number)
                              | None => ret 0
                              end in
                            if negb (started =? 0) then
                              let! error_buffer :=
                                lift (set_error_text error_buffer error_buffer_size
                                        (text "plugin start callback failed")) in
                              let! reg := lift (clear_plugin_slot reg port_number) in
                              do! ld_close handle;
                              ret (-1, loader_ptr, reg, error_buffer)
                            else
                              let path :=
                                if server_plugin_path_max <=? zlen plugin_path then []
                                else plugin_path in
                              let entry :=
                                Loaded port_number (Some handle) (Some plugin) path in
                              let! _ := lift (loaded_plugins loader !! loaded_count loader) in
                              let loader :=
                                Loader (<[loaded_count loader := entry]> (loaded_plugins loader))
                                  (S (loaded_count loader)) in
                              let! error_buffer :=
                                lift (set_error_text error_buffer error_buffer_size []) in
                              ret (0, Some loader, reg, error_buffer)
                      end
                  | None =>
                      let! '(r, l, g, e) :=
                        fail reg (text "plugin factory returned no plugin") in
                      do! ld_close handle;
                      ret (r, l, g, e)
                  end
            end
        end
  | _, _, _ => fail reg (text "invalid plugin loader input")
  end.

(** One turn of the loop of [unload_server_plugins]; [count] is the value of
    [loaded_count] after the decrement. *)
Definition unload_one (entries : list (loaded_server_plugin plugin)) (count : nat)
    (reg : registry) : M (list (loaded_server_plugin plugin) * registry) :=
  let! loaded := lift (entries !! count) in
  do! match loaded_plugin loaded with
      | Some plugin =>
          match plugin_stop plugin with
          | Some stop => callback stop (fun _ => LStop (loaded_port loaded))
          | None => ret 0
          end
      | None => ret 0
      end;
  let! reg := lift (clear_plugin_slot reg (loaded_port loaded)) in
  do! match loaded_handle loaded with Some h => ld_close h | None => ret tt end;
  ret (<[count := zero_entry]> entries, reg).

Fixpoint unload_loop (count : nat) (entries : list (loaded_server_plugin plugin))
    (reg : registry) : M (list (loaded_server_plugin plugin) * registry) :=
  match count with
  | O => ret (entries, reg)
  | S count =>
      let! '(entries, reg) := unload_one entries count reg in
      unload_loop count entries reg
  end.

Definition unload_server_plugins (loader : option (server_plugin_loader plugin)) (reg : registry)
    : M (option (server_plugin_loader plugin) * registry) :=
  match loader with
  | None => ret (None, reg)
  | Some loader =>
      let! '(entries, reg) := unload_loop (loaded_count loader) (loaded_plugins loader) reg in
      ret (Some (Loader entries 0), reg)
  end.

(** ** Invariant *)

(** The plugin's callbacks have no undefined behaviour. *)
Definition safe_callbacks (p : plugin) : Prop :=
  (forall f w, plugin_start p = Some f -> is_Some (f w)) /\
  (forall f w, plugin_stop p = Some f -> is_Some (f w)).

Definition entry_ok (e : loaded_server_plugin plugin) : Prop :=
  0 <= loaded_port e <= 15 /\ is_Some (loaded_handle e) /\
  exists p, loaded_plugin e = Some p /\ safe_callbacks p.

(** Loader and registry agree: the occupied slots are the ports of the
    loaded entries, each with its plugin, and no port is loaded twice. *)
Definition entries (l : server_plugin_loader plugin) : list (loaded_server_plugin plugin) :=
  take (loaded_count l) (loaded_plugins l).

Definition linked (l : server_plugin_loader plugin) (slots : list (server_plugin_slot plugin))
    : Prop :=
  registry_ok slots /\ length (loaded_plugins l) = 16%nat /\ (loaded_count l <= 16)%nat /\
  NoDup (map loaded_port (entries l)) /\ Forall entry_ok (entries l) /\
  forall port p, 0 <= port -> mapped slots port = Some p <->
    exists e, e ∈ entries l /\ loaded_port e = port /\ loaded_plugin e = Some p.

Hypothesis factory_safe : forall h w p, (factory h w).1 = Some p -> safe_callbacks p.

Definition error_ok (error_buffer : option (list Z)) (size : Z) : Prop :=
  match error_buffer with Some b => 0 < size <= zlen b | None => True end.

(** The buffer, if there is one, holds a string. *)
Definition error_text (error_buffer : option (list Z)) : Prop :=
  match error_buffer with Some b => is_Some (cstring b) | None => True end.
(** [dlerror] returns strings. *)
Definition dlerror_strings : Prop := forall (w : W) e, (dlerror w).1 = Some e -> cstr_ok e.

(** A call leaves a buffer where there was one. *)
Definition error_kept (eb eb' : option (list Z)) (size : Z) : Prop :=
  error_ok eb' size /\ (is_Some eb <-> is_Some eb').

Lemma set_error_ok error_buffer size message :
  error_ok error_buffer size ->
  exists eb', set_error_text error_buffer size message = Some eb' /\
    error_kept error_buffer eb' size /\
    (cstr_ok message -> error_text eb').
Proof.
  destruct error_buffer as [b|]; [|by exists None]. cbn [error_ok]. intros Hs.
  assert (Hb : forall b' : list Z, is_Some (Some b) <-> is_Some (Some b')) by (by split; eauto).
  unfold set_error_text, copy_text. destruct (Z.eqb_spec size 0); [lia|].
  destruct (Z.leb_spec size (zlen message)); cbn [Z.eqb negb].
  - rewrite wr_Some by lia. eexists. split; [done|]. cbn [error_ok error_text]. split; [split; [|done]|].
    + cbn [error_ok]. unfold zlen in *. rewrite length_insert. lia.
    + intros _. destruct b; [change (zlen []) with 0 in *; lia|by eexists].
  - rewrite wr_bytes_at by zlen_lia. eexists. split; [done|]. cbn [error_ok error_text]. split; [split; [cbn [error_ok]|done]|].
    2:{ intros Hm. rewrite take_0, app_nil_l, <- app_assoc. eexists. by apply cstring_app. }
    set (b' := _ ++ _). assert (Hl : length b' = length b); [|unfold zlen in *; lia].
    subst b'. rewrite ?length_app, ?length_take, ?length_drop, ?length_app. unfold zlen in *. cbn. lia.
Qed.

Lemma wp_linker {A} (f : W -> A * W) ev Q s :
  (forall a w, f (ld_world s) = (a, w) -> Q a (LdState w (ld_trace s ++ ev a))) ->
  wp (linker f ev) Q s.
Proof. intros HQ. unfold wp, linker. destruct (f (ld_world s)) eqn:E. by apply HQ. Qed.

(** What a failed load leaves behind: nothing, and a library that was opened
    is closed again. *)
Definition undone (evs : list ld_event) : Prop :=
  evs = [] \/ exists lib h mid, evs = LOpen lib h :: mid ++ [LClose h] /\
    (mid = [] \/ exists port r, r <> 0 /\ mid = [LStart port r]).

(** The library a configured path names: an absolute path is below the stage
    root, when there is one. *)
Definition library (path : list Z) : list Z :=
  match stage_root with
  | Some root => if decide (head path = Some 47) then root ++ path else path
  | None => path
  end.

Lemma resolve_library path resolved :
  resolve_plugin_path stage_root path server_plugin_path_max = Some resolved ->
  resolved = library path /\ zlen path < server_plugin_path_max.
Proof.
  unfold resolve_plugin_path, library. change server_plugin_path_max with 512.
  assert (Hplain : (if 512 <=? zlen path then None else Some path) = Some resolved ->
    resolved = path /\ zlen path < 512).
  { destruct (Z.leb_spec 512 (zlen path)); [done|]. by intros [= <-]. }
  destruct stage_root as [root|]; [|exact Hplain].
  destruct (decide (head path = Some 47)) as [Hh|Hh].
  - destruct path as [|c path]; [done|]. injection Hh as ->. unfold snprintf.
    pose proof (zlen_nonneg root). rewrite zlen_app.
    destruct (Z.ltb_spec (zlen root + zlen (47 :: path)) 0), (Z.leb_spec 512 (zlen root + zlen (47 :: path)));
      cbn [orb]; try done. intros [= <-]. split; [|lia]. apply take_ge. rewrite length_app. unfold zlen in *. lia.
  - destruct path as [|c path]; [exact Hplain|].
    assert (Hc : c <> 47) by (intros ->; by apply Hh). clear -Hplain Hc.
    revert Hplain. generalize (if 512 <=? zlen (c :: path) then None else Some (c :: path)) as d.
    intros d Hd. repeat case_match; auto; done.
Qed.

Definition load_post (l : server_plugin_loader plugin) slots port path eb size (s : ld_state W)
    (res : load_result) (s' : ld_state W) : Prop :=
  exists evs, ld_trace s' = ld_trace s ++ evs /\
  match res with
  | (r, l', reg', eb') =>
      error_kept eb eb' size /\ (dlerror_strings -> error_text eb') /\
      (r = -1 /\ l' = Some l /\ reg' = Some slots /\ undone evs \/
      r = 0 /\ exists h p l1 slots', l' = Some l1 /\ reg' = Some slots' /\
        mapped slots port = None /\ port <= 15 /\ registry_ok slots' /\
        slots' = <[slot_index port := Slot port (Some p)]> slots /\ safe_callbacks p /\
        loaded_count l1 = S (loaded_count l) /\ (loaded_count l < 16)%nat /\
        length (loaded_plugins l1) = 16%nat /\
        entries l1 = entries l ++ [Loaded port (Some h) (Some p) path] /\
        evs = LOpen (library path) h ::
          match plugin_start p with Some _ => [LStart port 0] | None => [] end)
  end.

Lemma load_fail_post l slots port path eb size msg s0 s :
  error_ok eb size -> (dlerror_strings -> cstr_ok msg) -> ld_trace s = ld_trace s0 ->
  wp (load_fail (Some l) (Some slots) eb size msg) (load_post l slots port path eb size s0) s.
Proof.
  intros He Hm Ht. destruct (set_error_ok eb size msg He) as (eb' & E & Heb' & Htext). unfold load_fail.
  apply wp_bind. eapply wp_lift; [exact E|]. apply wp_ret. exists [].
  rewrite app_nil_r. split; [done|]. split; [done|]. split; [auto|]. left. split_and!; try done. by left.
Qed.

Lemma load_fail_close l slots port path eb size msg lib h s0 s :
  error_ok eb size -> (dlerror_strings -> cstr_ok msg) ->
  ld_trace s = ld_trace s0 ++ [LOpen lib h] ->
  wp (let! '(r, l, g, e) := load_fail (Some l) (Some slots) eb size msg in
      do! ld_close h; ret (r, l, g, e)) (load_post l slots port path eb size s0) s.
Proof.
  intros He Hm Ht. destruct (set_error_ok eb size msg He) as (eb' & E & Heb' & Htext). unfold load_fail.
  apply wp_bind, wp_bind. eapply wp_lift; [exact E|]. apply wp_ret.
  apply wp_bind, wp_linker. intros [] w _. apply wp_ret. exists [LOpen lib h; LClose h].
  cbn. rewrite Ht, <- app_assoc. split; [done|]. split; [done|]. split; [auto|]. left. split_and!; try done.
  right. exists lib, h, []. split; [done|by left].
Qed.

Lemma clear_registered (slots : list (server_plugin_slot plugin)) port p :
  registry_ok slots -> 0 <= port <= 15 -> mapped slots port = None ->
  clear_plugin_slot (Some (<[slot_index port := Slot port (Some p)]> slots)) port
    = Some (Some slots).
Proof.
  intros Hok Hr Hm. rewrite clear_eq by (done || by apply registry_ok_insert).
  rewrite list_insert_insert, decide_True by done. do 2 f_equal. apply list_insert_id.
  rewrite slot_in by done. by rewrite Hm.
Qed.

(** A failure with a message of the loader's own. *)
Ltac load_fails :=
  first [apply load_fail_post | eapply load_fail_close]; try done; intros _; by apply text_cstr_ok.

(** What the start callback of a plugin does, when there is one. *)
Definition start_events (p : plugin) (port started : Z) : list ld_event :=
  match plugin_start p with Some _ => [LStart port started] | None => [] end.

Lemma start_callback_spec p port s :
  safe_callbacks p ->
  wp (match plugin_start p with
      | Some start => callback start (LStart port) | None => ret 0 end)
    (fun started s' => ld_trace s' = ld_trace s ++ start_events p port started /\
       (plugin_start p = None -> started = 0)) s.
Proof.
  intros Hsafe. unfold start_events. destruct (plugin_start p) as [f|] eqn:Ef.
  - unfold callback, wp. by destruct (proj1 Hsafe f (ld_world s) Ef) as [[r w] ->].
  - apply wp_ret. by rewrite app_nil_r.
Qed.

(** The end of [load_server_plugin], once the plugin of library [h] is
    registered and its start callback has returned [started]: the entry is
    added, or everything is undone. *)
Lemma load_finish l slots p port path eb size h started s0 s :
  linked l slots -> 0 <= port <= 15 -> error_ok eb size -> mapped slots port = None ->
  (loaded_count l < 16)%nat -> safe_callbacks p ->
  ld_trace s = (ld_trace s0 ++ [LOpen (library path) h]) ++ start_events p port started ->
  (plugin_start p = None -> started = 0) ->
  let slots' := <[slot_index port := Slot port (Some p)]> slots in
  wp (if negb (started =? 0) then
        let! error_buffer :=
          lift (set_error_text eb size (text "plugin start callback failed")) in
        let! reg := lift (clear_plugin_slot (Some slots') port) in
        do! ld_close h;
        ret (-1, Some l, reg, error_buffer)
      else
        let entry := Loaded port (Some h) (Some p) path in
        let! _ := lift (loaded_plugins l !! loaded_count l) in
        let loader :=
          Loader (<[loaded_count l := entry]> (loaded_plugins l)) (S (loaded_count l)) in
        let! error_buffer := lift (set_error_text eb size []) in
        ret (0, Some loader, Some slots', error_buffer))
    (load_post l slots port path eb size s0) s.
Proof.
  intros (Hreg & Hlen & Hcnt & _) Hport He Em Hroom Hsafe Htr Hnone slots'.
  destruct (Z.eqb_spec started 0) as [->|Hne]; cbn [negb].
  - destruct (lookup_lt_is_Some_2 (loaded_plugins l) (loaded_count l)) as [e0 He0]; [lia|].
    cbv zeta. apply wp_bind. eapply wp_lift; [exact He0|].
    destruct (set_error_ok eb size [] He) as (eb' & Eeb & Heb' & Htext).
    apply wp_bind. eapply wp_lift; [exact Eeb|]. apply wp_ret.
    exists (LOpen (library path) h :: start_events p port 0).
    split; [rewrite Htr; by rewrite <- app_assoc|]. split; [done|].
    split; [intros _; apply Htext; constructor|]. right. split; [done|].
    eexists h, p, _, slots'. split_and!; [done|done|done|lia| |done|done|done|lia| | |done].
    + by apply registry_ok_insert.
    + cbn. by rewrite length_insert.
    + unfold entries. cbn [loaded_count loaded_plugins].
      rewrite (take_S_r _ _ (Loaded port (Some h) (Some p) path))
        by (apply list_lookup_insert_eq; lia).
      by rewrite take_insert_ge by lia.
  - destruct (set_error_ok eb size (text "plugin start callback failed") He)
      as (eb' & Eeb & Heb' & Htext).
    apply wp_bind. eapply wp_lift; [exact Eeb|].
    apply wp_bind. eapply wp_lift; [by apply clear_registered|].
    apply wp_bind, wp_linker. intros [] w7 _. apply wp_ret. unfold start_events in Htr.
    destruct (plugin_start p); [|by specialize (Hnone eq_refl)].
    exists [LOpen (library path) h; LStart port started; LClose h].
    split; [cbn; rewrite Htr; by rewrite <- !app_assoc|]. split; [done|].
    split; [intros _; apply Htext; by apply text_cstr_ok|]. left. split_and!; try done.
    right. exists (library path), h, [LStart port started]. split; [done|right]. by exists port, started.
Qed.

Lemma load_spec l slots port path eb size s :
  linked l slots -> 0 <= port < 256 -> error_ok eb size ->
  wp (load_server_plugin (Some l) (Some slots) port (Some path) eb size)
    (load_post l slots port path eb size s) s.
Proof.
  intros Hlink Hport He. pose proof Hlink as (Hreg & _). unfold load_server_plugin. cbv zeta.
  destruct (is_valid_server_port port) eqn:Ev; cbn [negb]; [|by load_fails].
  unfold is_valid_server_port, server_port_max, server_plugin_port_max in Ev.
  change server_port_count with 16.
  destruct (Z.leb_spec 16 (Z.of_nat (loaded_count l))); [by load_fails|].
  destruct (resolve_plugin_path _ _ _) as [resolved|] eqn:Er; [|by load_fails].
  apply resolve_library in Er as [-> Hpath]. change server_plugin_path_max with 512 in *.
  apply wp_bind, wp_linker. intros [h|] w1 _.
  2: { apply wp_bind, wp_linker. intros e w2 He2. apply load_fail_post; [done| |].
       - intros Hd. destruct e as [e|]; [|by apply text_cstr_ok]. eapply Hd. by rewrite He2.
       - cbn. by rewrite !app_nil_r. }
  apply wp_bind, wp_linker. intros e2 w2 _. apply wp_bind, wp_linker. intros found w3 _.
  apply wp_bind, wp_linker. intros e4 w4 He4. cbn [ld_trace]. rewrite !app_nil_r.
  destruct (_ || _).
  { eapply load_fail_close; [done| |done]. intros Hd. destruct e4 as [e|]; [|by apply text_cstr_ok].
    eapply Hd. by rewrite He4. }
  apply wp_bind, wp_linker. intros p w5 Hp. cbn [ld_trace]. rewrite app_nil_r.
  destruct p as [p|]; [|by load_fails].
  destruct (plugin_name p); [|by load_fails].
  assert (Hsafe : safe_callbacks p) by (eapply (factory_safe h); cbn in Hp; by rewrite Hp).
  apply wp_bind. eapply wp_lift; [apply register_eq; (done || lia)|].
  destruct (mapped slots port) eqn:Em; cbn [Z.eqb negb]; [by load_fails|].
  apply wp_bind. eapply wp_mono; [by apply start_callback_spec|].
  intros started s6 [Htr Hnone]. destruct (Z.leb_spec 512 (zlen path)); [lia|].
  apply load_finish; (done || lia).
Qed.

Lemma linked_load l slots l1 p h path port :
  linked l slots -> 0 <= port <= 15 -> mapped slots port = None -> safe_callbacks p ->
  loaded_count l1 = S (loaded_count l) -> (loaded_count l < 16)%nat ->
  length (loaded_plugins l1) = 16%nat ->
  entries l1 = entries l ++ [Loaded port (Some h) (Some p) path] ->
  linked l1 (<[slot_index port := Slot port (Some p)]> slots).
Proof.
  intros (Hreg & Hlen & Hcnt & Hnd & Hok & Hm) Hr Hfree Hsafe Hc Hlt Hl1 He.
  split_and!; [by apply registry_ok_insert|done|lia| | |].
  - rewrite He, map_app. apply NoDup_app. split_and!; [done| |apply NoDup_singleton].
    intros q Hq Hq2. apply list_elem_of_singleton in Hq2 as ->. cbn in Hq.
    apply list_elem_of_fmap in Hq as (e & Hpe & Hin).
    destruct (Forall_elem _ _ _ Hok Hin) as (_ & _ & p' & Hp' & _).
    assert (mapped slots port = Some p') as Hx by (apply Hm; [lia|eauto]). congruence.
  - rewrite He. apply Forall_app. split; [done|]. apply Forall_singleton.
    split; [done|split; [by eexists|by exists p]].
  - intros q p' Hq. rewrite mapped_insert by done. rewrite He. case_decide as E.
    + subst q. split.
      * intros [= ->]. eexists. split; [apply elem_of_app; right; apply list_elem_of_here|done].
      * intros (e & Hin & Hpe & Hpl). apply elem_of_app in Hin as [Hin|Hin].
        -- assert (mapped slots port = Some p') by (apply Hm; eauto). congruence.
        -- apply list_elem_of_singleton in Hin as ->. by injection Hpl.
    + rewrite (Hm q p' Hq). split.
      * intros (e & Hin & ?). exists e. split; [apply elem_of_app; by left|done].
      * intros (e & Hin & Hpe & Hpl). apply elem_of_app in Hin as [Hin|Hin]; [eauto|].
        apply list_elem_of_singleton in Hin as ->. by cbn in Hpe.
Qed.

(** ** Unloading *)

Definition stop_events (e : loaded_server_plugin plugin) : list ld_event :=
  match loaded_plugin e with
  | Some p => match plugin_stop p with Some _ => [LStop (loaded_port e)] | None => [] end
  | None => []
  end ++ match loaded_handle e with Some h => [LClose h] | None => [] end.

Lemma unload_one_spec es count e slots s :
  es !! count = Some e -> entry_ok e -> registry_ok slots ->
  wp (unload_one es count (Some slots))
    (fun r s' => r = (<[count := zero_entry]> es,
       Some (<[slot_index (loaded_port e) := Slot (loaded_port e) None]> slots)) /\
       ld_trace s' = ld_trace s ++ stop_events e) s.
Proof.
  intros He (Hr & [h Hh] & p & Hp & Hsafe) Hreg. unfold unload_one, stop_events. rewrite Hp, Hh.
  apply wp_bind. eapply wp_lift; [exact He|]. rewrite Hp, Hh.
  assert (Hk : forall s1, wp (let! reg := lift (clear_plugin_slot (Some slots) (loaded_port e)) in
    do! ld_close h; ret (<[count := zero_entry]> es, reg))
    (fun r s' => r = (<[count := zero_entry]> es,
       Some (<[slot_index (loaded_port e) := Slot (loaded_port e) None]> slots)) /\
       ld_trace s' = ld_trace s1 ++ [LClose h]) s1).
  { intros s1. apply wp_bind. eapply wp_lift; [by apply clear_eq|].
    apply wp_bind, wp_linker. intros [] w _. by apply wp_ret. }
  apply wp_bind. destruct (plugin_stop p) as [f|] eqn:Ef.
  - unfold wp at 1, callback. destruct (proj2 Hsafe f (ld_world s) Ef) as [[r w] ->].
    eapply wp_mono; [apply Hk|]. intros x s' [-> ->]. split; [done|]. cbn. by rewrite <- app_assoc.
  - apply wp_ret. eapply wp_mono; [apply Hk|]. done.
Qed.

Lemma unload_loop_spec count : forall es slots s,
  (count <= length es)%nat -> Forall entry_ok (take count es) -> registry_ok slots ->
  wp (unload_loop count es (Some slots)) (fun r s' => exists slots',
    r.2 = Some slots' /\ registry_ok slots' /\
    r.1 = replicate count zero_entry ++ drop count es /\
    (forall port, 0 <= port -> mapped slots' port =
       if decide (port ∈ map loaded_port (take count es)) then None else mapped slots port) /\
    ld_trace s' = ld_trace s ++ concat (map stop_events (reverse (take count es)))) s.
Proof.
  induction count as [|count IH]; intros es slots s Hc Hok Hreg; cbn [unload_loop].
  { apply wp_ret. exists slots. split_and!; try done. by rewrite app_nil_r. }
  destruct (lookup_lt_is_Some_2 es count) as [e He]; [lia|].
  rewrite (take_S_r _ _ _ He) in *. apply Forall_app in Hok as [Hok Hoke].
  apply Forall_cons_1 in Hoke as [Hoke _]. apply wp_bind.
  eapply wp_mono; [exact (unload_one_spec es count e slots s He Hoke Hreg)|]. intros r s1 [-> Ht1]. cbv beta iota.
  pose proof Hoke as [Hpr _].
  eapply wp_mono; [apply IH; [rewrite length_insert; lia|by rewrite take_insert_ge by lia|
    by apply registry_ok_insert]|].
  intros [es' reg'] s2 (slots' & -> & Hreg' & Hz & Hm & Ht2). exists slots'.
  cbn [fst snd] in *. rewrite take_insert_ge in Hm, Ht2 by lia.
  split_and!; try done.
  - rewrite Hz, replicate_S_end, <- app_assoc. f_equal.
    rewrite insert_take_drop, drop_app_length' by (rewrite ?length_take; lia). done.
  - intros port Hport. rewrite Hm, mapped_insert by done. rewrite map_app. cbn [map].
    case_decide as E1.
    + rewrite decide_True; [done|]. apply elem_of_app. by left.
    + case_decide as E2.
      * rewrite decide_True; [done|]. subst. apply elem_of_app. right. apply list_elem_of_here.
      * rewrite decide_False; [done|]. rewrite elem_of_app, list_elem_of_singleton. intuition.
  - rewrite Ht2, Ht1, reverse_app. cbn. by rewrite <- app_assoc.
Qed.

(** ** Properties *)

(** C26. Loading a plugin is atomic and keeps loader and registry in step: on
    failure both are unchanged and a library that was opened is closed again
    (after a start callback that failed at most); on success the port, which
    was free, now maps to the plugin of the library just opened, which is the
    one the path names (below the stage root when it is absolute), its start
    callback ran exactly once and succeeded, and it is recorded last in load
    order with its port and path. *)
Theorem load_atomic l slots port path eb size s :
  linked l slots -> 0 <= port < 256 -> error_ok eb size ->
  wp (load_server_plugin (Some l) (Some slots) port (Some path) eb size)
    (fun res s' => exists l' slots' evs,
       res.1.1.2 = Some l' /\ res.1.2 = Some slots' /\ linked l' slots' /\
       ld_trace s' = ld_trace s ++ evs /\
       (res.1.1.1 = -1 /\ l' = l /\ slots' = slots /\ undone evs \/
        res.1.1.1 = 0 /\ mapped slots port = None /\
        exists h p, mapped slots' port = Some p /\
          entries l' = entries l ++ [Loaded port (Some h) (Some p) path] /\
          evs = LOpen (library path) h ::
            match plugin_start p with Some _ => [LStart port 0] | None => [] end)) s.
Proof.
  intros Hl Hp He. eapply wp_mono; [by apply load_spec|].
  intros [[[r l'] reg'] eb'] s' (evs & Ht & Heb & _ & [(-> & -> & -> & Hu)|(-> & h & p & l1 & slots'
    & -> & -> & Hfree & Hp15 & Hreg & Hslots & Hsafe & Hc & Hlt & Hlen & Hent & Hev)]).
  - exists l, slots, evs. split_and!; try done. left. done.
  - assert (Hpv : 0 <= port <= 15) by lia. pose proof Hl as [Hreg0 _].
    exists l1, slots', evs. split_and!; try done.
    + subst slots'. by eapply linked_load.
    + right. split_and!; try done. exists h, p. split_and!; try done.
      subst slots'. by rewrite mapped_insert, decide_True by (done || lia).
Qed.

(** Unloading stops every loaded plugin and closes its library exactly
    once, in reverse load order, stopping before closing; afterwards the
    registry is empty, the loader is empty and its entries are zeroed. *)
Theorem unload_reverse l slots s :
  linked l slots ->
  wp (unload_server_plugins (Some l) (Some slots))
    (fun r s' => exists slots',
       r = (Some (Loader (replicate (loaded_count l) zero_entry
                            ++ drop (loaded_count l) (loaded_plugins l)) 0), Some slots') /\
       registry_ok slots' /\ (forall port, 0 <= port -> mapped slots' port = None) /\
       ld_trace s' = ld_trace s ++ concat (map stop_events (reverse (entries l)))) s.
Proof.
  intros (Hreg & Hlen & Hcnt & _ & Hok & Hm). unfold unload_server_plugins.
  apply wp_bind. eapply wp_mono; [apply unload_loop_spec; [lia|done|done]|].
  intros [es reg'] s' (slots' & Hr & Hreg' & Hes & Hm' & Ht). cbn [fst snd] in *. subst es reg'.
  apply wp_ret. exists slots'. split_and!; try done.
  intros port Hp. rewrite Hm' by done. case_decide as E; [done|].
  destruct (mapped slots port) as [p|] eqn:Em; [|done]. exfalso. apply E.
  apply Hm in Em as (e & Hin & <- & _); [|done]. by apply (list_elem_of_fmap_2 loaded_port).
Qed.
End loader.

(** A linker that knows one library. *)
Definition sample_plugin : server_plugin unit :=
  ServerPlugin (Some (text "p")) (Some (ret 0)) (Some (ret 0)) None.
#[local] Instance sample_linker : Linker unit := {
  dlopen path w := (if eq_text path (text "p.so") then Some 7 else None, w);
  dlerror w := (None, w);
  dlsym h w := (true, w);
  factory h w := (Some sample_plugin, w);
  dlclose h w := w }.

Definition empty_loader : server_plugin_loader (server_plugin unit) :=
  Loader (replicate 16 zero_entry) 0.
Definition empty_slots : list (server_plugin_slot (server_plugin unit)) :=
  imap (fun i _ => Slot (Z.of_nat i) None) (replicate 16 tt).
Definition one_loader : server_plugin_loader (server_plugin unit) :=
  Loader (Loaded 4 (Some 7) (Some sample_plugin) (text "p.so") :: replicate 15 zero_entry) 1.

Lemma sample_safe : safe_callbacks sample_plugin.
Proof. split; intros f w [= <-]; by eexists. Qed.
Lemma sample_factory (h : Z) (w : unit) p : (factory h w).1 = Some p -> safe_callbacks p.
Proof. intros [= <-]. apply sample_safe. Qed.

Lemma empty_linked : linked empty_loader empty_slots.
Proof.
  destruct (init_registry_ok (replicate 16 (Slot 0 (@None (server_plugin unit)))) empty_slots)
    as [Hreg Hm]; [done|done|]. split_and!; try done.
  - cbn. lia.
  - constructor.
  - intros port p _. rewrite Hm. split; [done|]. intros (e & Hin & _). inversion Hin.
Qed.

Lemma one_linked : linked one_loader (<[slot_index 4 := Slot 4 (Some sample_plugin)]> empty_slots).
Proof.
  apply (linked_load empty_loader empty_slots one_loader sample_plugin 7 (text "p.so") 4);
    try done; try apply empty_linked; try apply sample_safe; cbn; lia.
Qed.

Lemma load_atomic_witness :
  wp (load_server_plugin None (Some empty_loader) (Some empty_slots) 4 (Some (text "p.so"))
        (Some (replicate 8 0)) 8)
    (fun res s' => exists l' slots' evs,
       res.1.1.2 = Some l' /\ res.1.2 = Some slots' /\ linked l' slots' /\
       ld_trace s' = [] ++ evs /\
       (res.1.1.1 = -1 /\ l' = empty_loader /\ slots' = empty_slots /\ undone evs \/
        res.1.1.1 = 0 /\ mapped empty_slots 4 = None /\
        exists h p, mapped slots' 4 = Some p /\
          entries l' = entries empty_loader ++ [Loaded 4 (Some h) (Some p) (text "p.so")] /\
          evs = LOpen (text "p.so") h :: match plugin_start p with Some _ => [LStart 4 0] | None => [] end))
    (LdState tt []).
Proof.
  apply (load_atomic None sample_factory empty_loader empty_slots 4 (text "p.so")
    (Some (replicate 8 0)) 8 (LdState tt [])); [apply empty_linked|lia|closed].
Defined.

Lemma unload_reverse_witness :
  wp (unload_server_plugins (Some one_loader)
        (Some (<[slot_index 4 := Slot 4 (Some sample_plugin)]> empty_slots)))
    (fun r s' => exists slots',
       r = (Some (Loader (replicate (loaded_count one_loader) zero_entry
                            ++ drop (loaded_count one_loader) (loaded_plugins one_loader)) 0),
            Some slots') /\
       registry_ok slots' /\ (forall port, 0 <= port -> mapped slots' port = None) /\
       ld_trace s' = [] ++ [LStop 4; LClose 7]) (LdState tt []).
Proof.
  apply (unload_reverse one_loader
    (<[slot_index 4 := Slot 4 (Some sample_plugin)]> empty_slots) (LdState tt [])).
  apply one_linked.
Defined.
