(* ===== verification/Runtime.v ===== *)
(** The server runtime (src/runtime/server_runtime.c): framing of plugin
    packets on the libsquid byte streams, packet dispatch, and the dispatch
    loop.  libsquid is a parameter. *)
From stdpp Require Import base numbers list option gmap strings.
From Stdlib Require Import ZArith Lia.
From S2P Require Import Prelude CLib PluginApi Registry.

Local Open Scope Z_scope.
Local Open Scope squid_scope.

Definition server_packet_max : Z := 255.
Definition server_squid_queue_capacity : Z := server_packet_max + 1.

(** ** libsquid *)

(** The socket calls and the engine, over the engine's state [N]. *)
Class Squid (N : Type) := {
  squid_open : Z -> Z -> N -> Z * N;
  squid_bind : Z -> Z -> N -> Z * N;
  squid_close : Z -> N -> N;
  squid_send : Z -> list Z -> N -> Z * N;
  squid_recv : Z -> Z -> N -> Z * list Z * N;
  snet_burst : N -> N;
  snet_link_is_up : N -> bool;
  transport_wait : N -> Z * N }.

(** What the server relies on: a socket has a receive queue [rx] and a
    transmit queue [tx] of bytes; receiving takes at most the given number of
    bytes from the front of the receive queue; sending is all or nothing at
    the end of the transmit queue; no call touches another socket. *)
Class SquidLaws (N : Type) `{Squid N} (rx tx : N -> Z -> list Z) : Prop := {
  recv_law : forall fd max n, 0 <= max ->
    let '(r, data, n') := squid_recv fd max n in
    (forall g, tx n' g = tx n g) /\ (forall g, g <> fd -> rx n' g = rx n g) /\
    (r < 0 -> rx n' fd = rx n fd) /\
    (0 <= r -> r <= max /\ zlen data = r /\ bytes_ok data /\ rx n fd = data ++ rx n' fd);
  send_law : forall fd data n,
    let '(r, n') := squid_send fd data n in
    (forall g, rx n' g = rx n g) /\ (forall g, g <> fd -> tx n' g = tx n g) /\
    tx n' fd = if r <? 0 then tx n fd else tx n fd ++ data }.

(** [squid_timing_t], and the engine's start with it. *)
Record squid_timing := SquidTiming {
  timeout_ticks : Z; ack_delay_ticks : Z; ping_ticks : Z; max_retries : Z; payload_bytes : Z }.
Class SquidInit (N : Type) := { snet_init : squid_timing -> N -> N }.

(** [socks n] is the set of open sockets. *)
Class SquidSockets (N : Type) `{Squid N} (socks : N -> gset Z) : Prop := {
  socket_open : forall r t n, let '(fd, n') := squid_open r t n in
    if fd <? 0 then socks n' = socks n else (fd ∉ socks n) /\ socks n' = {[ fd ]} ∪ (socks n);
  socket_bind : forall fd port n, socks (squid_bind fd port n).2 = socks n;
  socket_close : forall fd n, socks (squid_close fd n) = (socks n) ∖ {[ fd ]};
  socket_send : forall fd data n, socks (squid_send fd data n).2 = socks n;
  socket_recv : forall fd max n, socks (squid_recv fd max n).2 = socks n;
  socket_burst : forall n, socks (snet_burst n) = socks n;
  socket_wait : forall n, socks (transport_wait n).2 = socks n }.

Lemma remove_fresh (X : gset Z) x : x ∉ X -> ({[ x ]} ∪ X) ∖ {[ x ]} = X.
Proof.
  intros Hx. apply set_eq. intros y. rewrite elem_of_difference, elem_of_union, elem_of_singleton.
  split; [tauto|]. intros Hy. split; [by right|congruence].
Qed.

(** All that memory safety needs of [squid_recv]: it stores bytes, and at most
    as many as it may. *)
Class RecvLaw (N : Type) `{Squid N} : Prop :=
  recv_bytes : forall fd max n, 0 <= max ->
    let '(r, data, _) := squid_recv fd max n in
    0 <= r -> r <= max /\ zlen data = r /\ bytes_ok data.

#[export] Instance recv_law_bytes {N} `{SquidLaws N rx tx} : RecvLaw N.
Proof.
  intros fd max n Hm. pose proof (recv_law fd max n Hm) as Hr.
  destruct (squid_recv fd max n) as [[r data] n']. intros Hp. by destruct Hr as (_ & _ & _ & Hr), (Hr Hp) as (?&?&?&?).
Qed.

(** The first [n] bytes of an array of static storage duration, which is
    never uninitialised. *)
Definition static_bytes (b : list Z) (n : Z) : option (list Z) :=
  if n <=? zlen b then Some (take (Z.to_nat n) b) else None.

(** ** struct server_runtime

    The per-port arrays [squid_fds], [request_packets], [request_packet_sizes],
    [request_packet_expected], [pending_responses] and
    [pending_response_sizes], all indexed by the port, are one array of
    records. *)
Record port_state := PortState {
  squid_fd : Z;
  request_packet : list Z;
  request_packet_size : Z;
  request_packet_expected : Z;
  pending_response : list Z;
  pending_response_size : Z }.

Record server_runtime (P : Type) := Runtime {
  rt_ports : list port_state;
  plugin_registry : list (server_plugin_slot P) }.
Arguments Runtime {P} _ _.
Arguments rt_ports {P} _.
Arguments plugin_registry {P} _.

(** [init_server_runtime]: everything zero, all sockets -1. *)
Definition zero_port : port_state :=
  PortState (-1) (replicate 255 0) 0 0 (replicate 256 0) 0.

Definition init_server_runtime {P} (registry : list (server_plugin_slot P)) : server_runtime P :=
  Runtime (replicate 16 zero_port)
    (default [] (init_server_plugin_registry (Some registry))).

Section runtime.
Context {N S : Type} `{Squid N}.
Local Abbreviation plugin := (server_plugin S).
Local Abbreviation registry := (list (server_plugin_slot plugin)).
Abbreviation M := (ST (N * S)).

Definition net {A} (f : N -> A * N) : M A := fun s =>
  let '(a, n) := f s.1 in Some (a, (n, s.2)).
Definition call_plugin {A} (f : ST S A) : M A := fun s =>
  match f s.2 with Some (a, w) => Some (a, (s.1, w)) | None => None end.

Definition c_recv (fd max : Z) : M (Z * list Z) := net (squid_recv fd max).
Definition c_send (fd : Z) (data : list Z) : M Z := net (squid_send fd data).

(** *** Sockets *)

(** The body of the loop of [open_plugin_sockets]: the port's descriptor. *)
Definition open_plugin_socket (port : Z) (fd : Z) : M Z :=
  let! fd := net (squid_open (u16 server_squid_queue_capacity) (u16 server_squid_queue_capacity)) in
  if fd <? 0 then ret fd
  else
    let! bound := net (squid_bind fd port) in
    if negb (bound =? 0) then
      do! net (fun n => (tt, squid_close fd n));
      ret (-1)
    else ret fd.

Definition set_fd (ps : port_state) (fd : Z) : port_state :=
  PortState fd (request_packet ps) (request_packet_size ps) (request_packet_expected ps)
    (pending_response ps) (pending_response_size ps).

(** [for (port = 1; port <= 15; ++port)] over the array of port records;
    [todo] is the number of ports still to visit. *)
Fixpoint for_ports (todo : nat) (port : Z) (body : Z -> port_state -> M port_state)
    (ports : list port_state) : M (list port_state) :=
  match todo with
  | O => ret ports
  | Datatypes.S todo =>
      let! ps := lift (ports !! Z.to_nat port) in
      let! ps := body port ps in
      for_ports todo (port + 1) body (<[Z.to_nat port := ps]> ports)
  end.

Definition each_plugin_port (body : Z -> port_state -> M port_state) (ports : list port_state)
    : M (list port_state) :=
  for_ports (Z.to_nat (server_plugin_port_max - server_plugin_port_min + 1))
    server_plugin_port_min body ports.

Definition open_plugin_sockets (rt : server_runtime plugin) : M (server_runtime plugin) :=
  let! ports := each_plugin_port (fun port ps =>
    let! found := lift (find_server_plugin (Some (plugin_registry rt)) port) in
    match found with
    | None => ret ps
    | Some _ => let! fd := open_plugin_socket port (squid_fd ps) in ret (set_fd ps fd)
    end) (rt_ports rt) in
  ret (Runtime ports (plugin_registry rt)).

Definition close_plugin_sockets (rt : server_runtime plugin) : M (server_runtime plugin) :=
  let! ports := each_plugin_port (fun port ps =>
    if 0 <=? squid_fd ps then
      do! net (fun n => (tt, squid_close (squid_fd ps) n));
      ret (set_fd ps (-1))
    else ret ps) (rt_ports rt) in
  ret (Runtime ports (plugin_registry rt)).

(** *** Packets *)

Definition set_request (ps : port_state) (packet : list Z) (size expected : Z) : port_state :=
  PortState (squid_fd ps) packet size expected (pending_response ps) (pending_response_size ps).
Definition set_pending (ps : port_state) (response : list Z) (size : Z) : port_state :=
  PortState (squid_fd ps) (request_packet ps) (request_packet_size ps)
    (request_packet_expected ps) response size.

(** The second half of [receive_plugin_packet], with the length known. *)
Definition receive_body (ps : port_state) : M (Z * port_state) :=
  let size := request_packet_size ps in
  let expected := request_packet_expected ps in
  if size <? expected then
    let! '(received, data) := c_recv (squid_fd ps) (u16 (expected - size)) in
    if received <? 0 then ret (-1, ps)
    else
      let! packet := lift (wr_bytes (request_packet ps) size data) in
      let size := size + received in
      ret (if size =? expected then 1 else 0, set_request ps packet size expected)
  else ret (if size =? expected then 1 else 0, ps).

Definition receive_plugin_packet (ps : port_state) : M (Z * port_state) :=
  if request_packet_expected ps =? 0 then
    let! '(received, data) := c_recv (squid_fd ps) 1 in
    if received <=? 0 then ret (received, ps)
    else
      let! wire_size := lift (rd data 0) in
      if wire_size =? 0 then ret (-1, ps)
      else receive_body (set_request ps (request_packet ps) 0 wire_size)
  else receive_body ps.

(** The address of [pending_responses[port] + 1]; only compared. *)
Definition response_address (port : Z) : Z := 1 + port.

(** The call of the plugin and what is done with its answer. *)
Definition handle_request (port : Z) (ps : port_state) (handle_packet : handle_packet_fn S)
    : M port_state :=
  let request := PacketView (Some (request_packet ps)) (request_packet_size ps) in
  let! first := lift (pending_response ps !! O) in
  let response :=
    PacketBuffer (response_address port) (drop 1 (pending_response ps)) server_packet_max 0 in
  let! '(result, response) := call_plugin (handle_packet port (Some request) (Some response)) in
  let! response := lift response in
  (* the response memory is part of [pending_responses] *)
  let pending := first :: packet_mem response in
  let ps := set_pending ps pending (pending_response_size ps) in
  let! ps :=
    (if result =? 0 then
       if (0 <? packet_size response) &&
          (negb (packet_data response =? response_address port)
           || (server_packet_max <? packet_size response)) then ret ps
       else if 0 <? packet_size response then
         let framed_size := packet_size response + 1 in
         let! pending := lift (wr pending 0 (u8 (packet_size response))) in
         let! data := lift (static_bytes pending (u16 framed_size)) in
         let! sent := c_send (squid_fd ps) data in
         ret (set_pending ps pending (if 0 <=? sent then 0 else framed_size))
       else ret ps
     else ret ps) in
  ret (set_request ps (request_packet ps) 0 0).

(** The body of the loop of [dispatch_received_packets]. *)
Definition dispatch_port (reg : registry) (port : Z) (ps : port_state) : M port_state :=
  if squid_fd ps <? 0 then ret ps
  else
    let! '(blocked, ps) :=
      (if 0 <? pending_response_size ps then
         let! data := lift (static_bytes (pending_response ps) (u16 (pending_response_size ps))) in
         let! sent := c_send (squid_fd ps) data in
         if sent <? 0 then ret (true, ps)
         else ret (false, set_pending ps (pending_response ps) 0)
       else ret (false, ps)) in
    if (blocked : bool) then ret ps
    else
      let! '(packet_ready, ps) := receive_plugin_packet ps in
      if packet_ready <=? 0 then ret ps
      else
        let! found := lift (find_server_plugin (Some reg) port) in
        match found with
        | None => ret ps
        | Some plugin =>
            match plugin_handle_packet plugin with
            | None => ret ps
            | Some handle_packet => handle_request port ps handle_packet
            end
        end.

Definition dispatch_received_packets (rt : server_runtime plugin) : M (server_runtime plugin) :=
  let! ports := each_plugin_port (dispatch_port (plugin_registry rt)) (rt_ports rt) in
  ret (Runtime ports (plugin_registry rt)).

(** *** The dispatch loop

    One iteration of the inner loop of [run_dispatch_loop]: the runtime and
    whether the loop keeps running ([wait_for_transport] stops it when the
    wait fails). *)
Definition burst : M unit := net (fun n => (tt, snet_burst n)).
Definition wait_for_transport : M bool :=
  let! result := net transport_wait in ret (0 <=? result).

Definition dispatch_iteration (rt : server_runtime plugin) : M (server_runtime plugin * bool) :=
  do! burst;
  let! rt := dispatch_received_packets rt in
  do! burst;
  let! keep_running := wait_for_transport in
  ret (rt, keep_running).

Definition handshake_iteration : M bool := do! burst; wait_for_transport.

(** What the loop does when the link is lost. *)
Definition reset_ports (rt : server_runtime plugin) : M (server_runtime plugin) :=
  let! ports := each_plugin_port (fun port ps =>
    ret (set_pending (set_request ps (request_packet ps) 0 0) (pending_response ps) 0))
    (rt_ports rt) in
  ret (Runtime ports (plugin_registry rt)).

(** [run_dispatch_loop] as a transition system: it waits for a handshake,
    serves a link, or has returned.  The state carries [keep_running], which a
    termination signal can clear between any two steps. *)
Inductive phase := Handshake | Linked | Returned.

Record loop_state := LoopState {
  lp_phase : phase;
  keep_running : bool;
  lp_runtime : server_runtime plugin;
  lp_world : N * S }.

(** The turns the loop itself takes. *)
Inductive loop_turn : loop_state -> loop_state -> Prop :=
| step_wait rt s keep s' :
    snet_link_is_up s.1 = false -> handshake_iteration s = Some (keep, s') ->
    loop_turn (LoopState Handshake true rt s) (LoopState Handshake keep rt s')
| step_up rt s :
    snet_link_is_up s.1 = true ->
    loop_turn (LoopState Handshake true rt s) (LoopState Linked true rt s)
| step_return rt s : loop_turn (LoopState Handshake false rt s) (LoopState Returned false rt s)
| step_serve rt s rt' keep s' :
    snet_link_is_up s.1 = true -> dispatch_iteration rt s = Some ((rt', keep), s') ->
    loop_turn (LoopState Linked true rt s) (LoopState Linked keep rt' s')
| step_leave rt s :
    snet_link_is_up s.1 = true ->
    loop_turn (LoopState Linked false rt s) (LoopState Handshake false rt s)
| step_lost keep rt s rt' s' :
    snet_link_is_up s.1 = false -> reset_ports rt s = Some (rt', s') ->
    loop_turn (LoopState Linked keep rt s) (LoopState Handshake keep rt' s').

(** Turns and signals. *)
Inductive loop_step : loop_state -> loop_state -> Prop :=
| step_turn l l' : loop_turn l l' -> loop_step l l'
| step_signal ph rt s : loop_step (LoopState ph true rt s) (LoopState ph false rt s).
End runtime.
