(* ===== verification/RuntimeProps.v ===== *)
(** The dispatcher refines a stream machine: requests are cut out of the
    received bytes in order, each is handed to its plugin exactly once, and
    the responses are transmitted completely and in order. *)
From stdpp Require Import base numbers list option strings relations.
From Stdlib Require Import ZArith Lia.
From S2P Require Import Prelude CLib PluginApi Registry Runtime.

Local Open Scope Z_scope.
Local Open Scope squid_scope.

(** A packet on the wire: its length byte and its bytes. *)
Definition frame (p : list Z) : list Z := zlen p :: p.

(** What the server needs of a plugin: it stays inside the response buffer.
    The size and the pointer it reports are checked. *)
Class SafePlugin {S} (Inv : S -> Prop) (h : handle_packet_fn S) : Prop :=
  safe_packet : forall port v b s, Inv s -> view_ok v -> buffer_ok b ->
    wp (h port (Some v) (Some b))
      (fun r s' => Inv s' /\ exists b', r.2 = Some b' /\
         length (packet_mem b') = length (packet_mem b) /\ (r.1 = 0 -> 0 <= packet_size b')) s.

#[export] Instance good_safe {S} (Inv : S -> Prop) h : GoodPlugin Inv h -> SafePlugin Inv h.
Proof.
  intros Hg port v b s HI Hv Hb. eapply wp_mono; [by apply Hg|].
  intros r s' (HI' & b' & Hr & _ & _ & Hl & Hs). split; [done|]. exists b'. intuition.
Qed.

Definition port_ok (ps : port_state) : Prop :=
  length (request_packet ps) = 255%nat /\ bytes_ok (request_packet ps) /\
  length (pending_response ps) = 256%nat /\
  0 <= request_packet_size ps <= request_packet_expected ps /\
  request_packet_expected ps <= 255 /\ 0 <= pending_response_size ps <= 256.

(** The part of a packet already taken from the socket. *)
Definition partial (ps : port_state) : list Z :=
  if request_packet_expected ps =? 0 then []
  else request_packet_expected ps ::
    take (Z.to_nat (request_packet_size ps)) (request_packet ps).

Ltac port_cbn :=
  cbn [set_request set_pending request_packet request_packet_size request_packet_expected
       pending_response pending_response_size squid_fd fst snd] in *.

Section props.
Context {N S : Type} `{SquidLaws N rx tx}.
Local Abbreviation plugin := (server_plugin S).

(** The input of a port that no plugin has seen, and its output that has not
    left the server. *)
Definition inb (n : N) (ps : port_state) : list Z := partial ps ++ rx n (squid_fd ps).
Definition outb (n : N) (ps : port_state) : list Z :=
  tx n (squid_fd ps) ++ take (Z.to_nat (pending_response_size ps)) (pending_response ps).

(** Sockets other than [fd] are not touched. *)
Definition others (fd : Z) (n n' : N) : Prop :=
  forall g, g <> fd -> rx n' g = rx n g /\ tx n' g = tx n g.

Lemma others_refl fd n : others fd n n.
Proof. by split. Qed.
Lemma others_trans fd n1 n2 n3 : others fd n1 n2 -> others fd n2 n3 -> others fd n1 n3.
Proof. intros H1 H2 g Hg. destruct (H1 g Hg), (H2 g Hg). split; congruence. Qed.

Lemma wp_recv fd max Q (s : N * S) :
  0 <= max ->
  (forall r data n', others fd s.1 n' -> tx n' fd = tx s.1 fd ->
     (r < 0 -> rx n' fd = rx s.1 fd) ->
     (0 <= r -> r <= max /\ zlen data = r /\ bytes_ok data /\ rx s.1 fd = data ++ rx n' fd) ->
     Q (r, data) (n', s.2)) ->
  wp (c_recv fd max) Q s.
Proof.
  intros Hm HQ. unfold c_recv, net, wp. pose proof (recv_law fd max s.1 Hm) as HL.
  destruct (squid_recv fd max s.1) as [[r data] n']. destruct HL as (H1 & H2 & H3 & H4).
  apply HQ; auto. intros g Hg. auto.
Qed.

Lemma wp_send fd data Q (s : N * S) :
  (forall r n', others fd s.1 n' -> rx n' fd = rx s.1 fd ->
     tx n' fd = (if r <? 0 then tx s.1 fd else tx s.1 fd ++ data) -> Q r (n', s.2)) ->
  wp (c_send fd data) Q s.
Proof.
  intros HQ. unfold c_send, net, wp. pose proof (send_law fd data s.1) as HL.
  destruct (squid_send fd data s.1) as [r n']. destruct HL as (H1 & H2 & H3).
  apply HQ; auto. intros g Hg. auto.
Qed.

Lemma wp_call {A} (f : ST S A) Q (s : N * S) a w :
  f s.2 = Some (a, w) -> Q a (s.1, w) -> wp (call_plugin f) Q s.
Proof. intros Hf HQ. unfold wp, call_plugin. by rewrite Hf. Qed.

(** Outcome of the framing step: the unseen input is the same, except that a
    zero length byte is dropped; on success a whole packet is in the array. *)
Definition received (ps : port_state) (s : N * S) (res : Z * port_state) (s' : N * S) : Prop :=
  let '(r, ps') := res in
  s'.2 = s.2 /\ others (squid_fd ps) s.1 s'.1 /\ tx s'.1 (squid_fd ps) = tx s.1 (squid_fd ps) /\
  squid_fd ps' = squid_fd ps /\ pending_response ps' = pending_response ps /\
  pending_response_size ps' = pending_response_size ps /\ port_ok ps' /\
  (inb s'.1 ps' = inb s.1 ps \/ r <= 0 /\ inb s.1 ps = 0 :: inb s'.1 ps') /\
  (0 < r -> 0 < request_packet_expected ps' /\
     request_packet_size ps' = request_packet_expected ps').

Lemma receive_body_spec ps s :
  port_ok ps -> 0 < request_packet_expected ps ->
  wp (receive_body ps) (received ps s) s.
Proof.
  intros Hok Hexp. pose proof Hok as (Hl & Hb & Hpl & Hs & He & Hp). unfold receive_body.
  destruct (Z.ltb_spec (request_packet_size ps) (request_packet_expected ps)) as [Hlt|Hge].
  2: { apply wp_ret. split_and!; try done; [by left|]. intros _. lia. }
  rewrite u16_small by lia. apply wp_bind, wp_recv; [lia|]. intros r data n' Ho Ht Hneg Hpos.
  destruct (Z.ltb_spec r 0) as [Hr|Hr].
  { apply wp_ret. split_and!; try done. left. unfold inb. cbn [fst].
    by rewrite Hneg. }
  destruct (Hpos Hr) as (Hmax & Hdl & Hdb & Hrx).
  apply wp_bind. eapply wp_lift; [apply wr_bytes_at; unfold zlen in *; lia|]. apply wp_ret.
  assert (Hlen : length (take (Z.to_nat (request_packet_size ps)) (request_packet ps))
      = Z.to_nat (request_packet_size ps))
    by (rewrite length_take; lia).
  split_and!; try done; port_cbn; try lia.
  - split_and!; try done; port_cbn; try lia.
    + rewrite !length_app, Hlen, !length_drop. unfold zlen in *. lia.
    + rewrite !bytes_ok_app. auto with squid.
  - left. unfold inb, partial. port_cbn. rewrite Hrx. destruct (Z.eqb_spec (request_packet_expected ps) 0);
      [lia|]. cbn [app]. f_equal. rewrite !app_assoc. f_equal.
    rewrite <- app_assoc, (app_assoc _ data). apply take_app_length'.
    rewrite length_app, Hlen. unfold zlen in *. lia.
  - intros Hpos'. destruct (Z.eqb_spec (request_packet_size ps + r) (request_packet_expected ps)); lia.
Qed.

Lemma receive_spec ps s :
  port_ok ps -> wp (receive_plugin_packet ps) (received ps s) s.
Proof.
  intros Hok. pose proof Hok as (Hl & Hb & Hpl & Hs & He & Hp). unfold receive_plugin_packet.
  destruct (Z.eqb_spec (request_packet_expected ps) 0) as [E|E];
    [|apply receive_body_spec; [done|lia]].
  apply wp_bind, wp_recv; [lia|]. intros r data n' Ho Ht Hneg Hpos.
  destruct (Z.leb_spec r 0) as [Hr|Hr].
  { apply wp_ret. split_and!; try done; [|lia]. left. unfold inb. f_equal.
    destruct (decide (r < 0)) as [Hn|Hn]; [auto|].
    destruct Hpos as (_ & Hz & _ & ->); [lia|]. assert (Hz0 : zlen data = 0) by lia.
    by apply zlen_nil_inv in Hz0 as ->. }
  destruct Hpos as (Hmax & Hdl & Hdb & Hrx); [lia|].
  destruct data as [|w data]; [rewrite zlen_nil in Hdl; lia|].
  assert (data = []) as -> by (apply zlen_nil_inv; zlen_lia).
  apply Forall_cons_1 in Hdb as [Hw _]. unfold is_byte in Hw.
  apply wp_bind. eapply (wp_lift _ w); [apply rd_Some; [done|done|lia]|].
  assert (Hpart : partial ps = []) by (unfold partial; by rewrite E).
  destruct (Z.eqb_spec w 0) as [->|Hw0].
  { apply wp_ret. split_and!; try done. right. split; [done|]. unfold inb. rewrite Hpart, Hrx. done. }
  eapply wp_mono; [apply receive_body_spec; [|cbn; lia]|].
  { split_and!; try done; cbn; lia. }
  intros [r2 ps2] [n2 s2] (H1 & H2 & H3 & H4 & H5 & H6 & H7 & H8 & H9).
  port_cbn.
  split_and!; try done; port_cbn; [by eapply others_trans|congruence|].
  replace (inb s.1 ps) with (inb n' (set_request ps (request_packet ps) 0 w)); [done|].
  unfold inb. rewrite Hpart, Hrx. unfold partial. cbn. by destruct (Z.eqb_spec w 0).
Qed.

(** ** One turn of the dispatcher on one port *)

(** The bytes the server queues for a plugin's answer. *)
Definition answer_bytes (port r : Z) (b : server_packet_buffer) : list Z :=
  if (r =? 0) && (0 <? packet_size b) && (packet_data b =? response_address port)
     && (packet_size b <=? 255)
  then frame (take (Z.to_nat (packet_size b)) (packet_mem b)) else [].

(** The abstract machine of a port: nothing happens; a zero length byte is
    skipped; or the next packet of the input is handed to the plugin, once,
    and the answer goes to the end of the output. *)
Inductive port_step (h : option (handle_packet_fn S)) (port : Z)
    : list Z * list Z * S -> list Z * list Z * S -> Prop :=
| port_idle i o w : port_step h port (i, o, w) (i, o, w)
| port_skip i o w : port_step h port (0 :: i, o, w) (i, o, w)
| port_call f rq i o w array mem r b w' :
    h = Some f -> 0 < zlen rq <= 255 -> take (length rq) array = rq -> length mem = 255%nat ->
    f port (Some (PacketView (Some array) (zlen rq)))
      (Some (PacketBuffer (response_address port) mem 255 0)) w = Some ((r, Some b), w') ->
    port_step h port (frame rq ++ i, o, w) (i, o ++ answer_bytes port r b, w').

(** The streams of a port with a complete request and nothing pending. *)
Lemma request_inb ps (n : N) :
  port_ok ps -> 0 < request_packet_expected ps ->
  request_packet_size ps = request_packet_expected ps ->
  inb n ps = frame (take (Z.to_nat (request_packet_size ps)) (request_packet ps)) ++ rx n (squid_fd ps).
Proof.
  intros (Hl & _ & _ & Hs & He & _) Hexp Hfull. unfold inb, partial, frame.
  destruct (Z.eqb_spec (request_packet_expected ps) 0); [lia|].
  cbn [app]. f_equal. unfold zlen. rewrite length_take. lia.
Qed.
Lemma idle_outb ps (n : N) : pending_response_size ps = 0 -> outb n ps = tx n (squid_fd ps).
Proof. intros Hp. unfold outb. rewrite Hp. cbn [Z.to_nat]. by rewrite take_0, app_nil_r. Qed.

(** The plugin has been called with the request of [ps], and the port is [ps']. *)
Definition called f port ps (s : N * S) ps' (s' : N * S) (Inv : S -> Prop) : Prop :=
  port_ok ps' /\ squid_fd ps' = squid_fd ps /\ Inv s'.2 /\ others (squid_fd ps) s.1 s'.1 /\
  port_step (Some f) port (inb s.1 ps, outb s.1 ps, s.2) (inb s'.1 ps', outb s'.1 ps', s'.2).

Section call.
Context (Inv : S -> Prop) (f : handle_packet_fn S) (port : Z) (ps : port_state) (s : N * S).
Context (first : Z) (mem : list Z).
Context (r : Z) (b : server_packet_buffer) (w' : S).
Context (ok : port_ok ps) (full : 0 < request_packet_expected ps).
Context (complete : request_packet_size ps = request_packet_expected ps).
Context (idle : pending_response_size ps = 0) (mem_ok : pending_response ps = first :: mem).
Context (inv : Inv w').
Context (returns : f port (Some (PacketView (Some (request_packet ps)) (request_packet_size ps)))
  (Some (PacketBuffer (response_address port) mem server_packet_max 0)) s.2 = Some ((r, Some b), w')).
Context (same_length : length (packet_mem b) = length mem).

Lemma call_mem : length mem = 255%nat.
Proof. destruct ok as (_ & _ & Hpl & _). rewrite mem_ok in Hpl. cbn in Hpl. lia. Qed.

Lemma call_step ps' n' :
  squid_fd ps' = squid_fd ps -> request_packet_expected ps' = 0 ->
  rx n' (squid_fd ps) = rx s.1 (squid_fd ps) ->
  outb n' ps' = tx s.1 (squid_fd ps) ++ answer_bytes port r b ->
  port_step (Some f) port (inb s.1 ps, outb s.1 ps, s.2) (inb n' ps', outb n' ps', w').
Proof.
  intros Hfd Hexp' Hrx Hob. rewrite request_inb, idle_outb, Hob by done. unfold inb at 1, partial.
  rewrite Hexp', Hfd, Hrx. cbn [Z.eqb app]. destruct ok as (Hl & Hb & _ & Hs & He & _).
  assert (Hz : zlen (take (Z.to_nat (request_packet_size ps)) (request_packet ps)) = request_packet_size ps).
  { unfold zlen. rewrite length_take. lia. }
  pose proof returns as Hcall. rewrite <- Hz in Hcall. eapply port_call; [done| | |exact call_mem|exact Hcall].
  - lia.
  - unfold zlen in Hz. by replace (length (take _ _)) with (Z.to_nat (request_packet_size ps)) by lia.
Qed.

(** There is nothing to send. *)
Lemma call_quiet : answer_bytes port r b = [] ->
  wp (let! ps := ret (set_pending ps (first :: packet_mem b) (pending_response_size ps)) in
      ret (set_request ps (request_packet ps) 0 0)) (fun ps' s' => called f port ps s ps' s' Inv) (s.1, w').
Proof.
  intros Ha. pose proof call_mem. destruct ok as (Hl & Hb & Hpl & Hs & He & Hp).
  apply wp_bind, wp_ret, wp_ret. split_and!; try done; port_cbn.
  - split_and!; try done; port_cbn; try lia. cbn. lia.
  - apply call_step; try done. unfold outb. port_cbn. rewrite idle, Ha. done.
Qed.

(** The answer is framed and sent, or kept. *)
Lemma call_answer :
  0 < packet_size b <= 255 ->
  answer_bytes port r b = frame (take (Z.to_nat (packet_size b)) (packet_mem b)) ->
  wp (let! ps :=
        (let! pending := lift (wr (first :: packet_mem b) 0 (u8 (packet_size b))) in
         let! data := lift (static_bytes pending (u16 (packet_size b + 1))) in
         let! sent :=
           c_send (squid_fd (set_pending ps (first :: packet_mem b) (pending_response_size ps))) data in
         ret (set_pending (set_pending ps (first :: packet_mem b) (pending_response_size ps)) pending
                (if 0 <=? sent then 0 else packet_size b + 1))) in
      ret (set_request ps (request_packet ps) 0 0)) (fun ps' s' => called f port ps s ps' s' Inv) (s.1, w').
Proof.
  intros Hfit Hans. pose proof call_mem. destruct ok as (Hl & Hb & Hpl & Hs & He & Hp).
  assert (Hfr : take (Z.to_nat (packet_size b + 1)) (packet_size b :: packet_mem b)
    = answer_bytes port r b).
  { rewrite Hans. replace (Z.to_nat (packet_size b + 1)) with (Datatypes.S (Z.to_nat (packet_size b)))
      by lia. unfold frame. cbn [take]. f_equal. rewrite zlen_take. unfold zlen. lia. }
  apply wp_bind, wp_bind. rewrite (u8_small (packet_size b)) by lia.
  eapply (wp_lift _ (packet_size b :: packet_mem b)); [done|].
  rewrite (u16_small (packet_size b + 1)) by lia.
  apply wp_bind. eapply (wp_lift _ (answer_bytes port r b)).
  { unfold static_bytes. rewrite <- Hfr.
    destruct (Z.leb_spec (packet_size b + 1) (zlen (packet_size b :: packet_mem b))); [done|].
    rewrite zlen_cons in *. unfold zlen in *. lia. }
  apply wp_bind, wp_send. port_cbn. intros sent n' Ho Hrx Htx. apply wp_ret, wp_ret.
  split_and!; try done; port_cbn.
  - split_and!; try done; port_cbn; try lia; [cbn; lia|destruct (0 <=? sent); lia..].
  - apply call_step; try done. unfold outb. port_cbn. rewrite Htx.
    destruct (Z.leb_spec 0 sent), (Z.ltb_spec sent 0); try lia.
    + cbn [Z.to_nat]. by rewrite take_0, app_nil_r.
    + by rewrite Hfr.
Qed.
End call.


Lemma handle_request_spec (Inv : S -> Prop) f port ps s :
  SafePlugin Inv f -> 0 <= port -> port_ok ps -> Inv s.2 ->
  0 < request_packet_expected ps -> request_packet_size ps = request_packet_expected ps ->
  pending_response_size ps = 0 ->
  wp (handle_request port ps f) (fun ps' s' => called f port ps s ps' s' Inv) s.
Proof.
  intros Hf Hport Hok HI Hexp Hfull Hpend. pose proof Hok as (Hl & Hb & Hpl & Hs & He & Hp).
  unfold handle_request.
  destruct (pending_response ps) as [|first mem] eqn:Emem; [done|]. cbn in Hpl.
  assert (Hml : length mem = 255%nat) by lia.
  apply wp_bind. eapply (wp_lift _ first); [done|]. cbn [drop].
  assert (Hsafe := safe_packet port (PacketView (Some (request_packet ps)) (request_packet_size ps))
    (PacketBuffer (response_address port) mem server_packet_max 0) s.2 HI).
  destruct (proj1 (wp_inv _ _ _) (Hsafe
    ltac:(exists (request_packet ps); split_and!; try done; cbn; unfold zlen; lia)
    ltac:(split_and!; cbn; unfold response_address, server_packet_max, zlen; lia)))
    as ([r bo] & w' & Hcall & HI' & b & Hbo & Hbl & Hbs). cbn in Hbo, Hbl, Hbs. subst bo.
  apply wp_bind. eapply wp_call; [exact Hcall|].
  apply wp_bind. eapply (wp_lift _ b); [done|].
  assert (Hans : answer_bytes port r b = if (r =? 0) && (0 <? packet_size b) &&
    (packet_data b =? response_address port) && (packet_size b <=? 255)
    then frame (take (Z.to_nat (packet_size b)) (packet_mem b)) else []) by done.
  destruct (Z.eqb_spec r 0) as [->|Hr]; [specialize (Hbs eq_refl)|by eapply call_quiet].
  destruct (Z.ltb_spec 0 (packet_size b)) as [Hpos|Hzero]; [|by eapply call_quiet].
  destruct (packet_data b =? response_address port); [|by eapply call_quiet].
  unfold server_packet_max.
  destruct (Z.ltb_spec 255 (packet_size b)), (Z.leb_spec (packet_size b) 255); try lia;
    cbn [andb orb negb] in *; [by eapply call_quiet|by eapply call_answer].
Qed.

(** The packet handler registered on a port. *)
Definition handler (reg : list (server_plugin_slot plugin)) (port : Z)
    : option (handle_packet_fn S) :=
  match mapped reg port with Some p => plugin_handle_packet p | None => None end.

Definition handlers_safe (Inv : S -> Prop) (reg : list (server_plugin_slot plugin)) : Prop :=
  forall port f, handler reg port = Some f -> SafePlugin Inv f.

(** What a turn leaves of the port it served. *)
Definition served Inv reg port ps (s : N * S) ps' (s' : N * S) : Prop :=
  port_ok ps' /\ squid_fd ps' = squid_fd ps /\ Inv s'.2 /\ others (squid_fd ps) s.1 s'.1 /\
  port_step (handler reg port) port
    (inb s.1 ps, outb s.1 ps, s.2) (inb s'.1 ps', outb s'.1 ps', s'.2).

(** The turn of a port with nothing left to send. *)
Lemma dispatch_request_spec (Inv : S -> Prop) reg port ps s ps1 n1 :
  registry_ok reg -> handlers_safe Inv reg -> 0 <= port <= 15 -> Inv s.2 ->
  port_ok ps1 -> squid_fd ps1 = squid_fd ps -> pending_response_size ps1 = 0 ->
  others (squid_fd ps) s.1 n1 -> inb n1 ps1 = inb s.1 ps -> outb n1 ps1 = outb s.1 ps ->
  wp (let! '(packet_ready, ps) := receive_plugin_packet ps1 in
      if packet_ready <=? 0 then ret ps
      else
        let! found := lift (find_server_plugin (Some reg) port) in
        match found with
        | None => ret ps
        | Some plugin =>
            match plugin_handle_packet plugin with
            | None => ret ps
            | Some handle_packet => handle_request port ps handle_packet
            end
        end) (served Inv reg port ps s) (n1, s.2).
Proof.
  intros Hreg Hsafe Hport HI Hok1 Hfd1 Hp1 Ho1 Hin1 Hout1. apply wp_bind.
  eapply wp_mono; [by apply receive_spec|].
  intros [r ps2] [n2 w2] (Hw & Ho2 & Htx & Hfd2 & Hpr & Hps & Hok2 & Hin & Hfull). port_cbn.
  subst w2. rewrite Hfd1 in *.
  assert (Ho : others (squid_fd ps) s.1 n2) by (by eapply others_trans).
  assert (Hout2 : outb n2 ps2 = outb s.1 ps).
  { rewrite <- Hout1. unfold outb. by rewrite Hfd2, Hfd1, Hpr, Hps, Htx. }
  rewrite Hin1 in Hin.
  assert (Hidle : inb n2 ps2 = inb s.1 ps \/ inb s.1 ps = 0 :: inb n2 ps2 ->
    wp (ret ps2) (served Inv reg port ps s) (n2, s.2)).
  { intros Hi. apply wp_ret. split_and!; try done. port_cbn. rewrite Hout2.
    destruct Hi as [->| ->]; constructor. }
  destruct (Z.leb_spec r 0) as [Hr|Hr]; [apply Hidle; tauto|].
  destruct Hin as [Hin|[? _]]; [|lia]. destruct (Hfull Hr) as [Hf1 Hf2].
  apply wp_bind. eapply wp_lift; [by apply find_eq|].
  destruct (mapped reg port) as [p|] eqn:Em; [|auto].
  destruct (plugin_handle_packet p) as [f|] eqn:Ef; [|auto].
  assert (Hh : handler reg port = Some f) by (unfold handler; by rewrite Em).
  eapply wp_mono; [eapply (handle_request_spec Inv); try done; try lia; by eapply Hsafe|].
  intros ps3 s3 (Hok3 & Hfd3 & HI3 & Ho3 & Hst). port_cbn. rewrite Hfd2 in *.
  split_and!; try done; [by eapply others_trans|]. by rewrite Hh, <- Hin, <- Hout2.
Qed.

Lemma dispatch_port_spec (Inv : S -> Prop) reg port ps s :
  registry_ok reg -> handlers_safe Inv reg -> 0 <= port <= 15 -> port_ok ps -> Inv s.2 ->
  0 <= squid_fd ps ->
  wp (dispatch_port reg port ps) (served Inv reg port ps s) s.
Proof.
  intros Hreg Hsafe Hport Hok HI Hfd. unfold dispatch_port.
  destruct (Z.ltb_spec (squid_fd ps) 0); [lia|].
  pose proof Hok as (Hl & Hb & Hpl & Hs & He & Hp).
  apply wp_bind. destruct (Z.ltb_spec 0 (pending_response_size ps)).
  2: { apply wp_ret. destruct s as [n w]. apply dispatch_request_spec; try done; lia. }
  rewrite u16_small by lia. apply wp_bind.
  eapply (wp_lift _ (take (Z.to_nat (pending_response_size ps)) (pending_response ps))).
  { unfold static_bytes. destruct (Z.leb_spec (pending_response_size ps) (zlen (pending_response ps)));
      [done|unfold zlen in *; lia]. }
  apply wp_bind, wp_send. intros sent n1 Ho1 Hrx1 Htx1. destruct (Z.ltb_spec sent 0).
  - apply wp_ret, wp_ret. split_and!; try done. port_cbn.
    unfold inb, outb. rewrite Hrx1, Htx1. constructor.
  - apply wp_ret. apply dispatch_request_spec; try done.
    + unfold inb. port_cbn. by rewrite Hrx1.
    + unfold outb. port_cbn. rewrite Htx1. cbn [Z.to_nat]. by rewrite take_0, app_nil_r.
Qed.

(** ** The pass over all ports *)

(** Unseen input and untransmitted output of every port with a socket. *)
Definition streams (n : N) (ports : list port_state) (port : Z) : list Z * list Z :=
  match ports !! Z.to_nat port with
  | Some ps => if squid_fd ps <? 0 then ([], []) else (inb n ps, outb n ps)
  | None => ([], [])
  end.

(** One port of the machine makes a step; the others keep their streams. *)
Inductive machine_step (reg : list (server_plugin_slot plugin))
    : (Z -> list Z * list Z) * S -> (Z -> list Z * list Z) * S -> Prop :=
| machine_port port st st' w w' :
    0 <= port <= 15 ->
    port_step (handler reg port) port (st port, w) (st' port, w') ->
    (forall q, 0 <= q -> q <> port -> st' q = st q) ->
    machine_step reg (st, w) (st', w').

(** No two ports share a socket. *)
Definition distinct_fds (ports : list port_state) : Prop :=
  forall i j a b, ports !! i = Some a -> ports !! j = Some b ->
    0 <= squid_fd a -> squid_fd a = squid_fd b -> i = j.

Definition ports_ok (ports : list port_state) : Prop :=
  length ports = 16%nat /\ Forall port_ok ports /\ distinct_fds ports.

Lemma ports_ok_insert ports i ps ps' :
  ports_ok ports -> ports !! i = Some ps -> port_ok ps' -> squid_fd ps' = squid_fd ps ->
  ports_ok (<[i := ps']> ports).
Proof.
  intros (Hl & Hf & Hd) Hi Hok Hfd. split_and!.
  - by rewrite length_insert.
  - by apply Forall_insert.
  - intros a b x y Ha Hb Hx Hxy.
    apply list_lookup_insert_Some in Ha as [(<- & <- & _)|[Hna Ha]];
    apply list_lookup_insert_Some in Hb as [(<- & <- & _)|[Hnb Hb]]; try done;
      try (eapply Hd; [eassumption|eassumption|lia|congruence]).
Qed.

Lemma dispatch_loop_spec Inv reg : forall todo port ports s,
  registry_ok reg -> handlers_safe Inv reg -> 0 <= port -> port + Z.of_nat todo <= 16 ->
  ports_ok ports -> Inv s.2 ->
  wp (for_ports todo port (dispatch_port reg) ports) (fun ports' s' =>
    ports_ok ports' /\ Inv s'.2 /\
    rtc (machine_step reg) (streams s.1 ports, s.2) (streams s'.1 ports', s'.2)) s.
Proof.
  induction todo as [|todo IH]; intros port ports s Hreg Hsafe Hp Hle Hok HI; cbn [for_ports].
  { apply wp_ret. split_and!; try done. }
  pose proof Hok as (Hl & Hf & Hd).
  destruct (lookup_lt_is_Some_2 ports (Z.to_nat port)) as [ps Hps]; [lia|].
  apply wp_bind. eapply wp_lift; [exact Hps|]. apply wp_bind.
  destruct (Z.ltb_spec (squid_fd ps) 0) as [Hneg|Hpos].
  { unfold dispatch_port at 1. destruct (Z.ltb_spec (squid_fd ps) 0); [|lia]. apply wp_ret.
    rewrite list_insert_id by done. apply IH; (done || lia). }
  eapply wp_mono; [apply (dispatch_port_spec Inv); try done; try lia;
    by eapply Forall_lookup_1|].
  intros ps' s1 (Hok' & Hfd & HI1 & Ho & Hst).
  eapply wp_mono; [apply IH; try done; try lia; by eapply ports_ok_insert|].
  intros ports' s' (Hok2 & HI2 & Hr). split_and!; try done.
  eapply rtc_l; [|exact Hr]. apply (machine_port reg port); [lia| |].
  - unfold streams. rewrite Hps, list_lookup_insert_eq, Hfd by lia.
    destruct (Z.ltb_spec (squid_fd ps) 0); [lia|]. exact Hst.
  - intros q Hq Hne. unfold streams. rewrite list_lookup_insert_ne by lia.
    destruct (ports !! Z.to_nat q) as [qs|] eqn:Eq; [|done].
    destruct (Z.ltb_spec (squid_fd qs) 0); [done|].
    destruct (Ho (squid_fd qs)) as [Hrx Htx].
    { intros E. assert (Z.to_nat q = Z.to_nat port) by (by eapply Hd). lia. }
    unfold inb, outb. by rewrite Hrx, Htx.
Qed.

(** ** Properties of the dispatcher *)

(** C5. One pass of [dispatch_received_packets] over the ports, on any state of
    the sockets and any memory-safe plugins, has no undefined behaviour and is
    a sequence of steps of the stream machine: packets are cut out of each
    port's byte stream at their length bytes, in order and without loss (a
    zero length byte is skipped), every packet is handed exactly once to the
    plugin of its own port, its answer is framed and added at the end of that
    port's output, an answer the socket cannot take yet is kept and never
    overwritten, invalid answers are dropped, and no port touches the streams
    of another. *)
Theorem dispatch_refines (Inv : S -> Prop) (rt : server_runtime plugin) s :
  registry_ok (plugin_registry rt) -> handlers_safe Inv (plugin_registry rt) ->
  ports_ok (rt_ports rt) -> Inv s.2 ->
  wp (dispatch_received_packets rt) (fun rt' s' =>
    plugin_registry rt' = plugin_registry rt /\ ports_ok (rt_ports rt') /\ Inv s'.2 /\
    rtc (machine_step (plugin_registry rt))
      (streams s.1 (rt_ports rt), s.2) (streams s'.1 (rt_ports rt'), s'.2)) s.
Proof.
  intros Hreg Hsafe Hok HI. unfold dispatch_received_packets, each_plugin_port.
  apply wp_bind. eapply wp_mono; [apply (dispatch_loop_spec Inv); try done|].
  intros ports s' (Hok' & HI' & Hr). by apply wp_ret.
Qed.

(** *** The loop *)

Definition clean (ps : port_state) : Prop :=
  request_packet_size ps = 0 /\ request_packet_expected ps = 0 /\ pending_response_size ps = 0.

(** Ports 1..15 carry nothing over from an earlier link. *)
Definition all_clean (ports : list port_state) : Prop :=
  forall i ps, (1 <= i <= 15)%nat -> ports !! i = Some ps -> clean ps.

Definition loop_inv (Inv : S -> Prop) (l : loop_state (N := N) (S := S)) : Prop :=
  registry_ok (plugin_registry (lp_runtime l)) /\
  handlers_safe Inv (plugin_registry (lp_runtime l)) /\
  ports_ok (rt_ports (lp_runtime l)) /\ Inv (lp_world l).2 /\
  (lp_phase l = Handshake -> keep_running l = true -> all_clean (rt_ports (lp_runtime l))).

Definition reset_port (ps : port_state) : port_state :=
  set_pending (set_request ps (request_packet ps) 0 0) (pending_response ps) 0.

Lemma reset_loop todo : forall port ports (s : N * S),
  0 <= port -> port + Z.of_nat todo <= 16 -> ports_ok ports ->
  wp (for_ports todo port (fun _ ps => ret (reset_port ps)) ports) (fun ports' s' =>
    s' = s /\ ports_ok ports' /\
    (forall i ps, ports' !! i = Some ps ->
       if decide (Z.to_nat port <= i < Z.to_nat port + todo)%nat then clean ps
       else ports !! i = Some ps)) s.
Proof.
  induction todo as [|todo IH]; intros port ports s Hp Hle Hok; cbn [for_ports].
  { apply wp_ret. split_and!; try done. intros i ps Hi. by rewrite decide_False by lia. }
  pose proof Hok as (Hl & Hf & _).
  destruct (lookup_lt_is_Some_2 ports (Z.to_nat port)) as [ps Hps]; [lia|].
  apply wp_bind. eapply wp_lift; [exact Hps|]. apply wp_bind, wp_ret.
  assert (Hpk : port_ok (reset_port ps)).
  { pose proof (Forall_lookup_1 _ _ _ _ Hf Hps) as (?&?&?&?&?&?).
    split_and!; try done; unfold reset_port; port_cbn; lia. }
  eapply wp_mono; [apply IH; try lia; by eapply ports_ok_insert|].
  intros ports' s' (-> & Hok' & Hr). split_and!; try done. intros i q Hi. specialize (Hr i q Hi).
  destruct (decide (i = Z.to_nat port)) as [->|Hne].
  - rewrite decide_False in Hr by lia. rewrite decide_True by lia.
    rewrite list_lookup_insert_eq in Hr by lia. injection Hr as <-. done.
  - rewrite list_lookup_insert_ne in Hr by done. repeat case_decide; try done; lia.
Qed.

Lemma reset_ports_spec (rt : server_runtime plugin) (s : N * S) :
  ports_ok (rt_ports rt) ->
  wp (reset_ports rt) (fun rt' s' => s' = s /\ plugin_registry rt' = plugin_registry rt /\
    ports_ok (rt_ports rt') /\ all_clean (rt_ports rt')) s.
Proof.
  intros Hok. unfold reset_ports, each_plugin_port. apply wp_bind.
  eapply wp_mono; [apply (reset_loop 15 1); (done || lia)|].
  intros ports s' (-> & Hok' & Hr). apply wp_ret. split_and!; try done.
  intros i ps Hi Hps. specialize (Hr i ps Hps). cbn in Hr. by rewrite decide_True in Hr by lia.
Qed.

Lemma wp_net {A} (f : N -> A * N) Q (s : N * S) :
  (forall a n, Q a (n, s.2)) -> wp (net f) Q s.
Proof. intros HQ. unfold wp, net. destruct (f s.1). apply HQ. Qed.

Lemma iteration_spec Inv (rt : server_runtime plugin) (s : N * S) :
  registry_ok (plugin_registry rt) -> handlers_safe Inv (plugin_registry rt) ->
  ports_ok (rt_ports rt) -> Inv s.2 ->
  wp (dispatch_iteration rt) (fun r s' => plugin_registry r.1 = plugin_registry rt /\
    ports_ok (rt_ports r.1) /\ Inv s'.2) s.
Proof.
  intros Hreg Hsafe Hok HI. unfold dispatch_iteration. apply wp_bind, wp_net. intros [] n1.
  apply wp_bind. unfold dispatch_received_packets, each_plugin_port. apply wp_bind.
  eapply wp_mono; [apply (dispatch_loop_spec Inv); try done|].
  intros ports s' (Hok' & HI' & _). apply wp_ret. apply wp_bind, wp_net. intros [] n2.
  apply wp_bind. unfold wait_for_transport. apply wp_bind, wp_net. intros r n3.
  by apply wp_ret, wp_ret.
Qed.

Lemma handshake_spec (Inv : S -> Prop) (s : N * S) :
  Inv s.2 -> wp handshake_iteration (fun _ s' => Inv s'.2) s.
Proof.
  intros HI. unfold handshake_iteration, wait_for_transport. apply wp_bind, wp_net. intros [] n1.
  apply wp_bind, wp_net. intros r n2. by apply wp_ret.
Qed.

Lemma loop_inv_turn Inv l l' : loop_inv Inv l -> loop_turn l l' -> loop_inv Inv l'.
Proof.
  intros (Hreg & Hsafe & Hok & HI & Hcl) Hst.
  destruct Hst as [rt s keep s' Hup Hit|rt s Hup|rt s|rt s rt' keep s' Hup Hit|rt s Hup
    |keep rt s rt' s' Hup Hit];
    cbn [lp_phase lp_runtime lp_world keep_running] in *.
  - split_and!; try done; cbn; [|intros; by apply Hcl].
    pose proof (handshake_spec Inv s HI) as Hw. unfold wp in Hw. by rewrite Hit in Hw.
  - by split_and!.
  - by split_and!.
  - pose proof (iteration_spec Inv rt s Hreg Hsafe Hok HI) as Hw. unfold wp in Hw.
    rewrite Hit in Hw. destruct Hw as (Heq & Hok' & HI'). cbn in *.
    split_and!; try done; cbn; by rewrite Heq.
  - by split_and!.
  - pose proof (reset_ports_spec rt s Hok) as Hw. unfold wp in Hw. rewrite Hit in Hw.
    destruct Hw as (-> & Heq & Hok' & Hall). split_and!; try done; cbn; by rewrite ?Heq.
Qed.

Lemma loop_inv_step Inv l l' : loop_inv Inv l -> loop_step l l' -> loop_inv Inv l'.
Proof.
  intros Hi Hst. destruct Hst as [l l' Ht|ph rt s]; [by eapply loop_inv_turn|].
  destruct Hi as (Hreg & Hsafe & Hok & HI & Hcl). by split_and!.
Qed.

(** Unless it has returned, the loop can always take its next turn. *)
Lemma loop_progress Inv l :
  loop_inv Inv l -> lp_phase l <> Returned -> exists l', loop_turn l l'.
Proof.
  intros (Hreg & Hsafe & Hok & HI & _) Hph. destruct l as [ph keep rt s].
  cbn [lp_phase lp_runtime lp_world keep_running] in *.
  destruct ph; [| |done].
  - destruct keep; [|by eexists; apply step_return].
    destruct (snet_link_is_up s.1) eqn:Eup; [by eexists; apply step_up|].
    pose proof (handshake_spec Inv s HI) as Hw.
    apply wp_inv in Hw as (k & s' & Hit & _). eexists. by eapply step_wait.
  - destruct (snet_link_is_up s.1) eqn:Eup.
    + destruct keep; [|by eexists; apply step_leave].
      pose proof (iteration_spec Inv rt s Hreg Hsafe Hok HI) as Hw.
      apply wp_inv in Hw as ([rt' k] & s' & Hit & _). eexists. by eapply step_serve.
    + pose proof (reset_ports_spec rt s Hok) as Hw.
      apply wp_inv in Hw as (rt' & s' & Hit & _). eexists. by eapply step_lost.
Qed.

(** C30. The dispatch loop is safe and never stuck: in every state reachable
    from a well-formed start the runtime is well formed and the plugins'
    invariant holds, and unless the loop has returned it can take its next turn (so
    no memory error is possible in any interleaving of link changes, packets
    and signals).  Whenever it waits for a handshake, no partial request and
    no unsent response of an earlier link is left on any plugin port. *)
Theorem dispatch_loop_safe Inv (l l' : loop_state (N := N) (S := S)) :
  loop_inv Inv l -> rtc loop_step l l' ->
  loop_inv Inv l' /\ (lp_phase l' <> Returned -> exists l'', loop_turn l' l'').
Proof.
  intros Hi Hr. assert (Hi' : loop_inv Inv l').
  { induction Hr; [done|]. eauto using loop_inv_step. }
  split; [done|]. by apply loop_progress with (Inv := Inv).
Qed.
End props.

(** ** A run with two queues per socket *)

Record queues := Queues { q_rx : Z -> list Z; q_tx : Z -> list Z }.
Definition q_set (f : Z -> list Z) (fd : Z) (l : list Z) : Z -> list Z :=
  fun g => if g =? fd then l else f g.

#[local] Instance queue_squid : Squid queues := {
  squid_open _ _ n := (0, n);
  squid_bind _ _ n := (0, n);
  squid_close _ n := n;
  squid_send fd data n :=
    if 256 <? zlen (q_tx n fd ++ data) then (-1, n)
    else (zlen data, Queues (q_rx n) (q_set (q_tx n) fd (q_tx n fd ++ data)));
  squid_recv fd max n :=
    let data := take (Z.to_nat max) (q_rx n fd) in
    if forallb (fun x => (0 <=? x) && (x <? 256)) data
    then (zlen data, data, Queues (q_set (q_rx n) fd (drop (Z.to_nat max) (q_rx n fd))) (q_tx n))
    else (-1, [], n);
  snet_burst n := n;
  snet_link_is_up _ := true;
  transport_wait n := (0, n) }.

#[local] Instance queue_laws : SquidLaws queues q_rx q_tx.
Proof.
  split.
  - intros fd max n Hm. cbn. set (data := take _ _).
    destruct (forallb _ data) eqn:E; cbn; [|split_and!; (done || lia)].
    unfold q_set. split_and!; [done| | |].
    + intros g Hg. by destruct (Z.eqb_spec g fd).
    + pose proof (zlen_nonneg data). lia.
    + intros _. rewrite Z.eqb_refl. split_and!; [|done|by apply bytes_ok_dec|].
      * subst data. rewrite zlen_take. lia.
      * subst data. by rewrite take_drop.
  - intros fd data n. cbn. destruct (256 <? _); cbn; [by split_and!|]. unfold q_set.
    pose proof (zlen_nonneg data). split_and!; [done| |].
    + intros g Hg. by destruct (Z.eqb_spec g fd).
    + rewrite Z.eqb_refl. by destruct (Z.ltb_spec (zlen data) 0); [lia|].
Qed.

Definition echo_registry : list (server_plugin_slot (server_plugin unit)) :=
  <[1%nat := Slot 1 (Some echo_plugin)]>
    (imap (fun i _ => Slot (Z.of_nat i) None) (replicate 16 tt)).
(** Port 1 has socket 0; two requests have arrived, the second incomplete. *)
Definition echo_runtime : server_runtime (server_plugin unit) :=
  Runtime (<[1%nat := set_fd zero_port 0]> (replicate 16 zero_port)) echo_registry.
Definition echo_net : queues :=
  Queues (fun fd => if fd =? 0 then [3; 97; 98; 99; 2; 100] else []) (fun _ => []).

Lemma echo_registry_ok : registry_ok echo_registry.
Proof.
  apply (registry_ok_insert _ 1); [|lia].
  by apply (init_registry_ok (replicate 16 (Slot 0 (@None (server_plugin unit))))).
Qed.

Lemma echo_handlers_safe : handlers_safe (fun _ => True) echo_registry.
Proof.
  intros port f Hf. unfold handler, mapped in Hf.
  destruct (echo_registry !! slot_index port) as [slot|] eqn:E; [|done].
  assert (Hall : Forall (fun sl => slot_plugin sl = None \/ slot_plugin sl = Some echo_plugin)
    echo_registry) by (repeat constructor; (by left) || (by right)).
  pose proof (Forall_lookup_1 _ _ _ _ Hall E) as [Hn|Hn]; rewrite Hn in Hf; [done|].
  injection Hf as <-. apply _.
Qed.

Lemma echo_ports_ok : ports_ok (rt_ports echo_runtime).
Proof.
  assert (Hz : port_ok zero_port) by (split_and!; closed).
  split_and!; [done| |].
  - apply Forall_insert; [by apply Forall_replicate|]. done.
  - assert (Hfd : forall i ps, rt_ports echo_runtime !! i = Some ps -> 0 <= squid_fd ps -> i = 1%nat).
    { intros i ps Hi Hp. apply list_lookup_insert_Some in Hi as [(<- & _)|[_ Hi]]; [done|].
      apply lookup_replicate in Hi as [-> _]. cbn in Hp. lia. }
    intros i j a b Hi Hj Ha Hab. rewrite (Hfd i a Hi Ha). symmetry. eapply Hfd; [done|lia].
Qed.

Lemma dispatch_refines_witness :
  wp (dispatch_received_packets echo_runtime) (fun rt' s' =>
    plugin_registry rt' = echo_registry /\ ports_ok (rt_ports rt') /\ True /\
    rtc (machine_step echo_registry)
      (streams (rx := q_rx) (tx := q_tx) echo_net (rt_ports echo_runtime), tt)
      (streams (rx := q_rx) (tx := q_tx) s'.1 (rt_ports rt'), s'.2)) (echo_net, tt).
Proof.
  apply (dispatch_refines (rx := q_rx) (tx := q_tx) (fun _ => True) echo_runtime (echo_net, tt));
    [apply echo_registry_ok|apply echo_handlers_safe|apply echo_ports_ok|done].
Defined.

Lemma dispatch_loop_safe_witness :
  loop_inv (fun _ => True) (LoopState Linked true echo_runtime (echo_net, tt)) /\
  (Linked <> Returned ->
   exists l'', loop_turn (LoopState Linked true echo_runtime (echo_net, tt)) l'').
Proof.
  apply (dispatch_loop_safe (rx := q_rx) (tx := q_tx) (fun _ => True)
    (LoopState Linked true echo_runtime (echo_net, tt))); [|apply rtc_refl].
  split_and!; [apply echo_registry_ok|apply echo_handlers_safe|apply echo_ports_ok|done|done].
Defined.
