(* ===== verification/Serial.v ===== *)
(** The serial transport (src/transport/serial/serial_transport.c): the
    transmit ring between libsquid and the terminal driver, the line
    settings, and the open/activate/wait/close life cycle.  The terminal
    driver is a parameter. *)
From stdpp Require Import base numbers list option gmap.
From Stdlib Require Import ZArith Lia.
From S2P Require Import Prelude CLib.

Local Open Scope Z_scope.
Local Open Scope squid_scope.

Definition serial_transport_device_path_max : Z := 64.
Definition serial_transport_tx_capacity : Z := 4096.

Definition serial_parity_none : Z := 0.
Definition serial_parity_even : Z := 1.
Definition serial_parity_odd : Z := 2.
Definition serial_flow_none : Z := 0.
Definition serial_flow_rtscts : Z := 1.
Definition serial_flow_xonxoff : Z := 2.

(** ** <termios.h>, <poll.h> and <errno.h> on Linux *)

Definition B1200 : Z := 9.
Definition B2400 : Z := 11.
Definition B4800 : Z := 12.
Definition B9600 : Z := 13.
Definition B19200 : Z := 14.
Definition B38400 : Z := 15.
Definition B57600 : Z := 4097.
Definition B115200 : Z := 4098.

Definition CSIZE : Z := 0x30.
Definition CS7 : Z := 0x20.
Definition CS8 : Z := 0x30.
Definition CSTOPB : Z := 0x40.
Definition CREAD : Z := 0x80.
Definition PARENB : Z := 0x100.
Definition PARODD : Z := 0x200.
Definition CLOCAL : Z := 0x800.
Definition CRTSCTS : Z := 0x80000000.
Definition INLCR : Z := 0x40.
Definition ICRNL : Z := 0x100.
Definition IXON : Z := 0x400.
Definition IXANY : Z := 0x800.
Definition IXOFF : Z := 0x1000.
Definition ISIG : Z := 0x1.
Definition ICANON : Z := 0x2.
Definition ECHO : Z := 0x8.
Definition ECHOE : Z := 0x10.
Definition OPOST : Z := 0x1.
Definition ONLCR : Z := 0x4.

Definition POLLIN : Z := 1.
Definition POLLOUT : Z := 4.
Definition POLLERR : Z := 8.
Definition POLLHUP : Z := 16.
Definition POLLNVAL : Z := 32.

Definition EINTR : Z := 4.
Definition EAGAIN : Z := 11.
Definition EWOULDBLOCK : Z := 11.

Record termios := Termios {
  c_iflag : Z; c_oflag : Z; c_cflag : Z; c_lflag : Z;
  c_vmin : Z; c_vtime : Z; c_ispeed : Z; c_ospeed : Z }.

(** The calls on the terminal.  [tty_read] reads one byte; [tty_write] gives
    the result and [errno]; [tty_poll] the result, [errno] and [revents]. *)
Class Tty (W : Type) := {
  tty_open : list Z -> W -> Z * W;
  tty_close : Z -> W -> W;
  tcgetattr : Z -> W -> option termios;
  tcsetattr : Z -> termios -> W -> Z * W;
  tty_read : Z -> W -> option Z * W;
  tty_write : Z -> list Z -> W -> Z * Z * W;
  tty_poll : Z -> Z -> Z -> W -> Z * Z * Z * W;
  clock_monotonic : W -> Z * Z }.

(** ** Line settings *)

Record serial_transport_config := SerialConfig {
  cfg_device : option (list Z);
  cfg_baud : Z; cfg_databits : Z; cfg_parity : Z; cfg_stopbits : Z; cfg_flow : Z }.

Definition map_baud_rate (baud : Z) : Z :=
  if baud =? 1200 then B1200
  else if baud =? 2400 then B2400
  else if baud =? 4800 then B4800
  else if baud =? 9600 then B9600
  else if baud =? 19200 then B19200
  else if baud =? 38400 then B38400
  else if baud =? 57600 then B57600
  else if baud =? 115200 then B115200
  else B9600.

(** [flags &= ~(tcflag_t)mask] and [flags |= (tcflag_t)mask]. *)
Definition clear_flags (flags mask : Z) : Z := Z.ldiff flags mask.
Definition set_flags (flags mask : Z) : Z := Z.lor flags mask.

(** The settings [configure_port] installs, from the saved ones. *)
Definition line_settings (cfg : serial_transport_config) (saved_tty : termios) : termios :=
  let cflag := clear_flags (c_cflag saved_tty)
    (Z.lor CSIZE (Z.lor PARENB (Z.lor PARODD (Z.lor CSTOPB CRTSCTS)))) in
  let cflag := set_flags cflag (Z.lor CREAD CLOCAL) in
  let iflag := clear_flags (c_iflag saved_tty)
    (Z.lor IXON (Z.lor IXOFF (Z.lor IXANY (Z.lor ICRNL INLCR)))) in
  let lflag := clear_flags (c_lflag saved_tty)
    (Z.lor ICANON (Z.lor ECHO (Z.lor ECHOE ISIG))) in
  let oflag := clear_flags (c_oflag saved_tty) (Z.lor OPOST ONLCR) in
  let cflag := set_flags cflag (if cfg_databits cfg =? 7 then CS7 else CS8) in
  let cflag :=
    if cfg_parity cfg =? serial_parity_even then set_flags cflag PARENB
    else if cfg_parity cfg =? serial_parity_odd then set_flags cflag (Z.lor PARENB PARODD)
    else cflag in
  let cflag := if cfg_stopbits cfg =? 2 then set_flags cflag CSTOPB else cflag in
  let cflag := if cfg_flow cfg =? serial_flow_rtscts then set_flags cflag CRTSCTS else cflag in
  let iflag :=
    if cfg_flow cfg =? serial_flow_xonxoff then set_flags iflag (Z.lor IXON IXOFF) else iflag in
  Termios iflag oflag cflag lflag 0 0
    (map_baud_rate (cfg_baud cfg)) (map_baud_rate (cfg_baud cfg)).

(** ** struct server_serial_transport *)

Record transport := Transport {
  t_fd : Z;
  t_device : list Z;
  t_config : serial_transport_config;
  saved_tty : termios;
  tx_queue : list Z;
  tx_head : Z;
  tx_count : Z }.

(** The program's serial transports, by address, the file-scope pointer
    [active_transport], and the kernel. *)
Record serial_state (W : Type) := SerialState {
  active_transport : option nat;
  transports : gmap nat transport;
  kernel : W }.
Arguments SerialState {W} _ _ _.
Arguments active_transport {W} _.
Arguments transports {W} _.
Arguments kernel {W} _.

Definition set_tx (t : transport) (queue : list Z) (head count : Z) : transport :=
  Transport (t_fd t) (t_device t) (t_config t) (saved_tty t) queue head count.
Definition set_tty_fd (t : transport) (fd : Z) (saved : termios) : transport :=
  Transport fd (t_device t) (t_config t) saved (tx_queue t) (tx_head t) (tx_count t).

Section serial.
Context {W : Type} `{Tty W}.
Abbreviation M := (ST (serial_state W)).

Definition kernel_call {A} (f : W -> A * W) : M A := fun s =>
  let '(a, w) := f (kernel s) in Some (a, SerialState (active_transport s) (transports s) w).
(** [*transport]; a pointer to no transport is undefined behaviour. *)
Definition load (p : nat) : M transport := fun s =>
  match transports s !! p with Some t => Some (t, s) | None => None end.
Definition store (p : nat) (t : transport) : M unit := fun s =>
  Some (tt, SerialState (active_transport s) (<[p := t]> (transports s)) (kernel s)).

(** *** The libsquid hooks *)

Definition serial_send_char (c : Z) : M Z :=
  let! s := get in
  match active_transport s with
  | None => ret (-1)
  | Some p =>
      let! t := load p in
      if serial_transport_tx_capacity <=? tx_count t then ret (-1)
      else
        let tail := u64 (tx_head t + tx_count t) mod serial_transport_tx_capacity in
        let! queue := lift (wr (tx_queue t) tail c) in
        do! store p (set_tx t queue (tx_head t) (tx_count t + 1));
        ret 0
  end.

Definition serial_recv_char : M Z :=
  let! s := get in
  match active_transport s with
  | None => ret (-1)
  | Some p =>
      let! t := load p in
      let! c := kernel_call (tty_read (t_fd t)) in
      ret (match c with Some c => c | None => -1 end)
  end.

Definition serial_get_tick (w : W) : Z :=
  let '(tv_sec, tv_nsec) := clock_monotonic w in
  u8 (Z.land (u64 (u64 (tv_sec * 50) + tv_nsec / 20000000)) 255).

(** *** Life cycle *)

Definition configure_port (fd : Z) (cfg : serial_transport_config) (p : nat) : M Z :=
  let! s := get in
  match tcgetattr fd (kernel s) with
  | None => ret (-1)
  | Some tty =>
      let! t := load p in
      do! store p (set_tty_fd t (t_fd t) tty);
      kernel_call (tcsetattr fd (line_settings cfg tty))
  end.

Definition init_transport_fields (cfg : serial_transport_config) (device : list Z) : transport :=
  Transport (-1) (take 63 device) cfg (Termios 0 0 0 0 0 0 0 0)
    (replicate (Z.to_nat serial_transport_tx_capacity) 0) 0 0.

Definition serial_transport_open (transport : option nat) (cfg : option serial_transport_config)
    : M Z :=
  match transport, cfg with
  | Some p, Some cfg =>
      match cfg_device cfg with
      | None => ret (-1)
      | Some device =>
          if serial_transport_device_path_max <=? zlen device then ret (-1)
          else
            do! load p;
            do! store p (init_transport_fields cfg device);
            let! fd := kernel_call (tty_open device) in
            if fd <? 0 then ret (-1)
            else
              let! configured := configure_port fd cfg p in
              if negb (configured =? 0) then
                do! kernel_call (fun w => (tt, tty_close fd w));
                ret (-1)
              else
                let! t := load p in
                do! store p (set_tty_fd t fd (saved_tty t));
                ret 0
      end
  | _, _ => ret (-1)
  end.

Definition serial_transport_activate (transport : option nat) : M unit :=
  match transport with
  | None => ret tt
  | Some p => fun s => Some (tt, SerialState (Some p) (transports s) (kernel s))
  end.

(** [flush_output]; [fuel] bounds the turns of the loop.  Running out of fuel
    is [None]. *)
Fixpoint flush_output (fuel : nat) (p : nat) : M Z :=
  match fuel with
  | O => lift None
  | S fuel =>
      let! t := load p in
      if tx_count t =? 0 then
        do! store p (set_tx t (tx_queue t) 0 (tx_count t));
        ret 0
      else
        let contiguous := u64 (serial_transport_tx_capacity - tx_head t) in
        let contiguous := if tx_count t <? contiguous then tx_count t else contiguous in
        let! data := lift (rd_bytes (tx_queue t) (tx_head t) contiguous) in
        let! '(written, errno) := kernel_call (fun w =>
          let '(r, e, w) := tty_write (t_fd t) data w in ((r, e), w)) in
        if 0 <? written then
          do! store p (set_tx t (tx_queue t)
                 (u64 (tx_head t + written) mod serial_transport_tx_capacity)
                 (u64 (tx_count t - written)));
          flush_output fuel p
        else if (written <? 0) && (errno =? EINTR) then flush_output fuel p
        else if (written <? 0) && ((errno =? EAGAIN) || (errno =? EWOULDBLOCK)) then ret 0
        else ret (-1)
  end.

(** [do poll(...) while (result < 0 && errno == EINTR)]. *)
Fixpoint poll_loop (fuel : nat) (fd events timeout_ms : Z) : M (Z * Z) :=
  match fuel with
  | O => lift None
  | S fuel =>
      let! '(result, errno, revents) := kernel_call (fun w =>
        let '(r, e, v, w) := tty_poll fd events timeout_ms w in ((r, e, v), w)) in
      if (result <? 0) && (errno =? EINTR) then poll_loop fuel fd events timeout_ms
      else ret (result, revents)
  end.

Definition serial_transport_wait (fuel : nat) (transport : option nat) (timeout_ms : Z) : M Z :=
  match transport with
  | None => ret (-1)
  | Some p =>
      let! t := load p in
      if t_fd t <? 0 then ret (-1)
      else
        let events := if tx_count t =? 0 then POLLIN else Z.lor POLLIN POLLOUT in
        let! '(result, revents) := poll_loop fuel (t_fd t) events timeout_ms in
        if result <=? 0 then ret result
        else
          let! flushed :=
            (if negb (Z.land revents POLLOUT =? 0) then flush_output fuel p else ret 0) in
          if negb (flushed =? 0) then ret (-1)
          else if negb (Z.land revents (Z.lor POLLERR (Z.lor POLLHUP POLLNVAL)) =? 0) then ret (-1)
          else ret result
  end.

Definition serial_transport_pending_output (transport : option nat) : M Z :=
  match transport with
  | None => ret 0
  | Some p => let! t := load p in ret (tx_count t)
  end.

Definition serial_transport_close (transport : option nat) : M unit :=
  match transport with
  | None => ret tt
  | Some p =>
      let! t := load p in
      do!
        (if 0 <=? t_fd t then
           do! kernel_call (tcsetattr (t_fd t) (saved_tty t));
           do! kernel_call (fun w => (tt, tty_close (t_fd t) w));
           store p (set_tty_fd t (-1) (saved_tty t))
         else ret tt);
      fun s =>
        Some (tt, SerialState
          (match active_transport s with
           | Some q => if decide (q = p) then None else Some q
           | None => None
           end) (transports s) (kernel s))
  end.
End serial.
#[global] Arguments init_transport_fields : simpl never.
