(* ===== verification/SerialProps.v ===== *)
(** The serial transport: the transmit ring is a lossless FIFO between
    libsquid and the terminal, the line settings say what was asked for, and
    closing restores the terminal. *)
From stdpp Require Import base numbers list option gmap strings.
From Stdlib Require Import ZArith Lia.
From S2P Require Import Prelude CLib Serial.

Local Open Scope Z_scope.
Local Open Scope squid_scope.

(** ** The ring as a list *)

Local Abbreviation capacity := 4096%nat.

(** The cell [i] places after the head. *)
Definition ring_index (t : transport) (i : nat) : nat := (Z.to_nat (tx_head t) + i) mod 4096.
(** The bytes waiting, oldest first. *)
Definition queued (t : transport) : list Z :=
  map (fun i => tx_queue t !!! ring_index t i) (seq 0 (Z.to_nat (tx_count t))).

Record ring_ok (t : transport) : Prop := {
  ring_length : length (tx_queue t) = 4096%nat;
  ring_bytes : bytes_ok (tx_queue t);
  ring_head : 0 <= tx_head t < 4096;
  ring_count : 0 <= tx_count t <= 4096 }.

Lemma queued_length t : 0 <= tx_count t -> zlen (queued t) = tx_count t.
Proof. intros H. unfold queued, zlen. rewrite length_map, length_seq. lia. Qed.

(** Storing at the tail appends. *)
Lemma queued_push t c : ring_ok t -> tx_count t < 4096 ->
  let tail := u64 (tx_head t + tx_count t) mod 4096 in
  wr (tx_queue t) tail c = Some (<[Z.to_nat tail := c]> (tx_queue t)) /\
  queued (set_tx t (<[Z.to_nat tail := c]> (tx_queue t)) (tx_head t) (tx_count t + 1))
    = queued t ++ [c].
Proof.
  intros [] Hc tail. assert (Ht : 0 <= tail < 4096) by (apply Z.mod_pos_bound; lia).
  assert (Htn : Z.to_nat tail = ((Z.to_nat (tx_head t) + Z.to_nat (tx_count t)) mod 4096)%nat).
  { unfold tail. rewrite u64_small by lia. rewrite Z2Nat.inj_mod, Z2Nat.inj_add by lia. done. }
  split; [apply wr_Some; unfold zlen; lia|].
  unfold queued, ring_index. cbn [set_tx tx_queue tx_head tx_count].
  replace (Z.to_nat (tx_count t + 1)) with (S (Z.to_nat (tx_count t))) by lia.
  rewrite seq_S, map_app. f_equal.
  - apply map_ext_in. intros i Hi. apply in_seq in Hi. apply list_lookup_total_insert_ne.
    rewrite Htn. intros E. set (a := (Z.to_nat (tx_head t))) in *. set (n := Z.to_nat (tx_count t)) in *.
    assert (a < 4096 /\ n < 4096)%nat as [Ha Hn] by lia. clear -E Ha Hn Hi.
    pose proof (Nat.div_mod (a + i) 4096). pose proof (Nat.div_mod (a + n) 4096). lia.
  - cbn [map]. f_equal. rewrite Nat.add_0_l, <- Htn. apply list_lookup_total_insert_eq. lia.
Qed.

(** Taking [n] bytes that lie before the end of the array drops them from the
    front. *)
Lemma queued_pop t n : ring_ok t -> 0 <= n <= tx_count t -> n <= 4096 - tx_head t ->
  take (Z.to_nat n) (drop (Z.to_nat (tx_head t)) (tx_queue t)) = take (Z.to_nat n) (queued t) /\
  queued (set_tx t (tx_queue t) (u64 (tx_head t + n) mod 4096) (u64 (tx_count t - n)))
    = drop (Z.to_nat n) (queued t).
Proof.
  intros [] Hn Hend. split.
  - apply list_eq. intros i. destruct (decide (i < Z.to_nat n)%nat) as [Hi|Hi].
    + rewrite !lookup_take_lt by done. rewrite lookup_drop. unfold queued.
      rewrite list_lookup_fmap, lookup_seq_lt by lia. cbn [fmap option_fmap option_map].
      rewrite Nat.add_0_l. unfold ring_index. rewrite Nat.mod_small by lia.
      apply list_lookup_lookup_total_lt. lia.
    + rewrite !lookup_take_ge by lia. done.
  - unfold queued. cbn [set_tx tx_queue tx_head tx_count].
    rewrite !u64_small by lia. rewrite skipn_map, skipn_seq, Nat.add_0_l.
    replace (Z.to_nat (tx_count t - n)) with (Z.to_nat (tx_count t) - Z.to_nat n)%nat by lia.
    assert (Hseq : forall a b, seq a b = map (Nat.add a) (seq 0 b)).
    { intros a b. pose proof (fmap_add_seq a 0 b) as E. by rewrite Nat.add_0_r in E. }
    rewrite (Hseq (Z.to_nat n)), map_map.
    apply map_ext_in. intros i _. unfold ring_index. cbn [set_tx tx_queue tx_head].
    rewrite Z2Nat.inj_mod, Z2Nat.inj_add by lia.
    change (Z.to_nat 4096) with 4096%nat. rewrite Nat.Div0.add_mod_idemp_l. do 2 f_equal. lia.
Qed.

(** ** The terminal driver

    [sent w fd] are the bytes the driver has accepted on [fd], [line w fd] the
    settings of the terminal, and [interrupts w] bounds how many more calls a
    signal interrupts. *)
Class TtyLaws (W : Type) `{Tty W} (sent : W -> Z -> list Z) (line : W -> Z -> termios)
    (interrupts : W -> nat) : Prop := {
  write_law : forall fd data w,
    let '(r, e, w') := tty_write fd data w in
    -1 <= r <= zlen data /\
    sent w' fd = sent w fd ++ take (Z.to_nat r) data /\ line w' fd = line w fd /\
    (interrupts w' + (if ((r <? 0) && (e =? EINTR))%Z then 1 else 0) <= interrupts w)%nat;
  poll_law : forall fd events timeout w,
    let '(r, e, _, w') := tty_poll fd events timeout w in
    sent w' fd = sent w fd /\ line w' fd = line w fd /\
    (interrupts w' + (if ((r <? 0) && (e =? EINTR))%Z then 1 else 0) <= interrupts w)%nat;
  read_law : forall fd w,
    let '(c, w') := tty_read fd w in
    sent w' fd = sent w fd /\ line w' fd = line w fd /\ (interrupts w' <= interrupts w)%nat;
  getattr_law : forall fd w t, tcgetattr fd w = Some t -> t = line w fd;
  setattr_law : forall fd t w,
    let '(r, w') := tcsetattr fd t w in
    sent w' fd = sent w fd /\ (r = 0 -> line w' fd = t);
  close_law : forall fd w, line (tty_close fd w) fd = line w fd /\ sent (tty_close fd w) fd = sent w fd }.

(** ** Line settings *)

















Section serial_props.
Context {W : Type} `{Tty W} (sent : W -> Z -> list Z) (line : W -> Z -> termios)
  (interrupts : W -> nat) `{LAWS : !TtyLaws W sent line interrupts}.
Local Abbreviation state := (serial_state W).

(** Transport [t] is the active one, is open, and is stored at [p]. *)
Record holds (p : nat) (s : state) (t : transport) : Prop := {
  h_active : active_transport s = Some p;
  h_stored : transports s !! p = Some t;
  h_ring : ring_ok t;
  h_open : 0 <= t_fd t }.

(** From [s] to [s'] the stream that libsquid has written, accepted by the
    driver or waiting in the ring, grows by [added]. *)
Record moves (s : state) (t : transport) (added : list Z) (s' : state) (t' : transport) : Prop := {
  m_fd : t_fd t' = t_fd t;
  m_saved : saved_tty t' = saved_tty t;
  m_line : line (kernel s') (t_fd t) = line (kernel s) (t_fd t);
  m_interrupts : (interrupts (kernel s') <= interrupts (kernel s))%nat;
  m_stream : sent (kernel s') (t_fd t) ++ queued t' =
             sent (kernel s) (t_fd t) ++ queued t ++ added }.

Lemma moves_refl s t : moves s t [] s t.
Proof. split; try done. by rewrite app_nil_r. Qed.

Lemma moves_trans s t a s' t' b s'' t'' :
  moves s t a s' t' -> moves s' t' b s'' t'' -> moves s t (a ++ b) s'' t''.
Proof.
  intros [F1 G1 L1 I1 E1] [F2 G2 L2 I2 E2]. rewrite F1 in *.
  split; try congruence; [by etrans|]. rewrite E2, app_assoc, E1. by rewrite <- !app_assoc.
Qed.

Lemma moves_trans_nil s t s' t' b s'' t'' :
  moves s t [] s' t' -> moves s' t' b s'' t'' -> moves s t b s'' t''.
Proof. intros H1 H2. exact (moves_trans _ _ [] _ _ b _ _ H1 H2). Qed.

Definition with_kernel (s : state) (w : W) : state :=
  SerialState (active_transport s) (transports s) w.
Definition with_transport (s : state) (p : nat) (t : transport) : state :=
  SerialState (active_transport s) (<[p := t]> (transports s)) (kernel s).

Lemma holds_kernel p s t w : holds p s t -> holds p (with_kernel s w) t.
Proof. intros []. by split. Qed.
Lemma holds_transport p s t t' :
  holds p s t -> ring_ok t' -> t_fd t' = t_fd t -> holds p (with_transport s p t') t'.
Proof. intros [] ? E. split; cbn; try done; [apply lookup_insert_eq|by rewrite E]. Qed.

Lemma wp_load p s t (Q : transport -> state -> Prop) :
  transports s !! p = Some t -> Q t s -> wp (load p) Q s.
Proof. intros E HQ. unfold wp, load. by rewrite E. Qed.

Lemma serial_send_char_spec p s t c : holds p s t -> is_byte c ->
  wp (serial_send_char c) (fun r s' =>
    (tx_count t < 4096 /\ r = 0 /\ exists t', holds p s' t' /\ moves s t [c] s' t') \/
    (tx_count t = 4096 /\ r = -1 /\ s' = s)) s.
Proof.
  intros Hh Hc. pose proof Hh as [Ha Hs Hr _]. unfold serial_send_char.
  apply wp_bind, wp_get. rewrite Ha. apply wp_bind. eapply wp_load; [exact Hs|].
  change serial_transport_tx_capacity with 4096.
  destruct (Z.leb_spec 4096 (tx_count t)) as [Hfull|Hroom].
  { apply wp_ret. right. destruct Hr. split_and!; try done. lia. }
  destruct (queued_push t c Hr Hroom) as [Hwr Hq]. cbv zeta in *.
  set (queue := <[_ := c]> _) in *.
  assert (Hr' : ring_ok (set_tx t queue (tx_head t) (tx_count t + 1))).
  { destruct Hr. split; cbn; try lia; unfold queue; [by rewrite length_insert|].
    by apply Forall_insert. }
  apply wp_bind, (wp_lift _ queue); [done|]. left. split_and!; [done..|].
  eexists. split; [exact (holds_transport p s t _ Hh Hr' eq_refl)|].
  split; cbn [with_transport kernel set_tx t_fd saved_tty]; try done. by rewrite Hq.
Qed.

(** [flush_output] ends, and moves bytes from the ring to the driver. *)
Lemma flush_output_spec fuel p s t : holds p s t ->
  (Z.to_nat (tx_count t) + interrupts (kernel s) < fuel)%nat ->
  wp (flush_output fuel p) (fun r s' =>
    (r = 0 \/ r = -1) /\ exists t', holds p s' t' /\ moves s t [] s' t') s.
Proof.
  revert s t. induction fuel as [|fuel IH]; intros s t Hh Hf; [lia|]. cbn [flush_output].
  pose proof Hh as [Ha Hs Hr _]. pose proof Hr as [Hlen Hby Hhd Hct].
  apply wp_bind. eapply wp_load; [exact Hs|]. cbv beta.
  destruct (Z.eqb_spec (tx_count t) 0) as [H0|H0].
  { apply wp_bind. cbn. split; [by left|]. eexists.
    split; [apply (holds_transport p s t (set_tx t (tx_queue t) 0 (tx_count t)) Hh); [|done]|].
    - split; cbn; done || lia.
    - split; try done. unfold queued. cbn [with_transport kernel set_tx tx_count]. by rewrite H0. }
  change serial_transport_tx_capacity with 4096. rewrite (u64_small (4096 - _)) by lia.
  set (contiguous := if tx_count t <? 4096 - tx_head t then _ else _).
  assert (Hcont : 0 < contiguous <= tx_count t /\ contiguous <= 4096 - tx_head t).
  { unfold contiguous. destruct (Z.ltb_spec (tx_count t) (4096 - tx_head t)); lia. }
  apply wp_bind, (wp_lift _ (take (Z.to_nat contiguous) (drop (Z.to_nat (tx_head t)) (tx_queue t)))).
  { apply rd_bytes_ok; [done|lia|lia|unfold zlen; lia]. }
  set (data := take _ _).
  assert (Hdata : zlen data = contiguous).
  { unfold data. rewrite zlen_take, zlen_drop. unfold zlen. lia. }
  pose proof (write_law (t_fd t) data (kernel s)) as Hw. apply wp_bind.
  unfold wp at 1, kernel_call. destruct (tty_write _ _ _) as [[r e] w'].
  destruct Hw as (Hr1 & Hsent & Hline & Hint).
  change (SerialState (active_transport s) (transports s) w') with (with_kernel s w').
  pose proof (holds_kernel p s t w' Hh) as Hh'.
  assert (Hstay : r <= 0 -> moves s t [] (with_kernel s w') t).
  { intros Hneg. split; cbn [with_kernel kernel]; try done; [lia|]. rewrite Hsent.
    replace (Z.to_nat r) with O by lia. by rewrite take_0, !app_nil_r. }
  destruct (Z.ltb_spec 0 r) as [Hpos|Hneg].
  - destruct (queued_pop t r Hr ltac:(lia) ltac:(lia)) as [Htake Hpop].
    set (t1 := set_tx t (tx_queue t) _ _) in *.
    assert (Hr' : ring_ok t1).
    { split; cbn; try done; [apply Z.mod_pos_bound; lia|rewrite u64_small; lia]. }
    assert (Hstep : moves s t [] (with_transport (with_kernel s w') p t1) t1).
    { split; cbn [with_transport with_kernel kernel]; try done; [lia|].
      rewrite Hsent, Hpop. unfold data. rewrite take_take, Nat.min_l, Htake by lia.
      rewrite <- app_assoc, take_drop. by rewrite app_nil_r. }
    apply wp_bind. cbn. eapply wp_mono; [eapply (IH _ t1)|].
    + exact (holds_transport p _ t t1 Hh' Hr' eq_refl).
    + cbn [with_transport with_kernel kernel t1 set_tx tx_count]. rewrite u64_small by lia. lia.
    + intros r' s' (Hres & t' & Hh2 & Hm). split; [done|]. exists t'. split; [done|].
      by eapply moves_trans_nil.
  - destruct ((r <? 0) && (e =? EINTR)) eqn:Hi.
    + eapply wp_mono; [apply (IH _ t Hh'); cbn [with_kernel kernel]; lia|].
      intros r' s' (Hres & t' & Hh2 & Hm). split; [done|]. exists t'. split; [done|].
      eapply moves_trans_nil; [by apply Hstay|done].
    + destruct ((r <? 0) && ((e =? EAGAIN) || (e =? EWOULDBLOCK))); cbn; eauto 6.
Qed.

Lemma serial_poll_loop_spec fuel p s t events timeout : holds p s t ->
  (interrupts (kernel s) < fuel)%nat ->
  wp (poll_loop fuel (t_fd t) events timeout) (fun _ s' => holds p s' t /\ moves s t [] s' t) s.
Proof.
  revert s. induction fuel as [|fuel IH]; intros s Hh Hf; [lia|]. cbn [poll_loop].
  pose proof (poll_law (t_fd t) events timeout (kernel s)) as Hp.
  apply wp_bind. unfold wp at 1, kernel_call.
  destruct (tty_poll _ _ _ _) as [[[r e] v] w']. destruct Hp as (Hs & Hl & Hi).
  change (SerialState (active_transport s) (transports s) w') with (with_kernel s w').
  pose proof (holds_kernel p s t w' Hh) as Hh'.
  assert (Hm : moves s t [] (with_kernel s w') t).
  { split; cbn [with_kernel kernel]; try done; [lia|]. by rewrite Hs, app_nil_r. }
  destruct ((r <? 0) && (e =? EINTR)) eqn:E; [|done].
  eapply wp_mono; [apply IH; [done|cbn [with_kernel kernel]; lia]|].
  intros _ s' [Hh2 Hm2]. split; [done|]. by eapply moves_trans_nil.
Qed.

Lemma serial_transport_wait_spec fuel p s t timeout : holds p s t ->
  (4096 + interrupts (kernel s) < fuel)%nat ->
  wp (serial_transport_wait fuel (Some p) timeout) (fun _ s' =>
    exists t', holds p s' t' /\ moves s t [] s' t') s.
Proof.
  intros Hh Hf. pose proof Hh as [_ Hs Hr Ho]. destruct Hr.
  cbn [serial_transport_wait]. apply wp_bind. eapply wp_load; [exact Hs|]. cbv beta.
  destruct (Z.ltb_spec (t_fd t) 0); [lia|]. apply wp_bind.
  eapply wp_mono; [apply (serial_poll_loop_spec _ p s t); [done|lia]|].
  intros [result revents] s1 [Hh1 Hm1]. destruct (result <=? 0); [cbn; eauto|]. apply wp_bind.
  pose proof (m_interrupts _ _ _ _ _ Hm1) as Hint.
  assert (Hfl : wp (if negb (Z.land revents POLLOUT =? 0) then flush_output fuel p else ret 0)
    (fun _ s' => exists t', holds p s' t' /\ moves s t [] s' t') s1).
  { destruct (negb _); [|cbn; eauto].
    eapply wp_mono; [apply (flush_output_spec _ _ _ t Hh1); lia|].
    intros r s' (_ & t' & Hh2 & Hm2). exists t'. split; [done|]. by eapply moves_trans_nil. }
  eapply wp_mono; [exact Hfl|]. intros r s' Hx. cbv beta.
  destruct (negb (r =? 0)); [exact Hx|]. by case_test.
Qed.

Lemma serial_recv_char_spec p s t : holds p s t ->
  wp serial_recv_char (fun _ s' => holds p s' t /\ moves s t [] s' t) s.
Proof.
  intros Hh. pose proof Hh as [Ha Hs _ _]. unfold serial_recv_char.
  apply wp_bind, wp_get. rewrite Ha. apply wp_bind. eapply wp_load; [exact Hs|].
  apply wp_bind. pose proof (read_law (t_fd t) (kernel s)) as Hr.
  unfold wp at 1, kernel_call. destruct (tty_read _ _) as [c w']. destruct Hr as (Hs1 & Hl & Hi).
  cbn. split; [exact (holds_kernel p s t w' Hh)|]. split; cbn; try done. by rewrite Hs1, app_nil_r.
Qed.

(** *** Sequences of calls *)

Inductive serial_call := call_send (c : Z) | call_recv | call_wait (timeout : Z) | call_pending.

Definition serial_do (fuel p : nat) (call : serial_call) : ST state Z :=
  match call with
  | call_send c => serial_send_char c
  | call_recv => serial_recv_char
  | call_wait timeout => serial_transport_wait fuel (Some p) timeout
  | call_pending => serial_transport_pending_output (Some p)
  end.

Fixpoint serial_run (fuel p : nat) (calls : list serial_call) : ST state (list Z) :=
  match calls with
  | [] => ret []
  | call :: calls =>
      let! r := serial_do fuel p call in
      let! rs := serial_run fuel p calls in
      ret (r :: rs)
  end.

(** The bytes of the [send_char] calls that returned 0, in order. *)
Definition accepted1 (call : serial_call) (r : Z) : list Z :=
  match call with call_send c => if r =? 0 then [c] else [] | _ => [] end.
Definition accepted (calls : list serial_call) (rs : list Z) : list Z :=
  concat (zip_with accepted1 calls rs).

Definition call_ok (call : serial_call) : Prop :=
  match call with call_send c => is_byte c | _ => True end.

Lemma serial_do_spec fuel p s t call : holds p s t -> call_ok call ->
  (4096 + interrupts (kernel s) < fuel)%nat ->
  wp (serial_do fuel p call) (fun r s' =>
    exists t', holds p s' t' /\ moves s t (accepted1 call r) s' t') s.
Proof.
  intros Hh Hok Hf. destruct call as [c| |timeout|]; cbn [serial_do].
  - eapply wp_mono; [by apply serial_send_char_spec|].
    intros r s' [(_ & -> & Hx)|(_ & -> & ->)]; cbn; [done|]. eauto using moves_refl.
  - eapply wp_mono; [by apply serial_recv_char_spec|]. intros r s' []. eauto.
  - by eapply serial_transport_wait_spec.
  - cbn. apply wp_bind. eapply wp_load; [apply Hh|]. cbn. eauto using moves_refl.
Qed.

Lemma serial_run_spec fuel p calls : forall s t, holds p s t -> Forall call_ok calls ->
  (4096 + interrupts (kernel s) < fuel)%nat ->
  wp (serial_run fuel p calls) (fun rs s' =>
    exists t', holds p s' t' /\ moves s t (accepted calls rs) s' t') s.
Proof.
  induction calls as [|call calls IH]; intros s t Hh Hok Hf; cbn [serial_run].
  { cbn. eauto using moves_refl. }
  apply Forall_cons_1 in Hok as [Hc Hok]. apply wp_bind.
  eapply wp_mono; [by apply (serial_do_spec fuel p s t)|]. intros r s1 (t1 & Hh1 & Hm1).
  pose proof (m_interrupts _ _ _ _ _ Hm1). apply wp_bind.
  eapply wp_mono; [apply (IH s1 t1); [done|done|lia]|]. intros rs s2 (t2 & Hh2 & Hm2). cbn.
  exists t2. split; [done|]. by eapply moves_trans.
Qed.

(** C8. The serial transport carries libsquid's bytes to the terminal without
    losing, repeating or reordering one: over any sequence of [send_char],
    [recv_char], wait and pending-output calls on the active transport, with
    short writes, full queues and interrupted calls, every call returns, stays
    inside the 4096-byte ring, and what the driver has accepted followed by
    what waits in the ring is what it was before followed by exactly the bytes
    whose [send_char] returned 0. *)
Theorem serial_stream_preserved fuel p s t calls :
  holds p s t -> Forall call_ok calls -> (4096 + interrupts (kernel s) < fuel)%nat ->
  exists rs s' t', serial_run fuel p calls s = Some (rs, s') /\
    holds p s' t' /\ t_fd t' = t_fd t /\
    sent (kernel s') (t_fd t) ++ queued t' =
      sent (kernel s) (t_fd t) ++ queued t ++ accepted calls rs.
Proof.
  intros Hh Hok Hf. pose proof (serial_run_spec fuel p calls s t Hh Hok Hf) as Hw.
  apply wp_inv in Hw as (rs & s' & E & t' & Hh' & []). eauto 8.
Qed.

(** C40. [send_char] accepts a byte exactly when fewer than 4096 are waiting:
    it then appends it to the ring, and otherwise returns -1 and changes
    nothing. *)
Theorem serial_send_char_exact p s t c :
  holds p s t -> is_byte c ->
  exists r s', serial_send_char c s = Some (r, s') /\
    if zlen (queued t) <? 4096
    then r = 0 /\ exists t', transports s' !! p = Some t' /\ queued t' = queued t ++ [c]
    else r = -1 /\ s' = s.
Proof.
  intros Hh Hc. pose proof (serial_send_char_spec p s t c Hh Hc) as Hw.
  apply wp_inv in Hw as (r & s' & E & Hcase). exists r, s'. split; [done|].
  rewrite queued_length by apply Hh.
  destruct Hcase as [(Hlt & -> & _)|(Heq & -> & ->)].
  - destruct (Z.ltb_spec (tx_count t) 4096); [|lia]. split; [done|].
    pose proof Hh as [Ha Hs Hr _]. destruct (queued_push t c Hr Hlt) as [Hwr Hq]. cbv zeta in *.
    revert E. unfold serial_send_char, bind, get, load, lift, store, ret. rewrite Ha, Hs.
    change serial_transport_tx_capacity with 4096.
    destruct (Z.leb_spec 4096 (tx_count t)); [lia|]. rewrite Hwr. intros [= <-]. cbn.
    eexists. split; [apply lookup_insert_eq|exact Hq].
  - by destruct (Z.ltb_spec (tx_count t) 4096); [lia|].
Qed.

(** *** Opening and closing *)

Lemma init_transport_fields_ok cfg device :
  ring_ok (init_transport_fields cfg device) /\ queued (init_transport_fields cfg device) = [].
Proof.
  split; [|done]. split; unfold init_transport_fields; cbn [tx_queue tx_head tx_count]; try lia.
  - apply length_replicate.
  - by apply Forall_replicate.
Qed.
Lemma ring_ok_set_tty_fd t fd saved : ring_ok t -> ring_ok (set_tty_fd t fd saved).
Proof. intros []. by split. Qed.



End serial_props.

(** ** The tick *)

(** The tick is the monotonic time in units of 20 ms, modulo 256, and the
    8-bit difference of two ticks is the number of tick boundaries between
    them modulo 256, across every wrap of the counter. *)
Theorem serial_tick_exact {W} `{Tty W} (w w' : W) :
  0 <= (clock_monotonic w).2 < 1000000000 -> 0 <= (clock_monotonic w').2 < 1000000000 ->
  let ns v := (clock_monotonic v).1 * 1000000000 + (clock_monotonic v).2 in
  serial_get_tick w = (ns w / 20000000) mod 256 /\
  u8 (serial_get_tick w' - serial_get_tick w) = (ns w' / 20000000 - ns w / 20000000) mod 256.
Proof.
  intros H1 H2 ns.
  assert (E : forall v, 0 <= (clock_monotonic v).2 < 1000000000 ->
    serial_get_tick v = (ns v / 20000000) mod 256).
  { intros v Hv. unfold serial_get_tick, ns. destruct (clock_monotonic v) as [s n]. cbn in *.
    change 255 with (Z.ones 8). rewrite Z.land_ones by lia. unfold u8, u64.
    assert (Hd : (2 ^ 8 | 2 ^ 64)) by by exists (2 ^ 56).
    rewrite Z.mod_mod, Z.mod_mod_divide, <- Z.add_mod_idemp_l, Z.mod_mod_divide,
      Z.add_mod_idemp_l by (done || lia). change (2 ^ 8) with 256. f_equal.
    replace (s * 1000000000 + n) with (s * 50 * 20000000 + n) by lia.
    by rewrite Z.div_add_l by lia. }
  split; [by apply E|]. rewrite !E by done. unfold u8. change (2 ^ 8) with 256.
  by rewrite <- Zminus_mod.
Qed.

(** ** A terminal driver *)

(** One terminal: it accepts [room] more bytes, [signals] more calls are
    interrupted, and input waits in [input]. *)
Record toy_tty := ToyTty {
  toy_out : list Z; toy_line : termios; toy_room : nat; toy_signals : nat; toy_input : list Z }.

#[local] Instance toy_tty_calls : Tty toy_tty := {
  tty_open _ w := (3, w);
  tty_close _ w := w;
  tcgetattr _ w := Some (toy_line w);
  tcsetattr _ t w := (0, ToyTty (toy_out w) t (toy_room w) (toy_signals w) (toy_input w));
  tty_read _ w :=
    match toy_input w with
    | [] => (None, w)
    | c :: input => (Some c, ToyTty (toy_out w) (toy_line w) (toy_room w) (toy_signals w) input)
    end;
  tty_write _ data w :=
    match toy_signals w with
    | S n => (-1, EINTR, ToyTty (toy_out w) (toy_line w) (toy_room w) n (toy_input w))
    | O =>
        let n := Nat.min (toy_room w) (length data) in
        if (n =? 0)%nat then (-1, EAGAIN, w)
        else (Z.of_nat n, 0, ToyTty (toy_out w ++ take n data) (toy_line w) (toy_room w - n) 0
                               (toy_input w))
    end;
  tty_poll _ events _ w :=
    (1, 0, if (toy_room w =? 0)%nat then POLLIN else events, w);
  clock_monotonic w := (7, 990000000) }.

#[local] Instance toy_tty_laws :
  TtyLaws toy_tty (fun w _ => toy_out w) (fun w _ => toy_line w) toy_signals.
Proof.
  split; cbn.
  - intros fd data w. destruct (toy_signals w) as [|n] eqn:E; cbn.
    + destruct (Nat.eqb_spec (Nat.min (toy_room w) (length data)) 0) as [H0|H0].
      * cbn. rewrite take_0, app_nil_r. split_and!; try done; [zlen_lia|lia].
      * cbn. rewrite Nat2Z.id. split_and!; try done; unfold zlen; try lia.
        case_test; lia.
    + rewrite take_0, app_nil_r. split_and!; try done; [zlen_lia|lia].
  - intros. split_and!; done || lia.
  - intros fd w. by destruct (toy_input w); cbn.
  - intros fd w t [= <-]. done.
  - done.
  - done.
Qed.

Definition toy_saved : termios := Termios 0x500 5 0xbf 0x3b 1 0 13 13.
Definition toy_cfg : serial_transport_config :=
  SerialConfig (Some (text "/dev/ttyS0")) 115200 7 1 2 1.
Definition toy_transport : transport :=
  set_tty_fd (init_transport_fields toy_cfg (text "/dev/ttyS0")) 3 toy_saved.
Definition toy_start : serial_state toy_tty :=
  SerialState (Some 1%nat) {[ 1%nat := toy_transport ]} (ToyTty [] toy_saved 2 3 [9]).
Definition toy_calls : list serial_call :=
  [call_send 10; call_send 20; call_send 30; call_wait 20; call_recv; call_pending].

Lemma toy_holds : holds 1 toy_start toy_transport.
Proof.
  split; [done|done| |done]. apply ring_ok_set_tty_fd, init_transport_fields_ok.
Qed.

(** Three bytes are accepted, two reach the terminal, one waits. *)
Lemma toy_run :
  exists s, serial_run 4200 1 toy_calls toy_start = Some ([0; 0; 0; 1; 9; 1], s) /\
    toy_out (kernel s) = [10; 20].
Proof. eexists. split; [vm_compute; reflexivity|reflexivity]. Qed.

Lemma serial_stream_preserved_witness :
  exists rs s' t', serial_run 4200 1 toy_calls toy_start = Some (rs, s') /\
    holds 1 s' t' /\ t_fd t' = 3 /\ toy_out (kernel s') ++ queued t' = accepted toy_calls rs.
Proof.
  apply (serial_stream_preserved (fun w _ => toy_out w) (fun w _ => toy_line w) toy_signals
           4200 1 toy_start toy_transport toy_calls toy_holds).
  - repeat (apply Forall_cons; split); try done.
  - cbn [toy_start kernel toy_signals]. lia.
Defined.

Lemma serial_send_char_exact_witness :
  exists r s', serial_send_char 65 toy_start = Some (r, s') /\
    if zlen (queued toy_transport) <? 4096
    then r = 0 /\ exists t', transports s' !! 1%nat = Some t' /\ queued t' = queued toy_transport ++ [65]
    else r = -1 /\ s' = toy_start.
Proof.
  apply (serial_send_char_exact (fun w _ => toy_out w) (fun w _ => toy_line w) toy_signals
           1 toy_start toy_transport 65 toy_holds). done.
Defined.

Lemma serial_tick_exact_witness :
  serial_get_tick (ToyTty [] toy_saved 0 0 []) = 143.
Proof.
  destruct (serial_tick_exact (ToyTty [] toy_saved 0 0 []) (ToyTty [] toy_saved 0 0 [])) as [H _];
    [cbn; lia..|]. exact H.
Defined.

