(* ===== verification/Local.v ===== *)
(** The local transport (src/transport/local/local_transport.c): a Unix-domain
    socket for a client on the same machine.  The socket calls are a parameter
    and are recorded; [errno], which the callers only print, is not part of
    the state. *)
From stdpp Require Import base numbers list option gmap strings.
From Stdlib Require Import ZArith Lia.
From S2P Require Import Prelude CLib.

Local Open Scope Z_scope.
Local Open Scope squid_scope.

Definition local_transport_socket_path_max : Z := 108.
Definition local_transport_default_socket_path : list Z := text "/tmp/squid_server.sock".

(** [revents] and [errno] on Linux. *)
Definition POLLIN : Z := 1.
Definition POLLERR : Z := 8.
Definition POLLHUP : Z := 16.
Definition POLLNVAL : Z := 32.
Definition EINTR : Z := 4.

(** The calls.  An address is the [sun_path] array; [local_send] sends one byte
    with MSG_NOSIGNAL, [local_recv] receives one with MSG_DONTWAIT; [local_poll]
    gives the result, [errno] and [revents]. *)
Class LocalSockets (W : Type) := {
  local_socket : W -> Z * W;
  local_unlink : list Z -> W -> Z * W;
  local_bind : Z -> list Z -> W -> Z * W;
  local_listen : Z -> Z -> W -> Z * W;
  local_accept : Z -> W -> Z * W;
  local_connect : Z -> list Z -> W -> Z * W;
  local_close : Z -> W -> W;
  local_send : Z -> Z -> W -> Z * W;
  local_recv : Z -> W -> Z * Z * W;
  local_poll : Z -> Z -> Z -> W -> Z * Z * Z * W;
  local_clock : W -> Z * Z }.

Inductive local_event :=
| LSocket (fd : Z)
| LUnlink (path : list Z)
| LBind (fd : Z) (address : list Z) (r : Z)
| LListen (fd r : Z)
| LAccept (fd r : Z)
| LConnect (fd : Z) (address : list Z) (r : Z)
| LClose (fd : Z)
| LSend (fd c r : Z)
| LRecv (fd r : Z)
| LPoll (fd r : Z).

(** ** struct server_local_transport *)

Record server_local_transport := LocalTransport {
  listen_fd : Z;
  client_fd : Z;
  socket_path : list Z }.

(** The transports by address, the file-scope [transport_fd], the kernel and
    the calls made so far. *)
Record local_state (W : Type) := LocalState {
  transport_fd : Z;
  local_transports : gmap nat server_local_transport;
  l_kernel : W;
  l_trace : list local_event }.
Arguments LocalState {W} _ _ _ _.
Arguments transport_fd {W} _.
Arguments local_transports {W} _.
Arguments l_kernel {W} _.
Arguments l_trace {W} _.

(** [strncpy(dst, src, n - 1)] into an array of [n] zero bytes. *)
Definition strncpy_zeroed (n : Z) (src : list Z) : list Z :=
  let copied := take (Z.to_nat (n - 1)) src in
  copied ++ replicate (Z.to_nat n - length copied) 0.

Section local.
Context {W : Type} `{LocalSockets W}.
Local Abbreviation M := (ST (local_state W)).

Definition l_call {A} (event : A -> local_event) (f : W -> A * W) : M A := fun s =>
  let '(a, w) := f (l_kernel s) in
  Some (a, LocalState (transport_fd s) (local_transports s) w (l_trace s ++ [event a])).
Definition l_load (p : nat) : M server_local_transport := fun s =>
  match local_transports s !! p with Some t => Some (t, s) | None => None end.
Definition l_store (p : nat) (t : server_local_transport) : M unit := fun s =>
  Some (tt, LocalState (transport_fd s) (<[p := t]> (local_transports s)) (l_kernel s) (l_trace s)).
Definition get_transport_fd : M Z := fun s => Some (transport_fd s, s).
Definition set_transport_fd (fd : Z) : M unit := fun s =>
  Some (tt, LocalState fd (local_transports s) (l_kernel s) (l_trace s)).
Definition close_fd (fd : Z) : M unit := l_call (fun _ => LClose fd) (fun w => (tt, local_close fd w)).
Definition l_unlink (path : list Z) : M Z := l_call (fun _ => LUnlink path) (local_unlink path).

(** *** The libsquid hooks *)

Definition local_send_char (c : Z) : M Z :=
  let! fd := get_transport_fd in
  let! n := l_call (LSend fd c) (local_send fd c) in
  ret (if n =? 1 then 0 else -1).

Definition local_recv_char : M Z :=
  let! fd := get_transport_fd in
  let! '(n, c) := l_call (fun r => LRecv fd r.1) (local_recv fd) in
  ret (if n =? 1 then c else -1).

Definition local_get_tick (w : W) : Z :=
  let '(tv_sec, tv_nsec) := local_clock w in
  u8 (Z.land (u64 (u64 (tv_sec * 50) + tv_nsec / 20000000)) 255).

(** *** Life cycle *)

Definition create_unix_socket : M Z := l_call LSocket local_socket.

(** The [sun_path] of the address. *)
Definition fill_sockaddr (path : list Z) : list Z := strncpy_zeroed 108 path.

Definition init_transport_fields (path : list Z) : server_local_transport :=
  LocalTransport (-1) (-1) (strncpy_zeroed local_transport_socket_path_max path).

Definition set_listen_fd (t : server_local_transport) (fd : Z) : server_local_transport :=
  LocalTransport fd (client_fd t) (socket_path t).
Definition set_client_fd (t : server_local_transport) (fd : Z) : server_local_transport :=
  LocalTransport (listen_fd t) fd (socket_path t).

Definition local_transport_listen (transport : option nat) (path : option (list Z)) : M Z :=
  match transport, path with
  | Some p, Some path =>
      if local_transport_socket_path_max <=? zlen path then ret (-1)
      else
        do! l_load p;
        do! l_store p (init_transport_fields path);
        let! fd := create_unix_socket in
        if fd <? 0 then ret (-1)
        else
          do! l_unlink path;
          let address := fill_sockaddr path in
          let! bound := l_call (LBind fd address) (local_bind fd address) in
          if negb (bound =? 0) then do! close_fd fd; ret (-1)
          else
            let! listening := l_call (LListen fd) (local_listen fd 1) in
            if negb (listening =? 0) then
              do! close_fd fd;
              do! l_unlink path;
              ret (-1)
            else
              let! t := l_load p in
              do! l_store p (set_listen_fd t fd);
              ret 0
  | _, _ => ret (-1)
  end.

Definition local_transport_accept (transport : option nat) : M Z :=
  match transport with
  | None => ret (-1)
  | Some p =>
      let! t := l_load p in
      if listen_fd t <? 0 then ret (-1)
      else
        let! fd := l_call (LAccept (listen_fd t)) (local_accept (listen_fd t)) in
        if fd <? 0 then ret (-1)
        else
          do! l_store p (set_client_fd t fd);
          ret 0
  end.

Definition local_transport_connect (transport : option nat) (path : option (list Z)) : M Z :=
  match transport, path with
  | Some p, Some path =>
      if local_transport_socket_path_max <=? zlen path then ret (-1)
      else
        do! l_load p;
        do! l_store p (init_transport_fields path);
        let! fd := create_unix_socket in
        if fd <? 0 then ret (-1)
        else
          let address := fill_sockaddr path in
          let! connected := l_call (LConnect fd address) (local_connect fd address) in
          if negb (connected =? 0) then do! close_fd fd; ret (-1)
          else
            let! t := l_load p in
            do! l_store p (set_client_fd t fd);
            ret 0
  | _, _ => ret (-1)
  end.

Definition local_transport_activate (transport : option nat) : M unit :=
  match transport with
  | None => ret tt
  | Some p => let! t := l_load p in set_transport_fd (client_fd t)
  end.

(** [do poll(...) while (result < 0 && errno == EINTR)]; running out of fuel is
    [None]. *)
Fixpoint local_poll_loop (fuel : nat) (fd timeout_ms : Z) : M (Z * Z) :=
  match fuel with
  | O => lift None
  | S fuel =>
      let! '(result, errno, revents) := l_call (fun r => LPoll fd r.1.1) (local_poll fd POLLIN timeout_ms) in
      if (result <? 0) && (errno =? EINTR) then local_poll_loop fuel fd timeout_ms
      else ret (result, revents)
  end.

Definition local_transport_wait (fuel : nat) (transport : option nat) (timeout_ms : Z) : M Z :=
  match transport with
  | None => ret (-1)
  | Some p =>
      let! t := l_load p in
      if client_fd t <? 0 then ret (-1)
      else
        let! '(result, revents) := local_poll_loop fuel (client_fd t) timeout_ms in
        if (0 <? result) && negb (Z.land revents (Z.lor POLLERR (Z.lor POLLHUP POLLNVAL)) =? 0)
        then ret (-1) else ret result
  end.

Definition local_transport_close (transport : option nat) : M unit :=
  match transport with
  | None => ret tt
  | Some p =>
      let! t := l_load p in
      do! (if 0 <=? client_fd t then
             do! close_fd (client_fd t);
             l_store p (set_client_fd t (-1))
           else ret tt);
      let! t := l_load p in
      do! (if 0 <=? listen_fd t then
             do! close_fd (listen_fd t);
             do! l_store p (set_listen_fd t (-1));
             let! path := lift (cstring (socket_path t)) in
             do! l_unlink path;
             ret tt
           else ret tt);
      set_transport_fd (-1)
  end.

(** *** A session, as [run_server_runtime] uses the transport

    Between activation and close the engine calls the hooks and the loop
    waits, in any order. *)
Inductive local_use := use_send (c : Z) | use_recv | use_wait (timeout_ms : Z).

Definition local_do (fuel : nat) (p : nat) (u : local_use) : M Z :=
  match u with
  | use_send c => local_send_char c
  | use_recv => local_recv_char
  | use_wait timeout_ms => local_transport_wait fuel (Some p) timeout_ms
  end.
Fixpoint local_uses (fuel : nat) (p : nat) (us : list local_use) : M (list Z) :=
  match us with
  | [] => ret []
  | u :: us => let! r := local_do fuel p u in let! rs := local_uses fuel p us in ret (r :: rs)
  end.

(** The exit code, as in [run_server_runtime]: 1 when the socket cannot be
    created or no client be accepted; and the results of the uses. *)
Definition local_session (fuel : nat) (p : nat) (path : list Z) (us : list local_use)
    : M (Z * list Z) :=
  let! listened := local_transport_listen (Some p) (Some path) in
  if negb (listened =? 0) then ret (1, [])
  else
    let! accepted := local_transport_accept (Some p) in
    if negb (accepted =? 0) then do! local_transport_close (Some p); ret (1, [])
    else
      do! local_transport_activate (Some p);
      let! results := local_uses fuel p us in
      do! local_transport_close (Some p);
      ret (0, results).
End local.
