(* ===== verification/LocalProps.v ===== *)
(** The local transport follows the protocol of a listening socket: on every
    path what was opened is closed, the socket file is removed, and the hooks
    use only the accepted client. *)
From stdpp Require Import base numbers list option gmap strings.
From Stdlib Require Import ZArith Lia.
From S2P Require Import Prelude CLib Local.

Local Open Scope Z_scope.
Local Open Scope squid_scope.

(** ** Calls that follow a protocol

    A protocol is a step relation on phases; a run is read from left to
    right. *)
Section runs.
Context {Ph : Type} (step : Ph -> local_event -> Ph -> Prop).

Inductive run : Ph -> list local_event -> Ph -> Prop :=
| run_nil ph : run ph [] ph
| run_snoc ph es ph1 e ph2 : run ph es ph1 -> step ph1 e ph2 -> run ph (es ++ [e]) ph2.

(** The bytes the kernel took. *)
Definition sent_by (e : local_event) : list Z :=
  match e with LSend _ c r => if r =? 1 then [c] else [] | _ => [] end.
Definition bytes_sent (es : list local_event) : list Z := concat (map sent_by es).

Context {W : Type} `{LocalSockets W} (start : Ph) (before : list local_event) (p : nat).
Local Abbreviation state := (local_state W).

(** Since [before], the calls are a run of the protocol to [ph], in which
    [sent] was sent; the transport is [t]. *)
Definition follows (ph : Ph) (sent : list Z) (t : server_local_transport) (s : state) : Prop :=
  local_transports s !! p = Some t /\
  exists es, l_trace s = before ++ es /\ run start es ph /\ bytes_sent es = sent.

Lemma wp_l_call {A} (event : A -> local_event) f ph sent t Q s :
  follows ph sent t s ->
  (forall a s', transport_fd s' = transport_fd s -> exists ph', step ph (event a) ph' /\
     (follows ph' (sent ++ sent_by (event a)) t s' -> Q a s')) ->
  wp (l_call event f) Q s.
Proof.
  intros (Ht & es & Htr & Hrun & Hsent) HQ. unfold wp, l_call. destruct (f (l_kernel s)) as [a w].
  edestruct (HQ a (LocalState (transport_fd s) (local_transports s) w (l_trace s ++ [event a])))
    as (ph' & Hstep & HQ'); [done|]. apply HQ'. split; [done|]. exists (es ++ [event a]).
  cbn [l_trace]. rewrite Htr, app_assoc. split_and!; [done|by eapply run_snoc|].
  unfold bytes_sent in *. rewrite map_app, concat_app, Hsent. cbn. by rewrite app_nil_r.
Qed.

Lemma wp_l_load ph sent t Q s : follows ph sent t s -> Q t s -> wp (l_load p) Q s.
Proof. intros [Ht _] HQ. unfold wp, l_load. by rewrite Ht. Qed.
Lemma wp_l_store ph sent t t' (Q : unit -> state -> Prop) s : follows ph sent t s ->
  (forall s', transport_fd s' = transport_fd s -> follows ph sent t' s' -> Q tt s') ->
  wp (l_store p t') Q s.
Proof.
  intros (Ht & es & Htr & Hrun & Hs) HQ. apply HQ; [done|]. split; [apply lookup_insert_eq|by exists es].
Qed.

End runs.

(** A call of a given phase. *)
Ltac call_step s' Hfd :=
  eapply wp_l_call; [eassumption|]; intros ? s' Hfd; cbn [sent_by]; rewrite ?app_nil_r.

(** ** The protocol *)

Inductive socket_phase :=
| Idle
| Created (fd : Z)
| Cleared (fd : Z)
| BindFailed (fd : Z)
| Bound (fd : Z)
| ListenFailed (fd : Z)
| Listening (fd : Z)
| Connected (fd client : Z)
| StaleFile.

Section protocol.
Variable path : list Z.

(** Which calls a phase allows, and where they lead.  [StaleFile]: everything
    is closed, but the socket file is still there. *)
Inductive socket_step : socket_phase -> local_event -> socket_phase -> Prop :=
| step_no_socket r : r < 0 -> socket_step Idle (LSocket r) Idle
| step_socket fd : 0 <= fd -> socket_step Idle (LSocket fd) (Created fd)
| step_clear fd : socket_step (Created fd) (LUnlink path) (Cleared fd)
| step_bind fd : socket_step (Cleared fd) (LBind fd (fill_sockaddr path) 0) (Bound fd)
| step_no_bind fd r : r <> 0 ->
    socket_step (Cleared fd) (LBind fd (fill_sockaddr path) r) (BindFailed fd)
| step_give_up fd : socket_step (BindFailed fd) (LClose fd) Idle
| step_listen fd : socket_step (Bound fd) (LListen fd 0) (Listening fd)
| step_no_listen fd r : r <> 0 -> socket_step (Bound fd) (LListen fd r) (ListenFailed fd)
| step_undo fd : socket_step (ListenFailed fd) (LClose fd) StaleFile
| step_no_accept fd r : r < 0 -> socket_step (Listening fd) (LAccept fd r) (Listening fd)
| step_accept fd client : 0 <= client ->
    socket_step (Listening fd) (LAccept fd client) (Connected fd client)
| step_send fd client c r : socket_step (Connected fd client) (LSend client c r) (Connected fd client)
| step_recv fd client r : socket_step (Connected fd client) (LRecv client r) (Connected fd client)
| step_poll fd client r : socket_step (Connected fd client) (LPoll client r) (Connected fd client)
| step_hang_up fd client : socket_step (Connected fd client) (LClose client) (Listening fd)
| step_close fd : socket_step (Listening fd) (LClose fd) StaleFile
| step_remove : socket_step StaleFile (LUnlink path) Idle.

(** The bytes whose [send_char] returned 0. *)
Fixpoint accepted_bytes (us : list local_use) (rs : list Z) : list Z :=
  match us, rs with
  | use_send c :: us, r :: rs => (if r =? 0 then [c] else []) ++ accepted_bytes us rs
  | _ :: us, _ :: rs => accepted_bytes us rs
  | _, _ => []
  end.

Lemma accepted_nil us : accepted_bytes us [] = [].
Proof. by destruct us as [|[]]. Qed.

Section session.
Context {W : Type} `{LocalSockets W} (before : list local_event) (p : nat).
Local Abbreviation state := (local_state W).
Local Abbreviation at_phase := (follows socket_step Idle before p).

Definition closed_transport (t : server_local_transport) : Prop := listen_fd t = -1 /\ client_fd t = -1.

Lemma close_fd_spec ph ph' sent t fd Q s :
  at_phase ph sent t s -> socket_step ph (LClose fd) ph' ->
  (forall s', transport_fd s' = transport_fd s -> at_phase ph' sent t s' -> Q tt s') ->
  wp (close_fd fd) Q s.
Proof.
  intros Hf Hstep HQ. call_step s1 Hfd. exists ph'. split; [done|]. destruct a. by apply HQ.
Qed.
Lemma unlink_spec ph ph' sent t Q s :
  at_phase ph sent t s -> socket_step ph (LUnlink path) ph' ->
  (forall r s', transport_fd s' = transport_fd s -> at_phase ph' sent t s' -> Q r s') ->
  wp (l_unlink path) Q s.
Proof. intros Hf Hstep HQ. call_step s1 Hfd. exists ph'. split; [done|]. by apply HQ. Qed.

Lemma listen_spec t s : at_phase Idle [] t s -> zlen path < 108 ->
  wp (local_transport_listen (Some p) (Some path)) (fun r s' =>
    (r = 0 /\ exists fd, 0 <= fd /\
       at_phase (Listening fd) [] (LocalTransport fd (-1) (strncpy_zeroed 108 path)) s') \/
    (r <> 0 /\ transport_fd s' = transport_fd s /\
       exists t', closed_transport t' /\ at_phase Idle [] t' s')) s.
Proof.
  intros Hf Hl. cbn [local_transport_listen]. unfold local_transport_socket_path_max at 1.
  destruct (Z.leb_spec 108 (zlen path)); [lia|].
  apply wp_bind. eapply wp_l_load; [done|]. apply wp_bind. eapply wp_l_store; [done|].
  intros s1 Hs1 Hf1. set (t0 := init_transport_fields path) in *.
  assert (Ht0 : closed_transport t0) by done.
  apply wp_bind. call_step s2 Hs2. destruct (Z.ltb_spec a 0).
  { exists Idle. split; [by constructor|]. intros Hf2. right. split; [done|]. split; [congruence|]. eauto. }
  exists (Created a). split; [by constructor|]. intros Hf2.
  apply wp_bind. eapply unlink_spec; [done|constructor|]. intros _ s3 Hs3 Hf3.
  apply wp_bind. call_step s4 Hs4. destruct (Z.eqb_spec a0 0) as [->|Hne]; cbn [negb].
  2:{ exists (BindFailed a). split; [by constructor|]. intros Hf4. apply wp_bind.
      eapply close_fd_spec; [done|constructor|]. intros s5 Hs5 Hf5. right.
      split; [done|]. split; [congruence|]. eauto. }
  exists (Bound a). split; [constructor|]. intros Hf4. apply wp_bind. call_step s5 Hs5.
  destruct (Z.eqb_spec a0 0) as [->|Hne]; cbn [negb].
  2:{ exists (ListenFailed a). split; [by constructor|]. intros Hf5. apply wp_bind.
      eapply close_fd_spec; [done|constructor|]. intros s6 Hs6 Hf6. apply wp_bind.
      eapply unlink_spec; [done|constructor|]. intros _ s7 Hs7 Hf7. right.
      split; [done|]. split; [congruence|]. eauto. }
  exists (Listening a). split; [constructor|]. intros Hf5. apply wp_bind.
  eapply wp_l_load; [done|]. apply wp_bind. eapply wp_l_store; [done|].
  intros s6 Hs6 Hf6. left. split; [done|]. by exists a.
Qed.

Lemma accept_spec fd sp s : 0 <= fd -> at_phase (Listening fd) [] (LocalTransport fd (-1) sp) s ->
  wp (local_transport_accept (Some p)) (fun r s' =>
    (r = 0 /\ exists client, 0 <= client /\
       at_phase (Connected fd client) [] (LocalTransport fd client sp) s') \/
    (r <> 0 /\ at_phase (Listening fd) [] (LocalTransport fd (-1) sp) s')) s.
Proof.
  intros Hfd Hf. cbn [local_transport_accept]. apply wp_bind. eapply wp_l_load; [done|].
  cbn [listen_fd]. destruct (Z.ltb_spec fd 0); [lia|]. apply wp_bind. call_step s1 Hs1.
  destruct (Z.ltb_spec a 0).
  - exists (Listening fd). split; [by constructor|]. intros Hf1. by right.
  - exists (Connected fd a). split; [by constructor|]. intros Hf1. apply wp_bind.
    eapply wp_l_store; [done|]. intros s2 Hs2 Hf2. left. split; [done|]. by exists a.
Qed.

Context (signals : W -> nat)
  (interrupted : forall fd timeout w,
     let '(r, e, _, w') := local_poll fd POLLIN timeout w in
     r < 0 -> e = EINTR -> (signals w' < signals w)%nat).

Lemma local_poll_loop_spec fuel fd client sent t timeout s :
  at_phase (Connected fd client) sent t s -> (signals (l_kernel s) < fuel)%nat ->
  wp (local_poll_loop fuel client timeout) (fun _ s' =>
    transport_fd s' = transport_fd s /\ at_phase (Connected fd client) sent t s') s.
Proof.
  revert s. induction fuel as [|fuel IH]; intros s Hf Hs; [lia|]. cbn [local_poll_loop].
  pose proof (interrupted client timeout (l_kernel s)) as Hi.
  destruct Hf as (Ht & es & Htr & Hrun & Hsent). apply wp_bind. unfold wp at 1, l_call.
  destruct (local_poll client POLLIN timeout (l_kernel s)) as [[[r e] v] w]. cbn [fst].
  set (s1 := LocalState _ _ _ _).
  assert (Hf1 : at_phase (Connected fd client) sent t s1).
  { split; [done|]. exists (es ++ [LPoll client r]). cbn [s1 l_trace]. rewrite Htr, app_assoc.
    split_and!; [done|eapply run_snoc; [done|constructor]|].
    unfold bytes_sent in *. rewrite map_app, concat_app, Hsent. cbn. by rewrite app_nil_r. }
  destruct ((r <? 0) && (e =? EINTR)) eqn:E; [|done].
  eapply wp_mono; [apply IH; [done|cbn [s1 l_kernel]; lia]|]. by intros _ s' [-> Hf'].
Qed.

Lemma local_do_spec fuel fd client sp sent u s : 0 <= client ->
  at_phase (Connected fd client) sent (LocalTransport fd client sp) s -> transport_fd s = client ->
  (forall w, (signals w < fuel)%nat) ->
  wp (local_do fuel p u) (fun r s' => transport_fd s' = client /\
    at_phase (Connected fd client) (sent ++ accepted_bytes [u] [r]) (LocalTransport fd client sp) s') s.
Proof.
  intros Hc Hf Hfd Hsig. destruct u as [c| |timeout]; cbn [local_do accepted_bytes]; rewrite ?app_nil_r.
  - apply wp_bind. change (wp get_transport_fd ?Q s) with (Q (transport_fd s) s). cbv beta. rewrite Hfd.
    apply wp_bind. eapply wp_l_call; [done|]. intros n s1 Hs1. cbn [sent_by].
    exists (Connected fd client). split; [constructor|]. intros Hf1. apply wp_ret.
    split; [by rewrite Hs1|]. rewrite app_nil_r. by destruct (n =? 1).
  - apply wp_bind. change (wp get_transport_fd ?Q s) with (Q (transport_fd s) s). cbv beta. rewrite Hfd.
    apply wp_bind. call_step s1 Hs1. destruct a as [n c].
    exists (Connected fd client). split; [constructor|]. intros Hf1. apply wp_ret.
    split; [by rewrite Hs1|done].
  - cbn [local_transport_wait]. apply wp_bind. eapply wp_l_load; [done|]. cbn [client_fd].
    destruct (Z.ltb_spec client 0); [lia|]. apply wp_bind.
    eapply wp_mono; [by apply (local_poll_loop_spec fuel fd client sent (LocalTransport fd client sp))|].
    intros [r v] s1 [Hs1 Hf1]. case_test; apply wp_ret; (split; [congruence|done]).
Qed.

Lemma local_uses_spec fuel fd client sp us : 0 <= client -> (forall w, (signals w < fuel)%nat) ->
  forall sent s,
  at_phase (Connected fd client) sent (LocalTransport fd client sp) s -> transport_fd s = client ->
  wp (local_uses fuel p us) (fun rs s' =>
    length rs = length us /\
    at_phase (Connected fd client) (sent ++ accepted_bytes us rs) (LocalTransport fd client sp) s') s.
Proof.
  intros Hc Hsig. induction us as [|u us IH]; intros sent s Hf Hfd; cbn [local_uses].
  { apply wp_ret. split; [done|]. cbn. by rewrite app_nil_r. }
  apply wp_bind. eapply wp_mono; [by apply local_do_spec|]. intros r s1 [Hs1 Hf1].
  apply wp_bind. eapply wp_mono; [by apply IH|]. intros rs s2 [Hl Hf2]. apply wp_ret.
  split; [cbn; lia|]. rewrite <- app_assoc in Hf2.
  replace (accepted_bytes (u :: us) (r :: rs)) with (accepted_bytes [u] [r] ++ accepted_bytes us rs); [done|].
  destruct u; [|done..]. cbn. by rewrite app_nil_r.
Qed.

(** The array [socket_path] holds the path. *)
Lemma socket_path_text : cstr_ok path -> zlen path < 108 -> cstring (strncpy_zeroed 108 path) = Some path.
Proof.
  intros Hok Hl. unfold strncpy_zeroed. rewrite take_ge by (unfold zlen in Hl; lia).
  assert (Hn : (Z.to_nat 108 - length path)%nat = S (Z.to_nat 108 - length path - 1)) by (unfold zlen in Hl; lia).
  rewrite Hn. by apply cstring_app.
Qed.

Lemma close_spec fd client sent s : cstr_ok path -> zlen path < 108 -> 0 <= fd ->
  at_phase (if 0 <=? client then Connected fd client else Listening fd) sent
    (LocalTransport fd client (strncpy_zeroed 108 path)) s ->
  wp (local_transport_close (Some p)) (fun _ s' => transport_fd s' = -1 /\
    exists t', listen_fd t' = -1 /\ client_fd t' < 0 /\ at_phase Idle sent t' s') s.
Proof.
  intros Hok Hl Hfd Hf. cbn [local_transport_close]. apply wp_bind. eapply wp_l_load; [done|].
  cbn [client_fd]. apply wp_bind.
  assert (Hmid : wp (if 0 <=? client then do! close_fd client;
      l_store p (set_client_fd (LocalTransport fd client (strncpy_zeroed 108 path)) (-1)) else ret tt)
    (fun _ s1 => exists c', c' < 0 /\
       at_phase (Listening fd) sent (LocalTransport fd c' (strncpy_zeroed 108 path)) s1) s).
  { destruct (Z.leb_spec 0 client).
    - apply wp_bind. eapply close_fd_spec; [done|constructor|]. intros s1 Hs1 Hf1.
      eapply wp_l_store; [done|]. intros s2 Hs2 Hf2. by exists (-1).
    - apply wp_ret. by exists client. }
  eapply wp_mono; [exact Hmid|]. clear Hmid Hf. intros _ s1 (c' & Hc' & Hf).
  apply wp_bind. eapply wp_l_load; [done|]. cbn [listen_fd socket_path].
  destruct (Z.leb_spec 0 fd); [|lia]. apply wp_bind, wp_bind.
  eapply close_fd_spec; [done|constructor|]. intros s2 Hs2 Hf2. apply wp_bind.
  eapply wp_l_store; [done|]. intros s3 Hs3 Hf3. apply wp_bind.
  eapply wp_lift; [by apply socket_path_text|]. apply wp_bind.
  eapply unlink_spec; [done|constructor|]. intros _ s4 Hs4 Hf4. apply wp_ret.
  split; [done|]. by eexists (LocalTransport (-1) c' _).
Qed.
End session.
End protocol.

(** C39. A session of the local transport, on every path and with any use in
    between, follows the protocol of a listening socket from idle to idle: the
    socket file of the configured path is cleared, bound and, once bound,
    removed again; every descriptor opened is closed exactly once; the hooks
    and the wait use only the accepted client; and the bytes the kernel took
    are, in order, exactly those whose [send_char] returned 0.  Afterwards no
    descriptor is left in the transport, and the session returns however often
    signals interrupt the wait. *)
Theorem local_session_protocol {W} `{LocalSockets W} (signals : W -> nat) fuel p path us t (s : local_state W) :
  (forall fd timeout w,
     let '(r, e, _, w') := local_poll fd POLLIN timeout w in
     r < 0 -> e = EINTR -> (signals w' < signals w)%nat) ->
  (forall w, (signals w < fuel)%nat) ->
  cstr_ok path -> zlen path < 108 -> local_transports s !! p = Some t ->
  wp (local_session fuel p path us) (fun '(code, rs) s' =>
    (code = 0 \/ code = 1) /\
    (exists es, l_trace s' = l_trace s ++ es /\ run (socket_step path) Idle es Idle /\
       bytes_sent es = accepted_bytes us rs) /\
    (exists t', local_transports s' !! p = Some t' /\ listen_fd t' = -1 /\ client_fd t' < 0) /\
    (code = 0 -> transport_fd s' = -1 /\ length rs = length us)) s.
Proof.
  intros Hint Hsig Hok Hl Ht.
  assert (Hf : follows (socket_step path) Idle (l_trace s) p Idle [] t s).
  { split; [done|]. exists []. rewrite app_nil_r. split_and!; [done|constructor|done]. }
  unfold local_session. apply wp_bind. eapply wp_mono; [by eapply listen_spec|].
  intros r s1 [(-> & fd & Hfd & Hf1)|(Hr & _ & t1 & [? Hc1] & Hf1)].
  2:{ destruct (Z.eqb_spec r 0); [done|]. cbn [negb]. apply wp_ret. destruct Hf1 as [Ht1 Hes].
      split_and!; [by right|by rewrite accepted_nil|eexists; split_and!; [done|done|lia]|done]. }
  cbn [Z.eqb negb]. apply wp_bind. eapply wp_mono; [by eapply accept_spec|].
  intros r s2 [(-> & client & Hc & Hf2)|(Hr & Hf2)].
  2:{ destruct (Z.eqb_spec r 0); [done|]. cbn [negb]. apply wp_bind.
      eapply wp_mono; [by apply (close_spec path (l_trace s) p fd (-1) [])|].
      intros _ s3 (_ & t3 & ? & ? & Ht3 & Hes). apply wp_ret.
      split_and!; [by right|by rewrite accepted_nil|by exists t3|done]. }
  cbn [Z.eqb negb]. apply wp_bind. cbn [local_transport_activate]. apply wp_bind.
  eapply wp_l_load; [done|]. cbn [client_fd].
  change (wp (set_transport_fd ?f) ?Q ?x) with
    (Q tt (LocalState f (local_transports x) (l_kernel x) (l_trace x))). cbv beta.
  apply wp_bind. eapply wp_mono; [by eapply (local_uses_spec path (l_trace s) p signals Hint fuel fd client _ us Hc Hsig [])|].
  intros rs s3 [Hlen Hf3]. apply wp_bind.
  eapply wp_mono; [apply (close_spec path (l_trace s) p fd client (accepted_bytes us rs)); try done|].
  { by destruct (Z.leb_spec 0 client); [|lia]. }
  intros _ s4 (Hfd4 & t4 & ? & ? & Ht4 & Hes). apply wp_ret.
  split_and!; [by left|done|by exists t4|done].
Qed.

(** ** A session on a small kernel *)

(** Sockets 3 and 4; every third byte is refused; a signal comes before each
    wait. *)
Record toy_local := ToyLocal { tl_next : Z; tl_sends : Z; tl_signals : bool }.
#[local] Instance toy_local_sockets : LocalSockets toy_local := {
  local_socket w := (tl_next w, ToyLocal (tl_next w + 1) (tl_sends w) (tl_signals w));
  local_unlink _ w := (0, w);
  local_bind _ _ w := (0, w);
  local_listen _ _ w := (0, w);
  local_accept _ w := (tl_next w, ToyLocal (tl_next w + 1) (tl_sends w) (tl_signals w));
  local_connect _ _ w := (0, w);
  local_close _ w := w;
  local_send _ _ w :=
    (if tl_sends w mod 3 =? 2 then -1 else 1, ToyLocal (tl_next w) (tl_sends w + 1) true);
  local_recv _ w := ((1, 65), w);
  local_poll _ _ _ w :=
    if tl_signals w then ((-1, EINTR, 0), ToyLocal (tl_next w) (tl_sends w) false) else ((1, 0, POLLIN), w);
  local_clock _ := (0, 0) }.
Definition toy_local_start : local_state toy_local :=
  LocalState (-1) {[ 1%nat := LocalTransport 0 0 [] ]} (ToyLocal 3 0 true) [].
Definition toy_uses : list local_use := [use_send 10; use_send 20; use_wait 20; use_send 30; use_recv].

Lemma local_session_protocol_witness :
  wp (local_session 2 1 local_transport_default_socket_path toy_uses) (fun '(code, rs) s' =>
    (code = 0 \/ code = 1) /\
    (exists es, l_trace s' = [] ++ es /\ run (socket_step local_transport_default_socket_path) Idle es Idle /\
       bytes_sent es = accepted_bytes toy_uses rs) /\
    (exists t', local_transports s' !! 1%nat = Some t' /\ listen_fd t' = -1 /\ client_fd t' < 0) /\
    (code = 0 -> transport_fd s' = -1 /\ length rs = length toy_uses)) toy_local_start.
Proof.
  apply (local_session_protocol (fun w => if tl_signals w then 1%nat else 0%nat) 2 1
    local_transport_default_socket_path toy_uses (LocalTransport 0 0 []) toy_local_start).
  - intros fd timeout w. cbn. destruct (tl_signals w); cbn; lia.
  - intros w. destruct (tl_signals w); lia.
  - repeat constructor.
  - closed.
  - reflexivity.
Defined.

(** In it the client is socket 4, and two of three bytes are taken. *)
Lemma toy_session_runs :
  wp (local_session 2 1 local_transport_default_socket_path toy_uses) (fun r s' =>
    r = (0, [0; 0; 1; -1; 65]) /\ bytes_sent (l_trace s') = [10; 20]) toy_local_start.
Proof. vm_compute. by split. Qed.
