(* ===== verification/Log.v ===== *)
(** The server log (src/log/server_log.c).  What is written is recorded with
    the sink it goes to. *)
From stdpp Require Import base numbers list option strings.
From Stdlib Require Import ZArith Lia.
From S2P Require Import Prelude CLib Config.

Local Open Scope Z_scope.
Local Open Scope squid_scope.

Inductive server_log_level :=
  server_log_level_info | server_log_level_warning | server_log_level_error.

Definition server_log_level_name (level : server_log_level) : list Z :=
  match level with
  | server_log_level_info => text "info"
  | server_log_level_warning => text "warning"
  | server_log_level_error => text "error"
  end.

(** LOG_INFO, LOG_WARNING and LOG_ERR of <syslog.h>. *)
Definition server_log_level_priority (level : server_log_level) : Z :=
  match level with
  | server_log_level_info => 6
  | server_log_level_warning => 4
  | server_log_level_error => 3
  end.

Inductive log_line := Syslog (priority : Z) (message : list Z) | Stdout (line : list Z).

(** The file-scope [current_run_mode], the connection to syslog, and the
    lines written. *)
Record log_state := LogState {
  current_run_mode : server_run_mode;
  syslog_open : bool;
  log_lines : list log_line }.

Definition is_daemon (m : server_run_mode) : bool :=
  match m with server_run_mode_daemon => true | server_run_mode_console => false end.

Definition init_server_log (run_mode : server_run_mode) (l : log_state) : log_state :=
  LogState run_mode (is_daemon run_mode || syslog_open l) (log_lines l).

Definition close_server_log (l : log_state) : log_state :=
  LogState (current_run_mode l) (negb (is_daemon (current_run_mode l)) && syslog_open l)
    (log_lines l).

Definition write_server_log (level : server_log_level) (message : option (list Z)) (l : log_state)
    : log_state :=
  let msg := default [] message in
  let line :=
    if is_daemon (current_run_mode l) then Syslog (server_log_level_priority level) msg
    else Stdout (text "[" ++ server_log_level_name level ++ text "] " ++ msg ++ [10]) in
  LogState (current_run_mode l) (syslog_open l) (log_lines l ++ [line]).

(** [strerror] is the text for the error number. *)
Definition write_server_log_errno (strerror : Z -> option (list Z)) (level : server_log_level)
    (message : option (list Z)) (error_number : Z) (l : log_state) : log_state :=
  let msg := default [] message in
  let error_text :=
    match strerror error_number with
    | None | Some [] => text "unknown error"
    | Some t => t
    end in
  write_server_log level (Some (snprintf 512 (msg ++ text ": " ++ error_text)).1) l.
