(* ===== verification/Server.v ===== *)
(** The life of the server: run_server_runtime and what it calls
    (src/runtime/server_runtime.c), and run_server_app (src/app/server_app.c).
    It puts the configuration, the loader, the transports, the sockets and the
    dispatch loop together. *)
From stdpp Require Import base numbers list option gmap strings relations.
From Stdlib Require Import ZArith Lia.
From S2P Require Import Prelude CLib PluginApi Registry Config Loader Runtime Serial SerialProps Local Log.

Local Open Scope Z_scope.
Local Open Scope squid_scope.

(** ** The process *)

(** Process control, signals, the configuration file and [errno], over the
    world [W] the plugins live in. *)
Class Process (W : Type) := {
  fork : W -> Z * W;
  setsid : W -> Z * W;
  chdir : list Z -> W -> Z * W;
  umask : Z -> W -> W;
  (** [freopen("/dev/null", mode, stream)]: whether it succeeded *)
  freopen_null : list Z -> W -> bool * W;
  (** [signal(number, handler)]: whether it was installed *)
  install_handler : Z -> W -> bool * W;
  (** the content of a file, [None] when it cannot be opened *)
  read_file : list Z -> W -> option (list Z) * W;
  errno : W -> Z;
  strerror : Z -> option (list Z) }.

Definition SIGINT : Z := 2.
Definition SIGTERM : Z := 15.

(** The timing the server starts the engine with. *)
Definition squid_timing_defaults : squid_timing := SquidTiming 200 0 0 5 0.
Definition set_payload (t : squid_timing) (payload : Z) : squid_timing :=
  SquidTiming (timeout_ticks t) (ack_delay_ticks t) (ping_ticks t) (max_retries t) payload.

(** ** struct server_runtime

    [sv_runtime] holds the registry and the per-port arrays; the two transports
    are the objects at address 0 of the transports' memories. *)
Record server (P : Type) := Server {
  sv_config : server_config;
  sv_plugin_config : server_plugin_config_file;
  sv_loader : server_plugin_loader P;
  sv_runtime : server_runtime P }.
Arguments Server {P} _ _ _ _.
Arguments sv_config {P} _.
Arguments sv_plugin_config {P} _.
Arguments sv_loader {P} _.
Arguments sv_runtime {P} _.

Definition transport_address : nat := 0.

(** What the server's calls change. *)
Record sv_state (N W K L : Type) := SvState {
  sv_net : N;
  sv_ld : ld_state W;
  sv_serial : serial_state K;
  sv_local : local_state L;
  sv_log : log_state }.
Arguments SvState {N W K L} _ _ _ _ _.
Arguments sv_net {N W K L} _.
Arguments sv_ld {N W K L} _.
Arguments sv_serial {N W K L} _.
Arguments sv_local {N W K L} _.
Arguments sv_log {N W K L} _.

Section server.
Context {N W K L : Type} `{Squid N} `{SquidInit N} `{Linker W} `{Process W} `{Tty K}
  `{LocalSockets L}.
(** [getenv("SQUID_SERVER_STAGE_ROOT")]. *)
Variable stage_root : option (list Z).
Local Abbreviation plugin := (server_plugin W).
Local Abbreviation M := (ST (sv_state N W K L)).

(** *** Calls into the components *)

Definition on_loader {A} (m : ST (ld_state W) A) : M A := fun s =>
  match m (sv_ld s) with
  | Some (a, ld) => Some (a, SvState (sv_net s) ld (sv_serial s) (sv_local s) (sv_log s))
  | None => None
  end.
Definition on_engine {A} (m : ST (N * W) A) : M A := fun s =>
  match m (sv_net s, ld_world (sv_ld s)) with
  | Some (a, (n, w)) =>
      Some (a, SvState n (LdState w (ld_trace (sv_ld s))) (sv_serial s) (sv_local s) (sv_log s))
  | None => None
  end.
Definition on_serial {A} (m : ST (serial_state K) A) : M A := fun s =>
  match m (sv_serial s) with
  | Some (a, t) => Some (a, SvState (sv_net s) (sv_ld s) t (sv_local s) (sv_log s))
  | None => None
  end.
Definition on_local {A} (m : ST (local_state L) A) : M A := fun s =>
  match m (sv_local s) with
  | Some (a, t) => Some (a, SvState (sv_net s) (sv_ld s) (sv_serial s) t (sv_log s))
  | None => None
  end.
Definition on_log (f : log_state -> log_state) : M unit := fun s =>
  Some (tt, SvState (sv_net s) (sv_ld s) (sv_serial s) (sv_local s) (f (sv_log s))).
Definition on_process {A} (f : W -> A * W) : M A := on_loader (linker f (fun _ => [])).

Definition log (level : server_log_level) (message : list Z) : M unit :=
  on_log (write_server_log level (Some message)).
(** [write_server_log_errno(level, message, errno)]. *)
Definition log_errno (level : server_log_level) (message : list Z) : M unit := fun s =>
  on_log (write_server_log_errno strerror level (Some message) (errno (ld_world (sv_ld s)))) s.

(** *** Helpers *)

(** ["%d"]. *)
Definition printf_d (n : Z) : list Z :=
  if n <? 0 then 45 :: digits 10 (- n) else digits 10 n.

Definition write_plugin_load_log (level : server_log_level) (port_number : Z)
    (plugin_path message : option (list Z)) : M unit :=
  log level (snprintf 768 (text "plugin port " ++ digits 3 port_number ++ text " path "
    ++ default (text "(null)") plugin_path ++ text ": " ++ default [] message)).1.

Definition install_signal_handlers : M Z :=
  let! ok := on_process (install_handler SIGINT) in
  if negb ok then ret (-1)
  else
    let! ok := on_process (install_handler SIGTERM) in
    if negb ok then ret (-1) else ret 0.

(** [inl] is the exit of the process by [_exit]. *)
Definition daemonize_process : M (Z + Z) :=
  let! process_id := on_process fork in
  if process_id <? 0 then ret (inr (-1))
  else if 0 <? process_id then ret (inr 0)
  else
    let! session := on_process setsid in
    if session <? 0 then ret (inr (-1))
    else
      let! process_id := on_process fork in
      if process_id <? 0 then ret (inr (-1))
      else if 0 <? process_id then ret (inl 0)
      else
        let! changed := on_process (chdir (text "/")) in
        if negb (changed =? 0) then ret (inr (-1))
        else
          do! on_process (fun w => (tt, umask 0 w));
          let! input := on_process (freopen_null (text "stdin")) in
          if negb input then ret (inr (-1))
          else
            let! output := on_process (freopen_null (text "stdout")) in
            if negb output then ret (inr (-1))
            else
              let! error := on_process (freopen_null (text "stderr")) in
              if negb error then ret (inr (-1)) else ret (inr 1).

(** *** Loading the configured plugins *)

Definition set_plugins (sv : server plugin) (loader : server_plugin_loader plugin)
    (slots : list (server_plugin_slot plugin)) : server plugin :=
  Server (sv_config sv) (sv_plugin_config sv) loader
    (Runtime (rt_ports (sv_runtime sv)) slots).

(** One call of [load_server_plugin] with its log line: the C result, the
    runtime and the buffer [load_error]. *)
Definition load_and_log (sv : server plugin) (port_number : Z) (plugin_path : list Z)
    (load_error : list Z) : M (Z * server plugin * list Z) :=
  let! '(r, loader, slots, load_error') :=
    on_loader (load_server_plugin stage_root (Some (sv_loader sv))
      (Some (plugin_registry (sv_runtime sv))) port_number (Some plugin_path)
      (Some load_error) 512) in
  let! loader := lift loader in
  let! slots := lift slots in
  let! load_error := lift load_error' in
  let sv := set_plugins sv loader slots in
  if negb (r =? 0) then
    let! message := lift (cstring load_error) in
    do! write_plugin_load_log server_log_level_error port_number (Some plugin_path) (Some message);
    ret (-1, sv, load_error)
  else
    do! write_plugin_load_log server_log_level_info port_number (Some plugin_path)
          (Some (text "loaded"));
    ret (0, sv, load_error).

Fixpoint load_mappings (sv : server plugin) (ms : list server_plugin_mapping)
    (load_error : list Z) : M (Z * server plugin) :=
  match ms with
  | [] => ret (0, sv)
  | m :: ms =>
      let! '(r, sv, load_error) := load_and_log sv (map_port m) (map_path m) load_error in
      if negb (r =? 0) then ret (-1, sv) else load_mappings sv ms load_error
  end.

Definition load_configured_plugins (sv : server plugin) : M (Z * server plugin) :=
  let path := config_path (sv_config sv) in
  let! file := on_process (read_file path) in
  let '(parsed, plugin_config, config_error) :=
    parse_server_plugin_config_file (Some path) file in
  let sv := Server (sv_config sv) plugin_config (sv_loader sv) (sv_runtime sv) in
  if negb (parsed =? 0) then
    do! log_errno server_log_level_error (text "failed to read plugin configuration");
    do! match config_error with
        | Some message => log server_log_level_error message
        | None => ret tt
        end;
    ret (-1, sv)
  else
    let! '(r, sv, load_error) :=
      load_and_log sv server_system_port (system_plugin_path plugin_config) (uninit 512) in
    if negb (r =? 0) then ret (-1, sv)
    else load_mappings sv (mappings plugin_config) load_error.

(** *** Start *)

(** [init_server_runtime]. *)
Definition init_server (config : server_config) : server plugin :=
  Server config init_server_plugin_config_file
    (default (Loader [] 0) (init_server_plugin_loader (Some (Loader (replicate 16 zero_entry) 0))))
    (init_server_runtime (replicate 16 (Slot 0 None))).

Definition unload_plugins (sv : server plugin) : M (server plugin) :=
  let! '(loader, slots) :=
    on_loader (unload_server_plugins (Some (sv_loader sv))
      (Some (plugin_registry (sv_runtime sv)))) in
  let! loader := lift loader in
  let! slots := lift slots in
  ret (set_plugins sv loader slots).

(** [unload_server_plugins(...); close_server_log(); return code;]. *)
Definition leave_server (sv : server plugin) (code : Z) : M Z :=
  do! unload_plugins sv;
  do! on_log close_server_log;
  ret code.

Definition uses_serial (sv : server plugin) : bool :=
  negb (eq_text (serial_device (sv_plugin_config sv)) []).

Definition serial_cfg (c : server_plugin_config_file) : serial_transport_config :=
  SerialConfig (Some (serial_device c)) (serial_baud c) (serial_databits c) (serial_parity c)
    (serial_stopbits c) (serial_flow c).

(** The transport branch of [run_server_runtime]: [false] when it failed and
    everything of the transport is released. *)
Definition open_transport (sv : server plugin) (timing : squid_timing) : M bool :=
  if uses_serial sv then
    let device := serial_device (sv_plugin_config sv) in
    do! log server_log_level_info
          (snprintf 128 (text "opening serial transport on " ++ device ++ text " at "
             ++ printf_d (serial_baud (sv_plugin_config sv)) ++ text " baud")).1;
    let! opened := on_serial (serial_transport_open (Some transport_address)
                                (Some (serial_cfg (sv_plugin_config sv)))) in
    if negb (opened =? 0) then
      do! log_errno server_log_level_error (text "failed to open serial transport");
      ret false
    else
      do! on_serial (serial_transport_activate (Some transport_address));
      do! on_engine (net (fun n => (tt, snet_init timing n)));
      ret true
  else
    let! listening := on_local (local_transport_listen (Some transport_address)
                                  (Some local_transport_default_socket_path)) in
    if negb (listening =? 0) then
      do! log_errno server_log_level_error (text "failed to create local transport socket");
      ret false
    else
      do! log server_log_level_info
            (snprintf 128 (text "waiting for client on " ++ local_transport_default_socket_path)).1;
      let! accepted := on_local (local_transport_accept (Some transport_address)) in
      if negb (accepted =? 0) then
        do! log_errno server_log_level_error (text "failed to accept client connection");
        do! on_local (local_transport_close (Some transport_address));
        ret false
      else
        do! log server_log_level_info (text "client connected");
        do! on_local (local_transport_activate (Some transport_address));
        do! on_engine (net (fun n => (tt, snet_init timing n)));
        ret true.

Definition set_runtime (sv : server plugin) (rt : server_runtime plugin) : server plugin :=
  Server (sv_config sv) (sv_plugin_config sv) (sv_loader sv) rt.

(** [run_server_runtime] up to the dispatch loop: the exit code when it does
    not get there, the runtime when it does. *)
Definition start_runtime (sv : server plugin) : M (Z + server plugin) :=
  do! on_log (init_server_log (run_mode (sv_config sv)));
  let! installed := install_signal_handlers in
  if negb (installed =? 0) then
    do! log_errno server_log_level_error (text "failed to install signal handlers");
    do! on_log close_server_log;
    ret (inl 1)
  else
    let! '(loaded, sv) := load_configured_plugins sv in
    if negb (loaded =? 0) then let! code := leave_server sv 1 in ret (inl code)
    else
      let timing := set_payload squid_timing_defaults (u8 (squid_payload (sv_plugin_config sv))) in
      do! log server_log_level_info
            (snprintf 128 (text "squid-server starting in "
               ++ server_run_mode_name (run_mode (sv_config sv)) ++ text " mode with "
               ++ digits 20 server_port_count ++ text " plugin slots and "
               ++ digits 20 (Z.of_nat (loaded_count (sv_loader sv))) ++ text " loaded plugins")).1;
      let! opened := open_transport sv timing in
      if negb opened then let! code := leave_server sv 1 in ret (inl code)
      else
        let! rt := on_engine (open_plugin_sockets (sv_runtime sv)) in
        ret (inr (set_runtime sv rt)).

Definition start_server (runtime : option (server plugin)) : M (Z + server plugin) :=
  match runtime with
  | None => ret (inl 1)
  | Some sv =>
      if is_daemon (run_mode (sv_config sv)) then
        let! daemon_result := daemonize_process in
        match daemon_result with
        | inl code => ret (inl code)
        | inr r =>
            if r <? 0 then
              do! log_errno server_log_level_error (text "failed to daemonize squid-server");
              ret (inl 1)
            else if r =? 0 then ret (inl 0)
            else start_runtime sv
        end
      else start_runtime sv
  end.

(** *** Shutdown *)

Definition close_transport (sv : server plugin) : M unit :=
  if uses_serial sv then on_serial (serial_transport_close (Some transport_address))
  else on_local (local_transport_close (Some transport_address)).

(** [run_server_runtime] after the dispatch loop has returned. *)
Definition finish_server (sv : server plugin) : M Z :=
  let! rt := on_engine (close_plugin_sockets (sv_runtime sv)) in
  let sv := set_runtime sv rt in
  do! close_transport sv;
  do! log server_log_level_info (text "squid-server shutting down");
  leave_server sv 0.

(** *** Whole runs

    While the dispatch loop runs, the engine calls the transport's hooks and
    the loop waits on it, in an order that only libsquid knows: any sequence
    of such calls. *)
Definition transport_used (sv : server plugin) (s s' : sv_state N W K L) : Prop :=
  if uses_serial sv then
    sv_local s' = sv_local s /\ exists fuel calls rs, Forall call_ok calls /\
      serial_run fuel transport_address calls (sv_serial s) = Some (rs, sv_serial s')
  else
    sv_serial s' = sv_serial s /\ exists fuel us rs,
      local_uses fuel transport_address us (sv_local s) = Some (rs, sv_local s').

(** The dispatch loop with the transport under it; [s'] is the state when the
    loop has taken some steps. *)
Inductive serves (sv : server plugin) (s : sv_state N W K L)
    : loop_state (N := N) (S := W) -> sv_state N W K L -> Prop :=
| serves_intro l s' :
    rtc loop_step
      (LoopState Handshake true (sv_runtime sv) (sv_net s, ld_world (sv_ld s))) l ->
    lp_world l = (sv_net s', ld_world (sv_ld s')) ->
    ld_trace (sv_ld s') = ld_trace (sv_ld s) ->
    transport_used sv s s' ->
    syslog_open (sv_log s') = syslog_open (sv_log s) ->
    current_run_mode (sv_log s') = current_run_mode (sv_log s) ->
    serves sv s l s'.

(** [run_server_runtime]: the exit code and the state at the end. *)
Inductive run_server_runtime (runtime : option (server plugin)) (s : sv_state N W K L)
    : Z -> sv_state N W K L -> Prop :=
| run_exits code s' :
    start_server runtime s = Some (inl code, s') -> run_server_runtime runtime s code s'
| run_serves sv s1 l s2 code s3 :
    start_server runtime s = Some (inr sv, s1) ->
    serves sv s1 l s2 -> lp_phase l = Returned ->
    finish_server (set_runtime sv (lp_runtime l)) s2 = Some (code, s3) ->
    run_server_runtime runtime s code s3.

(** [run_server_app]; the usage text that is printed is not part of the
    state. *)
Inductive run_server_app (argv : list (list Z)) (s : sv_state N W K L)
    : Z -> sv_state N W K L -> Prop :=
| app_error config message :
    parse_server_config argv = (-1, config, message) -> run_server_app argv s 1 s
| app_help config message :
    parse_server_config argv = (0, config, message) -> show_help config = true ->
    run_server_app argv s 0 s
| app_runs config message code s' :
    parse_server_config argv = (0, config, message) -> show_help config = false ->
    run_server_runtime (Some (init_server config)) s code s' ->
    run_server_app argv s code s'.
End server.
