(* ===== verification/ServerProps.v ===== *)
(** The life of the server: the configured plugins are loaded exactly and
    unloaded in reverse, the dispatch loop starts from a well-formed runtime,
    and every way out releases what was acquired. *)
From stdpp Require Import base numbers list option gmap strings relations.
From Stdlib Require Import ZArith Lia.
From S2P Require Import Prelude CLib PluginApi Registry Config ConfigProps Loader Runtime RuntimeProps.
From S2P Require Import Serial SerialProps Local LocalProps Log Server.

Local Open Scope Z_scope.
Local Open Scope squid_scope.

(** ** Nested use of libraries *)

(** Libraries are opened and closed like brackets; between them the plugin is
    started, successfully, before and stopped after everything loaded inside;
    a failed load undoes itself. *)
Inductive nested : list ld_event -> Prop :=
| nested_nil : nested []
| nested_failed evs rest : undone evs -> nested rest -> nested (evs ++ rest)
| nested_plugin lib h port start inner stop rest :
    start = [] \/ start = [LStart port 0] -> stop = [] \/ stop = [LStop port] ->
    nested inner -> nested rest ->
    nested ([LOpen lib h] ++ start ++ inner ++ stop ++ [Loader.LClose h] ++ rest).

(** The libraries that were opened, in order. *)
Definition opened_in (e : ld_event) : list (list Z) :=
  match e with LOpen lib _ => [lib] | _ => [] end.
Definition opened (evs : list ld_event) : list (list Z) := concat (map opened_in evs).

Section brackets.
Context {W : Type}.
Variable stage_root : option (list Z).

(** A loaded plugin: its library was opened, then it was started. *)
Definition start_events (e : loaded_server_plugin (server_plugin W)) : list ld_event :=
  match loaded_handle e with Some h => [LOpen (library stage_root (loaded_path e)) h] | None => [] end ++
  match loaded_plugin e with
  | Some p => match plugin_start p with Some _ => [LStart (loaded_port e) 0] | None => [] end
  | None => []
  end.

Lemma brackets es u :
  Forall entry_ok es -> undone u ->
  nested (concat (map start_events es) ++ u ++ concat (map stop_events (reverse es))).
Proof.
  intros Hes Hu. induction Hes as [|e es (_ & [h Hh] & p & Hp & _) _ IH].
  { cbn. rewrite <- (app_nil_r []). apply nested_failed; [done|constructor]. }
  cbn [map concat]. unfold start_events at 1. rewrite Hh, Hp, reverse_cons, map_app, concat_app.
  cbn [map concat]. unfold stop_events at 2. rewrite Hh, Hp, app_nil_r, <- !app_assoc.
  rewrite <- (app_nil_r [Loader.LClose h]).
  rewrite (app_assoc u), (app_assoc (concat (map start_events es))).
  apply (nested_plugin (library stage_root (loaded_path e)) h (loaded_port e)); [| |done|constructor].
  - destruct (plugin_start p); auto.
  - destruct (plugin_stop p); auto.
Qed.

Lemma opened_started es : Forall entry_ok es ->
  opened (concat (map start_events es)) = map (fun e => library stage_root (loaded_path e)) es.
Proof.
  unfold opened. induction 1 as [|e es (_ & [h Hh] & p & Hp & _) _ IH]; [done|].
  cbn [map concat]. rewrite map_app, concat_app, IH. unfold start_events. rewrite Hh, Hp.
  by destruct (plugin_start p).
Qed.
End brackets.

(** What a configuration asks for, in load order: the system plugin on port 0
    and then the mappings of the file, each a port and the path of a library. *)
Definition configured (c : server_plugin_config_file) : list (Z * list Z) :=
  (0, system_plugin_path c) :: map (fun m => (map_port m, map_path m)) (mappings c).

(** ** What the world around the server promises *)

(** [Inv] is an invariant of the world the plugins live in: the linker, the
    process calls and the plugins keep it, [dlerror] returns strings and files
    hold bytes.  A plugin of a library has callbacks without undefined
    behaviour and a handler that stays inside its buffer. *)
Definition plugin_keeps {W} (Inv : W -> Prop) (p : server_plugin W) : Prop :=
  safe_callbacks p /\
  (forall f w r w', plugin_start p = Some f \/ plugin_stop p = Some f ->
     Inv w -> f w = Some (r, w') -> Inv w') /\
  (forall f, plugin_handle_packet p = Some f -> SafePlugin Inv f).

Class SafeWorld (W : Type) `{Linker W} `{Process W} (Inv : W -> Prop) : Prop := {
  keep_dlopen : forall path w, Inv w -> Inv (dlopen path w).2;
  keep_dlerror : forall w, Inv w -> Inv (dlerror w).2;
  keep_dlsym : forall h w, Inv w -> Inv (dlsym h w).2;
  keep_factory : forall h w, Inv w -> Inv (factory h w).2;
  keep_dlclose : forall h w, Inv w -> Inv (dlclose h w);
  keep_fork : forall w, Inv w -> Inv (fork w).2;
  keep_setsid : forall w, Inv w -> Inv (setsid w).2;
  keep_chdir : forall path w, Inv w -> Inv (chdir path w).2;
  keep_umask : forall m w, Inv w -> Inv (umask m w);
  keep_freopen : forall stream w, Inv w -> Inv (freopen_null stream w).2;
  keep_handler : forall n w, Inv w -> Inv (install_handler n w).2;
  keep_read : forall path w, Inv w -> Inv (read_file path w).2;
  plugins_keep : forall h w p, (factory h w).1 = Some p -> plugin_keeps Inv p;
  dlerror_text : dlerror_strings (W := W);
  file_bytes : forall path w content, (read_file path w).1 = Some content -> bytes_ok content }.

(** A call of the world keeps the invariant. *)
Ltac world_keeps :=
  cbn [ld_world ld_trace];
  first [ apply keep_dlopen | apply keep_dlerror | apply keep_dlsym | apply keep_factory
        | apply keep_dlclose | apply keep_fork | apply keep_setsid | apply keep_chdir
        | apply keep_umask | apply keep_freopen | apply keep_handler | apply keep_read ]; assumption.

(** ** The loader keeps the invariant *)

Section loading.
Context {W : Type} `{SafeWorld W Inv}.
Local Abbreviation plugin := (server_plugin W).

Definition slots_keep (slots : list (server_plugin_slot plugin)) : Prop :=
  Forall (fun sl => match slot_plugin sl with Some p => plugin_keeps Inv p | None => True end) slots.

Lemma factory_callbacks h w p : (factory h w).1 = Some p -> safe_callbacks p.
Proof. intros E. by destruct (plugins_keep h w p E). Qed.

Lemma pc_linker {A} (f : W -> A * W) ev (Q : A -> ld_state W -> Prop) s :
  (forall a w, f (ld_world s) = (a, w) -> Q a (LdState w (ld_trace s ++ ev a))) ->
  pc (linker f ev) Q s.
Proof.
  intros HQ a s'. unfold linker. destruct (f (ld_world s)) as [b w] eqn:E.
  intros [= <- <-]. by apply HQ.
Qed.

Definition reg_keeps (reg : option (list (server_plugin_slot plugin))) : Prop :=
  match reg with Some slots => slots_keep slots | None => True end.

Lemma register_keeps slots port p r reg' :
  slots_keep slots -> plugin_keeps Inv p ->
  register_server_plugin (Some slots) port (Some p) = Some (r, reg') -> reg_keeps reg'.
Proof.
  intros Hs Hp. unfold register_server_plugin. case_test; [by intros [= _ <-]|].
  destruct (slots !! _) as [sl|]; [|done].
  destruct (slot_plugin sl); intros [= _ <-]; [done|]. by apply Forall_insert.
Qed.
Lemma clear_keeps reg port reg' :
  reg_keeps reg -> clear_plugin_slot reg port = Some reg' -> reg_keeps reg'.
Proof.
  destruct reg as [slots|]; cbn; [|by intros _ [= <-]].
  intros Hs. case_test; [by intros [= <-]|]. destruct (slots !! _); [|done].
  intros [= <-]. by apply Forall_insert.
Qed.

(** Every result of a load has the invariant. *)
Local Abbreviation kept := (fun (res : load_result (W := W)) (s' : ld_state W) =>
  Inv (ld_world s') /\ reg_keeps res.1.2).

Lemma load_fail_keeps l reg eb size msg s :
  Inv (ld_world s) -> reg_keeps reg -> pc (load_fail l reg eb size msg) kept s.
Proof.
  intros HI Hr. unfold load_fail. apply pc_bind, pc_lift. intros eb' _. by apply pc_ret.
Qed.
Lemma fail_close_keeps l reg eb size msg h s :
  Inv (ld_world s) -> reg_keeps reg ->
  pc (let! '(r, l, g, e) := load_fail l reg eb size msg in do! ld_close h; ret (r, l, g, e)) kept s.
Proof.
  intros HI Hr. apply pc_bind. eapply pc_mono; [by apply load_fail_keeps|].
  intros [[[r l'] g] e] s' [HI' Hg]. apply pc_bind, pc_linker. intros [] w [= <-].
  apply pc_ret. split; [|done]. world_keeps.
Qed.

Lemma load_keeps stage l slots port path eb size s :
  Inv (ld_world s) -> slots_keep slots ->
  pc (load_server_plugin stage (Some l) (Some slots) port (Some path) eb size) kept s.
Proof.
  intros HI Hs. unfold load_server_plugin. cbv zeta.
  case_test; [by apply load_fail_keeps|]. case_test; [by apply load_fail_keeps|].
  destruct (resolve_plugin_path _ _ _) as [resolved|]; [|by apply load_fail_keeps].
  apply pc_bind, pc_linker. intros h w1 E1.
  assert (HI1 : Inv w1) by (change w1 with (h, w1).2; rewrite <- E1; world_keeps).
  assert (Herr : forall w e w', dlerror w = (e, w') -> Inv w -> Inv w').
  { intros w e w' Ew HIw. change w' with (e, w').2. rewrite <- Ew. world_keeps. }
  destruct h as [h|].
  2: { apply pc_bind, pc_linker. intros e w2 E2. apply load_fail_keeps; [cbn; eauto|done]. }
  apply pc_bind, pc_linker. intros e2 w2 E2. cbn [ld_world] in E2. pose proof (Herr _ _ _ E2 HI1) as HI2.
  apply pc_bind, pc_linker. intros found w3 E3. cbn [ld_world] in E3.
  assert (HI3 : Inv w3) by (change w3 with (found, w3).2; rewrite <- E3; world_keeps).
  apply pc_bind, pc_linker. intros e4 w4 E4. cbn [ld_world] in E4. pose proof (Herr _ _ _ E4 HI3) as HI4.
  destruct (_ || _); [by apply fail_close_keeps|].
  apply pc_bind, pc_linker. intros p w5 E5. cbn [ld_world] in E5.
  assert (HI5 : Inv w5) by (change w5 with (p, w5).2; rewrite <- E5; world_keeps).
  destruct p as [p|]; [|by apply fail_close_keeps].
  assert (Hp : plugin_keeps Inv p) by (eapply (plugins_keep h w4); by rewrite E5).
  destruct (plugin_name p); [|by apply fail_close_keeps].
  apply pc_bind, pc_lift. intros [registered reg] Er. pose proof (register_keeps _ _ _ _ _ Hs Hp Er) as Hr.
  case_test; [by apply fail_close_keeps|]. apply pc_bind.
  set (s5 := LdState _ _).
  assert (Hst : pc (match plugin_start p with
      | Some start => callback start (LStart port) | None => ret 0 end)
    (fun _ s' => Inv (ld_world s')) s5).
  { destruct (plugin_start p) as [f|] eqn:Ef; [|by apply pc_ret]. intros r s'. unfold callback.
    destruct (f (ld_world s5)) as [[r' w]|] eqn:Efw; [|done]. intros [= _ <-]. cbn.
    destruct Hp as (_ & Hk & _). eapply Hk; [by left| |exact Efw]. done. }
  eapply pc_mono; [exact Hst|]. intros started s6 HI6. cbv beta. case_test.
  - apply pc_bind, pc_lift. intros eb' _. apply pc_bind, pc_lift. intros reg' Ec.
    apply pc_bind, pc_linker. intros [] w [= <-]. apply pc_ret. split; [world_keeps|].
    by eapply clear_keeps.
  - apply pc_bind, pc_lift. intros e0 _. apply pc_bind, pc_lift. intros eb' _. by apply pc_ret.
Qed.
End loading.

(** ** Loading the configured plugins *)

Section plugins.
Context {N W K L : Type} `{Squid N} `{SquidInit N} `{SafeWorld W Inv} `{Tty K} `{LocalSockets L}.
Variable stage_root : option (list Z).
Local Abbreviation plugin := (server_plugin W).
Local Abbreviation state := (sv_state N W K L).

Lemma wp_on_loader {A} (m : ST (ld_state W) A) Q (s : state) :
  wp m (fun a ld => Q a (SvState (sv_net s) ld (sv_serial s) (sv_local s) (sv_log s))) (sv_ld s) ->
  wp (on_loader m) Q s.
Proof. unfold wp, on_loader. by destruct (m (sv_ld s)) as [[a ld]|]. Qed.

(** Only the log may differ, and only in its lines. *)
Definition log_only (l l' : log_state) : Prop :=
  current_run_mode l' = current_run_mode l /\ syslog_open l' = syslog_open l.

Lemma wp_log level msg (Q : unit -> state -> Prop) s :
  (forall l, log_only (sv_log s) l ->
     Q tt (SvState (sv_net s) (sv_ld s) (sv_serial s) (sv_local s) l)) ->
  wp (log level msg) Q s.
Proof. intros HQ. by apply HQ. Qed.
Lemma wp_log_errno level msg (Q : unit -> state -> Prop) s :
  (forall l, log_only (sv_log s) l ->
     Q tt (SvState (sv_net s) (sv_ld s) (sv_serial s) (sv_local s) l)) ->
  wp (log_errno level msg) Q s.
Proof. intros HQ. by apply HQ. Qed.

(** Engine and transports are not touched. *)
Record same_rest (s s' : state) : Prop := {
  same_net : sv_net s' = sv_net s;
  same_serial : sv_serial s' = sv_serial s;
  same_local : sv_local s' = sv_local s;
  same_log : log_only (sv_log s) (sv_log s') }.

Lemma same_rest_refl s : same_rest s s.
Proof. by split. Qed.
Lemma same_rest_trans s1 s2 s3 : same_rest s1 s2 -> same_rest s2 s3 -> same_rest s1 s3.
Proof. intros [? ? ? []] [? ? ? []]. split; [congruence..|]. split; congruence. Qed.

(** Since the trace was [tr0], the plugins of the loader were started in
    order, and then [u] happened. *)
Record plugins_inv (tr0 : list ld_event) (sv : server plugin) (u : list ld_event) (s : state)
    : Prop := {
  pi_linked : linked (sv_loader sv) (plugin_registry (sv_runtime sv));
  pi_slots : slots_keep (Inv := Inv) (plugin_registry (sv_runtime sv));
  pi_world : Inv (ld_world (sv_ld s));
  pi_ports : rt_ports (sv_runtime sv) = replicate 16 zero_port;
  pi_trace : ld_trace (sv_ld s) =
    tr0 ++ concat (map (start_events stage_root) (entries (sv_loader sv))) ++ u }.

(** The ports and paths of the loaded plugins, in load order. *)
Definition loaded (sv : server plugin) : list (Z * list Z) :=
  map (fun e => (loaded_port e, loaded_path e)) (entries (sv_loader sv)).

Lemma load_and_log_spec tr0 sv port path err s :
  plugins_inv tr0 sv [] s -> 0 <= port < 256 -> error_ok (Some err) 512 ->
  wp (load_and_log stage_root sv port path err) (fun '(r, sv', err') s' =>
    same_rest s s' /\ sv_config sv' = sv_config sv /\ sv_plugin_config sv' = sv_plugin_config sv /\
    error_ok (Some err') 512 /\
    (r = 0 /\ plugins_inv tr0 sv' [] s' /\ loaded sv' = loaded sv ++ [(port, path)] \/
     r = -1 /\ loaded sv' = loaded sv /\ exists u, undone u /\ plugins_inv tr0 sv' u s')) s.
Proof.
  intros [Hl Hk HI Hp Ht] Hport He. unfold load_and_log. apply wp_bind, wp_on_loader.
  eapply wp_mono.
  { apply wp_pc; [by apply load_spec; [eapply factory_callbacks|..]|by apply load_keeps]. }
  intros [[[r l'] reg'] eb'] ld [(evs & Ht' & Heb & Htext & Hcase) [HI' Hreg']].
  specialize (Htext dlerror_text). cbn [fst snd] in Hreg'. destruct Heb as [Heb Hsome].
  destruct eb' as [eb'|]; [|by destruct (proj1 Hsome); eauto].
  assert (Hlog : forall sv' r' level msg u s1, same_rest s s1 -> sv_config sv' = sv_config sv ->
    sv_plugin_config sv' = sv_plugin_config sv -> plugins_inv tr0 sv' u s1 ->
    (r' = 0 /\ u = [] /\ loaded sv' = loaded sv ++ [(port, path)] \/
     r' = -1 /\ loaded sv' = loaded sv /\ undone u) ->
    wp (do! write_plugin_load_log level port (Some path) msg; ret (r', sv', eb'))
      (fun '(r, sv', err') s' =>
        same_rest s s' /\ sv_config sv' = sv_config sv /\ sv_plugin_config sv' = sv_plugin_config sv /\
        error_ok (Some err') 512 /\
        (r = 0 /\ plugins_inv tr0 sv' [] s' /\ loaded sv' = loaded sv ++ [(port, path)] \/
         r = -1 /\ loaded sv' = loaded sv /\ exists u, undone u /\ plugins_inv tr0 sv' u s')) s1).
  { intros sv' r' level msg u s1 Hr1 Hc1 Hc2 Hi Hcase1. apply wp_bind, wp_log. intros lg Hlg.
    assert (Hi' : plugins_inv tr0 sv' u
      (SvState (sv_net s1) (sv_ld s1) (sv_serial s1) (sv_local s1) lg)) by (by destruct Hi).
    split_and!; try done; [eapply same_rest_trans; [done|by split]|].
    destruct Hcase1 as [(-> & -> & ?)|(-> & ? & ?)]; [by left|right]. eauto 6. }
  destruct Hcase as [(-> & -> & -> & Hu)|(-> & h & p & l1 & slots' & -> & -> & Hfree & Hp15
    & Hreg & Hslots & Hsafe & Hc & Hlt & Hlen & Hent & Hev)];
    do 3 (apply wp_bind; eapply wp_lift; [done|]); cbn [Z.eqb negb].
  - destruct Htext as [msg Hmsg]. apply wp_bind. eapply wp_lift; [exact Hmsg|].
    apply (Hlog _ _ _ _ evs); [by split|done|done| |by right].
    split; try done. cbn [sv_ld set_plugins sv_loader]. by rewrite Ht', Ht, !app_nil_r, <- app_assoc.
  - apply (Hlog _ _ _ _ []); [by split|done|done| |left; split_and!; try done].
    + split; try done; cbn [sv_ld set_plugins sv_loader sv_runtime plugin_registry].
      * subst slots'. eapply linked_load; try done. lia.
      * rewrite Hent, map_app, concat_app, Ht', Ht. subst evs.
        cbn. by rewrite !app_nil_r, <- app_assoc.
    + unfold loaded. cbn [set_plugins sv_loader]. by rewrite Hent, map_app.
Qed.

(** What loading gives: success with exactly the plugins [wanted] added, or a
    failure in which the first of them were added and the last load was
    undone. *)
Definition load_outcome (tr0 : list ld_event) (wanted : list (Z * list Z)) (r : Z)
    (sv sv' : server plugin) (s s' : state) : Prop :=
  same_rest s s' /\ sv_config sv' = sv_config sv /\
  exists u, undone u /\ plugins_inv tr0 sv' u s' /\
    (r = 0 /\ u = [] /\ loaded sv' = loaded sv ++ wanted \/
     r = -1 /\ exists added, added `prefix_of` wanted /\ loaded sv' = loaded sv ++ added).

(** One load and then the others. *)
Lemma load_outcome_cons tr0 x wanted r sv sv1 sv' s s1 s' :
  same_rest s s1 -> sv_config sv1 = sv_config sv -> loaded sv1 = loaded sv ++ [x] ->
  load_outcome tr0 wanted r sv1 sv' s1 s' -> load_outcome tr0 (x :: wanted) r sv sv' s s'.
Proof.
  intros Hr Hc Hl (Hr' & Hc' & u & Hu & Hi & Hcase).
  split_and!; [by eapply same_rest_trans|congruence|]. exists u. split_and!; try done.
  destruct Hcase as [(-> & -> & ->)|(-> & added & Ha & ->)]; [left|right]; rewrite Hl, <- app_assoc; [done|].
  split; [done|]. exists (x :: added). split; [by apply prefix_cons|done].
Qed.
(** A load that failed. *)
Lemma load_outcome_failed tr0 wanted sv sv' s s' u :
  same_rest s s' -> sv_config sv' = sv_config sv -> loaded sv' = loaded sv -> undone u ->
  plugins_inv tr0 sv' u s' -> load_outcome tr0 wanted (-1) sv sv' s s'.
Proof.
  intros Hr Hc Hl Hu Hi. split_and!; [done|done|]. exists u. split_and!; try done. right. split; [done|].
  exists []. rewrite app_nil_r. split; [apply prefix_nil|done].
Qed.

Lemma load_mappings_spec tr0 ms : forall sv err s,
  plugins_inv tr0 sv [] s -> Forall mapping_ok ms -> error_ok (Some err) 512 ->
  wp (load_mappings stage_root sv ms err) (fun '(r, sv') s' =>
    load_outcome tr0 (map (fun m => (map_port m, map_path m)) ms) r sv sv' s s' /\
    sv_plugin_config sv' = sv_plugin_config sv) s.
Proof.
  induction ms as [|m ms IH]; intros sv err s Hi Hms He; cbn [load_mappings].
  { apply wp_ret. split; [|done]. split_and!; [apply same_rest_refl|done|].
    exists []. split_and!; [by left|done|]. left. by rewrite app_nil_r. }
  apply Forall_cons_1 in Hms as [[Hm _] Hms]. apply wp_bind.
  eapply wp_mono; [apply (load_and_log_spec tr0); [done|lia|done]|].
  intros [[r sv1] err1] s1 (Hr1 & Hc1 & Hp1 & He1 & [(-> & Hi1 & Hports)|(-> & Hsame & u & Hu & Hi1)]);
    cbn [Z.eqb negb].
  2: { apply wp_ret. split; [by eapply load_outcome_failed|done]. }
  eapply wp_mono; [by apply IH|]. intros [r sv2] s2 [Hout Hp2].
  split; [by eapply load_outcome_cons|congruence].
Qed.

(** The configuration in the file, as the parser of ConfigProps.v reads it. *)
Definition read_config (config : server_config) (w : W) : server_plugin_config_file :=
  (parse_server_plugin_config_file (Some (config_path config))
     (read_file (config_path config) w).1).1.2.

Lemma load_configured_spec tr0 sv s :
  plugins_inv tr0 sv [] s ->
  wp (load_configured_plugins stage_root sv) (fun '(r, sv') s' =>
    sv_plugin_config sv' = read_config (sv_config sv) (ld_world (sv_ld s)) /\
    config_ok (sv_plugin_config sv') /\
    load_outcome tr0 (configured (sv_plugin_config sv')) r sv sv' s s') s.
Proof.
  intros Hi. unfold load_configured_plugins. apply wp_bind, wp_on_loader, wp_linker.
  intros file w Hf. cbv beta.
  set (s1 := SvState _ _ _ _ _).
  assert (Hcfg : config_ok (parse_server_plugin_config_file
    (Some (config_path (sv_config sv))) file).1.2 ).
  { assert (Hb : match file with Some c => bytes_ok c | None => True end).
    { destruct file as [c|]; [|done]. eapply (file_bytes (config_path (sv_config sv))). by rewrite Hf. }
    by apply parse_file_keeps. }
  assert (Hread : read_config (sv_config sv) (ld_world (sv_ld s)) =
    (parse_server_plugin_config_file (Some (config_path (sv_config sv))) file).1.2)
    by (unfold read_config; by rewrite Hf).
  destruct (parse_server_plugin_config_file _ file) as [[parsed pc] err]. cbn [fst snd] in Hcfg, Hread.
  rewrite Hread.
  set (sv1 := Server (sv_config sv) pc (sv_loader sv) (sv_runtime sv)).
  assert (Hi1 : plugins_inv tr0 sv1 [] s1).
  { destruct Hi as [? ? HI ? Ht]. split; try done; cbn [s1 sv_ld ld_world ld_trace].
    - change w with (file, w).2. rewrite <- Hf. world_keeps.
    - by rewrite app_nil_r. }
  assert (Hr1 : same_rest s s1) by (by split).
  destruct (Z.eqb_spec parsed 0) as [->|]; cbn [negb].
  - apply wp_bind. eapply wp_mono; [apply (load_and_log_spec tr0); [done|by vm_compute|by vm_compute]|].
    intros [[r sv2] err2] s2 (Hr2 & Hc2 & Hp2 & He2 & [(-> & Hi2 & Hports)|(-> & Hsame & u & Hu & Hi2)]);
      cbn [Z.eqb negb].
    2: { apply wp_ret. rewrite Hp2. split; [done|]. split; [done|].
         eapply load_outcome_failed; try done. by eapply same_rest_trans. }
    eapply wp_mono; [apply (load_mappings_spec tr0); [done|apply Hcfg|done]|].
    intros [r sv3] s3 [Hout Hp3]. rewrite Hp3, Hp2. split; [done|]. split; [done|].
    eapply load_outcome_cons; [by eapply same_rest_trans|done|exact Hports|exact Hout].
  - apply wp_bind, wp_log_errno. intros lg Hlg. apply wp_bind.
    assert (Hend : forall lg', log_only (sv_log s) lg' ->
      wp (ret (-1, sv1)) (fun '(r, sv') s' => sv_plugin_config sv' = pc /\
        config_ok (sv_plugin_config sv') /\
        load_outcome tr0 (configured (sv_plugin_config sv')) r sv sv' s s')
        (SvState (sv_net s1) (sv_ld s1) (sv_serial s1) (sv_local s1) lg')).
    { intros lg' Hlg'. apply wp_ret. split; [done|]. split; [done|].
      apply (load_outcome_failed _ _ _ _ _ _ []); [by split|done|done|by left|by destruct Hi1]. }
    destruct err as [m|]; [apply wp_log; intros lg' Hlg'|apply wp_ret]; apply Hend; [|done].
    destruct Hlg, Hlg'. cbn [sv_log s1] in *. split; congruence.
Qed.

Lemma init_plugins_inv config s :
  Inv (ld_world (sv_ld s)) -> plugins_inv (ld_trace (sv_ld s)) (init_server config) [] s /\
  loaded (init_server config) = [].
Proof.
  intros HI. split; [|done].
  destruct (init_registry_ok (replicate 16 (Slot 0 (@None plugin)))
    (plugin_registry (sv_runtime (init_server config)))) as [Hreg Hm]; [done|done|].
  split; try done.
  - split_and!; try done; [cbn; lia|constructor|]. intros port p _. rewrite Hm.
    split; [done|]. intros (e & Hin & _). inversion Hin.
  - apply Forall_forall. intros sl Hsl. apply list_elem_of_In in Hsl.
    repeat (destruct Hsl as [<-|Hsl]; [done|]). done.
  - by rewrite !app_nil_r.
Qed.

Lemma unload_plugins_spec tr0 sv u (s : state) :
  linked (sv_loader sv) (plugin_registry (sv_runtime sv)) ->
  ld_trace (sv_ld s) = tr0 ++ concat (map (start_events stage_root) (entries (sv_loader sv))) ++ u -> undone u ->
  wp (unload_plugins sv) (fun sv' s' =>
    (forall port, 0 <= port -> mapped (plugin_registry (sv_runtime sv')) port = None) /\
    sv_net s' = sv_net s /\ sv_serial s' = sv_serial s /\ sv_local s' = sv_local s /\
    sv_log s' = sv_log s /\
    exists evs, ld_trace (sv_ld s') = tr0 ++ evs /\ nested evs) s.
Proof.
  intros (Hreg & Hlen & Hcnt & Hnd & Hok & Hm) Ht Hu. unfold unload_plugins.
  apply wp_bind, wp_on_loader. cbn [unload_server_plugins]. apply wp_bind.
  eapply wp_mono; [apply unload_loop_spec; [lia|done|done]|].
  intros [es reg'] ld' (slots' & Hr & Hreg' & Hes & Hm' & Ht'). cbn [fst snd] in *. subst reg'.
  apply wp_ret. do 2 (apply wp_bind; eapply wp_lift; [done|]). apply wp_ret.
  cbn [set_plugins sv_runtime plugin_registry sv_net sv_serial sv_local sv_log sv_ld].
  split_and!; try done.
  - intros port Hp. rewrite Hm' by done. case_decide as E; [done|].
    destruct (mapped (plugin_registry (sv_runtime sv)) port) as [p|] eqn:Em; [|done]. exfalso. apply E.
    apply Hm in Em as (e & Hin & <- & _); [|done]. by apply (list_elem_of_fmap_2 loaded_port).
  - exists (concat (map (start_events stage_root) (entries (sv_loader sv))) ++ u ++
      concat (map stop_events (reverse (entries (sv_loader sv))))).
    split; [|by apply brackets]. rewrite Ht', Ht, <- !app_assoc. done.
Qed.

(** [unload_server_plugins(...); close_server_log(); return code;]. *)
Definition log_ok (l : log_state) : Prop := syslog_open l = true -> current_run_mode l = server_run_mode_daemon.

Lemma close_log_closed l : log_ok l -> syslog_open (close_server_log l) = false.
Proof.
  unfold log_ok, close_server_log. cbn. destruct (syslog_open l); [|by rewrite andb_false_r].
  intros Hl. by rewrite Hl.
Qed.

Lemma leave_spec tr0 sv u code (s : state) :
  linked (sv_loader sv) (plugin_registry (sv_runtime sv)) ->
  ld_trace (sv_ld s) = tr0 ++ concat (map (start_events stage_root) (entries (sv_loader sv))) ++ u -> undone u ->
  log_ok (sv_log s) ->
  wp (leave_server sv code) (fun c s' => c = code /\
    sv_net s' = sv_net s /\ sv_serial s' = sv_serial s /\ sv_local s' = sv_local s /\
    syslog_open (sv_log s') = false /\
    exists evs, ld_trace (sv_ld s') = tr0 ++ evs /\ nested evs) s.
Proof.
  intros Hl Ht Hu Hlog. unfold leave_server. apply wp_bind.
  eapply wp_mono; [by eapply unload_plugins_spec|].
  intros sv' s' (_ & Hn & Hs & Hloc & Hlg & Hev). apply wp_bind. unfold wp at 1, on_log.
  apply wp_ret. cbn [sv_net sv_serial sv_local sv_log sv_ld]. split_and!; try done. rewrite Hlg.
  by apply close_log_closed.
Qed.
End plugins.

(** ** Sockets *)

Section sockets.
Context {N S : Type} `{SquidSockets N socks}.
Local Abbreviation plugin := (server_plugin S).

(** The open sockets are those in [base] and, disjoint from them, the
    descriptors in [fds], each held once. *)
Record owns (base : gset Z) (fds : list Z) (n : N) : Prop := {
  own_open : forall fd, fd ∈ socks n <-> fd ∈ base \/ 0 <= fd /\ fd ∈ fds;
  own_new : forall fd, 0 <= fd -> fd ∈ fds -> fd ∉ base;
  own_once : forall i j fd, fds !! i = Some fd -> fds !! j = Some fd -> 0 <= fd -> i = j }.

Lemma owns_none base fds n :
  Forall (fun fd => fd < 0) fds -> socks n = base -> owns base fds n.
Proof.
  intros Hf <-.
  assert (Hneg : forall fd, 0 <= fd -> fd ∉ fds).
  { intros fd Hfd Hin. pose proof (Forall_elem _ _ _ Hf Hin). cbn in *. lia. }
  split.
  - intros fd. split; [by left|]. intros [?|[? Hin]]; [done|]. by edestruct Hneg.
  - intros fd Hfd Hin. by edestruct Hneg.
  - intros i j fd Hi _ Hfd. edestruct Hneg; [done|]. by eapply list_elem_of_lookup_2.
Qed.

(** A slot without a socket gets a new one. *)
Lemma owns_open base fds i old fd n n' :
  owns base fds n -> fds !! i = Some old -> old < 0 -> 0 <= fd ->
  fd ∉ socks n -> socks n' = {[ fd ]} ∪ socks n -> owns base (<[i := fd]> fds) n'.
Proof.
  intros [Ho Hn Hu] Hi Hold Hfd Hfresh Hs.
  assert (Hin : forall g, g ∈ <[i := fd]> fds <-> g = fd \/ (g ∈ fds /\ exists j, j <> i /\ fds !! j = Some g)).
  { intros g. rewrite list_elem_of_lookup. split.
    - intros [j Hj]. apply list_lookup_insert_Some in Hj as [(-> & -> & _)|[Hne Hj]]; [by left|right].
      split; [by eapply list_elem_of_lookup_2|eauto].
    - intros [->|(_ & j & Hne & Hj)]; [exists i|exists j].
      + apply list_lookup_insert_eq. by eapply lookup_lt_Some.
      + by rewrite list_lookup_insert_ne. }
  split.
  - intros g. rewrite Hs, elem_of_union, elem_of_singleton, Ho, Hin. split.
    + intros [->|[?|(Hg & Hgi)]]; [auto|auto|]. right. split; [done|right]. split; [done|].
      apply list_elem_of_lookup in Hgi as [j Hj]. exists j. split; [|done]. intros ->. rewrite Hi in Hj.
      injection Hj as ->. lia.
    + intros [?|(Hg & [->|[? _]])]; auto.
  - intros g Hg. rewrite Hin. intros [->|[? _]]; [|by apply Hn]. intros Hb. apply Hfresh. apply Ho. by left.
  - intros j k g Hj Hk Hg.
    assert (Hnew : forall m, fds !! m = Some fd -> False).
    { intros m Hm. apply Hfresh, Ho. right. split; [done|]. by eapply list_elem_of_lookup_2. }
    apply list_lookup_insert_Some in Hj as [(-> & <- & _)|[Hnj Hj]];
    apply list_lookup_insert_Some in Hk as [(-> & Hk & _)|[Hnk Hk]]; try done; try (by edestruct Hnew).
    + subst g. by edestruct Hnew.
    + by eapply Hu.
Qed.

Lemma owns_close base fds i fd n :
  owns base fds n -> fds !! i = Some fd -> 0 <= fd ->
  owns base (<[i := -1]> fds) (squid_close fd n).
Proof.
  intros [Ho Hn Hu] Hi Hfd.
  assert (Hin : forall g, 0 <= g -> g ∈ <[i := -1]> fds <-> g <> fd /\ g ∈ fds).
  { intros g Hg. rewrite !list_elem_of_lookup. split.
    - intros [j Hj]. apply list_lookup_insert_Some in Hj as [(-> & <- & _)|[Hne Hj]]; [lia|].
      split; [|eauto]. intros ->. apply Hne. by eapply Hu.
    - intros [Hne [j Hj]]. exists j. rewrite list_lookup_insert_ne; [done|]. intros <-.
      rewrite Hi in Hj. by injection Hj. }
  split.
  - intros g. rewrite socket_close, elem_of_difference, elem_of_singleton, Ho. split.
    + intros [[?|[? ?]] ?]; [by left|right]. split; [done|]. by apply Hin.
    + intros [Hb|[Hg Hgi]].
      * split; [by left|]. intros ->. eapply (Hn fd); [done| |done]. by eapply list_elem_of_lookup_2.
      * apply Hin in Hgi as [? ?]; [|done]. auto.
  - intros g Hg Hgi. apply Hin in Hgi as [_ ?]; [by apply Hn|done].
  - intros j k g Hj Hk Hg.
    apply list_lookup_insert_Some in Hj as [(-> & <- & _)|[Hnj Hj]]; [lia|].
    apply list_lookup_insert_Some in Hk as [(-> & Hk & _)|[Hnk Hk]]; [lia|]. by eapply Hu.
Qed.

Local Abbreviation fds := (map squid_fd).
Lemma fds_insert ports i ps : fds (<[i := ps]> ports) = <[i := squid_fd ps]> (fds ports).
Proof. apply (list_fmap_insert squid_fd). Qed.
Lemma fds_lookup ports i ps : ports !! i = Some ps -> fds ports !! i = Some (squid_fd ps).
Proof. intros E. change (fds ports) with (squid_fd <$> ports). by rewrite list_lookup_fmap, E. Qed.
Lemma fds_lookup_inv ports i fd : fds ports !! i = Some fd ->
  exists ps, ports !! i = Some ps /\ squid_fd ps = fd.
Proof.
  change (fds ports) with (squid_fd <$> ports). rewrite list_lookup_fmap.
  destruct (ports !! i) as [ps|]; [|done]. intros [= <-]. eauto.
Qed.

Lemma wp_net_step {A} (f : N -> A * N) Q (s : N * S) :
  (forall a n, f s.1 = (a, n) -> Q a (n, s.2)) -> wp (net f) Q s.
Proof. intros HQ. unfold wp, net. destruct (f s.1) eqn:E. by apply HQ. Qed.

(** A port that has only been given a socket. *)
Definition fresh_port (ps : port_state) : Prop := ps = set_fd zero_port (squid_fd ps).

Lemma open_plugin_socket_spec port fd0 base l i (s : N * S) :
  owns base l s.1 -> l !! i = Some fd0 -> fd0 < 0 ->
  wp (open_plugin_socket port fd0) (fun fd s' => s'.2 = s.2 /\ owns base (<[i := fd]> l) s'.1) s.
Proof.
  intros Ho Hi Hneg. unfold open_plugin_socket. apply wp_bind, wp_net_step. intros fd n1 E1.
  pose proof (socket_open (u16 server_squid_queue_capacity) (u16 server_squid_queue_capacity) s.1) as Hl.
  rewrite E1 in Hl.
  assert (Hsame : forall f n', f < 0 -> socks n' = socks s.1 -> owns base (<[i := f]> l) n').
  { intros f n' Hf Hs. destruct Ho as [H1 H2 H3].
    assert (Hin : forall g, 0 <= g -> g ∈ <[i := f]> l <-> g ∈ l).
    { intros g Hg. rewrite !list_elem_of_lookup. split; intros [j Hj].
      - apply list_lookup_insert_Some in Hj as [(-> & <- & _)|[_ Hj]]; [lia|eauto].
      - exists j. rewrite list_lookup_insert_ne; [done|]. intros <-. rewrite Hi in Hj.
        injection Hj as ->. lia. }
    split.
    - intros g. rewrite Hs, H1. split; (intros [?|[? ?]]; [by left|right; split; [done|by apply Hin]]).
    - intros g Hg Hgi. apply H2; [done|by apply Hin].
    - intros j k g Hj Hk Hg.
      apply list_lookup_insert_Some in Hj as [(-> & <- & _)|[Hnj Hj]]; [lia|].
      apply list_lookup_insert_Some in Hk as [(-> & Hk & _)|[Hnk Hk]]; [lia|]. by eapply H3. }
  destruct (Z.ltb_spec fd 0).
  { apply wp_ret. split; [done|]. by apply Hsame. }
  destruct Hl as [Hfresh Hs1]. apply wp_bind, wp_net_step. intros bound n2 E2.
  assert (Hs2 : socks n2 = {[ fd ]} ∪ socks s.1).
  { rewrite <- Hs1. pose proof (socket_bind fd port n1) as Hb. cbn [fst] in E2. by rewrite E2 in Hb. }
  destruct (negb (bound =? 0)).
  - apply wp_bind, wp_net_step. intros [] n3 [= <-]. apply wp_ret. split; [done|]. cbn [fst].
    apply Hsame; [lia|]. rewrite socket_close, Hs2. revert Hfresh.
    generalize (socks s.1). clear. intros X Hx. apply set_eq. intros x. rewrite elem_of_difference.
    set_unfold. intuition congruence.
  - apply wp_ret. split; [done|]. by eapply owns_open.
Qed.

Lemma open_loop (reg : list (server_plugin_slot plugin)) base todo : forall port ports (s : N * S),
  registry_ok reg -> 0 <= port -> port + Z.of_nat todo <= 16 -> length ports = 16%nat ->
  Forall fresh_port ports -> owns base (fds ports) s.1 ->
  (forall i ps, (Z.to_nat port <= i)%nat -> ports !! i = Some ps -> squid_fd ps < 0) ->
  wp (for_ports todo port (fun port ps =>
    let! found := lift (find_server_plugin (Some reg) port) in
    match found with
    | None => ret ps
    | Some _ => let! fd := open_plugin_socket port (squid_fd ps) in ret (set_fd ps fd)
    end) ports) (fun ports' s' =>
    s'.2 = s.2 /\ length ports' = 16%nat /\ Forall fresh_port ports' /\
    owns base (fds ports') s'.1 /\
    (forall i, (i < Z.to_nat port)%nat -> ports' !! i = ports !! i)) s.
Proof.
  induction todo as [|todo IH]; intros port ports s Hreg Hp Hle Hl Hf Ho Hneg; cbn [for_ports].
  { apply wp_ret. by split_and!. }
  destruct (lookup_lt_is_Some_2 ports (Z.to_nat port)) as [ps Hps]; [lia|].
  apply wp_bind. eapply wp_lift; [exact Hps|]. apply wp_bind.
  assert (Hstep : wp (let! found := lift (find_server_plugin (Some reg) port) in
      match found with
      | None => ret ps
      | Some _ => let! fd := open_plugin_socket port (squid_fd ps) in ret (set_fd ps fd)
      end) (fun ps' s' => s'.2 = s.2 /\ fresh_port ps' /\
        owns base (fds (<[Z.to_nat port := ps']> ports)) s'.1) s).
  { apply wp_bind. eapply wp_lift; [apply find_eq; (done || lia)|].
    pose proof (Forall_lookup_1 _ _ _ _ Hf Hps) as Hfr.
    destruct (mapped reg port).
    - apply wp_bind. eapply wp_mono; [apply (open_plugin_socket_spec _ _ base (fds ports) (Z.to_nat port))|].
      + done.
      + by apply fds_lookup.
      + by eapply Hneg.
      + intros fd s1 [Hw Ho1]. apply wp_ret. split_and!; [done| |by rewrite fds_insert].
        unfold fresh_port in *. by rewrite Hfr.
    - apply wp_ret. split_and!; try done. by rewrite list_insert_id. }
  eapply wp_mono; [exact Hstep|]. intros ps' s1 (Hw & Hfr & Ho1).
  eapply wp_mono; [apply IH; try done; try lia|].
  - by rewrite length_insert.
  - by apply Forall_insert.
  - intros i q Hi Hq. rewrite list_lookup_insert_ne in Hq by lia. eapply Hneg; [|done]. lia.
  - intros ports' s' (Hw' & Hl' & Hf' & Ho' & Hsame). split_and!; try done; [congruence|].
    intros i Hi. rewrite Hsame, list_lookup_insert_ne by lia. done.
Qed.

Lemma close_loop base todo : forall port ports (s : N * S),
  0 <= port -> port + Z.of_nat todo <= 16 -> length ports = 16%nat -> owns base (fds ports) s.1 ->
  wp (for_ports todo port (fun port ps =>
    if 0 <=? squid_fd ps then
      do! net (fun n => (tt, squid_close (squid_fd ps) n)); ret (set_fd ps (-1))
    else ret ps) ports) (fun ports' s' =>
    s'.2 = s.2 /\ length ports' = 16%nat /\ owns base (fds ports') s'.1 /\
    (forall i ps, ports' !! i = Some ps ->
       if decide (Z.to_nat port <= i < Z.to_nat port + todo)%nat then squid_fd ps < 0
       else ports !! i = Some ps)) s.
Proof.
  induction todo as [|todo IH]; intros port ports s Hp Hle Hl Ho; cbn [for_ports].
  { apply wp_ret. split_and!; try done. intros i ps Hi. by rewrite decide_False by lia. }
  destruct (lookup_lt_is_Some_2 ports (Z.to_nat port)) as [ps Hps]; [lia|].
  apply wp_bind. eapply wp_lift; [exact Hps|]. apply wp_bind.
  assert (Hstep : wp (if 0 <=? squid_fd ps then
      do! net (fun n => (tt, squid_close (squid_fd ps) n)); ret (set_fd ps (-1)) else ret ps)
    (fun ps' s' => s'.2 = s.2 /\ squid_fd ps' < 0 /\
       owns base (fds (<[Z.to_nat port := ps']> ports)) s'.1) s).
  { destruct (Z.leb_spec 0 (squid_fd ps)).
    - apply wp_bind, wp_net_step. intros [] n [= <-]. apply wp_ret. split_and!; [done|cbn; lia|].
      rewrite fds_insert. cbn [set_fd squid_fd fst]. apply owns_close; [done|by apply fds_lookup|done].
    - apply wp_ret. split_and!; [done|done|]. by rewrite list_insert_id. }
  eapply wp_mono; [exact Hstep|]. intros ps' s1 (Hw & Hneg & Ho1).
  eapply wp_mono; [apply IH; try done; try lia; by rewrite length_insert|].
  intros ports' s' (Hw' & Hl' & Ho' & Hr). split_and!; try done; [congruence|].
  intros i q Hq. specialize (Hr i q Hq). destruct (decide (i = Z.to_nat port)) as [->|Hne].
  - rewrite decide_False in Hr by lia. rewrite decide_True by lia.
    rewrite list_lookup_insert_eq in Hr by lia. by injection Hr as <-.
  - rewrite list_lookup_insert_ne in Hr by done. repeat case_decide; try done; lia.
Qed.

(** *** The dispatch loop leaves the sockets alone *)

Lemma pc_net {A} (f : N -> A * N) (Q : A -> N * S -> Prop) s :
  (forall a n, f s.1 = (a, n) -> Q a (n, s.2)) -> pc (net f) Q s.
Proof.
  intros HQ a s'. unfold net. destruct (f s.1) as [b n] eqn:E. intros [= <- <-]. by apply HQ.
Qed.
Lemma pc_call {A} (f : ST S A) (Q : A -> N * S -> Prop) s :
  (forall a w, Q a (s.1, w)) -> pc (call_plugin f) Q s.
Proof.
  intros HQ a s'. unfold call_plugin. destruct (f s.2) as [[b w]|]; [|done]. intros [= <- <-]. apply HQ.
Qed.
Lemma pc_send fd data (Q : Z -> N * S -> Prop) s :
  (forall r s', socks s'.1 = socks s.1 -> Q r s') -> pc (c_send fd data) Q s.
Proof.
  intros HQ. apply pc_net. intros r n E. apply HQ. cbn.
  pose proof (socket_send fd data s.1) as Hs. by rewrite E in Hs.
Qed.
Lemma pc_recv fd max (Q : Z * list Z -> N * S -> Prop) s :
  (forall r s', socks s'.1 = socks s.1 -> Q r s') -> pc (c_recv fd max) Q s.
Proof.
  intros HQ. apply pc_net. intros r n E. apply HQ. cbn.
  pose proof (socket_recv fd max s.1) as Hs. by rewrite E in Hs.
Qed.

(** The result still has the descriptor [fd], and the open sockets are
    [open]. *)
Local Abbreviation still fd open := (fun ps' (s' : N * S) => squid_fd ps' = fd /\ socks s'.1 = open).

(** One pass through the code of a port. *)
Ltac pc_steps :=
  repeat first
    [ apply pc_bind | apply pc_ret
    | apply pc_lift; intros ? _
    | apply pc_send; intros ? ? ?
    | apply pc_recv; intros [? ?] ? ?
    | apply pc_call; intros ? ?
    | match goal with |- pc (if ?b then _ else _) _ _ => destruct b end
    | match goal with |- pc (match ?x with _ => _ end) _ _ => destruct x end ];
  port_cbn; try (split; congruence).

Lemma receive_body_keeps ps s :
  pc (receive_body ps) (fun r s' => still (squid_fd ps) (socks s.1) r.2 s') s.
Proof. unfold receive_body. cbv zeta. pc_steps. Qed.
Lemma receive_keeps ps s :
  pc (receive_plugin_packet ps) (fun r s' => still (squid_fd ps) (socks s.1) r.2 s') s.
Proof.
  unfold receive_plugin_packet. pc_steps.
  - eapply pc_mono; [apply receive_body_keeps|]. port_cbn. intros r0 s2 []. split; congruence.
  - apply receive_body_keeps.
Qed.
Lemma handle_keeps port ps f s :
  pc (handle_request port ps f) (still (squid_fd ps) (socks s.1)) s.
Proof. unfold handle_request. cbv zeta. pc_steps. Qed.
Lemma dispatch_port_keeps reg port ps s :
  pc (dispatch_port reg port ps) (still (squid_fd ps) (socks s.1)) s.
Proof.
  unfold dispatch_port. case_test; [by apply pc_ret|]. apply pc_bind.
  apply (pc_mono _ (fun r s' => still (squid_fd ps) (socks s.1) r.2 s')); [pc_steps|].
  intros [blocked ps1] s1 [Hfd1 Hs1]. port_cbn. destruct blocked; [by apply pc_ret|].
  apply pc_bind. eapply pc_mono; [apply receive_keeps|]. intros [r ps2] s2 [Hfd2 Hs2]. port_cbn.
  case_test; [apply pc_ret; split; congruence|]. apply pc_bind, pc_lift. intros found _.
  destruct found as [p|]; [|apply pc_ret; split; congruence].
  destruct (plugin_handle_packet p); [|apply pc_ret; split; congruence].
  eapply pc_mono; [apply handle_keeps|]. intros ps3 s3 []. split; congruence.
Qed.

Lemma for_ports_keeps body todo :
  (forall port ps s, pc (body port ps) (still (squid_fd ps) (socks s.1)) s) ->
  forall port ports s, pc (for_ports todo port body ports)
    (fun ports' s' => fds ports' = fds ports /\ socks s'.1 = socks s.1) s.
Proof.
  intros Hb. induction todo as [|todo IH]; intros port ports s; cbn [for_ports]; [by apply pc_ret|].
  apply pc_bind, pc_lift. intros ps Hps. apply pc_bind. eapply pc_mono; [apply Hb|].
  intros ps' s1 [Hfd Hs]. eapply pc_mono; [apply IH|]. intros ports' s' [Hf Hs'].
  split; [|congruence]. rewrite Hf, fds_insert, Hfd. apply list_insert_id. by apply fds_lookup.
Qed.

Definition sockets_kept (l l' : loop_state (N := N) (S := S)) : Prop :=
  fds (rt_ports (lp_runtime l')) = fds (rt_ports (lp_runtime l)) /\
  plugin_registry (lp_runtime l') = plugin_registry (lp_runtime l) /\
  socks (lp_world l').1 = socks (lp_world l).1.

Lemma wait_keeps (s : N * S) : pc wait_for_transport (fun _ s' => socks s'.1 = socks s.1) s.
Proof.
  unfold wait_for_transport. apply pc_bind, pc_net. intros r n E. apply pc_ret. cbn.
  pose proof (socket_wait s.1) as Hw. by rewrite E in Hw.
Qed.
Lemma burst_keeps (s : N * S) : pc burst (fun _ s' => socks s'.1 = socks s.1) s.
Proof. apply pc_net. intros [] n [= <-]. apply socket_burst. Qed.

Lemma handshake_keeps (s : N * S) : pc handshake_iteration (fun _ s' => socks s'.1 = socks s.1) s.
Proof.
  unfold handshake_iteration. apply pc_bind. eapply pc_mono; [apply burst_keeps|].
  intros [] s1 H1. eapply pc_mono; [apply wait_keeps|]. intros k s2 H2. congruence.
Qed.

Lemma iteration_keeps (rt : server_runtime plugin) (s : N * S) :
  pc (dispatch_iteration rt) (fun r s' => fds (rt_ports r.1) = fds (rt_ports rt) /\
    plugin_registry r.1 = plugin_registry rt /\ socks s'.1 = socks s.1) s.
Proof.
  unfold dispatch_iteration. apply pc_bind. eapply pc_mono; [apply burst_keeps|]. intros [] s1 H1.
  apply pc_bind. unfold dispatch_received_packets, each_plugin_port. apply pc_bind.
  eapply pc_mono; [apply for_ports_keeps; intros; apply dispatch_port_keeps|].
  intros ports s2 [H2 H2']. apply pc_ret. apply pc_bind. eapply pc_mono; [apply burst_keeps|].
  intros [] s3 H3. apply pc_bind. eapply pc_mono; [apply wait_keeps|]. intros k s4 H4.
  apply pc_ret. split_and!; [done|done|cbn in *; congruence].
Qed.

Lemma loop_keeps l l' : rtc loop_step l l' -> sockets_kept l l'.
Proof.
  induction 1 as [l|l1 l2 l3 Hst _ (IH1 & IH2 & IH3)]; [done|].
  assert (Hs : sockets_kept l1 l2).
  { destruct Hst as [l l' Ht|]; [|done]. destruct Ht; try done.
    - match goal with E : handshake_iteration _ = Some _ |- _ => apply handshake_keeps in E end.
      by split_and!.
    - match goal with E : dispatch_iteration _ _ = Some _ |- _ =>
        pose proof (iteration_keeps rt s _ _ E) as Hk end. exact Hk.
    - match goal with E : reset_ports _ _ = Some _ |- _ => revert E end. intros E.
      enough (Hk : pc (reset_ports rt) (fun r s' => fds (rt_ports r) = fds (rt_ports rt) /\
        plugin_registry r = plugin_registry rt /\ socks s'.1 = socks s.1) s) by exact (Hk _ _ E).
      unfold reset_ports, each_plugin_port. apply pc_bind.
      eapply pc_mono; [apply for_ports_keeps; intros; by apply pc_ret|].
      intros ports s1 [? ?]. by apply pc_ret. }
  destruct Hs as (? & ? & ?). split_and!; congruence.
Qed.
End sockets.

(** ** The serial transport in a run *)

(** [ttys w] is the set of open terminal descriptors. *)
Class TtyDescriptors (K : Type) `{Tty K} (ttys : K -> gset Z) : Prop := {
  tty_opened : forall device w, let '(fd, w') := tty_open device w in
    if fd <? 0 then ttys w' = ttys w else (fd ∉ ttys w) /\ ttys w' = {[ fd ]} ∪ (ttys w);
  tty_closed : forall fd w, ttys (tty_close fd w) = (ttys w) ∖ {[ fd ]};
  tty_kept_setattr : forall fd t w, ttys (tcsetattr fd t w).2 = ttys w;
  tty_kept_read : forall fd w, ttys (tty_read fd w).2 = ttys w;
  tty_kept_write : forall fd data w, ttys (tty_write fd data w).2 = ttys w;
  tty_kept_poll : forall fd events timeout w, ttys (tty_poll fd events timeout w).2 = ttys w }.

Lemma set_close (X : gset Z) fd : fd ∉ X -> ({[ fd ]} ∪ X) ∖ {[ fd ]} = X.
Proof. intros Hx. apply set_eq. intros x. set_unfold. intuition congruence. Qed.

Section serial_run.
Context {K : Type} `{TtyDescriptors K ttys}.
Local Abbreviation state := (serial_state K).

(** The transport at [p] is closed, or is the active one and holds the one
    descriptor that is open beside those in [base]. *)
Definition serial_closed (p : nat) (base : gset Z) (s : state) : Prop :=
  is_Some (transports s !! p) /\ active_transport s = None /\ ttys (kernel s) = base.
Definition serial_in_use (p : nat) (base : gset Z) (s : state) : Prop :=
  active_transport s = Some p /\
  exists t, transports s !! p = Some t /\ 0 <= t_fd t /\ (t_fd t ∉ base) /\
    ttys (kernel s) = {[ t_fd t ]} ∪ base.

Lemma kernel_call_pc {A} (f : K -> A * K) (Q : A -> state -> Prop) s :
  (forall a w, f (kernel s) = (a, w) -> Q a (SerialState (active_transport s) (transports s) w)) ->
  pc (kernel_call f) Q s.
Proof.
  intros HQ a s'. unfold kernel_call. destruct (f (kernel s)) as [b w] eqn:E.
  intros [= <- <-]. by apply HQ.
Qed.
Lemma kernel_call_wp {A} (f : K -> A * K) (Q : A -> state -> Prop) s :
  (forall a w, f (kernel s) = (a, w) -> Q a (SerialState (active_transport s) (transports s) w)) ->
  wp (kernel_call f) Q s.
Proof. intros HQ. unfold wp, kernel_call. destruct (f (kernel s)) as [b w] eqn:E. by apply HQ. Qed.

Lemma serial_open_wp p cfg device base s :
  cfg_device cfg = Some device -> serial_closed p base s ->
  wp (serial_transport_open (Some p) (Some cfg)) (fun r s' =>
    if r =? 0 then active_transport s' = None /\ exists t, transports s' !! p = Some t /\
      0 <= t_fd t /\ (t_fd t ∉ base) /\ ttys (kernel s') = {[ t_fd t ]} ∪ base
    else serial_closed p base s') s.
Proof.
  intros Hd ([t0 Ht0] & Ha & Hk). cbn [serial_transport_open]. rewrite Hd.
  case_test; [apply wp_ret; cbn; by split_and!|].
  apply wp_bind. unfold wp at 1, load at 1. rewrite Ht0. apply wp_bind.
  set (t1 := Serial.init_transport_fields cfg device).
  change (wp (store p t1) ?Q s) with
    (Q tt (SerialState (active_transport s) (<[p := t1]> (transports s)) (kernel s))). cbv beta.
  apply wp_bind, kernel_call_wp. intros fd w1 E1. cbn [kernel active_transport transports] in *.
  pose proof (tty_opened device (kernel s)) as Ho. rewrite E1 in Ho.
  destruct (Z.ltb_spec fd 0).
  { apply wp_ret. cbn. split_and!; [eexists; apply lookup_insert_eq|done|cbn; congruence]. }
  destruct Ho as [Hfresh Hopen]. rewrite Hk in *.
  assert (Hclose : forall w m, ttys w = {[ fd ]} ∪ base ->
    m !! p <> None -> serial_closed p base (SerialState None m (tty_close fd w))).
  { intros w m Hw Hm. split_and!; [|done|]; cbn.
    - destruct (m !! p); [by eexists|done].
    - rewrite tty_closed, Hw. by apply set_close. }
  apply wp_bind. unfold configure_port. apply wp_bind, wp_get. cbn [kernel].
  destruct (tcgetattr fd w1) as [tty|].
  2: { apply wp_ret. cbn [Z.eqb negb]. apply wp_bind, kernel_call_wp. intros [] w2 [= <-].
       apply wp_ret. cbn [Z.eqb]. rewrite Ha. apply Hclose; [done|]. cbn [transports].
    by rewrite lookup_insert_eq. }
  apply wp_bind. unfold wp at 1, load at 1. cbn [transports]. rewrite lookup_insert_eq. apply wp_bind.
  set (t2 := set_tty_fd t1 _ tty).
  change (wp (store p t2) ?Q ?s) with
    (Q tt (SerialState (active_transport s) (<[p := t2]> (transports s)) (kernel s))). cbv beta.
  cbn [kernel active_transport transports]. apply kernel_call_wp. intros r w2 E2. cbn [kernel] in E2.
  assert (Hw2 : ttys w2 = {[ fd ]} ∪ base).
  { pose proof (tty_kept_setattr fd (line_settings cfg tty) w1) as Hs. rewrite E2 in Hs.
    cbn in Hs. congruence. }
  destruct (Z.eqb_spec r 0) as [->|Hr]; cbn [negb].
  - apply wp_bind. unfold wp at 1, load at 1. cbn [transports]. rewrite lookup_insert_eq. apply wp_bind.
    cbn [kernel active_transport transports]. set (t3 := set_tty_fd t2 _ _).
    change (wp (store p t3) ?Q ?s) with
      (Q tt (SerialState (active_transport s) (<[p := t3]> (transports s)) (kernel s))). cbv beta.
    apply wp_ret. cbn [kernel active_transport transports Z.eqb]. split; [done|]. exists t3.
    split; [apply lookup_insert_eq|]. cbn [t3 set_tty_fd t_fd]. done.
  - apply wp_bind, kernel_call_wp. intros [] w3 [= <-]. apply wp_ret. cbn [Z.eqb].
    cbn [kernel active_transport transports]. rewrite Ha. apply Hclose; [done|]. cbn [transports].
    by rewrite lookup_insert_eq.
Qed.

Lemma serial_close_wp p base s :
  serial_in_use p base s ->
  wp (serial_transport_close (Some p)) (fun _ s' => serial_closed p base s') s.
Proof.
  intros (Ha & t & Ht & Hfd & Hb & Hk). cbn [serial_transport_close]. apply wp_bind.
  unfold wp at 1, load at 1. rewrite Ht. destruct (Z.leb_spec 0 (t_fd t)); [|lia].
  apply wp_bind, wp_bind, kernel_call_wp. intros r w1 E1. apply wp_bind, kernel_call_wp.
  intros [] w2 [= <-]. unfold wp at 1, store at 1. cbn. unfold wp. cbn. rewrite Ha.
  rewrite decide_True by done. split_and!; [eexists; apply lookup_insert_eq|done|]. cbn.
  pose proof (tty_kept_setattr (t_fd t) (saved_tty t) (kernel s)) as Hs. rewrite E1 in Hs. cbn in Hs.
  rewrite tty_closed, Hs, Hk. by apply set_close.
Qed.

(** *** The calls made while the loop runs *)

Lemma in_use_kernel p base s w :
  serial_in_use p base s -> ttys w = ttys (kernel s) ->
  serial_in_use p base (SerialState (active_transport s) (transports s) w).
Proof. intros (Ha & t & Ht & Hfd & Hb & Hk) Hw. split; [done|]. exists t. cbn. split_and!; try done. congruence. Qed.
Lemma in_use_store p base s t t' :
  serial_in_use p base s -> transports s !! p = Some t -> t_fd t' = t_fd t ->
  serial_in_use p base (SerialState (active_transport s) (<[p := t']> (transports s)) (kernel s)).
Proof.
  intros (Ha & t0 & Ht & Hfd & Hb & Hk) Ht' E. simplify_eq. split; [done|]. exists t'.
  rewrite E. split_and!; try done. apply lookup_insert_eq.
Qed.
Lemma load_pc p (Q : transport -> state -> Prop) s :
  (forall t, transports s !! p = Some t -> Q t s) -> pc (load p) Q s.
Proof. intros HQ t s'. unfold load. destruct (transports s !! p); [|done]. intros [= <- <-]. by apply HQ. Qed.
Lemma store_pc p t (Q : unit -> state -> Prop) s :
  Q tt (SerialState (active_transport s) (<[p := t]> (transports s)) (kernel s)) -> pc (store p t) Q s.
Proof. by intros HQ [] s' [= <-]. Qed.

Section calls.
Context (p : nat) (base : gset Z).
Local Abbreviation kept := (fun _ (s' : state) => serial_in_use p base s').

Lemma flush_keeps fuel s : serial_in_use p base s -> pc (flush_output fuel p) kept s.
Proof.
  revert s. induction fuel as [|fuel IH]; intros s Hu; cbn [flush_output]; [by apply pc_lift|].
  apply pc_bind, load_pc. intros t Ht. case_test.
  { apply pc_bind, store_pc, pc_ret. by eapply in_use_store. }
  apply pc_bind, pc_lift. intros data _. apply pc_bind, kernel_call_pc. intros [written e] w E1.
  pose proof (tty_kept_write (t_fd t) data (kernel s)) as Hw.
  destruct (tty_write (t_fd t) data (kernel s)) as [[r0 e0] w0]. injection E1 as <- <- <-. cbn in Hw.
  pose proof (in_use_kernel _ _ _ _ Hu Hw) as Hu1. destruct (0 <? r0).
  - apply pc_bind, store_pc. apply IH. by eapply (in_use_store _ _ (SerialState _ _ _)).
  - case_test; [by apply IH|]. case_test; by apply pc_ret.
Qed.

Lemma poll_keeps fuel fd events timeout s :
  serial_in_use p base s -> pc (poll_loop fuel fd events timeout) kept s.
Proof.
  revert s. induction fuel as [|fuel IH]; intros s Hu; cbn [poll_loop]; [by apply pc_lift|].
  apply pc_bind, kernel_call_pc. intros [[r e] v] w E1.
  pose proof (tty_kept_poll fd events timeout (kernel s)) as Hw.
  destruct (tty_poll fd events timeout (kernel s)) as [[[r0 e0] v0] w0]. injection E1 as <- <- <- <-.
  cbn in Hw. pose proof (in_use_kernel _ _ _ _ Hu Hw) as Hu1. case_test; [by apply IH|by apply pc_ret].
Qed.

Lemma serial_do_keeps fuel call s : serial_in_use p base s -> pc (serial_do fuel p call) kept s.
Proof.
  intros Hu. pose proof Hu as [Ha _]. destruct call as [c| |timeout|]; cbn [serial_do].
  - unfold serial_send_char. apply pc_bind. intros s0 s1 [= <- <-]. rewrite Ha.
    apply pc_bind, load_pc. intros t Ht. case_test; [by apply pc_ret|].
    apply pc_bind, pc_lift. intros q _. apply pc_bind, store_pc, pc_ret. by eapply in_use_store.
  - unfold serial_recv_char. apply pc_bind. intros s0 s1 [= <- <-]. rewrite Ha.
    apply pc_bind, load_pc. intros t Ht. apply pc_bind, kernel_call_pc. intros c w E1.
    apply pc_ret. apply in_use_kernel; [done|].
    pose proof (tty_kept_read (t_fd t) (kernel s)) as Hw. by rewrite E1 in Hw.
  - cbn [serial_transport_wait]. apply pc_bind, load_pc. intros t Ht. case_test; [by apply pc_ret|].
    apply pc_bind. eapply pc_mono; [by apply poll_keeps|]. intros [r v] s1 Hu1. cbv beta iota.
    case_test; [by apply pc_ret|]. apply pc_bind. apply (pc_mono _ kept).
    { case_test; [by apply flush_keeps|by apply pc_ret]. }
    intros f s2 Hu2. case_test; [by apply pc_ret|]. case_test; by apply pc_ret.
  - cbn. apply pc_bind, load_pc. intros t _. by apply pc_ret.
Qed.

Lemma serial_run_keeps fuel calls : forall s, serial_in_use p base s -> pc (serial_run fuel p calls) kept s.
Proof.
  induction calls as [|call calls IH]; intros s Hu; cbn [serial_run]; [by apply pc_ret|].
  apply pc_bind. eapply pc_mono; [by apply serial_do_keeps|]. intros r s1 Hu1. apply pc_bind.
  eapply pc_mono; [by apply IH|]. intros rs s2 Hu2. by apply pc_ret.
Qed.
End calls.
End serial_run.

(** ** The local transport in a run *)

Section local_run.
Context {L : Type} `{LocalSockets L} (path : list Z) (before : list local_event) (p : nat).
Local Abbreviation state := (local_state L).

Definition local_closed (s : state) : Prop :=
  exists t sent, follows (socket_step path) Idle before p Idle sent t s.
Definition local_in_use (s : state) : Prop :=
  exists fd client sent, 0 <= fd /\ 0 <= client /\ transport_fd s = client /\
    follows (socket_step path) Idle before p (Connected fd client) sent
      (LocalTransport fd client (strncpy_zeroed 108 path)) s.

Lemma l_call_pc {A} (event : A -> local_event) f ph sent t Q (s : state) :
  follows (socket_step path) Idle before p ph sent t s ->
  (forall a s', transport_fd s' = transport_fd s -> exists ph', socket_step path ph (event a) ph' /\
     (follows (socket_step path) Idle before p ph' (sent ++ sent_by (event a)) t s' -> Q a s')) ->
  pc (l_call event f) Q s.
Proof.
  intros Hf HQ a s' E. assert (Hw : wp (l_call event f) Q s) by (by eapply wp_l_call).
  unfold wp in Hw. by rewrite E in Hw.
Qed.

Lemma local_poll_keeps fuel timeout fd client sent t (s : state) :
  follows (socket_step path) Idle before p (Connected fd client) sent t s ->
  pc (local_poll_loop fuel client timeout) (fun _ s' =>
    transport_fd s' = transport_fd s /\ follows (socket_step path) Idle before p (Connected fd client) sent t s') s.
Proof.
  revert s. induction fuel as [|fuel IH]; intros s Hf; cbn [local_poll_loop]; [by apply pc_lift|].
  apply pc_bind. eapply l_call_pc; [done|]. intros [[r e] v] s1 Hs1. exists (Connected fd client).
  split; [constructor|]. cbn [sent_by]. rewrite app_nil_r. intros Hf1. case_test; [|by apply pc_ret].
  eapply pc_mono; [by apply IH|]. intros _ s2 [? ?]. split; [congruence|done].
Qed.

Lemma local_do_keeps fuel u (s : state) :
  local_in_use s -> pc (local_do fuel p u) (fun _ s' => local_in_use s') s.
Proof.
  intros (fd & client & sent & Hfd & Hc & Ht & Hf). destruct u as [c| |timeout]; cbn [local_do].
  - apply pc_bind. intros x s0 [= <- <-]. rewrite Ht. apply pc_bind. eapply l_call_pc; [done|].
    intros n s1 Hs1. exists (Connected fd client). split; [constructor|]. intros Hf1. apply pc_ret.
    eexists fd, client, _. split_and!; [done|done|congruence|done].
  - apply pc_bind. intros x s0 [= <- <-]. rewrite Ht. apply pc_bind. eapply l_call_pc; [done|].
    intros [n c] s1 Hs1. exists (Connected fd client). split; [constructor|]. intros Hf1. apply pc_ret.
    eexists fd, client, _. split_and!; [done|done|congruence|done].
  - cbn [local_transport_wait]. apply pc_bind. intros t s0. unfold l_load.
    rewrite (proj1 Hf). intros [= <- <-]. cbn [client_fd]. case_test; [lia|].
    apply pc_bind. eapply pc_mono; [by apply local_poll_keeps|]. intros [r v] s1 [Hs1 Hf1].
    assert (local_in_use s1) by (eexists fd, client, _; split_and!; [done|done|congruence|done]).
    case_test; by apply pc_ret.
Qed.

Lemma local_uses_keeps fuel us : forall s : state,
  local_in_use s -> pc (local_uses fuel p us) (fun _ s' => local_in_use s') s.
Proof.
  induction us as [|u us IH]; intros s Hu; cbn [local_uses]; [by apply pc_ret|].
  apply pc_bind. eapply pc_mono; [by apply local_do_keeps|]. intros r s1 Hu1. apply pc_bind.
  eapply pc_mono; [by apply IH|]. intros rs s2 Hu2. by apply pc_ret.
Qed.
End local_run.

(** ** Whole runs *)

Section life.
Context {N W K L : Type} `{SquidInit N} `{SquidLaws N rx tx} `{!SquidSockets N socks}
  `{SafeWorld W Inv} `{TtyDescriptors K ttys} `{LocalSockets L}.
Variable stage_root : option (list Z).
Local Abbreviation plugin := (server_plugin W).
Local Abbreviation state := (sv_state N W K L).
Local Abbreviation path := local_transport_default_socket_path.

Lemma wp_on_engine {A} (m : ST (N * W) A) Q (s : state) :
  wp m (fun a '(n, w) => Q a (SvState n (LdState w (ld_trace (sv_ld s))) (sv_serial s) (sv_local s)
    (sv_log s))) (sv_net s, ld_world (sv_ld s)) -> wp (on_engine m) Q s.
Proof. unfold wp, on_engine. by destruct (m _) as [[a [n w]]|]. Qed.
Lemma wp_on_serial {A} (m : ST (serial_state K) A) Q (s : state) :
  wp m (fun a t => Q a (SvState (sv_net s) (sv_ld s) t (sv_local s) (sv_log s))) (sv_serial s) ->
  wp (on_serial m) Q s.
Proof. unfold wp, on_serial. by destruct (m _) as [[a t]|]. Qed.
Lemma wp_on_local {A} (m : ST (local_state L) A) Q (s : state) :
  wp m (fun a t => Q a (SvState (sv_net s) (sv_ld s) (sv_serial s) t (sv_log s))) (sv_local s) ->
  wp (on_local m) Q s.
Proof. unfold wp, on_local. by destruct (m _) as [[a t]|]. Qed.

(** *** The transport *)

Section transport.
Context (base : gset Z) (before : list local_event).

Definition transport_closed (s : state) : Prop :=
  serial_closed (ttys := ttys) transport_address base (sv_serial s) /\
  local_closed path before transport_address (sv_local s).
Definition transport_open (sv : server plugin) (s : state) : Prop :=
  if uses_serial sv
  then serial_in_use (ttys := ttys) transport_address base (sv_serial s) /\
       local_closed path before transport_address (sv_local s)
  else serial_closed (ttys := ttys) transport_address base (sv_serial s) /\
       local_in_use path before transport_address (sv_local s).

Lemma default_path_ok : cstr_ok path /\ zlen path < 108.
Proof. split; [by apply text_cstr_ok|by vm_compute]. Qed.

Lemma open_transport_spec sv timing s t :
  serial_closed (ttys := ttys) transport_address base (sv_serial s) ->
  follows (socket_step path) Idle before transport_address Idle [] t (sv_local s) ->
  wp (open_transport sv timing) (fun ok s' =>
    ld_trace (sv_ld s') = ld_trace (sv_ld s) /\ ld_world (sv_ld s') = ld_world (sv_ld s) /\
    log_only (sv_log s) (sv_log s') /\
    if ok then transport_open sv s' else transport_closed s') s.
Proof.
  intros Hser Hloc. unfold open_transport, transport_open.
  assert (Hlc : local_closed path before transport_address (sv_local s)) by (eexists _, _; done).
  destruct (uses_serial sv).
  - apply wp_bind, wp_log. intros l1 Hl1. apply wp_bind, wp_on_serial.
    eapply wp_mono; [by eapply serial_open_wp|]. intros r ser Hr. cbv beta in *.
    destruct (Z.eqb_spec r 0); cbn [negb].
    + destruct Hr as [Ha Ht]. apply wp_bind, wp_on_serial.
      unfold wp at 1, serial_transport_activate. apply wp_bind, wp_on_engine, wp_net_step.
      intros [] n _. apply wp_ret. cbn. split_and!; try done; apply Hl1.
    + apply wp_bind, wp_log_errno. intros l2 Hl2. apply wp_ret. cbn. split_and!; try done.
      destruct Hl1, Hl2. cbn in *. split; congruence.
  - destruct default_path_ok as [Hpok Hplen]. apply wp_bind, wp_on_local.
    eapply wp_mono; [by eapply listen_spec|].
    intros r loc [(-> & fd & Hfd & Hf)|(Hr & _ & t' & _ & Hf)]; cbn [negb Z.eqb].
    2: { destruct (Z.eqb_spec r 0); [done|]. cbn [negb]. apply wp_bind, wp_log_errno.
         intros l2 Hl2. apply wp_ret. cbn. split_and!; try done. split; [done|]. eexists _, _. done. }
    apply wp_bind, wp_log. intros l1 Hl1. apply wp_bind, wp_on_local. cbn [sv_local].
    eapply wp_mono; [by eapply accept_spec|].
    intros r loc2 [(-> & client & Hc & Hf2)|(Hr & Hf2)]; cbn [negb Z.eqb].
    + apply wp_bind, wp_log. intros l2 Hl2. apply wp_bind, wp_on_local. cbn [local_transport_activate].
      apply wp_bind. eapply wp_l_load; [done|]. unfold wp at 1, set_transport_fd.
      apply wp_bind, wp_on_engine, wp_net_step. intros [] n _. apply wp_ret. cbn.
      split_and!; try done.
      * destruct Hl1, Hl2. cbn in *. split; congruence.
      * exists fd, client, []. by split_and!.
    + destruct (Z.eqb_spec r 0); [done|]. cbn [negb]. apply wp_bind, wp_log_errno. intros l2 Hl2.
      apply wp_bind, wp_on_local. cbn [sv_local].
      eapply wp_mono; [by apply (close_spec path before transport_address fd (-1) [])|].
      intros [] loc3 (_ & t3 & _ & _ & Hf3). apply wp_ret. cbn. split_and!; try done.
      * destruct Hl1, Hl2. cbn in *. split; congruence.
      * split; [done|]. eexists _, _. done.
Qed.

Lemma transport_used_keeps sv s s' :
  transport_open sv s -> transport_used sv s s' -> transport_open sv s'.
Proof.
  unfold transport_open, transport_used. destruct (uses_serial sv).
  - intros [Hs Hl] (-> & fuel & calls & rs & _ & E). split; [|done].
    by apply (serial_run_keeps transport_address base fuel calls _ Hs _ _ E).
  - intros [Hs Hl] (-> & fuel & us & rs & E). split; [done|].
    by apply (local_uses_keeps path before transport_address fuel us _ Hl _ _ E).
Qed.

Lemma close_transport_spec sv s :
  transport_open sv s ->
  wp (close_transport sv) (fun _ s' => sv_ld s' = sv_ld s /\ sv_net s' = sv_net s /\
    sv_log s' = sv_log s /\ transport_closed s') s.
Proof.
  unfold transport_open, close_transport, transport_closed. destruct (uses_serial sv).
  - intros [Hs Hl]. apply wp_on_serial. eapply wp_mono; [by apply serial_close_wp|].
    intros [] ser Hc. by split_and!.
  - intros [Hs (fd & client & sent & Hfd & Hc & Ht & Hf)]. apply wp_on_local.
    destruct default_path_ok as [Hpok Hplen].
    eapply wp_mono; [apply (close_spec path before transport_address fd client sent); try done|].
    { by destruct (Z.leb_spec 0 client); [|lia]. }
    intros [] loc (_ & t3 & _ & _ & Hf3). split_and!; try done. eexists _, _. done.
Qed.
End transport.

(** *** From start to end *)

(** Before [main]: no transport is in use, the log is closed. *)
Definition at_rest (s : state) : Prop :=
  Inv (ld_world (sv_ld s)) /\ is_Some (transports (sv_serial s) !! transport_address) /\
  active_transport (sv_serial s) = None /\
  is_Some (local_transports (sv_local s) !! transport_address) /\ syslog_open (sv_log s) = false.

(** Everything acquired since [s] is released: the libraries that were opened
    are closed, in a nested way, after the plugins in them were stopped; the
    terminal or the client, listening socket and socket file are gone; the
    connection to syslog is closed. *)
Definition released (s s' : state) : Prop :=
  (exists evs, ld_trace (sv_ld s') = ld_trace (sv_ld s) ++ evs /\ nested evs) /\
  transport_closed (ttys (kernel (sv_serial s))) (l_trace (sv_local s)) s' /\
  syslog_open (sv_log s') = false.

(** The state in which the dispatch loop starts. *)
Record ready (config : server_config) (base : gset Z) (s : state) (sv : server plugin)
    (s1 : state) : Prop := {
  rd_config : config_ok (sv_plugin_config sv);
  rd_read : exists w, sv_plugin_config sv = read_config config w;
  rd_loaded : loaded sv = configured (sv_plugin_config sv);
  rd_linked : linked (sv_loader sv) (plugin_registry (sv_runtime sv));
  rd_trace : ld_trace (sv_ld s1) =
    ld_trace (sv_ld s) ++ concat (map (start_events stage_root) (entries (sv_loader sv))) ++ [];
  rd_loop : loop_inv Inv
    (LoopState Handshake true (sv_runtime sv) (sv_net s1, ld_world (sv_ld s1)));
  rd_owns : owns (socks := socks) base (map squid_fd (rt_ports (sv_runtime sv))) (sv_net s1);
  rd_system : exists ps, rt_ports (sv_runtime sv) !! 0%nat = Some ps /\ squid_fd ps < 0;
  rd_transport : transport_open (ttys (kernel (sv_serial s))) (l_trace (sv_local s)) sv s1;
  rd_log : log_ok (sv_log s1) }.

Lemma slots_keep_handlers (slots : list (server_plugin_slot plugin)) :
  slots_keep (Inv := Inv) slots -> handlers_safe Inv slots.
Proof.
  intros Hs port f. unfold handler, mapped. destruct (slots !! slot_index port) as [sl|] eqn:E; [|done].
  pose proof (Forall_lookup_1 _ _ _ _ Hs E) as Hk. cbv beta in Hk.
  destruct (slot_plugin sl) as [p|]; [|done]. intros Hf. by apply Hk.
Qed.

Lemma fresh_ports_ok base ports (n : N) :
  length ports = 16%nat -> Forall fresh_port ports ->
  owns (socks := socks) base (map squid_fd ports) n -> ports_ok ports /\ all_clean ports.
Proof.
  intros Hl Hf [_ _ Hu]. split; [split_and!|].
  - done.
  - eapply Forall_impl; [exact Hf|]. intros ps Hps. unfold fresh_port in Hps. rewrite Hps. split_and!; closed.
  - intros i j a b Hi Hj Ha Hab. eapply (Hu i j (squid_fd a)); [by apply fds_lookup| |done].
    rewrite Hab. by apply fds_lookup.
  - intros i ps _ Hi. pose proof (Forall_lookup_1 _ _ _ _ Hf Hi) as Hps. unfold fresh_port in Hps.
    by rewrite Hps.
Qed.

Lemma open_sockets_spec (rt : server_runtime plugin) (s : N * W) :
  registry_ok (plugin_registry rt) -> rt_ports rt = replicate 16 zero_port ->
  wp (open_plugin_sockets rt) (fun rt' s' => s'.2 = s.2 /\ plugin_registry rt' = plugin_registry rt /\
    owns (socks := socks) (socks s.1) (map squid_fd (rt_ports rt')) s'.1 /\
    ports_ok (rt_ports rt') /\ all_clean (rt_ports rt') /\
    rt_ports rt' !! 0%nat = Some zero_port) s.
Proof.
  intros Hreg Hp. unfold open_plugin_sockets, each_plugin_port. rewrite Hp. apply wp_bind.
  eapply wp_mono; [apply (open_loop (plugin_registry rt) (socks s.1) 15 1); try done|].
  - by repeat constructor.
  - apply owns_none; [by repeat constructor|done].
  - intros i ps _ Hi. apply lookup_replicate in Hi as [-> _]. cbn. lia.
  - intros ports s' (Hw & Hl & Hf & Ho & Hsame). apply wp_ret. cbn [rt_ports plugin_registry].
    destruct (fresh_ports_ok _ _ _ Hl Hf Ho). split_and!; try done.
    rewrite Hsame by (cbn; lia). done.
Qed.

(** Process calls change the world only. *)
Record world_only (s s' : state) : Prop := {
  wo_inv : Inv (ld_world (sv_ld s'));
  wo_trace : ld_trace (sv_ld s') = ld_trace (sv_ld s);
  wo_net : sv_net s' = sv_net s;
  wo_serial : sv_serial s' = sv_serial s;
  wo_local : sv_local s' = sv_local s;
  wo_log : sv_log s' = sv_log s }.

Lemma wp_process {A} (f : W -> A * W) (Q : A -> state -> Prop) s0 s :
  world_only s0 s -> (forall w, Inv w -> Inv (f w).2) ->
  (forall a s', world_only s0 s' -> Q a s') -> wp (on_process f) Q s.
Proof.
  intros [] Hk HQ. apply wp_on_loader, wp_linker. intros a w E. apply HQ. split; cbn; try done.
  - change w with (a, w).2. rewrite <- E. by apply Hk.
  - by rewrite app_nil_r.
Qed.
Ltac process_step := apply wp_bind; eapply wp_process; [eassumption|intros; world_keeps|].

Lemma install_spec s : Inv (ld_world (sv_ld s)) ->
  wp install_signal_handlers (fun _ s' => world_only s s') s.
Proof.
  intros HI. assert (world_only s s) by done. unfold install_signal_handlers.
  process_step. intros ok s1 Hw1. case_test; [by apply wp_ret|].
  process_step. intros ok2 s2 Hw2. case_test; by apply wp_ret.
Qed.
Lemma daemonize_spec s : Inv (ld_world (sv_ld s)) ->
  wp daemonize_process (fun r s' => world_only s s' /\ match r with inl c => c = 0 | inr _ => True end) s.
Proof.
  intros HI. assert (world_only s s) by done. unfold daemonize_process.
  repeat first [process_step; intros ? ? ? | case_test]; by apply wp_ret.
Qed.

(** How starting ends, from the state [s]. *)
Definition started (config : server_config) (s : state) (r : Z + server plugin) (s1 : state) : Prop :=
  match r with
  | inl code => (code = 0 \/ code = 1) /\ released s s1
  | inr sv => exists base, ready config base s sv s1
  end.

Lemma log_ok_only l l' : log_ok l -> log_only l l' -> log_ok l'.
Proof. unfold log_ok. intros Hl [-> ->]. done. Qed.

(** Leaving after a failure. *)
Lemma leave_started config s sv u s1 :
  plugins_inv (Inv := Inv) stage_root (ld_trace (sv_ld s)) sv u s1 -> undone u -> log_ok (sv_log s1) ->
  transport_closed (ttys (kernel (sv_serial s))) (l_trace (sv_local s)) s1 ->
  wp (let! code := leave_server sv 1 in ret (inl code)) (started config s) s1.
Proof.
  intros [Hlk _ _ _ Htr] Hu Hlog [Hs Hl]. apply wp_bind.
  eapply wp_mono; [by eapply leave_spec|]. intros code s2 (-> & Hn2 & Hs2 & Hl2 & Hg2 & Hev).
  apply wp_ret. split; [by right|]. split_and!; [done| |done]. split; [by rewrite Hs2|by rewrite Hl2].
Qed.

(** From the loaded plugins to the dispatch loop. *)
Lemma connect_started config s sv msg s1 t0 :
  config_ok (sv_plugin_config sv) -> (exists w, sv_plugin_config sv = read_config config w) ->
  loaded sv = configured (sv_plugin_config sv) ->
  plugins_inv (Inv := Inv) stage_root (ld_trace (sv_ld s)) sv [] s1 -> log_ok (sv_log s1) ->
  serial_closed (ttys := ttys) transport_address (ttys (kernel (sv_serial s))) (sv_serial s1) ->
  follows (socket_step path) Idle (l_trace (sv_local s)) transport_address Idle [] t0 (sv_local s1) ->
  wp (do! log server_log_level_info msg;
      let! opened := open_transport sv
        (set_payload squid_timing_defaults (u8 (squid_payload (sv_plugin_config sv)))) in
      if negb opened then let! code := leave_server sv 1 in ret (inl code)
      else
        let! rt := on_engine (open_plugin_sockets (sv_runtime sv)) in
        ret (inr (set_runtime sv rt))) (started config s) s1.
Proof.
  intros Hcfg Hread Hloaded Hpi Hlog Hser Hloc. apply wp_bind, wp_log. intros lg Hlg. apply wp_bind.
  eapply wp_mono; [by apply (open_transport_spec (ttys (kernel (sv_serial s))) (l_trace (sv_local s)) sv _ _ t0)|].
  intros opened s2 (Ht2 & Hw2 & Hg2 & Hopen). cbn [sv_ld sv_log] in *.
  assert (Hlog2 : log_ok (sv_log s2)) by (eapply log_ok_only; [|exact Hg2]; by eapply log_ok_only).
  pose proof Hpi as [Hlk Hsl HI Hpt Htr].
  destruct opened; cbn [negb].
  2: { apply (leave_started config s sv []); [|by left|done|done]. split; [done|done|by rewrite Hw2|done|by rewrite Ht2]. }
  apply wp_bind, wp_on_engine. pose proof Hlk as [Hreg _].
  eapply wp_mono; [by apply open_sockets_spec|].
  intros rt [n w] (Hw & Hrg & Ho & Hpk & Hcn & Hz). cbn [fst snd] in *. apply wp_ret.
  eexists. split; cbn [set_runtime sv_plugin_config sv_loader sv_runtime sv_net sv_ld ld_world ld_trace].
  - done.
  - done.
  - done.
  - by rewrite Hrg.
  - by rewrite Ht2.
  - subst w. rewrite Hw2. split_and!; cbn; try done; rewrite ?Hrg; try done. by apply slots_keep_handlers.
  - exact Ho.
  - exists zero_port. split; [done|]. cbn. lia.
  - exact Hopen.
  - done.
Qed.

Lemma start_runtime_spec config s :
  at_rest s -> wp (start_runtime stage_root (init_server config)) (started config s) s.
Proof.
  intros (HI & Hser & Hact & [t0 Hloc] & Hlog). unfold start_runtime. apply wp_bind.
  unfold wp at 1, on_log. set (s1 := SvState _ _ _ _ _).
  assert (Hlog1 : log_ok (sv_log s1)).
  { cbn. unfold log_ok, init_server_log. cbn. rewrite Hlog, orb_false_r. by destruct (run_mode config). }
  assert (Hsc : serial_closed (ttys := ttys) transport_address (ttys (kernel (sv_serial s))) (sv_serial s))
    by (by split_and!).
  assert (Hlf : follows (socket_step path) Idle (l_trace (sv_local s)) transport_address Idle [] t0 (sv_local s)).
  { split; [done|]. exists []. rewrite app_nil_r. split_and!; [done|constructor|done]. }
  apply wp_bind. eapply wp_mono; [by apply install_spec|].
  intros r s2 [HI2 Ht2 Hn2 Hs2 Hl2 Hg2]. cbn [s1 sv_net sv_serial sv_local sv_log sv_ld] in *.
  assert (Hlog2 : log_ok (sv_log s2)) by (by rewrite Hg2).
  destruct (negb (r =? 0)).
  { apply wp_bind, wp_log_errno. intros lg Hlg. apply wp_bind. unfold wp at 1, on_log. apply wp_ret.
    split; [by right|]. split_and!.
    - exists []. cbn. rewrite app_nil_r. split; [done|constructor].
    - split; cbn; [by rewrite Hs2|rewrite Hl2; by eexists _, _].
    - cbn. apply close_log_closed. by eapply log_ok_only. }
  apply wp_bind. destruct (init_plugins_inv stage_root config s2 HI2) as [Hpi Hp0].
  eapply wp_mono; [by apply load_configured_spec|].
  intros [loaded0 sv] s3 (Hread & Hcfg & [Hn3 Hs3 Hl3 Hg3] & Hc3 & u & Hu & Hpi3 & Hcase). rewrite Ht2 in Hpi3.
  assert (Hlog3 : log_ok (sv_log s3)) by (by eapply log_ok_only).
  assert (Hsc3 : serial_closed (ttys := ttys) transport_address (ttys (kernel (sv_serial s))) (sv_serial s3))
    by (by rewrite Hs3, Hs2).
  assert (Hlf3 : follows (socket_step path) Idle (l_trace (sv_local s)) transport_address Idle [] t0 (sv_local s3))
    by (by rewrite Hl3, Hl2).
  destruct (Z.eqb_spec loaded0 0) as [->|]; cbn [negb].
  2: { apply (leave_started config s sv u); try done. split; [done|by eexists _, _]. }
  destruct Hcase as [(_ & -> & Hloaded)|[? _]]; [|done]. rewrite Hp0, app_nil_l in Hloaded.
  by eapply (connect_started config s sv _ s3 t0); [|eexists|..].
Qed.

(** What was started from a state that differs only in its process. *)
Lemma started_from config s s0 r s1 :
  ld_trace (sv_ld s0) = ld_trace (sv_ld s) -> sv_serial s0 = sv_serial s ->
  sv_local s0 = sv_local s -> started config s0 r s1 -> started config s r s1.
Proof.
  intros Ht Hs Hl. destruct r as [c|sv]; cbn; rewrite <- ?Ht.
  - intros [Hc (Hev & Hcl & Hsy)]. split; [done|]. split_and!; [by rewrite <- Ht| |done].
    by rewrite <- Hs, <- Hl.
  - intros [b []]. exists b. split; rewrite <- ?Ht, <- ?Hs, <- ?Hl; done.
Qed.

(** A state at rest whose process and log alone have changed is released. *)
Lemma rest_released s s1 lg :
  at_rest s -> ld_trace (sv_ld s1) = ld_trace (sv_ld s) -> sv_serial s1 = sv_serial s ->
  sv_local s1 = sv_local s -> syslog_open lg = false ->
  released s (SvState (sv_net s1) (sv_ld s1) (sv_serial s1) (sv_local s1) lg).
Proof.
  intros (HI & Hser & Hact & [t0 Hloc] & Hlog) Ht Hs Hl Hlg. split_and!; [|split|done]; cbn.
  - exists []. rewrite app_nil_r. split; [done|constructor].
  - rewrite Hs. by split_and!.
  - rewrite Hl. exists t0, []. split; [done|]. exists []. rewrite app_nil_r.
    split_and!; [done|constructor|done].
Qed.

(** The fork, the session and the runtime. *)
Lemma start_server_spec config s :
  at_rest s -> wp (start_server stage_root (Some (init_server config))) (started config s) s.
Proof.
  intros Hrest. pose proof Hrest as (HI & Hser & Hact & [t0 Hloc] & Hlog).
  unfold start_server. cbn [init_server sv_config].
  destruct (is_daemon (run_mode config)); [|by apply start_runtime_spec].
  apply wp_bind. eapply wp_mono; [by apply daemonize_spec|].
  intros r s1 [[HI1 Ht1 Hn1 Hs1 Hl1 Hg1] Hr].
  assert (Hrel1 : released s s1).
  { pose proof (rest_released s s1 (sv_log s1) Hrest Ht1 Hs1 Hl1) as Hr1.
    destruct s1; apply Hr1; cbn in *; congruence. }
  destruct r as [c|r]; [apply wp_ret; subst c; split; auto|].
  case_test; [|case_test; [apply wp_ret; split; auto|]].
  - apply wp_bind, wp_log_errno. intros lg [? Hlg]. apply wp_ret. split; [by right|].
    apply rest_released; try done. congruence.
  - eapply wp_mono; [apply start_runtime_spec; by split_and!; rewrite ?Hs1, ?Hl1, ?Hg1; eauto|].
    intros r' s2. by apply started_from.
Qed.

Lemma owns_all_closed base fds (n : N) :
  owns (socks := socks) base fds n -> Forall (fun fd => fd < 0) fds -> socks n = base.
Proof.
  intros [Ho _ _] Hf. apply set_eq. intros fd. rewrite Ho. split; [|by left].
  intros [?|[Hfd Hin]]; [done|]. pose proof (Forall_elem _ _ _ Hf Hin). cbn in *. lia.
Qed.

Lemma close_sockets_spec base (rt : server_runtime plugin) (s : N * W) ps :
  ports_ok (rt_ports rt) -> owns (socks := socks) base (map squid_fd (rt_ports rt)) s.1 ->
  rt_ports rt !! 0%nat = Some ps -> squid_fd ps < 0 ->
  wp (close_plugin_sockets rt) (fun rt' s' => s'.2 = s.2 /\ plugin_registry rt' = plugin_registry rt /\
    socks s'.1 = base) s.
Proof.
  intros [Hl _] Ho Hps Hneg. unfold close_plugin_sockets, each_plugin_port. apply wp_bind.
  eapply wp_mono; [apply (close_loop base 15 1); (done || lia)|].
  intros ports s' (Hw & Hl' & Ho' & Hr). apply wp_ret. split_and!; [done|done|].
  eapply owns_all_closed; [exact Ho'|]. apply Forall_lookup_2. intros i fd Hi.
  apply fds_lookup_inv in Hi as (q & Hq & <-). specialize (Hr i q Hq). case_decide; [done|].
  destruct (decide (i = 0)%nat) as [->|].
  - rewrite Hps in Hr. by injection Hr as <-.
  - pose proof (lookup_lt_Some _ _ _ Hq). cbn in *. lia.
Qed.

Lemma loop_inv_reachable (l l' : loop_state (N := N) (S := W)) :
  loop_inv Inv l -> rtc loop_step l l' -> loop_inv Inv l'.
Proof. intros Hi Hr. induction Hr; [done|]. apply IHHr. by eapply (loop_inv_step (rx := rx) (tx := tx)). Qed.

Lemma finish_spec config base s sv s1 l s2 :
  ready config base s sv s1 -> serves sv s1 l s2 ->
  wp (finish_server (set_runtime sv (lp_runtime l))) (fun c s3 =>
    c = 0 /\ released s s3 /\ socks (sv_net s3) = base) s2.
Proof.
  intros [Hcfg _ _ Hlk Htr Hli Ho (ps & Hps & Hneg) Htp Hlog]
    [l' s2' Hloop Hworld Htrace Hused Hlog1 Hlog2].
  pose proof (loop_inv_reachable _ _ Hli Hloop) as (_ & _ & Hpk & _).
  pose proof (loop_keeps (socks := socks) _ _ Hloop) as (Hfds & Hreg & Hsk).
  cbn [lp_runtime lp_world fst] in *. unfold finish_server. apply wp_bind, wp_on_engine.
  rewrite <- Hworld. cbn [set_runtime sv_runtime].
  assert (Ho' : owns (socks := socks) base (map squid_fd (rt_ports (lp_runtime l'))) (lp_world l').1).
  { rewrite Hfds. destruct Ho as [H1' H2' H3']. split; try done. intros fd. by rewrite Hsk. }
  assert (Hz : exists q, rt_ports (lp_runtime l') !! 0%nat = Some q /\ squid_fd q < 0).
  { pose proof (fds_lookup _ _ _ Hps) as E0. rewrite <- Hfds in E0.
    apply fds_lookup_inv in E0 as (q & Hq & E). exists q. split; [done|lia]. }
  destruct Hz as (q & Hq & Hqneg).
  eapply wp_mono; [by eapply (close_sockets_spec base)|]. intros rt [n w] (Hw & Hreg' & Hn). cbn [fst snd] in *.
  apply wp_bind. eapply wp_mono.
  { eapply (close_transport_spec (ttys (kernel (sv_serial s))) (l_trace (sv_local s))).
    pose proof (transport_used_keeps _ _ _ _ _ Htp Hused) as Ht2.
    unfold transport_open in *. exact Ht2. }
  intros [] s3 (Hld & Hn3 & Hlg3 & Hcl). apply wp_bind, wp_log. intros lg [Hg1 Hg2].
  eapply wp_mono.
  { eapply (leave_spec stage_root (ld_trace (sv_ld s)) _ []).
    - cbn [set_runtime sv_loader sv_runtime]. by rewrite Hreg', Hreg.
    - cbn [set_runtime sv_loader sv_ld]. rewrite Hld. cbn [sv_ld ld_trace]. by rewrite Htrace, Htr.
    - by left.
    - unfold log_ok in *. cbn [sv_log]. rewrite Hg1, Hg2, Hlg3. cbn [sv_log].
      by rewrite Hlog1, Hlog2. }
  intros c s4 (-> & Hn4 & Hs4 & Hl4 & Hg4 & Hev). cbn [sv_net sv_serial sv_local] in *.
  split_and!; [done| |by rewrite Hn4, Hn3].
  split_and!; [done| |done]. destruct Hcl. split; [by rewrite Hs4|by rewrite Hl4].
Qed.

(** *** Properties *)

(** C32. The plugins of the configuration file are loaded exactly: whatever the
    file holds, the configuration used is the one the parser reads from it
    ([read_config]); on success the
    loader holds the system plugin's path on port 0 and the path of every
    mapping on its port, in the order of the file, and the libraries opened
    since the start are exactly the ones these paths name, in that order; on
    failure the plugins loaded are the first ones of that list.  Unloading then
    empties the registry, and from beginning to end libraries are opened and
    closed like brackets, every plugin started after its library was opened
    and stopped before it is closed. *)
Theorem configured_plugins_exact config (s : state) :
  Inv (ld_world (sv_ld s)) ->
  wp (load_configured_plugins stage_root (init_server config)) (fun '(r, sv) s' =>
    sv_plugin_config sv = read_config config (ld_world (sv_ld s)) /\
    config_ok (sv_plugin_config sv) /\
    linked (sv_loader sv) (plugin_registry (sv_runtime sv)) /\
    (r = 0 /\ loaded sv = configured (sv_plugin_config sv) /\
       (exists evs, ld_trace (sv_ld s') = ld_trace (sv_ld s) ++ evs /\
          opened evs = map (fun c => library stage_root c.2) (configured (sv_plugin_config sv))) \/
     r = -1 /\ loaded sv `prefix_of` configured (sv_plugin_config sv)) /\
    wp (unload_plugins sv) (fun sv' s'' =>
      (forall port, 0 <= port -> mapped (plugin_registry (sv_runtime sv')) port = None) /\
      exists evs, ld_trace (sv_ld s'') = ld_trace (sv_ld s) ++ evs /\ nested evs) s') s.
Proof.
  intros HI. destruct (init_plugins_inv stage_root config s HI) as [Hpi Hp0].
  eapply wp_mono; [by apply load_configured_spec|].
  intros [r sv] s' (Hread & Hcfg & _ & _ & u & Hu & [Hlk _ _ _ Htr] & Hcase).
  split_and!; [done|done|done| |].
  - rewrite Hp0 in Hcase. destruct Hcase as [(-> & -> & Hl)|(-> & added & Ha & Hl)];
      [left|right; split; [done|by rewrite Hl]].
    rewrite app_nil_l in Hl. split_and!; [done|done|]. eexists. split; [exact Htr|].
    rewrite app_nil_r, opened_started by apply Hlk. rewrite <- Hl. unfold loaded. by rewrite map_map.
  - eapply wp_mono; [by eapply unload_plugins_spec|]. intros sv' s'' (Hm & _ & _ & _ & _ & Hev). done.
Qed.

(** C10. The server from start to exit: starting never has undefined behaviour
    and either exits with 0 or 1 with everything released, or reaches the
    dispatch loop with the plugins of the configuration file loaded: the
    system plugin's path on port 0 and the path of every mapping on its port,
    in the order of the file, from exactly the libraries these paths name.  In
    every state the loop can then be in, with any packets, signals and calls of
    the transport in between, the runtime is well formed and the loop is not
    stuck; and once it has returned, shutdown closes exactly the sockets the
    server opened, releases the transport, the plugins and the log, and the
    exit code is 0. *)
Theorem server_run_safe config (s : state) :
  at_rest s ->
  exists r s1, start_server stage_root (Some (init_server config)) s = Some (r, s1) /\
  match r with
  | inl code => (code = 0 \/ code = 1) /\ released s s1
  | inr sv =>
      (exists w, sv_plugin_config sv = read_config config w) /\
      loaded sv = configured (sv_plugin_config sv) /\
      (exists evs, ld_trace (sv_ld s1) = ld_trace (sv_ld s) ++ evs /\
         opened evs = map (fun c => library stage_root c.2) (configured (sv_plugin_config sv))) /\
      exists base, owns (socks := socks) base (map squid_fd (rt_ports (sv_runtime sv))) (sv_net s1) /\
      forall l s2, serves sv s1 l s2 ->
        loop_inv Inv l /\ (lp_phase l <> Returned -> exists l', loop_turn l l') /\
        (lp_phase l = Returned -> exists s3,
           finish_server (set_runtime sv (lp_runtime l)) s2 = Some (0, s3) /\
           released s s3 /\ socks (sv_net s3) = base)
  end.
Proof.
  intros Hrest. apply wp_inv. eapply wp_mono; [by apply start_server_spec|].
  intros [code|sv] s1; [done|]. intros [base Hrd]. pose proof (rd_loaded _ _ _ _ _ Hrd) as Hl.
  split_and!; [by apply (rd_read _ _ _ _ _ Hrd)|done| |].
  { eexists. split; [apply (rd_trace _ _ _ _ _ Hrd)|].
    rewrite app_nil_r, opened_started by apply (rd_linked _ _ _ _ _ Hrd).
    rewrite <- Hl. unfold loaded. by rewrite map_map. }
  exists base. split; [by apply (rd_owns _ _ _ _ _ Hrd)|]. intros l s2 Hsv.
  assert (Hli : loop_inv Inv l).
  { destruct Hsv. eapply loop_inv_reachable; [apply Hrd|done]. }
  split_and!; [done|by apply (loop_progress (rx := rx) (tx := tx) Inv)|]. intros _.
  pose proof (finish_spec config base s sv s1 l s2 Hrd Hsv) as Hf.
  apply wp_inv in Hf as (c & s3 & E & -> & ?). eauto.
Qed.
End life.

(** ** Termination *)

(** However the loop goes on, it has returned after at most [n] turns, and it
    can always take the next one. *)
Inductive stops_within {N S : Type} `{Squid N} : nat -> loop_state (N := N) (S := S) -> Prop :=
| stops_now n l : lp_phase l = Returned -> stops_within n l
| stops_turn n l :
    (exists l', loop_turn l l') -> (forall l', loop_turn l l' -> stops_within n l') ->
    stops_within (Datatypes.S n) l.

(** C31. A termination signal, or a transport that fails, ends the dispatch loop:
    once [keep_running] is cleared, the loop has returned after at most two
    turns, whatever the link does in between; what follows is the shutdown of
    [run_server_runtime]. *)
Theorem signal_stops_loop {N S : Type} `{SquidLaws N rx tx} (Inv : S -> Prop)
    (l : loop_state (N := N) (S := S)) :
  loop_inv Inv l -> keep_running l = false -> stops_within 2 l.
Proof.
  intros Hi Hk.
  assert (Hwait : forall l' : loop_state (N := N) (S := S), keep_running l' = false ->
    lp_phase l' = Handshake -> stops_within 1 l').
  { intros [ph k rt s] Hk' Hph. cbn in *. subst. apply stops_turn; [eexists; apply step_return|].
    intros l' Ht. inversion Ht; subst. by apply stops_now. }
  pose proof (loop_progress (rx := rx) (tx := tx) Inv l Hi) as Hp.
  destruct l as [ph k rt s]. cbn in Hk, Hp. subst k.
  destruct ph; [| |by apply stops_now]; (apply stops_turn; [by apply Hp|]); intros l' Ht;
    inversion Ht; subst; [by apply stops_now|by apply Hwait..].
Qed.
