(* ===== verification/ServerWitness.v ===== *)
(** The server on a small concrete machine: the hypotheses of ServerProps.v
    can hold together. *)
From stdpp Require Import base numbers list option gmap strings relations.
From Stdlib Require Import ZArith Lia.
From S2P Require Import Prelude CLib PluginApi Registry Config ConfigProps Loader Runtime RuntimeProps.
From S2P Require Import Serial SerialProps Local LocalProps Log Server ServerProps.

Local Open Scope Z_scope.
Local Open Scope squid_scope.

(** ** Descriptors as the list of those open *)

Definition next_fd (l : list Z) : Z := 1 + foldr Z.max 2 l.
Definition drop_fd (fd : Z) (l : list Z) : list Z := filter (fun g => g <> fd) l.
Definition fd_set (l : list Z) : gset Z := list_to_set l.

Lemma next_fd_fresh l : 0 <= next_fd l /\ next_fd l ∉ fd_set l.
Proof.
  unfold next_fd, fd_set. split.
  - induction l as [|x l IH]; cbn in *; lia.
  - rewrite elem_of_list_to_set. intros Hin.
    assert (Hmax : forall x, x ∈ l -> x <= foldr Z.max 2 l).
    { clear. induction l as [|y l IH]; intros x Hx; [by inversion Hx|].
      apply list_elem_of_In in Hx as [<-|Hx]; cbn; [lia|].
      apply list_elem_of_In in Hx. specialize (IH x Hx). lia. }
    specialize (Hmax _ Hin). lia.
Qed.
Lemma fd_set_open l : fd_set (next_fd l :: l) = {[ next_fd l ]} ∪ fd_set l.
Proof. done. Qed.
Lemma fd_set_close fd l : fd_set (drop_fd fd l) = fd_set l ∖ {[ fd ]}.
Proof.
  unfold fd_set, drop_fd. apply set_eq. intros x.
  rewrite elem_of_difference, elem_of_singleton, !elem_of_list_to_set, list_elem_of_filter. intuition.
Qed.

(** An engine whose peer is silent. *)
#[local] Instance silent_squid : Squid (list Z) := {
  squid_open _ _ n := (next_fd n, next_fd n :: n);
  squid_bind _ _ n := (0, n);
  squid_close fd n := drop_fd fd n;
  squid_send _ _ n := (-1, n);
  squid_recv _ _ n := (0, [], n);
  snet_burst n := n;
  snet_link_is_up _ := true;
  transport_wait n := (0, n) }.
#[local] Instance silent_init : SquidInit (list Z) := { snet_init _ n := n }.
Definition no_bytes (_ : list Z) (_ : Z) : list Z := [].
#[local] Instance silent_laws : SquidLaws (list Z) no_bytes no_bytes.
Proof. split; intros; cbn; split_and!; try done; lia || (intros; split_and!; try done; lia || constructor). Qed.
#[local] Instance silent_sockets : SquidSockets (list Z) fd_set.
Proof.
  split; try done.
  - intros r t n. cbn. destruct (next_fd_fresh n). destruct (Z.ltb_spec (next_fd n) 0); [lia|done].
  - intros fd n. apply fd_set_close.
Qed.

(** A terminal that takes every byte. *)
#[local] Instance toy_tty : Tty (list Z) := {
  tty_open _ w := (next_fd w, next_fd w :: w);
  tty_close fd w := drop_fd fd w;
  tcgetattr _ _ := Some (Termios 0 0 0 0 0 0 0 0);
  tcsetattr _ _ w := (0, w);
  tty_read _ w := (None, w);
  tty_write _ data w := (zlen data, 0, w);
  tty_poll _ _ _ w := (0, 0, 0, w);
  clock_monotonic _ := (0, 0) }.
#[local] Instance toy_descriptors : TtyDescriptors (list Z) fd_set.
Proof.
  split; try done.
  - intros d w. cbn. destruct (next_fd_fresh w). destruct (Z.ltb_spec (next_fd w) 0); [lia|done].
  - intros fd w. apply fd_set_close.
Qed.

(** Two libraries, one of them below the stage root, and a configuration that
    loads both. *)
#[local] Instance toy_linker : Linker unit := {
  dlopen path w :=
    (if eq_text path (text "p.so") then Some 7
     else if eq_text path (text "/stage/q.so") then Some 8 else None, w);
  dlerror w := (None, w);
  dlsym h w := (true, w);
  factory h w := (Some sample_plugin, w);
  dlclose h w := w }.
#[local] Existing Instance toy_local_sockets.
Definition toy_stage : option (list Z) := Some (text "/stage").
Definition toy_config_file : list Z :=
  text "system_plugin p.so" ++ [10] ++ text "plugin 3 /q.so" ++ [10].
#[local] Instance toy_process : Process unit := {
  fork w := (0, w); setsid w := (1, w); chdir _ w := (0, w); umask _ w := w;
  freopen_null _ w := (true, w); install_handler _ w := (true, w);
  read_file _ w := (Some toy_config_file, w);
  errno _ := 0; strerror _ := None }.
#[local] Instance toy_world : SafeWorld unit (fun _ => True).
Proof.
  split; try done.
  - intros h w p [= <-]. split; [apply sample_safe|]. split; [done|]. intros f [=].
  - intros path w c [= <-]. closed.
Qed.

Definition toy_state : sv_state (list Z) unit (list Z) toy_local :=
  SvState [] (LdState tt [])
    (SerialState None {[ 0%nat := Serial.init_transport_fields (SerialConfig None 0 0 0 0 0) [] ]} [])
    (LocalState (-1) {[ 0%nat := LocalTransport 0 0 [] ]} (ToyLocal 3 0 false) [])
    (LogState server_run_mode_console false []).

Lemma toy_at_rest : at_rest (Inv := fun _ => True) toy_state.
Proof. split_and!; try done; by eexists. Qed.

(** The sample configuration loads one library on port 0 and the other on
    port 3. *)
Lemma configured_plugins_exact_witness :
  wp (load_configured_plugins toy_stage (init_server init_server_config)) (fun '(r, sv) s' =>
    r = 0 /\ loaded sv = [(0, text "p.so"); (3, text "/q.so")] /\
    (exists evs, ld_trace (sv_ld s') = [] ++ evs /\ opened evs = [text "p.so"; text "/stage/q.so"]) /\
    wp (unload_plugins sv) (fun sv' s'' =>
      exists evs, ld_trace (sv_ld s'') = [] ++ evs /\ nested evs) s') toy_state.
Proof.
  pose proof (configured_plugins_exact (N := list Z) (K := list Z) (L := toy_local)
    (Inv := fun _ => True) toy_stage init_server_config toy_state I) as Hw.
  assert (Hr : pc (load_configured_plugins toy_stage (init_server init_server_config))
    (fun '(r, sv) _ => r = 0) toy_state).
  { intros [r sv] s' E. vm_compute in E. injection E as <- _ _. done. }
  eapply wp_mono; [exact (wp_pc _ _ _ _ Hw Hr)|]. clear.
  intros [r sv] s' [(Hc & _ & _ & Hp & Hu) ->]. split; [done|].
  destruct Hp as [(_ & Hp & Ho)|[? _]]; [|done]. rewrite Hc in Hp, Ho.
  split; [exact Hp|]. split; [exact Ho|].
  eapply wp_mono; [exact Hu|]. by intros sv' s'' [_ ?].
Defined.

Lemma server_run_safe_witness :
  exists sv s1, start_server toy_stage (Some (init_server init_server_config)) toy_state
      = Some (inr sv, s1) /\
    loaded sv = [(0, text "p.so"); (3, text "/q.so")] /\
    forall l s2, serves sv s1 l s2 -> loop_inv (fun _ => True) l.
Proof.
  destruct (server_run_safe (N := list Z) (K := list Z) (L := toy_local) (rx := no_bytes)
    (tx := no_bytes) (socks := fd_set) (Inv := fun _ => True) toy_stage init_server_config toy_state
    toy_at_rest) as (r & s1 & E & Hr).
  destruct r as [code|sv].
  - exfalso. vm_compute in E. discriminate E.
  - exists sv, s1. destruct Hr as ([[] Hc] & Hp & _ & base & _ & Hl). split; [exact E|].
    split; [rewrite Hp, Hc; exact eq_refl|]. intros l s2 Hs. exact (proj1 (Hl l s2 Hs)).
Defined.

#[local] Existing Instance queue_squid.
#[local] Existing Instance queue_laws.
Lemma signal_stops_loop_witness :
  stops_within 2 (LoopState Linked false echo_runtime (echo_net, tt)).
Proof.
  apply (signal_stops_loop (rx := q_rx) (tx := q_tx) (fun _ => True)); [|reflexivity].
  split_and!; [apply echo_registry_ok|apply echo_handlers_safe|apply echo_ports_ok|done|done].
Defined.
