(* ===== verification/Heap.v ===== *)
(** malloc, realloc and free.  A pointer to a block is the block's number with
    the array it points to; which blocks are live is part of the state, and
    freeing a block that is not live is undefined behaviour.  Every
    allocation can fail. *)
From stdpp Require Import base numbers list option gmultiset strings.
From Stdlib Require Import ZArith Lia.
From S2P Require Import Prelude CLib.

Local Open Scope Z_scope.
Local Open Scope squid_scope.

(** The live blocks; the number of allocations so far, which numbers the next
    block; and which allocations fail. *)
Record mem := Mem {
  live : gmultiset nat;
  next_block : nat;
  alloc_fails : nat -> bool }.

(** [None] is NULL. *)
Definition ptr (A : Type) : Type := option (nat * A).

(** The block behind a pointer, as an allocation to account for. *)
Definition block {A} (p : ptr A) : gmultiset nat :=
  match p with Some (b, _) => {[+ b +]} | None => ∅ end.

Definition alloc (m : mem) : option nat * mem :=
  let b := next_block m in
  if alloc_fails m b then (None, Mem (live m) (S b) (alloc_fails m))
  else (Some b, Mem (live m ⊎ {[+ b +]}) (S b) (alloc_fails m)).

(** [malloc] of an array with content [cells]. *)
Definition malloc {A} (cells : A) : ST mem (ptr A) := fun m =>
  let '(b, m) := alloc m in
  Some (match b with Some b => Some (b, cells) | None => None end, m).

Definition free {A} (p : ptr A) : ST mem unit := fun m =>
  match p with
  | None => Some (tt, m)
  | Some (b, _) =>
      if decide (b ∈ live m)
      then Some (tt, Mem (live m ∖ {[+ b +]}) (next_block m) (alloc_fails m))
      else None
  end.

(** [realloc]: the new block has content [cells]; when it fails the old one is
    still there. *)
Definition realloc {A} (p : ptr A) (cells : A) : ST mem (ptr A) :=
  let! q := malloc cells in
  match q with
  | None => ret None
  | Some _ => do! free p; ret q
  end.

(** No allocation ever fails. *)
Definition memory_ok (m : mem) : Prop := forall b, alloc_fails m b = false.

(** From [m] on, the live blocks have become [X]. *)
Definition after (m m' : mem) (X : gmultiset nat) : Prop :=
  live m' = X /\ alloc_fails m' = alloc_fails m.

Lemma after_refl m : after m m (live m).
Proof. done. Qed.
Lemma after_trans m m1 m2 X Y : after m m1 X -> after m1 m2 Y -> after m m2 Y.
Proof. intros [_ H1] [H2 H3]. split; [done|congruence]. Qed.
Lemma after_ok m m' X : after m m' X -> memory_ok m -> memory_ok m'.
Proof. intros [_ H] Hok b. by rewrite H. Qed.
Lemma after_eq m m' X Y : after m m' X -> X = Y -> after m m' Y.
Proof. by intros ? <-. Qed.

Lemma wp_malloc {A} (cells : A) (Q : ptr A -> mem -> Prop) m :
  (forall b m', after m m' (live m ⊎ {[+ b +]}) -> Q (Some (b, cells)) m') ->
  (forall m', after m m' (live m) -> ~ memory_ok m -> Q None m') ->
  wp (malloc cells) Q m.
Proof.
  intros Hok Hfail. unfold wp, malloc, alloc. destruct (alloc_fails m (next_block m)) eqn:E.
  - apply Hfail; [done|]. intros H. by rewrite H in E.
  - by apply Hok.
Qed.

Lemma wp_free {A} (p : ptr A) (Q : unit -> mem -> Prop) m X :
  live m = X ⊎ block p -> (forall m', after m m' X -> Q tt m') -> wp (free p) Q m.
Proof.
  intros Hl HQ. unfold wp, free. destruct p as [[b c]|]; cbn in Hl.
  - rewrite decide_True by multiset_solver. apply HQ. split; [|done]. cbn. rewrite Hl. multiset_solver.
  - apply HQ. split; [|done]. rewrite Hl. multiset_solver.
Qed.

Lemma wp_realloc {A} (p : ptr A) (cells : A) (Q : ptr A -> mem -> Prop) m X :
  live m = X ⊎ block p ->
  (forall b m', after m m' (X ⊎ {[+ b +]}) -> Q (Some (b, cells)) m') ->
  (forall m', after m m' (live m) -> ~ memory_ok m -> Q None m') ->
  wp (realloc p cells) Q m.
Proof.
  intros Hl Hok Hfail. apply wp_bind, wp_malloc.
  - intros b m1 H1. apply wp_bind. apply (wp_free _ _ _ (X ⊎ {[+ b +]})).
    { destruct H1 as [-> _]. rewrite Hl. multiset_solver. }
    intros m2 H2. apply wp_ret, Hok. by eapply after_trans.
  - intros m1 H1 Hno. by apply wp_ret, Hfail.
Qed.
