(* ===== verification/Json.v ===== *)
(** The JSON reader of the retrovault service
    (lib/retrovault/retrovault_json.c).  A pointer into the document is its
    offset; pointers to local variables are never NULL and are passed as
    values.  A function that can fail gives [None] for undefined behaviour,
    [Some None] for -1 and [Some (Some x)] for 0 with the output [x]. *)
From stdpp Require Import base numbers list option strings.
From Stdlib Require Import ZArith Lia.
From S2P Require Import Prelude CLib Heap.

Local Open Scope Z_scope.
Local Open Scope squid_scope.

Notation "'let??' x := o 'in' k" :=
  (match o with Some (Some x) => k | Some None => Some None | None => None end)
  (at level 10, x name, o at level 100, k at level 200) : squid_scope.
Notation "'let??' ' p := o 'in' k" :=
  (match o with Some (Some p) => k | Some None => Some None | None => None end)
  (at level 10, p pattern, o at level 100, k at level 200) : squid_scope.

Definition retro_vault_json_max_depth : nat := 32.

Inductive retro_vault_json_type :=
| retro_vault_json_invalid
| retro_vault_json_object
| retro_vault_json_array
| retro_vault_json_string
| retro_vault_json_number
| retro_vault_json_boolean
| retro_vault_json_null.
#[export] Instance json_type_eq_dec : EqDecision retro_vault_json_type.
Proof. solve_decision. Defined.

Record retro_vault_json_value := JsonValue {
  v_start : Z;
  v_end : Z;
  v_type : retro_vault_json_type }.

Record retro_vault_json_iterator := JsonIterator {
  it_cursor : Z;
  it_end : Z;
  it_finished : bool }.

(** [strchr(set, c) != NULL]: the terminating NUL of [set] counts. *)
Definition in_set (set : list Z) (c : Z) : bool := bool_decide (c ∈ set) || (c =? 0).
(** The characters after a backslash that stand for themselves or a control
    character, and those of numbers. *)
Definition escape_set : list Z := [34; 92; 47; 98; 102; 110; 114; 116].
Definition number_set : list Z :=
  [48; 49; 50; 51; 52; 53; 54; 55; 56; 57; 46; 101; 69; 43; 45].

Section json.
(** The bytes the pointers point into. *)
Variable doc : list Z.

(** [(cursor < end) && ( *cursor == ch)]. *)
Definition at_char (cursor end_ ch : Z) : option bool :=
  if cursor <? end_ then let? c := rd doc cursor in Some (c =? ch) else Some false.

Fixpoint skip_loop (fuel : nat) (cursor end_ : Z) : option Z :=
  match fuel with
  | O => Some cursor
  | S fuel =>
      if cursor <? end_ then
        let? c := rd doc cursor in
        if isspace c then skip_loop fuel (cursor + 1) end_ else Some cursor
      else Some cursor
  end.
Definition skip_space (cursor end_ : Z) : option Z :=
  skip_loop (Z.to_nat (end_ - cursor)) cursor end_.

(** The four digits of an escape: whether all are hexadecimal. *)
Definition four_xdigits (cursor : Z) : option bool :=
  let? q := rd_bytes doc cursor 4 in Some (forallb isxdigit q).

(** The [while] of [parse_string_end]; every turn takes at least one
    character, so that [end - cursor] turns are enough. *)
Fixpoint string_loop (fuel : nat) (cursor end_ : Z) : option (option Z) :=
  match fuel with
  | O => Some None
  | S fuel =>
      if cursor <? end_ then
        let? character := rd doc cursor in
        let cursor := cursor + 1 in
        if character =? 34 then Some (Some cursor)
        else if character <? 32 then Some None
        else if character =? 92 then
          if end_ <=? cursor then Some None
          else
            let? character := rd doc cursor in
            let cursor := cursor + 1 in
            if in_set escape_set character then string_loop fuel cursor end_
            else if character =? 117 then
              if end_ - cursor <? 4 then Some None
              else
                let? ok := four_xdigits cursor in
                if negb ok then Some None else string_loop fuel (cursor + 4) end_
            else Some None
        else string_loop fuel cursor end_
      else Some None
  end.

Definition parse_string_end (cursor end_ : Z) : option (option Z) :=
  let? quoted := at_char cursor end_ 34 in
  if negb quoted then Some None
  else string_loop (Z.to_nat (end_ - cursor)) (cursor + 1) end_.

Fixpoint number_loop (fuel : nat) (cursor end_ : Z) : option Z :=
  match fuel with
  | O => Some cursor
  | S fuel =>
      if cursor <? end_ then
        let? c := rd doc cursor in
        if in_set number_set c then number_loop fuel (cursor + 1) end_ else Some cursor
      else Some cursor
  end.

(** [(end - current >= n) && (memcmp(current, word, n) == 0)]. *)
Definition word_at (current end_ : Z) (word : list Z) : option bool :=
  if zlen word <=? end_ - current then
    let? bytes := rd_bytes doc current (zlen word) in Some (eq_text bytes word)
  else Some false.

(** What the loop of an object or array does after a child: [Some true] goes
    on behind a comma, [Some false] is the closing character. *)
Definition after_child (current end_ close : Z) : option (option bool) :=
  let? comma := at_char current end_ 44 in
  if comma then Some (Some true)
  else
    let? closing := at_char current end_ close in
    if closing then Some (Some false) else Some None.

Section loops.
(** [parse_value_internal] one level deeper. *)
Variable parse_child : Z -> Z -> option (option (retro_vault_json_value * Z)).

(** The [for (;;)] of an object; the value ends where the loop ends. *)
Fixpoint object_loop (fuel : nat) (current end_ : Z) : option (option Z) :=
  match fuel with
  | O => Some None
  | S fuel =>
      let? current := skip_space current end_ in
      let?? key_end := parse_string_end current end_ in
      let? current := skip_space key_end end_ in
      let? colon := at_char current end_ 58 in
      if negb colon then Some None
      else
        let?? '(_, current) := parse_child (current + 1) end_ in
        let? current := skip_space current end_ in
        let?? more := after_child current end_ 125 in
        if (more : bool) then object_loop fuel (current + 1) end_ else Some (Some (current + 1))
  end.

Fixpoint array_loop (fuel : nat) (current end_ : Z) : option (option Z) :=
  match fuel with
  | O => Some None
  | S fuel =>
      let?? '(_, current) := parse_child current end_ in
      let? current := skip_space current end_ in
      let?? more := after_child current end_ 93 in
      if (more : bool) then array_loop fuel (current + 1) end_ else Some (Some (current + 1))
  end.
End loops.

(** [parse_value_internal]; [levels] is the number of levels left, 33 at depth
    0.  The result is the value and [*after]. *)
Fixpoint parse_value_internal (levels : nat) (cursor end_ : Z)
    : option (option (retro_vault_json_value * Z)) :=
  let? start := skip_space cursor end_ in
  match levels with
  | O => Some None
  | S levels =>
      if end_ <=? start then Some None
      else
        let? c := rd doc start in
        let done_at (type : retro_vault_json_type) (after : Z) :=
          Some (Some (JsonValue start after type, after)) in
        if c =? 34 then
          let?? after := parse_string_end start end_ in done_at retro_vault_json_string after
        else if c =? 123 then
          let? current := skip_space (start + 1) end_ in
          let? closing := at_char current end_ 125 in
          if closing then done_at retro_vault_json_object (current + 1)
          else
            let?? after :=
              object_loop (parse_value_internal levels) (Z.to_nat (end_ - current)) current end_ in
            done_at retro_vault_json_object after
        else if c =? 91 then
          let? current := skip_space (start + 1) end_ in
          let? closing := at_char current end_ 93 in
          if closing then done_at retro_vault_json_array (current + 1)
          else
            let?? after :=
              array_loop (parse_value_internal levels) (Z.to_nat (end_ - current)) current end_ in
            done_at retro_vault_json_array after
        else
          let? t := word_at start end_ (text "true") in
          if (t : bool) then done_at retro_vault_json_boolean (start + 4)
          else
            let? f := word_at start end_ (text "false") in
            if (f : bool) then done_at retro_vault_json_boolean (start + 5)
            else
              let? n := word_at start end_ (text "null") in
              if (n : bool) then done_at retro_vault_json_null (start + 4)
              else if (c =? 45) || isdigit c then
                let? after := number_loop (Z.to_nat (end_ - start)) (start + 1) end_ in
                done_at retro_vault_json_number after
              else Some None
  end.

(** [parse_value_internal(cursor, end, &value, &after, 0U)]. *)
Definition parse_value (cursor end_ : Z) : option (option (retro_vault_json_value * Z)) :=
  parse_value_internal (S retro_vault_json_max_depth) cursor end_.

Definition parse_document (size : Z) : option (option retro_vault_json_value) :=
  let?? '(value, after) := parse_value 0 size in
  let? cursor := skip_space after size in
  if cursor =? size then Some (Some value) else Some None.

(** *** Strings *)

Definition hex_value (character : Z) : Z :=
  if (48 <=? character) && (character <=? 57) then character - 48
  else if (97 <=? character) && (character <=? 102) then character - 97 + 10
  else if (65 <=? character) && (character <=? 70) then character - 65 + 10
  else -1.

(** [decode_hex_quad]: [Some None] is -1. *)
Definition decode_hex_quad (cursor : Z) : option (option Z) :=
  let? quad := rd_bytes doc cursor 4 in
  Some (fold_left (fun value character =>
    match value with
    | None => None
    | Some value =>
        let digit := hex_value character in
        if digit <? 0 then None else Some (Z.lor (u32 (Z.shiftl value 4)) digit)
    end) quad (Some 0)).

(** The bytes [encode_utf8] writes. *)
Definition encode_utf8 (codepoint : Z) : list Z :=
  if codepoint <=? 0x7F then [u8 codepoint]
  else if codepoint <=? 0x7FF then
    [u8 (Z.lor 0xC0 (Z.shiftr codepoint 6)); u8 (Z.lor 0x80 (Z.land codepoint 0x3F))]
  else if codepoint <=? 0xFFFF then
    [u8 (Z.lor 0xE0 (Z.shiftr codepoint 12));
     u8 (Z.lor 0x80 (Z.land (Z.shiftr codepoint 6) 0x3F));
     u8 (Z.lor 0x80 (Z.land codepoint 0x3F))]
  else
    [u8 (Z.lor 0xF0 (Z.shiftr codepoint 18));
     u8 (Z.lor 0x80 (Z.land (Z.shiftr codepoint 12) 0x3F));
     u8 (Z.lor 0x80 (Z.land (Z.shiftr codepoint 6) 0x3F));
     u8 (Z.lor 0x80 (Z.land codepoint 0x3F))].

(** What a character after a backslash stands for. *)
Definition simple_escape (character : Z) : option Z :=
  if character =? 34 then Some 34
  else if character =? 92 then Some 92
  else if character =? 47 then Some 47
  else if character =? 98 then Some 8
  else if character =? 102 then Some 12
  else if character =? 110 then Some 10
  else if character =? 114 then Some 13
  else if character =? 116 then Some 9
  else None.

(** The second half of a surrogate pair at [cursor]: the code point and the
    cursor behind it. *)
Definition join_surrogates (codepoint cursor end_ : Z) : option (Z * Z) :=
  if (0xD800 <=? codepoint) && (codepoint <=? 0xDBFF) && (6 <=? end_ - cursor) then
    let? backslash := rd doc cursor in
    if negb (backslash =? 92) then Some (codepoint, cursor)
    else
      let? u := rd doc (cursor + 1) in
      if negb (u =? 117) then Some (codepoint, cursor)
      else
        let? low := decode_hex_quad (cursor + 2) in
        match low with
        | Some low =>
            if (0xDC00 <=? low) && (low <=? 0xDFFF) then
              Some (u32 (u32 (0x10000 + u32 (Z.shiftl (codepoint - 0xD800) 10)) + (low - 0xDC00)),
                    cursor + 6)
            else Some (codepoint, cursor)
        | None => Some (codepoint, cursor)
        end
  else Some (codepoint, cursor).

(** The case 'u' of the switch: the bytes and the cursor behind the escape. *)
Definition unicode_escape (cursor end_ : Z) : option (option (list Z * Z)) :=
  if end_ - cursor <? 4 then Some None
  else
    let?? codepoint := decode_hex_quad cursor in
    let? '(codepoint, cursor) := join_surrogates codepoint (cursor + 4) end_ in
    let codepoint :=
      if (0xD800 <=? codepoint) && (codepoint <=? 0xDFFF) then 0xFFFD else codepoint in
    Some (Some (encode_utf8 codepoint, cursor)).

(** The [while] of [duplicate_retro_vault_json_string]: [Some None] is the
    failure in which the array is freed. *)
Fixpoint decode_loop (fuel : nat) (cursor end_ : Z) (result : list Z) (output_size : Z)
    : option (option (list Z * Z)) :=
  match fuel with
  | O => Some (Some (result, output_size))
  | S fuel =>
      if cursor <? end_ then
        let? character := rd doc cursor in
        let cursor := cursor + 1 in
        if negb (character =? 92) then
          let? result := wr result output_size character in
          decode_loop fuel cursor end_ result (output_size + 1)
        else if end_ <=? cursor then Some None
        else
          let? character := rd doc cursor in
          let cursor := cursor + 1 in
          match simple_escape character with
          | Some c =>
              let? result := wr result output_size c in
              decode_loop fuel cursor end_ result (output_size + 1)
          | None =>
              if character =? 117 then
                let?? '(bytes, cursor) := unicode_escape cursor end_ in
                let? result := wr_bytes result output_size bytes in
                decode_loop fuel cursor end_ result (output_size + zlen bytes)
              else Some None
          end
      else Some (Some (result, output_size))
  end.

Definition duplicate_retro_vault_json_string (value : retro_vault_json_value)
    : ST mem (ptr (list Z)) :=
  let size := v_end value - v_start value in
  if negb (bool_decide (v_type value = retro_vault_json_string)) || (size <? 2) then ret None
  else
    let! result := malloc (uninit size) in
    match result with
    | None => ret None
    | Some (b, cells) =>
        let! decoded :=
          lift (decode_loop (Z.to_nat size) (v_start value + 1) (v_end value - 1) cells 0) in
        match decoded with
        | None => do! free result; ret None
        | Some (cells, output_size) =>
            let! cells := lift (wr cells output_size 0) in
            ret (Some (b, cells))
        end
    end.

(** *** Members of an object *)

(** [strcmp(decoded, text) == 0]. *)
Definition json_string_matches (value : retro_vault_json_value) (name : list Z)
    : ST mem bool :=
  let! decoded := duplicate_retro_vault_json_string value in
  match decoded with
  | None => ret false
  | Some (_, cells) =>
      let! s := lift (cstring cells) in
      do! free decoded;
      ret (eq_text s name)
  end.

(** The [for (;;)]: 1 with the member, 0 or -1. *)
Fixpoint member_loop (fuel : nat) (cursor object_end : Z) (name : list Z)
    : ST mem (Z * option retro_vault_json_value) :=
  match fuel with
  | O => lift None
  | S fuel =>
      let! cursor := lift (skip_space cursor object_end) in
      if object_end <=? cursor then ret (0, None)
      else
        let! key := lift (parse_value cursor object_end) in
        match key with
        | None => ret (-1, None)
        | Some (key, after) =>
            if negb (bool_decide (v_type key = retro_vault_json_string)) then ret (-1, None)
            else
              let! cursor := lift (skip_space after object_end) in
              let! colon := lift (at_char cursor object_end 58) in
              if negb colon then ret (-1, None)
              else
                let! member := lift (parse_value (cursor + 1) object_end) in
                match member with
                | None => ret (-1, None)
                | Some (member, after) =>
                    let! matches := json_string_matches key name in
                    if (matches : bool) then ret (1, Some member)
                    else
                      let! cursor := lift (skip_space after object_end) in
                      let! comma := lift (at_char cursor object_end 44) in
                      if (comma : bool) then member_loop fuel (cursor + 1) object_end name
                      else if cursor =? object_end then ret (0, None)
                      else ret (-1, None)
                end
        end
  end.

Definition get_retro_vault_json_member (object : retro_vault_json_value) (name : list Z)
    : ST mem (Z * option retro_vault_json_value) :=
  if negb (bool_decide (v_type object = retro_vault_json_object)) then ret (-1, None)
  else
    member_loop (S (Z.to_nat (v_end object - v_start object))) (v_start object + 1)
      (v_end object - 1) name.

(** *** Elements of an array *)

Definition init_retro_vault_json_array_iterator (array : retro_vault_json_value)
    : option retro_vault_json_iterator :=
  if negb (bool_decide (v_type array = retro_vault_json_array)) then None
  else Some (JsonIterator (v_start array + 1) (v_end array - 1) false).

(** 1 with a value, 0 at the end, or -1; and the iterator. *)
Definition next_retro_vault_json_array_value (iterator : retro_vault_json_iterator)
    : option (Z * option retro_vault_json_value * retro_vault_json_iterator) :=
  if it_finished iterator then Some (0, None, iterator)
  else
    let end_ := it_end iterator in
    let? cursor := skip_space (it_cursor iterator) end_ in
    if end_ <=? cursor then Some (0, None, JsonIterator cursor end_ true)
    else
      let? parsed := parse_value cursor end_ in
      match parsed with
      | None => Some (-1, None, JsonIterator cursor end_ false)
      | Some (value, after) =>
          let? cursor := skip_space after end_ in
          if cursor <? end_ then
            let? c := rd doc cursor in
            if negb (c =? 44) then Some (-1, Some value, JsonIterator cursor end_ false)
            else Some (1, Some value, JsonIterator (cursor + 1) end_ false)
          else Some (1, Some value, JsonIterator cursor end_ true)
      end.

(** *** Numbers *)

(** [get_retro_vault_json_uint64]: [Some None] is -1. *)
Definition get_retro_vault_json_uint64 (value : retro_vault_json_value) : option (option Z) :=
  if negb (bool_decide (v_type value = retro_vault_json_number)) then Some None
  else
    let length := v_end value - v_start value in
    if (length =? 0) || (32 <=? length) then Some None
    else
      let? first := rd doc (v_start value) in
      if first =? 45 then Some None
      else
        let? digits := rd_bytes doc (v_start value) length in
        let? text := wr_bytes (uninit 32) 0 (digits ++ [0]) in
        let? s := cstring text in
        let '(parsed, tail, range) := strtoul s in
        (* the end pointer is behind the characters strtoull used *)
        if (range : bool) || negb (zlen s - zlen tail =? length) then Some None
        else Some (Some parsed).
End json.

(** [data] NULL is [None]. *)
Definition parse_retro_vault_json (data : option (list Z)) (size : Z)
    : option (option retro_vault_json_value) :=
  match data with
  | None => Some None
  | Some doc => parse_document doc size
  end.
