(* ===== verification/JsonGrammar.v ===== *)
(** The language of the JSON reader: trees and their renderings, and the
    theorem that the parser accepts exactly the renderings of trees of at most
    33 levels. *)
From stdpp Require Import base numbers list option strings.
From Stdlib Require Import ZArith Lia.
From S2P Require Import Prelude CLib Heap Json.

Local Open Scope Z_scope.
Local Open Scope squid_scope.

(** ** Trees *)

#[local] Set Warnings "-register-all".

(** Numbers and strings are kept as written; a string without its quotes. *)
Inductive json :=
| JNull
| JBool (b : bool)
| JNumber (raw : list Z)
| JString (raw : list Z)
| JArray (items : list json)
| JObject (members : list (list Z * json)).

Definition kind (t : json) : retro_vault_json_type :=
  match t with
  | JNull => retro_vault_json_null
  | JBool _ => retro_vault_json_boolean
  | JNumber _ => retro_vault_json_number
  | JString _ => retro_vault_json_string
  | JArray _ => retro_vault_json_array
  | JObject _ => retro_vault_json_object
  end.

Fixpoint levels (t : json) : nat :=
  match t with
  | JArray items => S (foldr (fun v n => Nat.max (levels v) n) O items)
  | JObject members => S (foldr (fun m n => Nat.max (levels m.2) n) O members)
  | _ => 1
  end.

(** ** Renderings *)

Definition ws (w : list Z) : Prop := Forall (fun c => isspace c = true) w.
Definition quoted (raw : list Z) : list Z := 34 :: raw ++ [34].

(** What may stand between the quotes of a string: characters from 0x20 on
    other than quote and backslash, and escapes.  The escape set includes NUL,
    as [strchr] finds it. *)
Inductive raw_ok : list Z -> Prop :=
| raw_nil : raw_ok []
| raw_plain c s : 32 <= c -> c <> 34 -> c <> 92 -> raw_ok s -> raw_ok (c :: s)
| raw_escape c s : in_set escape_set c = true -> raw_ok s -> raw_ok (92 :: c :: s)
| raw_unicode a b c d s : forallb isxdigit [a; b; c; d] = true -> raw_ok s ->
    raw_ok (92 :: 117 :: a :: b :: c :: d :: s).

Definition number_ok (raw : list Z) : Prop :=
  exists c n, raw = c :: n /\ ((c =? 45) || isdigit c) = true /\
    Forall (fun c => in_set number_set c = true) n.

(** [renders t s]: [s] is a text of [t], with white space where it is
    allowed. *)
Inductive renders : json -> list Z -> Prop :=
| render_null : renders JNull (text "null")
| render_true : renders (JBool true) (text "true")
| render_false : renders (JBool false) (text "false")
| render_number raw : number_ok raw -> renders (JNumber raw) raw
| render_string raw : raw_ok raw -> renders (JString raw) (quoted raw)
| render_empty_array w : ws w -> renders (JArray []) (91 :: w ++ [93])
| render_array v vs s : items (v :: vs) s -> renders (JArray (v :: vs)) (91 :: s ++ [93])
| render_empty_object w : ws w -> renders (JObject []) (123 :: w ++ [125])
| render_object m ms s : members (m :: ms) s -> renders (JObject (m :: ms)) (123 :: s ++ [125])
with items : list json -> list Z -> Prop :=
| items_last v w s w' : ws w -> renders v s -> ws w' -> items [v] (w ++ s ++ w')
| items_more v vs w s w' rest : ws w -> renders v s -> ws w' -> items vs rest ->
    items (v :: vs) (w ++ s ++ w' ++ 44 :: rest)
with members : list (list Z * json) -> list Z -> Prop :=
| members_last k v s : member k v s -> members [(k, v)] s
| members_more k v ms s rest : member k v s -> members ms rest ->
    members ((k, v) :: ms) (s ++ 44 :: rest)
with member : list Z -> json -> list Z -> Prop :=
| member_intro k v w0 w1 w2 s w3 : ws w0 -> raw_ok k -> ws w1 -> ws w2 -> renders v s -> ws w3 ->
    member k v (w0 ++ quoted k ++ w1 ++ 58 :: w2 ++ s ++ w3).

(** ** Texts in a document *)

Section doc.
Variable doc : list Z.
Hypothesis doc_ok : bytes_ok doc.

(** Between [p] and [e] the document reads [s]. *)
Definition at_ (p e : Z) (s : list Z) : Prop :=
  0 <= p /\ e <= zlen doc /\ e = p + zlen s /\ take (length s) (drop (Z.to_nat p) doc) = s.

Lemma at_cons p e c s : at_ p e (c :: s) -> rd doc p = Some c /\ at_ (p + 1) e s /\ p < e /\ is_byte c.
Proof.
  intros (Hp & He & Hl & Ht). rewrite zlen_cons in Hl. pose proof (zlen_nonneg s).
  destruct (drop (Z.to_nat p) doc) as [|x l] eqn:E; [by cbn in Ht|].
  cbn [length take] in Ht. injection Ht as -> Hs.
  assert (Hx : doc !! Z.to_nat p = Some c).
  { replace (Z.to_nat p) with (Z.to_nat p + 0)%nat by lia. rewrite <- lookup_drop, E. done. }
  assert (Hc : is_byte c) by (by eapply (Forall_lookup_1 _ _ _ _ doc_ok)).
  split_and!; [apply rd_Some; [lia|done|destruct Hc; lia]| |lia|done]. split_and!; try lia.
  replace (Z.to_nat (p + 1)) with (Z.to_nat p + 1)%nat by lia.
  rewrite <- drop_drop, E. done.
Qed.
Lemma at_nil p e : at_ p e [] -> p = e.
Proof. intros (_ & _ & Hl & _). rewrite zlen_nil in Hl. lia. Qed.
Lemma at_app p e a b : at_ p e (a ++ b) -> at_ p (p + zlen a) a /\ at_ (p + zlen a) e b.
Proof.
  intros (Hp & He & Hl & Ht). rewrite zlen_app in Hl. pose proof (zlen_nonneg a). pose proof (zlen_nonneg b).
  rewrite length_app in Ht.
  assert (Ha : take (length a) (drop (Z.to_nat p) doc) = a).
  { rewrite <- (take_app_length a b) at 2. rewrite <- Ht, take_take. f_equal. lia. }
  split; split_and!; try lia; [done|].
  replace (Z.to_nat (p + zlen a)) with (Z.to_nat p + length a)%nat by (unfold zlen; lia).
  rewrite <- drop_drop. rewrite <- (drop_app_length a b) at 2. by rewrite <- Ht, take_drop_commute.
Qed.
(** Every range inside the document reads something. *)
Lemma at_exists p e : 0 <= p -> p <= e -> e <= zlen doc -> exists s, at_ p e s.
Proof.
  intros Hp Hpe He. exists (take (Z.to_nat (e - p)) (drop (Z.to_nat p) doc)).
  assert (Hl : length (take (Z.to_nat (e - p)) (drop (Z.to_nat p) doc)) = Z.to_nat (e - p)).
  { rewrite length_take, length_drop. unfold zlen in *. lia. }
  split_and!; try lia.
  - unfold zlen. rewrite Hl. lia.
  - by rewrite Hl.
Qed.
Lemma at_len p e s : at_ p e s -> e - p = zlen s.
Proof. intros (_ & _ & -> & _). lia. Qed.

(** ** The scanners *)

Definition no_space (s : list Z) : Prop := match s with c :: _ => isspace c = false | [] => True end.

Lemma skip_loop_spec w s p e fuel :
  ws w -> no_space s -> at_ p e (w ++ s) -> (length (w ++ s) <= fuel)%nat ->
  skip_loop doc fuel p e = Some (p + zlen w).
Proof.
  intros Hw. revert p fuel. induction Hw as [|c w Hc Hw IH]; intros p fuel Hs Ha Hf; cbn [app] in *.
  - rewrite zlen_nil, Z.add_0_r. destruct fuel as [|fuel]; [done|]. cbn [skip_loop].
    destruct s as [|c s].
    + apply at_nil in Ha as ->. by rewrite Z.ltb_irrefl.
    + apply at_cons in Ha as (-> & _ & Hlt & _). destruct (Z.ltb_spec p e); [|lia]. by rewrite Hs.
  - destruct fuel as [|fuel]; [cbn in Hf; lia|]. cbn [skip_loop].
    apply at_cons in Ha as (-> & Ha & Hlt & _). destruct (Z.ltb_spec p e); [|lia]. rewrite Hc.
    rewrite IH by (done || cbn in Hf; lia). rewrite zlen_cons. f_equal. lia.
Qed.

Lemma skip_space_spec w s p e :
  ws w -> no_space s -> at_ p e (w ++ s) -> skip_space doc p e = Some (p + zlen w).
Proof.
  intros Hw Hs Ha. unfold skip_space. rewrite (at_len _ _ _ Ha).
  apply (skip_loop_spec w s); [done|done|done|unfold zlen; lia].
Qed.

(** White space in front can be split off. *)
Lemma split_space s : exists w s', s = w ++ s' /\ ws w /\ no_space s'.
Proof.
  induction s as [|c s (w & s' & -> & Hw & Hs)]; [by exists [], []; split_and!; try constructor|].
  destruct (isspace c) eqn:E.
  - exists (c :: w), s'. split_and!; [done|by constructor|done].
  - exists [], (c :: w ++ s'). split_and!; [done|constructor|done].
Qed.

Lemma at_char_cons p e c s ch : at_ p e (c :: s) -> at_char doc p e ch = Some (c =? ch).
Proof.
  intros Ha. apply at_cons in Ha as (Hr & _ & Hlt & _). unfold at_char.
  destruct (Z.ltb_spec p e); [|lia]. by rewrite Hr.
Qed.
Lemma at_char_nil p e ch : at_ p e [] -> at_char doc p e ch = Some false.
Proof. intros Ha. apply at_nil in Ha as ->. unfold at_char. by rewrite Z.ltb_irrefl. Qed.

Lemma at_rd_bytes p e a b : at_ p e (a ++ b) -> rd_bytes doc p (zlen a) = Some a.
Proof.
  intros Ha. apply at_app in Ha as [(Hp & He & _ & Ht) Hb].
  pose proof (zlen_nonneg a). pose proof (zlen_nonneg b).
  destruct Hb as (_ & He2 & Hl2 & _). rewrite rd_bytes_ok by (done || lia). f_equal.
  unfold zlen. rewrite Nat2Z.id. done.
Qed.

(** Strings. *)
Lemma string_loop_complete raw : raw_ok raw -> forall rest p e fuel,
  at_ p e (raw ++ 34 :: rest) -> (length raw < fuel)%nat ->
  string_loop doc fuel p e = Some (Some (p + zlen raw + 1)).
Proof.
  induction 1 as [|c s Hc H34 H92 Hs IH|c s Hc Hs IH|a b c d s Hx Hs IH]; intros rest p e fuel Ha Hf;
    (destruct fuel as [|fuel]; [cbn in Hf; lia|]); cbn [string_loop]; cbn [app length] in Ha, Hf;
    apply at_cons in Ha as (-> & Ha & Hlt & _); (destruct (Z.ltb_spec p e); [|lia]).
  - rewrite zlen_nil. cbn. do 2 f_equal. lia.
  - destruct (Z.eqb_spec c 34), (Z.eqb_spec c 92), (Z.ltb_spec c 32); try lia.
    rewrite (IH rest) by (done || lia). rewrite zlen_cons. do 2 f_equal. lia.
  - cbn. apply at_cons in Ha as (-> & Ha & Hlt2 & _). destruct (Z.leb_spec e (p + 1)); [lia|]. rewrite Hc.
    rewrite (IH rest) by (done || lia). rewrite !zlen_cons. do 2 f_equal. lia.
  - cbn. apply at_cons in Ha as (-> & Ha & Hlt2 & _). destruct (Z.leb_spec e (p + 1)); [lia|].
    change (in_set escape_set 117) with false. cbn. pose proof (at_len _ _ _ Ha) as Hl.
    rewrite !zlen_cons in Hl. pose proof (zlen_nonneg (s ++ 34 :: rest)).
    destruct (Z.ltb_spec (e - (p + 1 + 1)) 4); [lia|].
    change (a :: b :: c :: d :: s ++ 34 :: rest) with ([a; b; c; d] ++ s ++ 34 :: rest) in Ha.
    unfold four_xdigits. change 4 with (zlen [a; b; c; d]) at 1. rewrite (at_rd_bytes _ _ _ _ Ha), Hx.
    cbn [negb]. apply at_app in Ha as [_ Ha].
    rewrite (IH rest) by (done || lia). rewrite !zlen_cons. do 2 f_equal. lia.
Qed.

Lemma string_loop_sound fuel : forall s p e, at_ p e s ->
  exists r, string_loop doc fuel p e = Some r /\
  forall q, r = Some q -> exists raw rest, s = raw ++ 34 :: rest /\ raw_ok raw /\ q = p + zlen raw + 1.
Proof.
  induction fuel as [|fuel IH]; intros s p e Ha; [by exists None|]. cbn [string_loop].
  destruct s as [|x s].
  { apply at_nil in Ha as ->. rewrite Z.ltb_irrefl. by exists None. }
  apply at_cons in Ha as (-> & Ha & Hlt & _). destruct (Z.ltb_spec p e); [|lia].
  destruct (Z.eqb_spec x 34) as [->|H34].
  { eexists. split; [done|]. intros q [= <-]. exists [], s. split_and!; [done|constructor|rewrite zlen_nil; lia]. }
  destruct (Z.ltb_spec x 32); [by exists None|].
  assert (Hgo : forall pre s' , s = pre ++ s' -> (forall raw, raw_ok raw -> raw_ok ((x :: pre) ++ raw)) ->
    exists r, string_loop doc fuel (p + 1 + zlen pre) e = Some r /\
      forall q, r = Some q -> exists raw rest, x :: s = raw ++ 34 :: rest /\ raw_ok raw /\
        q = p + zlen raw + 1).
  { intros pre s' -> Hpre. apply at_app in Ha as [_ Ha]. destruct (IH _ _ _ Ha) as (r & -> & Hr).
    eexists. split; [done|]. intros q Hq. destruct (Hr q Hq) as (raw & rest & -> & Hok & ->).
    exists ((x :: pre) ++ raw), rest. split_and!; [by rewrite <- app_assoc|by apply Hpre|].
    rewrite zlen_app, zlen_cons. lia. }
  destruct (Z.eqb_spec x 92) as [->|H92].
  2: { destruct (Hgo [] s) as (r & E & Hr); [done|intros; by constructor|].
       rewrite zlen_nil, Z.add_0_r in E. eauto. }
  destruct s as [|c s].
  { apply at_nil in Ha as <-. rewrite Z.leb_refl. by exists None. }
  pose proof Ha as Ha'. apply at_cons in Ha' as (Hrd & Ha' & Hlt' & _). rewrite Hrd.
  destruct (Z.leb_spec e (p + 1)); [lia|].
  destruct (in_set escape_set c) eqn:Hc.
  { destruct (Hgo [c] s) as (r & E & Hr); [done|intros; by constructor|]. eauto. }
  destruct (Z.eqb_spec c 117) as [->|]; [|by exists None].
  destruct (Z.ltb_spec (e - (p + 1 + 1)) 4); [by exists None|].
  pose proof (at_len _ _ _ Ha') as Hl. destruct s as [|x1 [|x2 [|x3 [|x4 s]]]];
    try (unfold zlen in Hl; cbn in Hl; lia).
  change (x1 :: x2 :: x3 :: x4 :: s) with ([x1; x2; x3; x4] ++ s) in Ha'.
  unfold four_xdigits. pose proof (at_rd_bytes _ _ _ _ Ha') as Hb.
  change (zlen [x1; x2; x3; x4]) with 4 in Hb. rewrite Hb.
  destruct (forallb isxdigit [x1; x2; x3; x4]) eqn:Hx; cbn [negb]; [|by exists None].
  destruct (Hgo [117; x1; x2; x3; x4] s) as (r & E & Hr); [done|intros; by constructor|].
  exists r. split; [|done]. rewrite <- E. f_equal. rewrite !zlen_cons, zlen_nil. lia.
Qed.

Lemma parse_string_end_complete raw rest p e :
  raw_ok raw -> at_ p e (quoted raw ++ rest) ->
  parse_string_end doc p e = Some (Some (p + zlen (quoted raw))).
Proof.
  intros Hok Ha. unfold parse_string_end. pose proof (at_len _ _ _ Ha) as Hl. unfold quoted in *.
  cbn [app] in Ha. rewrite (at_char_cons _ _ _ _ _ Ha). cbn [Z.eqb negb].
  apply at_cons in Ha as (_ & Ha & _ & _). rewrite <- app_assoc in Ha.
  rewrite (string_loop_complete raw Hok rest) by (first [exact Ha | unfold zlen in Hl; cbn in Hl; rewrite ?length_app in Hl; cbn in Hl; lia]).
  rewrite zlen_cons, zlen_app, zlen_cons, zlen_nil. do 2 f_equal. lia.
Qed.

Lemma parse_string_end_sound s p e :
  at_ p e s ->
  exists r, parse_string_end doc p e = Some r /\
  forall q, r = Some q -> exists raw rest, s = quoted raw ++ rest /\ raw_ok raw /\ q = p + zlen (quoted raw).
Proof.
  intros Ha. unfold parse_string_end. destruct s as [|c s].
  { rewrite (at_char_nil _ _ _ Ha). by exists None. }
  rewrite (at_char_cons _ _ _ _ _ Ha). destruct (Z.eqb_spec c 34) as [->|]; [|by exists None].
  cbn [negb]. apply at_cons in Ha as (_ & Ha & _ & _).
  destruct (string_loop_sound (Z.to_nat (e - p)) _ _ _ Ha) as (r & -> & Hr). eexists. split; [done|].
  intros q Hq. destruct (Hr q Hq) as (raw & rest & -> & Hok & ->). exists raw, rest. unfold quoted.
  split_and!; [by cbn; rewrite <- app_assoc|done|]. rewrite zlen_cons, zlen_app, zlen_cons, zlen_nil. lia.
Qed.

(** Numbers and words. *)
Definition no_number (s : list Z) : Prop :=
  match s with c :: _ => in_set number_set c = false | [] => True end.

Lemma number_loop_spec n s p e fuel :
  Forall (fun c => in_set number_set c = true) n -> no_number s -> at_ p e (n ++ s) ->
  (length (n ++ s) <= fuel)%nat -> number_loop doc fuel p e = Some (p + zlen n).
Proof.
  intros Hn. revert p fuel. induction Hn as [|c n Hc Hn IH]; intros p fuel Hs Ha Hf; cbn [app] in *.
  - rewrite zlen_nil, Z.add_0_r. destruct fuel as [|fuel]; [done|]. cbn [number_loop].
    destruct s as [|c s].
    + apply at_nil in Ha as ->. by rewrite Z.ltb_irrefl.
    + apply at_cons in Ha as (-> & _ & Hlt & _). destruct (Z.ltb_spec p e); [|lia]. by rewrite Hs.
  - destruct fuel as [|fuel]; [cbn in Hf; lia|]. cbn [number_loop].
    apply at_cons in Ha as (-> & Ha & Hlt & _). destruct (Z.ltb_spec p e); [|lia]. rewrite Hc.
    rewrite IH by (done || cbn in Hf; lia). rewrite zlen_cons. f_equal. lia.
Qed.
Lemma split_number s : exists n s', s = n ++ s' /\
  Forall (fun c => in_set number_set c = true) n /\ no_number s'.
Proof.
  induction s as [|c s (n & s' & -> & Hn & Hs)]; [by exists [], []; split_and!; try constructor|].
  destruct (in_set number_set c) eqn:E.
  - exists (c :: n), s'. split_and!; [done|by constructor|done].
  - exists [], (c :: n ++ s'). split_and!; [done|constructor|done].
Qed.

Lemma word_at_spec s p e word : at_ p e s ->
  word_at doc p e word = Some (bool_decide (word `prefix_of` s)).
Proof.
  intros Ha. unfold word_at. rewrite (at_len _ _ _ Ha). destruct (Z.leb_spec (zlen word) (zlen s)).
  - rewrite <- (take_drop (length word) s) in Ha. pose proof (at_rd_bytes _ _ _ _ Ha) as Hb.
    unfold zlen in Hb at 1. rewrite length_take, Nat.min_l in Hb by (unfold zlen in *; lia).
    unfold zlen. rewrite Hb. f_equal. unfold eq_text. apply bool_decide_ext. split.
    + intros E. exists (drop (length word) s). rewrite <- E at 1. by rewrite take_drop.
    + intros [k ->]. by rewrite take_app_length.
  - rewrite bool_decide_false; [done|]. intros [k ->]. rewrite zlen_app in *. pose proof (zlen_nonneg k). lia.
Qed.

(** ** Values *)

(** A number ends where no character of a number follows. *)
Definition stops (t : json) (rest : list Z) : Prop :=
  match t with JNumber _ => no_number rest | _ => True end.

(** The first character of a rendering tells its kind. *)
Lemma renders_head t s : renders t s -> exists c s', s = c :: s' /\ isspace c = false /\
  match t with
  | JNull => c = 110 | JBool true => c = 116 | JBool false => c = 102
  | JNumber _ => ((c =? 45) || isdigit c) = true
  | JString _ => c = 34 | JArray _ => c = 91 | JObject _ => c = 123
  end.
Proof.
  destruct 1 as [| | |raw (c & n & -> & Hc & Hn)| | | | |]; try (by eexists _, _).
  exists c, n. split_and!; [done| |done]. unfold isdigit, isspace in *.
  destruct (Z.eqb_spec c 45) as [->|]; [done|]. cbn in Hc.
  destruct (Z.eqb_spec c 32), (Z.leb_spec 9 c), (Z.leb_spec c 13), (Z.leb_spec 48 c); cbn in *; lia || done.
Qed.
Lemma renders_no_space t s rest : renders t s -> no_space (s ++ rest).
Proof. intros Hr. by destruct (renders_head t s Hr) as (c & s' & -> & Hc & _). Qed.

(** Spaces can be taken from the front of a text that starts with spaces. *)
Lemma ws_prefix w0 s0 w t : ws w0 -> ws w -> no_space t -> w ++ t = w0 ++ s0 ->
  exists w1, ws w1 /\ s0 = w1 ++ t.
Proof.
  intros Hw0. revert w. induction Hw0 as [|c w0 Hc Hw0 IH]; intros w Hw Ht E.
  - exists w. by split.
  - destruct Hw as [|c' w Hc' Hw]; cbn in E.
    + subst t. cbn in Ht. congruence.
    + injection E as -> E. by apply (IH w).
Qed.

Lemma space_no_number w c rest : ws w -> in_set number_set c = false -> no_number (w ++ c :: rest).
Proof.
  intros Hw Hc. destruct Hw as [|d w Hd Hw]; [done|]. cbn. unfold isspace in Hd.
  assert (Hcases : d = 32 \/ d = 9 \/ d = 10 \/ d = 11 \/ d = 12 \/ d = 13) by lia.
  by destruct Hcases as [->|[->|[->|[->|[->| ->]]]]].
Qed.
Lemma stops_next t w c rest : ws w -> in_set number_set c = false -> stops t (w ++ c :: rest).
Proof. intros Hw Hc. destruct t; try done. by apply space_no_number. Qed.

Lemma at_next p e a b : at_ p e (a ++ b) -> at_ (p + zlen a) e b.
Proof. intros Ha. by apply at_app in Ha as [_ ?]. Qed.
Lemma skip_value t w s rest p e : ws w -> renders t s -> at_ p e (w ++ s ++ rest) ->
  skip_space doc p e = Some (p + zlen w).
Proof. intros Hw Hr Ha. eapply skip_space_spec; [done| |done]. by eapply renders_no_space. Qed.
Lemma skip_to w c rest p e : ws w -> isspace c = false -> at_ p e (w ++ c :: rest) ->
  skip_space doc p e = Some (p + zlen w).
Proof. intros Hw Hc Ha. by apply (skip_space_spec w (c :: rest)). Qed.

Scheme renders_ind2 := Induction for renders Sort Prop
  with items_ind2 := Induction for items Sort Prop
  with members_ind2 := Induction for members Sort Prop
  with member_ind2 := Induction for member Sort Prop.
Combined Scheme rendering_ind from renders_ind2, items_ind2, members_ind2, member_ind2.

(** *** Every rendering is accepted *)

(** The same value at an equal offset. *)
Ltac same_value :=
  match goal with
  | |- context [JsonValue _ ?a _] =>
      match goal with
      | |- _ = Some (Some (JsonValue _ ?b _, _)) =>
          replace a with b by (rewrite ?zlen_cons, ?zlen_app, ?zlen_cons, ?zlen_app, ?zlen_nil; lia)
      | |- _ = Some (JsonValue _ ?b _, _) =>
          replace a with b by (rewrite ?zlen_cons, ?zlen_app, ?zlen_cons, ?zlen_app, ?zlen_nil; lia)
      end
  end.

Lemma parse_scalar t s levels p e w rest :
  renders t s -> ws w -> stops t rest -> at_ p e (w ++ s ++ rest) ->
  match t with JArray _ | JObject _ => False | _ => True end ->
  parse_value_internal doc (S levels) p e =
    Some (Some (JsonValue (p + zlen w) (p + zlen w + zlen s) (kind t), p + zlen w + zlen s)).
Proof.
  intros Hr Hw Hst Ha Hsc. cbn [parse_value_internal]. rewrite (skip_value t w s rest) by done.
  apply at_next in Ha as Ha1. destruct (renders_head t s Hr) as (c & s' & E & Hsp & Hc).
  pose proof Ha1 as Ha2. rewrite E in Ha2. cbn [app] in Ha2.
  apply at_cons in Ha2 as (Hrd & _ & Hlt & _). destruct (Z.leb_spec e (p + zlen w)); [lia|]. rewrite Hrd.
  rewrite !(word_at_spec (s ++ rest)) by done.
  destruct Hr as [| | |raw (c0 & n & -> & Hc0 & Hn)|raw Hok| | | |]; try done.
  - injection E as <- <-. cbn [kind Z.eqb Pos.eqb]. rewrite !bool_decide_false by (intros [k [=]]).
    rewrite bool_decide_true by (by exists rest). done.
  - injection E as <- <-. cbn [kind Z.eqb Pos.eqb]. rewrite bool_decide_true by (by exists rest). done.
  - injection E as <- <-. cbn [kind Z.eqb Pos.eqb]. rewrite bool_decide_false by (intros [k [=]]).
    rewrite bool_decide_true by (by exists rest). done.
  - injection E as <- <-. rename c0 into c. clear Hc0.
    assert (Hne : c <> 34 /\ c <> 123 /\ c <> 91 /\ c <> 116 /\ c <> 102 /\ c <> 110).
    { unfold isdigit in Hc. lia. }
    destruct (Z.eqb_spec c 34), (Z.eqb_spec c 123), (Z.eqb_spec c 91); try lia.
    rewrite !bool_decide_false by (intros [k [=]]; lia). rewrite Hc.
    cbn [app] in Ha1. pose proof (at_len _ _ _ Ha1) as Hl. apply at_cons in Ha1 as (_ & Ha1 & _ & _).
    rewrite (number_loop_spec n rest) by (done || (rewrite Hl, zlen_cons; unfold zlen; lia)).
    rewrite zlen_cons. cbn [kind]. by same_value.
  - rewrite (parse_string_end_complete raw rest) by done. injection E as <- <-. done.
Qed.

Lemma quoted_head k : exists s', quoted k = 34 :: s'.
Proof. by eexists. Qed.

Definition shallow (n : nat) (vs : list json) : Prop := Forall (fun v => (levels v <= n)%nat) vs.
Lemma shallow_foldr n vs : (foldr (fun v m => Nat.max (levels v) m) O vs <= n)%nat -> shallow n vs.
Proof. induction vs as [|v vs IH]; cbn; [constructor|]. intros H. constructor; [lia|apply IH; lia]. Qed.
Lemma shallow_foldr_members n (ms : list (list Z * json)) :
  (foldr (fun m k => Nat.max (levels m.2) k) O ms <= n)%nat -> shallow n (map snd ms).
Proof. induction ms as [|v ms IH]; cbn; [constructor|]. intros H. constructor; [lia|apply IH; lia]. Qed.

Lemma after_child_comma rest p e close : at_ p e (44 :: rest) -> after_child doc p e close = Some (Some true).
Proof. intros Ha. unfold after_child. by rewrite (at_char_cons _ _ _ _ _ Ha). Qed.
Lemma after_child_close rest p e close : close <> 44 -> at_ p e (close :: rest) ->
  after_child doc p e close = Some (Some false).
Proof.
  intros Hc Ha. unfold after_child. rewrite !(at_char_cons _ _ _ _ _ Ha), Z.eqb_refl.
  by destruct (Z.eqb_spec close 44).
Qed.

Definition accepted_value (t : json) (s : list Z) : Prop :=
  forall lv p e w rest, (levels t <= lv)%nat -> ws w -> stops t rest -> at_ p e (w ++ s ++ rest) ->
  parse_value_internal doc lv p e =
    Some (Some (JsonValue (p + zlen w) (p + zlen w + zlen s) (kind t), p + zlen w + zlen s)).
Definition accepted_items (vs : list json) (s : list Z) : Prop :=
  forall lv fuel p e w s0 rest, s = w ++ s0 -> ws w -> shallow lv vs -> at_ p e (s0 ++ 93 :: rest) ->
  (length s0 < fuel)%nat ->
  array_loop doc (parse_value_internal doc lv) fuel p e = Some (Some (p + zlen s0 + 1)).
Definition accepted_members (ms : list (list Z * json)) (s : list Z) : Prop :=
  forall lv fuel p e w s0 rest, s = w ++ s0 -> ws w -> shallow lv (map snd ms) ->
  at_ p e (s0 ++ 125 :: rest) -> (length s0 < fuel)%nat ->
  object_loop doc (parse_value_internal doc lv) fuel p e = Some (Some (p + zlen s0 + 1)).
(** One turn of the loop of an object, up to the separator. *)
Definition accepted_member (v : json) (s : list Z) : Prop :=
  forall lv fuel p e w s0 c rest, s = w ++ s0 -> ws w -> (levels v <= lv)%nat ->
  c = 44 \/ c = 125 -> at_ p e (s0 ++ c :: rest) ->
  object_loop doc (parse_value_internal doc lv) (S fuel) p e =
    let?? more := after_child doc (p + zlen s0) e 125 in
    if (more : bool) then object_loop doc (parse_value_internal doc lv) fuel (p + zlen s0 + 1) e
    else Some (Some (p + zlen s0 + 1)).

Lemma accept_items_turn v w s w' c tail lv p e fuel rest w0 s0 :
  accepted_value v s -> renders v s -> ws w -> ws w' -> ws w0 -> w ++ s ++ w' ++ tail = w0 ++ s0 ->
  (levels v <= lv)%nat -> c = 44 \/ c = 93 -> (exists tail', tail ++ 93 :: rest = c :: tail') ->
  at_ p e (s0 ++ 93 :: rest) ->
  exists q, array_loop doc (parse_value_internal doc lv) (S fuel) p e =
    (let?? more := after_child doc q e 93 in
     if (more : bool) then array_loop doc (parse_value_internal doc lv) fuel (q + 1) e
     else Some (Some (q + 1))) /\
  at_ q e (tail ++ 93 :: rest) /\ q + zlen tail = p + zlen s0 /\ (length tail < length s0)%nat.
Proof.
  intros Hv Hr Hw Hw' Hw0 E Hlv Hc [tail' Htail] Ha.
  destruct (ws_prefix w0 s0 w (s ++ w' ++ tail) Hw0 Hw) as (w1 & Hw1 & ->); [by eapply renders_no_space|done|].
  rewrite <- !app_assoc, Htail in Ha.
  assert (Hnum : in_set number_set c = false) by (by destruct Hc as [->| ->]).
  assert (Hsp : isspace c = false) by (by destruct Hc as [->| ->]).
  exists (p + zlen w1 + zlen s + zlen w'). split_and!.
  - cbn [array_loop]. rewrite (Hv lv p e w1 (w' ++ c :: tail')) by (done || by apply stops_next).
    apply at_next, at_next in Ha. rewrite (skip_to w' c tail') by done. done.
  - rewrite Htail. by do 3 apply at_next in Ha.
  - rewrite !zlen_app. lia.
  - destruct (renders_head v s Hr) as (x & s' & -> & _). rewrite !length_app. cbn. lia.
Qed.

(** The bracket of an array or object, and the space behind it. *)
Lemma open_bracket c close w0 body rest w p e :
  isspace c = false -> ws w -> ws w0 -> no_space (body ++ close :: rest) ->
  at_ p e (w ++ (c :: (w0 ++ body) ++ [close]) ++ rest) ->
  skip_space doc p e = Some (p + zlen w) /\ rd doc (p + zlen w) = Some c /\ (e <=? p + zlen w) = false /\
  skip_space doc (p + zlen w + 1) e = Some (p + zlen w + 1 + zlen w0) /\
  at_ (p + zlen w + 1 + zlen w0) e (body ++ close :: rest).
Proof.
  intros Hc Hw Hw0 Hns Ha. split; [eapply (skip_to w c); [done|done|by cbn in Ha]|].
  apply at_next in Ha. cbn [app] in Ha. apply at_cons in Ha as (Hrd & Ha & Hlt & _).
  split; [done|]. split; [lia|]. rewrite <- !app_assoc in Ha. cbn [app] in Ha.
  split; [by apply (skip_space_spec w0 (body ++ close :: rest))|]. by apply at_next in Ha.
Qed.

Lemma items_no_space v vs s w s0 : items (v :: vs) s -> s = w ++ s0 -> ws w -> no_space s0 ->
  exists c s1, s0 = c :: s1 /\ c <> 93 /\ c <> 125.
Proof.
  intros Hi E Hw Hns.
  assert (Hv : exists wi sv rest, s = wi ++ sv ++ rest /\ ws wi /\ renders v sv).
  { inversion Hi; subst; eexists _, _, _; split_and!; try done. }
  destruct Hv as (wi & sv & rest & -> & Hwi & Hr). destruct (renders_head _ _ Hr) as (c & s' & -> & Hsp & Hc).
  destruct (ws_prefix w s0 wi ((c :: s') ++ rest) Hw Hwi) as (w1 & Hw1 & ->); [done|done|].
  exists c, (s' ++ rest). destruct Hw1 as [|x w1 Hx Hw1]; [|cbn in Hns; congruence].
  split; [done|]. destruct v as [|[]|raw|raw| |]; subst; try lia. unfold isdigit in Hc. lia.
Qed.
Lemma member_front k v s : member k v s -> exists w rest, s = w ++ quoted k ++ rest /\ ws w.
Proof. intros [k' v' w0 w1 w2 sv w3 Hw0 _ _ _ _ _]. by exists w0, (w1 ++ 58 :: w2 ++ sv ++ w3). Qed.
Lemma members_no_space m ms s w s0 : members (m :: ms) s -> s = w ++ s0 -> ws w -> no_space s0 ->
  exists c s1, s0 = c :: s1 /\ c <> 125.
Proof.
  intros Hi E Hw Hns.
  assert (Hv : exists wi k rest, s = wi ++ quoted k ++ rest /\ ws wi).
  { inversion Hi as [k v s' Hm|k v ms' s' rest Hm]; subst; apply member_front in Hm as (wi & r & E' & Hwi).
    - by exists wi, k, r.
    - exists wi, k, (r ++ 44 :: rest). split; [|done]. by rewrite E', <- !app_assoc. }
  destruct Hv as (wi & k & rest & -> & Hwi).
  destruct (ws_prefix w s0 wi (quoted k ++ rest) Hw Hwi) as (w1 & Hw1 & ->); [done|done|].
  destruct Hw1 as [|x w1 Hx Hw1]; [|cbn in Hns; congruence]. eexists _, _. split; [done|lia].
Qed.

(** The array case: the brackets around accepted items. *)
Lemma accept_array v vs s : items (v :: vs) s -> accepted_items (v :: vs) s ->
  accepted_value (JArray (v :: vs)) (91 :: s ++ [93]).
Proof.
  intros Hi Hacc lv p e w rest Hlv Hw _ Ha. destruct lv as [|lv]; [cbn in Hlv; lia|].
  destruct (split_space s) as (w0 & s0 & E & Hw0 & Hns).
  destruct (items_no_space v vs s w0 s0) as (c & s1 & Es & Hc & _); [done..|]. rewrite E in Ha.
  destruct (open_bracket 91 93 w0 s0 rest w p e) as (Hs1 & Hrd & Hle & Hs2 & Ha2); try done.
  { by rewrite Es in *. }
  cbn [parse_value_internal]. rewrite Hs1, Hle, Hrd. cbn [Z.eqb Pos.eqb]. rewrite Hs2.
  pose proof Ha2 as Ha3. rewrite Es in Ha3. cbn [app] in Ha3. rewrite (at_char_cons _ _ _ _ _ Ha3).
  destruct (Z.eqb_spec c 93); [done|].
  rewrite (Hacc lv _ _ _ w0 s0 rest); try done.
  - subst s. cbn [kind]. by same_value.
  - apply shallow_foldr. cbn in Hlv |- *. lia.
  - rewrite (at_len _ _ _ Ha2), zlen_app, zlen_cons. unfold zlen. lia.
Qed.
Lemma accept_object m ms s : members (m :: ms) s -> accepted_members (m :: ms) s ->
  accepted_value (JObject (m :: ms)) (123 :: s ++ [125]).
Proof.
  intros Hi Hacc lv p e w rest Hlv Hw _ Ha. destruct lv as [|lv]; [cbn in Hlv; lia|].
  destruct (split_space s) as (w0 & s0 & E & Hw0 & Hns).
  destruct (members_no_space m ms s w0 s0) as (c & s1 & Es & Hc); [done..|]. rewrite E in Ha.
  destruct (open_bracket 123 125 w0 s0 rest w p e) as (Hs1 & Hrd & Hle & Hs2 & Ha2); try done.
  { by rewrite Es in *. }
  cbn [parse_value_internal]. rewrite Hs1, Hle, Hrd. cbn [Z.eqb Pos.eqb]. rewrite Hs2.
  pose proof Ha2 as Ha3. rewrite Es in Ha3. cbn [app] in Ha3. rewrite (at_char_cons _ _ _ _ _ Ha3).
  destruct (Z.eqb_spec c 125); [done|].
  rewrite (Hacc lv _ _ _ w0 s0 rest); try done.
  - subst s. cbn [kind]. by same_value.
  - apply shallow_foldr_members. cbn in Hlv |- *. lia.
  - rewrite (at_len _ _ _ Ha2), zlen_app, zlen_cons. unfold zlen. lia.
Qed.
Lemma accept_empty t c close w0 : (t = JArray [] /\ c = 91 /\ close = 93) \/ (t = JObject [] /\ c = 123 /\ close = 125) ->
  ws w0 -> accepted_value t (c :: w0 ++ [close]).
Proof.
  intros Ht Hw0 lv p e w rest Hlv Hw _ Ha. destruct lv as [|lv]; [destruct t; cbn in Hlv; lia|].
  assert (Hc : isspace c = false /\ isspace close = false) by (by destruct Ht as [(_ & -> & ->)|(_ & -> & ->)]).
  destruct (open_bracket c close w0 [] rest w p e) as (Hs1 & Hrd & Hle & Hs2 & Ha2); try done; try apply Hc.
  { by rewrite app_nil_r. }
  cbn [parse_value_internal]. rewrite Hs1, Hle, Hrd.
  destruct Ht as [(-> & -> & ->)|(-> & -> & ->)]; cbn [Z.eqb Pos.eqb]; rewrite Hs2;
    cbn [app] in Ha2; rewrite (at_char_cons _ _ _ _ _ Ha2); cbn [Z.eqb Pos.eqb kind]; by same_value.
Qed.

Lemma accept_member k v w0 w1 w2 sv w3 :
  ws w0 -> raw_ok k -> ws w1 -> ws w2 -> renders v sv -> accepted_value v sv -> ws w3 ->
  accepted_member v (w0 ++ quoted k ++ w1 ++ 58 :: w2 ++ sv ++ w3).
Proof.
  intros Hw0 Hk Hw1 Hw2 Hr Hv Hw3 lv fuel p e w s0 c rest E Hw Hlv Hc Ha.
  destruct (ws_prefix w s0 w0 (quoted k ++ w1 ++ 58 :: w2 ++ sv ++ w3) Hw Hw0) as (w' & Hw' & ->); [done|done|].
  assert (Hnum : in_set number_set c = false) by (by destruct Hc as [->| ->]).
  assert (Hsp : isspace c = false) by (by destruct Hc as [->| ->]).
  rewrite <- !app_assoc in Ha. cbn [app] in Ha. rewrite <- !app_assoc in Ha.
  cbn [object_loop]. rewrite (skip_space_spec w' (quoted k ++ w1 ++ 58 :: w2 ++ sv ++ w3 ++ c :: rest)) by done.
  apply at_next in Ha. rewrite (parse_string_end_complete k _ _ _ Hk Ha). apply at_next in Ha.
  rewrite (skip_to w1 58 (w2 ++ sv ++ w3 ++ c :: rest)) by done. apply at_next in Ha.
  rewrite (at_char_cons _ _ _ _ _ Ha). cbn [Z.eqb Pos.eqb negb]. apply at_cons in Ha as (_ & Ha & _ & _).
  rewrite (Hv lv _ e w2 (w3 ++ c :: rest)) by (done || by apply stops_next).
  apply at_next, at_next in Ha. rewrite (skip_to w3 c rest) by done.
  match goal with |- context [after_child doc ?a e 125] =>
    replace a with (p + zlen (w' ++ quoted k ++ w1 ++ 58 :: w2 ++ sv ++ w3)) end; [done|].
  rewrite !zlen_app, zlen_cons, !zlen_app. lia.
Qed.

Lemma rendering_accepted :
  (forall t s, renders t s -> accepted_value t s) /\ (forall vs s, items vs s -> accepted_items vs s) /\
  (forall ms s, members ms s -> accepted_members ms s) /\
  (forall k v s, member k v s -> accepted_member v s).
Proof.
  apply (rendering_ind
    (fun t s _ => accepted_value t s) (fun vs s _ => accepted_items vs s)
    (fun ms s _ => accepted_members ms s) (fun k v s _ => accepted_member v s)).
  1-5: intros; intros lv p e w rest Hlv Hw Hst Ha; (destruct lv as [|lv]; [cbn in Hlv; lia|]);
    eapply parse_scalar; try done; by constructor.
  - intros w Hw. apply accept_empty; [by left|done].
  - intros v vs s Hi. by apply accept_array.
  - intros w Hw. apply accept_empty; [by right|done].
  - intros m ms s Hi. by apply accept_object.
  - intros v w s w' Hw Hr Hv Hw' lv fuel p e w0 s0 rest E Hw0 Hsh Ha Hf.
    destruct fuel as [|fuel]; [lia|]. apply Forall_cons_1 in Hsh as [Hlv _].
    destruct (accept_items_turn v w s w' 93 [] lv p e fuel rest w0 s0) as (q & -> & Ha' & Hq & _); try done.
    { by rewrite app_nil_r. } { by right. } { by eexists. }
    rewrite (after_child_close rest) by done. rewrite zlen_nil in Hq. do 2 f_equal. lia.
  - intros v vs w s w' rest0 Hw Hr Hv Hw' Hi Hacc lv fuel p e w0 s0 rest E Hw0 Hsh Ha Hf.
    destruct fuel as [|fuel]; [lia|]. apply Forall_cons_1 in Hsh as [Hlv Hsh].
    destruct (accept_items_turn v w s w' 44 (44 :: rest0) lv p e fuel rest w0 s0)
      as (q & -> & Ha' & Hq & Hlen); try done.
    { by left. } { by eexists. }
    cbn [app] in Ha'. rewrite (after_child_comma (rest0 ++ 93 :: rest)) by done.
    apply at_cons in Ha' as (_ & Ha' & _ & _). rewrite zlen_cons in Hq. cbn [length] in Hlen.
    rewrite (Hacc lv fuel _ _ [] rest0 rest); try done; [do 2 f_equal; lia|constructor|lia].
  - intros k v s Hm Hacc lv fuel p e w s0 rest E Hw Hsh Ha Hf. destruct fuel as [|fuel]; [lia|].
    apply Forall_cons_1 in Hsh as [Hlv _].
    rewrite (Hacc lv fuel p e w s0 125 rest) by (done || by right).
    by rewrite (after_child_close rest) by (done || by apply at_next in Ha).
  - intros k v ms s rest0 Hm Hacc Hms IH lv fuel p e w s0 rest E Hw Hsh Ha Hf.
    destruct fuel as [|fuel]; [lia|]. apply Forall_cons_1 in Hsh as [Hlv Hsh].
    assert (Hs : exists s1, s = w ++ s1 /\ s0 = s1 ++ 44 :: rest0).
    { destruct (member_front _ _ _ Hm) as (w0 & r & Es & Hw0). rewrite Es, <- !app_assoc in E.
      destruct (ws_prefix w s0 w0 (quoted k ++ r ++ 44 :: rest0) Hw Hw0) as (w' & Hw' & ->); [done|done|].
      exists (w' ++ quoted k ++ r). split; [|by rewrite <- !app_assoc].
      rewrite (app_assoc w) in E. apply app_inv_tail in E. by rewrite Es, E, <- app_assoc. }
    destruct Hs as (s1 & Es & ->). rewrite <- app_assoc in Ha. cbn [app] in Ha.
    rewrite (Hacc lv fuel p e w s1 44 (rest0 ++ 125 :: rest)) by (done || by left).
    apply at_next in Ha. rewrite (after_child_comma (rest0 ++ 125 :: rest)) by done.
    apply at_cons in Ha as (_ & Ha & _ & _). rewrite length_app in Hf. cbn [length] in Hf.
    rewrite (IH lv fuel _ _ [] rest0 rest); try done; [|constructor|lia].
    rewrite zlen_app, zlen_cons. do 2 f_equal. lia.
  - intros k v w0 w1 w2 sv w3 Hw0 Hk Hw1 Hw2 Hr Hv Hw3. by apply accept_member.
Qed.

(** *** Only renderings are accepted *)

(** At [p] the text [s] starts, after white space, with a rendering of a tree
    of at most [lv] levels, which is the value [v] and ends at [q]. *)
Definition read_as (lv : nat) (s : list Z) (p : Z) (v : retro_vault_json_value) (q : Z) : Prop :=
  exists w t txt rest, s = w ++ txt ++ rest /\ ws w /\ renders t txt /\ (levels t <= lv)%nat /\
    stops t rest /\ v = JsonValue (p + zlen w) (p + zlen w + zlen txt) (kind t) /\
    q = p + zlen w + zlen txt.

Definition sound_at (lv : nat) (parse : Z -> Z -> option (option (retro_vault_json_value * Z))) : Prop :=
  forall s p e, at_ p e s -> exists r, parse p e = Some r /\
    forall v q, r = Some (v, q) -> read_as lv s p v q.

Lemma after_child_sound s p e close : at_ p e s ->
  exists r, after_child doc p e close = Some r /\
    match r with
    | Some true => exists rest, s = 44 :: rest
    | Some false => exists rest, s = close :: rest
    | None => True
    end.
Proof.
  intros Ha. unfold after_child. destruct s as [|c s].
  - rewrite !(at_char_nil _ _ _ Ha). by exists None.
  - rewrite !(at_char_cons _ _ _ _ _ Ha). destruct (Z.eqb_spec c 44) as [->|]; [by exists (Some true); eauto|].
    destruct (Z.eqb_spec c close) as [->|]; [by exists (Some false); eauto|by exists None].
Qed.

Lemma skip_sound s p e : at_ p e s ->
  exists w s', s = w ++ s' /\ ws w /\ no_space s' /\ skip_space doc p e = Some (p + zlen w) /\
    at_ (p + zlen w) e s'.
Proof.
  intros Ha. destruct (split_space s) as (w & s' & -> & Hw & Hs). exists w, s'. split_and!; try done.
  - by apply (skip_space_spec w s').
  - by apply at_next in Ha.
Qed.

Lemma array_loop_sound lv parse : sound_at lv parse -> forall fuel s p e, at_ p e s ->
  exists r, array_loop doc parse fuel p e = Some r /\
  forall q, r = Some q -> exists v vs txt rest, s = txt ++ 93 :: rest /\ items (v :: vs) txt /\
    shallow lv (v :: vs) /\ q = p + zlen txt + 1.
Proof.
  intros Hp fuel. induction fuel as [|fuel IH]; intros s p e Ha; [by exists None|]. cbn [array_loop].
  destruct (Hp s p e Ha) as (r & -> & Hr). destruct r as [[v q]|]; [|by exists None].
  destruct (Hr v q eq_refl) as (w & t & txt & rest & -> & Hw & Hrn & Hlv & _ & -> & ->).
  do 2 apply at_next in Ha. destruct (skip_sound _ _ _ Ha) as (w' & s' & -> & Hw' & _ & -> & Ha').
  destruct (after_child_sound s' _ e 93 Ha') as (r & -> & Hr'). destruct r as [[|]|]; [| |by exists None].
  - destruct Hr' as [rest ->]. apply at_cons in Ha' as (_ & Ha' & _ & _).
    destruct (IH _ _ _ Ha') as (r & -> & Hq). eexists. split; [done|]. intros q' Hq'.
    destruct (Hq q' Hq') as (v1 & vs & txt1 & rest1 & -> & Hi & Hsh & ->).
    exists t, (v1 :: vs), (w ++ txt ++ w' ++ 44 :: txt1), rest1. split_and!.
    + by rewrite <- !app_assoc, <- app_comm_cons.
    + by apply items_more.
    + by constructor.
    + rewrite !zlen_app, zlen_cons. lia.
  - destruct Hr' as [rest ->]. eexists. split; [done|]. intros q' [= <-].
    exists t, [], (w ++ txt ++ w'), rest. split_and!.
    + by rewrite <- !app_assoc.
    + by apply items_last.
    + by repeat constructor.
    + rewrite !zlen_app. lia.
Qed.

Lemma object_loop_sound lv parse : sound_at lv parse -> forall fuel s p e, at_ p e s ->
  exists r, object_loop doc parse fuel p e = Some r /\
  forall q, r = Some q -> exists m ms txt rest, s = txt ++ 125 :: rest /\ members (m :: ms) txt /\
    shallow lv (map snd (m :: ms)) /\ q = p + zlen txt + 1.
Proof.
  intros Hp fuel. induction fuel as [|fuel IH]; intros s p e Ha; [by exists None|]. cbn [object_loop].
  destruct (skip_sound _ _ _ Ha) as (w0 & s0 & -> & Hw0 & _ & -> & Ha0). clear Ha.
  destruct (parse_string_end_sound _ _ _ Ha0) as (r & -> & Hr). destruct r as [ke|]; [|by exists None].
  destruct (Hr ke eq_refl) as (k & s1 & -> & Hk & ->). clear Hr. apply at_next in Ha0 as Ha1.
  destruct (skip_sound _ _ _ Ha1) as (w1 & s2 & -> & Hw1 & _ & -> & Ha2).
  destruct s2 as [|c s2]; [rewrite (at_char_nil _ _ _ Ha2); by exists None|].
  rewrite (at_char_cons _ _ _ _ _ Ha2). destruct (Z.eqb_spec c 58) as [->|]; [|by exists None]. cbn [negb].
  apply at_cons in Ha2 as (_ & Ha2 & _ & _).
  destruct (Hp _ _ _ Ha2) as (r & -> & Hr). destruct r as [[v q]|]; [|by exists None].
  destruct (Hr v q eq_refl) as (w2 & t & txt & rest & -> & Hw2 & Hrn & Hlv & _ & -> & ->).
  do 2 apply at_next in Ha2. destruct (skip_sound _ _ _ Ha2) as (w3 & s' & -> & Hw3 & _ & -> & Ha').
  set (mtxt := w0 ++ quoted k ++ w1 ++ 58 :: w2 ++ txt ++ w3).
  assert (Hm : member k t mtxt) by (by constructor).
  assert (Hpos : p + zlen w0 + zlen (quoted k) + zlen w1 + 1 + zlen w2 + zlen txt + zlen w3 = p + zlen mtxt).
  { unfold mtxt. rewrite !zlen_app, zlen_cons, !zlen_app. lia. }
  assert (Happ : forall x, w0 ++ quoted k ++ w1 ++ 58 :: w2 ++ txt ++ w3 ++ x = mtxt ++ x).
  { intros x. unfold mtxt. rewrite <- !app_assoc. cbn [app]. by rewrite <- !app_assoc. }
  rewrite Hpos, Happ in *. clearbody mtxt.
  destruct (after_child_sound s' _ e 125 Ha') as (r & -> & Hr'). destruct r as [[|]|]; [| |by exists None].
  - destruct Hr' as [rest ->]. apply at_cons in Ha' as (_ & Ha' & _ & _).
    destruct (IH _ _ _ Ha') as (r & -> & Hq). eexists. split; [done|]. intros q' Hq'.
    destruct (Hq q' Hq') as (m1 & ms & txt1 & rest1 & -> & Hi & Hsh & ->).
    exists (k, t), (m1 :: ms), (mtxt ++ 44 :: txt1), rest1. split_and!.
    + by rewrite <- !app_assoc.
    + by apply members_more.
    + by constructor.
    + rewrite !zlen_app, zlen_cons. lia.
  - destruct Hr' as [rest ->]. eexists. split; [done|]. intros q' [= <-].
    exists (k, t), [], mtxt, rest. split_and!; [done|by apply members_last|by repeat constructor|done].
Qed.

Lemma foldr_shallow n vs : shallow n vs -> (foldr (fun v m => Nat.max (levels v) m) O vs <= n)%nat.
Proof. induction 1; cbn; lia. Qed.
Lemma foldr_shallow_members n (ms : list (list Z * json)) : shallow n (map snd ms) ->
  (foldr (fun m k => Nat.max (levels m.2) k) O ms <= n)%nat.
Proof. induction ms as [|m ms IH]; cbn; [lia|]. intros H. apply Forall_cons_1 in H as [H1 H2]. specialize (IH H2). lia. Qed.

Lemma prefix_rest (word s : list Z) : word `prefix_of` s -> exists rest, s = word ++ rest.
Proof. intros [k ->]. by exists k. Qed.

Lemma read_as_intro lv w t txt rest p : ws w -> renders t txt -> (levels t <= lv)%nat -> stops t rest ->
  forall r, r = Some (JsonValue (p + zlen w) (p + zlen w + zlen txt) (kind t), p + zlen w + zlen txt) ->
  exists r', Some r = Some r' /\ forall v q, r' = Some (v, q) -> read_as lv (w ++ txt ++ rest) p v q.
Proof.
  intros Hw Hr Hl Hs r ->. eexists. split; [done|]. intros v q [= <- <-].
  exists w, t, txt, rest. by split_and!.
Qed.

(** White space in front of members or items belongs to the first. *)
Lemma ws_app w w' : ws w -> ws w' -> ws (w ++ w').
Proof. intros. by apply Forall_app. Qed.
Lemma members_space w ms s : ws w -> members ms s -> members ms (w ++ s).
Proof.
  intros Hw Hm. destruct Hm as [k v s Hm|k v ms s rest Hm Hms]; [apply members_last|rewrite app_assoc; apply members_more; [|done]];
    (destruct Hm as [k v w0 w1 w2 sv w3]; rewrite app_assoc; constructor; try done; by apply ws_app).
Qed.
Lemma items_space w vs s : ws w -> items vs s -> items vs (w ++ s).
Proof. intros Hw Hi. destruct Hi; rewrite app_assoc; constructor; try done; by apply ws_app. Qed.

Lemma parse_scalar_sound lv w c s p e :
  ws w -> at_ (p + zlen w) e (c :: s) -> c <> 34 -> c <> 123 -> c <> 91 ->
  exists r,
    (let done_at (type : retro_vault_json_type) (after : Z) :=
       Some (Some (JsonValue (p + zlen w) after type, after)) in
     let? t := word_at doc (p + zlen w) e (text "true") in
     if (t : bool) then done_at retro_vault_json_boolean (p + zlen w + 4)
     else
       let? f := word_at doc (p + zlen w) e (text "false") in
       if (f : bool) then done_at retro_vault_json_boolean (p + zlen w + 5)
       else
         let? n := word_at doc (p + zlen w) e (text "null") in
         if (n : bool) then done_at retro_vault_json_null (p + zlen w + 4)
         else if (c =? 45) || isdigit c then
           let? after := number_loop doc (Z.to_nat (e - (p + zlen w))) (p + zlen w + 1) e in
           done_at retro_vault_json_number after
         else Some None) = Some r /\
    forall v q, r = Some (v, q) -> read_as (S lv) (w ++ c :: s) p v q.
Proof.
  intros Hw Ha H34 H123 H91. cbv zeta. rewrite !(word_at_spec (c :: s)) by done.
  case_bool_decide as Et.
  { apply prefix_rest in Et as [rest ->]. eapply read_as_intro; [done|apply render_true|cbn; lia|done|done]. }
  case_bool_decide as Ef.
  { apply prefix_rest in Ef as [rest ->]. eapply read_as_intro; [done|apply render_false|cbn; lia|done|done]. }
  case_bool_decide as En.
  { apply prefix_rest in En as [rest ->]. eapply read_as_intro; [done|apply render_null|cbn; lia|done|done]. }
  destruct ((c =? 45) || isdigit c) eqn:Ec; [|by exists None].
  destruct (split_number s) as (n & s' & -> & Hn & Hs'). pose proof (at_len _ _ _ Ha) as Hl.
  apply at_cons in Ha as (_ & Ha & _ & _).
  rewrite (number_loop_spec n s') by (done || (rewrite Hl, zlen_cons; unfold zlen; lia)).
  change (w ++ c :: n ++ s') with (w ++ (c :: n) ++ s').
  eapply (read_as_intro _ _ (JNumber (c :: n))); [done|constructor; by exists c, n|cbn; lia|done|].
  cbn [kind]. by same_value.
Qed.

Lemma at_char_sound s p e ch : at_ p e s ->
  exists b, at_char doc p e ch = Some b /\ (b = true -> exists rest, s = ch :: rest).
Proof.
  intros Ha. destruct s as [|x s]; [rewrite (at_char_nil _ _ _ Ha); by exists false|].
  rewrite (at_char_cons _ _ _ _ _ Ha). eexists. split; [done|]. intros ->%Z.eqb_eq. eauto.
Qed.

Lemma parse_value_sound lv : sound_at lv (parse_value_internal doc lv).
Proof.
  induction lv as [|lv IH]; intros s p e Ha; cbn [parse_value_internal];
    destruct (skip_sound _ _ _ Ha) as (w & s' & -> & Hw & Hns & -> & Ha'); [by exists None|]. clear Ha.
  destruct s' as [|c s'].
  { apply at_nil in Ha' as ->. rewrite Z.leb_refl. by exists None. }
  pose proof Ha' as Hc. apply at_cons in Hc as (Hrd & Ha1 & Hlt & _).
  destruct (Z.leb_spec e (p + zlen w)); [lia|]. rewrite Hrd.
  destruct (Z.eqb_spec c 34) as [->|H34].
  { destruct (parse_string_end_sound _ _ _ Ha') as (r & -> & Hr). destruct r as [q|]; [|by exists None].
    destruct (Hr q eq_refl) as (raw & rest & -> & Hok & ->).
    eapply (read_as_intro _ _ (JString raw)); [done|by constructor|cbn; lia|done|done]. }
  destruct (Z.eqb_spec c 123) as [->|H123].
  { destruct (skip_sound _ _ _ Ha1) as (w1 & s1 & -> & Hw1 & Hns1 & -> & Ha2).
    destruct (at_char_sound s1 (p + zlen w + 1 + zlen w1) e 125 Ha2) as (b & -> & Hb). destruct b.
    - destruct (Hb eq_refl) as [rest ->].
      replace (w ++ 123 :: w1 ++ 125 :: rest) with (w ++ (123 :: w1 ++ [125]) ++ rest)
        by (cbn; by rewrite <- app_assoc).
      eapply (read_as_intro _ _ (JObject [])); [done|by constructor|cbn; lia|done|]. cbn [kind]. by same_value.
    - destruct (object_loop_sound lv _ IH (Z.to_nat (e - (p + zlen w + 1 + zlen w1))) _ _ _ Ha2) as (r & -> & Hr).
      destruct r as [q|]; [|by exists None].
      destruct (Hr q eq_refl) as (m & ms & txt & rest & -> & Hm & Hsh & ->).
      replace (w ++ 123 :: w1 ++ txt ++ 125 :: rest) with (w ++ (123 :: (w1 ++ txt) ++ [125]) ++ rest)
        by (cbn; by rewrite <- !app_assoc).
      eapply (read_as_intro _ _ (JObject (m :: ms))); [done|constructor; by apply members_space| |done|].
      + cbn [levels]. apply foldr_shallow_members in Hsh. lia.
      + cbn [kind]. by same_value. }
  destruct (Z.eqb_spec c 91) as [->|H91]; [|by apply parse_scalar_sound].
  destruct (skip_sound _ _ _ Ha1) as (w1 & s1 & -> & Hw1 & Hns1 & -> & Ha2).
  destruct (at_char_sound s1 (p + zlen w + 1 + zlen w1) e 93 Ha2) as (b & -> & Hb). destruct b.
  - destruct (Hb eq_refl) as [rest ->].
    replace (w ++ 91 :: w1 ++ 93 :: rest) with (w ++ (91 :: w1 ++ [93]) ++ rest)
      by (cbn; by rewrite <- app_assoc).
    eapply (read_as_intro _ _ (JArray [])); [done|by constructor|cbn; lia|done|]. cbn [kind]. by same_value.
  - destruct (array_loop_sound lv _ IH (Z.to_nat (e - (p + zlen w + 1 + zlen w1))) _ _ _ Ha2) as (r & -> & Hr).
    destruct r as [q|]; [|by exists None].
    destruct (Hr q eq_refl) as (v & vs & txt & rest & -> & Hi & Hsh & ->).
    replace (w ++ 91 :: w1 ++ txt ++ 93 :: rest) with (w ++ (91 :: (w1 ++ txt) ++ [93]) ++ rest)
      by (cbn; by rewrite <- !app_assoc).
    eapply (read_as_intro _ _ (JArray (v :: vs))); [done|constructor; by apply items_space| |done|].
    + cbn [levels]. apply foldr_shallow in Hsh. lia.
    + cbn [kind]. by same_value.
Qed.

(** *** The parser of documents *)

(** The first [size] bytes are a rendering of [t] with white space around it,
    which is the value [v]. *)
Definition document (size : Z) (t : json) (v : retro_vault_json_value) : Prop :=
  exists w s w', take (Z.to_nat size) doc = w ++ s ++ w' /\ ws w /\ ws w' /\ renders t s /\
    (levels t <= 33)%nat /\ v = JsonValue (zlen w) (zlen w + zlen s) (kind t).

Lemma at_take size : 0 <= size <= zlen doc -> at_ 0 size (take (Z.to_nat size) doc).
Proof.
  intros Hs. assert (Hl : length (take (Z.to_nat size) doc) = Z.to_nat size).
  { rewrite length_take. unfold zlen in Hs. lia. }
  split_and!; try lia; [unfold zlen; lia|]. by rewrite Hl.
Qed.

Lemma ws_no_number w : ws w -> no_number w.
Proof.
  intros Hw. destruct Hw as [|c w Hc Hw]; [done|].
  assert (Hs : ws [c]) by (constructor; [done|constructor]).
  exact (space_no_number [c] 58 [] Hs eq_refl).
Qed.

Lemma parse_document_complete size t v :
  0 <= size <= zlen doc -> document size t v -> parse_document doc size = Some (Some v).
Proof.
  intros Hs (w & s & w' & Ed & Hw & Hw' & Hr & Hl & ->). pose proof (at_take size Hs) as Ha.
  rewrite Ed in Ha. unfold parse_document, parse_value.
  assert (Hst : stops t w') by (destruct t; try done; by apply ws_no_number).
  rewrite (proj1 rendering_accepted t s Hr _ 0 size w w') by done.
  do 2 apply at_next in Ha. rewrite Z.add_0_l in *. rewrite <- (app_nil_r w') in Ha.
  rewrite (skip_space_spec w' []) by done. apply at_next, at_nil in Ha. by rewrite Ha, Z.eqb_refl.
Qed.

Lemma parse_document_sound size :
  0 <= size <= zlen doc ->
  exists r, parse_document doc size = Some r /\ forall v, r = Some v -> exists t, document size t v.
Proof.
  intros Hs. pose proof (at_take size Hs) as Ha. unfold parse_document, parse_value.
  destruct (parse_value_sound 33 _ 0 size Ha) as (r & E & Hr).
  change (S retro_vault_json_max_depth) with 33%nat. rewrite E.
  destruct r as [[u q]|]; [|by exists None].
  destruct (Hr u q eq_refl) as (w & t & txt & rest & Ed & Hw & Hrn & Hlv & Hst & -> & ->).
  rewrite Ed in Ha. do 2 apply at_next in Ha.
  destruct (skip_sound _ _ _ Ha) as (w' & s' & -> & Hw' & _ & -> & Ha2).
  destruct (Z.eqb_spec (0 + zlen w + zlen txt + zlen w') size) as [Hend|Hend]; [|by exists None].
  assert (s' = []) as -> by (destruct Ha2 as (_ & _ & Hl & _); apply zlen_nil_inv; lia).
  eexists. split; [done|]. intros v [= <-]. exists t, w, txt, w'. rewrite app_nil_r in Ed.
  split_and!; try done.
Qed.
End doc.

(** C18. The parser accepts exactly the documents the grammar describes, and
    reads nothing outside them: on any bytes it returns; it gives a value
    precisely when the bytes, with white space around, are a rendering of a
    tree of at most 33 levels, and the value is that text with the kind of the
    tree. *)
Theorem json_parse_exact doc size v :
  bytes_ok doc -> 0 <= size <= zlen doc ->
  is_Some (parse_retro_vault_json (Some doc) size) /\
  (parse_retro_vault_json (Some doc) size = Some (Some v) <-> exists t, document doc size t v).
Proof.
  intros Hdoc Hs. cbn [parse_retro_vault_json].
  destruct (parse_document_sound doc Hdoc size Hs) as (r & E & Hr). rewrite E. split; [by eexists|].
  split; [intros [= ->]; by apply Hr|]. intros [t Ht].
  rewrite <- E. by eapply parse_document_complete.
Qed.

(** The document [{"a" : -1.5e3 } , true] with white space. *)
Definition sample_json : list Z :=
  text " [ {" ++ quoted [97] ++ text " : -1.5e3 } ,true ] ".

Lemma json_parse_exact_witness :
  exists t, document sample_json (zlen sample_json) t (JsonValue 1 26 retro_vault_json_array).
Proof.
  apply (json_parse_exact sample_json (zlen sample_json) (JsonValue 1 26 retro_vault_json_array));
    [closed|closed|vm_compute; reflexivity].
Defined.
