(* ===== verification/JsonRead.v ===== *)
(** What the accessors of the JSON reader return: strings decoded, members
    found by name, arrays enumerated, numbers read, as functions on the trees
    of JsonGrammar.v; and their use of memory. *)
From stdpp Require Import base numbers list option gmultiset strings.
From Stdlib Require Import ZArith Lia.
From S2P Require Import Prelude CLib Heap Json JsonGrammar.

Local Open Scope Z_scope.
Local Open Scope squid_scope.

(** ** Strings in two stages *)

(** First the escapes are read: a byte stands for itself, an escape with four
    digits for a code unit of UTF-16. *)
Inductive str_unit := Byte (c : Z) | Code (u : Z).

(** The escapes of RFC 8259 with one letter, and what they stand for. *)
Definition escape_table : list (Z * Z) :=
  [(34, 34); (92, 92); (47, 47); (98, 8); (102, 12); (110, 10); (114, 13); (116, 9)].
Definition escape_of (c : Z) : option Z := snd <$> find (fun p => p.1 =? c) escape_table.

(** The value of a hexadecimal digit. *)
Definition hex_digit (c : Z) : Z := if isdigit c then c - 48 else tolower c - 97 + 10.
Definition hex4 (a b c d : Z) : Z :=
  ((hex_digit a * 16 + hex_digit b) * 16 + hex_digit c) * 16 + hex_digit d.

Fixpoint units (raw : list Z) : option (list str_unit) :=
  match raw with
  | [] => Some []
  | c :: s =>
      if c =? 92 then
        match s with
        | [] => None
        | e :: s' =>
            match escape_of e with
            | Some x => let? us := units s' in Some (Byte x :: us)
            | None =>
                match s' with
                | a :: b :: c' :: d :: s'' =>
                    if (e =? 117) && forallb isxdigit [a; b; c'; d]
                    then let? us := units s'' in Some (Code (hex4 a b c' d) :: us)
                    else None
                | _ => None
                end
            end
        end
      else let? us := units s in Some (Byte c :: us)
  end.

(** The UTF-8 encoding of a code point. *)
Definition utf8_bytes (c : Z) : list Z :=
  if c <? 0x80 then [c]
  else if c <? 0x800 then [0xC0 + c / 64; 0x80 + c mod 64]
  else if c <? 0x10000 then [0xE0 + c / 4096; 0x80 + c / 64 mod 64; 0x80 + c mod 64]
  else [0xF0 + c / 262144; 0x80 + c / 4096 mod 64; 0x80 + c / 64 mod 64; 0x80 + c mod 64].

(** Then the code units are joined to code points, which are written in UTF-8;
    a surrogate without its partner becomes U+FFFD. *)
Definition is_high (u : Z) : bool := (0xD800 <=? u) && (u <=? 0xDBFF).
Definition is_low (u : Z) : bool := (0xDC00 <=? u) && (u <=? 0xDFFF).
Definition lone (u : Z) : Z := if (0xD800 <=? u) && (u <=? 0xDFFF) then 0xFFFD else u.
Definition surrogate_pair (h l : Z) : Z := 0x10000 + (h - 0xD800) * 1024 + (l - 0xDC00).

Fixpoint utf8 (us : list str_unit) : list Z :=
  match us with
  | [] => []
  | Byte c :: us => c :: utf8 us
  | Code h :: us =>
      match us with
      | Code l :: us' =>
          if is_high h && is_low l then utf8_bytes (surrogate_pair h l) ++ utf8 us'
          else utf8_bytes (lone h) ++ utf8 us
      | _ => utf8_bytes (lone h) ++ utf8 us
      end
  end.

Definition decode (raw : list Z) : option (list Z) :=
  match units raw with Some us => Some (utf8 us) | None => None end.

(** ** Hexadecimal digits *)

Lemma escape_of_eq c : simple_escape c = escape_of c.
Proof.
  unfold simple_escape, escape_of, escape_table. cbn [find fst].
  repeat match goal with |- context [c =? ?k] => destruct (Z.eqb_spec c k) as [->|]; [done|] end.
  repeat match goal with |- context [?k =? c] => destruct (Z.eqb_spec k c) as [<-|]; [done|] end. done.
Qed.
Lemma hex_digit_eq c : isxdigit c = true -> hex_value c = hex_digit c.
Proof.
  unfold isxdigit, isdigit, hex_value, hex_digit, isdigit, tolower. intros H.
  destruct (Z.leb_spec 48 c), (Z.leb_spec c 57), (Z.leb_spec 97 c), (Z.leb_spec c 102),
    (Z.leb_spec 65 c), (Z.leb_spec c 70), (Z.leb_spec c 90); cbn in *; try done; lia.
Qed.
Lemma hex_value_range c : isxdigit c = true -> 0 <= hex_value c < 16.
Proof.
  unfold isxdigit, isdigit, hex_value. intros H.
  destruct (Z.leb_spec 48 c), (Z.leb_spec c 57), (Z.leb_spec 97 c), (Z.leb_spec c 102),
    (Z.leb_spec 65 c), (Z.leb_spec c 70); cbn in *; try done; lia.
Qed.

Lemma lor_add x d n : 0 <= n -> 0 <= d < 2 ^ n -> Z.lor (x * 2 ^ n) d = x * 2 ^ n + d.
Proof.
  intros Hn Hd.
  assert (Hland : Z.land (x * 2 ^ n) d = 0).
  { rewrite <- Z.shiftl_mul_pow2 by done. apply Z.bits_inj'. intros i Hi.
    rewrite Z.land_spec, Z.shiftl_spec, Z.bits_0 by done. destruct (Z.ltb_spec i n).
    - by rewrite (Z.testbit_neg_r x) by lia.
    - rewrite <- (Z.mod_small d (2 ^ n)) by done.
      by rewrite Z.mod_pow2_bits_high, andb_false_r by lia. }
  rewrite Z.add_nocarry_lxor by done. symmetry. by apply Z.lxor_lor.
Qed.

Lemma hex_quad_eq a b c d : forallb isxdigit [a; b; c; d] = true ->
  fold_left (fun value character =>
    match value with
    | None => None
    | Some value =>
        let digit := hex_value character in
        if digit <? 0 then None else Some (Z.lor (u32 (Z.shiftl value 4)) digit)
    end) [a; b; c; d] (Some 0) = Some (hex4 a b c d) /\ 0 <= hex4 a b c d < 65536.
Proof.
  cbn [forallb]. rewrite !andb_true_iff. intros (Ha & Hb & Hc & Hd & _). unfold hex4.
  rewrite <- !hex_digit_eq by done. apply hex_value_range in Ha, Hb, Hc, Hd.
  assert (Hstep : forall v x, 0 <= v < 2 ^ 28 -> 0 <= x < 16 ->
    Z.lor (u32 (Z.shiftl v 4)) x = v * 16 + x).
  { intros v x Hv Hx. rewrite Z.shiftl_mul_pow2 by lia. change (2 ^ 4) with 16.
    rewrite u32_small by lia. apply (lor_add v x 4); lia. }
  cbn [fold_left]. cbv zeta.
  destruct (Z.ltb_spec (hex_value a) 0), (Z.ltb_spec (hex_value b) 0), (Z.ltb_spec (hex_value c) 0),
    (Z.ltb_spec (hex_value d) 0); try lia.
  rewrite (Hstep 0) by lia. rewrite Z.mul_0_l, Z.add_0_l. rewrite (Hstep (hex_value a)) by lia.
  rewrite (Hstep (_ * 16 + hex_value b)) by lia. rewrite (Hstep (_ * 16 + hex_value c)) by lia.
  split; [done|lia].
Qed.

(** ** UTF-8 *)

Lemma encode_utf8_length c : c <= 0xFFFF -> zlen (encode_utf8 c) <= 3.
Proof. intros Hc. unfold encode_utf8. repeat case_test; unfold zlen; cbn [length]; lia. Qed.
Lemma encode_utf8_length4 c : zlen (encode_utf8 c) <= 4.
Proof. unfold encode_utf8. repeat case_test; unfold zlen; cbn [length]; lia. Qed.
Lemma encode_utf8_bytes c : bytes_ok (encode_utf8 c).
Proof. unfold encode_utf8. repeat case_test; repeat constructor; apply u8_range. Qed.
Lemma encode_utf8_nonempty c : 1 <= zlen (encode_utf8 c).
Proof. unfold encode_utf8. repeat case_test; unfold zlen; cbn [length]; lia. Qed.

(** The reader of UTF-8, for comparison: the first code point and the rest. *)
Definition cont (b : Z) : bool := (0x80 <=? b) && (b <? 0xC0).
Definition decode_utf8 (s : list Z) : option (Z * list Z) :=
  match s with
  | a :: s1 =>
      if a <? 0x80 then Some (a, s1)
      else
        match s1 with
        | b :: s2 =>
            if (0xC0 <=? a) && (a <? 0xE0) && cont b then Some ((a - 0xC0) * 64 + (b - 0x80), s2)
            else
              match s2 with
              | c :: s3 =>
                  if (0xE0 <=? a) && (a <? 0xF0) && cont b && cont c
                  then Some (((a - 0xE0) * 64 + (b - 0x80)) * 64 + (c - 0x80), s3)
                  else
                    match s3 with
                    | d :: s4 =>
                        if (0xF0 <=? a) && cont b && cont c && cont d
                        then Some ((((a - 0xF0) * 64 + (b - 0x80)) * 64 + (c - 0x80)) * 64 + (d - 0x80), s4)
                        else None
                    | [] => None
                    end
              | [] => None
              end
        | [] => None
        end
  | [] => None
  end.

(** Leading byte and continuation byte in arithmetic. *)
Lemma lead_byte base n x : 0 <= n <= 6 -> 0 <= x < 2 ^ n -> 0 <= base -> base * 2 ^ n + x < 256 ->
  u8 (Z.lor (base * 2 ^ n) x) = base * 2 ^ n + x.
Proof. intros. rewrite lor_add by lia. apply u8_small. lia. Qed.
Lemma cont_byte x : 0 <= x -> u8 (Z.lor 0x80 (Z.land x 0x3F)) = 128 + x mod 64.
Proof.
  intros Hx. change 0x3F with (Z.ones 6). rewrite Z.land_ones by lia. change (2 ^ 6) with 64.
  pose proof (Z.mod_pos_bound x 64 ltac:(lia)).
  change 0x80 with (2 * 2 ^ 6). rewrite (lead_byte 2 6) by (change (2 ^ 6) with 64; lia). done.
Qed.

(** [encode_utf8] writes the UTF-8 encoding of every code point. *)
Lemma encode_utf8_eq c : 0 <= c <= 0x10FFFF -> encode_utf8 c = utf8_bytes c.
Proof.
  intros Hc. unfold encode_utf8, utf8_bytes.
  rewrite !cont_byte by (try apply Z.shiftr_nonneg; lia). rewrite !Z.shiftr_div_pow2 by lia.
  change (2 ^ 6) with 64. change (2 ^ 12) with 4096. change (2 ^ 18) with 262144.
  destruct (Z.leb_spec c 0x7F), (Z.ltb_spec c 0x80); try lia; [by rewrite u8_small by lia|].
  destruct (Z.leb_spec c 0x7FF), (Z.ltb_spec c 0x800); try lia.
  { assert (0 <= c / 64 < 32) by (split; [apply Z.div_pos; lia|apply Z.div_lt_upper_bound; lia]).
    change 0xC0 with (6 * 2 ^ 5). by rewrite (lead_byte 6 5) by (change (2 ^ 5) with 32; lia). }
  destruct (Z.leb_spec c 0xFFFF), (Z.ltb_spec c 0x10000); try lia.
  { assert (0 <= c / 4096 < 16) by (split; [apply Z.div_pos; lia|apply Z.div_lt_upper_bound; lia]).
    change 0xE0 with (14 * 2 ^ 4). by rewrite (lead_byte 14 4) by (change (2 ^ 4) with 16; lia). }
  assert (0 <= c / 262144 < 8) by (split; [apply Z.div_pos; lia|apply Z.div_lt_upper_bound; lia]).
  change 0xF0 with (30 * 2 ^ 3). by rewrite (lead_byte 30 3) by (change (2 ^ 3) with 8; lia).
Qed.

(** It is a sequence of one to four bytes from which the code point can be
    read back, whatever follows. *)
Theorem utf8_roundtrip c rest :
  0 <= c <= 0x10FFFF ->
  1 <= zlen (encode_utf8 c) <= 4 /\ bytes_ok (encode_utf8 c) /\
  decode_utf8 (encode_utf8 c ++ rest) = Some (c, rest).
Proof.
  intros Hc. split; [split; [apply encode_utf8_nonempty|apply encode_utf8_length4]|].
  split; [apply encode_utf8_bytes|]. rewrite encode_utf8_eq by done. unfold utf8_bytes.
  assert (Hcont : forall x, cont (128 + x mod 64) = true).
  { intros x. pose proof (Z.mod_pos_bound x 64 ltac:(lia)). unfold cont. lia. }
  destruct (Z.ltb_spec c 0x80).
  { cbn. destruct (Z.ltb_spec c 128); [done|lia]. }
  destruct (Z.ltb_spec c 0x800).
  { assert (0 <= c / 64 < 32) by (split; [apply Z.div_pos; lia|apply Z.div_lt_upper_bound; lia]).
    cbn [app decode_utf8]. rewrite Hcont. destruct (Z.ltb_spec (192 + c / 64) 0x80); [lia|].
    replace ((192 <=? 192 + c / 64) && (192 + c / 64 <? 224) && true) with true by lia.
    do 2 f_equal. Z.div_mod_to_equations. lia. }
  destruct (Z.ltb_spec c 0x10000).
  { assert (0 <= c / 4096 < 16) by (split; [apply Z.div_pos; lia|apply Z.div_lt_upper_bound; lia]).
    cbn [app decode_utf8]. rewrite !Hcont. destruct (Z.ltb_spec (224 + c / 4096) 0x80); [lia|].
    replace ((192 <=? 224 + c / 4096) && (224 + c / 4096 <? 224) && true) with false by lia.
    replace ((224 <=? 224 + c / 4096) && (224 + c / 4096 <? 240) && true && true) with true by lia.
    do 2 f_equal. Z.div_mod_to_equations. lia. }
  assert (0 <= c / 262144 < 8) by (split; [apply Z.div_pos; lia|apply Z.div_lt_upper_bound; lia]).
  cbn [app decode_utf8]. rewrite !Hcont. destruct (Z.ltb_spec (240 + c / 262144) 0x80); [lia|].
  replace ((192 <=? 240 + c / 262144) && (240 + c / 262144 <? 224) && true) with false by lia.
  replace ((224 <=? 240 + c / 262144) && (240 + c / 262144 <? 240) && true && true) with false by lia.
  replace ((240 <=? 240 + c / 262144) && true && true && true) with true by lia.
  do 2 f_equal. Z.div_mod_to_equations. lia.
Qed.

Lemma utf8_roundtrip_witness :
  decode_utf8 (encode_utf8 0x1F600 ++ [33]) = Some (0x1F600, [33]).
Proof. apply (utf8_roundtrip 0x1F600 [33]). lia. Defined.

(** ** Decoding *)

Lemma decode_cons c s : c <> 92 -> decode (c :: s) = (cons c) <$> decode s.
Proof.
  intros Hc. unfold decode. cbn [units]. destruct (Z.eqb_spec c 92); [done|]. by destruct (units s).
Qed.
Lemma decode_escape c x s : simple_escape c = Some x -> decode (92 :: c :: s) = (cons x) <$> decode s.
Proof. rewrite escape_of_eq. intros Hc. unfold decode. cbn [units Z.eqb Pos.eqb]. rewrite Hc. by destruct (units s). Qed.
Lemma decode_nul s : decode (92 :: 0 :: s) = None.
Proof. unfold decode. cbn. by destruct s as [|? [|? [|? [|? ?]]]]. Qed.

(** The escapes the scanner accepts are those that are decoded, and NUL. *)
Lemma escape_cases c : in_set escape_set c = true -> c = 0 \/ exists x, simple_escape c = Some x /\ is_byte x.
Proof.
  unfold in_set, escape_set. intros H. apply orb_true_iff in H as [H|H]; [|left; lia]. right.
  apply bool_decide_eq_true_1 in H.
  repeat (apply elem_of_cons in H as [->|H]; [eexists; split; [reflexivity|unfold is_byte; lia]|]).
  by apply elem_of_nil in H.
Qed.

(** Decoding bytes gives bytes. *)
Definition unit_ok (u : str_unit) : Prop :=
  match u with Byte c => is_byte c | Code u => 0 <= u < 65536 end.
Lemma escape_byte c x : escape_of c = Some x -> is_byte x.
Proof. rewrite <- escape_of_eq. unfold simple_escape, is_byte. intros H. repeat case_match; simplify_eq; lia. Qed.
Lemma units_ok n : forall raw us, (length raw <= n)%nat -> bytes_ok raw -> units raw = Some us -> Forall unit_ok us.
Proof.
  induction n as [|n IH]; intros raw us Hn Hb E.
  { destruct raw; [|cbn in Hn; lia]. by injection E as <-. }
  destruct Hb as [|c s Hc Hs]; [by injection E as <-|]. cbn [units] in E. cbn [length] in Hn.
  assert (Hgo : forall s' u, s' `suffix_of` s -> unit_ok u -> (let? us := units s' in Some (u :: us)) = Some us ->
    Forall unit_ok us).
  { intros s' u [k ->] Hu E'. apply Forall_app in Hs as [_ Hs]. rewrite length_app in Hn.
    destruct (units s') as [us'|] eqn:E2; [|done]. injection E' as <-.
    constructor; [done|]. eapply (IH s'); [lia|done|done]. }
  destruct (Z.eqb_spec c 92) as [->|]; [|by eapply (Hgo s (Byte c))].
  destruct s as [|e s']; [done|]. destruct (escape_of e) as [x|] eqn:Ex.
  { eapply (Hgo s' (Byte x)); [by exists [e]|by eapply escape_byte|done]. }
  destruct s' as [|a [|b [|c' [|d s'']]]]; try done.
  destruct (forallb isxdigit [a; b; c'; d]) eqn:Hx; [|by rewrite andb_false_r in E].
  destruct (e =? 117); [|done].
  eapply (Hgo s'' (Code _)); [by exists [e; a; b; c'; d]|by apply hex_quad_eq|done].
Qed.
Lemma utf8_ok n : forall us, (length us <= n)%nat -> Forall unit_ok us -> bytes_ok (utf8 us).
Proof.
  induction n as [|n IH]; intros us Hn Hus.
  { destruct us; [constructor|cbn in Hn; lia]. }
  destruct Hus as [|u us Hu Hus]; [constructor|]. cbn [length] in Hn.
  destruct u as [c|h]; [constructor; [done|apply IH; [lia|done]]|]. cbn [utf8].
  cbn [unit_ok] in Hu. assert (Hlone : bytes_ok (utf8_bytes (lone h) ++ utf8 us)).
  { apply Forall_app. split; [rewrite <- encode_utf8_eq by (unfold lone; case_test; lia);
      apply encode_utf8_bytes|apply IH; [lia|done]]. }
  destruct us as [|[c|l] us']; [done|done|]. destruct (is_high h && is_low l) eqn:Hp; [|done].
  apply Forall_app. split.
  { rewrite <- encode_utf8_eq by (unfold is_high, is_low, surrogate_pair in *; lia). apply encode_utf8_bytes. }
  inversion Hus; subst. apply IH; [cbn in Hn; lia|done].
Qed.
Lemma decode_bytes raw s : bytes_ok raw -> decode raw = Some s -> bytes_ok s.
Proof.
  unfold decode. intros Hb E. destruct (units raw) as [us|] eqn:Eu; [|done]. injection E as <-.
  eapply utf8_ok; [done|]. by eapply units_ok.
Qed.

(** The C string a JSON string is taken for. *)
Definition str_value (raw : list Z) : option (list Z) := before_nul <$> decode raw.

Section doc.
Variable doc : list Z.
Hypothesis doc_ok : bytes_ok doc.

Abbreviation at_ := (at_ doc).
Abbreviation at_cons := (at_cons doc doc_ok).
Abbreviation at_rd_bytes := (at_rd_bytes doc doc_ok).

Lemma at_quad p e a b c d s : forallb isxdigit [a; b; c; d] = true -> at_ p e (a :: b :: c :: d :: s) ->
  decode_hex_quad doc p = Some (Some (hex4 a b c d)) /\ at_ (p + 4) e s /\ 0 <= hex4 a b c d < 65536.
Proof.
  intros Hx Ha. destruct (hex_quad_eq a b c d Hx) as [Hq Hr].
  change (a :: b :: c :: d :: s) with ([a; b; c; d] ++ s) in Ha.
  unfold decode_hex_quad. pose proof (at_rd_bytes _ _ _ _ Ha) as Hb. change (zlen [a; b; c; d]) with 4 in Hb.
  rewrite Hb. split_and!; try lia; [by f_equal|]. by apply at_next in Ha.
Qed.

Lemma join_pair h l : is_high h = true -> is_low l = true ->
  u32 (u32 (0x10000 + u32 (Z.shiftl (h - 0xD800) 10)) + (l - 0xDC00)) = surrogate_pair h l.
Proof.
  unfold is_high, is_low, surrogate_pair. intros Hh Hl. rewrite Z.shiftl_mul_pow2 by lia. change (2 ^ 10) with 1024.
  rewrite (u32_small ((h - _) * 1024)) by lia. rewrite (u32_small (0x10000 + _)) by lia. apply u32_small. lia.
Qed.

(** After an escape with four digits: either a partner follows and both are
    taken, or none does. *)
Lemma unicode_cases a b c d s q e :
  forallb isxdigit [a; b; c; d] = true -> raw_ok s -> at_ q e s ->
  let h := hex4 a b c d in
  let raw := 92 :: 117 :: a :: b :: c :: d :: s in
  (exists u s', s = u ++ s' /\ zlen u = 6 /\ raw_ok s' /\
     exists x, lone x = x /\ 0 <= x <= 0x10FFFF /\ join_surrogates doc h q e = Some (x, q + 6) /\
     decode raw = (app (utf8_bytes x)) <$> decode s') \/
  (join_surrogates doc h q e = Some (h, q) /\ decode raw = (app (utf8_bytes (lone h))) <$> decode s).
Proof.
  intros Hx Hs Ha h raw.
  assert (Hraw : decode raw = match units s with
    | Some us => Some (utf8 (Code h :: us)) | None => None end).
  { unfold decode, raw. cbn [units Z.eqb Pos.eqb]. change (escape_of 117) with (@None Z). cbv iota.
    rewrite Hx. cbn [andb]. by destruct (units s). }
  pose proof (at_len doc _ _ _ Ha) as Hl. rewrite Hraw. unfold join_surrogates, decode. fold (is_high h).
  destruct (is_high h) eqn:Hh; cbn [andb].
  2: { right. split; [done|]. destruct (units s) as [us|]; [|done]. cbn [fmap option_fmap option_map utf8].
       rewrite Hh. by destruct us as [|[]]. }
  destruct Hs as [|x s Hx1 Hx2 Hx3 Hs|x s Hx1 Hs|a' b' c' d' s Hx' Hs].
  - right. rewrite zlen_nil in Hl. destruct (Z.leb_spec 6 (e - q)); [lia|]. split; [done|]. cbn. by rewrite app_nil_r.
  - right. split.
    + destruct (6 <=? e - q); [|done]. apply at_cons in Ha as (-> & _). by destruct (Z.eqb_spec x 92).
    + cbn [units]. destruct (Z.eqb_spec x 92); [done|]. by destruct (units s).
  - right. split.
    + destruct (6 <=? e - q); [|done]. apply at_cons in Ha as (-> & Ha & _). cbn [Z.eqb Pos.eqb negb].
      apply at_cons in Ha as (-> & _). destruct (Z.eqb_spec x 117) as [->|]; done.
    + cbn [units Z.eqb Pos.eqb]. destruct (escape_cases x Hx1) as [->|(y & Hy & _)];
        [|rewrite <- escape_of_eq, Hy; by destruct (units s)].
      cbn. by destruct s as [|? [|? [|? [|? ?]]]].
  - rewrite !zlen_cons in Hl. pose proof (zlen_nonneg s). destruct (Z.leb_spec 6 (e - q)); [|lia].
    apply at_cons in Ha as (-> & Ha & _). cbn [Z.eqb Pos.eqb negb]. apply at_cons in Ha as (-> & Ha & _).
    cbn [Z.eqb Pos.eqb negb]. replace (q + 1 + 1) with (q + 2) in Ha by lia.
    apply (at_quad _ _ _ _ _ _ _ Hx') in Ha as (-> & Ha & Hr). fold (is_low (hex4 a' b' c' d')).
    cbn [units Z.eqb Pos.eqb]. change (escape_of 117) with (@None Z). cbv iota. rewrite Hx'. cbn [andb].
    destruct (is_low (hex4 a' b' c' d')) eqn:Hlow.
    + left. exists [92; 117; a'; b'; c'; d'], s. split_and!; [done|done|done|].
      exists (surrogate_pair h (hex4 a' b' c' d')). split_and!.
      * unfold lone, surrogate_pair, is_high, is_low in *.
        destruct (Z.leb_spec 0xD800 (0x10000 + (h - 0xD800) * 1024 + (hex4 a' b' c' d' - 0xDC00))),
          (Z.leb_spec (0x10000 + (h - 0xD800) * 1024 + (hex4 a' b' c' d' - 0xDC00)) 0xDFFF); cbn; lia.
      * unfold surrogate_pair, is_high, is_low in *. lia.
      * unfold surrogate_pair, is_high, is_low in *. lia.
      * by rewrite join_pair.
      * destruct (units s) as [us|]; [|done]. cbn [fmap option_fmap option_map utf8]. by rewrite Hh, Hlow.
    + right. split; [done|]. destruct (units s) as [us|]; [|done].
      cbn [fmap option_fmap option_map]. cbn [utf8]. by rewrite Hlow, andb_false_r.
Qed.

(** One more piece of output behind what is written. *)
Lemma wr_more done q src : zlen src <= zlen q ->
  wr_bytes (done ++ q) (zlen done) src = Some ((done ++ src) ++ drop (length src) q).
Proof. intros H. rewrite wr_bytes_app by done. by rewrite <- app_assoc. Qed.
Lemma wr_one done q c : 1 <= zlen q -> wr (done ++ q) (zlen done) c = Some ((done ++ [c]) ++ drop 1 q).
Proof.
  intros H. destruct q as [|x q]; [unfold zlen in H; cbn in H; lia|].
  rewrite wr_app by done. by rewrite <- app_assoc.
Qed.

(** What the loop makes of a scanned string: the decoded bytes behind what
    was there, never more than the string has. *)
Definition decoded_after (done q raw : list Z) : option (option (list Z * Z)) :=
  match decode raw with
  | None => Some None
  | Some s => Some (Some (done ++ s ++ drop (length s) q, zlen done + zlen s))
  end.
Definition short (raw : list Z) : Prop := forall s, decode raw = Some s -> zlen s <= zlen raw.

Lemma decoded_step done q raw raw' src :
  decode raw = (app src) <$> decode raw' -> zlen src + zlen raw' <= zlen raw -> short raw' ->
  short raw /\
  decoded_after done q raw = decoded_after (done ++ src) (drop (length src) q) raw'.
Proof.
  intros E Hl Hs. unfold decoded_after, short in *. rewrite E. destruct (decode raw') as [s|]; [|done]. cbn.
  split; [intros s' [= <-]; specialize (Hs s eq_refl); rewrite zlen_app; lia|].
  do 3 f_equal; [|rewrite !zlen_app; lia]. rewrite <- !app_assoc. do 3 f_equal.
  by rewrite length_app, drop_drop.
Qed.

Lemma unicode_escape_spec a b c d s p e :
  forallb isxdigit [a; b; c; d] = true -> raw_ok s -> at_ p e (a :: b :: c :: d :: s) ->
  exists src s' q, unicode_escape doc p e = Some (Some (src, q)) /\ at_ q e s' /\ raw_ok s' /\
    decode (92 :: 117 :: a :: b :: c :: d :: s) = (app src) <$> decode s' /\
    zlen src + zlen s' <= 6 + zlen s /\ 4 + zlen s' <= 4 + zlen s /\ zlen src <= 6.
Proof.
  intros Hx Hs Ha. unfold unicode_escape. pose proof (at_len doc _ _ _ Ha) as Hl. rewrite !zlen_cons in Hl.
  pose proof (zlen_nonneg s). destruct (Z.ltb_spec (e - p) 4); [lia|].
  apply (at_quad _ _ _ _ _ _ _ Hx) in Ha as (-> & Ha & Hr).
  destruct (unicode_cases a b c d s (p + 4) e Hx Hs Ha) as
    [(u & s' & -> & Hu & Hs' & x & Hlx & Hxr & -> & Hd)|[-> Hd]]; cbv iota beta zeta in Hd.
  - rewrite <- (encode_utf8_eq x Hxr) in Hd. fold (lone x). rewrite Hlx. exists (encode_utf8 x), s', (p + 4 + 6). rewrite <- Hu at 1.
    apply at_next in Ha. pose proof (encode_utf8_length4 x). rewrite zlen_app in *.
    rewrite Hu. rewrite Hu in Ha. split_and!; try done; lia.
  - rewrite <- (encode_utf8_eq (lone (hex4 a b c d))) in Hd by (unfold lone; case_test; lia).
    fold (lone (hex4 a b c d)). exists (encode_utf8 (lone (hex4 a b c d))), s, (p + 4).
    assert (zlen (encode_utf8 (lone (hex4 a b c d))) <= 3).
    { apply encode_utf8_length. unfold lone. case_test; lia. }
    split_and!; try done; lia.
Qed.

Lemma decoded_nil done q p fuel : 
  short [] /\ decode_loop doc fuel p p (done ++ q) (zlen done) = decoded_after done q [].
Proof.
  split; [by intros s [= <-]|]. unfold decoded_after. cbn. rewrite drop_0, zlen_nil, Z.add_0_r.
  destruct fuel; cbn; by rewrite ?Z.ltb_irrefl.
Qed.

Lemma decode_loop_spec n : forall raw done q p e fuel,
  (length raw <= n)%nat -> raw_ok raw -> at_ p e raw -> zlen raw <= zlen q -> (length raw <= fuel)%nat ->
  short raw /\ decode_loop doc fuel p e (done ++ q) (zlen done) = decoded_after done q raw.
Proof.
  induction n as [|n IH]; intros raw done q p e fuel Hn Hok Ha Hq Hf.
  { destruct raw; [|cbn in Hn; lia]. apply at_nil in Ha as ->. apply decoded_nil. }
  assert (Hgo : forall raw' src f q', decode raw = (app src) <$> decode raw' -> raw_ok raw' ->
    zlen src + zlen raw' <= zlen raw -> (length raw' < length raw)%nat -> at_ q' e raw' ->
    (length raw' <= f)%nat -> short raw /\
    decode_loop doc f q' e ((done ++ src) ++ drop (length src) q) (zlen done + zlen src) = decoded_after done q raw).
  { intros raw' src f q' E Hok' Hl Hlt Ha' Hf'. rewrite <- zlen_app.
    pose proof (zlen_nonneg src). pose proof (zlen_nonneg raw').
    destruct (IH raw' (done ++ src) (drop (length src) q) q' e f) as [Hs ->]; try done; try lia.
    { rewrite zlen_drop. unfold zlen in *. lia. }
    destruct (decoded_step done q raw raw' src E Hl Hs) as [? ->]. done. }
  destruct fuel as [|fuel].
  { destruct raw; [|cbn in Hf; lia]. apply at_nil in Ha as ->. apply decoded_nil. }
  cbn [decode_loop]. pose proof (zlen_nonneg raw) as Hnn.
  destruct Hok as [|c s Hc H34 H92 Hs|c s Hc Hs|a b c d s Hx Hs].
  - apply at_nil in Ha as ->. apply (decoded_nil done q e (S fuel)).
  - apply at_cons in Ha as (-> & Ha & Hlt & _). destruct (Z.ltb_spec p e), (Z.eqb_spec c 92); try lia. cbn [negb].
    rewrite zlen_cons in *. pose proof (zlen_nonneg s).
    rewrite wr_one by lia. apply (Hgo s [c]); try done; try (rewrite ?zlen_cons, ?zlen_nil; cbn in *; lia).
    by rewrite decode_cons.
  - apply at_cons in Ha as (-> & Ha & Hlt & _). destruct (Z.ltb_spec p e); [|lia]. cbn [Z.eqb Pos.eqb negb].
    apply at_cons in Ha as (-> & Ha & Hlt2 & _). destruct (Z.leb_spec e (p + 1)); [lia|].
    destruct (escape_cases c Hc) as [->|(x & Hxe & _)].
    { split; [intros s'; by rewrite decode_nul|]. unfold decoded_after. by rewrite decode_nul. }
    rewrite Hxe. rewrite !zlen_cons in *. pose proof (zlen_nonneg s).
    rewrite wr_one by lia. apply (Hgo s [x]); try done; try (rewrite ?zlen_cons, ?zlen_nil; cbn in *; lia).
    by rewrite (decode_escape c x).
  - apply at_cons in Ha as (-> & Ha & Hlt & _). destruct (Z.ltb_spec p e); [|lia]. cbn [Z.eqb Pos.eqb negb].
    apply at_cons in Ha as (-> & Ha & Hlt2 & _). destruct (Z.leb_spec e (p + 1)); [lia|].
    change (simple_escape 117) with (@None Z). cbn [Z.eqb Pos.eqb].
    destruct (unicode_escape_spec a b c d s _ _ Hx Hs Ha) as (src & s' & q' & -> & Ha' & Hs' & Hd & Hl & Hl' & Hl6).
    rewrite !zlen_cons in *. pose proof (zlen_nonneg s').
    rewrite wr_more by lia. apply (Hgo s' src); try done; unfold zlen in *; cbn in *; lia.
Qed.

(** ** Values *)

(** The value [v] is a text of the tree [t] in the document. *)
Definition shows (v : retro_vault_json_value) (t : json) : Prop :=
  exists s, at_ (v_start v) (v_end v) s /\ renders t s /\ v_type v = kind t /\ (levels t <= 33)%nat.

(** The value is of this kind. *)
Lemma shows_type v t : shows v t -> v_type v = kind t.
Proof. by intros (s & _ & _ & ? & _). Qed.

(** A copy of a string is its decoded bytes and a NUL in a new block, or NULL
    with nothing allocated. *)
Definition copied (m : mem) (raw : list Z) (p : ptr (list Z)) : Prop :=
  match p with
  | Some (_, cells) => exists s rest, decode raw = Some s /\ cells = s ++ 0 :: rest
  | None => memory_ok m -> decode raw = None
  end.

Lemma duplicate_spec v raw (Q : ptr (list Z) -> mem -> Prop) m :
  shows v (JString raw) ->
  (forall p m', after m m' (live m ⊎ block p) -> copied m raw p -> Q p m') ->
  wp (duplicate_retro_vault_json_string doc v) Q m.
Proof.
  intros (s & Ha & Hr & Hty & _) HQ. cbn [kind] in Hty. inversion Hr as [| | | |raw' Hok| | | |]; subst.
  unfold duplicate_retro_vault_json_string. rewrite Hty. pose proof (at_len doc _ _ _ Ha) as Hl. rewrite Hl.
  assert (Hq : zlen (quoted raw) = 2 + zlen raw).
  { unfold quoted. rewrite zlen_cons, zlen_app, zlen_cons, zlen_nil. lia. }
  pose proof (zlen_nonneg raw). rewrite Hq. cbn [bool_decide negb orb].
  rewrite bool_decide_true by done. destruct (Z.ltb_spec (2 + zlen raw) 2); [lia|]. cbn [negb orb].
  unfold quoted in Ha. apply at_cons in Ha as (_ & Ha & _). apply at_app in Ha as [Ha Hlast].
  assert (Hend : v_start v + 1 + zlen raw = v_end v - 1) by lia. rewrite Hend in Ha.
  apply wp_bind, wp_malloc.
  2: { intros m' Hm' Hno. apply wp_ret, HQ; [|by intros ?]. eapply after_eq; [exact Hm'|]. cbn. multiset_solver. }
  intros b m1 Hm1. apply wp_bind.
  assert (Hu : zlen (uninit (2 + zlen raw)) = 2 + zlen raw).
  { unfold uninit, zlen. rewrite length_replicate. unfold zlen in *. lia. }
  destruct (decode_loop_spec (length raw) raw [] (uninit (2 + zlen raw)) (v_start v + 1) (v_end v - 1)
    (Z.to_nat (2 + zlen raw))) as [Hshort E]; try done; try (unfold zlen in *; lia).
  cbn [app] in E. rewrite zlen_nil in E. rewrite E. unfold decoded_after.
  destruct (decode raw) as [s|] eqn:Hd.
  - specialize (Hshort s Hd). eapply wp_lift; [done|]. apply wp_bind. cbn [app]. rewrite zlen_nil, Z.add_0_l.
    pose proof (zlen_nonneg s). eapply wp_lift; [apply wr_one; rewrite zlen_drop; unfold zlen in *; lia|].
    apply wp_ret, HQ; [done|]. eexists s, _. split; [done|]. by rewrite <- app_assoc.
  - eapply wp_lift; [done|]. apply wp_bind. apply (wp_free _ _ _ (live m)); [by destruct Hm1|]. intros m2 Hm2.
    apply wp_ret, HQ; [|by intros _]. eapply after_eq; [by eapply after_trans|]. cbn. multiset_solver.
Qed.

Lemma at_bytes p e s : at_ p e s -> bytes_ok s.
Proof. intros (_ & _ & _ & <-). unfold bytes_ok. apply Forall_take, Forall_drop, doc_ok. Qed.
Lemma string_bytes v raw : shows v (JString raw) -> bytes_ok raw.
Proof.
  intros (s & Ha & Hr & _). inversion Hr; subst. apply at_bytes in Ha. unfold quoted in Ha.
  inversion Ha as [|? ? _ Hb]; subst. by apply Forall_app in Hb as [? _].
Qed.

(** The C string in a copy. *)
Lemma copied_cstring m v raw b cells : shows v (JString raw) -> copied m raw (Some (b, cells)) ->
  exists s, str_value raw = Some s /\ cstring cells = Some s.
Proof.
  intros Hv (s & rest & Hd & ->). exists (before_nul s). unfold str_value. rewrite Hd. split; [done|].
  apply cstring_before_nul. eapply decode_bytes; [by eapply string_bytes|done].
Qed.

Lemma matches_spec v raw name (Q : bool -> mem -> Prop) m :
  shows v (JString raw) ->
  (forall r m', after m m' (live m) -> (r = true -> str_value raw = Some name) ->
     (memory_ok m -> str_value raw = Some name -> r = true) -> Q r m') ->
  wp (json_string_matches doc v name) Q m.
Proof.
  intros Hv HQ. apply wp_bind, (duplicate_spec v raw); [done|]. intros p m1 Hm1 Hc.
  destruct p as [[b cells]|].
  - destruct (copied_cstring m v raw b cells Hv Hc) as (s & Hs & Ecs).
    apply wp_bind. eapply wp_lift; [exact Ecs|]. apply wp_bind. apply (wp_free _ _ _ (live m)).
    { by destruct Hm1. }
    intros m2 Hm2. apply wp_ret, HQ; [by eapply after_trans| |].
    + intros E%eq_text_true. by subst.
    + rewrite Hs. intros _ [= ->]. by apply eq_text_true.
  - apply wp_ret, HQ; [|done|].
    + eapply after_eq; [done|]. cbn. multiset_solver.
    + intros Hok. unfold str_value. by rewrite (Hc Hok).
Qed.

(** *** Members *)

(** The first member with a name. *)
Definition has_name (name : list Z) (m : list Z * json) : bool := bool_decide (str_value m.1 = Some name).
Fixpoint find_member (name : list Z) (ms : list (list Z * json)) : option json :=
  match ms with
  | [] => None
  | m :: ms => if has_name name m then Some m.2 else find_member name ms
  end.

(** What a search for a name gives: a member with that name, the first one
    unless memory ran out, or nothing. *)
Definition searched (ok : Prop) (name : list Z) (ms : list (list Z * json))
    (r : Z * option retro_vault_json_value) : Prop :=
  ((exists t v, r = (1, Some v) /\ shows v t /\ exists k, (k, t) ∈ ms /\ str_value k = Some name /\
      (ok -> find_member name ms = Some t)) \/
   (r = (0, None) /\ (ok -> find_member name ms = None))).

Lemma searched_skip ok name k t ms r : (ok -> str_value k <> Some name) ->
  searched ok name ms r -> searched ok name ((k, t) :: ms) r.
Proof.
  intros Hk [(t' & v & -> & Hv & k' & Hin & Hn & Hf)|[-> Hf]]; [left|right].
  - exists t', v. split_and!; [done|done|]. exists k'. split_and!; [by constructor|done|]. intros Hok.
    cbn [find_member]. unfold has_name. cbn [fst]. rewrite bool_decide_false by auto. auto.
  - split; [done|]. intros Hok. cbn [find_member]. unfold has_name. cbn [fst].
    rewrite bool_decide_false by auto. auto.
Qed.

(** A rendering in the document is parsed to a value that shows its tree. *)
Lemma parse_shows t s p e w rest :
  renders t s -> (levels t <= 33)%nat -> ws w -> stops t rest -> at_ p e (w ++ s ++ rest) ->
  exists v, parse_value doc p e = Some (Some (v, p + zlen w + zlen s)) /\ shows v t /\
    at_ (p + zlen w + zlen s) e rest.
Proof.
  intros Hr Hl Hw Hst Ha. exists (JsonValue (p + zlen w) (p + zlen w + zlen s) (kind t)). split_and!.
  - by apply (proj1 (rendering_accepted doc doc_ok) t s Hr _ p e w rest).
  - apply at_next, at_app in Ha as [Ha _]. by exists s.
  - by do 2 apply at_next in Ha.
Qed.

(** The last value of a list: white space or nothing follows. *)
Definition separated (tail : list Z) : Prop := tail = [] \/ exists rest, tail = 44 :: rest.
Lemma stops_separated t w tail : ws w -> separated tail -> stops t (w ++ tail).
Proof.
  intros Hw [->|[rest ->]]; [|by apply stops_next]. rewrite app_nil_r. destruct t; try done. by apply ws_no_number.
Qed.
Lemma skip_separated w tail p e : ws w -> separated tail -> at_ p e (w ++ tail) ->
  skip_space doc p e = Some (p + zlen w) /\ at_ (p + zlen w) e tail.
Proof.
  intros Hw Ht Ha. split; [|by apply at_next in Ha].
  apply (skip_space_spec doc doc_ok w tail); [done|by destruct Ht as [->|[rest ->]]|done].
Qed.

(** One turn of the search: the key is compared, and what follows decides. *)
Lemma member_turn k t s tail p e name fuel (Q : Z * option retro_vault_json_value -> mem -> Prop) m :
  member k t s -> (levels t <= 33)%nat -> separated tail -> at_ p e (s ++ tail) ->
  (forall key mv, shows key (JString k) -> shows mv t ->
   wp (json_string_matches doc key name) (fun r m' =>
     if r : bool then Q (1, Some mv) m'
     else match tail with
          | [] => Q (0, None) m'
          | _ => wp (member_loop doc fuel (p + zlen s + 1) e name) Q m'
          end) m) ->
  wp (member_loop doc (S fuel) p e name) Q m.
Proof.
  intros Hm Hl Ht Ha Hgo. destruct Hm as [k t w0 w1 w2 sv w3 Hw0 Hk Hw1 Hw2 Hv Hw3].
  rewrite <- !app_assoc in Ha. cbn [member_loop].
  assert (Hkey : renders (JString k) (quoted k)) by (by constructor).
  apply wp_bind. eapply wp_lift.
  { by apply (skip_value doc doc_ok (JString k) w0 (quoted k)) in Ha. }
  apply at_next in Ha. pose proof (at_len doc _ _ _ Ha) as Hlen. unfold quoted in Hlen at 1. cbn [app] in Hlen.
  rewrite zlen_cons in Hlen.
  match type of Hlen with _ = 1 + zlen ?x => pose proof (zlen_nonneg x) end.
  destruct (Z.leb_spec e (p + zlen w0)); [lia|].
  destruct (parse_shows (JString k) (quoted k) _ e [] _ Hkey ltac:(cbn; lia) ltac:(constructor) I Ha)
    as (key & Ek & Hks & Ha1).
  apply wp_bind. eapply wp_lift; [exact Ek|]. cbv beta iota. rewrite (shows_type key _ Hks). cbn [kind].
  rewrite bool_decide_true by done. cbn [negb]. rewrite zlen_nil, Z.add_0_r in *.
  cbn [app] in Ha1. apply wp_bind. eapply wp_lift; [by eapply (skip_to doc doc_ok w1 58)|].
  apply at_next in Ha1. apply wp_bind. eapply wp_lift; [by eapply at_char_cons|]. cbn [Z.eqb Pos.eqb negb].
  apply at_cons in Ha1 as (_ & Ha1 & _ & _). rewrite <- !app_assoc in Ha1.
  destruct (parse_shows t sv _ e w2 (w3 ++ tail) Hv Hl Hw2 ltac:(by apply stops_separated) Ha1)
    as (mv & Em & Hms & Ha2).
  apply wp_bind. eapply wp_lift; [exact Em|]. cbv beta iota. apply wp_bind.
  eapply wp_mono; [by apply (Hgo key mv)|]. intros [] m' HQ; cbv beta iota in HQ; [by apply wp_ret|].
  destruct (skip_separated w3 tail _ _ Hw3 Ht Ha2) as [Es Ha3].
  apply wp_bind. eapply wp_lift; [exact Es|]. apply wp_bind.
  destruct Ht as [->|[rest ->]].
  - eapply wp_lift; [by apply at_char_nil|]. apply at_nil in Ha3 as Ha4. rewrite Ha4, Z.eqb_refl. by apply wp_ret.
  - eapply wp_lift; [by eapply at_char_cons|]. cbn [Z.eqb Pos.eqb].
    match goal with |- wp (member_loop _ _ ?q _ _) _ _ =>
      replace q with (p + zlen (w0 ++ quoted k ++ w1 ++ 58 :: w2 ++ sv ++ w3) + 1)
        by (rewrite !zlen_app, zlen_cons, !zlen_app; lia) end. done.
Qed.

Lemma member_loop_spec ms : forall s p e name fuel (Q : Z * option retro_vault_json_value -> mem -> Prop) m m0,
  members ms s -> shallow 33 (map snd ms) -> at_ p e s -> (length s < fuel)%nat ->
  after m0 m (live m0) ->
  (forall r m', after m0 m' (live m0) -> searched (memory_ok m0) name ms r -> Q r m') ->
  wp (member_loop doc fuel p e name) Q m.
Proof.
  induction ms as [|[k t] ms IH]; intros s p e name fuel Q m m0 Hms Hsh Ha Hf Hm HQ; [by inversion Hms|].
  destruct fuel as [|fuel]; [lia|]. inversion Hsh as [|? ? Hlt Hsh']; subst.
  assert (Hmatch : forall key mv m', shows key (JString k) -> shows mv t -> after m0 m' (live m0) ->
    (str_value k = Some name -> Q (1, Some mv) m')).
  { intros key mv m' Hk Hv Hm' Hn. apply HQ; [done|]. left. exists t, mv. split_and!; [done|done|].
    exists k. split_and!; [constructor|done|]. intros _. cbn [find_member]. unfold has_name. cbn [fst].
    by rewrite bool_decide_true. }
  assert (Hlive : live m = live m0) by (by destruct Hm).
  assert (Hm' : forall m', after m m' (live m) -> after m0 m' (live m0)).
  { intros m' H. eapply after_trans; [exact Hm|]. by rewrite <- Hlive. }
  inversion Hms as [? ? ? Hmem|? ? ? s1 rest Hmem Hrest]; subst.
  - apply (member_turn k t s [] p e name fuel Q m); [done|done|by left|by rewrite app_nil_r|].
    intros key mv Hk Hv. apply (matches_spec key k); [done|]. intros [] m1 Hm1 H1 H2; [by eapply Hmatch; eauto|].
    apply HQ; [by apply Hm'|]. right. split; [done|]. intros Hok. cbn [find_member]. unfold has_name. cbn [fst].
    rewrite bool_decide_false; [done|]. intros Hn. discriminate (H2 (after_ok _ _ _ Hm Hok) Hn).
  - apply (member_turn k t s1 (44 :: rest) p e name fuel Q m); [done|done|right; by exists rest|done|].
    intros key mv Hk Hv. apply (matches_spec key k); [done|]. intros [] m1 Hm1 H1 H2; [by eapply Hmatch; eauto|].
    apply at_next in Ha. apply at_cons in Ha as (_ & Ha & _). rewrite length_app in Hf. cbn in Hf.
    apply (IH rest _ e name fuel Q m1 m0); try done; [lia|by apply Hm'|]. intros r m2 Hm2 Hr. apply HQ; [done|].
    apply searched_skip; [|done]. intros Hok Hn. discriminate (H2 (after_ok _ _ _ Hm Hok) Hn).
Qed.

Lemma get_member_spec v ms name (Q : Z * option retro_vault_json_value -> mem -> Prop) m :
  shows v (JObject ms) ->
  (forall r m', after m m' (live m) -> searched (memory_ok m) name ms r -> Q r m') ->
  wp (get_retro_vault_json_member doc v name) Q m.
Proof.
  intros (s & Ha & Hr & Hty & Hl) HQ. unfold get_retro_vault_json_member. rewrite Hty. cbn [kind].
  rewrite bool_decide_true by done. cbn [negb]. pose proof (at_len doc _ _ _ Ha) as Hlen.
  assert (Hbody : exists body, at_ (v_start v + 1) (v_end v - 1) body /\ zlen body + 2 = v_end v - v_start v /\
    ((ms = [] /\ ws body) \/ members ms body)).
  { inversion Hr as [| | | | | | |w Hw|m1 ms1 s1 Hms]; subst.
    - exists w. apply at_cons in Ha as (_ & Ha & _). apply at_app in Ha as [Ha _].
      rewrite Hlen, zlen_cons, zlen_app, zlen_cons, zlen_nil in *.
      replace (v_end v - 1) with (v_start v + 1 + zlen w) by lia. split_and!; [done|lia|by left].
    - exists s1. apply at_cons in Ha as (_ & Ha & _). apply at_app in Ha as [Ha _].
      rewrite Hlen, zlen_cons, zlen_app, zlen_cons, zlen_nil in *.
      replace (v_end v - 1) with (v_start v + 1 + zlen s1) by lia. split_and!; [done|lia|by right]. }
  destruct Hbody as (body & Hb & Hbl & [[-> Hw]|Hms]).
  - cbn [member_loop]. apply wp_bind. rewrite <- (app_nil_r body) in Hb.
    destruct (skip_separated body [] _ _ Hw (or_introl eq_refl) Hb) as [Es He].
    eapply wp_lift; [exact Es|]. apply at_nil in He. destruct (Z.leb_spec (v_end v - 1) (v_start v + 1 + zlen body)); [|lia].
    apply wp_ret, HQ; [apply after_refl|]. by right.
  - eapply (member_loop_spec ms body _ _ name _ Q m m); [done| |done| |apply after_refl|done].
    + cbn [levels] in Hl. apply shallow_foldr_members. lia.
    + unfold zlen in Hbl. lia.
Qed.

(** Members are asked of objects only. *)
Lemma get_member_other v t name : shows v t -> kind t <> retro_vault_json_object ->
  forall m, get_retro_vault_json_member doc v name m = Some ((-1, None), m).
Proof.
  intros Hv Ht m. unfold get_retro_vault_json_member. rewrite (shows_type v t Hv). by rewrite bool_decide_false.
Qed.

(** *** Elements *)

(** The elements an iterator still has to give. *)
Definition iter_at (it : retro_vault_json_iterator) (vs : list json) : Prop :=
  if it_finished it then vs = []
  else shallow 33 vs /\ exists s, at_ (it_cursor it) (it_end it) s /\ ((vs = [] /\ ws s) \/ items vs s).

Lemma iterator_init v vs : shows v (JArray vs) ->
  exists it, init_retro_vault_json_array_iterator v = Some it /\ iter_at it vs.
Proof.
  intros (s & Ha & Hr & Hty & Hl). unfold init_retro_vault_json_array_iterator. rewrite Hty. cbn [kind].
  rewrite bool_decide_true by done. eexists. split; [done|]. cbn [iter_at it_finished it_cursor it_end].
  pose proof (at_len doc _ _ _ Ha) as Hlen. split; [cbn [levels] in Hl; apply shallow_foldr; lia|].
  inversion Hr as [| | | | |w Hw|v1 vs1 s1 Hi| |]; subst; [exists w|exists s1];
    apply at_cons in Ha as (_ & Ha & _); apply at_app in Ha as [Ha _];
    rewrite zlen_cons, zlen_app, zlen_cons, zlen_nil in Hlen.
  - replace (v_end v - 1) with (v_start v + 1 + zlen w) by lia. split; [done|by left].
  - replace (v_end v - 1) with (v_start v + 1 + zlen s1) by lia. split; [done|by right].
Qed.
Lemma iterator_init_other v t : shows v t -> kind t <> retro_vault_json_array ->
  init_retro_vault_json_array_iterator v = None.
Proof.
  intros Hv Ht. unfold init_retro_vault_json_array_iterator. rewrite (shows_type v t Hv). by rewrite bool_decide_false.
Qed.

(** One element, followed by a comma and the other elements, or by the end. *)
Lemma iterator_turn it t vs w sv w' tail :
  it_finished it = false -> at_ (it_cursor it) (it_end it) (w ++ sv ++ w' ++ tail) ->
  ws w -> renders t sv -> ws w' -> shallow 33 (t :: vs) ->
  (tail = [] /\ vs = []) \/ (exists rest, tail = 44 :: rest /\ items vs rest) ->
  exists v it', next_retro_vault_json_array_value doc it = Some (1, Some v, it') /\ shows v t /\ iter_at it' vs.
Proof.
  intros Hfin Ha Hw Hr Hw' Hsh Htail. unfold next_retro_vault_json_array_value. rewrite Hfin.
  assert (Hsep : separated tail) by (destruct Htail as [[-> _]|(rest & -> & _)]; [by left|right; by exists rest]).
  inversion Hsh as [|? ? Hlt Hsh']; subst.
  rewrite (skip_value doc doc_ok t w sv (w' ++ tail)) by done. apply at_next in Ha.
  assert (Hlt' : it_cursor it + zlen w < it_end it).
  { destruct (renders_head t sv Hr) as (c & sv' & -> & _). cbn [app] in Ha. by apply at_cons in Ha as (_ & _ & ? & _). }
  destruct (Z.leb_spec (it_end it) (it_cursor it + zlen w)); [lia|].
  destruct (parse_shows t sv _ (it_end it) [] (w' ++ tail) Hr Hlt ltac:(constructor)
    ltac:(by apply stops_separated) Ha) as (v & -> & Hv & Ha1).
  destruct (skip_separated w' tail _ _ Hw' Hsep Ha1) as [-> Ha2]. exists v.
  destruct Htail as [[-> ->]|(rest & -> & Hi)].
  - apply at_nil in Ha2 as Hend. rewrite Hend, Z.ltb_irrefl. by eexists.
  - apply at_cons in Ha2 as (-> & Ha2 & Hlt2 & _). rewrite (proj2 (Z.ltb_lt _ _) Hlt2).
    cbn [Z.eqb Pos.eqb negb]. eexists. split; [done|]. split; [done|]. unfold iter_at. cbn. split; [done|].
    exists rest. split; [done|by right].
Qed.

(** The iterator enumerates the elements in order and then says 0. *)
Lemma iterator_next it vs : iter_at it vs ->
  match vs with
  | [] => exists it', next_retro_vault_json_array_value doc it = Some (0, None, it') /\ iter_at it' []
  | t :: vs => exists v it', next_retro_vault_json_array_value doc it = Some (1, Some v, it') /\
      shows v t /\ iter_at it' vs
  end.
Proof.
  unfold iter_at at 1. destruct (it_finished it) eqn:Hfin.
  { intros ->. exists it. unfold next_retro_vault_json_array_value, iter_at. by rewrite Hfin. }
  intros (Hsh & s & Ha & [[-> Hw]|Hi]).
  - unfold next_retro_vault_json_array_value. rewrite Hfin. rewrite <- (app_nil_r s) in Ha.
    destruct (skip_separated s [] _ _ Hw (or_introl eq_refl) Ha) as [-> He].
    apply at_nil in He. destruct (Z.leb_spec (it_end it) (it_cursor it + zlen s)); [|lia]. by eexists.
  - inversion Hi as [t w sv w' Hw Hr Hw'|t vs' w sv w' rest Hw Hr Hw' Hrest]; subst.
    + apply (iterator_turn it t [] w sv w' []); try done; [by rewrite app_nil_r|by left].
    + apply (iterator_turn it t vs' w sv w' (44 :: rest)); try done. right; by exists rest.
Qed.

(** *** Numbers *)

Definition number_value (raw : list Z) : option Z :=
  if forallb isdigit raw && (zlen raw <? 32) && (decimal raw <? 2 ^ 64) then Some (decimal raw) else None.

Lemma span_split p s : exists a b, span p s = (a, b) /\ s = a ++ b /\ Forall (fun c => p c = true) a.
Proof.
  induction s as [|c s (a & b & E & -> & Ha)]; [by exists [], []|]. cbn [span]. destruct (p c) eqn:Ec.
  - rewrite E. exists (c :: a), b. split_and!; [done|done|by constructor].
  - by exists [], (c :: a ++ b).
Qed.
Lemma strtoul_number c r : isdigit c = true ->
  strtoul (c :: r) =
    let '(ds, tail) := span isdigit (c :: r) in
    if decimal ds <? 2 ^ 64 then (decimal ds, tail, false) else (2 ^ 64 - 1, tail, true).
Proof.
  intros Hd. unfold strtoul.
  assert (Hc : c = 48 \/ c = 49 \/ c = 50 \/ c = 51 \/ c = 52 \/ c = 53 \/ c = 54 \/ c = 55 \/ c = 56 \/ c = 57).
  { unfold isdigit in Hd. lia. }
  assert (Hsp : skip_while isspace (c :: r) = c :: r).
  { cbn [skip_while]. unfold isspace. destruct (Z.eqb_spec c 32), (Z.leb_spec c 13); try lia. by rewrite andb_false_r. }
  rewrite Hsp.
  assert (Hsign : (match c :: r with
    | 45 :: r => (true, r) | 43 :: r => (false, r) | _ => (false, c :: r) end) = (false, c :: r)).
  { by repeat destruct Hc as [->|Hc]; [..|subst c]. }
  rewrite Hsign. cbn [span]. rewrite Hd. by destruct (span isdigit r).
Qed.
Lemma before_nul_all s : Forall (fun c => isdigit c = true) s -> before_nul s = s.
Proof.
  induction 1 as [|c s Hc _ IH]; [done|]. cbn. unfold isdigit in Hc. destruct (Z.eqb_spec c 0); [lia|]. by rewrite IH.
Qed.

(** What is read from the digits at the front of a number. *)
Lemma read_digits raw c n : raw = c :: n -> isdigit c = true ->
  (let '(parsed, tail, range) := strtoul (before_nul raw) in
   if (range : bool) || negb (zlen (before_nul raw) - zlen tail =? zlen raw) then None else Some parsed) =
  if forallb isdigit raw && (decimal raw <? 2 ^ 64) then Some (decimal raw) else None.
Proof.
  intros Eraw Hc.
  assert (Hhead : before_nul raw = c :: before_nul n).
  { subst. cbn. unfold isdigit in Hc. by destruct (Z.eqb_spec c 0); [lia|]. }
  rewrite Hhead at 1. rewrite strtoul_number by done. rewrite <- Hhead.
  destruct (forallb isdigit raw) eqn:Hall; cbn [andb].
  - assert (Hf : Forall (fun x => isdigit x = true) raw).
    { apply Forall_forall. intros x Hx. rewrite forallb_forall in Hall. apply Hall. by apply list_elem_of_In. }
    rewrite before_nul_all, span_all by done. destruct (decimal raw <? 2 ^ 64); [|done].
    by rewrite zlen_nil, Z.sub_0_r, Z.eqb_refl.
  - destruct (span_split isdigit (before_nul raw)) as (ds & tail & -> & E & Hds).
    destruct (before_nul_prefix raw) as [rest Er].
    assert (Hne : zlen (before_nul raw) - zlen tail <> zlen raw).
    { intros Hz. assert (Hr : zlen raw = zlen ds + zlen tail + zlen rest) by (rewrite Er at 1; rewrite E, !zlen_app; lia).
      rewrite E, zlen_app in Hz. pose proof (zlen_nonneg tail). pose proof (zlen_nonneg rest).
      assert (rest = []) as -> by (apply zlen_nil_inv; lia). assert (tail = []) as -> by (apply zlen_nil_inv; lia).
      rewrite E, !app_nil_r in Er. subst ds. apply not_true_iff_false in Hall. apply Hall, forallb_forall.
      intros x Hx%list_elem_of_In. by apply (Forall_elem _ _ _ Hds). }
    destruct (decimal ds <? 2 ^ 64); [|done]. by destruct (Z.eqb_spec (zlen (before_nul raw) - zlen tail) (zlen raw)).
Qed.

Lemma uint64_spec v raw : shows v (JNumber raw) -> get_retro_vault_json_uint64 doc v = Some (number_value raw).
Proof.
  intros (s & Ha & Hr & Hty & _). assert (s = raw /\ number_ok raw) as [-> Hn] by (by inversion Hr).
  unfold get_retro_vault_json_uint64. rewrite Hty. cbn [kind]. rewrite bool_decide_true by done. cbn [negb].
  rewrite (at_len doc _ _ _ Ha). destruct Hn as (c & n & Eraw & Hc & _).
  assert (Hpos : 1 <= zlen raw) by (rewrite Eraw, zlen_cons; pose proof (zlen_nonneg n); lia).
  destruct (Z.eqb_spec (zlen raw) 0); [lia|]. cbn [orb]. unfold number_value.
  destruct (Z.leb_spec 32 (zlen raw)).
  { destruct (Z.ltb_spec (zlen raw) 32); [lia|]. by rewrite andb_false_r. }
  destruct (Z.ltb_spec (zlen raw) 32); [|lia]. rewrite andb_true_r.
  pose proof (at_bytes _ _ _ Ha) as Hb. pose proof Ha as Ha1. rewrite Eraw in Ha1. apply at_cons in Ha1 as (-> & _).
  destruct (Z.eqb_spec c 45) as [->|Hc45]; [by rewrite Eraw|]. cbn in Hc.
  pose proof Ha as Ha2. rewrite <- (app_nil_r raw) in Ha2. rewrite (at_rd_bytes _ _ _ _ Ha2).
  assert (Hfit : zlen (raw ++ [0]) <= zlen (uninit 32)).
  { change (zlen (uninit 32)) with 32. rewrite zlen_app, zlen_cons, zlen_nil. lia. }
  rewrite wr_bytes_at by lia.
  assert (Hcs : forall rest, cstring (take (Z.to_nat 0) (uninit 32) ++ (raw ++ [0]) ++ rest) = Some (before_nul raw)).
  { intros rest. rewrite <- app_assoc. by apply cstring_before_nul. }
  rewrite Hcs.
  pose proof (read_digits raw c n Eraw Hc) as Hrd. rewrite <- Hrd.
  destruct (strtoul (before_nul raw)) as [[parsed tail] range]. by destruct (_ || _).
Qed.
Lemma uint64_other v t : shows v t -> kind t <> retro_vault_json_number -> get_retro_vault_json_uint64 doc v = Some None.
Proof.
  intros Hv Ht. unfold get_retro_vault_json_uint64. rewrite (shows_type v t Hv). by rewrite bool_decide_false.
Qed.
Lemma duplicate_other v t : shows v t -> kind t <> retro_vault_json_string ->
  forall m, duplicate_retro_vault_json_string doc v m = Some (None, m).
Proof.
  intros Hv Ht m. unfold duplicate_retro_vault_json_string. rewrite (shows_type v t Hv). by rewrite bool_decide_false.
Qed.

(** A parsed document shows a tree. *)
Lemma document_shows size t v : 0 <= size <= zlen doc -> document doc size t v -> shows v t.
Proof.
  intros Hs (w & s & w' & Ed & Hw & Hw' & Hr & Hl & ->). exists s. split_and!; [|done|done|done].
  pose proof (at_take doc size Hs) as Ha. rewrite Ed in Ha. apply at_next, at_app in Ha as [Ha _]. done.
Qed.
End doc.
