(* ===== verification/Vault.v ===== *)
(** The retrovault service (lib/retrovault/retrovault_core.c): the catalog of
    packages fetched as JSON and kept in memory, the pages of LIST, SEARCH and
    INFO, and the download that is fetched and handed out in pieces.

    Strings and arrays the service allocates are pointers of Heap.v.  The HTTP
    client the context holds is a function; what it may do is said by the
    class [HttpClient] of VaultProps.v. *)
From stdpp Require Import base numbers list option gmultiset strings.
From Stdlib Require Import ZArith Lia.
From S2P Require Import Prelude Wire CLib Heap Json.

Local Open Scope Z_scope.
Local Open Scope squid_scope.

Definition retro_vault_catalog_limit : Z := 4 * 1024 * 1024.
Definition retro_vault_download_limit : Z := 64 * 1024 * 1024.
Definition retro_vault_page_header_size : Z := 5.
Definition retro_vault_download_header_size : Z := 11.
Definition retro_vault_api_path_max : Z := 768.

Definition RETRO_VAULT_PROTOCOL_VERSION : Z := 1.
Definition RETRO_VAULT_OP_CAPABILITIES : Z := 0.
Definition RETRO_VAULT_OP_LIST : Z := 1.
Definition RETRO_VAULT_OP_SEARCH : Z := 2.
Definition RETRO_VAULT_OP_INFO : Z := 3.
Definition RETRO_VAULT_OP_DOWNLOAD : Z := 4.
Definition RETRO_VAULT_RESPONSE_BIT : Z := 128.
Definition RETRO_VAULT_STATUS_OK : Z := 0.
Definition RETRO_VAULT_STATUS_BAD_REQUEST : Z := 1.
Definition RETRO_VAULT_STATUS_API_UNAVAILABLE : Z := 2.
Definition RETRO_VAULT_STATUS_NOT_FOUND : Z := 3.
Definition RETRO_VAULT_STATUS_TOO_LARGE : Z := 4.
Definition RETRO_VAULT_STATUS_INTERNAL_ERROR : Z := 5.
Definition RETRO_VAULT_CURSOR_END : Z := 65535.
Definition RETRO_VAULT_FEATURE_LIST : Z := 1.
Definition RETRO_VAULT_FEATURE_SEARCH : Z := 2.
Definition RETRO_VAULT_FEATURE_INFO : Z := 4.
Definition RETRO_VAULT_FEATURE_DOWNLOAD : Z := 8.
Definition RETRO_VAULT_INFO_ID : Z := 1.
Definition RETRO_VAULT_INFO_NAME : Z := 2.
Definition RETRO_VAULT_INFO_VENDOR : Z := 3.
Definition RETRO_VAULT_INFO_PLATFORM_ID : Z := 4.
Definition RETRO_VAULT_INFO_PLATFORM_NAME : Z := 5.
Definition RETRO_VAULT_INFO_VERSION : Z := 6.
Definition RETRO_VAULT_INFO_YEAR : Z := 7.
Definition RETRO_VAULT_INFO_RATING : Z := 8.
Definition RETRO_VAULT_INFO_DESCRIPTION : Z := 9.
Definition RETRO_VAULT_INFO_DOWNLOAD : Z := 10.
Definition RETRO_VAULT_RATING_UNKNOWN : Z := 0.
Definition RETRO_VAULT_RATING_CURIOUS : Z := 1.
Definition RETRO_VAULT_RATING_AVERAGE : Z := 2.
Definition RETRO_VAULT_RATING_GREAT : Z := 3.
Definition RETRO_VAULT_RATING_LEGENDARY : Z := 4.
Definition RETRO_VAULT_SIZE_UNKNOWN : Z := 4294967295.

Definition retro_vault_http_ok : Z := 0.
Definition retro_vault_http_error : Z := -1.
Definition retro_vault_http_too_large : Z := -2.

Definition UINT16_MAX : Z := 65535.

(** ** Data *)

Record retro_vault_buffer := Buffer {
  b_data : ptr (list Z);
  b_size : Z;
  b_capacity : Z;
  b_limit : Z;
  b_overflowed : bool }.

Record retro_vault_download := Download {
  d_id : ptr (list Z);
  d_label : ptr (list Z);
  d_format : ptr (list Z);
  d_aggregate_size : Z;
  d_file_count : Z }.

Record retro_vault_package := Package {
  p_id : ptr (list Z);
  p_name : ptr (list Z);
  p_vendor : ptr (list Z);
  p_platform_id : ptr (list Z);
  p_platform_name : ptr (list Z);
  p_model_id : ptr (list Z);
  p_model_name : ptr (list Z);
  p_version : ptr (list Z);
  p_description : ptr (list Z);
  p_release_year : Z;
  p_rating : Z;
  p_downloads : ptr (list retro_vault_download);
  p_download_count : Z }.

(** What the service works on: the memory and the world outside, which the
    clock and the HTTP client read and change. *)
Record world (N : Type) := World { w_mem : mem; w_net : N }.
Arguments World {N} _ _.
Arguments w_mem {N} _.
Arguments w_net {N} _.

Definition on_mem {N A} (c : ST mem A) : ST (world N) A := fun w =>
  match c (w_mem w) with
  | Some (a, m) => Some (a, World m (w_net w))
  | None => None
  end.

(** [retro_vault_http_get_fn]: path, size limit, buffer and status code; the
    result, the buffer and the status code. *)
Definition retro_vault_http_get_fn (N : Type) : Type :=
  list Z -> Z -> retro_vault_buffer -> Z -> ST (world N) (Z * retro_vault_buffer * Z).

(** [user_data] is part of the function. *)
Record retro_vault_context (N : Type) := Context {
  http_get : option (retro_vault_http_get_fn N);
  packages : ptr (list retro_vault_package);
  package_count : Z;
  catalog_fetched_at : Z;
  catalog_cache_seconds : Z;
  download_data : retro_vault_buffer;
  download_path : ptr (list Z) }.
Arguments Context {N} _ _ _ _ _ _ _.
Arguments http_get {N} _.
Arguments packages {N} _.
Arguments package_count {N} _.
Arguments catalog_fetched_at {N} _.
Arguments catalog_cache_seconds {N} _.
Arguments download_data {N} _.
Arguments download_path {N} _.

(** The first [count] elements of an array. *)
Definition elements {A} (array : ptr (list A)) (count : Z) : option (list A) :=
  if count =? 0 then Some []
  else match array with
       | Some (_, l) => if count <=? zlen l then Some (take (Z.to_nat count) l) else None
       | None => None
       end.

(** The string a pointer points to; NULL has none. *)
Definition string_at (s : ptr (list Z)) : option (list Z) :=
  match s with Some (_, cells) => cstring cells | None => None end.

(** ** Buffers *)

Definition duplicate_text (text : list Z) : ST mem (ptr (list Z)) := malloc (text ++ [0]).

Definition retro_vault_buffer_init : retro_vault_buffer := Buffer None 0 0 0 false.

Definition retro_vault_buffer_free (buffer : retro_vault_buffer) : ST mem retro_vault_buffer :=
  do! free (b_data buffer); ret retro_vault_buffer_init.

(** The [while] that doubles the capacity; 64 turns reach any [size_t]. *)
Fixpoint grow (fuel : nat) (capacity required limit : Z) : option Z :=
  match fuel with
  | O => None
  | S fuel =>
      if capacity <? required then
        if limit / 2 <? capacity then Some limit else grow fuel (u64 (capacity * 2)) required limit
      else Some capacity
  end.

(** The content of a block of [capacity] bytes that [realloc] makes of the
    old one. *)
Definition resized_cells (data : ptr (list Z)) (capacity : Z) : list Z :=
  let old := match data with Some (_, cells) => cells | None => [] end in
  take (Z.to_nat capacity) (old ++ uninit (capacity - zlen old)).

(** [data] NULL is [None]. *)
Definition retro_vault_buffer_append (buffer : retro_vault_buffer) (data : option (list Z)) (size : Z)
    : ST mem (retro_vault_buffer * Z) :=
  if match data with None => 0 <? size | Some _ => false end then ret (buffer, -1)
  else if (b_limit buffer <? size) || (b_limit buffer - size <? b_size buffer) then
    ret (Buffer (b_data buffer) (b_size buffer) (b_capacity buffer) (b_limit buffer) true, -1)
  else
    let required := u64 (b_size buffer + size) in
    let! '(buffer, failed) :=
      if b_capacity buffer <? required then
        let! capacity :=
          lift (grow 64 (if 0 <? b_capacity buffer then b_capacity buffer else 4096) required
                  (b_limit buffer)) in
        let! resized := realloc (b_data buffer) (resized_cells (b_data buffer) capacity) in
        match resized with
        | None => ret (buffer, true)
        | Some _ =>
            ret (Buffer resized (b_size buffer) capacity (b_limit buffer) (b_overflowed buffer), false)
        end
      else ret (buffer, false) in
    if (failed : bool) then ret (buffer, -1)
    else if 0 <? size then
      match b_data buffer, data with
      | Some (b, cells), Some bytes =>
          let! bytes := lift (rd_bytes bytes 0 size) in
          let! cells := lift (wr_bytes cells (b_size buffer) bytes) in
          ret (Buffer (Some (b, cells)) (u64 (b_size buffer + size)) (b_capacity buffer)
                 (b_limit buffer) (b_overflowed buffer), 0)
      | _, _ => lift None
      end
    else ret (buffer, 0).

(** ** Releasing the catalog *)

Definition free_download (download : retro_vault_download) : ST mem unit :=
  do! free (d_id download);
  do! free (d_label download);
  free (d_format download).

Fixpoint free_each {A} (release : A -> ST mem unit) (l : list A) : ST mem unit :=
  match l with
  | [] => ret tt
  | x :: l => do! release x; free_each release l
  end.

Definition free_package (package : retro_vault_package) : ST mem unit :=
  do! free (p_id package);
  do! free (p_name package);
  do! free (p_vendor package);
  do! free (p_platform_id package);
  do! free (p_platform_name package);
  do! free (p_model_id package);
  do! free (p_model_name package);
  do! free (p_version package);
  do! free (p_description package);
  let! downloads := lift (elements (p_downloads package) (p_download_count package)) in
  do! free_each free_download downloads;
  free (p_downloads package).

Definition free_packages (packages : ptr (list retro_vault_package)) (package_count : Z) : ST mem unit :=
  let! l := lift (elements packages package_count) in
  do! free_each free_package l;
  free packages.

Definition init_retro_vault_context {N} (http : option (retro_vault_http_get_fn N))
    : retro_vault_context N :=
  Context http None 0 0 3600 retro_vault_buffer_init None.

Definition free_retro_vault_context {N} (context : retro_vault_context N)
    : ST mem (retro_vault_context N) :=
  do! free_packages (packages context) (package_count context);
  let! _ := retro_vault_buffer_free (download_data context) in
  do! free (download_path context);
  ret (Context None None 0 0 0 retro_vault_buffer_init None).

(** ** Reading the catalog *)

Section catalog.
(** The document the values point into. *)
Variable doc : list Z.

(** Whether the first character is NUL. *)
Definition is_empty (text : ptr (list Z)) : option bool :=
  match text with
  | None => None
  | Some (_, cells) => let? c := rd cells 0 in Some (c =? 0)
  end.

(** The result and [*text], NULL before the call. *)
Definition get_json_string_member (object : retro_vault_json_value) (name : list Z) (required : bool)
    : ST mem (Z * ptr (list Z)) :=
  let! '(found, value) := get_retro_vault_json_member doc object name in
  if found <? 0 then ret (-1, None)
  else
    match value with
    | Some value =>
        if bool_decide (v_type value = retro_vault_json_null) then
          let! text := duplicate_text [] in
          ret (if required then -1 else 0, text)
        else if negb (bool_decide (v_type value = retro_vault_json_string)) then ret (-1, None)
        else
          let! text := duplicate_retro_vault_json_string doc value in
          match text with
          | None => do! free text; ret (-1, None)
          | Some _ =>
              let! empty := lift (is_empty text) in
              if required && empty then do! free text; ret (-1, None) else ret (0, text)
          end
    | None =>
        let! text := duplicate_text [] in
        ret (if required then -1 else 0, text)
    end.

(** The result, the number and whether it is known. *)
Definition get_json_uint64_member (object : retro_vault_json_value) (name : list Z)
    : ST mem (Z * Z * bool) :=
  let! '(found, value) := get_retro_vault_json_member doc object name in
  if found <? 0 then ret (-1, 0, false)
  else
    match value with
    | None => ret (0, 0, false)
    | Some value =>
        if bool_decide (v_type value = retro_vault_json_null) then ret (0, 0, false)
        else
          let! number := lift (get_retro_vault_json_uint64 doc value) in
          match number with
          | None => ret (-1, 0, false)
          | Some number => ret (0, number, true)
          end
    end.

(** [rating] NULL is [None]. *)
Definition parse_rating (rating : option (list Z)) : Z :=
  match rating with
  | None => RETRO_VAULT_RATING_UNKNOWN
  | Some rating =>
      if eq_text rating (text "Curious") then RETRO_VAULT_RATING_CURIOUS
      else if eq_text rating (text "Average") then RETRO_VAULT_RATING_AVERAGE
      else if eq_text rating (text "Great") then RETRO_VAULT_RATING_GREAT
      else if eq_text rating (text "Legendary") then RETRO_VAULT_RATING_LEGENDARY
      else RETRO_VAULT_RATING_UNKNOWN
  end.

(** One file: the number of files, whether all sizes are known and their sum. *)
Definition count_file (counted : Z * bool * Z) (size : Z) (known : bool) : Z * bool * Z :=
  let '(file_count, all_sizes_known, total) := counted in
  let file_count := if file_count <? UINT8_MAX then file_count + 1 else file_count in
  if negb known || (u64 (UINT32_MAX - size) <? total) then (file_count, false, total)
  else (file_count, all_sizes_known, u64 (total + size)).

(** The [while] over the files; an array has fewer elements than characters. *)
Fixpoint files_loop (fuel : nat) (iterator : retro_vault_json_iterator) (counted : Z * bool * Z)
    : ST mem (option (Z * bool * Z)) :=
  match fuel with
  | O => lift None
  | S fuel =>
      let! '(result, file, iterator) := lift (next_retro_vault_json_array_value doc iterator) in
      match file with
      | Some file =>
          if result <=? 0 then ret None
          else if negb (bool_decide (v_type file = retro_vault_json_object)) then ret None
          else
            let! '(result, size, known) := get_json_uint64_member file (text "sizeBytes") in
            if negb (result =? 0) then ret None
            else files_loop fuel iterator (count_file counted size known)
      | None => ret (if result <? 0 then None else Some counted)
      end
  end.

(** The file count and the aggregate size; [None] is -1. *)
Definition parse_download_files (download_object : retro_vault_json_value) : ST mem (option (Z * Z)) :=
  let! '(result, files) := get_retro_vault_json_member doc download_object (text "files") in
  match files with
  | Some files =>
      if result <=? 0 then ret None
      else if negb (bool_decide (v_type files = retro_vault_json_array)) then ret None
      else
        match init_retro_vault_json_array_iterator files with
        | None => ret None
        | Some iterator =>
            let! counted := files_loop (S (Z.to_nat (v_end files - v_start files))) iterator (0, true, 0) in
            match counted with
            | None => ret None
            | Some (file_count, all_sizes_known, total) =>
                ret (Some (file_count, if all_sizes_known then u32 total else RETRO_VAULT_SIZE_UNKNOWN))
            end
        end
  | None => ret None
  end.

(** The string members of a record, in the order of the [||] that reads them;
    it ends at the first failure, with what was stored so far. *)
Fixpoint read_strings {T} (object : retro_vault_json_value)
    (fields : list (list Z * bool * (T -> ptr (list Z) -> T))) (record : T) : ST mem (bool * T) :=
  match fields with
  | [] => ret (true, record)
  | (name, required, store) :: fields =>
      let! '(result, text) := get_json_string_member object name required in
      let record := store record text in
      if negb (result =? 0) then ret (false, record) else read_strings object fields record
  end.

(** Storing at [&download->id] and the other members. *)
Definition zero_download : retro_vault_download := Download None None None 0 0.
Definition set_d_id d x := Download x (d_label d) (d_format d) (d_aggregate_size d) (d_file_count d).
Definition set_d_label d x := Download (d_id d) x (d_format d) (d_aggregate_size d) (d_file_count d).
Definition set_d_format d x := Download (d_id d) (d_label d) x (d_aggregate_size d) (d_file_count d).
Definition download_strings : list (list Z * bool * (retro_vault_download -> ptr (list Z) -> retro_vault_download)) :=
  [(text "id", true, set_d_id); (text "label", true, set_d_label); (text "format", true, set_d_format)].

(** [None] is -1, with the record released. *)
Definition parse_download (object : retro_vault_json_value) : ST mem (option retro_vault_download) :=
  if negb (bool_decide (v_type object = retro_vault_json_object)) then
    do! free_download zero_download; ret None
  else
    let! '(ok, download) := read_strings object download_strings zero_download in
    if negb ok then do! free_download download; ret None
    else
      let! files := parse_download_files object in
      match files with
      | None => do! free_download download; ret None
      | Some (file_count, aggregate_size) =>
          ret (Some (Download (d_id download) (d_label download) (d_format download)
                       aggregate_size file_count))
      end.

(** The [while] over the downloads: the result, the array and the count. *)
Fixpoint downloads_loop (fuel : nat) (iterator : retro_vault_json_iterator)
    (downloads : ptr (list retro_vault_download)) (download_count : Z)
    : ST mem (Z * ptr (list retro_vault_download) * Z) :=
  match fuel with
  | O => lift None
  | S fuel =>
      let! '(result, item, iterator) := lift (next_retro_vault_json_array_value doc iterator) in
      match item with
      | Some item =>
          if result <=? 0 then ret (-1, downloads, download_count)
          else
            let! old := lift (elements downloads download_count) in
            (* the array with room for one more, which [parse_download] fills *)
            let! resized := realloc downloads old in
            match resized with
            | None => ret (-1, downloads, download_count)
            | Some (b, old) =>
                let! download := parse_download item in
                match download with
                | None => ret (-1, resized, download_count)
                | Some download =>
                    downloads_loop fuel iterator (Some (b, old ++ [download])) (download_count + 1)
                end
            end
      | None => ret (if result <? 0 then -1 else 0, downloads, download_count)
      end
  end.

Definition parse_downloads (object : retro_vault_json_value)
    : ST mem (Z * ptr (list retro_vault_download) * Z) :=
  let! '(found, downloads) := get_retro_vault_json_member doc object (text "downloads") in
  if found <? 0 then ret (-1, None, 0)
  else
    match downloads with
    | None => ret (0, None, 0)
    | Some downloads =>
        if bool_decide (v_type downloads = retro_vault_json_null) then ret (0, None, 0)
        else if negb (bool_decide (v_type downloads = retro_vault_json_array)) then ret (-1, None, 0)
        else
          match init_retro_vault_json_array_iterator downloads with
          | None => ret (-1, None, 0)
          | Some iterator =>
              downloads_loop (S (Z.to_nat (v_end downloads - v_start downloads))) iterator None 0
          end
    end.

(** The package and the local [rating]. *)
Definition zero_package : retro_vault_package :=
  Package None None None None None None None None None 0 0 None 0.
Definition with_strings (p : retro_vault_package) a b c d e f g h i : retro_vault_package :=
  Package a b c d e f g h i (p_release_year p) (p_rating p) (p_downloads p) (p_download_count p).
Definition on_package (f : retro_vault_package -> ptr (list Z) -> retro_vault_package)
    (r : retro_vault_package * ptr (list Z)) (x : ptr (list Z)) : retro_vault_package * ptr (list Z) :=
  (f r.1 x, r.2).
Definition package_strings
    : list (list Z * bool * (retro_vault_package * ptr (list Z) -> ptr (list Z) -> retro_vault_package * ptr (list Z))) :=
  [(text "id", true, on_package (fun p x => with_strings p x (p_name p) (p_vendor p) (p_platform_id p)
      (p_platform_name p) (p_model_id p) (p_model_name p) (p_version p) (p_description p)));
   (text "name", true, on_package (fun p x => with_strings p (p_id p) x (p_vendor p) (p_platform_id p)
      (p_platform_name p) (p_model_id p) (p_model_name p) (p_version p) (p_description p)));
   (text "vendor", false, on_package (fun p x => with_strings p (p_id p) (p_name p) x (p_platform_id p)
      (p_platform_name p) (p_model_id p) (p_model_name p) (p_version p) (p_description p)));
   (text "platformId", false, on_package (fun p x => with_strings p (p_id p) (p_name p) (p_vendor p) x
      (p_platform_name p) (p_model_id p) (p_model_name p) (p_version p) (p_description p)));
   (text "platformName", false, on_package (fun p x => with_strings p (p_id p) (p_name p) (p_vendor p)
      (p_platform_id p) x (p_model_id p) (p_model_name p) (p_version p) (p_description p)));
   (text "modelId", false, on_package (fun p x => with_strings p (p_id p) (p_name p) (p_vendor p)
      (p_platform_id p) (p_platform_name p) x (p_model_name p) (p_version p) (p_description p)));
   (text "modelName", false, on_package (fun p x => with_strings p (p_id p) (p_name p) (p_vendor p)
      (p_platform_id p) (p_platform_name p) (p_model_id p) x (p_version p) (p_description p)));
   (text "version", false, on_package (fun p x => with_strings p (p_id p) (p_name p) (p_vendor p)
      (p_platform_id p) (p_platform_name p) (p_model_id p) (p_model_name p) x (p_description p)));
   (text "description", false, on_package (fun p x => with_strings p (p_id p) (p_name p) (p_vendor p)
      (p_platform_id p) (p_platform_name p) (p_model_id p) (p_model_name p) (p_version p) x));
   (text "rating", false, fun r x => (r.1, x))].

Definition with_downloads (p : retro_vault_package) downloads count : retro_vault_package :=
  Package (p_id p) (p_name p) (p_vendor p) (p_platform_id p) (p_platform_name p) (p_model_id p)
    (p_model_name p) (p_version p) (p_description p) (p_release_year p) (p_rating p) downloads count.
Definition with_facts (p : retro_vault_package) year rating : retro_vault_package :=
  Package (p_id p) (p_name p) (p_vendor p) (p_platform_id p) (p_platform_name p) (p_model_id p)
    (p_model_name p) (p_version p) (p_description p) year rating (p_downloads p) (p_download_count p).

Definition parse_package_fail (package : retro_vault_package) (rating : ptr (list Z))
    : ST mem (option retro_vault_package) :=
  do! free rating; do! free_package package; ret None.

Definition parse_package (object : retro_vault_json_value) : ST mem (option retro_vault_package) :=
  if negb (bool_decide (v_type object = retro_vault_json_object)) then
    parse_package_fail zero_package None
  else
    let! '(ok, (package, rating)) := read_strings object package_strings (zero_package, None) in
    if negb ok then parse_package_fail package rating
    else
      let! '(result, year, year_known) := get_json_uint64_member object (text "releaseYear") in
      if negb (result =? 0) then parse_package_fail package rating
      else
        let! '(result, downloads, download_count) := parse_downloads object in
        let package := with_downloads package downloads download_count in
        if negb (result =? 0) then parse_package_fail package rating
        else
          let! rating_text :=
            lift (match rating with None => Some None | Some _ => Some <$> string_at rating end) in
          do! free rating;
          ret (Some (with_facts package
                       (if year_known && (year <=? UINT16_MAX) then u16 year else 0)
                       (parse_rating rating_text))).

(** The [while] over the packages: [None] is -1, with everything released. *)
Fixpoint packages_loop (fuel : nat) (iterator : retro_vault_json_iterator)
    (parsed : ptr (list retro_vault_package)) (count : Z)
    : ST mem (option (ptr (list retro_vault_package) * Z)) :=
  match fuel with
  | O => lift None
  | S fuel =>
      let! '(result, item, iterator) := lift (next_retro_vault_json_array_value doc iterator) in
      match item with
      | Some item =>
          if result <=? 0 then do! free_packages parsed count; ret None
          else if RETRO_VAULT_CURSOR_END <=? count then do! free_packages parsed count; ret None
          else
            let! old := lift (elements parsed count) in
            let! resized := realloc parsed old in
            match resized with
            | None => do! free_packages parsed count; ret None
            | Some (b, old) =>
                let! package := parse_package item in
                match package with
                | None => do! free_packages resized count; ret None
                | Some package =>
                    packages_loop fuel iterator (Some (b, old ++ [package])) (count + 1)
                end
            end
      | None =>
          if result <? 0 then do! free_packages parsed count; ret None
          else ret (Some (parsed, count))
      end
  end.
End catalog.

(** [data] and [size]; the reader gets the first [size] bytes, so that a read
    behind them is out of range. *)
Definition parse_catalog (data : ptr (list Z)) (size : Z)
    : ST mem (option (ptr (list retro_vault_package) * Z)) :=
  let! doc :=
    lift (match data with None => Some None | Some (_, cells) => Some <$> rd_bytes cells 0 size end) in
  let! root := lift (parse_retro_vault_json doc size) in
  match doc, root with
  | Some doc, Some root =>
      if negb (bool_decide (v_type root = retro_vault_json_array)) then ret None
      else
        match init_retro_vault_json_array_iterator root with
        | None => ret None
        | Some iterator => packages_loop doc (S (Z.to_nat size)) iterator None 0
        end
  | _, _ => ret None
  end.
