(* ===== verification/VaultCatalog.v ===== *)
(** The catalog reader of the retrovault service: which memory each step owns,
    and the packages it makes of a JSON document. *)
From stdpp Require Import base numbers list option gmultiset strings.
From Stdlib Require Import ZArith Lia.
From S2P Require Import Prelude Wire CLib Heap Json JsonGrammar JsonRead Vault.

Local Open Scope Z_scope.
Local Open Scope squid_scope.

#[local] Arguments disj_union : simpl never.
#[local] Arguments gmultiset_disj_union : simpl never.

(** An equation between sums of blocks. *)
Ltac balance := clear; multiset_solver.

(** ** Ownership *)

Definition contents {A} (p : ptr (list A)) : list A := match p with Some (_, l) => l | None => [] end.
(** The count kept beside an array is its length. *)
Definition array_ok {A} (p : ptr (list A)) (count : Z) : Prop := zlen (contents p) = count.

Definition owned_list {A} (owned : A -> gmultiset nat) (l : list A) : gmultiset nat :=
  foldr (fun x X => owned x ⊎ X) ∅ l.
(** In the order in which it is released. *)
Definition owned_download (d : retro_vault_download) : gmultiset nat :=
  block (d_id d) ⊎ (block (d_label d) ⊎ block (d_format d)).
Definition owned_strings (p : retro_vault_package) (rest : gmultiset nat) : gmultiset nat :=
  block (p_id p) ⊎ (block (p_name p) ⊎ (block (p_vendor p) ⊎ (block (p_platform_id p) ⊎
  (block (p_platform_name p) ⊎ (block (p_model_id p) ⊎ (block (p_model_name p) ⊎
  (block (p_version p) ⊎ (block (p_description p) ⊎ rest)))))))).
Definition owned_downloads (p : ptr (list retro_vault_download)) : gmultiset nat :=
  owned_list owned_download (contents p) ⊎ block p.
Definition owned_package (p : retro_vault_package) : gmultiset nat :=
  owned_strings p (owned_downloads (p_downloads p)).
Definition owned_packages (p : ptr (list retro_vault_package)) : gmultiset nat :=
  owned_list owned_package (contents p) ⊎ block p.

Lemma elements_contents {A} (p : ptr (list A)) count : array_ok p count -> elements p count = Some (contents p).
Proof.
  unfold array_ok, elements. intros H. destruct (Z.eqb_spec count 0) as [->|Hne].
  - by rewrite (zlen_nil_inv _ H).
  - destruct p as [[b l]|]; cbn in *; [|rewrite zlen_nil in H; lia].
    destruct (Z.leb_spec count (zlen l)); [|lia]. f_equal. unfold zlen in H. by rewrite take_ge by lia.
Qed.
Lemma owned_list_cons {A} (owned : A -> gmultiset nat) x l :
  owned_list owned (x :: l) = owned x ⊎ owned_list owned l.
Proof. done. Qed.
Lemma owned_list_app {A} (owned : A -> gmultiset nat) l k :
  owned_list owned (l ++ k) = owned_list owned l ⊎ owned_list owned k.
Proof.
  unfold owned_list. induction l as [|x l IH]; cbn [app foldr]; [by rewrite (left_id_L ∅ (⊎))|].
  rewrite IH. by rewrite (assoc_L (⊎)).
Qed.

(** Releasing the block that comes first. *)
Lemma free_first {A} (p : ptr A) (Q : unit -> mem -> Prop) m X R :
  live m = X ⊎ (block p ⊎ R) -> (forall m', after m m' (X ⊎ R) -> Q tt m') -> wp (free p) Q m.
Proof. intros Hl HQ. apply (wp_free _ _ _ (X ⊎ R)); [rewrite Hl; balance|done]. Qed.
Lemma free_last {A} (p : ptr A) (Q : unit -> mem -> Prop) m X :
  live m = X ⊎ block p -> (forall m', after m m' X -> Q tt m') -> wp (free p) Q m.
Proof. apply wp_free. Qed.

Lemma free_download_spec d (Q : unit -> mem -> Prop) m X :
  live m = X ⊎ owned_download d -> (forall m', after m m' X -> Q tt m') -> wp (free_download d) Q m.
Proof.
  intros Hl HQ. apply wp_bind. eapply free_first; [exact Hl|]. intros m1 H1. apply wp_bind.
  eapply free_first; [apply H1|]. intros m2 H2. eapply free_last; [apply H2|]. intros m3 H3. apply HQ.
  by do 2 (eapply after_trans; [eassumption|]).
Qed.

Lemma free_each_spec {A} (release : A -> ST mem unit) (owned : A -> gmultiset nat) l :
  (forall x Q m X, x ∈ l -> live m = X ⊎ owned x -> (forall m', after m m' X -> Q tt m') -> wp (release x) Q m) ->
  forall (Q : unit -> mem -> Prop) m X,
  live m = X ⊎ owned_list owned l -> (forall m', after m m' X -> Q tt m') -> wp (free_each release l) Q m.
Proof.
  induction l as [|x l IH]; intros Hrel Q m X Hl HQ; cbn.
  - apply wp_ret, HQ. split; [|done]. rewrite Hl. apply (right_id_L ∅ (⊎)).
  - apply wp_bind. rewrite owned_list_cons in Hl.
    apply (Hrel x _ m (X ⊎ owned_list owned l)); [constructor|rewrite Hl; balance|].
    intros m1 H1. apply (IH) with (X := X); [|apply H1|].
    + intros y Q' m' X' Hy. apply Hrel. by constructor.
    + intros m2 H2. apply HQ. by eapply after_trans.
Qed.

(** Whose array and count agree. *)
Definition counted (p : retro_vault_package) : Prop := array_ok (p_downloads p) (p_download_count p).

Lemma free_package_spec p (Q : unit -> mem -> Prop) m X :
  counted p -> live m = X ⊎ owned_package p -> (forall m', after m m' X -> Q tt m') -> wp (free_package p) Q m.
Proof.
  intros Hc Hl HQ. unfold free_package.
  assert (Hend : forall m9, after m m9 (X ⊎ owned_downloads (p_downloads p)) ->
    wp (let! downloads := lift (elements (p_downloads p) (p_download_count p)) in
        do! free_each free_download downloads; free (p_downloads p)) Q m9).
  { intros m9 H9. apply wp_bind. eapply wp_lift; [by apply elements_contents|]. apply wp_bind.
    apply (free_each_spec free_download owned_download) with (X := X ⊎ block (p_downloads p)).
    - intros x Q' m' X' _ Hx HQ'. by eapply free_download_spec.
    - rewrite (proj1 H9). unfold owned_downloads. balance.
    - intros m10 H10. eapply free_last; [apply H10|]. intros m11 H11. apply HQ.
      by do 2 (eapply after_trans; [eassumption|]). }
  unfold owned_package, owned_strings in Hl. pose proof (after_refl m) as Hm.
  do 9 (apply wp_bind; eapply free_first; [exact Hl|]; clear Hl; intros ? Hl;
    pose proof (after_trans _ _ _ _ _ Hm Hl) as Hm'; clear Hm; rename Hm' into Hm; apply proj1 in Hl).
  by apply Hend.
Qed.

Lemma free_packages_spec ps count (Q : unit -> mem -> Prop) m X :
  array_ok ps count -> Forall counted (contents ps) -> live m = X ⊎ owned_packages ps ->
  (forall m', after m m' X -> Q tt m') -> wp (free_packages ps count) Q m.
Proof.
  intros Ha Hc Hl HQ. apply wp_bind. eapply wp_lift; [by apply elements_contents|]. apply wp_bind.
  apply (free_each_spec free_package owned_package) with (X := X ⊎ block ps).
  - intros x Q' m' X' Hx Hl' HQ'. eapply free_package_spec; [|done|done]. by apply (Forall_elem _ _ _ Hc).
  - rewrite Hl. unfold owned_packages. balance.
  - intros m1 H1. eapply free_last; [apply H1|]. intros m2 H2. apply HQ. by eapply after_trans.
Qed.

(** ** Texts *)

(** The pointer holds the C string [s]. *)
Definition text_is (p : ptr (list Z)) (s : list Z) : Prop :=
  cstr_ok s /\ exists b rest, p = Some (b, s ++ 0 :: rest).
Definition text_ok (p : ptr (list Z)) : Prop := p = None \/ exists s, text_is p s.

Lemma text_is_string p s : text_is p s -> string_at p = Some s.
Proof. intros [Hs (b & rest & ->)]. by apply cstring_app. Qed.
Lemma before_nul_cstr s : bytes_ok s -> cstr_ok (before_nul s).
Proof.
  induction 1 as [|c s Hc _ IH]; [constructor|]. cbn. unfold is_byte in Hc.
  destruct (Z.eqb_spec c 0); [constructor|]. constructor; [lia|done].
Qed.
Lemma before_nul_split s : before_nul s = s \/ exists rest, s = before_nul s ++ 0 :: rest.
Proof.
  induction s as [|c s IH]; [by left|]. cbn. destruct (Z.eqb_spec c 0) as [->|]; [right; by exists s|].
  destruct IH as [IH|[rest IH]]; [left; by rewrite IH|]. right. exists rest. cbn. by rewrite <- IH.
Qed.

(** A decoded string with its NUL holds its C string. *)
Lemma copied_text b s rest : bytes_ok s -> text_is (Some (b, s ++ 0 :: rest)) (before_nul s).
Proof.
  intros Hs. split; [by apply before_nul_cstr|]. destruct (before_nul_split s) as [E|[rest' E]].
  - exists b, rest. by rewrite E.
  - exists b, (rest' ++ 0 :: rest). rewrite E at 1. by rewrite <- app_assoc.
Qed.
Lemma text_is_empty p s : text_is p s -> is_empty p = Some (bool_decide (s = [])).
Proof.
  intros [Hs (b & rest & ->)]. cbn [is_empty]. destruct Hs as [|c s Hc Hs]; [done|].
  unfold rd. cbn [app Z.ltb lookup list_lookup Z.to_nat]. cbn. destruct (Z.ltb_spec c 0); [lia|].
  by destruct (Z.eqb_spec c 0); [lia|].
Qed.
Lemma empty_text_is b : text_is (Some (b, [] ++ [0])) [].
Proof. split; [constructor|]. by exists b, []. Qed.

(** ** The catalog of a tree *)

Definition string_member (ms : list (list Z * json)) (name : list Z) (required : bool) : option (list Z) :=
  match find_member name ms with
  | None | Some JNull => if required then None else Some []
  | Some (JString raw) =>
      match str_value raw with
      | Some s => if required && bool_decide (s = []) then None else Some s
      | None => None
      end
  | Some _ => None
  end.

(** [Some None]: there is no number. *)
Definition uint_member (ms : list (list Z * json)) (name : list Z) : option (option Z) :=
  match find_member name ms with
  | None | Some JNull => Some None
  | Some (JNumber raw) => match number_value raw with Some n => Some (Some n) | None => None end
  | Some _ => None
  end.

(** The sizes of the files of a download. *)
Definition file_size (t : json) : option (option Z) :=
  match t with JObject ms => uint_member ms (text "sizeBytes") | _ => None end.

(** The size a download may report for the sizes of its files, [None] for a
    file without one: unknown (0xffffffff) when one is unknown; the sum of
    files below 4 GiB, or unknown when the sum needs more than 32 bits; with
    larger files still the sum, but of which only 32 bits are there. *)
Definition total (sizes : list Z) : Z := foldr Z.add 0 sizes.
Definition size_reported (sizes : list (option Z)) (size : Z) : Prop :=
  (None ∈ sizes -> size = 0xffffffff) /\
  (forall known, sizes = map Some known -> Forall (fun n => n < 2 ^ 32) known ->
     size = if total known <=? 0xffffffff then total known else 0xffffffff) /\
  (forall known, sizes = map Some known -> size = 0xffffffff \/ size = total known mod 2 ^ 32).

(** The documented codes of the ratings. *)
Definition rating_of (rating : list Z) : Z :=
  if bool_decide (rating = text "Curious") then 1 else if bool_decide (rating = text "Average") then 2
  else if bool_decide (rating = text "Great") then 3 else if bool_decide (rating = text "Legendary") then 4 else 0.

Record download_info := DownloadInfo {
  di_id : list Z; di_label : list Z; di_format : list Z; di_sizes : list (option Z) }.
Record package_info := PackageInfo {
  pi_id : list Z; pi_name : list Z; pi_vendor : list Z; pi_platform_id : list Z; pi_platform_name : list Z;
  pi_model_id : list Z; pi_model_name : list Z; pi_version : list Z; pi_description : list Z;
  pi_year : Z; pi_rating : Z; pi_downloads : list download_info }.

(** The sizes of the files, one for each. *)
Definition ref_files (ms : list (list Z * json)) : option (list (option Z)) :=
  match find_member (text "files") ms with Some (JArray files) => mapM file_size files | _ => None end.

Definition ref_download (t : json) : option download_info :=
  match t with
  | JObject ms =>
      let? id := string_member ms (text "id") true in
      let? label := string_member ms (text "label") true in
      let? format := string_member ms (text "format") true in
      let? sizes := ref_files ms in
      Some (DownloadInfo id label format sizes)
  | _ => None
  end.

Definition ref_downloads (ms : list (list Z * json)) : option (list download_info) :=
  match find_member (text "downloads") ms with
  | None | Some JNull => Some []
  | Some (JArray items) => mapM ref_download items
  | Some _ => None
  end.

Definition ref_package (t : json) : option package_info :=
  match t with
  | JObject ms =>
      let? id := string_member ms (text "id") true in
      let? name := string_member ms (text "name") true in
      let? vendor := string_member ms (text "vendor") false in
      let? platform_id := string_member ms (text "platformId") false in
      let? platform_name := string_member ms (text "platformName") false in
      let? model_id := string_member ms (text "modelId") false in
      let? model_name := string_member ms (text "modelName") false in
      let? version := string_member ms (text "version") false in
      let? description := string_member ms (text "description") false in
      let? rating := string_member ms (text "rating") false in
      let? year := uint_member ms (text "releaseYear") in
      let? downloads := ref_downloads ms in
      Some (PackageInfo id name vendor platform_id platform_name model_id model_name version description
              (match year with Some y => if y <=? 65535 then y else 0 | None => 0 end)
              (rating_of rating) downloads)
  | _ => None
  end.

(** At most 65535 packages, so that the cursor behind the last one is still
    smaller than the end mark. *)
Definition ref_catalog (t : json) : option (list package_info) :=
  match t with
  | JArray items => if 65535 <? zlen items then None else mapM ref_package items
  | _ => None
  end.

(** ** The total size of a download *)

(** The total, as the loop over the files adds it up. *)
Definition count_sizes (sizes : list (option Z)) (c : Z * bool * Z) : Z * bool * Z :=
  fold_left (fun c o => count_file c (default 0 o) (match o with Some _ => true | None => false end)) sizes c.
Definition aggregate_size (sizes : list (option Z)) : Z :=
  let '(_, known, total) := count_sizes sizes (0, true, 0) in
  if known then u32 total else RETRO_VAULT_SIZE_UNKNOWN.

Lemma count_sizes_cons o sizes c :
  count_sizes (o :: sizes) c =
  count_sizes sizes (count_file c (default 0 o) (match o with Some _ => true | None => false end)).
Proof. done. Qed.

Lemma count_file_count n k tot size known :
  0 <= n <= 255 -> (count_file (n, k, tot) size known).1.1 = Z.min 255 (n + 1).
Proof. intros Hn. unfold count_file, UINT8_MAX. destruct (_ || _), (Z.ltb_spec n 255); cbn; lia. Qed.
Lemma count_sizes_count sizes : forall c, 0 <= c.1.1 <= 255 ->
  (count_sizes sizes c).1.1 = Z.min 255 (c.1.1 + zlen sizes).
Proof.
  unfold count_sizes. induction sizes as [|o sizes IH]; intros [[n k] tot] Hn; cbn [fold_left fst] in *.
  { rewrite zlen_nil. lia. }
  rewrite IH by (rewrite count_file_count; lia). rewrite count_file_count, zlen_cons by lia. pose proof (zlen_nonneg sizes). lia.
Qed.

(** Once a size is unknown the total is. *)
Lemma count_sizes_unknown sizes : forall n k tot, k = false \/ None ∈ sizes ->
  (count_sizes sizes (n, k, tot)).1.2 = false.
Proof.
  induction sizes as [|o sizes IH]; intros n k tot Hk.
  { destruct Hk as [->|Hin]; [done|]. by apply not_elem_of_nil in Hin. }
  rewrite count_sizes_cons. unfold count_file. rewrite elem_of_cons in Hk.
  destruct o as [x|]; cbn [negb orb]; [|by apply IH; left].
  destruct (_ <? tot); apply IH; [by left|]. destruct Hk as [Hk|[Hk|Hk]]; [by left|done|by right].
Qed.

(** A known total is the sum, of which 32 bits are left. *)
Lemma count_sizes_sum known : forall n k tot,
  let r := count_sizes (map Some known) (n, k, tot) in
  r.1.2 = true -> u32 r.2 = (tot + total known) mod 2 ^ 32.
Proof.
  induction known as [|x known IH]; intros n k tot r Hr; subst r; [cbn; by rewrite Z.add_0_r|].
  cbn [map] in *. rewrite count_sizes_cons in *. unfold count_file in *. cbn [negb orb default] in *.
  destruct (_ <? tot); [by rewrite count_sizes_unknown in Hr by (by left)|].
  rewrite (IH _ _ _ Hr). change (total (x :: known)) with (x + total known).
  unfold u64. rewrite Z.add_assoc. rewrite <- (Zplus_mod_idemp_l (_ mod _)), <- (Zplus_mod_idemp_l (tot + x)).
  f_equal. f_equal. apply Z.mod_mod_divide. by exists (2 ^ 32).
Qed.

Lemma total_nonneg known : Forall (fun n => 0 <= n) known -> 0 <= total known.
Proof. induction 1 as [|n known Hn _ IH]; [done|]. change (total (n :: known)) with (n + total known). lia. Qed.

Lemma count_sizes_exact known : forall n tot,
  Forall (fun n => 0 <= n) known -> Forall (fun n => n < 2 ^ 32) known -> 0 <= tot <= UINT32_MAX ->
  let r := count_sizes (map Some known) (n, true, tot) in
  if tot + total known <=? UINT32_MAX then r.1.2 = true /\ r.2 = tot + total known else r.1.2 = false.
Proof.
  induction known as [|x known IH]; intros n tot H0 H32 Htot r; subst r.
  { cbn. destruct (Z.leb_spec (tot + 0) UINT32_MAX); [|lia]. split; [done|lia]. }
  apply Forall_cons in H0 as [Hx H0], H32 as [Hx' H32]. pose proof (total_nonneg known H0).
  cbn [map]. rewrite count_sizes_cons. unfold count_file. cbn [negb orb default]. unfold u64.
  change (total (x :: known)) with (x + total known).
  rewrite (Z.mod_small (UINT32_MAX - x)) by (unfold UINT32_MAX in *; lia).
  destruct (Z.ltb_spec (UINT32_MAX - x) tot).
  - destruct (Z.leb_spec (tot + (x + total known)) UINT32_MAX); [lia|]. apply count_sizes_unknown. by left.
  - rewrite (Z.mod_small (tot + x)) by (unfold UINT32_MAX in *; lia). rewrite Z.add_assoc. apply IH; [done|done|lia].
Qed.

(** The code's total is one that may be reported. *)
Lemma aggregate_size_reported sizes :
  Forall (fun o => 0 <= default 0 o) sizes -> size_reported sizes (aggregate_size sizes).
Proof.
  intros H0. unfold aggregate_size. split_and!.
  - intros Hin. pose proof (count_sizes_unknown sizes 0 true 0 (or_intror Hin)) as E.
    destruct (count_sizes _ _) as [[n k] tot]. cbn in E. by rewrite E.
  - intros known -> H32. apply (Forall_fmap Some) in H0.
    pose proof (count_sizes_exact known 0 0 H0 H32 ltac:(unfold UINT32_MAX; lia)) as E.
    pose proof (total_nonneg known H0). rewrite Z.add_0_l in E. change UINT32_MAX with 0xffffffff in E.
    destruct (count_sizes _ _) as [[n k] tot]. cbn [fst snd] in E.
    destruct (Z.leb_spec (total known) 0xffffffff); [destruct E as [-> ->]; apply u32_small; lia|by rewrite E].
  - intros known ->. pose proof (count_sizes_sum known 0 true 0) as E. cbn zeta in E.
    destruct (count_sizes _ _) as [[n k] tot]. cbn [fst snd] in E. destruct k; [right|by left]. by apply E.
Qed.

(** One file of 4 GiB and five bytes is reported with five bytes. *)
Example aggregate_size_wraps : aggregate_size [Some (2 ^ 32 + 5)] = 5.
Proof. vm_compute. reflexivity. Qed.

Lemma parse_rating_of s : parse_rating (Some s) = rating_of s.
Proof.
  unfold parse_rating, rating_of, RETRO_VAULT_RATING_UNKNOWN, RETRO_VAULT_RATING_CURIOUS,
    RETRO_VAULT_RATING_AVERAGE, RETRO_VAULT_RATING_GREAT, RETRO_VAULT_RATING_LEGENDARY.
  by unfold eq_text.
Qed.

(** ** Members *)

Section doc.
Variable doc : list Z.
Hypothesis doc_ok : bytes_ok doc.
Abbreviation shows := (shows doc).

(** The outcome of reading a string member: a text, not empty when it is
    required, or a failure; with memory, what the tree says. *)
Definition string_read (m : mem) (ms : list (list Z * json)) (name : list Z) (required : bool)
    (r : Z * ptr (list Z)) : Prop :=
  text_ok r.2 /\
  ((r.1 = 0 /\ (required = true -> exists s, text_is r.2 s /\ s <> []) /\
    (memory_ok m -> exists s, text_is r.2 s /\ string_member ms name required = Some s)) \/
   (r.1 = -1 /\ (memory_ok m -> string_member ms name required = None))).

(** What the absence of a member gives. *)
Lemma absent_string required (Q : Z * ptr (list Z) -> mem -> Prop) m m1 ms name :
  after m m1 (live m) ->
  (memory_ok m -> find_member name ms = None \/ find_member name ms = Some JNull) ->
  (forall r m', after m m' (live m ⊎ block r.2) -> string_read m ms name required r -> Q r m') ->
  wp (let! text := duplicate_text [] in ret (if required then -1 else 0, text)) Q m1.
Proof.
  intros Hm1 Hf HQ. apply wp_bind, wp_malloc.
  - intros b m2 H2. apply wp_ret, HQ.
    { eapply after_eq; [by eapply after_trans|]. by rewrite (proj1 Hm1). }
    split; [right; exists []; apply empty_text_is|]. destruct required; [right|left]; (split; [done|]).
    + intros Hok. unfold string_member. by destruct (Hf Hok) as [->| ->].
    + split; [done|]. intros Hok. exists []. split; [apply empty_text_is|]. unfold string_member.
      by destruct (Hf Hok) as [->| ->].
  - intros m2 H2 Hno. assert (Hno' : ~ memory_ok m) by (intros Hok; by apply Hno, (after_ok _ _ _ Hm1)).
    apply wp_ret, HQ.
    { eapply after_eq; [by eapply after_trans|]. rewrite (proj1 Hm1). cbn. balance. }
    split; [by left|]. destruct required; [right|left]; (split; [done|]); [by intros ?|]. split; [done|by intros ?].
Qed.

Lemma string_member_spec v ms name required (Q : Z * ptr (list Z) -> mem -> Prop) m :
  shows v (JObject ms) ->
  (forall r m', after m m' (live m ⊎ block r.2) -> string_read m ms name required r -> Q r m') ->
  wp (get_json_string_member doc v name required) Q m.
Proof.
  intros Hv HQ. apply wp_bind, (get_member_spec doc doc_ok v ms name); [done|]. intros r m1 Hm1 Hs.
  destruct Hs as [(t & u & -> & Hu & k & Hin & Hk & Hf)|[-> Hf]]; cbn [Z.ltb].
  2: { eapply (absent_string required Q m m1 ms name); [done| |done]. intros Hok. left. auto. }
  rewrite (shows_type doc u t Hu).
  assert (Hbad : (match t with JNull | JString _ => False | _ => True end) -> Q (-1, None) m1).
  { intros Ht. apply HQ; [eapply after_eq; [done|]; cbn; balance|]. split; [by left|]. right.
    split; [done|]. intros Hok. unfold string_member. rewrite (Hf Hok). by destruct t. }
  destruct t as [|b|raw|raw|items|members]; cbn [kind];
    try (rewrite !bool_decide_false by done; apply wp_ret, Hbad; exact I).
  - rewrite bool_decide_true by done. eapply (absent_string required Q m m1 ms name); [done| |done]. auto.
  - rewrite bool_decide_false, bool_decide_true by done. cbn [negb].
    apply wp_bind, (duplicate_spec doc doc_ok u raw); [done|]. intros p m2 Hm2 Hp.
    assert (Hm2' : after m m2 (live m ⊎ block p)).
    { eapply after_eq; [by eapply after_trans|]. by rewrite (proj1 Hm1). }
    destruct p as [[b cells]|].
    + destruct Hp as (s & rest & Hd & ->).
      assert (Ht : text_is (Some (b, s ++ 0 :: rest)) (before_nul s)).
      { apply copied_text. eapply decode_bytes; [by eapply (string_bytes doc doc_ok)|done]. }
      assert (Hsv : str_value raw = Some (before_nul s)) by (unfold str_value; by rewrite Hd).
      apply wp_bind. eapply wp_lift; [by apply text_is_empty|].
      destruct (required && bool_decide (before_nul s = [])) eqn:E.
      * apply wp_bind. apply (wp_free _ _ _ (live m)); [by destruct Hm2'|]. intros m3 Hm3. apply wp_ret, HQ.
        { eapply after_eq; [by eapply after_trans|]. cbn. balance. }
        split; [by left|]. right. split; [done|]. intros Hok. unfold string_member.
        rewrite (Hf Hok), Hsv, E. done.
      * apply wp_ret, HQ; [done|]. split; [right; eauto|]. left. split; [done|]. split.
        -- intros ->. exists (before_nul s). split; [done|]. intros E2. by rewrite E2 in E.
        -- intros Hok. exists (before_nul s). split; [done|]. unfold string_member. by rewrite (Hf Hok), Hsv, E.
    + apply wp_bind. apply (wp_free _ _ _ (live m)); [by destruct Hm2'|]. intros m3 Hm3. apply wp_ret, HQ.
      { eapply after_eq; [by eapply after_trans|]. cbn. balance. }
      split; [by left|]. right. split; [done|]. intros Hok. unfold string_member, str_value.
      rewrite (Hf Hok), (Hp (after_ok _ _ _ Hm1 Hok)). done.
Qed.

(** Reading a number. *)
Definition uint_read (m : mem) (ms : list (list Z * json)) (name : list Z) (r : Z * Z * bool) : Prop :=
  (exists o, r = (0, default 0 o, match o with Some _ => true | None => false end) /\ 0 <= default 0 o < 2 ^ 64 /\
     (memory_ok m -> uint_member ms name = Some o)) \/
  (r = (-1, 0, false) /\ (memory_ok m -> uint_member ms name = None)).

Lemma decimal_nonneg ds : Forall (fun c => isdigit c = true) ds -> 0 <= decimal ds.
Proof.
  unfold decimal. intros H. assert (Hacc : forall n, 0 <= n -> 0 <= fold_left (fun n d => 10 * n + (d - 48)) ds n).
  { induction H as [|d ds Hd _ IH]; intros n Hn; [done|]. cbn. apply IH. unfold isdigit in Hd. lia. }
  by apply Hacc.
Qed.
Lemma number_value_range raw n : number_value raw = Some n -> 0 <= n < 2 ^ 64.
Proof.
  unfold number_value. destruct (forallb isdigit raw) eqn:E; [|done]. cbn [andb].
  destruct (zlen raw <? 32); [|done]. cbn [andb]. destruct (Z.ltb_spec (decimal raw) (2 ^ 64)); [|done].
  intros [= <-]. split; [|done]. apply decimal_nonneg, Forall_forall. intros x Hx.
  rewrite forallb_forall in E. apply E. by apply list_elem_of_In.
Qed.

Lemma uint_member_spec v ms name (Q : Z * Z * bool -> mem -> Prop) m :
  shows v (JObject ms) ->
  (forall r m', after m m' (live m) -> uint_read m ms name r -> Q r m') ->
  wp (get_json_uint64_member doc v name) Q m.
Proof.
  intros Hv HQ. apply wp_bind, (get_member_spec doc doc_ok v ms name); [done|]. intros r m1 Hm1 Hs.
  destruct Hs as [(t & u & -> & Hu & k & Hin & Hk & Hf)|[-> Hf]]; cbn [Z.ltb].
  2: { apply wp_ret, HQ; [done|]. left. exists None. split; [done|]. split; [cbn; lia|].
       intros Hok. unfold uint_member. by rewrite (Hf Hok). }
  rewrite (shows_type doc u t Hu).
  destruct t as [|b|raw|raw|items|members]; cbn [kind].
  { rewrite bool_decide_true by done. apply wp_ret, HQ; [done|]. left. exists None. split; [done|].
    split; [cbn; lia|]. intros Hok. unfold uint_member. by rewrite (Hf Hok). }
  2: { rewrite bool_decide_false by done. apply wp_bind. eapply wp_lift; [by apply (uint64_spec doc doc_ok u raw)|].
       destruct (number_value raw) as [n|] eqn:En; apply wp_ret, HQ; try done; [left|right].
       - exists (Some n). split; [done|]. split; [cbn; by apply (number_value_range raw)|]. intros Hok.
         unfold uint_member. by rewrite (Hf Hok), En.
       - split; [done|]. intros Hok. unfold uint_member. by rewrite (Hf Hok), En. }
  all: rewrite bool_decide_false by done; apply wp_bind;
    (eapply wp_lift; [by eapply (uint64_other doc)|]); apply wp_ret, HQ; [done|]; right;
    (split; [done|]); intros Hok; unfold uint_member; by rewrite (Hf Hok).
Qed.

(** ** Files *)

Lemma file_size_nonneg t o : file_size t = Some o -> 0 <= default 0 o.
Proof.
  unfold file_size, uint_member. repeat case_match; intros [= <-]; cbn; try lia.
  match goal with H : number_value _ = Some _ |- _ => by apply number_value_range in H as [] end.
Qed.
Lemma file_sizes_nonneg vs sizes : mapM file_size vs = Some sizes -> Forall (fun o => 0 <= default 0 o) sizes.
Proof.
  intros E%mapM_Some. induction E as [|t o vs sizes Ho _ IH]; constructor; [by eapply file_size_nonneg|done].
Qed.

Lemma items_length vs s : items vs s -> (length vs <= length s)%nat.
Proof.
  revert s. induction vs as [|v vs IH]; intros s Hi; [cbn; lia|].
  inversion Hi as [? w sv w' Hw Hr Hw'|? ? w sv w' rest Hw Hr Hw' Hrest]; subst;
    destruct (renders_head v sv Hr) as (c & sv' & -> & _); rewrite !length_app; cbn; [lia|].
  apply IH in Hrest. lia.
Qed.
(** An array has fewer elements than characters. *)
Lemma array_length v vs : shows v (JArray vs) -> (length vs <= Z.to_nat (v_end v - v_start v))%nat.
Proof.
  intros (s & Ha & Hr & _). rewrite (at_len doc _ _ _ Ha). unfold zlen. rewrite Nat2Z.id.
  inversion Hr as [| | | | | |? ? s1 Hi| |]; subst; cbn [length]; [lia|].
  apply items_length in Hi. rewrite length_app. cbn in *. lia.
Qed.

Lemma files_loop_spec vs : forall it c fuel (Q : option (Z * bool * Z) -> mem -> Prop) m,
  iter_at doc it vs -> (length vs < fuel)%nat ->
  (forall r m', after m m' (live m) ->
     (forall c', r = Some c' -> exists sizes, length sizes = length vs /\ c' = count_sizes sizes c) ->
     (memory_ok m -> r = (fun sizes => count_sizes sizes c) <$> mapM file_size vs) -> Q r m') ->
  wp (files_loop doc fuel it c) Q m.
Proof.
  induction vs as [|t vs IH]; intros it c fuel Q m Hit Hf HQ; (destruct fuel as [|fuel]; [cbn in Hf; lia|]);
    cbn [files_loop]; pose proof (iterator_next doc doc_ok it _ Hit) as Hn; apply wp_bind.
  - destruct Hn as (it' & En & _). eapply wp_lift; [exact En|]. cbn.
    apply wp_ret, HQ; [apply after_refl| |done]. intros c' [= <-]. by exists [].
  - destruct Hn as (v & it' & En & Hv & Hit'). eapply wp_lift; [exact En|]. cbn [Z.leb Z.compare].
    assert (Hbad : forall m', after m m' (live m) -> (memory_ok m -> file_size t = None) -> Q None m').
    { intros m' Hm' Ht. apply HQ; [done|done|]. intros Hok. cbn. by rewrite (Ht Hok). }
    rewrite (shows_type doc v t Hv). change (1 <=? 0) with false. cbv iota.
    destruct t as [|b|raw|raw|items|ms]; cbn [kind];
      try (rewrite bool_decide_false by done; apply wp_ret, Hbad; [apply after_refl|done]).
    rewrite bool_decide_true by done. cbn [negb]. apply wp_bind, (uint_member_spec v ms); [done|].
    intros r m1 Hm1 [(o & -> & Ho & Hr)|[-> Hr]]; [|by apply wp_ret, Hbad].
    cbn [Z.eqb negb]. cbn in Hf. apply (IH it' _ fuel Q m1); [done|lia|]. intros r m2 Hm2 Hs2 Hr2.
    rewrite (proj1 Hm1) in Hm2. apply HQ; [by eapply after_trans| |].
    + intros c' Hc'. destruct (Hs2 c' Hc') as (sizes & Hl & ->). exists (o :: sizes). cbn. by rewrite Hl.
    + intros Hok. rewrite (Hr2 (after_ok _ _ _ Hm1 Hok)). cbn [mapM]. cbn [file_size]. rewrite (Hr Hok).
      cbn. by destruct (mapM file_size vs).
Qed.

(** The count, up to 255, and the size of the files. *)
Definition files_are (r : option (Z * Z)) (ref : option (list (option Z))) : Prop :=
  match r, ref with
  | Some (n, size), Some sizes => n = Z.min 255 (zlen sizes) /\ size_reported sizes size
  | None, None => True
  | _, _ => False
  end.

Lemma download_files_spec v ms (Q : option (Z * Z) -> mem -> Prop) m :
  shows v (JObject ms) ->
  (forall r m', after m m' (live m) -> (forall n size, r = Some (n, size) -> 0 <= n <= 255 /\ 0 <= size < 2 ^ 32) ->
     (memory_ok m -> files_are r (ref_files ms)) -> Q r m') ->
  wp (parse_download_files doc v) Q m.
Proof.
  intros Hv HQ. apply wp_bind, (get_member_spec doc doc_ok v ms); [done|]. intros r m1 Hm1 Hs.
  destruct Hs as [(t & u & -> & Hu & k & Hin & Hk & Hf)|[-> Hf]].
  2: { apply wp_ret, HQ; [done|done|]. intros Hok. unfold ref_files. by rewrite (Hf Hok). }
  rewrite (shows_type doc u t Hu). change (1 <=? 0) with false. cbv iota.
  destruct t as [|b|raw|raw|items|members]; cbn [kind];
    try (rewrite bool_decide_false by done; apply wp_ret, HQ; [done|done|]; intros Hok; unfold ref_files;
         by rewrite (Hf Hok)).
  rewrite bool_decide_true by done. cbn [negb]. destruct (iterator_init doc doc_ok u items Hu) as (it & -> & Hit).
  apply wp_bind, (files_loop_spec items); [done|apply array_length in Hu; lia|]. intros r m2 Hm2 Hs2 Hr2.
  rewrite (proj1 Hm1) in Hm2.
  assert (Hm : after m m2 (live m)) by (by eapply after_trans).
  assert (Hok2 : memory_ok m -> memory_ok m1) by (by apply (after_ok _ _ _ Hm1)).
  destruct r as [[[n k'] tot]|]; apply wp_ret, HQ; try done.
  - intros n' size [= <- <-]. destruct (Hs2 _ eq_refl) as (sizes & Hl & Ec).
    pose proof (count_sizes_count sizes (0, true, 0) ltac:(cbn; lia)) as Hcnt. rewrite <- Ec in Hcnt.
    cbn [fst] in Hcnt. pose proof (zlen_nonneg sizes). split; [lia|].
    destruct k'; [apply u32_range|unfold RETRO_VAULT_SIZE_UNKNOWN; lia].
  - intros Hok. unfold ref_files. rewrite (Hf Hok). specialize (Hr2 (Hok2 Hok)).
    destruct (mapM file_size items) as [sizes|] eqn:E; [|done]. cbn in Hr2. injection Hr2 as Ec.
    pose proof (count_sizes_count sizes (0, true, 0) ltac:(cbn; lia)) as Hcnt. rewrite <- Ec in Hcnt.
    cbn [fst] in Hcnt. split; [by rewrite Hcnt, Z.add_0_l|].
    apply file_sizes_nonneg, aggregate_size_reported in E. unfold aggregate_size in E. by rewrite <- Ec in E.
  - intros Hok. unfold ref_files. rewrite (Hf Hok). specialize (Hr2 (Hok2 Hok)).
    by destruct (mapM file_size items).
Qed.

(** ** Records of strings *)

Section strings.
Context {T : Type}.
Implicit Types (fields : list (list Z * bool * (T -> ptr (list Z) -> T))).

(** The record with the texts stored in its first fields. *)
Fixpoint store_all fields (texts : list (ptr (list Z))) (record : T) {struct texts} : T :=
  match texts, fields with
  | x :: texts, (_, _, store) :: fields => store_all fields texts (store record x)
  | _, _ => record
  end.

(** A text that was read for a field. *)
Definition field_read (ok : Prop) (ms : list (list Z * json)) (f : list Z * bool * (T -> ptr (list Z) -> T))
    (p : ptr (list Z)) : Prop :=
  text_ok p /\ (f.1.2 = true -> exists s, text_is p s /\ s <> []) /\
  (ok -> exists s, text_is p s /\ string_member ms f.1.1 f.1.2 = Some s).
Definition field_missing (ms : list (list Z * json)) (f : list Z * bool * (T -> ptr (list Z) -> T)) : Prop :=
  string_member ms f.1.1 f.1.2 = None.

(** All fields are read, or some of them and then one that is missing. *)
Definition strings_read (m : mem) (ms : list (list Z * json)) fields (ok : bool)
    (texts : list (ptr (list Z))) : Prop :=
  if ok then Forall2 (field_read (memory_ok m) ms) fields texts
  else (length texts <= length fields)%nat /\ (memory_ok m -> Exists (field_missing ms) fields).

Lemma read_strings_spec v ms fields : forall record (Q : bool * T -> mem -> Prop) m,
  shows v (JObject ms) ->
  (forall ok texts m', after m m' (live m ⊎ owned_list block texts) -> strings_read m ms fields ok texts ->
     Q (ok, store_all fields texts record) m') ->
  wp (read_strings doc v fields record) Q m.
Proof.
  induction fields as [|[[name required] store] fields IH]; intros record Q m Hv HQ; cbn [read_strings].
  { apply wp_ret, (HQ true []); [|constructor]. split; [|done]. symmetry. apply (right_id_L ∅ (⊎)). }
  apply wp_bind, (string_member_spec v ms); [done|]. intros [r p] m1 Hm1 [Hp Hr]. cbn [fst snd] in *.
  destruct Hr as [(-> & Hreq & Hok)|[-> Hno]]; cbn [Z.eqb negb].
  - apply (IH _ Q m1 Hv). intros ok texts m2 Hm2 Hread. apply (HQ ok (p :: texts)).
    { eapply after_eq; [by eapply after_trans|]. rewrite (proj1 Hm1), owned_list_cons. balance. }
    pose proof (after_ok _ _ _ Hm1) as Hmem. destruct ok; cbn in *.
    + constructor; [done|]. eapply Forall2_impl; [exact Hread|]. intros f q (H1 & H2 & H3). split_and!; auto.
    + destruct Hread as [Hl He]. split; [lia|]. intros H. right. by apply He, Hmem.
  - apply wp_ret, (HQ false [p]).
    { eapply after_eq; [done|]. rewrite owned_list_cons. unfold owned_list. cbn. balance. }
    cbn. split; [lia|]. intros H. left. by apply Hno.
Qed.
End strings.

(** ** Downloads *)

(** A download whose texts are there. *)
Definition download_ok (d : retro_vault_download) : Prop :=
  (exists s, text_is (d_id d) s /\ s <> []) /\ (exists s, text_is (d_label d) s /\ s <> []) /\
  (exists s, text_is (d_format d) s /\ s <> []) /\ 0 <= d_aggregate_size d < 2 ^ 32 /\ 0 <= d_file_count d <= 255.
Definition download_is (d : retro_vault_download) (i : download_info) : Prop :=
  text_is (d_id d) (di_id i) /\ text_is (d_label d) (di_label i) /\ text_is (d_format d) (di_format i) /\
  size_reported (di_sizes i) (d_aggregate_size d) /\ d_file_count d = Z.min 255 (zlen (di_sizes i)).

(** What a reader made of a tree: a good value that owns its memory, or
    nothing; with memory, exactly what the reference gives. *)
Definition made {A B} (m : mem) (ok : A -> Prop) (same : A -> B -> Prop) (r : option A) (ref : option B) : Prop :=
  (forall a, r = Some a -> ok a) /\
  (memory_ok m -> match r with Some a => exists b, ref = Some b /\ same a b | None => ref = None end).

Lemma texts_three texts : (length texts <= 3)%nat ->
  owned_download (store_all download_strings texts zero_download) = owned_list block texts.
Proof.
  intros Hl. unfold owned_list. do 3 (destruct texts as [|? texts]; [cbn; balance|]).
  destruct texts; [cbn; balance|cbn in Hl; lia].
Qed.

Lemma parse_download_spec v t (Q : option retro_vault_download -> mem -> Prop) m :
  shows v t ->
  (forall r m', after m m' (live m ⊎ match r with Some d => owned_download d | None => ∅ end) ->
     made m download_ok download_is r (ref_download t) -> Q r m') ->
  wp (parse_download doc v) Q m.
Proof.
  intros Hv HQ. unfold parse_download. rewrite (shows_type doc v t Hv).
  (* a failure releases the record *)
  assert (Hfail : forall d m1, after m m1 (live m ⊎ owned_download d) -> (memory_ok m -> ref_download t = None) ->
    wp (do! free_download d; ret None) Q m1).
  { intros d m1 Hm1 Hno. apply wp_bind. eapply free_download_spec; [apply Hm1|]. intros m2 Hm2.
    apply wp_ret, HQ; [|by split]. eapply after_eq; [by eapply after_trans|]. symmetry. apply (right_id_L ∅ (⊎)). }
  assert (Hother : (match t with JObject _ => False | _ => True end) ->
    wp (do! free_download zero_download; ret None) Q m).
  { intros Ht. apply Hfail; [|by destruct t]. split; [|done]. cbn. balance. }
  destruct t as [|b|raw|raw|items|ms]; cbn [kind];
    try (rewrite bool_decide_false by done; apply Hother; exact I).
  rewrite bool_decide_true by done. cbn [negb].
  apply wp_bind, (read_strings_spec v ms); [done|]. intros ok texts m1 Hm1 Hread. cbv beta iota.
  destruct ok; cbn [negb strings_read] in *.
  2: { destruct Hread as [Hl He]. apply Hfail; [by rewrite texts_three|]. intros Hok. specialize (He Hok).
       unfold ref_download. repeat (apply Exists_cons in He as [He|He];
         [unfold field_missing in He; cbn [fst snd] in He; rewrite He; by repeat case_match|]).
       by apply Exists_nil in He. }
  assert (Hl : (length texts <= 3)%nat) by (by rewrite <- (Forall2_length _ _ _ Hread)).
  rewrite <- texts_three in Hm1 by done.
  inversion Hread as [|? x1 ? l1 H1 Hr1]; subst. inversion Hr1 as [|? x2 ? l2 H2 Hr2]; subst.
  inversion Hr2 as [|? x3 ? l3 H3 Hr3]; subst. inversion Hr3; subst. clear Hread Hr1 Hr2 Hr3 Hl.
  cbn in Hm1. cbn [store_all download_strings].
  destruct H1 as (_ & Hq1 & Hs1), H2 as (_ & Hq2 & Hs2), H3 as (_ & Hq3 & Hs3). cbn [fst snd] in *.
  apply wp_bind, (download_files_spec v ms); [done|]. intros r m2 Hm2 Hrange Href.
  rewrite (proj1 Hm1) in Hm2.
  assert (Hm : after m m2 (live m ⊎ owned_download (Download x1 x2 x3 0 0))) by (by eapply after_trans).
  pose proof (after_ok _ _ _ Hm1) as Hmem.
  assert (Hstr : memory_ok m -> exists a b c, text_is x1 a /\ text_is x2 b /\ text_is x3 c /\
    ref_download (JObject ms) = (let? sizes := ref_files ms in Some (DownloadInfo a b c sizes))).
  { intros Hok. destruct (Hs1 Hok) as (a & Ha & Ea), (Hs2 Hok) as (b & Hb & Eb), (Hs3 Hok) as (c & Hc & Ec).
    exists a, b, c. split_and!; [done|done|done|]. unfold ref_download. by rewrite Ea, Eb, Ec. }
  destruct r as [[n size]|].
  - destruct (Hrange n size eq_refl). apply wp_ret, HQ; [exact Hm|]. split.
    + intros d [= <-]. split_and!; cbn; auto; lia.
    + intros Hok. destruct (Hstr Hok) as (a & b & c & Ha & Hb & Hc & ->). specialize (Href (Hmem Hok)).
      destruct (ref_files ms) as [sizes|]; [|done]. destruct Href. eexists. split; [done|]. by split_and!.
  - apply Hfail; [done|]. intros Hok. destruct (Hstr Hok) as (a & b & c & _ & _ & _ & ->).
    specialize (Href (Hmem Hok)). by destruct (ref_files ms).
Qed.

(** The outcome of reading the downloads behind those already there. *)
Definition downloads_read (m : mem) (old : list retro_vault_download) (ref : option (list download_info))
    (r : Z * ptr (list retro_vault_download) * Z) : Prop :=
  let '(result, ds, n) := r in
  array_ok ds n /\ Forall download_ok (contents ds) /\ (result = 0 \/ result = -1) /\
  (memory_ok m ->
     if result =? 0 then exists new infos, contents ds = old ++ new /\ ref = Some infos /\ Forall2 download_is new infos
     else ref = None).

Lemma downloads_loop_spec vs : forall it ds n fuel (Q : Z * ptr (list retro_vault_download) * Z -> mem -> Prop) m X,
  iter_at doc it vs -> (length vs < fuel)%nat -> array_ok ds n -> Forall download_ok (contents ds) ->
  live m = X ⊎ owned_downloads ds ->
  (forall r m', after m m' (X ⊎ owned_downloads r.1.2) -> downloads_read m (contents ds) (mapM ref_download vs) r -> Q r m') ->
  wp (downloads_loop doc fuel it ds n) Q m.
Proof.
  induction vs as [|t vs IH]; intros it ds n fuel Q m X Hit Hf Ha Hds Hl HQ;
    (destruct fuel as [|fuel]; [cbn in Hf; lia|]); cbn [downloads_loop];
    pose proof (iterator_next doc doc_ok it _ Hit) as Hn; apply wp_bind.
  - destruct Hn as (it' & En & _). eapply wp_lift; [exact En|]. cbn [Z.ltb Z.compare].
    apply wp_ret, HQ; [split; [by rewrite Hl|done]|]. split_and!; [done|done|by left|]. intros _.
    exists [], []. by rewrite app_nil_r.
  - destruct Hn as (v & it' & En & Hv & Hit'). eapply wp_lift; [exact En|]. change (1 <=? 0) with false. cbv iota.
    apply wp_bind. eapply wp_lift; [by apply elements_contents|].
    apply wp_bind. apply (wp_realloc _ _ _ _ (X ⊎ owned_list owned_download (contents ds))).
    { rewrite Hl. unfold owned_downloads. balance. }
    2: { intros m1 Hm1 Hno. apply wp_ret, HQ; [eapply after_eq; [exact Hm1|exact Hl]|].
         split_and!; [done|done|by right|by intros ?]. }
    intros b m1 Hm1. apply wp_bind, (parse_download_spec v t); [done|]. intros r m2 Hm2 [Hgood Hexact].
    pose proof (after_ok _ _ _ Hm1) as Hmem. destruct r as [d|].
    + cbn in Hf. assert (Hone : contents (Some (b, contents ds ++ [d])) = contents ds ++ [d]) by done.
      apply (IH it' _ _ fuel Q m2 X); [done|lia| | | |].
      * unfold array_ok in *. rewrite Hone, zlen_app, Ha. done.
      * rewrite Hone. apply Forall_app. split; [done|]. constructor; [by apply Hgood|constructor].
      * rewrite (proj1 Hm2), (proj1 Hm1). unfold owned_downloads. rewrite Hone, owned_list_app. cbn [block].
        change (owned_list owned_download [d]) with (owned_download d ⊎ ∅). balance.
      * intros r m3 Hm3 Hr. apply HQ; [by do 2 (eapply after_trans; [eassumption|])|].
        destruct r as [[result ds'] n']. destruct Hr as (H1 & H2 & H3 & H4). split_and!; [done|done|done|].
        intros Hok. specialize (H4 (after_ok _ _ _ Hm2 (Hmem Hok))). destruct (Hexact (Hmem Hok)) as (i & Ei & Hi).
        cbn [mapM]. rewrite Ei. destruct (result =? 0).
        -- destruct H4 as (new & infos & Ec & Em & Hall). exists (d :: new), (i :: infos).
           rewrite Ec, Hone, <- app_assoc. split_and!; [done|cbn; by rewrite Em|by constructor].
        -- cbn. by rewrite H4.
    + apply wp_ret, HQ.
      { eapply after_eq; [by eapply after_trans|]. rewrite (proj1 Hm1). unfold owned_downloads.
        cbn [fst snd contents block]. balance. }
      split_and!; [done|done|by right|]. intros Hok. specialize (Hexact (Hmem Hok)). cbn [Z.eqb mapM] in *.
      cbn. by rewrite Hexact.
Qed.

Lemma parse_downloads_spec v ms (Q : Z * ptr (list retro_vault_download) * Z -> mem -> Prop) m :
  shows v (JObject ms) ->
  (forall r m', after m m' (live m ⊎ owned_downloads r.1.2) -> downloads_read m [] (ref_downloads ms) r -> Q r m') ->
  wp (parse_downloads doc v) Q m.
Proof.
  intros Hv HQ. apply wp_bind, (get_member_spec doc doc_ok v ms); [done|]. intros r m1 Hm1 Hs.
  assert (Hnone : forall r, r = 0 \/ r = -1 ->
    (memory_ok m -> ref_downloads ms = if r =? 0 then Some [] else None) -> Q (r, None, 0) m1).
  { intros r' Hr' Href. apply HQ.
    { eapply after_eq; [done|]. unfold owned_downloads, owned_list. cbn. balance. }
    split_and!; [done|constructor|done|]. intros Hok. specialize (Href Hok). destruct (r' =? 0); [|done].
    exists [], []. by split_and!. }
  destruct Hs as [(t & u & -> & Hu & k & Hin & Hk & Hf)|[-> Hf]]; cbn [Z.ltb Z.compare].
  2: { apply wp_ret, Hnone; [by left|]. intros Hok. unfold ref_downloads. by rewrite (Hf Hok). }
  rewrite (shows_type doc u t Hu).
  destruct t as [|b|raw|raw|items|members]; cbn [kind];
    try (rewrite !bool_decide_false by done; apply wp_ret, Hnone; [by right|]; intros Hok; unfold ref_downloads;
         by rewrite (Hf Hok)).
  - rewrite bool_decide_true by done. apply wp_ret, Hnone; [by left|]. intros Hok. unfold ref_downloads.
    by rewrite (Hf Hok).
  - rewrite bool_decide_false, bool_decide_true by done. cbn [negb].
    destruct (iterator_init doc doc_ok u items Hu) as (it & -> & Hit).
    apply (downloads_loop_spec items _ _ _ _ Q m1 (live m)); [done|apply array_length in Hu; lia|done|constructor| |].
    { rewrite (proj1 Hm1). unfold owned_downloads, owned_list. cbn. balance. }
    intros r m2 Hm2 Hr. apply HQ; [by eapply after_trans|]. destruct r as [[result ds] n].
    destruct Hr as (H1 & H2 & H3 & H4). split_and!; [done|done|done|]. intros Hok.
    unfold ref_downloads. rewrite (Hf Hok). exact (H4 (after_ok _ _ _ Hm1 Hok)).
Qed.

(** ** Packages *)

Definition nonempty_text (p : ptr (list Z)) : Prop := exists s, text_is p s /\ s <> [].
Definition package_ok (p : retro_vault_package) : Prop :=
  nonempty_text (p_id p) /\ nonempty_text (p_name p) /\ text_ok (p_vendor p) /\ text_ok (p_platform_id p) /\
  text_ok (p_platform_name p) /\ text_ok (p_model_id p) /\ text_ok (p_model_name p) /\ text_ok (p_version p) /\
  text_ok (p_description p) /\ counted p /\ Forall download_ok (contents (p_downloads p)) /\
  0 <= p_release_year p < 65536 /\ 0 <= p_rating p <= 4.
Definition package_is (p : retro_vault_package) (i : package_info) : Prop :=
  text_is (p_id p) (pi_id i) /\ text_is (p_name p) (pi_name i) /\ text_is (p_vendor p) (pi_vendor i) /\
  text_is (p_platform_id p) (pi_platform_id i) /\ text_is (p_platform_name p) (pi_platform_name i) /\
  text_is (p_model_id p) (pi_model_id i) /\ text_is (p_model_name p) (pi_model_name i) /\
  text_is (p_version p) (pi_version i) /\ text_is (p_description p) (pi_description i) /\
  p_release_year p = pi_year i /\ p_rating p = pi_rating i /\
  Forall2 download_is (contents (p_downloads p)) (pi_downloads i).

Lemma parse_rating_range r : 0 <= parse_rating r <= 4.
Proof.
  unfold parse_rating, RETRO_VAULT_RATING_UNKNOWN, RETRO_VAULT_RATING_CURIOUS, RETRO_VAULT_RATING_AVERAGE,
    RETRO_VAULT_RATING_GREAT, RETRO_VAULT_RATING_LEGENDARY. repeat case_match; lia.
Qed.

Lemma texts_ten texts : (length texts <= 10)%nat ->
  let r := store_all package_strings texts (zero_package, None) in
  owned_package r.1 ⊎ block r.2 = owned_list block texts /\ counted r.1 /\ p_downloads r.1 = None.
Proof.
  intros Hl r. subst r. unfold owned_package, owned_strings, owned_downloads, owned_list, counted, array_ok.
  do 10 (destruct texts as [|? texts]; [split; [cbn; balance|done]|]).
  destruct texts; [split; [cbn; balance|done]|cbn in Hl; lia].
Qed.

(** The package of which one string is missing is refused. *)
Lemma ref_package_missing ms : Exists (field_missing ms) package_strings -> ref_package (JObject ms) = None.
Proof.
  intros He. unfold ref_package.
  repeat (apply Exists_cons in He as [He|He];
    [unfold field_missing in He; cbn [fst snd] in He; rewrite He; by repeat case_match|]).
  by apply Exists_nil in He.
Qed.

(** A failure releases what there is. *)
Lemma package_fail_spec p rating (Q : option retro_vault_package -> mem -> Prop) m X :
  counted p -> live m = X ⊎ (owned_package p ⊎ block rating) -> (forall m', after m m' X -> Q None m') ->
  wp (parse_package_fail p rating) Q m.
Proof.
  intros Hc Hl HQ. apply wp_bind, (wp_free _ _ _ (X ⊎ owned_package p)); [rewrite Hl; balance|].
  intros m1 Hm1. apply wp_bind. eapply free_package_spec; [done|apply Hm1|]. intros m2 Hm2.
  apply wp_ret, HQ. by eapply after_trans.
Qed.

(** The last step: the package with its year and rating. *)
Lemma finish_package_spec package rating year known (Q : option retro_vault_package -> mem -> Prop) m X :
  text_ok rating -> live m = X ⊎ (owned_package package ⊎ block rating) ->
  (forall m' r, after m m' (X ⊎ owned_package package) -> (forall s, text_is rating s -> r = rating_of s) ->
     0 <= r <= 4 ->
     Q (Some (with_facts package (if known && (year <=? UINT16_MAX) then u16 year else 0) r)) m') ->
  wp (let! rating_text := lift (match rating with None => Some None | Some _ => Some <$> string_at rating end) in
      do! free rating;
      ret (Some (with_facts package (if known && (year <=? UINT16_MAX) then u16 year else 0)
                   (parse_rating rating_text)))) Q m.
Proof.
  intros Hr Hl HQ.
  assert (Hgo : forall o, (forall s, text_is rating s -> o = Some s) ->
    wp (do! free rating; ret (Some (with_facts package (if known && (year <=? UINT16_MAX) then u16 year else 0)
          (parse_rating o)))) Q m).
  { intros o Ho. apply wp_bind, (wp_free _ _ _ (X ⊎ owned_package package)); [rewrite Hl; balance|].
    intros m1 Hm1. apply wp_ret, HQ; [done| |apply parse_rating_range]. intros s Hs. by rewrite (Ho s Hs), parse_rating_of. }
  apply wp_bind. destruct Hr as [->|[s Hs]].
  - eapply wp_lift; [done|]. apply Hgo. intros s [_ (b & rest & [=])].
  - pose proof (text_is_string _ _ Hs) as E. destruct Hs as [Hc (b & rest & ->)]. rewrite E.
    eapply wp_lift; [done|]. apply Hgo. intros s' Hs'. apply text_is_string in Hs'. congruence.
Qed.

Lemma year_range known year : 0 <= year < 2 ^ 64 ->
  0 <= (if known && (year <=? UINT16_MAX) then u16 year else 0) < 65536.
Proof. intros Hy. destruct (known && _); [apply u16_range|lia]. Qed.
Lemma year_exact o : 0 <= default 0 o ->
  (if (match o with Some _ => true | None => false end) && (default 0 o <=? UINT16_MAX) then u16 (default 0 o) else 0) =
  (match o with Some y => if y <=? 65535 then y else 0 | None => 0 end).
Proof.
  intros Ho. destruct o as [y|]; [|done]. cbn in *. unfold UINT16_MAX.
  destruct (Z.leb_spec y 65535); [apply u16_small; lia|done].
Qed.

(** All its strings read, a package with its downloads, year and rating is
    the one of the text. *)
Lemma package_made (m : mem) ms texts package rating ds n o :
  Forall2 (field_read (memory_ok m) ms) package_strings texts ->
  store_all package_strings texts (zero_package, None) = (package, rating) ->
  0 <= default 0 o < 2 ^ 64 -> (memory_ok m -> uint_member ms (text "releaseYear") = Some o) ->
  array_ok ds n -> Forall download_ok (contents ds) ->
  (memory_ok m -> exists infos, ref_downloads ms = Some infos /\ Forall2 download_is (contents ds) infos) ->
  text_ok rating /\
  forall rt, (forall s, text_is rating s -> rt = rating_of s) -> 0 <= rt <= 4 ->
    made m package_ok package_is
      (Some (with_facts (with_downloads package ds n)
        (if (match o with Some _ => true | None => false end) && (default 0 o <=? UINT16_MAX)
         then u16 (default 0 o) else 0) rt))
      (ref_package (JObject ms)).
Proof.
  intros Hread Est Ho Hyear Ha Hds Href.
  do 10 (let x := fresh "x" in let l := fresh "l" in let H := fresh "F" in let Hr := fresh "Hr" in
    inversion Hread as [|? x ? l H Hr]; subst; clear Hread; rename Hr into Hread). inversion Hread; subst; clear Hread.
  cbn in Est. injection Est as <- <-. split; [apply F8|]. intros rt Hrt Hrange. split.
  - intros p [= <-]. unfold package_ok, with_facts. cbn. repeat match goal with H : field_read _ _ _ _ |- _ =>
      destruct H as (? & ? & ?) end. cbn [fst snd] in *.
    split_and!; try assumption; try match goal with H : true = true -> _ |- _ => exact (H eq_refl) end;
      try apply year_range; lia.
  - intros Hok. repeat match goal with H : field_read _ _ _ _ |- _ =>
      destruct H as (_ & _ & H); destruct (H Hok) as (? & ? & ?); clear H end. cbn [fst snd] in *.
    destruct (Href Hok) as (infos & Edl & Hall).
    unfold ref_package. repeat match goal with H : string_member _ _ _ = _ |- _ => rewrite H; clear H end.
    rewrite (Hyear Hok), Edl. eexists. split; [done|]. unfold package_is. cbn.
    split_and!; try assumption; [apply year_exact; lia|by apply Hrt].
Qed.

Lemma parse_package_spec v t (Q : option retro_vault_package -> mem -> Prop) m :
  shows v t ->
  (forall r m', after m m' (live m ⊎ match r with Some p => owned_package p | None => ∅ end) ->
     made m package_ok package_is r (ref_package t) -> Q r m') ->
  wp (parse_package doc v) Q m.
Proof.
  intros Hv HQ. unfold parse_package. rewrite (shows_type doc v t Hv).
  assert (Hfail : forall p rating m1, counted p -> after m m1 (live m ⊎ (owned_package p ⊎ block rating)) ->
    (memory_ok m -> ref_package t = None) -> wp (parse_package_fail p rating) Q m1).
  { intros p rating m1 Hc Hm1 Hno. eapply package_fail_spec; [done|apply Hm1|]. intros m2 Hm2.
    apply HQ; [|by split]. eapply after_eq; [by eapply after_trans|]. balance. }
  assert (Hother : (match t with JObject _ => False | _ => True end) -> wp (parse_package_fail zero_package None) Q m).
  { intros Ht. apply Hfail; [done| |by destruct t]. split; [|done].
    unfold owned_package, owned_strings, owned_downloads, owned_list. cbn. balance. }
  destruct t as [|b|raw|raw|items|ms]; cbn [kind];
    try (rewrite bool_decide_false by done; apply Hother; exact I).
  rewrite bool_decide_true by done. cbn [negb].
  apply wp_bind, (read_strings_spec v ms); [done|]. intros ok texts m1 Hm1 Hread. cbv beta iota.
  assert (Hl : (length texts <= 10)%nat).
  { destruct ok; [by rewrite <- (Forall2_length _ _ _ Hread)|by destruct Hread]. }
  destruct (texts_ten texts Hl) as (Hown & Hcnt & Hnodl).
  destruct (store_all package_strings texts (zero_package, None)) as [package rating] eqn:Est. cbn [fst snd] in *.
  rewrite <- Hown in Hm1. clear Hown. pose proof (after_ok _ _ _ Hm1) as Hmem1.
  destruct ok; cbn [negb].
  2: { apply Hfail; [done|done|]. intros Hok. apply ref_package_missing, Hread, Hok. }
  (* the year *)
  apply wp_bind, (uint_member_spec v ms); [done|]. intros r m2 Hm2 Hyear. rewrite (proj1 Hm1) in Hm2.
  assert (Hm02 : after m m2 (live m ⊎ (owned_package package ⊎ block rating))) by (by eapply after_trans).
  pose proof (after_ok _ _ _ Hm2) as Hmem2. clear Hm1.
  destruct Hyear as [(o & -> & Ho & Hyear)|[-> Hyear]]; cbn [Z.eqb negb].
  2: { apply Hfail; [done|done|]. intros Hok. unfold ref_package. rewrite (Hyear (Hmem1 Hok)). by repeat case_match. }
  (* the downloads *)
  apply wp_bind, (parse_downloads_spec v ms); [done|]. intros [[result ds] n] m3 Hm3 Hdl. cbn [fst snd] in Hm3.
  destruct Hdl as (Ha & Hds & Hres & Href). cbv beta iota.
  assert (Hm03 : after m m3 (live m ⊎ (owned_package (with_downloads package ds n) ⊎ block rating))).
  { eapply after_eq; [by eapply after_trans|]. rewrite (proj1 Hm02). unfold owned_package, owned_strings.
    cbn [with_downloads p_id p_name p_vendor p_platform_id p_platform_name p_model_id p_model_name p_version
      p_description p_downloads]. rewrite Hnodl. change (owned_downloads None) with (∅ ⊎ ∅ : gmultiset nat). balance. }
  destruct Hres as [->| ->]; cbn [Z.eqb negb].
  2: { apply Hfail; [done|done|]. intros Hok. unfold ref_package. cbn [Z.eqb] in Href.
       rewrite (Href (Hmem2 (Hmem1 Hok))). by repeat case_match. }
  (* success *)
  destruct (package_made m ms texts package rating ds n o) as [Hrok Hmade]; try done.
  { intros Hok. apply Hyear, Hmem1, Hok. }
  { intros Hok. destruct (Href (Hmem2 (Hmem1 Hok))) as (new & infos & -> & ? & ?). eauto. }
  eapply finish_package_spec; [done|apply Hm03|]. intros m4 rt Hm4 Hrt Hrange.
  apply HQ; [by eapply after_trans|by apply Hmade].
Qed.

(** ** The catalog *)

Definition packages_ok (ps : ptr (list retro_vault_package)) (n : Z) : Prop :=
  array_ok ps n /\ Forall package_ok (contents ps) /\ n <= 65535.
(** The memory a result owns. *)
Definition owned_result (r : option (ptr (list retro_vault_package) * Z)) : gmultiset nat :=
  match r with Some (ps, _) => owned_packages ps | None => ∅ end.
(** The outcome of reading packages behind [old]. *)
Definition packages_read (m : mem) (old : list retro_vault_package) (vs : list json)
    (r : option (ptr (list retro_vault_package) * Z)) : Prop :=
  (forall ps n, r = Some (ps, n) -> packages_ok ps n) /\
  (memory_ok m ->
   match r with
   | Some (ps, n) => zlen old + zlen vs <= 65535 /\
       exists new infos, contents ps = old ++ new /\ mapM ref_package vs = Some infos /\ Forall2 package_is new infos
   | None => 65535 < zlen old + zlen vs \/ mapM ref_package vs = None
   end).

Lemma package_ok_counted l : Forall package_ok l -> Forall counted l.
Proof. intros H. eapply Forall_impl; [exact H|]. by intros p (_ & _ & _ & _ & _ & _ & _ & _ & _ & ? & _). Qed.

Lemma packages_loop_spec vs : forall it ps n fuel (Q : option (ptr (list retro_vault_package) * Z) -> mem -> Prop) m X,
  iter_at doc it vs -> (length vs < fuel)%nat -> packages_ok ps n ->
  live m = X ⊎ owned_packages ps ->
  (forall r m', after m m' (X ⊎ owned_result r) -> packages_read m (contents ps) vs r -> Q r m') ->
  wp (packages_loop doc fuel it ps n) Q m.
Proof.
  induction vs as [|t vs IH]; intros it ps n fuel Q m X Hit Hf (Ha & Hps & Hn) Hl HQ;
    (destruct fuel as [|fuel]; [cbn in Hf; lia|]); cbn [packages_loop];
    pose proof (iterator_next doc doc_ok it _ Hit) as Hnext; apply wp_bind.
  { destruct Hnext as (it' & En & _). eapply wp_lift; [exact En|]. cbn [Z.ltb Z.compare].
    apply wp_ret, HQ; [split; [by rewrite Hl|done]|]. split; [by intros ps' n' [= <- <-]|]. intros _.
    rewrite zlen_nil. unfold array_ok in Ha. split; [lia|]. exists [], []. by rewrite app_nil_r. }
  destruct Hnext as (v & it' & En & Hv & Hit'). eapply wp_lift; [exact En|]. change (1 <=? 0) with false. cbv iota.
  (* a failure releases the packages read so far *)
  assert (Hfail : forall qs m1, array_ok qs n -> Forall package_ok (contents qs) ->
    after m m1 (X ⊎ owned_packages qs) ->
    (memory_ok m -> 65535 < zlen (contents ps) + zlen (t :: vs) \/ mapM ref_package (t :: vs) = None) ->
    wp (do! free_packages qs n; ret None) Q m1).
  { intros qs m1 Hqa Hqs Hm1 Hno. apply wp_bind.
    eapply free_packages_spec; [done|by apply package_ok_counted|apply Hm1|]. intros m2 Hm2. apply wp_ret, HQ.
    - eapply after_eq; [by eapply after_trans|]. cbn [owned_result]. balance.
    - by split. }
  unfold RETRO_VAULT_CURSOR_END. unfold array_ok in Ha. destruct (Z.leb_spec 65535 n).
  { apply Hfail; [done|done|by split|]. intros _. left. rewrite zlen_cons. pose proof (zlen_nonneg vs). lia. }
  apply wp_bind. eapply wp_lift; [by apply elements_contents|].
  apply wp_bind. apply (wp_realloc _ _ _ _ (X ⊎ owned_list owned_package (contents ps))).
  { rewrite Hl. unfold owned_packages. balance. }
  2: { intros m1 Hm1 Hno. apply Hfail; [done|done|eapply after_eq; [exact Hm1|exact Hl]|by intros ?]. }
  intros b m1 Hm1. apply wp_bind, (parse_package_spec v t); [done|]. intros r m2 Hm2 [Hgood Hexact].
  pose proof (after_ok _ _ _ Hm1) as Hmem. destruct r as [p|].
  - cbn in Hf. assert (Hone : contents (Some (b, contents ps ++ [p])) = contents ps ++ [p]) by done.
    apply (IH it' _ _ fuel Q m2 X); [done|lia| | |].
    + split_and!; [unfold array_ok; rewrite Hone, zlen_app, Ha; done| |lia].
      rewrite Hone. apply Forall_app. split; [done|]. constructor; [by apply Hgood|constructor].
    + rewrite (proj1 Hm2), (proj1 Hm1). unfold owned_packages. rewrite Hone, owned_list_app. cbn [block].
      change (owned_list owned_package [p]) with (owned_package p ⊎ ∅). balance.
    + intros r m3 Hm3 [Hr1 Hr2]. apply HQ; [by do 2 (eapply after_trans; [eassumption|])|]. split; [done|].
      intros Hok. specialize (Hr2 (after_ok _ _ _ Hm2 (Hmem Hok))). destruct (Hexact (Hmem Hok)) as (i & Ei & Hi).
      rewrite Hone, zlen_app, zlen_cons, zlen_nil in Hr2. rewrite zlen_cons. cbn [mapM]. rewrite Ei.
      destruct r as [[ps' n']|].
      * destruct Hr2 as (Hlen & new & infos & Ec & Em & Hall). split; [lia|]. exists (p :: new), (i :: infos).
        rewrite Ec, <- app_assoc. split_and!; [done|cbn; by rewrite Em|by constructor].
      * destruct Hr2 as [Hlen|Em]; [left; lia|right]. cbn. by rewrite Em.
  - apply Hfail; [done|done| |].
    + eapply after_eq; [by eapply after_trans|]. rewrite (proj1 Hm1). unfold owned_packages.
      cbn [contents block]. balance.
    + intros Hok. right. specialize (Hexact (Hmem Hok)). cbn [mapM]. cbn. by rewrite Hexact.
Qed.
End doc.

(** What the reader makes of a text, for a tree of it. *)
Definition catalog_exact (m : mem) (t : json) (r : option (ptr (list retro_vault_package) * Z)) : Prop :=
  memory_ok m ->
  match r with
  | Some (ps, _) => exists infos, ref_catalog t = Some infos /\ Forall2 package_is (contents ps) infos
  | None => ref_catalog t = None
  end.

Lemma parse_catalog_tree b doc rest t v m :
  bytes_ok doc -> document doc (zlen doc) t v ->
  wp (parse_catalog (Some (b, doc ++ rest)) (zlen doc))
    (fun r m' => after m m' (live m ⊎ owned_result r) /\ (forall ps n, r = Some (ps, n) -> packages_ok ps n) /\
       catalog_exact m t r) m.
Proof.
  intros Hdoc Ht. unfold parse_catalog.
  assert (Hsize : 0 <= zlen doc <= zlen doc) by (pose proof (zlen_nonneg doc); lia).
  apply wp_bind. eapply wp_lift; [exact (f_equal (fmap Some) (rd_bytes_mid [] doc rest Hdoc))|].
  apply wp_bind. eapply wp_lift; [by eapply parse_document_complete|].
  pose proof (document_shows doc _ _ _ Hsize Ht) as Hv. cbv beta iota. rewrite (shows_type doc v t Hv).
  assert (Hnone : ref_catalog t = None -> after m m (live m ⊎ owned_result None) /\
    (forall ps n, None = Some (ps, n) -> packages_ok ps n) /\ catalog_exact m t None).
  { intros Hno. split; [split; [cbn [owned_result]; balance|done]|]. split; [done|by intros _]. }
  destruct t as [|x|raw|raw|items|ms]; cbn [kind];
    try (rewrite bool_decide_false by done; by apply wp_ret, Hnone).
  rewrite bool_decide_true by done. cbn [negb]. destruct (iterator_init doc Hdoc v items Hv) as (it & -> & Hit).
  apply (packages_loop_spec doc Hdoc items it None 0 _ _ m (live m)); [done| | | |].
  - destruct Ht as (w & s & w' & Ed & _ & _ & _ & _ & Ev). pose proof (array_length doc v items Hv) as Hl. subst v.
    cbn [v_start v_end] in Hl. unfold zlen in Ed. rewrite Nat2Z.id, firstn_all in Ed.
    assert (zlen s <= zlen doc).
    { rewrite Ed, !zlen_app. pose proof (zlen_nonneg w). pose proof (zlen_nonneg w'). lia. }
    lia.
  - split_and!; [done|constructor|lia].
  - unfold owned_packages, owned_list. cbn. balance.
  - intros r m' Hm' [Hr1 Hr2]. split; [done|]. split; [done|]. intros Hok. specialize (Hr2 Hok). cbn [contents] in Hr2.
    rewrite zlen_nil in Hr2. unfold ref_catalog. destruct r as [[ps n]|].
    + destruct Hr2 as (Hn & new & infos & -> & Em & Hall). destruct (Z.ltb_spec 65535 (zlen items)); [lia|]. eauto.
    + destruct Hr2 as [Hn|Em]; [by destruct (Z.ltb_spec 65535 (zlen items)); [|lia]|]. rewrite Em. by case_match.
Qed.

(** What the reader makes of a text: packages in order, or nothing; exactly
    what every tree of the text says; nothing when there is no tree. *)
Definition catalog_read (m : mem) (doc : list Z) (r : option (ptr (list retro_vault_package) * Z)) : Prop :=
  (forall ps n, r = Some (ps, n) -> packages_ok ps n /\ exists t v, document doc (zlen doc) t v) /\
  forall t v, document doc (zlen doc) t v -> catalog_exact m t r.

Lemma parse_catalog_spec b doc rest (Q : option (ptr (list retro_vault_package) * Z) -> mem -> Prop) m :
  bytes_ok doc ->
  (forall r m', after m m' (live m ⊎ owned_result r) -> catalog_read m doc r -> Q r m') ->
  wp (parse_catalog (Some (b, doc ++ rest)) (zlen doc)) Q m.
Proof.
  intros Hdoc HQ.
  assert (Hsize : 0 <= zlen doc <= zlen doc) by (pose proof (zlen_nonneg doc); lia).
  destruct (parse_document_sound doc Hdoc (zlen doc) Hsize) as (root & Eroot & Hroot).
  destruct root as [v|].
  - destruct (Hroot v eq_refl) as [t Ht].
    pose proof (parse_catalog_tree b doc rest t v m Hdoc Ht) as Hwp. apply wp_inv in Hwp as (r & m' & E & Hm' & Hok & _).
    apply wp_inv. exists r, m'. split; [done|]. apply HQ; [done|]. split; [intros ps n Hr; split; [by eapply Hok|eauto]|].
    intros t' v' Ht'. pose proof (parse_catalog_tree b doc rest t' v' m Hdoc Ht') as Hwp.
    apply wp_inv in Hwp as (r2 & m2 & E2 & _ & _ & Hex). rewrite E in E2. by injection E2 as <- <-.
  - unfold parse_catalog.
    apply wp_bind. eapply wp_lift; [exact (f_equal (fmap Some) (rd_bytes_mid [] doc rest Hdoc))|].
    apply wp_bind. eapply wp_lift; [exact Eroot|]. apply wp_ret, HQ; [split; [cbn [owned_result]; balance|done]|].
    split; [done|]. intros t v Ht. apply parse_document_complete in Ht; [congruence|done|done].
Qed.

(** C12. The catalog reader implements the catalog of the JSON document: on any
    bytes it returns, reading nothing outside them; whatever allocation fails
    it never frees a block twice and never leaks one, so that the blocks live
    afterwards are those before and those the packages own; the packages are
    well formed and at most 65535.  When memory is there, packages are returned
    exactly when the document is an array of that many acceptable package
    objects, and each package has the decoded members, the year, the rating
    code and the downloads of its object, in order, with the number of files up
    to 255 and their total size: the sum of files below 4 GiB, unknown when one
    size is unknown or the sum exceeds 32 bits.  Files of 4 GiB or more are
    added up modulo 2^32 (or end as unknown), so their total is not the sum. *)
Theorem catalog_parse_exact b doc rest m :
  bytes_ok doc ->
  exists r m', parse_catalog (Some (b, doc ++ rest)) (zlen doc) m = Some (r, m') /\
    live m' = live m ⊎ owned_result r /\
    (forall ps n, r = Some (ps, n) -> packages_ok ps n /\ exists t v, document doc (zlen doc) t v) /\
    (memory_ok m -> forall t v, document doc (zlen doc) t v ->
       match r with
       | Some (ps, _) => exists infos, ref_catalog t = Some infos /\ Forall2 package_is (contents ps) infos
       | None => ref_catalog t = None
       end).
Proof.
  intros Hdoc.
  assert (Hwp : wp (parse_catalog (Some (b, doc ++ rest)) (zlen doc))
    (fun r m' => after m m' (live m ⊎ owned_result r) /\ catalog_read m doc r) m).
  { by apply parse_catalog_spec. }
  apply wp_inv in Hwp as (r & m' & E & [Hm' _] & Hok & Hex). exists r, m'. split_and!; [done|done|done|].
  intros Hmem t v Ht. exact (Hex t v Ht Hmem).
Qed.

(** A catalog with a package that has one download of two files, and a package
    of another platform. *)
Definition sample_text : string :=
  "[{'id':'elite','name':'Elit\u00e9','vendor':null,'platformId':'Iskra-Delta-Partner','modelId':'Partner',
     'rating':'Great','releaseYear':1984,
     'downloads':[{'id':'tap','label':'Tape','format':'TAP',
                   'files':[{'sizeBytes':48000},{'sizeBytes':12}]}]},
    {'id':'manic','name':'Manic Miner','platformId':'zx-spectrum'}]".
(** Double quotes for single ones. *)
Definition sample_doc : list Z := map (fun c => if c =? 39 then 34 else c) (text sample_text).
Definition sample_mem : mem := Mem ∅ 0 (fun _ => false).

Lemma catalog_parse_exact_witness :
  bytes_ok sample_doc /\ memory_ok sample_mem /\
  (exists ps n m', parse_catalog (Some (0%nat, sample_doc ++ [])) (zlen sample_doc) sample_mem = Some (Some (ps, n), m') /\
     live m' = live sample_mem ⊎ owned_packages ps /\
     exists t v infos, document sample_doc (zlen sample_doc) t v /\ ref_catalog t = Some infos /\
       Forall2 package_is (contents ps) infos).
Proof.
  assert (Hb : bytes_ok sample_doc) by closed. assert (Hm : memory_ok sample_mem) by done.
  split; [exact Hb|]. split; [exact Hm|].
  destruct (catalog_parse_exact 0 sample_doc [] sample_mem Hb) as (r & m' & E & Hl & Hok & Hex).
  assert (Hn : match parse_catalog (Some (0%nat, sample_doc ++ [])) (zlen sample_doc) sample_mem with
    | Some (Some _, _) => true | _ => false end = true) by (vm_compute; reflexivity).
  rewrite E in Hn. destruct r as [[ps n]|]; [|discriminate Hn]. exists ps, n, m'.
  split; [exact E|]. split; [exact Hl|]. destruct (Hok ps n eq_refl) as (_ & t & v & Ht).
  destruct (Hex Hm t v Ht) as (infos & Ei & Hi). exists t, v, infos. exact (conj Ht (conj Ei Hi)).
Defined.
