(* ===== verification/VaultServe.v ===== *)
(** The retrovault service, continued (lib/retrovault/retrovault_core.c): the
    cached catalog, the filters, the pages and the request handlers. *)
From stdpp Require Import base numbers list option gmultiset strings.
From Stdlib Require Import ZArith Lia.
From S2P Require Import Prelude Wire CLib Heap Json Vault.

Local Open Scope Z_scope.
Local Open Scope squid_scope.

Definition http_error_status (http_result status_code : Z) : Z :=
  if http_result =? retro_vault_http_too_large then RETRO_VAULT_STATUS_TOO_LARGE
  else if (status_code =? 404) || (status_code =? 409) then RETRO_VAULT_STATUS_NOT_FOUND
  else RETRO_VAULT_STATUS_API_UNAVAILABLE.

(** ** Filters *)

(** The loop that compares characters up to case. *)
Fixpoint same_ci (lhs rhs : list Z) : bool :=
  match lhs, rhs with
  | [], [] => true
  | a :: lhs, b :: rhs => if negb (tolower a =? tolower b) then false else same_ci lhs rhs
  | _, _ => false
  end.

Definition text_equals_case_insensitive (lhs : ptr (list Z)) (rhs : list Z) : option bool :=
  match lhs with
  | None => Some false
  | Some _ =>
      let? lhs := string_at lhs in
      if negb (zlen lhs =? zlen rhs) then Some false else Some (same_ci lhs rhs)
  end.

(** The loop over [start]. *)
Fixpoint contains_loop (fuel : nat) (text query : list Z) (start : Z) : bool :=
  match fuel with
  | O => false
  | S fuel =>
      if start <=? zlen text - zlen query then
        if same_ci (take (length query) (drop (Z.to_nat start) text)) query then true
        else contains_loop fuel text query (start + 1)
      else false
  end.

(** [query] is not NULL where this is called. *)
Definition text_contains_case_insensitive (text : ptr (list Z)) (query : list Z) : option bool :=
  match text with
  | None => Some false
  | Some _ =>
      if zlen query =? 0 then Some false
      else
        let? text := string_at text in
        if zlen text <? zlen query then Some false
        else Some (contains_loop (S (length text)) text query 0)
  end.

Definition text_is_identifier (text : ptr (list Z)) (identifier : list Z) : option bool :=
  text_equals_case_insensitive text identifier.

(** [||] of two tests. *)
Definition or_else (a b : option bool) : option bool :=
  let? x := a in if (x : bool) then Some true else b.

(** The filter against two literals. *)
Definition filter_matches_alias (filter canonical legacy : list Z) : bool :=
  ((zlen canonical =? zlen filter) && same_ci canonical filter)
  || ((zlen legacy =? zlen filter) && same_ci legacy filter).

Definition platform_is_idp (platform_id : ptr (list Z)) : option bool :=
  or_else (text_is_identifier platform_id (text "idp"))
    (text_is_identifier platform_id (text "iskra-delta-partner")).

Definition platform_matches_filter (platform_id : ptr (list Z)) (filter : list Z) : option bool :=
  let? same := text_equals_case_insensitive platform_id filter in
  if (same : bool) then Some true
  else
    let? idp := platform_is_idp platform_id in
    if (idp : bool) && filter_matches_alias filter (text "idp") (text "iskra-delta-partner") then Some true
    else
      let? zxs := or_else (text_is_identifier platform_id (text "zxs"))
                    (text_is_identifier platform_id (text "zx-spectrum")) in
      Some ((zxs : bool) && filter_matches_alias filter (text "zxs") (text "zx-spectrum")).

Definition package_matches (package : retro_vault_package) (platform model query : list Z) : option bool :=
  let? platform_ok :=
    if 0 <? zlen platform then platform_matches_filter (p_platform_id package) platform else Some true in
  if negb platform_ok then Some false
  else
    let? model_ok :=
      if 0 <? zlen model then text_equals_case_insensitive (p_model_id package) model else Some true in
    if negb model_ok then Some false
    else if zlen query =? 0 then Some true
    else
      or_else (text_contains_case_insensitive (p_id package) query)
        (or_else (text_contains_case_insensitive (p_name package) query)
           (or_else (text_contains_case_insensitive (p_vendor package) query)
              (text_contains_case_insensitive (p_description package) query))).

(** ** Pages *)

(** [while ((size > 0) && ((text[size] & 0xC0) == 0x80)) --size]: the cut is
    moved in front of the character it would split. *)
Fixpoint trim_utf8 (text : list Z) (size : nat) : option Z :=
  match size with
  | O => Some 0
  | S n =>
      let? c := rd text (Z.of_nat size) in
      if Z.land c 192 =? 128 then trim_utf8 text n else Some (Z.of_nat size)
  end.

(** The array and the size; 0 when the entry does not fit. *)
Definition make_list_entry (package : retro_vault_package) (entry : list Z) (entry_capacity : Z)
    : option (list Z * Z) :=
  match p_id package, p_name package with
  | Some (_, id_cells), Some (_, name_cells) =>
      let? id := cstring id_cells in
      let? name := cstring name_cells in
      let id_size := zlen id in
      if (entry_capacity <? 2) || (UINT8_MAX <? id_size) then Some (entry, 0)
      else if entry_capacity - 2 <? id_size then Some (entry, 0)
      else
        let maximum_name := entry_capacity - id_size - 2 in
        let? name_size :=
          if maximum_name <? zlen name then trim_utf8 name_cells (Z.to_nat maximum_name)
          else Some (zlen name) in
        let name_size := if UINT8_MAX <? name_size then UINT8_MAX else name_size in
        let? entry := wr entry 0 (u8 id_size) in
        let? entry := wr_bytes entry 1 id in
        let? entry := wr entry (1 + id_size) (u8 name_size) in
        let? copied := rd_bytes name_cells 0 name_size in
        let? entry := wr_bytes entry (2 + id_size) copied in
        Some (entry, 2 + id_size + name_size)
  | _, _ => None
  end.

Definition write_error_response (opcode status : Z) (response : list Z) (response_capacity : Z)
    : option (list Z * Z) :=
  write_status opcode status (Some response) response_capacity.

(** [memcpy(response + output_size, record, record_size)]. *)
Definition copy_record (response : list Z) (output_size : Z) (record : list Z) (record_size : Z)
    : option (list Z) :=
  let? bytes := rd_bytes record 0 record_size in wr_bytes response output_size bytes.

(** The header of a page. *)
Definition finish_page (opcode : Z) (response : list Z) (next_cursor count output_size : Z)
    : option (list Z * Z) :=
  let? response := wr response 0 (u8 (Z.lor opcode RETRO_VAULT_RESPONSE_BIT)) in
  let? response := wr response 1 RETRO_VAULT_STATUS_OK in
  let? response := write_u16 response 2 next_cursor in
  let? response := wr response 4 count in
  Some (response, s32 output_size).

Section page.
Variables (opcode cursor : Z) (platform model query : list Z) (response_capacity : Z).

(** The [for] over the packages. *)
Fixpoint catalog_loop (l : list retro_vault_package) (match_index entry_count output_size : Z)
    (response : list Z) : option (list Z * Z) :=
  match l with
  | [] => finish_page opcode response RETRO_VAULT_CURSOR_END entry_count output_size
  | package :: l =>
      let? matches := package_matches package platform model query in
      if negb matches then catalog_loop l match_index entry_count output_size response
      else if match_index <? cursor then
        catalog_loop l (u16 (match_index + 1)) entry_count output_size response
      else
        let? '(entry, entry_size) := make_list_entry package (uninit 249) 249 in
        if entry_size =? 0 then
          catalog_loop l (u16 (match_index + 1)) entry_count output_size response
        else if response_capacity - output_size <? entry_size then
          if entry_count =? 0 then
            let? '(entry, entry_size) := make_list_entry package entry (response_capacity - output_size) in
            if entry_size =? 0 then
              write_error_response opcode RETRO_VAULT_STATUS_TOO_LARGE response response_capacity
            else
              let? response := copy_record response output_size entry entry_size in
              catalog_loop l (u16 (match_index + 1)) (u8 (entry_count + 1)) (output_size + entry_size) response
          else finish_page opcode response match_index entry_count output_size
        else
          let? response := copy_record response output_size entry entry_size in
          catalog_loop l (u16 (match_index + 1)) (u8 (entry_count + 1)) (output_size + entry_size) response
  end.
End page.

Definition write_catalog_page {N} (context : retro_vault_context N) (opcode cursor : Z)
    (platform model query response : list Z) (response_capacity : Z) : option (list Z * Z) :=
  if response_capacity <? retro_vault_page_header_size then Some (response, -1)
  else
    let? l := elements (packages context) (package_count context) in
    catalog_loop opcode cursor platform model query response_capacity l 0 0
      retro_vault_page_header_size response.

Fixpoint find_loop {A} (id_of : A -> ptr (list Z)) (l : list A) (id : list Z) : option (option A) :=
  match l with
  | [] => Some None
  | x :: l =>
      let? same := text_equals_case_insensitive (id_of x) id in
      if (same : bool) then Some (Some x) else find_loop id_of l id
  end.
Definition find_package {N} (context : retro_vault_context N) (id : list Z)
    : option (option retro_vault_package) :=
  let? l := elements (packages context) (package_count context) in find_loop p_id l id.

(** *** Records of INFO *)

Definition make_string_tlv (type : Z) (text : ptr (list Z)) (record : list Z) (record_capacity : Z)
    : option (list Z * Z) :=
  let? text_size := match text with Some _ => zlen <$> string_at text | None => Some 0 end in
  if record_capacity <? 2 then Some (record, 0)
  else
    let? text_size :=
      if record_capacity - 2 <? text_size then
        match text with
        | Some (_, cells) => trim_utf8 cells (Z.to_nat (record_capacity - 2))
        | None => None
        end
      else Some text_size in
    let text_size := if UINT8_MAX <? text_size then UINT8_MAX else text_size in
    let? record := wr record 0 type in
    let? record := wr record 1 (u8 text_size) in
    let? record :=
      if 0 <? text_size then
        match text with
        | Some (_, cells) => let? bytes := rd_bytes cells 0 text_size in wr_bytes record 2 bytes
        | None => None
        end
      else Some record in
    Some (record, text_size + 2).

(** [output] is [record + at]; [memcpy] from NULL is not allowed. *)
Definition append_counted_text (record : list Z) (at_ output_capacity : Z) (text : ptr (list Z))
    (maximum_size : Z) : option (list Z * Z) :=
  let? text_size := match text with Some _ => zlen <$> string_at text | None => Some 0 end in
  if output_capacity <? 1 then Some (record, 0)
  else
    let text_size := if maximum_size <? text_size then maximum_size else text_size in
    let text_size := if output_capacity - 1 <? text_size then output_capacity - 1 else text_size in
    let text_size := if UINT8_MAX <? text_size then UINT8_MAX else text_size in
    match text with
    | None => None
    | Some (_, cells) =>
        let? text_size := trim_utf8 cells (Z.to_nat text_size) in
        let? record := wr record at_ (u8 text_size) in
        let? bytes := rd_bytes cells 0 text_size in
        let? record := wr_bytes record (at_ + 1) bytes in
        Some (record, text_size + 1)
    end.

Definition make_download_tlv (download : retro_vault_download) (record : list Z) (record_capacity : Z)
    : option (list Z * Z) :=
  if record_capacity <? 10 then Some (record, 0)
  else
    let? record := wr record 0 RETRO_VAULT_INFO_DOWNLOAD in
    let output_size := 2 in
    let? '(record, written) :=
      append_counted_text record output_size (u64 (record_capacity - output_size - 5)) (d_id download) 64 in
    if written =? 0 then Some (record, 0)
    else
      let output_size := output_size + written in
      let? '(record, written) :=
        append_counted_text record output_size (u64 (record_capacity - output_size - 5)) (d_label download) 96 in
      if written =? 0 then Some (record, 0)
      else
        let output_size := output_size + written in
        let? '(record, written) :=
          append_counted_text record output_size (u64 (record_capacity - output_size - 5)) (d_format download) 32 in
        if written =? 0 then Some (record, 0)
        else
          let output_size := output_size + written in
          let? record := write_u32 record output_size (d_aggregate_size download) in
          let output_size := output_size + 4 in
          let? record := wr record output_size (d_file_count download) in
          let output_size := output_size + 1 in
          let? record := wr record 1 (u8 (output_size - 2)) in
          Some (record, output_size).

Definition make_info_record (package : retro_vault_package) (cursor : Z) (record : list Z)
    (record_capacity : Z) : option (list Z * Z) :=
  if cursor =? 0 then make_string_tlv RETRO_VAULT_INFO_ID (p_id package) record record_capacity
  else if cursor =? 1 then make_string_tlv RETRO_VAULT_INFO_NAME (p_name package) record record_capacity
  else if cursor =? 2 then make_string_tlv RETRO_VAULT_INFO_VENDOR (p_vendor package) record record_capacity
  else if cursor =? 3 then
    make_string_tlv RETRO_VAULT_INFO_PLATFORM_ID (p_platform_id package) record record_capacity
  else if cursor =? 4 then
    make_string_tlv RETRO_VAULT_INFO_PLATFORM_NAME (p_platform_name package) record record_capacity
  else if cursor =? 5 then make_string_tlv RETRO_VAULT_INFO_VERSION (p_version package) record record_capacity
  else if cursor =? 6 then
    if record_capacity <? 4 then Some (record, 0)
    else
      let? record := wr record 0 RETRO_VAULT_INFO_YEAR in
      let? record := wr record 1 2 in
      let? record := write_u16 record 2 (p_release_year package) in
      Some (record, 4)
  else if cursor =? 7 then
    if record_capacity <? 3 then Some (record, 0)
    else
      let? record := wr record 0 RETRO_VAULT_INFO_RATING in
      let? record := wr record 1 1 in
      let? record := wr record 2 (p_rating package) in
      Some (record, 3)
  else if cursor =? 8 then
    make_string_tlv RETRO_VAULT_INFO_DESCRIPTION (p_description package) record record_capacity
  else if p_download_count package <=? cursor - 9 then Some (record, 0)
  else
    let? downloads := elements (p_downloads package) (p_download_count package) in
    let? download := downloads !! Z.to_nat (cursor - 9) in
    make_download_tlv download record record_capacity.

Section info.
Variables (opcode : Z) (package : retro_vault_package) (response_capacity : Z).

(** The [while]; every turn but the last adds at least two bytes to the
    response, so that [response_capacity] turns are enough. *)
Fixpoint info_loop (fuel : nat) (cursor tlv_count output_size : Z) (response : list Z)
    : option (list Z * Z) :=
  match fuel with
  | O => None
  | S fuel =>
      if cursor <? 9 + p_download_count package then
        let? '(record, record_size) := make_info_record package cursor (uninit 249) 249 in
        if record_size =? 0 then
          write_error_response opcode RETRO_VAULT_STATUS_INTERNAL_ERROR response response_capacity
        else if response_capacity - output_size <? record_size then
          if tlv_count =? 0 then
            let? '(record, record_size) :=
              make_info_record package cursor record (response_capacity - output_size) in
            if record_size =? 0 then
              write_error_response opcode RETRO_VAULT_STATUS_TOO_LARGE response response_capacity
            else
              let? response := copy_record response output_size record record_size in
              info_loop fuel (u16 (cursor + 1)) (u8 (tlv_count + 1)) (output_size + record_size) response
          else finish_page opcode response cursor tlv_count output_size
        else
          let? response := copy_record response output_size record record_size in
          info_loop fuel (u16 (cursor + 1)) (u8 (tlv_count + 1)) (output_size + record_size) response
      else finish_page opcode response RETRO_VAULT_CURSOR_END tlv_count output_size
  end.

Definition write_info_page (cursor : Z) (response : list Z) : option (list Z * Z) :=
  if (response_capacity <? retro_vault_page_header_size)
     || (9 + p_download_count package <? cursor) then
    write_error_response opcode RETRO_VAULT_STATUS_BAD_REQUEST response response_capacity
  else
    info_loop (Z.to_nat response_capacity) cursor 0 retro_vault_page_header_size response.
End info.

(** ** Downloads *)

Definition safe_character (c : Z) : bool :=
  ((97 <=? c) && (c <=? 122)) || ((65 <=? c) && (c <=? 90)) || ((48 <=? c) && (c <=? 57))
  || (c =? 45) || (c =? 95).
Definition identifier_is_safe (identifier : list Z) : bool :=
  negb (zlen identifier =? 0) && forallb safe_character identifier.

(** The text when it is safe. *)
Definition catalog_identifier_is_safe (s : ptr (list Z)) : option (option (list Z)) :=
  match s with
  | None => Some None
  | Some _ => let? l := string_at s in Some (if identifier_is_safe l then Some l else None)
  end.

Definition find_download (package : retro_vault_package) (id : list Z)
    : option (option retro_vault_download) :=
  let? l := elements (p_downloads package) (p_download_count package) in find_loop d_id l id.

Definition packages_path : list Z := text "/api/v1/catalog/packages".

(** The texts [snprintf] writes. *)
Definition path_text (platform_id model_id : option (list Z)) (id download_id : list Z)
    (disambiguate : bool) : list Z :=
  match platform_id, model_id, disambiguate with
  | Some platform, Some model, false =>
      packages_path ++ text "/" ++ platform ++ text "/" ++ model ++ text "/" ++ id
        ++ text "/downloads/" ++ download_id
  | Some platform, None, false =>
      packages_path ++ text "/" ++ platform ++ text "/" ++ id ++ text "/downloads/" ++ download_id
  | Some platform, Some model, true =>
      packages_path ++ text "/" ++ id ++ text "/downloads/" ++ download_id
        ++ text "?platformId=" ++ platform ++ text "&modelId=" ++ model
  | Some platform, None, true =>
      packages_path ++ text "/" ++ id ++ text "/downloads/" ++ download_id
        ++ text "?platformId=" ++ platform
  | None, _, _ => packages_path ++ text "/" ++ id ++ text "/downloads/" ++ download_id
  end.

(** The path in the array of [path_size] bytes; [None] is -1. *)
Definition build_download_path (package : retro_vault_package) (download_id : ptr (list Z))
    (disambiguate : bool) (path_size : Z) : option (option (list Z)) :=
  let? id := catalog_identifier_is_safe (p_id package) in
  match id with
  | None => Some None
  | Some id =>
      let? download_id := catalog_identifier_is_safe download_id in
      match download_id with
      | None => Some None
      | Some download_id =>
          if path_size =? 0 then Some None
          else
            let? platform_id := catalog_identifier_is_safe (p_platform_id package) in
            let? model_id := catalog_identifier_is_safe (p_model_id package) in
            let '(path, written) :=
              snprintf path_size (path_text platform_id model_id id download_id disambiguate) in
            Some (if path_size <=? written then None else Some path)
      end
  end.

Section service.
Context {N : Type}.
(** [time(NULL)]. *)
Variable time_now : N -> Z * N.

Definition c_time : ST (world N) Z := fun w =>
  let '(t, n) := time_now (w_net w) in Some (t, World (w_mem w) n).

(** *** The catalog *)

(** The test at the top: whether the catalog held is recent. *)
Definition catalog_is_fresh (context : retro_vault_context N) (now : Z) : bool :=
  (0 <? package_count context) && negb (now =? -1) && negb (catalog_fetched_at context =? 0)
  && (u64 (now - catalog_fetched_at context) <? catalog_cache_seconds context).

Definition ensure_catalog (context : retro_vault_context N) : ST (world N) (Z * retro_vault_context N) :=
  let! now := c_time in
  if catalog_is_fresh context now then ret (RETRO_VAULT_STATUS_OK, context)
  else
    match http_get context with
    | None => ret (RETRO_VAULT_STATUS_API_UNAVAILABLE, context)
    | Some get =>
        let! '(result, response, status_code) :=
          get packages_path retro_vault_catalog_limit retro_vault_buffer_init 0 in
        let! parsed :=
          if negb (result =? retro_vault_http_ok) || (status_code <? 200) || (300 <=? status_code)
          then ret None
          else on_mem (parse_catalog (b_data response) (b_size response)) in
        match parsed with
        | None =>
            let! _ := on_mem (retro_vault_buffer_free response) in
            if 0 <? package_count context then ret (RETRO_VAULT_STATUS_OK, context)
            else
              ret (if result =? retro_vault_http_ok then
                     if status_code =? 404 then RETRO_VAULT_STATUS_NOT_FOUND
                     else RETRO_VAULT_STATUS_INTERNAL_ERROR
                   else http_error_status result status_code, context)
        | Some (new_packages, new_count) =>
            let! _ := on_mem (retro_vault_buffer_free response) in
            do! on_mem (free_packages (packages context) (package_count context));
            ret (RETRO_VAULT_STATUS_OK,
                 Context (http_get context) new_packages new_count
                   (if negb (now =? -1) then now else 1) (catalog_cache_seconds context)
                   (download_data context) (download_path context))
        end
    end.

(** *** The download *)

(** The status, the response and the status code; [get] is not checked. *)
Definition fetch_download (context : retro_vault_context N) (path : list Z) (status_code : Z)
    : ST (world N) (Z * retro_vault_buffer * Z) :=
  match http_get context with
  | None => lift None
  | Some get =>
      let! '(result, response, status_code) :=
        get path retro_vault_download_limit retro_vault_buffer_init status_code in
      if negb (result =? retro_vault_http_ok) || (status_code <? 200) || (300 <=? status_code) then
        let! response := on_mem (retro_vault_buffer_free response) in
        ret (http_error_status result status_code, response, status_code)
      else ret (RETRO_VAULT_STATUS_OK, response, status_code)
  end.

(** The second attempt with the platform in the query, after a 409. *)
Definition retry_download (context : retro_vault_context N) (package : retro_vault_package)
    (download_id : ptr (list Z)) (path : list Z) (status : Z) (response : retro_vault_buffer)
    (status_code : Z) : ST (world N) (Z * retro_vault_buffer * Z) :=
  if negb (status =? RETRO_VAULT_STATUS_OK) && (status_code =? 409) then
    let! disambiguated := lift (build_download_path package download_id true retro_vault_api_path_max) in
    match disambiguated with
    | None => ret (status, response, status_code)
    | Some disambiguated =>
        if eq_text disambiguated path then ret (status, response, status_code)
        else fetch_download context disambiguated status_code
    end
  else ret (status, response, status_code).

(** What is held afterwards: the fetched data under its path. *)
Definition keep_download (context : retro_vault_context N) (path : list Z)
    (response : retro_vault_buffer) : ST (world N) (Z * retro_vault_context N) :=
  let! path_copy := on_mem (duplicate_text path) in
  match path_copy with
  | None =>
      let! _ := on_mem (retro_vault_buffer_free response) in
      ret (RETRO_VAULT_STATUS_INTERNAL_ERROR, context)
  | Some _ =>
      let! _ := on_mem (retro_vault_buffer_free (download_data context)) in
      do! on_mem (free (download_path context));
      ret (RETRO_VAULT_STATUS_OK,
           Context (http_get context) (packages context) (package_count context)
             (catalog_fetched_at context) (catalog_cache_seconds context) response path_copy)
  end.

(** Whether the data held is that of this path. *)
Definition holds_path (context : retro_vault_context N) (path : list Z) : option bool :=
  match download_path context with
  | None => Some false
  | Some _ => let? held := string_at (download_path context) in Some (eq_text held path)
  end.

Definition ensure_download (context : retro_vault_context N) (package_id download_id : list Z)
    : ST (world N) (Z * retro_vault_context N) :=
  if negb (identifier_is_safe package_id) || negb (identifier_is_safe download_id) then
    ret (RETRO_VAULT_STATUS_BAD_REQUEST, context)
  else
    let! '(status, context) := ensure_catalog context in
    if negb (status =? RETRO_VAULT_STATUS_OK) then ret (status, context)
    else
      let! package := lift (find_package context package_id) in
      match package with
      | None => ret (RETRO_VAULT_STATUS_NOT_FOUND, context)
      | Some package =>
          let! download := lift (find_download package download_id) in
          match download with
          | None => ret (RETRO_VAULT_STATUS_NOT_FOUND, context)
          | Some download =>
              let! path := lift (build_download_path package (d_id download) false retro_vault_api_path_max) in
              match path with
              | None => ret (RETRO_VAULT_STATUS_INTERNAL_ERROR, context)
              | Some path =>
                  let! held := lift (holds_path context path) in
                  if (held : bool) then ret (RETRO_VAULT_STATUS_OK, context)
                  else
                    let! '(status, response, status_code) := fetch_download context path 0 in
                    let! '(status, response, _) :=
                      retry_download context package (d_id download) path status response status_code in
                    if negb (status =? RETRO_VAULT_STATUS_OK) then ret (status, context)
                    else keep_download context path response
              end
          end
      end.

(** ** Requests *)

Definition handle_capabilities (opcode : Z) (response : list Z) (response_capacity : Z)
    : option (list Z * Z) :=
  if response_capacity <? 7 then Some (response, -1)
  else
    let? response := wr response 0 (u8 (Z.lor opcode RETRO_VAULT_RESPONSE_BIT)) in
    let? response := wr response 1 RETRO_VAULT_STATUS_OK in
    let? response := wr response 2 RETRO_VAULT_PROTOCOL_VERSION in
    let? response := wr response 3
      (Z.lor (Z.lor (Z.lor RETRO_VAULT_FEATURE_LIST RETRO_VAULT_FEATURE_SEARCH)
                RETRO_VAULT_FEATURE_INFO) RETRO_VAULT_FEATURE_DOWNLOAD) in
    let? response := wr response 4 (u8 retro_vault_page_header_size) in
    let? response := wr response 5 (u8 retro_vault_download_header_size) in
    let? response := wr response 6
      (if retro_vault_download_header_size <? response_capacity
       then u8 (response_capacity - retro_vault_download_header_size) else 0) in
    Some (response, 7).

(** The cursor, the platform, the query and the model of a LIST or SEARCH
    request; [Some None] is a bad request. *)
Definition read_list_request (opcode : Z) (request : list Z) (request_size : Z)
    : option (option (Z * list Z * list Z * list Z)) :=
  if request_size <? 4 then Some None
  else
    let? cursor := read_u16 request 1 in
    if cursor =? RETRO_VAULT_CURSOR_END then Some None
    else
      let? platform_size := rd request 3 in
      if request_size - 4 <? platform_size then Some None
      else
        let? platform := rd_bytes request 4 platform_size in
        let offset := 4 + platform_size in
        let?? '(query, offset) :=
          if opcode =? RETRO_VAULT_OP_SEARCH then
            if request_size <=? offset then Some None
            else
              let? query_size := rd request offset in
              let offset := offset + 1 in
              if (query_size =? 0) || (request_size - offset <? query_size) then Some None
              else
                let? query := rd_bytes request offset query_size in
                Some (Some (query, offset + query_size))
          else Some (Some ([], offset)) in
        if offset <? request_size then
          let? model_size := rd request offset in
          let offset := offset + 1 in
          if negb (model_size =? request_size - offset) then Some None
          else
            let? model := rd_bytes request offset model_size in
            Some (Some (cursor, platform, query, model))
        else if negb (offset =? request_size) then Some None
        else Some (Some (cursor, platform, query, [])).

(** The response, the result and the context. *)
Definition answer (r : option (list Z * Z)) (context : retro_vault_context N)
    : ST (world N) (list Z * Z * retro_vault_context N) :=
  let! '(response, result) := lift r in ret (response, result, context).

Definition handle_list_or_search (context : retro_vault_context N) (opcode : Z) (request : list Z)
    (request_size : Z) (response : list Z) (response_capacity : Z)
    : ST (world N) (list Z * Z * retro_vault_context N) :=
  let! parsed := lift (read_list_request opcode request request_size) in
  match parsed with
  | None =>
      answer (write_error_response opcode RETRO_VAULT_STATUS_BAD_REQUEST response response_capacity) context
  | Some (cursor, platform, query, model) =>
      let! '(status, context) := ensure_catalog context in
      if negb (status =? RETRO_VAULT_STATUS_OK) then
        answer (write_error_response opcode status response response_capacity) context
      else
        answer (write_catalog_page context opcode cursor platform model query response response_capacity)
          context
  end.

Definition handle_info (context : retro_vault_context N) (opcode : Z) (request : list Z)
    (request_size : Z) (response : list Z) (response_capacity : Z)
    : ST (world N) (list Z * Z * retro_vault_context N) :=
  let fail status context := answer (write_error_response opcode status response response_capacity) context in
  if request_size <? 4 then fail RETRO_VAULT_STATUS_BAD_REQUEST context
  else
    let! cursor := lift (read_u16 request 1) in
    let! id_size := lift (rd request 3) in
    if (id_size =? 0) || negb (id_size =? request_size - 4) then fail RETRO_VAULT_STATUS_BAD_REQUEST context
    else
      let! '(status, context) := ensure_catalog context in
      if negb (status =? RETRO_VAULT_STATUS_OK) then fail status context
      else
        let! id := lift (rd_bytes request 4 id_size) in
        let! package := lift (find_package context id) in
        match package with
        | None => fail RETRO_VAULT_STATUS_NOT_FOUND context
        | Some package =>
            answer (write_info_page opcode package response_capacity cursor response) context
        end.

(** The number of bytes in the answer. *)
Definition download_chunk_size (response_capacity maximum_bytes size offset : Z) : Z :=
  let available := size - offset in
  let data_size := response_capacity - retro_vault_download_header_size in
  let data_size :=
    if (0 <? maximum_bytes) && (maximum_bytes <? data_size) then maximum_bytes else data_size in
  let data_size := if UINT8_MAX <? data_size then UINT8_MAX else data_size in
  if available <? data_size then available else data_size.

(** The response with the bytes at [offset]. *)
Definition write_download (data : retro_vault_buffer) (opcode offset maximum_bytes : Z)
    (response : list Z) (response_capacity : Z) : option (list Z * Z) :=
  if UINT32_MAX <? b_size data then
    write_error_response opcode RETRO_VAULT_STATUS_TOO_LARGE response response_capacity
  else if b_size data <? offset then
    write_error_response opcode RETRO_VAULT_STATUS_BAD_REQUEST response response_capacity
  else
    let data_size := download_chunk_size response_capacity maximum_bytes (b_size data) offset in
    let? response := wr response 0 (u8 (Z.lor opcode RETRO_VAULT_RESPONSE_BIT)) in
    let? response := wr response 1 RETRO_VAULT_STATUS_OK in
    let? response := write_u32 response 2 offset in
    let? response := write_u32 response 6 (u32 (b_size data)) in
    let? response := wr response 10 (u8 data_size) in
    let? response :=
      if 0 <? data_size then
        match b_data data with
        | Some (_, cells) =>
            let? bytes := rd_bytes cells offset data_size in
            wr_bytes response retro_vault_download_header_size bytes
        | None => None
        end
      else Some response in
    Some (response, s32 (retro_vault_download_header_size + data_size)).

(** The fields of a DOWNLOAD request: offset, maximum and the identifiers. *)
Definition read_download_request (request : list Z) (request_size : Z)
    : option (option (Z * Z * list Z * list Z)) :=
  let? offset := read_u32 request 1 in
  let? maximum_bytes := rd request 5 in
  let? package_id_size := rd request 6 in
  if (package_id_size =? 0) || (request_size - 7 <? package_id_size) then Some None
  else
    let? package_id := rd_bytes request 7 package_id_size in
    let cursor := 7 + package_id_size in
    if request_size <=? cursor then Some None
    else
      let? download_id_size := rd request cursor in
      let cursor := cursor + 1 in
      if (download_id_size =? 0) || negb (download_id_size =? request_size - cursor) then Some None
      else
        let? download_id := rd_bytes request cursor download_id_size in
        Some (Some (offset, maximum_bytes, package_id, download_id)).

Definition handle_download (context : retro_vault_context N) (opcode : Z) (request : list Z)
    (request_size : Z) (response : list Z) (response_capacity : Z)
    : ST (world N) (list Z * Z * retro_vault_context N) :=
  let fail status context := answer (write_error_response opcode status response response_capacity) context in
  if (request_size <? 8) || (response_capacity <? retro_vault_download_header_size) then
    fail RETRO_VAULT_STATUS_BAD_REQUEST context
  else
    let! parsed := lift (read_download_request request request_size) in
    match parsed with
    | None => fail RETRO_VAULT_STATUS_BAD_REQUEST context
    | Some (offset, maximum_bytes, package_id, download_id) =>
        let! '(status, context) := ensure_download context package_id download_id in
        if negb (status =? RETRO_VAULT_STATUS_OK) then fail status context
        else
          answer (write_download (download_data context) opcode offset maximum_bytes response response_capacity)
            context
    end.

(** [request] and [response] are not NULL where the plugin calls it. *)
Definition handle_retro_vault_request (context : retro_vault_context N) (request : list Z)
    (request_size : Z) (response : list Z) (response_capacity : Z)
    : ST (world N) (list Z * Z * retro_vault_context N) :=
  if (request_size =? 0) || (response_capacity <? 2) then ret (response, -1, context)
  else
    let! opcode := lift (rd request 0) in
    if opcode =? RETRO_VAULT_OP_CAPABILITIES then
      if negb (request_size =? 1) then
        answer (write_error_response opcode RETRO_VAULT_STATUS_BAD_REQUEST response response_capacity) context
      else answer (handle_capabilities opcode response response_capacity) context
    else if (opcode =? RETRO_VAULT_OP_LIST) || (opcode =? RETRO_VAULT_OP_SEARCH) then
      handle_list_or_search context opcode request request_size response response_capacity
    else if opcode =? RETRO_VAULT_OP_INFO then
      handle_info context opcode request request_size response response_capacity
    else if opcode =? RETRO_VAULT_OP_DOWNLOAD then
      handle_download context opcode request request_size response response_capacity
    else
      answer (write_error_response opcode RETRO_VAULT_STATUS_BAD_REQUEST response response_capacity) context.
End service.
