(* ===== verification/VaultPages.v ===== *)
(** The pages of LIST, SEARCH and INFO: the bytes of each record, that pages
    stay inside the response, and the packages a request asks for, which are
    those the filters of the code select. *)
From stdpp Require Import base numbers list option gmultiset strings.
From Stdlib Require Import ZArith Lia.
From S2P Require Import Prelude Wire CLib Heap Json JsonGrammar JsonRead Vault VaultServe VaultCatalog.

Local Open Scope Z_scope.
Local Open Scope squid_scope.

(** ** Cutting a text *)

(** The longest prefix of at most [n] bytes that does not end inside a
    character. *)
Fixpoint cut (s : list Z) (n : nat) : nat :=
  match n with
  | O => O
  | S k => match s !! n with Some c => if cont c then cut s k else n | None => n end
  end.

Lemma cut_le s n : (cut s n <= n)%nat.
Proof. induction n as [|n IH]; cbn; [lia|]. case_match; [case_match|]; lia. Qed.

Lemma continuation_byte c : is_byte c -> (Z.land c 192 =? 128) = cont c.
Proof.
  intros Hc.
  assert (Hall : forallb (fun n => Bool.eqb (Z.land (Z.of_nat n) 192 =? 128) (cont (Z.of_nat n))) (seq 0 256) = true)
    by (vm_compute; reflexivity).
  rewrite forallb_forall in Hall. specialize (Hall (Z.to_nat c)). rewrite Z2Nat.id in Hall by (unfold is_byte in Hc; lia).
  apply eqb_prop, Hall, in_seq. unfold is_byte in Hc. lia.
Qed.

Lemma trim_utf8_spec s rest n : cstr_ok s -> (n <= length s)%nat ->
  trim_utf8 (s ++ 0 :: rest) n = Some (Z.of_nat (cut s n)).
Proof.
  intros Hs. induction n as [|n IH]; intros Hn; [done|]. cbn [trim_utf8 cut].
  assert (Hrd : exists c, rd (s ++ 0 :: rest) (Z.of_nat (S n)) = Some c /\ is_byte c /\
    (s !! S n = Some c \/ (s !! S n = None /\ c = 0))).
  { destruct (s !! S n) as [c|] eqn:E.
    - assert (Hc : 0 < c < 256) by (by apply (Forall_lookup_1 _ _ _ _ Hs E)).
      exists c. split_and!; [|unfold is_byte; lia|by left].
      apply rd_Some; [lia|rewrite Nat2Z.id; by apply lookup_app_l_Some|lia].
    - apply lookup_ge_None in E. exists 0. split_and!; [|unfold is_byte; lia|by right].
      apply rd_Some; [lia| |lia]. rewrite Nat2Z.id, lookup_app_r by lia.
      by replace (S n - length s)%nat with 0%nat by lia. }
  destruct Hrd as (c & -> & Hc & Hcase). rewrite continuation_byte by done.
  destruct Hcase as [->|[-> ->]]; [|done]. destruct (cont c); [apply IH; lia|done].
Qed.

(** ** Records *)

(** How much of a text goes into [room] bytes. *)
Definition fitting (s : list Z) (room : Z) : nat :=
  if room <? zlen s then cut s (Z.to_nat room) else length s.
Lemma fitting_le s room : 0 <= room -> Z.of_nat (fitting s room) <= room /\ (fitting s room <= length s)%nat.
Proof.
  intros Hr. unfold fitting. destruct (Z.ltb_spec room (zlen s)); unfold zlen in *; [|lia].
  pose proof (cut_le s (Z.to_nat room)). lia.
Qed.

(** An entry of a LIST page. *)
Definition entry_bytes (id name : list Z) : list Z := zlen id :: id ++ zlen name :: name.
Definition list_entry (id name : list Z) (capacity : Z) : option (list Z) :=
  if capacity <? zlen id + 2 then None
  else Some (entry_bytes id (take (fitting name (capacity - zlen id - 2)) name)).

Lemma zlen_entry id name : zlen (entry_bytes id name) = 2 + zlen id + zlen name.
Proof. unfold entry_bytes. rewrite zlen_cons, zlen_app, zlen_cons. lia. Qed.
Lemma zlen_take_nat {A} n (l : list A) : (n <= length l)%nat -> zlen (take n l) = Z.of_nat n.
Proof. intros. unfold zlen. rewrite length_take. lia. Qed.

(** A record that was written to the front of an array, or nothing. *)
Definition record_made (array : list Z) (ref : option (list Z)) (r : option (list Z * Z)) : Prop :=
  exists array' size, r = Some (array', size) /\ length array' = length array /\
    match ref with
    | None => size = 0
    | Some e => size = zlen e /\ 0 < size /\ exists rest, array' = e ++ rest
    end.

(** The array starts with [d]; writing behind [d] makes the front longer. *)
Definition front (d array : list Z) : Prop := exists rest, array = d ++ rest.
Lemma front_nil array : front [] array.
Proof. by exists array. Qed.
Lemma wr_bytes_step d array i src : front d array -> i = zlen d -> i + zlen src <= zlen array ->
  exists array', wr_bytes array i src = Some array' /\ front (d ++ src) array' /\ length array' = length array.
Proof.
  intros [rest ->] -> Hl. rewrite zlen_app in Hl.
  assert (E : wr_bytes (d ++ rest) (zlen d) src = Some ((d ++ src) ++ drop (length src) rest)).
  { rewrite wr_bytes_app by (done || lia). by rewrite app_assoc. }
  eexists. split; [exact E|]. split; [by eexists|]. by apply wr_bytes_length in E.
Qed.
Lemma wr_step d array i c : front d array -> i = zlen d -> i < zlen array ->
  exists array', wr array i c = Some array' /\ front (d ++ [c]) array' /\ length array' = length array.
Proof.
  intros [rest ->] -> Hl. rewrite zlen_app in Hl. destruct rest as [|x rest]; [rewrite zlen_nil in Hl; lia|].
  rewrite wr_app by done. eexists. split; [done|]. split; [exists rest; by rewrite <- app_assoc|].
  rewrite !length_app. done.
Qed.
Lemma front_zlen (array array' : list Z) : length array' = length array -> zlen array' = zlen array.
Proof. unfold zlen. lia. Qed.
(** The next write of a sequence: [F] is what the array starts with. *)
Ltac write_next F L :=
  match type of F with
  | front ?d ?a =>
      match goal with
      | |- context [wr a ?i ?c] =>
          let a' := fresh "array" in let E := fresh "E" in let F' := fresh "F" in let L' := fresh "L" in
          destruct (wr_step d a i c F ltac:(autorewrite with zlen; lia) ltac:(autorewrite with zlen in *; lia))
            as (a' & E & F' & L'); rewrite E; clear E F; rename F' into F;
          apply front_zlen in L'; rewrite L in L'; clear L; rename L' into L
      | |- context [wr_bytes a ?i ?c] =>
          let a' := fresh "array" in let E := fresh "E" in let F' := fresh "F" in let L' := fresh "L" in
          destruct (wr_bytes_step d a i c F ltac:(autorewrite with zlen; lia) ltac:(autorewrite with zlen in *; lia))
            as (a' & E & F' & L'); rewrite E; clear E F; rename F' into F;
          apply front_zlen in L'; rewrite L in L'; clear L; rename L' into L
      end
  end.

(** The bytes of a text, out of the array that holds it. *)
Lemma text_prefix s rest n : cstr_ok s -> (n <= length s)%nat ->
  rd_bytes (s ++ 0 :: rest) 0 (Z.of_nat n) = Some (take n s).
Proof.
  intros Hs Hn. rewrite <- (zlen_take_nat n s) by done. rewrite <- (take_drop n s) at 1. rewrite <- app_assoc.
  apply rd_bytes_front. unfold bytes_ok. apply Forall_take. eapply Forall_impl; [exact Hs|].
  intros c Hc. cbv beta in Hc. unfold is_byte. lia.
Qed.
(** The size [make_list_entry] and [make_string_tlv] compute. *)
Lemma fitting_spec s rest room : cstr_ok s -> 0 <= room ->
  (if room <? zlen s then trim_utf8 (s ++ 0 :: rest) (Z.to_nat room) else Some (zlen s)) =
  Some (Z.of_nat (fitting s room)).
Proof.
  intros Hs Hr. unfold fitting. destruct (Z.ltb_spec room (zlen s)); [|done].
  apply trim_utf8_spec; [done|unfold zlen in *; lia].
Qed.

Lemma make_list_entry_spec p id name array capacity :
  text_is (p_id p) id -> text_is (p_name p) name -> 0 <= capacity <= 249 -> capacity <= zlen array ->
  record_made array (list_entry id name capacity) (make_list_entry p array capacity).
Proof.
  intros Hid Hname Hcap Harr. unfold make_list_entry, record_made, list_entry.
  destruct Hid as [Hid (bi & ri & ->)], Hname as [Hname (bn & rn & ->)].
  rewrite !cstring_app by done. pose proof (zlen_nonneg id). pose proof (zlen_nonneg name).
  destruct (Z.ltb_spec capacity (zlen id + 2)).
  { destruct (Z.ltb_spec capacity 2); [by eexists _, _|]. unfold UINT8_MAX.
    destruct (Z.ltb_spec 255 (zlen id)); [by eexists _, _|]. cbn [orb].
    destruct (Z.ltb_spec (capacity - 2) (zlen id)); [by eexists _, _|lia]. }
  unfold UINT8_MAX. destruct (Z.ltb_spec capacity 2), (Z.ltb_spec 255 (zlen id)), (Z.ltb_spec (capacity - 2) (zlen id));
    try lia. cbn [orb]. rewrite fitting_spec by (done || lia).
  destruct (fitting_le name (capacity - zlen id - 2) ltac:(lia)) as [Hfit Hfit'].
  destruct (Z.ltb_spec 255 (Z.of_nat (fitting name (capacity - zlen id - 2)))); [lia|].
  rewrite !u8_small by lia. rewrite text_prefix by done.
  pose proof (zlen_take_nat _ name Hfit') as Hshown. rewrite <- Hshown in *.
  remember (take (fitting name (capacity - zlen id - 2)) name) as shown eqn:Eshown. clear Eshown Hshown Hfit'.
  pose proof (front_nil array) as F. assert (L : zlen array = zlen array) by done. pose proof (zlen_nonneg shown).
  remember (zlen array) as n eqn:En in Harr, L at 2.
  do 4 write_next F L.
  eexists _, _. split; [done|]. split; [unfold zlen in *; lia|]. rewrite zlen_entry. split; [done|]. split; [lia|].
  destruct F as [rest ->]. exists rest. unfold entry_bytes. rewrite <- !app_assoc. cbn [app]. by rewrite <- !app_assoc.
Qed.

(** *** Records of INFO *)

(** The text behind a pointer, empty for NULL. *)
Definition view (p : ptr (list Z)) : list Z := default [] (string_at p).
Lemma view_text p s : text_is p s -> view p = s.
Proof. intros H. unfold view. by rewrite (text_is_string p s H). Qed.

Definition string_record (type : Z) (s : list Z) (capacity : Z) : option (list Z) :=
  if capacity <? 2 then None
  else let k := fitting s (capacity - 2) in Some (type :: Z.of_nat k :: take k s).

Lemma make_string_tlv_spec type p array capacity :
  text_ok p -> 0 <= capacity <= 249 -> capacity <= zlen array ->
  record_made array (string_record type (view p) capacity) (make_string_tlv type p array capacity).
Proof.
  intros Hp Hcap Harr. unfold make_string_tlv, string_record, record_made. unfold UINT8_MAX.
  destruct Hp as [->|[s Hs]].
  - destruct (Z.ltb_spec capacity 2); [by eexists _, _|]. destruct (Z.ltb_spec (capacity - 2) 0); [lia|].
    change (255 <? 0) with false. cbv iota.
    pose proof (front_nil array) as F. assert (L : zlen array = zlen array) by done.
    remember (zlen array) as n eqn:En in Harr, L at 2. do 2 write_next F L.
    change (view None) with (@nil Z). assert (fitting [] (capacity - 2) = 0%nat) as ->.
    { unfold fitting. rewrite zlen_nil. by destruct (Z.ltb_spec (capacity - 2) 0); [lia|]. }
    eexists _, _. split; [done|]. split; [unfold zlen in *; lia|]. split; [done|]. split; [lia|].
    destruct F as [rest ->]. by exists rest.
  - rewrite (view_text p s Hs), (text_is_string p s Hs). cbn [fmap option_fmap option_map].
    destruct Hs as [Hs (b & rest & ->)]. destruct (Z.ltb_spec capacity 2); [by eexists _, _|].
    rewrite fitting_spec by (done || lia). destruct (fitting_le s (capacity - 2) ltac:(lia)) as [Hfit Hfit'].
    destruct (Z.ltb_spec 255 (Z.of_nat (fitting s (capacity - 2)))); [lia|]. rewrite u8_small by lia.
    rewrite text_prefix by done. pose proof (zlen_take_nat _ s Hfit') as Hshown.
    remember (take (fitting s (capacity - 2)) s) as shown eqn:Eshown. rewrite <- Hshown in *. clear Eshown Hfit' Hshown.
    pose proof (front_nil array) as F. assert (L : zlen array = zlen array) by done. pose proof (zlen_nonneg shown).
    remember (zlen array) as n eqn:En in Harr, L at 2. do 2 write_next F L.
    assert (Hend : exists array', (if 0 <? zlen shown then wr_bytes array1 2 shown else Some array1) = Some array' /\
      front ((([] ++ [type]) ++ [zlen shown]) ++ shown) array' /\ zlen array' = n).
    { destruct (Z.ltb_spec 0 (zlen shown)); [write_next F L; by eexists|].
      assert (shown = []) as -> by (apply zlen_nil_inv; lia). exists array1. by rewrite app_nil_r. }
    destruct Hend as (array' & -> & [rest' ->] & L'). eexists _, _. split; [done|].
    split; [unfold zlen in *; lia|]. rewrite !zlen_cons. split; [lia|]. split; [lia|]. by exists rest'.
Qed.

(** A text with its length in front, at most [room] bytes of it. *)
Definition counted_text (s : list Z) (room : Z) : list Z :=
  let k := cut s (Z.to_nat (Z.min (zlen s) room)) in Z.of_nat k :: take k s.
Lemma counted_text_size s room : 0 <= room -> 1 <= zlen (counted_text s room) <= room + 1.
Proof.
  intros Hr. unfold counted_text. rewrite zlen_cons. pose proof (cut_le s (Z.to_nat (Z.min (zlen s) room))).
  pose proof (zlen_nonneg s). rewrite zlen_take_nat by (unfold zlen in *; lia). lia.
Qed.

Lemma append_counted_spec d array at_ capacity p s maximum :
  text_is p s -> front d array -> at_ = zlen d -> 1 <= capacity <= 255 -> at_ + capacity <= zlen array -> 0 <= maximum <= 255 ->
  exists array', append_counted_text array at_ capacity p maximum =
      Some (array', zlen (counted_text s (Z.min maximum (capacity - 1)))) /\
    front (d ++ counted_text s (Z.min maximum (capacity - 1))) array' /\ zlen array' = zlen array.
Proof.
  intros Hp F -> Hcap Hroom Hmax. unfold append_counted_text. rewrite (text_is_string p s Hp).
  cbn [fmap option_fmap option_map]. destruct Hp as [Hs (b & rest & ->)]. destruct (Z.ltb_spec capacity 1); [lia|].
  unfold UINT8_MAX. pose proof (zlen_nonneg s) as Hnn.
  assert (Emin : (let t1 := if maximum <? zlen s then maximum else zlen s in
    let t2 := if capacity - 1 <? t1 then capacity - 1 else t1 in if 255 <? t2 then 255 else t2) =
    Z.min (zlen s) (Z.min maximum (capacity - 1))).
  { cbv zeta. destruct (Z.ltb_spec maximum (zlen s)).
    - destruct (Z.ltb_spec (capacity - 1) maximum); (case_match; lia).
    - destruct (Z.ltb_spec (capacity - 1) (zlen s)); (case_match; lia). }
  cbv zeta in Emin. rewrite Emin. rewrite trim_utf8_spec by (done || unfold zlen in *; lia).
  unfold counted_text. pose proof (cut_le s (Z.to_nat (Z.min (zlen s) (Z.min maximum (capacity - 1))))) as Hcut.
  remember (cut s (Z.to_nat (Z.min (zlen s) (Z.min maximum (capacity - 1))))) as k eqn:Ek. clear Ek Emin.
  rewrite u8_small by lia. rewrite text_prefix by (done || unfold zlen in *; lia).
  pose proof (zlen_take_nat k s ltac:(unfold zlen in *; lia)) as Hk. rewrite zlen_cons, Hk.
  assert (L : zlen array = zlen array) by done. remember (zlen array) as n eqn:En in Hroom, L at 2 |- *.
  write_next F L.
  destruct (wr_bytes_step (d ++ [Z.of_nat k]) array0 (zlen d + 1) (take k s)) as (array' & -> & F' & L');
    [done|autorewrite with zlen; lia|rewrite Hk; lia|].
  exists array'. split; [do 2 f_equal; lia|]. split; [by rewrite <- app_assoc in F'|].
  apply front_zlen in L'. lia.
Qed.

(** The second byte is filled in last. *)
Lemma wr_second x y body array v : front (x :: y :: body) array ->
  exists array', wr array 1 v = Some array' /\ front (x :: v :: body) array' /\ zlen array' = zlen array.
Proof.
  intros [rest ->]. exists (x :: v :: body ++ rest). split_and!; [done|by exists rest|].
  cbn [app]. by rewrite !zlen_cons.
Qed.

(** The texts are cut at 64, 96 and 32 bytes, and where the room ends. *)
Definition download_record (id label format : list Z) (size files capacity : Z) : option (list Z) :=
  if capacity <? 10 then None
  else
    let b1 := counted_text id (Z.min 64 (capacity - 8)) in
    let left1 := capacity - 7 - zlen b1 in
    if left1 <? 1 then None
    else
      let b2 := counted_text label (Z.min 96 (left1 - 1)) in
      let left2 := left1 - zlen b2 in
      if left2 <? 1 then None
      else
        let b3 := counted_text format (Z.min 32 (left2 - 1)) in
        let body := b1 ++ b2 ++ b3 ++ le32 size ++ [files] in
        Some (RETRO_VAULT_INFO_DOWNLOAD :: zlen body :: body).

Lemma write_u32_step d array i v : front d array -> i = zlen d -> i + 4 <= zlen array ->
  exists array', write_u32 array i v = Some array' /\ front (d ++ le32 v) array' /\ zlen array' = zlen array.
Proof.
  intros [rest ->] -> Hl. rewrite zlen_app in Hl. rewrite write_u32_app by (done || lia).
  eexists. split; [done|]. split; [eexists; by rewrite <- app_assoc|]. autorewrite with zlen. lia.
Qed.
Lemma write_u16_step d array i v : front d array -> i = zlen d -> i + 2 <= zlen array ->
  exists array', write_u16 array i v = Some array' /\ front (d ++ le16 v) array' /\ zlen array' = zlen array.
Proof.
  intros [rest ->] -> Hl. rewrite zlen_app in Hl. rewrite write_u16_app by (done || lia).
  eexists. split; [done|]. split; [eexists; by rewrite <- app_assoc|]. autorewrite with zlen. lia.
Qed.

(** No room for another text. *)
Lemma append_counted_full array at_ p s maximum : text_is p s -> append_counted_text array at_ 0 p maximum = Some (array, 0).
Proof.
  intros Hp. unfold append_counted_text. rewrite (text_is_string p s Hp). by destruct Hp as [_ (b & rest & ->)].
Qed.

Lemma make_download_tlv_spec d id label format array capacity :
  text_is (d_id d) id -> text_is (d_label d) label -> text_is (d_format d) format ->
  0 <= capacity <= 249 -> capacity <= zlen array ->
  record_made array (download_record id label format (d_aggregate_size d) (d_file_count d) capacity)
    (make_download_tlv d array capacity).
Proof.
  intros Hid Hlabel Hformat Hcap Harr. unfold make_download_tlv, download_record, record_made.
  destruct (Z.ltb_spec capacity 10); [by eexists _, _|].
  destruct array as [|x0 [|x1 array]]; try (unfold zlen in Harr; cbn in Harr; lia).
  change (wr (x0 :: x1 :: array) 0 RETRO_VAULT_INFO_DOWNLOAD) with (Some (RETRO_VAULT_INFO_DOWNLOAD :: x1 :: array)).
  remember (RETRO_VAULT_INFO_DOWNLOAD :: x1 :: array) as a0 eqn:E0. cbv iota.
  assert (F : front [RETRO_VAULT_INFO_DOWNLOAD; x1] a0) by (subst; by exists array).
  assert (L : zlen a0 = zlen (x0 :: x1 :: array)) by (subst; by rewrite !zlen_cons). clear E0.
  assert (Hlen : forall a' : list Z, zlen a' = zlen a0 -> length a' = length (x0 :: x1 :: array)).
  { intros a' Ha'. rewrite L in Ha'. unfold zlen in Ha'. lia. }
  rewrite <- L in Harr.
  rewrite (u64_small (capacity - 2 - 5)) by lia.
  destruct (append_counted_spec _ a0 2 (capacity - 2 - 5) _ id 64 Hid F) as (a1 & -> & F1 & L1); try done; try lia.
  replace (capacity - 2 - 5 - 1) with (capacity - 8) in * by lia.
  pose proof (counted_text_size id (Z.min 64 (capacity - 8)) ltac:(lia)) as Hb1.
  remember (counted_text id (Z.min 64 (capacity - 8))) as b1 eqn:Eb1. clear Eb1.
  destruct (Z.eqb_spec (zlen b1) 0); [lia|]. rewrite (u64_small (capacity - (2 + zlen b1) - 5)) by lia.
  replace (capacity - (2 + zlen b1) - 5) with (capacity - 7 - zlen b1) by lia.
  destruct (Z.ltb_spec (capacity - 7 - zlen b1) 1).
  { replace (capacity - 7 - zlen b1) with 0 by lia. rewrite (append_counted_full _ _ _ label) by done.
    eexists _, _. split; [done|]. split; [apply Hlen; lia|done]. }
  destruct (append_counted_spec _ a1 (2 + zlen b1) (capacity - 7 - zlen b1) _ label 96 Hlabel F1) as (a2 & -> & F2 & L2);
    try done; try (autorewrite with zlen; lia); try lia.
  pose proof (counted_text_size label (Z.min 96 (capacity - 7 - zlen b1 - 1)) ltac:(lia)) as Hb2.
  remember (counted_text label (Z.min 96 (capacity - 7 - zlen b1 - 1))) as b2 eqn:Eb2. clear Eb2.
  destruct (Z.eqb_spec (zlen b2) 0); [lia|]. rewrite (u64_small (capacity - (2 + zlen b1 + zlen b2) - 5)) by lia.
  replace (capacity - (2 + zlen b1 + zlen b2) - 5) with (capacity - 7 - zlen b1 - zlen b2) by lia.
  destruct (Z.ltb_spec (capacity - 7 - zlen b1 - zlen b2) 1).
  { replace (capacity - 7 - zlen b1 - zlen b2) with 0 by lia. rewrite (append_counted_full _ _ _ format) by done.
    eexists _, _. split; [done|]. split; [apply Hlen; lia|done]. }
  destruct (append_counted_spec _ a2 (2 + zlen b1 + zlen b2) (capacity - 7 - zlen b1 - zlen b2) _ format 32 Hformat F2)
    as (a3 & -> & F3 & L3); try done; try (autorewrite with zlen; lia); try lia.
  pose proof (counted_text_size format (Z.min 32 (capacity - 7 - zlen b1 - zlen b2 - 1)) ltac:(lia)) as Hb3.
  remember (counted_text format (Z.min 32 (capacity - 7 - zlen b1 - zlen b2 - 1))) as b3 eqn:Eb3. clear Eb3.
  destruct (Z.eqb_spec (zlen b3) 0); [lia|].
  destruct (write_u32_step _ a3 (2 + zlen b1 + zlen b2 + zlen b3) (d_aggregate_size d) F3) as (a4 & -> & F4 & L4);
    [autorewrite with zlen; lia|lia|].
  destruct (wr_step _ a4 (2 + zlen b1 + zlen b2 + zlen b3 + 4) (d_file_count d) F4) as (a5 & -> & F5 & L5);
    [autorewrite with zlen; lia|lia|]. apply front_zlen in L5.
  rewrite u8_small by lia. rewrite <- !app_assoc in F5. cbn [app] in F5.
  destruct (wr_second _ _ _ a5 (2 + zlen b1 + zlen b2 + zlen b3 + 4 + 1 - 2) F5) as (a6 & -> & [rest ->] & L6).
  eexists _, _. split; [done|]. split; [apply Hlen; lia|]. autorewrite with zlen.
  split; [lia|]. split; [lia|]. exists rest. cbn [app]. do 2 f_equal. autorewrite with zlen. lia.
Qed.

(** The record at a cursor. *)
Definition info_record (p : retro_vault_package) (cursor capacity : Z) : option (list Z) :=
  match cursor with
  | 0 => string_record RETRO_VAULT_INFO_ID (view (p_id p)) capacity
  | 1 => string_record RETRO_VAULT_INFO_NAME (view (p_name p)) capacity
  | 2 => string_record RETRO_VAULT_INFO_VENDOR (view (p_vendor p)) capacity
  | 3 => string_record RETRO_VAULT_INFO_PLATFORM_ID (view (p_platform_id p)) capacity
  | 4 => string_record RETRO_VAULT_INFO_PLATFORM_NAME (view (p_platform_name p)) capacity
  | 5 => string_record RETRO_VAULT_INFO_VERSION (view (p_version p)) capacity
  | 6 => if capacity <? 4 then None else Some ([RETRO_VAULT_INFO_YEAR; 2] ++ le16 (p_release_year p))
  | 7 => if capacity <? 3 then None else Some [RETRO_VAULT_INFO_RATING; 1; p_rating p]
  | 8 => string_record RETRO_VAULT_INFO_DESCRIPTION (view (p_description p)) capacity
  | _ =>
      match contents (p_downloads p) !! Z.to_nat (cursor - 9) with
      | Some d => download_record (view (d_id d)) (view (d_label d)) (view (d_format d)) (d_aggregate_size d)
                    (d_file_count d) capacity
      | None => None
      end
  end.

Lemma make_info_record_spec p cursor array capacity :
  package_ok p -> 0 <= cursor -> 0 <= capacity <= 249 -> capacity <= zlen array ->
  record_made array (info_record p cursor capacity) (make_info_record p cursor array capacity).
Proof.
  intros Hp Hcur Hcap Harr. unfold make_info_record.
  destruct Hp as ((id & Hid & _) & (name & Hname & _) & Hvendor & Hpid & Hpname & _ & _ & Hversion & Hdesc & Hcnt & Hdl & _).
  assert (Hid' : text_ok (p_id p)) by (right; eauto). assert (Hname' : text_ok (p_name p)) by (right; eauto).
  do 6 (match goal with |- context [cursor =? ?k] => destruct (Z.eqb_spec cursor k) as [->|] end;
    [by apply make_string_tlv_spec|]).
  destruct (Z.eqb_spec cursor 6) as [->|].
  { unfold info_record, record_made. destruct (Z.ltb_spec capacity 4); [by eexists _, _|].
    pose proof (front_nil array) as F. assert (L : zlen array = zlen array) by done.
    remember (zlen array) as len eqn:Elen in Harr, L at 2. do 2 write_next F L.
    destruct (write_u16_step _ array1 2 (p_release_year p) F) as (a' & -> & [rest ->] & L'); [done|lia|].
    eexists _, _. split; [done|]. split; [unfold zlen in *; lia|]. split; [done|]. split; [lia|]. by exists rest. }
  destruct (Z.eqb_spec cursor 7) as [->|].
  { unfold info_record, record_made. destruct (Z.ltb_spec capacity 3); [by eexists _, _|].
    pose proof (front_nil array) as F. assert (L : zlen array = zlen array) by done.
    remember (zlen array) as len eqn:Elen in Harr, L at 2. do 3 write_next F L. destruct F as [rest ->].
    eexists _, _. split; [done|]. split; [unfold zlen in *; lia|]. split; [done|]. split; [lia|]. by exists rest. }
  destruct (Z.eqb_spec cursor 8) as [->|]; [by apply make_string_tlv_spec|].
  assert (Hinfo : info_record p cursor capacity =
      match contents (p_downloads p) !! Z.to_nat (cursor - 9) with
      | Some d => download_record (view (d_id d)) (view (d_label d)) (view (d_format d)) (d_aggregate_size d)
                    (d_file_count d) capacity
      | None => None
      end).
  { unfold info_record. destruct cursor as [|q|q]; try lia. do 4 (destruct q as [q|q|]; try done; try lia). }
  rewrite Hinfo. unfold counted, array_ok in Hcnt. destruct (Z.leb_spec (p_download_count p) (cursor - 9)).
  - rewrite lookup_ge_None_2 by (unfold zlen in *; lia). by eexists _, _.
  - rewrite elements_contents by done.
    destruct (lookup_lt_is_Some_2 (contents (p_downloads p)) (Z.to_nat (cursor - 9))) as [d Hd]; [unfold zlen in *; lia|].
    rewrite Hd. pose proof (Forall_lookup_1 _ _ _ _ Hdl Hd) as ((i & Hi & _) & (l & Hl & _) & (f & Hf & _) & _).
    rewrite (view_text _ _ Hi), (view_text _ _ Hl), (view_text _ _ Hf). by apply make_download_tlv_spec.
Qed.

(** ** Pages stay inside the response *)

Lemma list_entry_ok id name capacity e :
  cstr_ok id -> cstr_ok name -> 0 <= capacity <= 249 -> list_entry id name capacity = Some e ->
  bytes_ok e /\ zlen e <= capacity.
Proof.
  intros Hid Hname Hcap. unfold list_entry. destruct (Z.ltb_spec capacity (zlen id + 2)); [done|]. intros [= <-].
  destruct (fitting_le name (capacity - zlen id - 2) ltac:(lia)) as [Hfit Hfit'].
  pose proof (zlen_nonneg id). rewrite zlen_entry, zlen_take_nat by done. split; [|lia].
  unfold entry_bytes. constructor; [unfold is_byte; lia|]. apply Forall_app. split; [by apply cstr_bytes|].
  rewrite zlen_take_nat by done. constructor; [unfold is_byte; lia|]. by apply Forall_take, cstr_bytes.
Qed.

Lemma copy_record_spec response out e rest : bytes_ok e -> 0 <= out -> out + zlen e <= zlen response ->
  exists response', copy_record response out (e ++ rest) (zlen e) = Some response' /\
    length response' = length response /\
    (forall d, front d response -> zlen d = out -> front (d ++ e) response').
Proof.
  intros He Hout Hfit. unfold copy_record. rewrite (rd_bytes_front e rest He).
  pose proof (wr_bytes_at response out e Hout Hfit) as E. rewrite E. eexists. split; [done|].
  split; [by apply wr_bytes_length in E|]. intros d Hd Hzd.
  destruct (wr_bytes_step d response out e Hd (eq_sym Hzd) ltac:(lia)) as (r' & E' & Hf & _). congruence.
Qed.

Lemma vault_finish_page_spec opcode response next count out cap :
  5 <= out <= cap -> cap <= zlen response -> cap < 2 ^ 31 ->
  exists rest, finish_page opcode response next count out =
    Some (header opcode 0 ++ le16 next ++ [count] ++ drop 5 response, out) /\ rest = drop 5 response.
Proof.
  intros Hout Hcap Hmax. unfold finish_page, RETRO_VAULT_RESPONSE_BIT.
  destruct response as [|a [|b [|c [|d [|e response]]]]]; try (unfold zlen in Hcap; cbn in Hcap; lia).
  eexists. split; [|done]. cbn -[Z.land Z.lor Z.shiftr u8 s32 Z.add]. do 2 f_equal. apply s32_small. lia.
Qed.

Lemma finish_page_framed opcode response buf next count out cap :
  length response = length buf -> 5 <= out <= cap -> cap <= zlen buf -> cap < 2 ^ 31 ->
  framed opcode cap buf (finish_page opcode response next count out).
Proof.
  intros Hl Hout Hcap Hmax. assert (Hz : zlen response = zlen buf) by (unfold zlen; lia).
  destruct (vault_finish_page_spec opcode response next count out cap) as (rest & -> & _); [lia|lia|lia|].
  eexists _, _. split; [done|]. apply (reply_success opcode cap buf (le16 next ++ [count] ++ drop 5 response)); [|lia].
  rewrite <- Hl. rewrite !length_app, length_drop. cbn. unfold zlen in *. lia.
Qed.

Lemma framed_error opcode status response buf cap :
  length response = length buf -> 2 <= cap <= zlen buf -> framed opcode cap buf (write_error_response opcode status response cap).
Proof.
  intros Hl Hcap. assert (Hz : zlen response = zlen buf) by (unfold zlen; lia).
  destruct (framed_status opcode cap response status ltac:(lia)) as (b & n & E & Hr).
  exists b, n. split; [exact E|]. by eapply reply_ok_len.
Qed.

(** ** Which packages a request asks for *)

(** Texts are compared up to case; two platforms have a second name. *)
Definition lower (s : list Z) : list Z := map tolower s.
Definition platform_name (s : list Z) : list Z :=
  if bool_decide (lower s = text "iskra-delta-partner") then text "idp"
  else if bool_decide (lower s = text "zx-spectrum") then text "zxs" else lower s.
Fixpoint occurs (q s : list Z) : bool :=
  bool_decide (q `prefix_of` s) || match s with [] => false | _ :: s => occurs q s end.

(** The package is of the platform and of the model, unless these are empty,
    and the query, unless it is empty, occurs in its identifier, name, vendor
    or description. *)
Definition matching (platform model query : list Z) (p : retro_vault_package) : bool :=
  (bool_decide (platform = []) || bool_decide (platform_name (view (p_platform_id p)) = platform_name platform)) &&
  (bool_decide (model = []) || bool_decide (lower (view (p_model_id p)) = lower model)) &&
  (bool_decide (query = []) ||
   existsb (fun field => occurs (lower query) (lower (view field))) [p_id p; p_name p; p_vendor p; p_description p]).

Lemma occurs_exact q s : occurs q s = true <-> exists a b, s = a ++ q ++ b.
Proof.
  induction s as [|x s IH]; cbn [occurs]; rewrite orb_true_iff, bool_decide_eq_true.
  - split; [intros [[b E]|?]; [by exists [], b|done]|]. intros (a & b & E). left. exists b. by destruct a.
  - rewrite IH. split.
    + intros [[b E]|(a & b & ->)]; [by exists [], b|by exists (x :: a), b].
    + intros ([|y a] & b & E); [left; by exists b|right]. injection E as _ ->. by exists a, b.
Qed.

Lemma same_ci_lower a b : same_ci a b = bool_decide (lower a = lower b).
Proof.
  revert b. induction a as [|x a IH]; intros [|y b]; try done. cbn [same_ci lower map]. rewrite IH.
  destruct (Z.eqb_spec (tolower x) (tolower y)) as [E|E]; cbn [negb].
  - apply bool_decide_ext. fold (lower a) (lower b). rewrite E. split; [congruence|]. by intros [= ->].
  - symmetry. apply bool_decide_eq_false. congruence.
Qed.
Lemma lower_length a : zlen (lower a) = zlen a.
Proof. unfold zlen, lower. by rewrite length_map. Qed.
Lemma sized_lower a b : (zlen a =? zlen b) && same_ci a b = bool_decide (lower a = lower b).
Proof.
  rewrite same_ci_lower. destruct (Z.eqb_spec (zlen a) (zlen b)) as [E|E]; [done|]. symmetry.
  apply bool_decide_eq_false. intros El. apply E. by rewrite <- (lower_length a), <- (lower_length b), El.
Qed.
Lemma lower_nonempty s : s <> [] -> lower s <> [].
Proof. by destruct s. Qed.

(** What the comparisons answer. *)
Lemma equals_exact p s : text_ok p -> s <> [] ->
  text_equals_case_insensitive p s = Some (bool_decide (lower (view p) = lower s)).
Proof.
  intros [->|[t Ht]] Hs; [rewrite bool_decide_false; [done|]; by intros E%symmetry%lower_nonempty|].
  unfold text_equals_case_insensitive. rewrite (text_is_string p t Ht), (view_text p t Ht), <- sized_lower.
  destruct Ht as [_ (b & rest & ->)]. by destruct (zlen t =? zlen s).
Qed.

Lemma equals_total p s : text_ok p -> exists b, text_equals_case_insensitive p s = Some b.
Proof.
  intros [->|[t Ht]]; [by eexists|]. unfold text_equals_case_insensitive. rewrite (text_is_string p t Ht).
  destruct Ht as [_ (b & rest & ->)]. destruct (negb _); by eexists.
Qed.

Lemma contains_loop_exact q t fuel : forall start, 0 <= start -> zlen t - start < Z.of_nat fuel ->
  q <> [] -> contains_loop fuel t q start = occurs (lower q) (lower (drop (Z.to_nat start) t)).
Proof.
  induction fuel as [|fuel IH]; intros start Hs Hf Hq.
  { cbn. rewrite drop_ge by (unfold zlen in *; lia). by destruct q. }
  cbn [contains_loop]. set (n := Z.to_nat start) in *.
  assert (Hhead : bool_decide (lower q `prefix_of` lower (drop n t)) = same_ci (take (length q) (drop n t)) q).
  { rewrite same_ci_lower. apply bool_decide_ext. unfold lower. split.
    - intros [b E]. rewrite <- firstn_map, E, <- (length_map tolower q). apply take_app_length.
    - intros <-. rewrite <- firstn_map. apply prefix_take. }
  destruct (Z.leb_spec start (zlen t - zlen q)) as [Hle|Hgt].
  - rewrite IH by (done || lia). replace (Z.to_nat (start + 1)) with (S n) by lia.
    assert (Hlen : (0 < length (drop n t))%nat).
    { rewrite length_drop. destruct q; [done|]. unfold zlen in *. cbn in *. lia. }
    destruct (drop n t) as [|x s] eqn:E; [cbn in Hlen; lia|].
    replace (drop (S n) t) with s by (rewrite <- Nat.add_1_r, <- drop_drop, E; done).
    cbn [lower map occurs]. fold (lower s). rewrite <- Hhead. cbn [lower map]. fold (lower s). by destruct (bool_decide _).
  - symmetry. apply not_true_iff_false. rewrite occurs_exact. intros (a & b & E).
    apply (f_equal zlen) in E. rewrite !zlen_app, !lower_length in E. pose proof (zlen_nonneg a).
    pose proof (zlen_nonneg b). unfold zlen in *. rewrite length_drop in E. destruct q; [done|]. cbn in *. lia.
Qed.

Lemma contains_exact p q : text_ok p -> q <> [] ->
  text_contains_case_insensitive p q = Some (occurs (lower q) (lower (view p))).
Proof.
  intros [->|[t Ht]] Hq; [by destruct q|].
  unfold text_contains_case_insensitive. rewrite (text_is_string p t Ht), (view_text p t Ht).
  assert (Hpos : 0 < zlen q) by (destruct q; [done|]; rewrite zlen_cons; pose proof (zlen_nonneg q); lia).
  destruct Ht as [_ (b & rest & ->)]. destruct (Z.eqb_spec (zlen q) 0); [lia|].
  assert (E : contains_loop (S (length t)) t q 0 = occurs (lower q) (lower t)).
  { apply contains_loop_exact; [lia|unfold zlen; lia|done]. }
  destruct (Z.ltb_spec (zlen t) (zlen q)) as [Hlt|]; [|by rewrite E]. cbn [contains_loop] in E.
  destruct (Z.leb_spec 0 (zlen t - zlen q)); [lia|]. by rewrite <- E.
Qed.
Lemma nonempty_ok p : nonempty_text p -> text_ok p.
Proof. intros (s & Hs & _). right. eauto. Qed.

Lemma platform_exact p filter : text_ok p -> filter <> [] ->
  platform_matches_filter p filter = Some (bool_decide (platform_name (view p) = platform_name filter)).
Proof.
  intros Hp Hf. unfold platform_matches_filter, platform_is_idp, text_is_identifier, or_else, filter_matches_alias.
  rewrite !equals_exact, !sized_lower by done. unfold platform_name.
  change (lower (text "idp")) with (text "idp"). change (lower (text "zxs")) with (text "zxs").
  change (lower (text "zx-spectrum")) with (text "zx-spectrum").
  change (lower (text "iskra-delta-partner")) with (text "iskra-delta-partner").
  assert (text "idp" <> text "zxs" /\ text "idp" <> text "iskra-delta-partner" /\ text "idp" <> text "zx-spectrum" /\
    text "zxs" <> text "iskra-delta-partner" /\ text "zxs" <> text "zx-spectrum" /\
    text "iskra-delta-partner" <> text "zx-spectrum") as (? & ? & ? & ? & ? & ?) by (by vm_compute).
  repeat (case_bool_decide; cbn [andb orb]); congruence.
Qed.

Lemma empty_length (s : list Z) : (zlen s =? 0) = bool_decide (s = []).
Proof. destruct s; [done|]. rewrite zlen_cons, bool_decide_false by done. pose proof (zlen_nonneg s). lia. Qed.

(** The filters answer for every package, and this is what they select. *)
Lemma matches_exact p platform model query : package_ok p ->
  package_matches p platform model query = Some (matching platform model query p).
Proof.
  intros (Hid%nonempty_ok & Hname%nonempty_ok & Hvendor & Hpid & _ & Hmid & _ & _ & Hdesc & _).
  unfold package_matches, matching. rewrite empty_length.
  assert (Hpos : forall s : list Z, (0 <? zlen s) = negb (bool_decide (s = []))).
  { intros s. rewrite <- empty_length. pose proof (zlen_nonneg s). lia. }
  rewrite !Hpos. destruct (bool_decide_reflect (platform = [])); cbn [negb orb andb];
    [|rewrite platform_exact by done; destruct (bool_decide _); [|done]; cbn [negb andb]].
  all: destruct (bool_decide_reflect (model = [])); cbn [negb orb andb];
    [|rewrite equals_exact by done; destruct (bool_decide _); [|done]; cbn [negb andb]].
  all: destruct (bool_decide_reflect (query = [])); [done|]; unfold or_else; rewrite !contains_exact by done;
    cbn [existsb orb]; by repeat destruct (occurs _ _).
Qed.

Section catalog.
Variables (opcode cursor : Z) (platform model query : list Z) (cap : Z) (buf : list Z).
Hypothesis cap_ok : 5 <= cap <= zlen buf.
Hypothesis cap_int : cap < 2 ^ 31.

Lemma catalog_loop_framed l : Forall package_ok l -> forall match_index count out response,
  length response = length buf -> 5 <= out <= cap ->
  framed opcode cap buf (catalog_loop opcode cursor platform model query cap l match_index count out response).
Proof.
  induction 1 as [|p l Hp Hl IH]; intros i count out response Hr Hout; cbn [catalog_loop].
  { apply finish_page_framed; [done|lia|lia|done]. }
  assert (Hz : zlen response = zlen buf) by (unfold zlen; lia).
  rewrite (matches_exact p platform model query Hp). destruct (matching _ _ _ p); cbn [negb]; [|by apply IH].
  destruct (i <? cursor); [by apply IH|].
  destruct Hp as ((id & Hid & _) & (name & Hname & _) & _).
  assert (Hmake : forall array capacity, 0 <= capacity <= 249 -> capacity <= zlen array ->
    exists array' size, make_list_entry p array capacity = Some (array', size) /\ zlen array' = zlen array /\
      (size = 0 \/ exists e rest, bytes_ok e /\ zlen e <= capacity /\ size = zlen e /\ 0 < size /\ array' = e ++ rest)).
  { intros array capacity Hc Ha.
    destruct (make_list_entry_spec p id name array capacity Hid Hname Hc Ha) as (a' & size & -> & Hl' & Hres).
    exists a', size. split; [done|]. split; [unfold zlen; lia|].
    destruct (list_entry id name capacity) as [e|] eqn:E; [right|by left].
    destruct Hres as (-> & Hpos & rest & ->). destruct (list_entry_ok id name capacity e) as [He1 He2]; [apply Hid|apply Hname|done|done|].
    exists e, rest. by split_and!. }
  assert (Hgo : forall e rest i', bytes_ok e -> zlen e <= cap - out -> 
    framed opcode cap buf (let? response := copy_record response out (e ++ rest) (zlen e) in
      catalog_loop opcode cursor platform model query cap l i' (u8 (count + 1)) (out + zlen e) response)).
  { intros e rest i' He Hfit. destruct (copy_record_spec response out e rest He) as (r' & -> & Hr' & _); [lia|lia|].
    apply IH; [lia|pose proof (zlen_nonneg e); lia]. }
  destruct (Hmake (uninit 249) 249) as (a1 & size & -> & Ha1 & Hcase); [lia|done|].
  destruct Hcase as [->|(e & rest & He & Hle & -> & Hpos & ->)]; [cbn [Z.eqb]; by apply IH|].
  destruct (Z.eqb_spec (zlen e) 0); [lia|]. destruct (Z.ltb_spec (cap - out) (zlen e)); [|by apply Hgo].
  destruct (count =? 0); [|apply finish_page_framed; [done|lia|lia|done]].
  destruct (Hmake (e ++ rest) (cap - out)) as (a2 & size2 & -> & _ & Hcase2); [lia|rewrite Ha1; change (zlen (uninit 249)) with 249; lia|].
  destruct Hcase2 as [->|(e2 & rest2 & He2 & Hle2 & -> & Hpos2 & ->)].
  - cbn [Z.eqb]. apply framed_error; [done|lia].
  - destruct (Z.eqb_spec (zlen e2) 0); [lia|]. by apply Hgo.
Qed.
End catalog.

Lemma string_record_ok type s capacity e : is_byte type -> bytes_ok s -> 0 <= capacity <= 249 ->
  string_record type s capacity = Some e -> bytes_ok e /\ zlen e <= capacity.
Proof.
  intros Ht Hs Hcap. unfold string_record. destruct (Z.ltb_spec capacity 2); [done|]. cbv zeta. intros [= <-].
  destruct (fitting_le s (capacity - 2) ltac:(lia)) as [Hfit Hfit'].
  rewrite !zlen_cons, zlen_take_nat by done. split; [|lia].
  constructor; [done|]. constructor; [unfold is_byte; lia|]. by apply Forall_take.
Qed.
Lemma counted_text_ok s room : bytes_ok s -> 0 <= room <= 255 -> bytes_ok (counted_text s room).
Proof.
  intros Hs Hr. unfold counted_text. pose proof (cut_le s (Z.to_nat (Z.min (zlen s) room))).
  constructor; [unfold is_byte; lia|by apply Forall_take].
Qed.

Lemma download_record_ok id label format size files capacity e :
  bytes_ok id -> bytes_ok label -> bytes_ok format -> is_byte files -> 0 <= capacity <= 249 ->
  download_record id label format size files capacity = Some e -> bytes_ok e /\ zlen e <= capacity.
Proof.
  intros H1 H2 H3 Hf Hcap. unfold download_record. destruct (Z.ltb_spec capacity 10); [done|]. cbv zeta.
  pose proof (counted_text_size id (Z.min 64 (capacity - 8)) ltac:(lia)) as Hb1.
  pose proof (counted_text_ok id (Z.min 64 (capacity - 8)) H1 ltac:(lia)) as Ho1.
  remember (counted_text id (Z.min 64 (capacity - 8))) as b1 eqn:Eb1. clear Eb1.
  destruct (Z.ltb_spec (capacity - 7 - zlen b1) 1); [done|].
  pose proof (counted_text_size label (Z.min 96 (capacity - 7 - zlen b1 - 1)) ltac:(lia)) as Hb2.
  pose proof (counted_text_ok label (Z.min 96 (capacity - 7 - zlen b1 - 1)) H2 ltac:(lia)) as Ho2.
  remember (counted_text label (Z.min 96 (capacity - 7 - zlen b1 - 1))) as b2 eqn:Eb2. clear Eb2.
  destruct (Z.ltb_spec (capacity - 7 - zlen b1 - zlen b2) 1); [done|].
  pose proof (counted_text_size format (Z.min 32 (capacity - 7 - zlen b1 - zlen b2 - 1)) ltac:(lia)) as Hb3.
  pose proof (counted_text_ok format (Z.min 32 (capacity - 7 - zlen b1 - zlen b2 - 1)) H3 ltac:(lia)) as Ho3.
  remember (counted_text format (Z.min 32 (capacity - 7 - zlen b1 - zlen b2 - 1))) as b3 eqn:Eb3. clear Eb3.
  intros [= <-]. autorewrite with zlen. split; [|lia].
  constructor; [unfold is_byte, RETRO_VAULT_INFO_DOWNLOAD; lia|]. constructor; [unfold is_byte; lia|].
  do 3 (apply Forall_app; split; [done|]). repeat (constructor; [first [apply u8_range|exact Hf]|]). constructor.
Qed.

Lemma view_bytes p : text_ok p -> bytes_ok (view p).
Proof.
  intros [->|[s Hs]]; [constructor|]. rewrite (view_text p s Hs). destruct Hs as [Hs _]. by apply cstr_bytes.
Qed.

Lemma info_record_ok p cursor capacity e : package_ok p -> 0 <= capacity <= 249 ->
  info_record p cursor capacity = Some e -> bytes_ok e /\ zlen e <= capacity.
Proof.
  intros (Hid%nonempty_ok & Hname%nonempty_ok & Hvendor & Hpid & Hpname & _ & _ & Hversion & Hdesc & _ & Hdl & Hyear & Hrating) Hcap.
  assert (Hs : forall type q, text_ok q -> is_byte type -> string_record type (view q) capacity = Some e ->
    bytes_ok e /\ zlen e <= capacity).
  { intros type q Hq Ht. apply string_record_ok; [done|by apply view_bytes|done]. }
  assert (Hd : match contents (p_downloads p) !! Z.to_nat (cursor - 9) with
      | Some d => download_record (view (d_id d)) (view (d_label d)) (view (d_format d)) (d_aggregate_size d)
                    (d_file_count d) capacity
      | None => None
      end = Some e -> bytes_ok e /\ zlen e <= capacity).
  { destruct (contents (p_downloads p) !! Z.to_nat (cursor - 9)) as [d|] eqn:E; [|done].
    pose proof (Forall_lookup_1 _ _ _ _ Hdl E) as (Hi%nonempty_ok & Hl%nonempty_ok & Hf%nonempty_ok & _ & Hc).
    apply download_record_ok; [by apply view_bytes|by apply view_bytes|by apply view_bytes|unfold is_byte; lia|done]. }
  unfold info_record. intros E.
  assert (Hcases : cursor = 0 \/ cursor = 1 \/ cursor = 2 \/ cursor = 3 \/ cursor = 4 \/ cursor = 5 \/ cursor = 6 \/
    cursor = 7 \/ cursor = 8 \/ (cursor < 0 \/ 9 <= cursor)) by lia.
  destruct Hcases as [->|[->|[->|[->|[->|[->|[->|[->|[->|Hcur]]]]]]]]];
    try (eapply Hs; [| |exact E]; [assumption|unfold is_byte; vm_compute; split; congruence]).
  - destruct (Z.ltb_spec capacity 4); [done|]. injection E as <-. autorewrite with zlen. split; [|lia].
    do 2 (constructor; [unfold is_byte, RETRO_VAULT_INFO_YEAR; lia|]). apply le16_ok.
  - destruct (Z.ltb_spec capacity 3); [done|]. injection E as <-. autorewrite with zlen. split; [|lia].
    repeat constructor; unfold is_byte, RETRO_VAULT_INFO_RATING; lia.
  - apply Hd. destruct cursor as [|q|q]; try lia; [|done]. do 4 (destruct q as [q|q|]; try done; try lia).
Qed.

Section info.
Variables (opcode : Z) (p : retro_vault_package) (cap : Z) (buf : list Z).
Hypothesis p_ok : package_ok p.
Hypothesis cap_int : cap < 2 ^ 31.

Lemma info_loop_framed fuel : forall cursor count out response,
  5 <= cap <= zlen buf -> 0 <= cursor -> length response = length buf -> 5 <= out <= cap -> (Z.to_nat (cap - out) < fuel)%nat ->
  framed opcode cap buf (info_loop opcode p cap fuel cursor count out response).
Proof.
  induction fuel as [|fuel IH]; intros cursor count out response cap_ok Hcur Hr Hout Hf; [lia|]. cbn [info_loop].
  assert (Hz : zlen response = zlen buf) by (unfold zlen; lia).
  destruct (cursor <? 9 + p_download_count p); [|apply finish_page_framed; [done|lia|lia|done]].
  assert (Hmake : forall array capacity, 0 <= capacity <= 249 -> capacity <= zlen array ->
    exists array' size, make_info_record p cursor array capacity = Some (array', size) /\ zlen array' = zlen array /\
      (size = 0 \/ exists e rest, bytes_ok e /\ zlen e <= capacity /\ size = zlen e /\ 0 < size /\ array' = e ++ rest)).
  { intros array capacity Hc Ha.
    destruct (make_info_record_spec p cursor array capacity p_ok Hcur Hc Ha) as (a' & size & -> & Hl' & Hres).
    exists a', size. split; [done|]. split; [unfold zlen; lia|].
    destruct (info_record p cursor capacity) as [e|] eqn:E; [right|by left].
    destruct Hres as (-> & Hpos & rest & ->). destruct (info_record_ok p cursor capacity e) as [He1 He2]; [done|done|done|].
    exists e, rest. by split_and!. }
  assert (Hgo : forall e rest, bytes_ok e -> 0 < zlen e -> zlen e <= cap - out ->
    framed opcode cap buf (let? response := copy_record response out (e ++ rest) (zlen e) in
      info_loop opcode p cap fuel (u16 (cursor + 1)) (u8 (count + 1)) (out + zlen e) response)).
  { intros e rest He Hpos Hfit. destruct (copy_record_spec response out e rest He) as (r' & -> & Hr' & _); [lia|lia|].
    apply IH; [done|pose proof (u16_range (cursor + 1)); lia|lia|lia|lia]. }
  destruct (Hmake (uninit 249) 249) as (a1 & size & -> & Ha1 & Hcase); [lia|done|].
  destruct Hcase as [->|(e & rest & He & Hle & -> & Hpos & ->)]; [cbn [Z.eqb]; apply framed_error; [done|lia]|].
  destruct (Z.eqb_spec (zlen e) 0); [lia|]. destruct (Z.ltb_spec (cap - out) (zlen e)); [|by apply Hgo].
  destruct (count =? 0); [|apply finish_page_framed; [done|lia|lia|done]].
  destruct (Hmake (e ++ rest) (cap - out)) as (a2 & size2 & -> & _ & Hcase2); [lia|rewrite Ha1; change (zlen (uninit 249)) with 249; lia|].
  destruct Hcase2 as [->|(e2 & rest2 & He2 & Hle2 & -> & Hpos2 & ->)].
  - cbn [Z.eqb]. apply framed_error; [done|lia].
  - destruct (Z.eqb_spec (zlen e2) 0); [lia|]. by apply Hgo.
Qed.

Lemma info_page_framed cursor : 2 <= cap <= zlen buf -> 0 <= cursor ->
  framed opcode cap buf (write_info_page opcode p cap cursor buf).
Proof.
  intros Hcap Hcur. unfold write_info_page, retro_vault_page_header_size.
  destruct (Z.ltb_spec cap 5); cbn [orb]; [by apply framed_error|].
  destruct (9 + p_download_count p <? cursor); [by apply framed_error|].
  apply info_loop_framed; [lia|done|done|lia|lia].
Qed.
End info.
