(* ===== verification/VaultProps.v ===== *)
(** The retrovault service as a whole: what it asks of the HTTP client, the
    invariant of its context, memory that is released exactly once, requests
    that are answered in the protocol's format. *)
From stdpp Require Import base numbers list option gmultiset strings.
From Stdlib Require Import ZArith Lia.
From S2P Require Import Prelude Wire CLib Heap Json JsonGrammar JsonRead Vault VaultCatalog VaultServe VaultPages.

Local Open Scope Z_scope.
Local Open Scope squid_scope.

(** ** The HTTP client *)

(** A buffer whose first [b_size] bytes are [doc]. *)
Definition buffer_holds (b : retro_vault_buffer) (doc : list Z) : Prop :=
  bytes_ok doc /\ b_size b = zlen doc /\
  match b_data b with Some (_, cells) => front doc cells | None => doc = [] end.
Definition data_ok (b : retro_vault_buffer) (limit : Z) : Prop :=
  exists doc, buffer_holds b doc /\ zlen doc <= limit.

(** The paths the service may ask for: the catalog, or a download named by
    identifiers without special characters. *)
Definition safe_text (s : list Z) : Prop := s <> [] /\ Forall (fun c => safe_character c = true) s.
Definition safe_path (path : list Z) : Prop :=
  path = packages_path \/
  exists platform model id download again,
    safe_text id /\ safe_text download /\
    (forall s, platform = Some s -> safe_text s) /\ (forall s, model = Some s -> safe_text s) /\
    path = path_text platform model id download again /\ zlen path < retro_vault_api_path_max.

(** What the service relies on: a request for one of these paths returns; the
    buffer owns the only block that is left allocated, and holds at most
    [limit] bytes. *)
Class HttpClient {N} (get : retro_vault_http_get_fn N) : Prop :=
  http_answers : forall path limit code w, safe_path path -> 0 < limit <= 64 * 1024 * 1024 ->
    wp (get path limit retro_vault_buffer_init code)
      (fun r w' => after (w_mem w) (w_mem w') (live (w_mem w) ⊎ block (b_data r.1.2)) /\ data_ok r.1.2 limit) w.

Lemma wp_on_mem {N A} (c : ST mem A) (Q : A -> world N -> Prop) w :
  wp c (fun a m => Q a (World m (w_net w))) (w_mem w) -> wp (on_mem c) Q w.
Proof. unfold wp, on_mem. by destruct (c (w_mem w)) as [[a m]|]. Qed.

(** ** The context *)

Section context.
Context {N : Type}.
Implicit Types (c : retro_vault_context N) (w : world N).

Definition context_ok c : Prop :=
  packages_ok (packages c) (package_count c) /\ data_ok (download_data c) retro_vault_download_limit /\
  text_ok (download_path c) /\
  match http_get c with Some get => HttpClient get | None => package_count c = 0 end.

Definition owned_context c : gmultiset nat :=
  owned_packages (packages c) ⊎ (block (b_data (download_data c)) ⊎ block (download_path c)).

(** The service owns these blocks and others [X] are live. *)
Definition balanced (X : gmultiset nat) c w : Prop := live (w_mem w) = X ⊎ owned_context c.

Lemma buffer_init_ok limit : 0 <= limit -> data_ok retro_vault_buffer_init limit.
Proof. intros Hl. exists []. split; [by repeat constructor|by rewrite zlen_nil]. Qed.

Lemma context_init_ok get : HttpClient get -> context_ok (init_retro_vault_context (Some get)).
Proof.
  intros Hget. split_and!; [split_and!; [done|constructor|cbn; lia]| |by left|done].
  apply buffer_init_ok. unfold retro_vault_download_limit. lia.
Qed.
Lemma context_init_balanced get X (w : world N) : live (w_mem w) = X -> balanced X (init_retro_vault_context get) w.
Proof. intros <-. unfold balanced, owned_context, owned_packages, owned_list. cbn. balance. Qed.

Lemma buffer_free_spec b (Q : retro_vault_buffer -> mem -> Prop) m X :
  live m = X ⊎ block (b_data b) -> (forall m', after m m' X -> Q retro_vault_buffer_init m') ->
  wp (retro_vault_buffer_free b) Q m.
Proof.
  intros Hl HQ. apply wp_bind. eapply free_last; [exact Hl|]. intros m' Hm'. by apply wp_ret, HQ.
Qed.

(** Closing the service releases all it owns. *)
Lemma free_context_spec c (Q : retro_vault_context N -> mem -> Prop) m X :
  context_ok c -> live m = X ⊎ owned_context c ->
  (forall m', after m m' X -> Q (Context None None 0 0 0 retro_vault_buffer_init None) m') ->
  wp (free_retro_vault_context c) Q m.
Proof.
  intros ((Ha & Hp & _) & _ & _ & _) Hl HQ. unfold owned_context in Hl. apply wp_bind.
  apply (free_packages_spec _ _ _ m (X ⊎ (block (b_data (download_data c)) ⊎ block (download_path c))));
    [done|by apply package_ok_counted|rewrite Hl; balance|]. intros m1 Hm1.
  apply wp_bind. apply (buffer_free_spec _ _ _ (X ⊎ block (download_path c))); [rewrite (proj1 Hm1); balance|].
  intros m2 Hm2. apply wp_bind. eapply free_last; [apply Hm2|]. intros m3 Hm3. apply wp_ret, HQ.
  by do 2 (eapply after_trans; [eassumption|]).
Qed.

(** *** The catalog *)

Variable time_now : N -> Z * N.

Definition with_catalog c (ps : ptr (list retro_vault_package)) (n now : Z) : retro_vault_context N :=
  Context (http_get c) ps n (if negb (now =? -1) then now else 1) (catalog_cache_seconds c)
    (download_data c) (download_path c).

(** The status of a failed refresh without a catalog to fall back to, by the
    outcome of the request (0, or -2 for a reply that is too large) and its HTTP
    code: 3 is not found, 5 an unusable reply, 4 too large, 2 unavailable. *)
Definition failure_status (result code : Z) : Z :=
  match result with
  | 0 => match code with 404 => 3 | _ => 5 end
  | -2 => 4
  | _ => match code with 404 | 409 => 3 | _ => 2 end
  end.

(** The reply is a success and a catalog of these packages. *)
Definition offers (result code : Z) (doc : list Z) (infos : list package_info) : Prop :=
  result = 0 /\ 200 <= code < 300 /\ exists t v, document doc (zlen doc) t v /\ ref_catalog t = Some infos.

(** The catalog is kept; packages are installed. *)
Definition kept c (result code status : Z) c' : Prop :=
  c' = c /\ status = if 0 <? package_count c then 0 else failure_status result code.
Definition installed c (now status : Z) c' (good : list retro_vault_package -> Prop) : Prop :=
  status = 0 /\ exists ps n, c' = with_catalog c ps n now /\ n = zlen (contents ps) /\ good (contents ps).

(** What a refresh with this reply does: with memory, it installs the catalog
    the reply offers, and if there is none it keeps the old one; when an
    allocation fails it may also keep the old one. *)
Definition refreshed (m : mem) c now (result code : Z) (doc : list Z) (status : Z) c' : Prop :=
  (memory_ok m ->
     (forall infos, offers result code doc infos ->
        installed c now status c' (fun ps => Forall2 package_is ps infos)) /\
     ((forall infos, ~ offers result code doc infos) -> kept c result code status c')) /\
  (kept c result code status c' \/
   (result = 0 /\ 200 <= code < 300 /\ (exists t v, document doc (zlen doc) t v) /\
    installed c now status c' (Forall package_ok))).

Lemma catalog_safe_path : safe_path packages_path.
Proof. by left. Qed.

Lemma failure_status_eq result code :
  (if result =? retro_vault_http_ok then
     if code =? 404 then RETRO_VAULT_STATUS_NOT_FOUND else RETRO_VAULT_STATUS_INTERNAL_ERROR
   else http_error_status result code) = failure_status result code.
Proof.
  assert (Hcode : forall (x y : Z), (if code =? 404 then x else y) = match code with 404 => x | _ => y end).
  { intros x y. destruct (Z.eqb_spec code 404) as [->|]; [done|]. by repeat case_match. }
  assert (Hcodes : forall (x y : Z), (if (code =? 404) || (code =? 409) then x else y) =
    match code with 404 | 409 => x | _ => y end).
  { clear Hcode. intros x y. destruct (Z.eqb_spec code 404) as [->|]; [done|].
    destruct (Z.eqb_spec code 409) as [->|]; [done|]. by repeat case_match. }
  unfold http_error_status, failure_status. rewrite Hcode, Hcodes.
  destruct (Z.eqb_spec result retro_vault_http_ok) as [->|Hok]; [done|].
  destruct (Z.eqb_spec result retro_vault_http_too_large) as [->|Hlarge]; [done|].
  unfold retro_vault_http_ok, retro_vault_http_too_large in *. by repeat case_match.
Qed.

(** The buffer of a reply, as the catalog reader gets it. *)
Lemma parse_reply_spec b doc (Q : option (ptr (list retro_vault_package) * Z) -> mem -> Prop) m :
  buffer_holds b doc ->
  (forall r m', after m m' (live m ⊎ owned_result r) -> catalog_read m doc r -> Q r m') ->
  wp (parse_catalog (b_data b) (b_size b)) Q m.
Proof.
  intros (Hdoc & Hsize & Hdata) HQ. rewrite Hsize. destruct (b_data b) as [[blk cells]|].
  - destruct Hdata as [rest ->]. by apply parse_catalog_spec.
  - subst doc. apply wp_ret, HQ; [split; [cbn [owned_result]; balance|done]|]. split; [done|].
    intros t v (w & s & w' & E & _ & _ & Hr & _). exfalso. destruct (renders_head t s) as (x & s' & -> & _); [done|].
    by destruct w.
Qed.

(** A reply that is no success, or one of which the reader made [r]. *)
Lemma reply_kept m c now result code doc status c' :
  ~ (result = 0 /\ 200 <= code < 300) \/ catalog_read m doc None ->
  kept c result code status c' -> refreshed m c now result code doc status c'.
Proof.
  intros Hno Hk. split; [|by left]. intros Hm. split; [|done]. intros infos (Hres & Hcode & t & v & Ht & Href).
  destruct Hno as [Hno|[_ Hex]]; [by destruct Hno|]. specialize (Hex t v Ht Hm). cbn in Hex. congruence.
Qed.
Lemma reply_installed m c now result code doc ps n :
  result = 0 -> 200 <= code < 300 -> catalog_read m doc (Some (ps, n)) ->
  refreshed m c now result code doc 0 (with_catalog c ps n now).
Proof.
  intros Hres Hcode [Hok Hex]. destruct (Hok ps n eq_refl) as ((Ha & Hp & _) & t & v & Ht).
  assert (Hn : n = zlen (contents ps)) by (symmetry; exact Ha). split.
  - intros Hm. destruct (Hex t v Ht Hm) as (infos & Href & Hall). split.
    + intros infos' (_ & _ & t' & v' & Ht' & Href'). destruct (Hex t' v' Ht' Hm) as (infos2 & E2 & Hall2).
      assert (infos2 = infos') as -> by congruence. split; [done|]. by exists ps, n.
    + intros Hno. exfalso. apply (Hno infos). split; [done|]. split; [done|]. by exists t, v.
  - right. split_and!; [done|lia|lia|by eauto|]. split; [done|]. by exists ps, n.
Qed.

Lemma refresh_spec c w X get now result response code doc :
  context_ok c -> http_get c = Some get ->
  live (w_mem w) = (X ⊎ owned_context c) ⊎ block (b_data response) -> buffer_holds response doc ->
  wp (let! parsed :=
        if negb (result =? retro_vault_http_ok) || (code <? 200) || (300 <=? code)
        then ret None else on_mem (parse_catalog (b_data response) (b_size response)) in
      match parsed with
      | None =>
          let! _ := on_mem (retro_vault_buffer_free response) in
          if 0 <? package_count c then ret (RETRO_VAULT_STATUS_OK, c)
          else ret (if result =? retro_vault_http_ok then
                     if code =? 404 then RETRO_VAULT_STATUS_NOT_FOUND else RETRO_VAULT_STATUS_INTERNAL_ERROR
                   else http_error_status result code, c)
      | Some (new_packages, new_count) =>
          let! _ := on_mem (retro_vault_buffer_free response) in
          do! on_mem (free_packages (packages c) (package_count c));
          ret (RETRO_VAULT_STATUS_OK,
               Context (http_get c) new_packages new_count (if negb (now =? -1) then now else 1)
                 (catalog_cache_seconds c) (download_data c) (download_path c))
      end)
    (fun r w' => balanced X r.2 w' /\ context_ok r.2 /\ refreshed (w_mem w) c now result code doc r.1 r.2) w.
Proof.
  intros Hc Hget Hl Hdata. rewrite failure_status_eq. apply wp_bind.
  assert (Hno : forall w1 : world N, live (w_mem w1) = (X ⊎ owned_context c) ⊎ block (b_data response) ->
    ~ (result = 0 /\ 200 <= code < 300) \/ catalog_read (w_mem w) doc None ->
    wp (let! _ := on_mem (retro_vault_buffer_free response) in
        if 0 <? package_count c then ret (RETRO_VAULT_STATUS_OK, c) else ret (failure_status result code, c))
      (fun r w' => balanced X r.2 w' /\ context_ok r.2 /\ refreshed (w_mem w) c now result code doc r.1 r.2) w1).
  { intros w1 Hl1 Hbad. apply wp_bind, wp_on_mem. eapply buffer_free_spec; [exact Hl1|]. intros m2 Hm2.
    assert (Hb : balanced X c (World m2 (w_net w1))) by (by destruct Hm2).
    destruct (0 <? package_count c) eqn:Ep; apply wp_ret; cbn [fst snd]; (split_and!; [done|done|]);
      (apply reply_kept; [done|]); unfold kept; by rewrite Ep. }
  destruct (negb (result =? retro_vault_http_ok) || (code <? 200) || (300 <=? code)) eqn:Eu.
  { apply wp_ret. cbv beta iota. apply Hno; [done|]. left. unfold retro_vault_http_ok in Eu. lia. }
  assert (Hgood : result = 0 /\ 200 <= code < 300) by (unfold retro_vault_http_ok in Eu; lia).
  apply wp_on_mem. eapply parse_reply_spec; [done|]. intros r m1 Hm1 Hr.
  destruct r as [[ps n]|].
  2: { cbv beta iota. apply Hno; [|by right]. cbn [w_mem]. rewrite (proj1 Hm1), Hl. cbn [owned_result]. balance. }
  apply wp_bind, wp_on_mem. cbn [w_mem w_net].
  apply (buffer_free_spec _ _ _ (X ⊎ owned_context c ⊎ owned_packages ps)).
  { rewrite (proj1 Hm1), Hl. cbn [owned_result]. balance. }
  intros m2 Hm2. apply wp_bind, wp_on_mem. cbn [w_mem w_net]. destruct Hc as ((Ha & Hp & Hn) & Hd & Hpath & Hhttp).
  apply (free_packages_spec _ _ _ _ (X ⊎ owned_packages ps ⊎ (block (b_data (download_data c)) ⊎ block (download_path c))));
    [done|by apply package_ok_counted|rewrite (proj1 Hm2); unfold owned_context; balance|].
  intros m3 Hm3. apply wp_ret. cbn [fst snd]. split.
  { unfold balanced, owned_context. cbn [w_mem packages download_data download_path]. rewrite (proj1 Hm3). balance. }
  split; [split_and!; [by apply (proj1 Hr)|done|done|cbn; by rewrite Hget in *]|].
  destruct Hgood. by apply reply_installed.
Qed.

Lemma wp_time (Q : Z -> world N -> Prop) w :
  (forall now n, time_now (w_net w) = (now, n) -> Q now (World (w_mem w) n)) -> wp (c_time time_now) Q w.
Proof. intros HQ. unfold wp, c_time. destruct (time_now (w_net w)) as [now n]. by apply HQ. Qed.

(** The statuses a refresh can give, and what it leaves alone. *)
Definition keeps_download c c' : Prop :=
  http_get c' = http_get c /\ download_data c' = download_data c /\ download_path c' = download_path c /\
  catalog_cache_seconds c' = catalog_cache_seconds c.

Lemma ensure_catalog_spec c w X (Q : Z * retro_vault_context N -> world N -> Prop) :
  context_ok c -> balanced X c w ->
  (forall status c' w', balanced X c' w' -> context_ok c' -> keeps_download c c' ->
     (status = RETRO_VAULT_STATUS_OK -> http_get c' <> None) -> Q (status, c') w') ->
  wp (ensure_catalog time_now c) Q w.
Proof.
  intros Hc Hb HQ. unfold ensure_catalog. apply wp_bind, wp_time. intros now n _.
  assert (Hb1 : balanced X c (World (w_mem w) n)) by done.
  assert (Hkeep : keeps_download c c) by done.
  destruct (catalog_is_fresh c now) eqn:Efresh.
  { apply wp_ret, HQ; [done|done|done|]. intros _ Hnone. destruct Hc as (_ & _ & _ & Hh). rewrite Hnone in Hh.
    unfold catalog_is_fresh in Efresh. by rewrite Hh in Efresh. }
  destruct (http_get c) as [get|] eqn:Eget.
  2: { apply wp_ret, HQ; [done|done|done|]. done. }
  assert (Hget : HttpClient get) by (destruct Hc as (_ & _ & _ & Hh); by rewrite Eget in Hh).
  apply wp_bind. eapply wp_mono.
  { apply (http_answers packages_path retro_vault_catalog_limit); [apply catalog_safe_path|].
    unfold retro_vault_catalog_limit. lia. }
  intros [[result response] code] w1 [Hm1 Hdata]. cbn [fst snd w_mem] in Hm1, Hdata. rewrite <- Eget.
  destruct Hdata as (doc & Hdoc & _). eapply wp_mono.
  { apply (refresh_spec c w1 X get now result response code doc Hc Eget); [|done]. rewrite (proj1 Hm1). by rewrite Hb. }
  intros [status c'] w2 (Hb2 & Hc2 & Href). cbn [fst snd] in *. apply HQ; [done|done| |].
  - destruct Href as [_ [[-> _]|(_ & _ & _ & _ & ps & k & -> & _)]]; done.
  - intros _. destruct Href as [_ [[-> _]|(_ & _ & _ & _ & ps & k & -> & _)]]; cbn; congruence.
Qed.

(** C20. A refresh installs what the reply offers, and a failed one never costs
    the catalog.  When the catalog is no longer fresh and the HTTP client
    answers [result] with status [code] and the body [doc], the refresh
    returns.  With memory: if the reply is a success in the 200s and its body is
    a catalog document, the packages become exactly those of the document, the
    time of the fetch is noted and nothing else of the context changes; if not,
    the context is exactly what it was, and the status is OK if there are
    packages to go on with and otherwise tells the failure: too large (4), not
    found (3, for 404 and for a failed request with 409), an unusable reply (5)
    or an unavailable service (2).  When an allocation fails, a good reply may
    leave the old catalog or install well-formed packages.  In every case the
    buffer and the replaced packages are released, once. *)
Theorem catalog_kept c w X get now n result response code doc w1 :
  context_ok c -> balanced X c w -> http_get c = Some get ->
  time_now (w_net w) = (now, n) -> catalog_is_fresh c now = false ->
  get packages_path retro_vault_catalog_limit retro_vault_buffer_init 0 (World (w_mem w) n)
    = Some ((result, response, code), w1) -> buffer_holds response doc ->
  exists status c' w', ensure_catalog time_now c w = Some ((status, c'), w') /\
    balanced X c' w' /\ context_ok c' /\ refreshed (w_mem w) c now result code doc status c'.
Proof.
  intros Hc Hb Eget Et Efresh Ehttp Hdoc.
  assert (Hwp : wp (ensure_catalog time_now c)
    (fun r w' => balanced X r.2 w' /\ context_ok r.2 /\ refreshed (w_mem w) c now result code doc r.1 r.2) w).
  { unfold ensure_catalog. apply wp_bind, wp_time. intros now' n' Et'. rewrite Et in Et'. injection Et' as <- <-.
    rewrite Efresh. pose proof (refresh_spec c w1 X get now result response code doc Hc Eget) as Hr. rewrite Eget in *.
    assert (Hget : HttpClient get) by (destruct Hc as (_ & _ & _ & Hh); by rewrite Eget in Hh).
    pose proof (http_answers packages_path retro_vault_catalog_limit 0 (World (w_mem w) n) catalog_safe_path
      ltac:(unfold retro_vault_catalog_limit; lia)) as Hans.
    unfold wp in Hans. rewrite Ehttp in Hans. destruct Hans as [Hm1 _]. cbn [fst snd w_mem] in Hm1.
    assert (Hsame : memory_ok (w_mem w1) <-> memory_ok (w_mem w)) by (unfold memory_ok; by rewrite (proj2 Hm1)).
    apply wp_bind, wp_inv. eexists _, _. split; [exact Ehttp|]. eapply wp_mono.
    - apply Hr; [|done]. rewrite (proj1 Hm1). by rewrite Hb.
    - intros r w2 (H1 & H2 & H3). split_and!; [done|done|]. unfold refreshed in *. by rewrite Hsame in H3. }
  apply wp_inv in Hwp as ([status c'] & w' & E & Hb' & Hc' & Href). by exists status, c', w'.
Qed.

(** *** Downloads *)

Lemma packages_elements c : context_ok c ->
  elements (packages c) (package_count c) = Some (contents (packages c)) /\ Forall package_ok (contents (packages c)).
Proof. intros ((Ha & Hp & _) & _). split; [by apply elements_contents|done]. Qed.

Lemma find_loop_total {A} (id_of : A -> ptr (list Z)) l id : Forall (fun x => text_ok (id_of x)) l ->
  exists r, find_loop id_of l id = Some r /\ (forall x, r = Some x -> x ∈ l).
Proof.
  induction 1 as [|x l Hx _ (r & E & Hr)]; [by exists None|]. cbn [find_loop].
  destruct (equals_total (id_of x) id Hx) as [b ->]. destruct b.
  - exists (Some x). split; [done|]. intros y [= <-]. constructor.
  - exists r. split; [done|]. intros y Hy. constructor. by apply Hr.
Qed.

Lemma find_package_spec c id : context_ok c ->
  exists r, find_package c id = Some r /\ forall p, r = Some p -> package_ok p.
Proof.
  intros Hc. destruct (packages_elements c Hc) as [E Hp]. unfold find_package. rewrite E.
  destruct (find_loop_total p_id (contents (packages c)) id) as (r & Er & Hr).
  { eapply Forall_impl; [exact Hp|]. intros p (Hid & _). by apply nonempty_ok. }
  exists r. split; [done|]. intros p Ep. eapply Forall_elem; [exact Hp|by apply Hr].
Qed.
Lemma find_download_spec p id : package_ok p ->
  exists r, find_download p id = Some r /\ forall d, r = Some d -> download_ok d.
Proof.
  intros (_ & _ & _ & _ & _ & _ & _ & _ & _ & Hcnt & Hdl & _). unfold find_download.
  rewrite (elements_contents _ _ Hcnt).
  destruct (find_loop_total d_id (contents (p_downloads p)) id) as (r & Er & Hr).
  { eapply Forall_impl; [exact Hdl|]. intros d (Hid & _). by apply nonempty_ok. }
  exists r. split; [done|]. intros d Ed. eapply Forall_elem; [exact Hdl|by apply Hr].
Qed.

Lemma identifier_safe s : identifier_is_safe s = true -> safe_text s.
Proof.
  unfold identifier_is_safe. intros H. apply andb_true_iff in H as [H1 H2]. split.
  - intros ->. done.
  - apply Forall_forall. intros x Hx. rewrite forallb_forall in H2. apply H2. by apply list_elem_of_In.
Qed.
Lemma catalog_identifier_spec p : text_ok p ->
  exists r, catalog_identifier_is_safe p = Some r /\ forall s, r = Some s -> safe_text s.
Proof.
  intros [->|[s Hs]]; [by exists None|]. unfold catalog_identifier_is_safe. rewrite (text_is_string p s Hs).
  destruct Hs as [_ (b & rest & ->)]. eexists. split; [done|]. intros s' E.
  destruct (identifier_is_safe s) eqn:Ei; [|done]. injection E as <-. by apply identifier_safe.
Qed.

Lemma build_path_spec p id again : package_ok p -> text_ok id ->
  exists r, build_download_path p id again retro_vault_api_path_max = Some r /\
    forall path, r = Some path -> safe_path path.
Proof.
  intros (Hid%nonempty_ok & _ & _ & Hpid & _ & Hmid & _) Hdid. unfold build_download_path.
  destruct (catalog_identifier_spec _ Hid) as (r1 & -> & H1). destruct r1 as [s1|]; [|by exists None].
  destruct (catalog_identifier_spec _ Hdid) as (r2 & -> & H2). destruct r2 as [s2|]; [|by exists None].
  change (retro_vault_api_path_max =? 0) with false. cbv iota.
  destruct (catalog_identifier_spec _ Hpid) as (r3 & -> & H3), (catalog_identifier_spec _ Hmid) as (r4 & -> & H4).
  unfold snprintf. remember (path_text r3 r4 s1 s2 again) as path eqn:Epath. eexists. split; [done|]. intros path' E.
  destruct (Z.leb_spec retro_vault_api_path_max (zlen path)); [done|].
  assert (Htake : take (Z.to_nat (retro_vault_api_path_max - 1)) path = path).
  { apply take_ge. unfold retro_vault_api_path_max, zlen in *. lia. }
  rewrite Htake in E. injection E as <-. right. exists r3, r4, s1, s2, again. split_and!; auto.
Qed.

(** What a fetch gives: data to keep, or an empty buffer. *)
Lemma fetch_spec c w path code0 (Q : Z * retro_vault_buffer * Z -> world N -> Prop) :
  context_ok c -> http_get c <> None -> safe_path path ->
  (forall status b code w', after (w_mem w) (w_mem w') (live (w_mem w) ⊎ block (b_data b)) ->
     data_ok b retro_vault_download_limit -> (status <> RETRO_VAULT_STATUS_OK -> block (b_data b) = ∅) ->
     Q (status, b, code) w') ->
  wp (fetch_download c path code0) Q w.
Proof.
  intros (_ & _ & _ & Hh) Hne Hpath HQ. unfold fetch_download. destruct (http_get c) as [get|]; [|done].
  apply wp_bind. eapply wp_mono.
  { apply (http_answers path retro_vault_download_limit); [done|unfold retro_vault_download_limit; lia]. }
  intros [[result b] code] w1 [Hm1 Hdata]. cbn [fst snd] in Hm1, Hdata. destruct (_ || _ || _).
  - apply wp_bind, wp_on_mem. eapply buffer_free_spec; [apply Hm1|]. intros m2 Hm2. apply wp_ret, HQ.
    + cbn [w_mem b_data retro_vault_buffer_init block]. eapply after_eq; [by eapply after_trans|]. balance.
    + apply buffer_init_ok. unfold retro_vault_download_limit. lia.
    + done.
  - apply wp_ret, HQ; [done|done|]. done.
Qed.

Lemma text_copy_is b path : cstr_ok path -> text_is (Some (b, path ++ [0])) path.
Proof. intros Hp. split; [done|]. by exists b, []. Qed.

(** A path has no NUL in it. *)
Lemma safe_text_cstr s : safe_text s -> cstr_ok s.
Proof.
  intros [_ H]. eapply Forall_impl; [exact H|]. intros c Hc. cbv beta in Hc. unfold safe_character in Hc. lia.
Qed.
Lemma safe_path_cstr path : safe_path path -> cstr_ok path.
Proof.
  assert (Ht : forall s, forallb (fun x => (0 <? x) && (x <? 256)) (text s) = true -> cstr_ok (text s)) by apply text_cstr_ok.
  intros [->|(pl & mo & id & d & again & Hid & Hd & Hpl & Hmo & -> & _)]; [by apply Ht|].
  apply safe_text_cstr in Hid, Hd. unfold path_text, packages_path.
  destruct pl as [pl|]; [specialize (Hpl pl eq_refl); apply safe_text_cstr in Hpl|];
    (destruct mo as [mo|]; [specialize (Hmo mo eq_refl); apply safe_text_cstr in Hmo|]); destruct again;
    repeat (apply Forall_app; split); try assumption; by apply Ht.
Qed.

Lemma keep_spec c w X path b (Q : Z * retro_vault_context N -> world N -> Prop) :
  context_ok c -> live (w_mem w) = (X ⊎ owned_context c) ⊎ block (b_data b) -> data_ok b retro_vault_download_limit ->
  cstr_ok path ->
  (forall status c' w', balanced X c' w' -> context_ok c' -> Q (status, c') w') ->
  wp (keep_download c path b) Q w.
Proof.
  intros Hc Hl Hdata Hpath HQ. unfold keep_download. apply wp_bind, wp_on_mem, wp_malloc.
  - intros blk m1 Hm1. apply wp_bind, wp_on_mem. cbn [w_mem w_net]. unfold owned_context in Hl.
    apply (buffer_free_spec _ _ _
      (X ⊎ owned_packages (packages c) ⊎ block (download_path c) ⊎ block (b_data b) ⊎ {[+ blk +]})).
    { rewrite (proj1 Hm1), Hl. balance. }
    intros m2 Hm2. apply wp_bind, wp_on_mem. cbn [w_mem w_net].
    apply (wp_free _ _ _ (X ⊎ owned_packages (packages c) ⊎ block (b_data b) ⊎ {[+ blk +]})).
    { rewrite (proj1 Hm2). balance. }
    intros m3 Hm3. apply wp_ret, HQ.
    + unfold balanced, owned_context. cbn [w_mem packages download_data download_path block].
      rewrite (proj1 Hm3). balance.
    + destruct Hc as (Hp & _ & _ & Hh). split_and!; [done|done| |done]. right. exists path. by apply text_copy_is.
  - intros m1 Hm1 _. apply wp_bind, wp_on_mem. cbn [w_mem w_net].
    eapply buffer_free_spec; [rewrite (proj1 Hm1); exact Hl|]. intros m2 Hm2. apply wp_ret, HQ; [|done].
    by destruct Hm2.
Qed.

Lemma ensure_download_spec c w X package_id download_id (Q : Z * retro_vault_context N -> world N -> Prop) :
  context_ok c -> balanced X c w ->
  (forall status c' w', balanced X c' w' -> context_ok c' -> Q (status, c') w') ->
  wp (ensure_download time_now c package_id download_id) Q w.
Proof.
  intros Hc Hb HQ. unfold ensure_download. destruct (negb _ || negb _); [by apply wp_ret, HQ|].
  apply wp_bind. eapply ensure_catalog_spec; [done|done|]. intros status c1 w0 Hb1 Hc1 _ Hget.
  clear c w Hc Hb. rename c1 into c, w0 into w, Hb1 into Hb, Hc1 into Hc.
  cbv beta iota. destruct (Z.eqb_spec status RETRO_VAULT_STATUS_OK) as [->|]; cbn [negb]; [|by apply wp_ret, HQ].
  specialize (Hget eq_refl).
  destruct (find_package_spec c package_id Hc) as (r & Er & Hr). apply wp_bind. eapply wp_lift; [exact Er|].
  destruct r as [p|]; [|by apply wp_ret, HQ]. specialize (Hr p eq_refl).
  destruct (find_download_spec p download_id Hr) as (r & Er2 & Hd). apply wp_bind. eapply wp_lift; [exact Er2|].
  destruct r as [d|]; [|by apply wp_ret, HQ]. specialize (Hd d eq_refl).
  assert (Hdid : text_ok (d_id d)) by (destruct Hd as (Hdid & _); by apply nonempty_ok).
  destruct (build_path_spec p (d_id d) false Hr Hdid) as (r & Er3 & Hpath). apply wp_bind. eapply wp_lift; [exact Er3|].
  destruct r as [path|]; [|by apply wp_ret, HQ]. specialize (Hpath path eq_refl).
  assert (Hheld : exists b, holds_path c path = Some b).
  { unfold holds_path. destruct Hc as (_ & _ & [->|[s Hs]] & _); [by eexists|]. rewrite (text_is_string _ s Hs).
    destruct Hs as [_ (b & rest & ->)]. by eexists. }
  destruct Hheld as [held Eh]. apply wp_bind. eapply wp_lift; [exact Eh|]. destruct held; [by apply wp_ret, HQ|].
  apply wp_bind. apply (fetch_spec c w path); [done|done|done|]. intros status b code w1 Hm1 Hdata Hempty. cbv beta iota.
  assert (Hdone : forall status b w2, after (w_mem w) (w_mem w2) (live (w_mem w) ⊎ block (b_data b)) ->
    data_ok b retro_vault_download_limit -> (status <> RETRO_VAULT_STATUS_OK -> block (b_data b) = ∅) ->
    wp (if negb (status =? RETRO_VAULT_STATUS_OK) then ret (status, c) else keep_download c path b) Q w2).
  { intros st b' w2 Hm2 Hdata2 Hempty2. destruct (Z.eqb_spec st RETRO_VAULT_STATUS_OK) as [->|Hne]; cbn [negb].
    - eapply keep_spec; [done| |done|by apply safe_path_cstr|exact HQ]. rewrite (proj1 Hm2). by rewrite Hb.
    - apply wp_ret, HQ; [|done]. unfold balanced. rewrite (proj1 Hm2), Hb, (Hempty2 Hne). balance. }
  apply wp_bind. unfold retry_download.
  destruct (negb (status =? RETRO_VAULT_STATUS_OK) && (code =? 409)) eqn:Eretry; [|by apply wp_ret, Hdone].
  destruct (build_path_spec p (d_id d) true Hr Hdid) as (r & Er4 & Hpath2). apply wp_bind. eapply wp_lift; [exact Er4|].
  destruct r as [again|]; [|by apply wp_ret, Hdone]. specialize (Hpath2 again eq_refl).
  destruct (eq_text again path); [by apply wp_ret, Hdone|].
  apply andb_true_iff in Eretry as [Ene _]. assert (Hne : status <> RETRO_VAULT_STATUS_OK).
  { intros ->. done. }
  apply (fetch_spec c w1 again); [done|done|done|]. intros st b' code' w2 Hm2 Hdata2 Hempty2. apply Hdone; [|done|done].
  eapply after_eq; [by eapply after_trans|]. rewrite (proj1 Hm1), (Hempty Hne). balance.
Qed.

(** *** Requests *)

Section request.
Variables (request : list Z) (request_size : Z) (buf : list Z) (cap : Z) (X : gmultiset nat).
Hypothesis request_ok : bytes_ok request.
Hypothesis size_ok : 0 < request_size <= zlen request.
Hypothesis cap_ok : 2 <= cap <= zlen buf.
Hypothesis cap_int : cap < 2 ^ 31.

(** The answer has the protocol's format and the service goes on. *)
Definition served (opcode : Z) (r : list Z * Z * retro_vault_context N) w : Prop :=
  reply_ok opcode cap buf r.1.1 r.1.2 /\ context_ok r.2 /\ balanced X r.2 w.

Lemma answer_framed opcode r c w : framed opcode cap buf r -> context_ok c -> balanced X c w ->
  wp (answer r c) (served opcode) w.
Proof.
  intros (b & n & -> & Hr) Hc Hb. apply wp_bind. eapply wp_lift; [done|]. by apply wp_ret.
Qed.
Lemma answer_error opcode status c w : context_ok c -> balanced X c w ->
  wp (answer (write_error_response opcode status buf cap) c) (served opcode) w.
Proof. intros. apply answer_framed; [by apply framed_error|done|done]. Qed.

Lemma read_list_total opcode : exists r, read_list_request opcode request request_size = Some r.
Proof.
  assert (Hrd : forall i, 0 <= i < request_size -> exists v, rd request i = Some v /\ 0 <= v < 256).
  { intros i Hi. apply rd_ok; [done|lia]. }
  assert (Hrb : forall i n, 0 <= i -> 0 <= n -> i + n <= request_size -> exists l, rd_bytes request i n = Some l).
  { intros i n H1 H2 H3. rewrite rd_bytes_ok by (done || lia). by eexists. }
  unfold read_list_request. destruct (Z.ltb_spec request_size 4); [by eexists|].
  destruct (read_u16_ok request 1) as (cur & -> & _); [done|lia|lia|]. destruct (cur =? RETRO_VAULT_CURSOR_END); [by eexists|].
  destruct (Hrd 3) as (ps & -> & Hps); [lia|]. destruct (Z.ltb_spec (request_size - 4) ps); [by eexists|].
  destruct (Hrb 4 ps) as [pl ->]; [lia|lia|lia|].
  assert (Hend : forall (q : list Z) off, 4 <= off <= request_size -> exists r,
    (if off <? request_size then
       let? model_size := rd request off in
       if negb (model_size =? request_size - (off + 1)) then Some None
       else let? model := rd_bytes request (off + 1) model_size in Some (Some (cur, pl, q, model))
     else if negb (off =? request_size) then Some None else Some (Some (cur, pl, q, []))) = Some r).
  { intros q off Hoff. destruct (Z.ltb_spec off request_size).
    - destruct (Hrd off) as (ms & -> & Hms); [lia|]. destruct (Z.eqb_spec ms (request_size - (off + 1))); cbn [negb]; [|by eexists].
      destruct (Hrb (off + 1) ms) as [m ->]; [lia|lia|lia|]. by eexists.
    - destruct (negb _); by eexists. }
  destruct (opcode =? RETRO_VAULT_OP_SEARCH); [|apply Hend; lia].
  destruct (Z.leb_spec request_size (4 + ps)); [by eexists|].
  destruct (Hrd (4 + ps)) as (qs & -> & Hqs); [lia|].
  destruct (Z.eqb_spec qs 0); cbn [orb]; [by eexists|].
  destruct (Z.ltb_spec (request_size - (4 + ps + 1)) qs); [by eexists|].
  destruct (Hrb (4 + ps + 1) qs) as [q ->]; [lia|lia|lia|]. apply Hend. lia.
Qed.

Lemma list_served opcode c w : context_ok c -> balanced X c w ->
  wp (handle_list_or_search time_now c opcode request request_size buf cap) (served opcode) w.
Proof.
  intros Hc Hb. destruct (read_list_total opcode) as [r Er]. apply wp_bind. eapply wp_lift; [exact Er|].
  destruct r as [[[[cursor platform] query] model]|]; [|by apply answer_error].
  apply wp_bind. eapply ensure_catalog_spec; [done|done|]. intros status c' w' Hb' Hc' _ _. cbv beta iota.
  destruct (negb _); [by apply answer_error|]. apply answer_framed; [|done|done].
  unfold write_catalog_page, retro_vault_page_header_size. destruct (Z.ltb_spec cap 5); [apply framed_none|].
  destruct (packages_elements c' Hc') as [-> Hp]. apply catalog_loop_framed; [lia|done|done|done|lia].
Qed.

Lemma info_served opcode c w : context_ok c -> balanced X c w ->
  wp (handle_info time_now c opcode request request_size buf cap) (served opcode) w.
Proof.
  intros Hc Hb. unfold handle_info. destruct (Z.ltb_spec request_size 4); [by apply answer_error|].
  destruct (read_u16_ok request 1) as (cur & Ecur & Hcur); [done|lia|lia|]. apply wp_bind. eapply wp_lift; [exact Ecur|].
  destruct (rd_ok request 3) as (n & En & Hn); [done|lia|]. apply wp_bind. eapply wp_lift; [exact En|].
  destruct (Z.eqb_spec n 0); cbn [orb]; [by apply answer_error|].
  destruct (Z.eqb_spec n (request_size - 4)) as [->|]; cbn [negb]; [|by apply answer_error].
  apply wp_bind. eapply ensure_catalog_spec; [done|done|]. intros status c' w' Hb' Hc' _ _. cbv beta iota.
  destruct (negb _); [by apply answer_error|].
  apply wp_bind. eapply wp_lift; [apply rd_bytes_ok; [done|lia|lia|lia]|].
  destruct (find_package_spec c' (take (Z.to_nat (request_size - 4)) (drop (Z.to_nat 4) request)) Hc') as (r & Er & Hr).
  apply wp_bind. eapply wp_lift; [exact Er|]. destruct r as [p|]; [|by apply answer_error].
  apply answer_framed; [|done|done]. apply info_page_framed; [by apply Hr|done|done|lia].
Qed.

Lemma chunk_size_range maximum size offset : 11 <= cap -> 0 <= offset <= size -> 0 <= maximum ->
  let n := download_chunk_size cap maximum size offset in
  0 <= n <= 255 /\ n <= cap - 11 /\ n <= size - offset /\ (offset < size -> 11 < cap -> 0 < n).
Proof.
  intros Hcap Hoff Hmax. unfold download_chunk_size, retro_vault_download_header_size, UINT8_MAX. cbv zeta.
  set (d1 := if (0 <? maximum) && (maximum <? cap - 11) then maximum else cap - 11).
  assert (H1 : 0 <= d1 <= cap - 11 /\ (11 < cap -> 0 < d1)).
  { subst d1. destruct (Z.ltb_spec 0 maximum), (Z.ltb_spec maximum (cap - 11)); cbn [andb]; lia. }
  clearbody d1. set (d2 := if 255 <? d1 then 255 else d1).
  assert (H2 : 0 <= d2 <= 255 /\ d2 <= d1 /\ (0 < d1 -> 0 < d2)) by (subst d2; destruct (Z.ltb_spec 255 d1); lia).
  clearbody d2. destruct (Z.ltb_spec (size - offset) d2); lia.
Qed.

(** The bytes of a DOWNLOAD response: the slice at the offset. *)
Lemma write_download_exact b doc opcode offset maximum :
  buffer_holds b doc -> 11 <= cap -> 0 <= offset <= zlen doc -> zlen doc <= UINT32_MAX -> 0 <= maximum ->
  exists rest,
    let n := download_chunk_size cap maximum (zlen doc) offset in
    let bytes := take (Z.to_nat n) (drop (Z.to_nat offset) doc) in
    write_download b opcode offset maximum buf cap =
      Some (header opcode 0 ++ le32 offset ++ le32 (zlen doc) ++ [n] ++ bytes ++ rest, 11 + n) /\
    length (header opcode 0 ++ le32 offset ++ le32 (zlen doc) ++ [n] ++ bytes ++ rest) = length buf /\ zlen bytes = n.
Proof.
  intros (Hdoc & Hsize & Hdata) Hcap Hoff Hlim Hmax. unfold write_download. rewrite Hsize.
  destruct (Z.ltb_spec UINT32_MAX (zlen doc)); [lia|]. destruct (Z.ltb_spec (zlen doc) offset); [lia|].
  destruct (chunk_size_range maximum (zlen doc) offset Hcap Hoff Hmax) as (Hn & Hn1 & Hn2 & _).
  remember (download_chunk_size cap maximum (zlen doc) offset) as n eqn:En. cbv zeta. clear En.
  unfold UINT32_MAX in *. rewrite (u32_small (zlen doc)), (u8_small n), (s32_small (_ + n)) by (unfold retro_vault_download_header_size; lia).
  assert (Hbytes : zlen (take (Z.to_nat n) (drop (Z.to_nat offset) doc)) = n).
  { rewrite zlen_take, zlen_drop. lia. }
  remember (take (Z.to_nat n) (drop (Z.to_nat offset) doc)) as bytes eqn:Eb.
  pose proof (front_nil buf) as F. assert (L : zlen buf = zlen buf) by done. clear Hlim.
  remember (zlen buf) as len eqn:Elen in cap_ok, L at 2. do 2 write_next F L.
  destruct (write_u32_step _ array0 2 offset F) as (a1 & -> & F1 & L1); [done|lia|].
  destruct (write_u32_step _ a1 6 (zlen doc) F1) as (a2 & -> & F2 & L2); [done|lia|].
  destruct (wr_step _ a2 10 n F2) as (a3 & -> & F3 & L3); [done|lia|]. apply front_zlen in L3.
  assert (Hlast : exists a4, (if 0 <? n then
      match b_data b with
      | Some (_, cells) => let? bytes := rd_bytes cells offset n in wr_bytes a3 retro_vault_download_header_size bytes
      | None => None
      end else Some a3) = Some a4 /\ front (((((([] ++ [u8 (Z.lor opcode RETRO_VAULT_RESPONSE_BIT)]) ++ [RETRO_VAULT_STATUS_OK]) ++ le32 offset)
        ++ le32 (zlen doc)) ++ [n]) ++ bytes) a4 /\ zlen a4 = len).
  { destruct (Z.ltb_spec 0 n).
    - destruct (b_data b) as [[blk cells]|]; [|subst doc; rewrite zlen_nil in *; lia]. destruct Hdata as [rest ->].
      assert (Hrd : rd_bytes (doc ++ rest) offset n = Some bytes).
      { pose proof (rd_bytes_mid (take (Z.to_nat offset) doc) bytes (drop (Z.to_nat n) (drop (Z.to_nat offset) doc) ++ rest)) as Hmid.
        rewrite zlen_take, Hbytes in Hmid. rewrite Z2Nat.id, Z.min_l in Hmid by lia.
        rewrite <- Hmid by (subst bytes; unfold bytes_ok; by apply Forall_take, Forall_drop). f_equal.
        rewrite <- (take_drop (Z.to_nat offset) doc) at 1. rewrite <- app_assoc. f_equal.
        rewrite <- (take_drop (Z.to_nat n) (drop (Z.to_nat offset) doc)) at 1. rewrite <- app_assoc. by rewrite <- Eb. }
      rewrite Hrd. unfold retro_vault_download_header_size.
      destruct (wr_bytes_step _ a3 11 bytes F3) as (a4 & -> & F4 & L4); [done|lia|]. apply front_zlen in L4.
      exists a4. split_and!; [done|done|lia].
    - assert (bytes = []) as -> by (apply zlen_nil_inv; lia). exists a3. rewrite app_nil_r. split_and!; [done|done|lia]. }
  destruct Hlast as (a4 & -> & [rest ->] & L4). exists rest. rewrite <- !app_assoc in *. cbn [app] in *.
  split; [done|]. split; [|done]. subst len. unfold zlen in L4. cbn. cbn in L4. lia.
Qed.

Lemma download_page_framed b opcode offset maximum : data_ok b retro_vault_download_limit -> 11 <= cap -> 0 <= offset ->
  0 <= maximum -> framed opcode cap buf (write_download b opcode offset maximum buf cap).
Proof.
  intros (doc & Hdoc & Hlim) Hcap Hoff Hmax. unfold retro_vault_download_limit in Hlim.
  destruct (Z.ltb_spec (zlen doc) offset).
  - unfold write_download. destruct Hdoc as (_ & -> & _). destruct (UINT32_MAX <? zlen doc); [by apply framed_error|].
    destruct (Z.ltb_spec (zlen doc) offset); [by apply framed_error|lia].
  - destruct (write_download_exact b doc opcode offset maximum) as (rest & E & Hl & _); [done|done|lia|unfold UINT32_MAX; lia|done|].
    cbv zeta in *. destruct (chunk_size_range maximum (zlen doc) offset Hcap ltac:(lia) Hmax) as (Hn & Hn1 & _).
    eexists _, _. split; [exact E|]. apply (reply_success opcode cap buf (le32 offset ++ _)); [done|lia].
Qed.

Lemma download_served opcode c w : context_ok c -> balanced X c w ->
  wp (handle_download time_now c opcode request request_size buf cap) (served opcode) w.
Proof.
  intros Hc Hb. unfold handle_download, retro_vault_download_header_size.
  destruct (Z.ltb_spec request_size 8), (Z.ltb_spec cap 11); cbn [orb]; try by apply answer_error.
  assert (Hread : exists r, read_download_request request request_size = Some r /\
    forall o m a b, r = Some (o, m, a, b) -> 0 <= o /\ 0 <= m).
  { unfold read_download_request. destruct (read_u32_ok request 1) as (off & -> & Hoff); [done|lia|lia|].
    destruct (rd_ok request 5) as (mx & -> & Hmx); [done|lia|]. destruct (rd_ok request 6) as (ps & -> & Hps); [done|lia|].
    destruct (Z.eqb_spec ps 0); cbn [orb]; [by eexists|]. destruct (Z.ltb_spec (request_size - 7) ps); [by eexists|].
    rewrite rd_bytes_ok by (done || lia). destruct (Z.leb_spec request_size (7 + ps)); [by eexists|].
    destruct (rd_ok request (7 + ps)) as (ds & -> & Hds); [done|lia|]. destruct (Z.eqb_spec ds 0); cbn [orb]; [by eexists|].
    destruct (Z.eqb_spec ds (request_size - (7 + ps + 1))); cbn [negb]; [|by eexists].
    rewrite rd_bytes_ok by (done || lia). eexists. split; [done|]. intros o m a b [= <- <- _ _]. lia. }
  destruct Hread as (r & Er & Hr). apply wp_bind. eapply wp_lift; [exact Er|].
  destruct r as [[[[offset maximum] package_id] download_id]|]; [|by apply answer_error].
  destruct (Hr _ _ _ _ eq_refl) as [Ho Hm].
  apply wp_bind. eapply ensure_download_spec; [done|done|]. intros status c' w' Hb' Hc'. cbv beta iota.
  destruct (negb _); [by apply answer_error|]. apply answer_framed; [|done|done].
  apply download_page_framed; [by destruct Hc' as (_ & ? & _)|done|done|done].
Qed.

Lemma request_served c w : context_ok c -> balanced X c w ->
  exists opcode, request !! O = Some opcode /\
  wp (handle_retro_vault_request time_now c request request_size buf cap) (served opcode) w.
Proof.
  intros Hc Hb. destruct (lookup_lt_is_Some_2 request 0) as [opcode Hop]; [unfold zlen in size_ok; lia|].
  exists opcode. split; [done|]. unfold handle_retro_vault_request.
  destruct (Z.eqb_spec request_size 0), (Z.ltb_spec cap 2); try lia. cbn [orb].
  assert (Hrd : rd request 0 = Some opcode).
  { apply rd_Some; [lia|done|]. by apply (bytes_ok_lookup request 0). }
  apply wp_bind. eapply wp_lift; [exact Hrd|].
  destruct (opcode =? RETRO_VAULT_OP_CAPABILITIES).
  { destruct (negb _); [by apply answer_error|]. apply answer_framed; [|done|done]. unfold handle_capabilities.
    destruct (Z.ltb_spec cap 7); [apply framed_none|].
    destruct buf as [|x0 [|x1 [|x2 [|x3 [|x4 [|x5 [|x6 rest]]]]]]] eqn:Ebuf; try (unfold zlen in cap_ok; cbn in cap_ok; lia).
    eexists _, _. split; [done|].
    eapply (reply_success opcode cap (x0 :: x1 :: x2 :: x3 :: x4 :: x5 :: x6 :: rest)
      (1 :: 15 :: 5 :: 11 :: _ :: rest)); [done|lia]. }
  destruct (_ || _); [by apply list_served|]. destruct (opcode =? RETRO_VAULT_OP_INFO); [by apply info_served|].
  destruct (opcode =? RETRO_VAULT_OP_DOWNLOAD); [by apply download_served|by apply answer_error].
Qed.

(** C11. Every request is served safely.  Whatever the request, the HTTP client
    and the allocator do, the handler returns without undefined behaviour; its
    result is -1 or a response in the protocol's format inside the buffer; the
    context is well formed again; the blocks that are live are those the
    context owns and those it does not know of, so that nothing is leaked and
    nothing released twice; and only safe paths are asked of the client. *)
Theorem vault_request_safe c w :
  context_ok c -> balanced X c w ->
  exists opcode buf' n c' w', request !! O = Some opcode /\
    handle_retro_vault_request time_now c request request_size buf cap w = Some ((buf', n, c'), w') /\
    reply_ok opcode cap buf buf' n /\ context_ok c' /\ balanced X c' w'.
Proof.
  intros Hc Hb. destruct (request_served c w Hc Hb) as (opcode & Hop & Hwp).
  apply wp_inv in Hwp as ([[buf' n] c'] & w' & E & Hr & Hc' & Hb'). by exists opcode, buf', n, c', w'.
Qed.
End request.
End context.
