(* ===== verification/VaultPaging.v ===== *)
(** Following the cursor: the client's loop over LIST or SEARCH pages gives
    every matching package once and ends; the loop over DOWNLOAD responses
    gives the file. *)
From stdpp Require Import base numbers list option gmultiset strings.
From Stdlib Require Import ZArith Lia.
From S2P Require Import Prelude Wire CLib Heap Json JsonGrammar JsonRead Vault VaultCatalog VaultServe VaultPages VaultProps.

Local Open Scope Z_scope.
Local Open Scope squid_scope.

(** ** The client's side *)

(** The entries of a page: [count] times an identifier and a name. *)
Fixpoint decode_entries (count : nat) (s : list Z) : option (list (list Z * list Z)) :=
  match count with
  | O => Some []
  | S count =>
      match s with
      | a :: s =>
          match drop (Z.to_nat a) s with
          | b :: s' =>
              let? more := decode_entries count (drop (Z.to_nat b) s') in
              Some ((take (Z.to_nat a) s, take (Z.to_nat b) s') :: more)
          | [] => None
          end
      | [] => None
      end
  end.

(** The next cursor and the entries of a response with status OK. *)
Definition decode_page (response : list Z) : option (Z * list (list Z * list Z)) :=
  match response with
  | _ :: status :: a :: b :: count :: s =>
      if negb (status =? RETRO_VAULT_STATUS_OK) then None
      else let? l := decode_entries (Z.to_nat count) s in Some (of_le16 a b, l)
  | _ => None
  end.

Lemma decode_entries_spec l : forall rest,
  Forall (fun e => zlen e.1 < 256 /\ zlen e.2 < 256) l ->
  decode_entries (length l) (concat (map (fun e => entry_bytes e.1 e.2) l) ++ rest) = Some l.
Proof.
  induction l as [|[id name] l IH]; intros rest Hl; [done|]. inversion Hl as [|? ? _ Hl']; subst.
  cbn [map concat length fst snd]. unfold entry_bytes. rewrite <- app_assoc. cbn [app decode_entries].
  rewrite <- !app_assoc. cbn [app]. unfold zlen. rewrite Nat2Z.id, drop_app_length, take_app_length.
  rewrite Nat2Z.id, drop_app_length, take_app_length, IH by done. done.
Qed.

(** ** What a page shows *)

Lemma cut_stable s n m : (cut s n <= m <= n)%nat -> cut s m = cut s n.
Proof.
  induction n as [|n IH]; intros H; [by replace m with 0%nat by lia|].
  destruct (decide (m = S n)) as [->|Hne]; [done|]. cbn [cut] in H |- *.
  destruct (s !! S n) as [c|]; [|lia]. destruct (cont c); [|lia]. apply IH. lia.
Qed.

Section list.
Context {N : Type}.
Variables (c : retro_vault_context N) (opcode cap : Z) (platform model query buf : list Z).
Hypothesis c_ok : context_ok c.
Hypothesis cap_ok : 5 <= cap <= 255.
Hypothesis buf_ok : cap <= zlen buf.

(** What is shown of a package: its identifier and as much of its name as an
    entry has room for; one with an identifier of more than 247 bytes is left
    out. *)
Definition room : Z := Z.min 249 (cap - 5).
Definition shown_name (id name : list Z) : list Z := take (fitting name (room - zlen id - 2)) name.
Definition shown (p : retro_vault_package) : option (list Z * list Z) :=
  if 247 <? zlen (view (p_id p)) then None
  else Some (view (p_id p), shown_name (view (p_id p)) (view (p_name p))).

(** Identifiers that are not too long for an entry fit in a page. *)
Hypothesis ids_fit : Forall (fun p => zlen (view (p_id p)) <= 247 -> zlen (view (p_id p)) + 2 <= cap - 5) (contents (packages c)).

(** The room the code asks for: that of an entry of 249 bytes. *)
Definition asked (p : retro_vault_package) : Z :=
  match list_entry (view (p_id p)) (view (p_name p)) 249 with Some e => zlen e | None => 0 end.

(** An entry that fits where it is put is the one shown. *)
Lemma entry_shown id name space : space <= cap - 5 -> zlen id + 2 <= cap - 5 -> zlen id <= 247 ->
  zlen (entry_bytes id (take (fitting name (249 - zlen id - 2)) name)) <= space ->
  take (fitting name (249 - zlen id - 2)) name = shown_name id name.
Proof.
  intros Hs Hid Hid2. rewrite zlen_entry. pose proof (zlen_nonneg id). unfold shown_name, room. intros Hfit. f_equal.
  destruct (fitting_le name (249 - zlen id - 2) ltac:(lia)) as [Hf Hf'].
  rewrite zlen_take_nat in Hfit by done. unfold fitting in *.
  destruct (Z.ltb_spec (249 - zlen id - 2) (zlen name)), (Z.ltb_spec (Z.min 249 (cap - 5) - zlen id - 2) (zlen name));
    unfold zlen in *; try lia.
  symmetry. apply cut_stable. lia.
Qed.

(** The page is filled from the front: how many packages it takes. *)
Fixpoint fill (space : Z) (first : bool) (l : list retro_vault_package) : nat :=
  match l with
  | [] => O
  | p :: l =>
      match shown p with
      | None => S (fill space first l)
      | Some (id, name) =>
          if (space <? asked p) && negb first then O
          else S (fill (space - zlen (entry_bytes id name)) false l)
      end
  end.
Definition bytes_of (l : list (list Z * list Z)) : list Z := concat (map (fun e => entry_bytes e.1 e.2) l).

Lemma fill_le l : forall space first, (fill space first l <= length l)%nat.
Proof.
  induction l as [|p l IH]; intros space first; cbn [fill length]; [lia|].
  destruct (shown p) as [[id name]|]; [|specialize (IH space first); lia].
  destruct (_ && _); [lia|]. specialize (IH (space - zlen (entry_bytes id name)) false). lia.
Qed.
Lemma fill_progress p l space : (0 < fill space true (p :: l))%nat.
Proof. cbn [fill]. destruct (shown p) as [[id name]|]; [rewrite andb_false_r|]; lia. Qed.

Lemma make_entry_shown p array space first : package_ok p -> zlen array = 249 ->
  (zlen (view (p_id p)) <= 247 -> zlen (view (p_id p)) + 2 <= cap - 5) ->
  0 <= space <= cap - 5 -> (first = true -> space = cap - 5) ->
  match shown p with
  | None => exists array', make_list_entry p array 249 = Some (array', 0)
  | Some (id, name) =>
      bytes_ok (entry_bytes id name) /\ zlen id < 256 /\ zlen name < 256 /\
      exists array', make_list_entry p array 249 = Some (array', asked p) /\ zlen array' = 249 /\ 0 < asked p /\
      (asked p <= space -> asked p = zlen (entry_bytes id name) /\ front (entry_bytes id name) array') /\
      (space < asked p -> first = true -> zlen (entry_bytes id name) <= space /\ 0 < zlen (entry_bytes id name) /\
         exists array'', make_list_entry p array' space = Some (array'', zlen (entry_bytes id name)) /\
           front (entry_bytes id name) array'')
  end.
Proof.
  intros ((id & Hid & _) & (name & Hname & _) & _) Ha Hfit Hspace Hfirst. unfold shown, asked.
  rewrite (view_text _ _ Hid), (view_text _ _ Hname) in *. pose proof (zlen_nonneg id).
  pose proof (make_list_entry_spec p id name array 249 Hid Hname ltac:(lia) ltac:(lia)) as (a1 & size & E1 & Hl1 & H1).
  assert (Hz1 : zlen a1 = 249) by (unfold zlen in *; lia). rewrite E1.
  assert (E249 : list_entry id name 249 = if 247 <? zlen id then None
    else Some (entry_bytes id (take (fitting name (249 - zlen id - 2)) name))).
  { unfold list_entry. destruct (Z.ltb_spec 247 (zlen id)), (Z.ltb_spec 249 (zlen id + 2)); lia || done. }
  rewrite E249 in *. destruct (Z.ltb_spec 247 (zlen id)); [subst size; by eexists|].
  specialize (Hfit ltac:(lia)).
  assert (Hok : bytes_ok (entry_bytes id (shown_name id name)) /\ zlen (entry_bytes id (shown_name id name)) <= room).
  { apply (list_entry_ok id name room); [apply Hid|apply Hname|unfold room; lia|]. unfold list_entry, shown_name.
    destruct (Z.ltb_spec room (zlen id + 2)); [unfold room in *; lia|done]. }
  destruct Hok as [Hok Hroom]. rewrite zlen_entry in Hroom. pose proof (zlen_nonneg (shown_name id name)).
  destruct H1 as (-> & Hpos & rest & ->). split; [done|]. split; [lia|]. split; [unfold room in *; lia|].
  eexists. split; [done|]. split; [done|]. split; [done|]. split.
  - intros Hle. rewrite (entry_shown id name space) by (done || lia). split; [done|by eexists].
  - intros Hgt Hf. specialize (Hfirst Hf). subst space.
    assert (Hroom' : room = cap - 5 /\ cap - 5 <= 249).
    { unfold room. destruct (fitting_le name (249 - zlen id - 2) ltac:(lia)) as [Hf1 Hf2].
      rewrite zlen_entry, zlen_take_nat in Hgt by done. lia. }
    destruct Hroom' as [Hroom' Hle]. rewrite zlen_entry. split; [lia|]. split; [lia|].
    pose proof (make_list_entry_spec p id name _ (cap - 5) Hid Hname ltac:(lia) ltac:(rewrite Hz1; lia))
      as (a2 & size2 & E2 & _ & Hs2). unfold list_entry in Hs2.
    destruct (Z.ltb_spec (cap - 5) (zlen id + 2)); [lia|].
    assert (Esh : shown_name id name = take (fitting name (cap - 5 - zlen id - 2)) name).
    { unfold shown_name. by rewrite Hroom'. }
    rewrite <- Esh in Hs2.
    destruct Hs2 as (-> & _ & rest2 & ->). rewrite E2, zlen_entry. eexists. split; [done|by eexists].
Qed.

Definition selected (l : list retro_vault_package) : list retro_vault_package :=
  List.filter (matching platform model query) l.
Definition next_of (at_ : Z) (k total : nat) : Z :=
  if (k =? total)%nat then RETRO_VAULT_CURSOR_END else at_ + Z.of_nat k.

(** A page that holds [count] entries in [d] is finished with [items] behind
    them. *)
Definition finishes (r : option (list Z * Z)) (count : Z) (d : list Z) (next : Z) (items : list (list Z * list Z)) : Prop :=
  exists response',
    r = finish_page opcode response' next (count + zlen items) (zlen d + zlen (bytes_of items)) /\
    front (d ++ bytes_of items) response' /\ length response' = length buf /\
    zlen d + zlen (bytes_of items) <= cap /\ Forall (fun e => zlen e.1 < 256 /\ zlen e.2 < 256) items.

(** The loop, from a response that is filled up to [d]: the packages it takes,
    and where the next page starts. *)
Definition loop_result (l : list retro_vault_package) (cursor i count : Z) (d response : list Z) : Prop :=
  let rest := drop (Z.to_nat (cursor - i)) (selected l) in
  let k := fill (cap - zlen d) (count =? 0) rest in
  finishes (catalog_loop opcode cursor platform model query cap l i count (zlen d) response) count d
    (next_of (Z.max i cursor) k (length rest)) (omap shown (take k rest)).

Lemma finishes_here response count d next : front d response -> length response = length buf -> zlen d <= cap ->
  finishes (finish_page opcode response next count (zlen d)) count d next [].
Proof.
  intros Hf Hl Hd. exists response. unfold bytes_of. cbn [map concat]. rewrite app_nil_r, !zlen_nil, !Z.add_0_r.
  split_and!; [done|done|done|done|constructor].
Qed.

(** An entry is copied behind [d], and the loop goes on. *)
Lemma entry_written l cursor i count d response array id name next items :
  bytes_ok (entry_bytes id name) -> zlen id < 256 -> zlen name < 256 -> front d response -> length response = length buf ->
  front (entry_bytes id name) array -> zlen d + zlen (entry_bytes id name) <= cap -> 5 + 2 * count <= zlen d -> 0 <= count ->
  (forall response', front (d ++ entry_bytes id name) response' -> length response' = length buf ->
     finishes (catalog_loop opcode cursor platform model query cap l (i + 1) (count + 1) (zlen (d ++ entry_bytes id name)) response')
       (count + 1) (d ++ entry_bytes id name) next items) ->
  finishes (let? response := copy_record response (zlen d) array (zlen (entry_bytes id name)) in
            catalog_loop opcode cursor platform model query cap l (i + 1) (u8 (count + 1)) (zlen d + zlen (entry_bytes id name)) response)
    count d next ((id, name) :: items).
Proof.
  intros Hb Hid Hname Hf Hl [rest ->] Hroom Hd Hcnt Hgo. assert (Hrz : zlen response = zlen buf) by (unfold zlen; lia).
  pose proof (zlen_nonneg d). destruct (copy_record_spec response (zlen d) (entry_bytes id name) rest Hb) as (r1 & -> & Hl1 & Hf1); [lia|lia|].
  pose proof (zlen_nonneg (entry_bytes id name)). rewrite u8_small by lia.
  destruct (Hgo r1 (Hf1 d Hf eq_refl) ltac:(lia)) as (r2 & E & HF & HL & HC & HI). rewrite zlen_app in *. exists r2.
  assert (Hbo : bytes_of ((id, name) :: items) = entry_bytes id name ++ bytes_of items) by done.
  rewrite Hbo, zlen_app, zlen_cons, app_assoc, E. split_and!; [f_equal; lia|done|done|lia|by constructor].
Qed.

(** The packages from [i] on, behind the cursor. *)
Lemma loop_next l cursor i count d response : cursor <= i -> loop_result l cursor (i + 1) count d response ->
  let k := fill (cap - zlen d) (count =? 0) (selected l) in
  finishes (catalog_loop opcode cursor platform model query cap l (i + 1) count (zlen d) response) count d
    (next_of i (S k) (S (length (selected l)))) (omap shown (take k (selected l))).
Proof.
  intros Hi Hr. unfold loop_result in Hr. replace (Z.to_nat (cursor - (i + 1))) with 0%nat in Hr by lia.
  rewrite drop_0 in Hr. cbv zeta in *. set (k := fill _ _ _) in *.
  replace (next_of i (S k) (S (length (selected l)))) with (next_of (Z.max (i + 1) cursor) k (length (selected l))); [done|].
  unfold next_of. cbn [Nat.eqb]. destruct (Nat.eqb k (length (selected l))); lia.
Qed.

Lemma catalog_loop_exact l cursor : 0 <= cursor ->
  Forall (fun p => package_ok p /\ (zlen (view (p_id p)) <= 247 -> zlen (view (p_id p)) + 2 <= cap - 5)) l ->
  forall i count d response,
  0 <= i -> i + zlen (selected l) <= 65535 -> front d response -> length response = length buf ->
  5 + 2 * count <= zlen d <= cap -> 0 <= count -> (count = 0 -> zlen d = 5) ->
  loop_result l cursor i count d response.
Proof.
  intros Hcur. induction 1 as [|p l [Hp Hid] Hl IH]; intros i count d response Hi Hmax Hf Hlen Hd Hcnt Hfirst;
    unfold loop_result; cbv zeta.
  { unfold selected. cbn [List.filter]. rewrite drop_nil. apply finishes_here; [done|done|lia]. }
  cbn [catalog_loop]. rewrite (matches_exact p platform model query Hp).
  assert (Hsel : selected (p :: l) = if matching platform model query p then p :: selected l else selected l) by done.
  rewrite Hsel in *. destruct (matching platform model query p); cbn [negb]; [|by apply IH]. clear Hsel. rewrite zlen_cons in Hmax.
  pose proof (zlen_nonneg (selected l)).
  assert (Hu : u16 (i + 1) = i + 1) by (apply u16_small; lia). rewrite !Hu.
  destruct (Z.ltb_spec i cursor).
  { replace (Z.to_nat (cursor - i)) with (S (Z.to_nat (cursor - (i + 1)))) by lia. cbn [drop].
    replace (Z.max i cursor) with (Z.max (i + 1) cursor) by lia. apply IH; try done; lia. }
  replace (Z.to_nat (cursor - i)) with 0%nat by lia. cbn [drop fill length].
  replace (Z.max i cursor) with i by lia. set (space := cap - zlen d) in *.
  pose proof (make_entry_shown p (uninit 249) space (count =? 0) Hp eq_refl Hid ltac:(unfold space; lia)
    ltac:(intros Hc; apply Z.eqb_eq in Hc; unfold space; rewrite (Hfirst Hc); lia)) as Hmake.
  destruct (shown p) as [[id name]|] eqn:Eshown.
  2: { destruct Hmake as [array' ->]. cbn [Z.eqb take omap list_omap]. rewrite Eshown.
       apply loop_next; [lia|]. apply IH; try done; lia. }
  destruct Hmake as (Hbytes & Hid256 & Hname256 & array' & Emake & Hz & Hpos & Hfits & Hcut). rewrite Emake.
  destruct (Z.eqb_spec (asked p) 0); [lia|]. pose proof (zlen_entry id name). pose proof (zlen_nonneg id). pose proof (zlen_nonneg name).
  assert (Hgo : forall array'', front (entry_bytes id name) array'' -> zlen (entry_bytes id name) <= space ->
    let k := fill (space - zlen (entry_bytes id name)) false (selected l) in
    finishes (let? response := copy_record response (zlen d) array'' (zlen (entry_bytes id name)) in
              catalog_loop opcode cursor platform model query cap l (i + 1) (u8 (count + 1)) (zlen d + zlen (entry_bytes id name)) response)
      count d (next_of i (S k) (S (length (selected l)))) ((id, name) :: omap shown (take k (selected l)))).
  { intros array'' Hfr Hsp k. apply entry_written; try done; [unfold space in *; lia|lia|]. intros r' Hf' Hl'.
    assert (Hk : k = fill (cap - zlen (d ++ entry_bytes id name)) (count + 1 =? 0) (selected l)).
    { unfold k, space. rewrite zlen_app, Z.sub_add_distr. by replace (count + 1 =? 0) with false by lia. }
    rewrite Hk. apply loop_next; [lia|]. apply IH; try done; rewrite ?zlen_app; unfold space in *; lia. }
  destruct (Z.ltb_spec space (asked p)) as [Hlt|Hge].
  - destruct (Z.eqb_spec count 0) as [Hc0|Hc0].
    + destruct (Hcut Hlt eq_refl) as (Hsp & Hpos2 & array'' & E2 & Hfr). rewrite E2.
      destruct (Z.eqb_spec (zlen (entry_bytes id name)) 0); [lia|]. rewrite andb_false_r. cbn [take omap list_omap]. rewrite Eshown.
      by apply Hgo.
    + cbn [andb negb take omap list_omap]. unfold next_of. cbn [Nat.eqb]. rewrite Z.add_0_r. apply finishes_here; [done|done|lia].
  - cbn [andb]. destruct (Hfits Hge) as [Easked Hfr]. rewrite Easked in *. cbn [take omap list_omap]. rewrite Eshown.
    apply Hgo; [done|lia].
Qed.

(** One request per page, from [cursor] until the end mark. *)
Fixpoint list_all (fuel : nat) (cursor : Z) : option (list (list Z * list Z)) :=
  match fuel with
  | O => None
  | S fuel =>
      let? '(response, n) := write_catalog_page c opcode cursor platform model query buf cap in
      let? '(next, l) := decode_page (take (Z.to_nat n) response) in
      if next =? RETRO_VAULT_CURSOR_END then Some l
      else let? more := list_all fuel next in Some (l ++ more)
  end.

Abbreviation all := (selected (contents (packages c))).

Lemma selected_few : zlen all <= 65535.
Proof.
  destruct c_ok as ((Ha & _ & Hn) & _). unfold array_ok in Ha. rewrite <- Ha in Hn.
  assert (Hle : zlen all <= zlen (contents (packages c))); [|lia]. unfold selected, zlen.
  apply Nat2Z.inj_le, List.filter_length_le.
Qed.

Lemma next_range cursor : (cursor <= length all)%nat ->
  0 <= next_of (Z.of_nat cursor) (fill (cap - 5) true (drop cursor all)) (length (drop cursor all)) < 65536.
Proof.
  intros Hcur. pose proof selected_few as Hfew. pose proof (fill_le (drop cursor all) (cap - 5) true) as Hk.
  unfold next_of, RETRO_VAULT_CURSOR_END. destruct (Nat.eqb _ _); [lia|]. rewrite length_drop in Hk. unfold zlen in Hfew. lia.
Qed.

(** The bytes of a page. *)
Lemma page_exact cursor : (cursor <= length all)%nat ->
  let rest := drop cursor all in
  let k := fill (cap - 5) true rest in
  let items := omap shown (take k rest) in
  exists response, write_catalog_page c opcode (Z.of_nat cursor) platform model query buf cap =
      Some (response, 5 + zlen (bytes_of items)) /\ length response = length buf /\
    take (Z.to_nat (5 + zlen (bytes_of items))) response =
      header opcode 0 ++ le16 (next_of (Z.of_nat cursor) k (length rest)) ++ zlen items :: bytes_of items /\
    5 + zlen (bytes_of items) <= cap /\ Forall (fun e => zlen e.1 < 256 /\ zlen e.2 < 256) items /\ zlen items < 256.
Proof.
  intros Hcur rest k items. unfold write_catalog_page, retro_vault_page_header_size.
  destruct (Z.ltb_spec cap 5); [lia|]. destruct (packages_elements c c_ok) as [-> Hp].
  pose proof selected_few as Hfew. assert (Hd : zlen (take 5 buf) = 5) by (rewrite zlen_take; lia).
  destruct (catalog_loop_exact (contents (packages c)) (Z.of_nat cursor) ltac:(lia)
    ltac:(apply Forall_and; done) 0 0 (take 5 buf) buf) as (r' & E & HF & HL & HC & HI); try done; try lia.
  { exists (drop 5 buf). by rewrite take_drop. }
  cbv zeta in *. rewrite Hd in *. rewrite Z.sub_0_r, Nat2Z.id, Z.max_r in * by lia. cbn [Z.eqb] in *.
  fold rest in E, HF, HC, HI. fold k in E, HF, HC, HI. rewrite E. clear E. fold items in HF, HC, HI |- *.
  pose proof (next_range cursor Hcur) as Hnext. fold rest in Hnext. fold k in Hnext. clearbody items.
  pose proof (zlen_nonneg (bytes_of items)). assert (Hz : zlen r' = zlen buf) by (unfold zlen; lia).
  assert (Hcnt : 2 * zlen items <= zlen (bytes_of items)).
  { clear. induction items as [|[id name] items IH]; [done|]. unfold bytes_of in *. cbn [map concat fst snd].
    rewrite zlen_app, zlen_entry, zlen_cons. pose proof (zlen_nonneg id). pose proof (zlen_nonneg name). lia. }
  destruct (vault_finish_page_spec opcode r' (next_of (Z.of_nat cursor) k (length rest)) (0 + zlen items)
    (5 + zlen (bytes_of items)) cap) as (r2 & E & Hr2); [lia|lia|lia|].
  eexists. split; [exact E|]. destruct HF as [tail ->].
  assert (Hdrop : drop 5 ((take 5 buf ++ bytes_of items) ++ tail) = bytes_of items ++ tail).
  { rewrite <- app_assoc. apply drop_app_length'. unfold zlen in Hd. lia. }
  rewrite Hdrop in *. rewrite Z.add_0_l in *. split_and!; [| |done|done|lia].
  - rewrite !length_app. unfold le16. cbn [length header]. rewrite <- HL, !length_app, length_take. unfold zlen in *. lia.
  - unfold le16, header. cbn [app]. replace (Z.to_nat (5 + zlen (bytes_of items))) with (5 + length (bytes_of items))%nat by (unfold zlen; lia).
    cbn [Nat.add take]. by rewrite take_app_length.
Qed.

Lemma items_bytes l : Forall (fun p => p ∈ contents (packages c)) l -> bytes_ok (bytes_of (omap shown l)).
Proof.
  destruct (packages_elements c c_ok) as [_ Hp]. induction 1 as [|p l Hin _ IH]; [constructor|].
  pose proof (make_entry_shown p (uninit 249) (cap - 5) true (Forall_elem _ _ _ Hp Hin) eq_refl
    (Forall_elem _ _ _ ids_fit Hin) ltac:(lia) ltac:(done)) as Hm.
  cbn [omap list_omap]. destruct (shown p) as [[id name]|]; [|done]. apply Forall_app. split; [apply Hm|done].
Qed.

Lemma page_decoded cursor : (cursor <= length all)%nat ->
  let rest := drop cursor all in
  let k := fill (cap - 5) true rest in
  exists response n, write_catalog_page c opcode (Z.of_nat cursor) platform model query buf cap = Some (response, n) /\
    decode_page (take (Z.to_nat n) response) =
      Some (next_of (Z.of_nat cursor) k (length rest), omap shown (take k rest)).
Proof.
  intros Hcur rest k. destruct (page_exact cursor Hcur) as (response & E & _ & Hbytes & _ & HI & _).
  eexists _, _. split; [exact E|]. rewrite Hbytes. fold rest k. fold rest k in HI. remember (omap shown (take k rest)) as items eqn:Eitems.
  unfold header, le16. cbn [app decode_page]. change (negb (0 =? RETRO_VAULT_STATUS_OK)) with false. cbv iota.
  replace (Z.to_nat (zlen items)) with (length items) by (unfold zlen; lia).
  rewrite <- (app_nil_r (bytes_of items)). unfold bytes_of. rewrite decode_entries_spec by done.
  do 2 f_equal. apply (of_le16_le16 _ (next_range cursor Hcur)).
Qed.

Lemma list_all_from fuel : forall cursor, (cursor <= length all)%nat -> (length all - cursor < fuel)%nat ->
  list_all fuel (Z.of_nat cursor) = Some (omap shown (drop cursor all)).
Proof.
  induction fuel as [|fuel IH]; intros cursor Hcur Hf; [lia|]. cbn [list_all].
  destruct (page_decoded cursor Hcur) as (response & n & -> & ->).
  remember (drop cursor all) as rest eqn:Erest. pose proof (fill_le rest (cap - 5) true) as Hk.
  pose proof selected_few as Hfew. unfold zlen in Hfew. unfold next_of.
  destruct (Nat.eqb_spec (fill (cap - 5) true rest) (length rest)) as [Heq|Hne].
  { rewrite Heq, firstn_all. done. }
  assert (Hlen : length rest = (length all - cursor)%nat) by (subst; apply length_drop).
  destruct (Z.eqb_spec (Z.of_nat cursor + Z.of_nat (fill (cap - 5) true rest)) RETRO_VAULT_CURSOR_END);
    [unfold RETRO_VAULT_CURSOR_END in *; lia|].
  assert (Hpos : (0 < fill (cap - 5) true rest)%nat).
  { destruct rest as [|p rest]; [done|]. apply fill_progress. }
  rewrite <- Nat2Z.inj_add, IH by lia. f_equal. rewrite <- drop_drop, <- Erest, <- omap_app.
  by rewrite take_drop.
Qed.

(** C23. Paging through LIST or SEARCH ends and misses nothing: asking for page
    after page from cursor 0 until the end mark, with a response size of 5 to
    255 bytes in which the identifiers fit, a client gets each package that
    matches exactly once and in catalog order (one with an identifier of more
    than 247 bytes is left out), with its identifier and its name, cut between
    characters where an entry has no room for all of it.  A package matches when
    platform and model, unless empty, are its own up to case and the documented
    second names of two platforms, and the query, unless empty, occurs in its
    identifier, name, vendor or description up to case ([matching]). *)
Theorem vault_list_complete :
  list_all (S (length (selected (contents (packages c))))) 0 = Some (omap shown (selected (contents (packages c)))).
Proof. change 0 with (Z.of_nat 0). rewrite list_all_from by lia. by rewrite drop_0. Qed.
End list.

(** ** Downloads *)

Section download.
Variables (b : retro_vault_buffer) (doc : list Z) (opcode cap maximum : Z) (buf : list Z).
Hypothesis b_ok : buffer_holds b doc.
Hypothesis doc_fits : zlen doc <= retro_vault_download_limit.
Hypothesis cap_ok : 12 <= cap <= zlen buf.
Hypothesis maximum_ok : 0 <= maximum <= 255.

(** The client's loop: one response after the other, until the total that each
    of them carries is reached. *)
Fixpoint download_all (fuel : nat) (offset : Z) : option (list Z) :=
  match fuel with
  | O => None
  | S fuel =>
      let? '(response, n) := write_download b opcode offset maximum buf cap in
      let? status := rd response 1 in
      let? total := read_u32 response 6 in
      let? size := rd response 10 in
      let bytes := take (Z.to_nat size) (drop 11 response) in
      if negb (status =? RETRO_VAULT_STATUS_OK) then None
      else if offset + size =? total then Some bytes
      else let? more := download_all fuel (offset + size) in Some (bytes ++ more)
  end.

Lemma read_total opcode' offset total n rest : 0 <= total < 2 ^ 32 ->
  read_u32 (header opcode' 0 ++ le32 offset ++ le32 total ++ n :: rest) 6 = Some total.
Proof.
  intros Ht. unfold read_u32.
  assert (Hrd : forall i v, (header opcode' 0 ++ le32 offset ++ le32 total ++ n :: rest) !! Z.to_nat i = Some (u8 v) -> 0 <= i ->
    rd (header opcode' 0 ++ le32 offset ++ le32 total ++ n :: rest) i = Some (u8 v)).
  { intros i v H Hi. apply rd_Some; [done|done|apply u8_range]. }
  rewrite (Hrd 6 (Z.land total 255)), (Hrd (6 + 1) (Z.shiftr total 8)), (Hrd (6 + 2) (Z.shiftr total 16)),
    (Hrd (6 + 3) (Z.shiftr total 24)) by (done || lia).
  rewrite read_u32_val by apply u8_range. f_equal. apply (of_le32_le32 total). lia.
Qed.

Lemma download_all_from fuel : forall offset, (offset <= length doc)%nat -> (length doc - offset < fuel)%nat ->
  download_all fuel (Z.of_nat offset) = Some (drop offset doc).
Proof.
  unfold retro_vault_download_limit in doc_fits.
  induction fuel as [|fuel IH]; intros offset Hoff Hf; [lia|]. cbn [download_all].
  destruct (write_download_exact buf cap ltac:(lia) b doc opcode (Z.of_nat offset) maximum b_ok) as (rest & E & Hl & Hb);
    [lia|unfold zlen; lia|unfold UINT32_MAX; lia|lia|]. cbv zeta in *.
  destruct (chunk_size_range cap maximum (zlen doc) (Z.of_nat offset)) as (Hn & _ & Hn2 & Hpos); [lia|unfold zlen; lia|lia|].
  remember (download_chunk_size cap maximum (zlen doc) (Z.of_nat offset)) as n eqn:En.
  rewrite Nat2Z.id in *. remember (take (Z.to_nat n) (drop offset doc)) as bytes eqn:Ebytes. rewrite E. clear E Hl.
  pose proof (read_total opcode (Z.of_nat offset) (zlen doc) n (bytes ++ rest) ltac:(pose proof (zlen_nonneg doc); lia)) as Htot.
  cbn [app] in Htot |- *. rewrite Htot. clear Htot.
  assert (Hst : rd (header opcode 0 ++ le32 (Z.of_nat offset) ++ le32 (zlen doc) ++ n :: bytes ++ rest) 1 = Some 0) by done.
  assert (Hsz : rd (header opcode 0 ++ le32 (Z.of_nat offset) ++ le32 (zlen doc) ++ n :: bytes ++ rest) 10 = Some n).
  { apply rd_Some; [lia|done|lia]. }
  rewrite Hst, Hsz. change (negb (0 =? RETRO_VAULT_STATUS_OK)) with false. cbv iota.
  assert (Hdrop : take (Z.to_nat n) (drop 11 (header opcode 0 ++ le32 (Z.of_nat offset) ++ le32 (zlen doc) ++ n :: bytes ++ rest)) = bytes).
  { cbn [header le32 app drop]. apply take_app_length'. unfold zlen in Hb. lia. }
  rewrite Hdrop. destruct (Z.eqb_spec (Z.of_nat offset + n) (zlen doc)) as [Hend|Hend].
  - f_equal. subst bytes. apply take_ge. rewrite length_drop. unfold zlen in *. lia.
  - assert (Hgt : 0 < n) by (apply Hpos; unfold zlen in *; lia).
    replace (Z.of_nat offset + n) with (Z.of_nat (offset + Z.to_nat n)) by lia.
    rewrite IH by (unfold zlen in *; lia). f_equal. rewrite <- drop_drop. subst bytes. apply take_drop.
Qed.

(** C25. The pieces of a download make up the file: with any response size from
    12 bytes on and any limit per piece, a client that asks for one piece after
    the other until the announced total is reached gets exactly the bytes the
    service holds, in finitely many requests. *)
Theorem download_reassembled : download_all (S (length doc)) 0 = Some doc.
Proof. change 0 with (Z.of_nat 0). rewrite download_all_from by lia. by rewrite drop_0. Qed.
End download.
