(* ===== verification/Curl.v ===== *)
(** The HTTP client of the retrovault service (lib/retrovault/
    retrovault_curl.c) on top of libcurl, which is a parameter: the class
    [Curl] has the calls the client makes, [CurlLaws] what libcurl documents
    of them. *)
From stdpp Require Import base numbers list option gmultiset strings.
From Stdlib Require Import ZArith Lia.
From S2P Require Import Prelude Wire CLib Heap Json Vault VaultServe VaultCatalog VaultPages VaultProps.

Local Open Scope Z_scope.
Local Open Scope squid_scope.

(** ** libcurl *)

Definition CURLE_OK : Z := 0.
Definition CURLE_WRITE_ERROR : Z := 23.
Definition CURL_MAX_WRITE_SIZE : Z := 16384.

(** The options the client sets on its handle. *)
Record curl_options := CurlOptions {
  CURLOPT_URL : list Z;
  CURLOPT_FOLLOWLOCATION : Z;
  CURLOPT_MAXREDIRS : Z;
  CURLOPT_CONNECTTIMEOUT : Z;
  CURLOPT_TIMEOUT : Z;
  CURLOPT_NOSIGNAL : Z;
  CURLOPT_USERAGENT : list Z }.

(** What happens next in a transfer: bytes of the body arrive, or it ends. *)
Inductive curl_event :=
  | Received (chunk : list Z)
  | Finished (code : Z).

(** A write callback on a buffer: data, size and number of elements; what it
    returns. *)
Definition curl_write_callback : Type :=
  option (list Z) -> Z -> Z -> retro_vault_buffer -> ST mem (Z * retro_vault_buffer).

Definition on_curl {N A} (f : N -> A * N) : ST (world N) A := fun w =>
  let '(a, n) := f (w_net w) in Some (a, World (w_mem w) n).

Class Curl (N : Type) := {
  curl_global_init : N -> Z * N;
  curl_global_cleanup : N -> N;
  (** Whether there is a handle. *)
  curl_easy_init : N -> bool * N;
  curl_easy_cleanup : N -> N;
  (** [CURLINFO_RESPONSE_CODE]. *)
  curl_response_code : N -> Z;
  curl_easy_perform : curl_write_callback -> curl_options -> retro_vault_buffer -> ST (world N) (Z * retro_vault_buffer);
  (** What arrives from the network during a transfer, and how often data can
      still arrive. *)
  curl_next : curl_options -> N -> curl_event * N;
  curl_left : N -> nat;
  (** The transfer is given up because the write callback refused data. *)
  curl_give_up : N -> N }.

(** The documented use of a write callback: it gets each piece of the body, as
    elements of one byte; when it does not return the number of bytes it got,
    the transfer ends with [CURLE_WRITE_ERROR]. *)
Fixpoint curl_protocol {N} `{Curl N} (fuel : nat) (write : curl_write_callback) (options : curl_options)
    (buffer : retro_vault_buffer) : ST (world N) (Z * retro_vault_buffer) :=
  match fuel with
  | O => lift None
  | S fuel =>
      let! event := on_curl (curl_next options) in
      match event with
      | Finished code => ret (code, buffer)
      | Received chunk =>
          let! '(taken, buffer) := on_mem (write (Some chunk) 1 (zlen chunk) buffer) in
          if taken =? zlen chunk then curl_protocol fuel write options buffer
          else
            do! on_curl (fun n => (tt, curl_give_up n));
            ret (CURLE_WRITE_ERROR, buffer)
      end
  end.

(** [curl_easy_perform] follows this; a piece has at most
    [CURL_MAX_WRITE_SIZE] bytes, and a transfer ends, by [CURLOPT_TIMEOUT] at
    the latest. *)
Class CurlLaws (N : Type) `{Curl N} : Prop := {
  curl_performs : forall write options buffer w,
    curl_easy_perform write options buffer w = curl_protocol (S (curl_left (w_net w))) write options buffer w;
  curl_chunk : forall options n chunk n', curl_next options n = (Received chunk, n') ->
    bytes_ok chunk /\ zlen chunk <= CURL_MAX_WRITE_SIZE /\ (curl_left n' < curl_left n)%nat }.

Definition SIZE_MAX : Z := 18446744073709551615.

(** ** retrovault_curl.c *)

Definition retro_vault_connect_timeout_seconds : Z := 10.
Definition retro_vault_request_timeout_seconds : Z := 60.
Definition retro_vault_base_url_max : Z := 256.

(** [base_url] up to its NUL. *)
Record retro_vault_curl_client := CurlClient {
  base_url : list Z;
  initialized : Z }.
Definition zero_curl_client : retro_vault_curl_client := CurlClient [] 0.

Definition receive_http_data (data : option (list Z)) (element_size element_count : Z)
    (buffer : retro_vault_buffer) : ST mem (Z * retro_vault_buffer) :=
  if negb (element_size =? 0) && (SIZE_MAX / element_size <? element_count) then ret (0, buffer)
  else
    let data_size := u64 (element_size * element_count) in
    let! '(buffer, result) := retro_vault_buffer_append buffer data data_size in
    ret (if result =? 0 then data_size else 0, buffer).

(** [strncmp(s, prefix, strlen(prefix)) == 0]. *)
Definition has_prefix (prefix s : list Z) : bool := eq_text (take (length prefix) s) prefix.

(** The [while] over trailing slashes. *)
Fixpoint without_slashes (url : list Z) (url_size : nat) : nat :=
  match url_size with
  | O => O
  | S n => if bool_decide (url !! n = Some ch_slash) then without_slashes url n else url_size
  end.

Section client.
Context {N : Type} `{Curl N}.

Definition init_retro_vault_curl_client (getenv : list Z -> option (list Z))
    : ST (world N) (Z * retro_vault_curl_client) :=
  let configured_url :=
    match getenv (text "RETRO_VAULT_API_URL") with
    | None | Some [] => text "https://retro-vault.org"
    | Some url => url
    end in
  if negb (has_prefix (text "https://") configured_url) && negb (has_prefix (text "http://") configured_url)
  then ret (-1, zero_curl_client)
  else
    let url_size := without_slashes configured_url (length configured_url) in
    if (Z.of_nat url_size =? 0) || (retro_vault_base_url_max <=? Z.of_nat url_size)
    then ret (-1, zero_curl_client)
    else
      let base_url := take url_size configured_url in
      let! result := on_curl curl_global_init in
      if negb (result =? CURLE_OK) then ret (-1, zero_curl_client)
      else ret (0, CurlClient base_url 1).

Definition free_retro_vault_curl_client (client : retro_vault_curl_client)
    : ST (world N) retro_vault_curl_client :=
  if negb (initialized client =? 0) then
    do! on_curl (fun n => (tt, curl_global_cleanup n));
    ret zero_curl_client
  else ret client.

Definition curl_options_for (url : list Z) : curl_options :=
  CurlOptions url 1 5 retro_vault_connect_timeout_seconds retro_vault_request_timeout_seconds 1
    (text "squid-server-retrovault/1").

Definition get_retro_vault_curl (client : retro_vault_curl_client) : retro_vault_http_get_fn N :=
  fun path size_limit response status_code =>
  if (initialized client =? 0) || negb (bool_decide (path !! O = Some ch_slash)) || (size_limit =? 0)
  then ret (retro_vault_http_error, response, status_code)
  else
    let '(url, url_size) := snprintf 1024 (base_url client ++ path) in
    if 1024 <=? url_size then ret (retro_vault_http_error, response, status_code)
    else
      let! response := on_mem (retro_vault_buffer_free response) in
      let response :=
        Buffer (b_data response) (b_size response) (b_capacity response) size_limit (b_overflowed response) in
      let status_code := 0 in
      let! curl := on_curl curl_easy_init in
      if negb curl then ret (retro_vault_http_error, response, status_code)
      else
        let! '(result, response) := curl_easy_perform receive_http_data (curl_options_for url) response in
        let! status_code := on_curl (fun n => (curl_response_code n, n)) in
        do! on_curl (fun n => (tt, curl_easy_cleanup n));
        if negb (result =? CURLE_OK) then
          ret (if b_overflowed response then retro_vault_http_too_large else retro_vault_http_error,
               response, status_code)
        else ret (retro_vault_http_ok, response, status_code).
End client.
