(* ===== verification/CurlProps.v ===== *)
(** The HTTP client: its buffer holds what libcurl delivered and no more than
    the limit, and it is the client the retrovault service relies on. *)
From stdpp Require Import base numbers list option gmultiset strings.
From Stdlib Require Import ZArith Lia.
From S2P Require Import Prelude Wire CLib Heap Json Vault VaultServe VaultCatalog VaultPages VaultProps Curl.

Local Open Scope Z_scope.
Local Open Scope squid_scope.

(** ** The buffer *)

(** The buffer holds [got] of at most [limit] bytes, in a block of
    [b_capacity] bytes. *)
Definition filled (b : retro_vault_buffer) (limit : Z) (got : list Z) : Prop :=
  buffer_holds b got /\ b_limit b = limit /\ zlen got <= limit /\
  match b_data b with Some (_, cells) => zlen cells = b_capacity b | None => b_capacity b = 0 end.

Lemma grow_spec fuel capacity required limit :
  0 < capacity -> required <= limit < 2 ^ 62 -> required <= capacity * 2 ^ Z.of_nat fuel ->
  exists c, grow (S fuel) capacity required limit = Some c /\ required <= c /\ capacity <= c.
Proof.
  revert capacity. induction fuel as [|fuel IH]; intros capacity Hc Hr Hf.
  - cbn [grow]. destruct (Z.ltb_spec capacity required); [cbn in Hf; lia|]. exists capacity. split; [done|lia].
  - remember (S fuel) as f eqn:Ef. cbn [grow]. destruct (Z.ltb_spec capacity required); [|exists capacity; split; [done|lia]].
    destruct (Z.ltb_spec (limit / 2) capacity); [exists limit; split; [done|lia]|]. subst f.
    assert (capacity * 2 <= limit) by (pose proof (Z.mul_div_le limit 2); lia).
    rewrite u64_small by (change (2 ^ 62) with 4611686018427387904 in Hr; lia).
    destruct (IH (capacity * 2)) as (c & E & Hc1 & Hc2); [lia|done| |exists c; split; [done|lia]].
    rewrite Nat2Z.inj_succ, Z.pow_succ_r in Hf by lia. lia.
Qed.

Lemma grow_enough capacity required limit : 0 < capacity -> required <= limit < 2 ^ 62 ->
  exists c, grow 64 capacity required limit = Some c /\ required <= c /\ capacity <= c.
Proof.
  intros Hc Hr. apply (grow_spec 63); [done|done|]. change (2 ^ Z.of_nat 63) with (2 * 2 ^ 62). nia.
Qed.

Lemma resized_front data got capacity :
  match data with Some (_, cells) => front got cells | None => got = [] end ->
  zlen match data with Some (_, cells) => cells | None => [] end <= capacity ->
  front got (resized_cells data capacity) /\ zlen (resized_cells data capacity) = capacity.
Proof.
  intros Hd Hl. unfold resized_cells. set (old := match data with Some (_, cells) => cells | None => [] end) in *.
  assert (Hold : front got old) by (destruct data as [[b cells]|]; [done|subst; apply front_nil]). clearbody old.
  assert (Hlen : zlen (old ++ uninit (capacity - zlen old)) = capacity).
  { rewrite zlen_app. unfold uninit, zlen in *. rewrite length_replicate. lia. }
  rewrite take_ge by (unfold zlen in *; lia). split; [|done]. destruct Hold as [rest ->].
  rewrite <- app_assoc. by eexists.
Qed.

(** The copy at the end of [retro_vault_buffer_append], into a block with room. *)
Lemma store_spec b limit got chunk (Q : retro_vault_buffer * Z -> mem -> Prop) m :
  filled b limit got -> limit < 2 ^ 62 -> bytes_ok chunk ->
  zlen got + zlen chunk <= Z.min limit (b_capacity b) ->
  (forall b', filled b' limit (got ++ chunk) -> b_overflowed b' = b_overflowed b ->
     block (b_data b') = block (b_data b) -> Q (b', 0) m) ->
  wp (if 0 <? zlen chunk then
        match b_data b, Some chunk with
        | Some (k, cells), Some bytes =>
            let! bytes := lift (rd_bytes bytes 0 (zlen chunk)) in
            let! cells := lift (wr_bytes cells (b_size b) bytes) in
            ret (Buffer (Some (k, cells)) (u64 (b_size b + zlen chunk)) (b_capacity b) (b_limit b) (b_overflowed b), 0)
        | _, _ => lift None
        end
      else ret (b, 0)) Q m.
Proof.
  intros ((Hgot & Hs & Hd) & Hl & Hle & Hc) Hl62 Hchunk Hroom HQ. change (2 ^ 62) with 4611686018427387904 in *.
  pose proof (zlen_nonneg got). pose proof (zlen_nonneg chunk). destruct (Z.ltb_spec 0 (zlen chunk)).
  - destruct (b_data b) as [[k cells]|] eqn:Eb; [|lia]. apply wp_bind. eapply wp_lift.
    { rewrite <- (app_nil_r chunk) at 1. by apply rd_bytes_front. }
    destruct (wr_bytes_step got cells (zlen got) chunk Hd) as (cells' & Ew & Hf' & Hlen'); [done|lia|].
    apply front_zlen in Hlen'. apply wp_bind. eapply wp_lift; [by rewrite Hs|]. apply wp_ret, HQ; [|done|done].
    rewrite Hs, u64_small by lia. split_and!; [|done|rewrite zlen_app; lia|cbn; lia].
    split_and!; [by apply Forall_app|by rewrite zlen_app|done].
  - assert (chunk = []) as -> by (apply zlen_nil_inv; lia). rewrite app_nil_r in HQ.
    apply wp_ret, HQ; [by split_and!|done|done].
Qed.

(** What appending [chunk] to a buffer does. *)
Definition appended (b : retro_vault_buffer) (limit : Z) (got chunk : list Z) (b' : retro_vault_buffer) (result : Z) : Prop :=
  if zlen got + zlen chunk <=? limit
  then result = 0 /\ filled b' limit (got ++ chunk) /\ b_overflowed b' = b_overflowed b
  else result = -1 /\ filled b' limit got /\ b_overflowed b' = true.

Lemma append_spec b limit got chunk (Q : retro_vault_buffer * Z -> mem -> Prop) m X :
  filled b limit got -> limit < 2 ^ 62 -> bytes_ok chunk -> live m = X ⊎ block (b_data b) ->
  (forall b' result m', after m m' (X ⊎ block (b_data b')) -> appended b limit got chunk b' result -> Q (b', result) m') ->
  (forall m', after m m' (X ⊎ block (b_data b)) -> ~ memory_ok m ->
     zlen got + zlen chunk <= limit -> 0 < zlen chunk -> Q (b, -1) m') ->
  wp (retro_vault_buffer_append b (Some chunk) (zlen chunk)) Q m.
Proof.
  intros ((Hgot & Hsize & Hdata) & Hlim & Hle & Hcap) Hl62 Hchunk Hl HQ Hfail.
  change (2 ^ 62) with 4611686018427387904 in *.
  pose proof (zlen_nonneg got). pose proof (zlen_nonneg chunk).
  unfold retro_vault_buffer_append. rewrite Hlim, Hsize. unfold appended in HQ. cbv iota.
  destruct (Z.leb_spec (zlen got + zlen chunk) limit) as [Hfit|Hover].
  2: { destruct (Z.ltb_spec limit (zlen chunk)), (Z.ltb_spec (limit - zlen chunk) (zlen got)); try lia; cbn [orb];
       (apply wp_ret, HQ; [by split|]; split_and!; [done|by split_and!|done]). }
  destruct (Z.ltb_spec limit (zlen chunk)), (Z.ltb_spec (limit - zlen chunk) (zlen got)); try lia. cbn [orb].
  rewrite u64_small by lia. cbv zeta. apply wp_bind.
  destruct (Z.ltb_spec (b_capacity b) (zlen got + zlen chunk)) as [Hsmall|].
  2: { apply wp_ret. cbv beta iota. eapply (store_spec _ limit got chunk); [by split_and!|done|done|lia|].
    intros b' Hb' Ho' Eb. apply HQ; [split; [by rewrite Eb|done]|by split_and!]. }
  destruct (grow_enough (if 0 <? b_capacity b then b_capacity b else 4096) (zlen got + zlen chunk) limit)
    as (c & Ec & Hc1 & Hc2); [destruct (Z.ltb_spec 0 (b_capacity b)); lia|split; [done|by change (2 ^ 62) with 4611686018427387904]|].
  apply wp_bind. eapply wp_lift; [exact Ec|].
  destruct (resized_front (b_data b) got c) as [Hrf Hrl]; [done| |].
  { destruct (b_data b) as [[k cells]|]; [|rewrite zlen_nil; lia]. rewrite Hcap.
    destruct (Z.ltb_spec 0 (b_capacity b)); lia. }
  apply wp_bind. eapply wp_realloc; [exact Hl| |].
  - intros k m1 Hm1. apply wp_ret. cbv beta iota. eapply (store_spec _ limit got chunk); [by split_and!|done|done|cbn; lia|].
    cbn [b_data b_overflowed].
    intros b' Hb' Ho' Eb. apply HQ; [by rewrite Eb|by split_and!].
  - intros m1 Hm1 Hno. apply wp_ret. cbv beta iota. apply wp_ret, Hfail; [by rewrite <- Hl|done|done|].
    destruct (b_data b) as [[k cells]|] eqn:Eb.
    + destruct Hdata as [rest ->]. rewrite zlen_app in Hcap. pose proof (zlen_nonneg rest). lia.
    + subst got. rewrite zlen_nil in *. lia.
Qed.

(** ** A transfer *)

Section transfer.
Context {N : Type} `{CurlLaws N}.
Implicit Types (b : retro_vault_buffer) (n : N) (w : world N).

(** The whole body of a transfer, the code it ends with, and the state then,
    when every piece of it is taken. *)
Inductive curl_sends (options : curl_options) : N -> list Z -> Z -> N -> Prop :=
  | sends_end n code n' :
      curl_next options n = (Finished code, n') -> curl_sends options n [] code n'
  | sends_more n chunk n1 doc code n' :
      curl_next options n = (Received chunk, n1) -> curl_sends options n1 doc code n' ->
      curl_sends options n (chunk ++ doc) code n'.

Lemma curl_ends options n : exists doc code n', curl_sends options n doc code n'.
Proof.
  assert (Hk : forall k n, (curl_left n < k)%nat -> exists doc code n', curl_sends options n doc code n').
  { clear n. induction k as [|k IH]; intros n Hn; [lia|].
    destruct (curl_next options n) as [[chunk|code] n1] eqn:E.
    - destruct (curl_chunk options n chunk n1 E) as (_ & _ & Hl).
      destruct (IH n1) as (doc & code & n' & Hs); [lia|]. exists (chunk ++ doc), code, n'. by eapply sends_more.
    - exists [], code, n1. by apply sends_end. }
  apply (Hk (S (curl_left n))). lia.
Qed.

Lemma curl_sends_unique options n doc code n1 doc' code' n2 :
  curl_sends options n doc code n1 -> curl_sends options n doc' code' n2 -> doc = doc' /\ code = code' /\ n1 = n2.
Proof.
  intros Hs. revert doc' code' n2. induction Hs as [n code n1 E|n chunk n0 doc code n1 E Hs IH]; intros doc' code' n2 Hs';
    inversion Hs' as [? ? ? E'|? ? ? ? ? ? E' Hs2]; subst; rewrite E in E'; simplify_eq; [done|].
  by destruct (IH _ _ _ Hs2) as (-> & -> & ->).
Qed.

Lemma wp_on_curl {A} (f : N -> A * N) (Q : A -> world N -> Prop) w :
  (forall a n, f (w_net w) = (a, n) -> Q a (World (w_mem w) n)) -> wp (on_curl f) Q w.
Proof. intros HQ. unfold wp, on_curl. destruct (f (w_net w)) as [a n]. by apply HQ. Qed.

Lemma receive_http_spec b limit got chunk (Q : Z * retro_vault_buffer -> mem -> Prop) m X :
  filled b limit got -> limit < 2 ^ 62 -> bytes_ok chunk -> zlen chunk <= CURL_MAX_WRITE_SIZE ->
  live m = X ⊎ block (b_data b) ->
  (forall b' taken m', after m m' (X ⊎ block (b_data b')) ->
     ((taken = zlen chunk /\ zlen got + zlen chunk <= limit /\ filled b' limit (got ++ chunk) /\
       b_overflowed b' = b_overflowed b) \/
      (taken = 0 /\ 0 < zlen chunk /\ limit < zlen got + zlen chunk /\ filled b' limit got /\ b_overflowed b' = true) \/
      (taken = 0 /\ 0 < zlen chunk /\ zlen got + zlen chunk <= limit /\ b' = b /\ ~ memory_ok m)) -> Q (taken, b') m') ->
  wp (receive_http_data (Some chunk) 1 (zlen chunk) b) Q m.
Proof.
  intros Hb Hlim Hchunk Hmax Hl HQ. unfold CURL_MAX_WRITE_SIZE in Hmax. pose proof (zlen_nonneg chunk).
  unfold receive_http_data. change (negb (1 =? 0)) with true. change (SIZE_MAX / 1) with SIZE_MAX. unfold SIZE_MAX.
  destruct (Z.ltb_spec 18446744073709551615 (zlen chunk)); [lia|]. cbn [andb]. rewrite Z.mul_1_l, u64_small by lia.
  cbv zeta. apply wp_bind. eapply append_spec; [done|done|done|exact Hl| |].
  - intros b' result m' Hm' Happ. apply wp_ret, HQ; [done|]. unfold appended in Happ.
    destruct (Z.leb_spec (zlen got + zlen chunk) limit); destruct Happ as (-> & Hb' & Ho); cbn [Z.eqb].
    + by left.
    + destruct Hb as (_ & _ & Hle & _). right. left. split_and!; [done|lia|lia|done|done].
  - intros m' Hm' Hno Hfit Hpos. apply wp_ret, HQ; [done|]. right. right. by split_and!.
Qed.

(** A transfer of [doc] into a buffer that holds [got]. *)
Definition transferred limit (got doc : list Z) (code : Z) b n' (r : Z * retro_vault_buffer) w : Prop :=
  if zlen got + zlen doc <=? limit
  then r.1 = code /\ filled r.2 limit (got ++ doc) /\ b_overflowed r.2 = b_overflowed b /\ w_net w = n'
  else r.1 = CURLE_WRITE_ERROR /\ b_overflowed r.2 = true.

Lemma run_spec fuel options b limit got doc code n' w X :
  curl_sends options (w_net w) doc code n' -> (curl_left (w_net w) < fuel)%nat ->
  filled b limit got -> limit < 2 ^ 62 -> live (w_mem w) = X ⊎ block (b_data b) ->
  wp (curl_protocol fuel receive_http_data options b) (fun r w' => after (w_mem w) (w_mem w') (X ⊎ block (b_data r.2)) /\
    (exists got', filled r.2 limit got') /\
    (memory_ok (w_mem w) -> transferred limit got doc code b n' r w')) w.
Proof.
  intros Hs. remember (w_net w) as n eqn:En. revert fuel b got w En.
  induction Hs as [n code n' E|n chunk n1 doc code n' E Hs IH]; intros fuel b got w En Hf Hb Hlim Hl;
    (destruct fuel as [|fuel]; [lia|]); cbn [curl_protocol]; apply wp_bind, wp_on_curl; intros event n2 E2;
    rewrite <- En, E in E2; injection E2 as <- <-.
  - apply wp_ret. cbn [fst snd w_mem w_net]. split_and!; [by split|by eexists|]. intros _. unfold transferred.
    rewrite zlen_nil, Z.add_0_r, app_nil_r. destruct (Z.leb_spec (zlen got) limit); [done|].
    destruct Hb as (_ & _ & Hle & _). lia.
  - destruct (curl_chunk options n chunk n1 E) as (Hchunk & Hmax & Hleft). cbv iota.
    apply wp_bind, wp_on_mem. cbn [w_mem w_net]. pose proof (zlen_nonneg doc).
    eapply receive_http_spec; [done|done|done|done|exact Hl|]. intros b' taken m' Hm' Hcase. cbv beta iota.
    destruct Hcase as [(-> & Hfit & Hb' & Ho)|Hcase].
    + rewrite Z.eqb_refl. eapply wp_mono; [eapply (IH fuel b' (got ++ chunk)); cbn [w_mem w_net]; [done|lia|done|done|apply Hm']|].
      cbn [w_mem w_net]. intros r w' (Hm2 & Hex & Hok). split_and!; [by eapply after_trans|done|].
      intros Hmem. specialize (Hok (after_ok _ _ _ Hm' Hmem)). unfold transferred in *.
      rewrite zlen_app, <- app_assoc, Ho in Hok. rewrite zlen_app. by rewrite Z.add_assoc.
    + assert (Hstop : wp (do! on_curl (fun n => (tt, curl_give_up n)); ret (CURLE_WRITE_ERROR, b'))
        (fun r w' => after (w_mem w) (w_mem w') (X ⊎ block (b_data r.2)) /\ r = (CURLE_WRITE_ERROR, b'))
        (World m' n1)).
      { apply wp_bind, wp_on_curl. intros a n2 _. by apply wp_ret. }
      destruct (Z.eqb_spec taken (zlen chunk)); [lia|].
      eapply wp_mono; [exact Hstop|]. intros r w' [Hm2 ->]. cbn [fst snd] in *. split; [done|].
      destruct Hcase as [(_ & _ & Hover & Hb' & Ho)|(_ & _ & _ & -> & Hno)]; (split; [by eexists|]); intros Hmem; [|done].
      unfold transferred. rewrite zlen_app. destruct (Z.leb_spec (zlen got + (zlen chunk + zlen doc)) limit); [lia|done].
Qed.

Lemma perform_spec options b limit got doc code n' w X :
  curl_sends options (w_net w) doc code n' ->
  filled b limit got -> limit < 2 ^ 62 -> live (w_mem w) = X ⊎ block (b_data b) ->
  wp (curl_easy_perform receive_http_data options b) (fun r w' => after (w_mem w) (w_mem w') (X ⊎ block (b_data r.2)) /\
    (exists got', filled r.2 limit got') /\
    (memory_ok (w_mem w) -> transferred limit got doc code b n' r w')) w.
Proof.
  intros Hs Hb Hlim Hl.
  unfold wp. rewrite curl_performs. eapply run_spec; [exact Hs|lia|done|done|done].
Qed.

(** ** The client *)

Lemma safe_path_slash path : safe_path path -> path !! O = Some ch_slash.
Proof.
  intros [->|(pl & mo & id & d & again & _ & _ & _ & _ & -> & _)]; [done|].
  unfold path_text. destruct pl, mo, again; done.
Qed.
Lemma safe_path_short path : safe_path path -> zlen path < retro_vault_api_path_max.
Proof. by intros [->|(pl & mo & id & d & again & _ & _ & _ & _ & _ & Hl)]. Qed.

Lemma filled_data b limit got : filled b limit got -> data_ok b limit.
Proof. intros (Hb & _ & Hl & _). by exists got. Qed.

(** The URL of a request fits its array. *)
Lemma url_fits client path : zlen (base_url client) < retro_vault_base_url_max -> safe_path path ->
  snprintf 1024 (base_url client ++ path) = (base_url client ++ path, zlen (base_url client ++ path)) /\
  zlen (base_url client ++ path) < 1024.
Proof.
  intros Hbase Hpath%safe_path_short. unfold retro_vault_base_url_max, retro_vault_api_path_max in *.
  assert (Hl : zlen (base_url client ++ path) < 1024) by (rewrite zlen_app; lia). split; [|done].
  unfold snprintf. rewrite take_ge; [done|]. unfold zlen in Hl. lia.
Qed.

(** What a request gives when libcurl has a handle and sends [doc]. *)
Definition delivered limit (doc : list Z) (code : Z) (n2 : N) (r : Z * retro_vault_buffer * Z) w : Prop :=
  if zlen doc <=? limit
  then r.1.1 = (if code =? CURLE_OK then retro_vault_http_ok else retro_vault_http_error) /\
       buffer_holds r.1.2 doc /\ r.2 = curl_response_code n2 /\ w_net w = curl_easy_cleanup n2
  else r.1.1 = retro_vault_http_too_large.

(** A request with a handle, after the guards. *)
Lemma exchange_spec options limit n1 w doc code n2 :
  0 < limit < 2 ^ 62 -> curl_sends options n1 doc code n2 -> w_net w = n1 ->
  wp (let! '(result, response) := curl_easy_perform receive_http_data options (Buffer None 0 0 limit false) in
      let! status_code := on_curl (fun n => (curl_response_code n, n)) in
      do! on_curl (fun n => (tt, curl_easy_cleanup n));
      if negb (result =? CURLE_OK) then
        ret (if b_overflowed response then retro_vault_http_too_large else retro_vault_http_error,
             response, status_code)
      else ret (retro_vault_http_ok, response, status_code))
    (fun r w' => after (w_mem w) (w_mem w') (live (w_mem w) ⊎ block (b_data r.1.2)) /\ data_ok r.1.2 limit /\
       (memory_ok (w_mem w) -> delivered limit doc code n2 r w')) w.
Proof.
  intros Hlim Hs <-. apply wp_bind. eapply wp_mono.
  { apply (perform_spec options (Buffer None 0 0 limit false) limit [] doc code n2 w (live (w_mem w))); [done| |lia|].
    - split_and!; [by split_and!; [constructor| |]|done|rewrite zlen_nil; lia|done].
    - cbn [b_data block]. balance. }
  intros [result b] w1 (Hm1 & [got Hgot] & Hok). cbn [fst snd] in *. cbv beta iota.
  apply wp_bind, wp_on_curl. intros st n3 E3. injection E3 as <- <-.
  apply wp_bind, wp_on_curl. intros u n4 E4. injection E4 as _ <-. cbn [w_mem w_net].
  assert (Hd : data_ok b limit) by (by eapply filled_data).
  destruct (Z.eqb_spec result CURLE_OK) as [->|Hne]; cbn [negb]; apply wp_ret; cbn [fst snd w_mem w_net];
    (split_and!; [done|done|]); intros Hmem; specialize (Hok Hmem); unfold transferred in Hok; cbn [fst snd] in Hok;
    rewrite zlen_nil, Z.add_0_l in Hok; unfold delivered; cbn [fst snd w_net];
    (destruct (Z.leb_spec (zlen doc) limit); [destruct Hok as (Hr & (Hb & _) & Ho & Hn)|destruct Hok as [Hr Ho]]).
  - rewrite <- Hr, Hn. by split_and!.
  - discriminate Hr.
  - destruct (Z.eqb_spec code CURLE_OK); [congruence|]. rewrite Ho, Hn. by split_and!.
  - by rewrite Ho.
Qed.

Lemma get_spec client path limit status w :
  safe_path path -> 0 < limit < 2 ^ 62 ->
  wp (get_retro_vault_curl client path limit retro_vault_buffer_init status) (fun r w' =>
    after (w_mem w) (w_mem w') (live (w_mem w) ⊎ block (b_data r.1.2)) /\ data_ok r.1.2 limit /\
    (forall n1 doc code n2, initialized client <> 0 -> zlen (base_url client) < retro_vault_base_url_max ->
       memory_ok (w_mem w) -> curl_easy_init (w_net w) = (true, n1) ->
       curl_sends (curl_options_for (base_url client ++ path)) n1 doc code n2 ->
       delivered limit doc code n2 r w')) w.
Proof.
  intros Hpath Hlim. unfold get_retro_vault_curl. rewrite bool_decide_eq_true_2 by (by apply safe_path_slash).
  assert (Hnone : forall m, data_ok (Buffer None 0 0 limit m) limit).
  { intros m. exists []. split; [by split_and!; [constructor| |]|rewrite zlen_nil; lia]. }
  assert (Hinit : after (w_mem w) (w_mem w) (live (w_mem w) ⊎ block (b_data retro_vault_buffer_init))).
  { split; [cbn [b_data retro_vault_buffer_init block]; balance|done]. }
  destruct (Z.eqb_spec (initialized client) 0), (Z.eqb_spec limit 0); try lia; cbn [negb orb].
  { apply wp_ret. split_and!; [done|apply buffer_init_ok; lia|done]. }
  destruct (snprintf 1024 (base_url client ++ path)) as [url url_size] eqn:Eurl.
  destruct (Z.leb_spec 1024 url_size).
  { apply wp_ret. split_and!; [done|apply buffer_init_ok; lia|]. intros n1 doc code n2 _ Hbase.
    destruct (url_fits client path Hbase Hpath) as [E ?]. rewrite Eurl in E. injection E as -> ->. lia. }
  apply wp_bind, wp_on_mem. eapply (buffer_free_spec _ _ _ (live (w_mem w))).
  { cbn [b_data retro_vault_buffer_init block]. balance. }
  intros m1 Hm1. cbn [w_mem w_net b_data b_size b_capacity b_overflowed retro_vault_buffer_init].
  apply wp_bind, wp_on_curl. intros handle n1 Eh. cbn [w_mem w_net] in *. destruct handle; cbn [negb].
  2: { apply wp_ret. cbn [fst snd w_mem w_net b_data block]. split_and!; [|by apply Hnone|congruence].
       eapply after_eq; [exact Hm1|]. balance. }
  destruct (curl_ends (curl_options_for url) n1) as (doc & code & n2 & Hs).
  eapply wp_mono; [by apply (exchange_spec _ limit n1 (World m1 n1) doc code n2)|].
  cbn [w_mem]. intros r w' (Hm2 & Hd & Hok). split_and!; [|done|].
  { rewrite (proj1 Hm1) in Hm2. by eapply after_trans. }
  intros n1' doc' code' n2' Hc Hbase Hmem E1 Hs'. rewrite Eh in E1. injection E1 as <-.
  destruct (url_fits client path Hbase Hpath) as [E _]. rewrite Eurl in E. injection E as -> _.
  destruct (curl_sends_unique _ _ _ _ _ _ _ _ Hs Hs') as (-> & -> & ->). apply Hok. by eapply after_ok.
Qed.

#[export] Instance curl_client client : HttpClient (get_retro_vault_curl client).
Proof.
  intros path limit code w Hpath Hlim. eapply wp_mono; [apply get_spec; [done|lia]|].
  by intros r w' (Hm & Hd & _).
Qed.

(** A client that was initialised: its URL has no slash at the end. *)
Definition client_ready (client : retro_vault_curl_client) : Prop :=
  initialized client = 1 /\ 0 < zlen (base_url client) < retro_vault_base_url_max /\
  last (base_url client) <> Some ch_slash.

Lemma without_slashes_spec url k : (k <= length url)%nat ->
  (without_slashes url k <= k)%nat /\ last (take (without_slashes url k) url) <> Some ch_slash.
Proof.
  induction k as [|k IH]; intros Hn; [done|]. cbn [without_slashes]. case_bool_decide as E.
  - destruct IH as [IH1 IH2]; [lia|]. split; [lia|done].
  - split; [done|]. rewrite last_lookup, length_take, Nat.min_l by lia. cbn [Nat.pred].
    by rewrite lookup_take_lt by lia.
Qed.

Lemma init_client_spec getenv w :
  wp (init_retro_vault_curl_client getenv) (fun r w' => w_mem w' = w_mem w /\
    ((r.1 = 0 /\ client_ready r.2) \/ r = (-1, zero_curl_client))) w.
Proof.
  unfold init_retro_vault_curl_client.
  set (url := match getenv (text "RETRO_VAULT_API_URL") with None | Some [] => _ | Some url => url end). clearbody url.
  destruct (_ && _); [apply wp_ret; eauto|]. destruct (without_slashes_spec url (length url)) as [Hk Hlast]; [done|].
  destruct (Z.eqb_spec (Z.of_nat (without_slashes url (length url))) 0); cbn [orb]; [apply wp_ret; eauto|].
  destruct (Z.leb_spec retro_vault_base_url_max (Z.of_nat (without_slashes url (length url)))); [apply wp_ret; eauto|].
  cbv zeta. apply wp_bind, wp_on_curl. intros result n2 _. destruct (negb _); apply wp_ret; [eauto|].
  split; [done|]. left. split; [done|]. split_and!; [done|cbn [snd base_url]; rewrite zlen_take_nat by done; lia|
    cbn [snd base_url]; rewrite zlen_take_nat by done; lia|done].
Qed.

(** C21. What a request of the initialised client gives.  For a path the service
    asks for, when libcurl has a handle and sends the body [doc] for the
    URL base_url ++ path, the URL is never cut; a body of at most [limit] bytes
    ends up in the buffer exactly, in whatever pieces it came, with the
    response code of the transfer and the handle released; a longer body is
    reported as too large.  The only block left allocated is the buffer's. *)
Theorem curl_get_exact client path limit status w n1 doc code n2 :
  client_ready client -> safe_path path -> 0 < limit < 2 ^ 62 -> memory_ok (w_mem w) ->
  curl_easy_init (w_net w) = (true, n1) ->
  curl_sends (curl_options_for (base_url client ++ path)) n1 doc code n2 ->
  exists result b code' w',
    get_retro_vault_curl client path limit retro_vault_buffer_init status w = Some ((result, b, code'), w') /\
    live (w_mem w') = live (w_mem w) ⊎ block (b_data b) /\
    (zlen doc <= limit -> buffer_holds b doc /\ code' = curl_response_code n2 /\
       w_net w' = curl_easy_cleanup n2 /\
       result = if code =? CURLE_OK then retro_vault_http_ok else retro_vault_http_error) /\
    (limit < zlen doc -> result = retro_vault_http_too_large).
Proof.
  intros (Hi & Hbase & _) Hpath Hlim Hmem Eh Hs.
  pose proof (get_spec client path limit status w Hpath Hlim) as Hwp.
  apply wp_inv in Hwp as ([[result b] code'] & w' & E & Hm & _ & Hok). cbn [fst snd] in *.
  exists result, b, code', w'. split_and!; [done|apply Hm|..]; intros Hdoc;
    specialize (Hok n1 doc code n2 ltac:(lia) ltac:(lia) Hmem Eh Hs); unfold delivered in Hok; cbn [fst snd] in Hok.
  - destruct (Z.leb_spec (zlen doc) limit); [|lia]. destruct Hok as (-> & ? & ? & ?). by split_and!.
  - by destruct (Z.leb_spec (zlen doc) limit); [lia|].
Qed.
End transfer.

(** ** A small network *)

(** What is still to be received, and the response code. *)
Record mini_http := MiniHttp { mh_chunks : list (list Z); mh_code : Z }.
Definition mini_next (n : mini_http) : curl_event * mini_http :=
  match mh_chunks n with
  | [] => (Finished CURLE_OK, n)
  | chunk :: chunks =>
      if forallb (fun c => (0 <=? c) && (c <? 256)) chunk && (zlen chunk <=? CURL_MAX_WRITE_SIZE)
      then (Received chunk, MiniHttp chunks (mh_code n)) else (Finished 56, n)
  end.
(** Everything but [curl_easy_perform], which follows the protocol of the rest. *)
Definition mini_curl_with (perform : curl_write_callback -> curl_options -> retro_vault_buffer ->
    ST (world mini_http) (Z * retro_vault_buffer)) : Curl mini_http := {|
  curl_global_init n := (CURLE_OK, n);
  curl_global_cleanup n := n;
  curl_easy_init n := (true, n);
  curl_easy_cleanup n := MiniHttp [] (mh_code n);
  curl_response_code n := mh_code n;
  curl_easy_perform := perform;
  curl_next options n := mini_next n;
  curl_left n := length (mh_chunks n);
  curl_give_up n := n |}.
#[export] Instance mini_curl : Curl mini_http :=
  mini_curl_with (fun write options buffer w =>
    curl_protocol (H := mini_curl_with (fun _ _ _ _ => None)) (S (length (mh_chunks (w_net w)))) write options buffer w).

Lemma mini_protocol p1 p2 fuel write options buffer w :
  curl_protocol (H := mini_curl_with p1) fuel write options buffer w =
  curl_protocol (H := mini_curl_with p2) fuel write options buffer w.
Proof.
  revert buffer w. induction fuel as [|fuel IH]; intros buffer w; [done|]. cbn [curl_protocol]. unfold bind, on_curl.
  cbn [curl_next mini_curl_with]. destruct (mini_next (w_net w)) as [[chunk|code] n]; [|done].
  destruct (on_mem _ _) as [[[taken b'] w']|]; [|done]. destruct (taken =? zlen chunk); [apply IH|done].
Qed.

#[export] Instance mini_curl_laws : CurlLaws mini_http.
Proof.
  split; [intros write options buffer w; apply mini_protocol|].
  intros options n chunk n'. cbn [curl_next curl_left mini_curl mini_curl_with]. unfold mini_next.
  destruct (mh_chunks n) as [|c cs]; [done|].
  destruct (forallb _ c) eqn:Ef, (Z.leb_spec (zlen c) CURL_MAX_WRITE_SIZE); try done. cbn [andb].
  intros [= <- <-]. split_and!; [|done|cbn; lia]. apply Forall_forall. intros x Hx. rewrite forallb_forall in Ef.
  apply list_elem_of_In, Ef in Hx. unfold is_byte. lia.
Qed.

Definition mini_world : world mini_http := World (Mem ∅ 0 (fun _ => false)) (MiniHttp [[91]; [93; 10]] 200).

Lemma curl_get_exact_witness :
  exists result b code' w',
    get_retro_vault_curl (CurlClient (text "http://a") 1) packages_path 100 retro_vault_buffer_init 0 mini_world
      = Some ((result, b, code'), w') /\
    live (w_mem w') = ∅ ⊎ block (b_data b) /\
    (3 <= 100 -> buffer_holds b [91; 93; 10] /\ code' = 200 /\ w_net w' = MiniHttp [] 200 /\
       result = if 0 =? CURLE_OK then retro_vault_http_ok else retro_vault_http_error) /\
    (100 < 3 -> result = retro_vault_http_too_large).
Proof.
  refine (curl_get_exact (CurlClient (text "http://a") 1) packages_path 100 0 mini_world
    (w_net mini_world) [91; 93; 10] 0 (MiniHttp [] 200) _ _ _ _ _ _).
  - split_and!; by vm_compute.
  - by left.
  - done.
  - intros b. reflexivity.
  - reflexivity.
  - apply (sends_more _ _ [91] (MiniHttp [[93; 10]] 200) [93; 10]); [reflexivity|].
    apply (sends_more _ _ [93; 10] (MiniHttp [] 200) []); [reflexivity|]. apply sends_end. reflexivity.
Defined.
