(* ===== verification/VaultPlugin.v ===== *)
(** The retrovault plugin object (lib/retrovault/retrovault_plugin.c): it owns
    the context and the HTTP client while it is started. *)
From stdpp Require Import base numbers list option gmultiset strings.
From Stdlib Require Import ZArith Lia.
From S2P Require Import Prelude Wire CLib PluginApi Heap Json Vault VaultCatalog VaultServe VaultPages VaultProps Curl CurlProps.

Local Open Scope Z_scope.
Local Open Scope squid_scope.

Record retro_vault_plugin_state (N : Type) := VaultPluginState {
  vault_context : retro_vault_context N;
  vault_curl : retro_vault_curl_client;
  vault_started : Z }.
Arguments VaultPluginState {N} _ _ _.
Arguments vault_context {N} _.
Arguments vault_curl {N} _.
Arguments vault_started {N} _.

(** After [memset]. *)
Definition zero_plugin_state {N} : retro_vault_plugin_state N :=
  VaultPluginState (Context None None 0 0 0 retro_vault_buffer_init None) zero_curl_client 0.

(** Memory and network, and the static [plugin_state]. *)
Record vault_world (N : Type) := VaultWorld { vw_world : world N; vw_state : retro_vault_plugin_state N }.
Arguments VaultWorld {N} _ _.
Arguments vw_world {N} _.
Arguments vw_state {N} _.

Section plugin.
Context {N : Type} `{Curl N}.
Variable getenv : list Z -> option (list Z).
Variable time_now : N -> Z * N.
Abbreviation M := (ST (vault_world N)).

Definition on_world {A} (c : ST (world N) A) : M A := fun w =>
  match c (vw_world w) with
  | Some (a, o) => Some (a, VaultWorld o (vw_state w))
  | None => None
  end.
Definition get_vault : M (retro_vault_plugin_state N) := fun w => Some (vw_state w, w).
Definition set_vault (st : retro_vault_plugin_state N) : M unit :=
  fun w => Some (tt, VaultWorld (vw_world w) st).

(** [http.user_data] points to the state's client, which is the one of
    [get_retro_vault_curl] as long as the context is in use. *)
Definition start_retro_vault_plugin : M Z :=
  let! state := get_vault in
  if negb (vault_started state =? 0) then ret 0
  else
    do! set_vault zero_plugin_state;
    let! '(result, client) := on_world (init_retro_vault_curl_client getenv) in
    do! set_vault (VaultPluginState (vault_context zero_plugin_state) client 0);
    if negb (result =? 0) then ret (-1)
    else
      do! set_vault (VaultPluginState (init_retro_vault_context (Some (get_retro_vault_curl client))) client 1);
      ret 0.

Definition stop_retro_vault_plugin : M Z :=
  let! state := get_vault in
  if negb (vault_started state =? 0) then
    let! context := on_world (on_mem (free_retro_vault_context (vault_context state))) in
    let! client := on_world (free_retro_vault_curl_client (vault_curl state)) in
    do! set_vault (VaultPluginState context client 0);
    ret 0
  else ret 0.

(** The core updates the context through the pointer. *)
Definition vault_core (data : list Z) (size : Z) (mem : list Z) (cap : Z) : M (list Z * Z) :=
  let! state := get_vault in
  if vault_started state =? 0 then ret (mem, -1)
  else
    let! '(response, n, context) :=
      on_world (handle_retro_vault_request time_now (vault_context state) data size mem cap) in
    do! set_vault (VaultPluginState context (vault_curl state) (vault_started state));
    ret (response, n).

Definition handle_retro_vault_packet : handle_packet_fn (vault_world N) := fun port_number =>
  packet_entry vault_core.

Definition retro_vault_plugin : server_plugin (vault_world N) :=
  ServerPlugin (Some (text "retrovault")) (Some start_retro_vault_plugin)
    (Some stop_retro_vault_plugin) (Some handle_retro_vault_packet).

(** ** What the plugin owns *)

(** A stopped plugin owns nothing; a started one what its context owns.  The
    other live blocks are [X]. *)
Definition vault_inv (X : gmultiset nat) (w : vault_world N) : Prop :=
  if vault_started (vw_state w) =? 0 then live (w_mem (vw_world w)) = X
  else context_ok (vault_context (vw_state w)) /\ balanced X (vault_context (vw_state w)) (vw_world w).

Lemma wp_on_world {A} (c : ST (world N) A) Q w :
  wp c (fun a o => Q a (VaultWorld o (vw_state w))) (vw_world w) -> wp (on_world c) Q w.
Proof. unfold wp, on_world. by destruct (c (vw_world w)) as [[a o]|]. Qed.
Lemma wp_get_vault (Q : _ -> vault_world N -> Prop) w : Q (vw_state w) w -> wp get_vault Q w.
Proof. done. Qed.
Lemma wp_set_vault st (Q : unit -> vault_world N -> Prop) w :
  Q tt (VaultWorld (vw_world w) st) -> wp (set_vault st) Q w.
Proof. done. Qed.

Lemma vault_start_spec `{!CurlLaws N} X w : vault_inv X w ->
  wp start_retro_vault_plugin (fun r w' => vault_inv X w' /\
    (r = 0 /\ vault_started (vw_state w') <> 0 \/ r = -1 /\ vault_started (vw_state w') = 0) /\
    (vault_started (vw_state w) <> 0 -> w' = w)) w.
Proof.
  intros HI. unfold start_retro_vault_plugin. apply wp_bind, wp_get_vault.
  destruct (Z.eqb_spec (vault_started (vw_state w)) 0) as [E|E]; cbn [negb]; [|apply wp_ret; auto].
  unfold vault_inv in HI. rewrite E in HI. cbn [Z.eqb] in HI.
  apply wp_bind, wp_set_vault, wp_bind, wp_on_world. cbn [vw_world vw_state].
  eapply wp_mono; [apply init_client_spec|]. intros [result client] o [Hmem Hcase]. cbv beta iota.
  apply wp_bind, wp_set_vault. cbn [vw_world]. cbn [fst snd] in Hcase.
  destruct Hcase as [[-> Hready]|Hfail]; [|injection Hfail as -> ->]; cbn [Z.eqb negb].
  - apply wp_bind, wp_set_vault, wp_ret. cbn [vw_world]. split_and!; [|by left|congruence].
    unfold vault_inv. cbn [vw_state vault_started vault_context vw_world Z.eqb]. split.
    + apply context_init_ok, curl_client.
    + apply context_init_balanced. by rewrite Hmem.
  - apply wp_ret. split_and!; [|by right|congruence]. unfold vault_inv. cbn. by rewrite Hmem.
Qed.

Lemma vault_stop_spec X w : vault_inv X w ->
  wp stop_retro_vault_plugin (fun r w' => r = 0 /\ live (w_mem (vw_world w')) = X /\
    vault_started (vw_state w') = 0) w.
Proof.
  intros HI. unfold stop_retro_vault_plugin. apply wp_bind, wp_get_vault. unfold vault_inv in HI.
  destruct (Z.eqb_spec (vault_started (vw_state w)) 0) as [E|E]; cbn [negb]; [by apply wp_ret|].
  destruct HI as [Hc Hb]. apply wp_bind, wp_on_world, wp_on_mem. eapply free_context_spec; [done|exact Hb|].
  intros m' Hm'. apply wp_bind, wp_on_world. cbn [vw_world vw_state]. unfold free_retro_vault_curl_client.
  destruct (negb _); [apply wp_bind, wp_on_curl; intros a n _; apply wp_ret|apply wp_ret];
    apply wp_bind, wp_set_vault, wp_ret; cbn; split_and!; try done; by destruct Hm'.
Qed.

#[export] Instance vault_good X : GoodPlugin (vault_inv X) handle_retro_vault_packet.
Proof.
  intros port v b w HI Hv Hb. apply (packet_entry_good (vault_inv X) vault_core port v b w); try done.
  clear. intros data size mem cap w HI Hd Hs Hsi Hc Hci. unfold vault_core.
  apply wp_bind, wp_get_vault. pose proof HI as HI0. unfold vault_inv in HI.
  destruct (Z.eqb_spec (vault_started (vw_state w)) 0) as [E|E]; [apply wp_ret; cbn; auto with lia|].
  destruct HI as [Hok Hbal]. apply wp_bind, wp_on_world.
  assert (Hdone : forall (buf : list Z) n c o, length buf = length mem -> n < 0 \/ 0 <= n <= cap -> context_ok c -> balanced X c o ->
    wp (do! set_vault (VaultPluginState c (vault_curl (vw_state w)) (vault_started (vw_state w))); ret (buf, n))
      (fun r s' => vault_inv X s' /\ length r.1 = length mem /\ (r.2 < 0 \/ 0 <= r.2 <= cap)) (VaultWorld o (vw_state w))).
  { intros buf n c o Hl Hn Hc' Hb'. apply wp_bind, wp_set_vault, wp_ret. split_and!; [|done|done].
    unfold vault_inv. cbn [vw_state vault_started vault_context vw_world]. by destruct (Z.eqb_spec (vault_started (vw_state w)) 0). }
  destruct (Z.ltb_spec cap 2).
  - unfold handle_retro_vault_request. destruct (Z.eqb_spec size 0), (Z.ltb_spec cap 2); try lia. cbn [orb].
    apply wp_ret. cbv beta iota. apply Hdone; [done|lia|done|done].
  - destruct (request_served time_now data size mem cap X Hd Hs ltac:(lia) Hci _ _ Hok Hbal) as (op & _ & Hwp).
    eapply wp_mono; [exact Hwp|]. intros [[buf n] c] o ([Hl Hn] & Hc' & Hb'). cbn [fst snd] in *. cbv beta iota.
    apply Hdone; [done|lia|done|done].
Qed.
(** ** The life of the plugin *)

(** What the server does with a plugin. *)
Inductive vault_call :=
  | CallStart
  | CallStop
  | CallPacket (port : Z) (v : server_packet_view) (b : server_packet_buffer).

Definition call_ok (call : vault_call) : Prop :=
  match call with CallPacket _ v b => view_ok v /\ buffer_ok b | _ => True end.

(** The calls in order, with the results. *)
Fixpoint vault_calls (calls : list vault_call) : M (list Z) :=
  match calls with
  | [] => ret []
  | call :: calls =>
      let! r :=
        match call with
        | CallStart => start_retro_vault_plugin
        | CallStop => stop_retro_vault_plugin
        | CallPacket port v b => let! '(r, _) := handle_retro_vault_packet port (Some v) (Some b) in ret r
        end in
      let! rs := vault_calls calls in
      ret (r :: rs)
  end.

Lemma vault_calls_spec `{!CurlLaws N} X calls w : Forall call_ok calls -> vault_inv X w ->
  wp (vault_calls calls) (fun rs w' => length rs = length calls /\ vault_inv X w') w.
Proof.
  intros Hcalls. revert w. induction Hcalls as [|call calls Hcall _ IH]; intros w HI; [by apply wp_ret|].
  cbn [vault_calls]. apply wp_bind.
  assert (Hnext : forall r w', vault_inv X w' ->
    wp (let! rs := vault_calls calls in ret (r :: rs)) (fun rs w'' => length rs = length (call :: calls) /\ vault_inv X w'') w').
  { intros r w' HI'. apply wp_bind. eapply wp_mono; [by apply IH|]. intros rs w2 [Hl HI2]. apply wp_ret. cbn. auto. }
  destruct call as [| |port v b].
  - eapply wp_mono; [by apply vault_start_spec|]. intros r w' [HI' _]. by apply Hnext.
  - eapply wp_mono; [by apply vault_stop_spec|]. intros r w' (_ & Hl & Hs). apply Hnext. unfold vault_inv. by rewrite Hs.
  - destruct Hcall as [Hv Hb]. apply wp_bind. eapply wp_mono; [by apply good_packet|].
    intros [r b'] w' [HI' _]. apply wp_ret. by apply Hnext.
Qed.

(** C22. The plugin never leaks.  Take a stopped plugin and any calls of start,
    stop and packets the server can pass, in any order, with any answers of
    the network and any failures of the allocator: all calls return, and
    stopping it afterwards returns 0 and leaves exactly the blocks allocated
    that were allocated at the beginning; then it rejects every packet
    without touching memory or network. *)
Theorem vault_lifecycle `{!CurlLaws N} calls w : Forall call_ok calls -> vault_started (vw_state w) = 0 ->
  wp (vault_calls calls) (fun rs w1 => length rs = length calls /\
    wp stop_retro_vault_plugin (fun r w2 => r = 0 /\
      live (w_mem (vw_world w2)) = live (w_mem (vw_world w)) /\
      forall port v b, exists b', handle_retro_vault_packet port v b w2 = Some ((-1, b'), w2)) w1) w.
Proof.
  intros Hcalls Hstop. eapply wp_mono.
  { apply (vault_calls_spec (live (w_mem (vw_world w)))); [done|]. unfold vault_inv. by rewrite Hstop. }
  intros rs w1 [Hl HI]. split; [done|]. eapply wp_mono; [by apply vault_stop_spec|].
  intros r w2 (-> & Hl2 & Hs2). split_and!; [done|done|]. intros port v b.
  unfold handle_retro_vault_packet, packet_entry.
  destruct v as [v|]; [|by eexists]. destruct b as [b|]; [|by eexists].
  destruct (view_data v); [|by eexists]. case_test; [by eexists|].
  unfold vault_core, bind, get_vault. cbn -[Z.eqb]. rewrite Hs2. by eexists.
Qed.
End plugin.
