(* ===== verification/VaultWitness.v ===== *)
(** The theorems on the retrovault service at concrete inputs: a context that
    holds the catalog of [sample_doc], and the HTTP client on the network of
    CurlProps.v. *)
From stdpp Require Import base numbers list option gmultiset strings.
From Stdlib Require Import ZArith Lia.
From S2P Require Import Prelude Wire CLib PluginApi Heap Json Vault VaultCatalog VaultServe VaultPages VaultProps VaultPaging Curl CurlProps VaultPlugin.

Local Open Scope Z_scope.
Local Open Scope squid_scope.

(** ** A context with a catalog *)

Definition sample_parse : option (option (ptr (list retro_vault_package) * Z) * mem) :=
  parse_catalog (Some (0%nat, sample_doc ++ [])) (zlen sample_doc) sample_mem.
Definition sample_packages : ptr (list retro_vault_package) :=
  match sample_parse with Some (Some (ps, _), _) => ps | _ => None end.
Definition sample_count : Z :=
  match sample_parse with Some (Some (_, n), _) => n | _ => 0 end.
Definition sample_after : mem := match sample_parse with Some (_, m) => m | None => sample_mem end.

Definition sample_client : retro_vault_curl_client := CurlClient (text "https://retro-vault.org") 1.
Definition sample_context : retro_vault_context mini_http :=
  Context (Some (get_retro_vault_curl sample_client)) sample_packages sample_count 1000 3600
    retro_vault_buffer_init None.

(** The server answers 503. *)
Definition sample_world : world mini_http := World sample_after (MiniHttp [text "busy"] 503).

Lemma sample_bytes : bytes_ok sample_doc.
Proof. closed. Qed.

Lemma parsed_catalog b doc rest m r m' : bytes_ok doc ->
  parse_catalog (Some (b, doc ++ rest)) (zlen doc) m = Some (r, m') ->
  live m' = live m ⊎ owned_result r /\ forall ps n, r = Some (ps, n) -> packages_ok ps n.
Proof.
  intros Hdoc E.
  assert (Hwp : wp (parse_catalog (Some (b, doc ++ rest)) (zlen doc))
    (fun r m' => live m' = live m ⊎ owned_result r /\ forall ps n, r = Some (ps, n) -> packages_ok ps n) m).
  { apply parse_catalog_spec; [done|]. intros r' m1 [Hm' _] [Hr _]. split; [done|].
    intros ps n Er. exact (proj1 (Hr ps n Er)). }
  unfold wp in Hwp. by rewrite E in Hwp.
Qed.

Lemma sample_parsed : exists ps n m', sample_parse = Some (Some (ps, n), m') /\
  packages_ok ps n /\ live m' = ∅ ⊎ owned_packages ps.
Proof.
  assert (Hs : match sample_parse with Some (Some _, _) => true | _ => false end = true) by (vm_compute; reflexivity).
  pose proof (parsed_catalog 0 sample_doc [] sample_mem) as Hp. fold sample_parse in Hp.
  destruct sample_parse as [[[[ps n]|] m']|]; [|discriminate Hs..].
  destruct (Hp _ m' sample_bytes eq_refl) as [Hl Hok]. exists ps, n, m'.
  split; [reflexivity|]. split; [exact (Hok ps n eq_refl)|exact Hl].
Qed.

Lemma sample_ok : context_ok sample_context.
Proof.
  destruct sample_parsed as (ps & n & m' & E & Hok & _). unfold sample_context, sample_packages, sample_count. rewrite E.
  split_and!; [done|apply buffer_init_ok; by vm_compute|by left|apply curl_client].
Qed.
Lemma sample_balanced net : balanced ∅ sample_context (World sample_after net).
Proof.
  destruct sample_parsed as (ps & n & m' & E & _ & Hl). unfold balanced, owned_context, sample_context, sample_packages, sample_after.
  rewrite E. cbn [w_mem packages download_data download_path b_data retro_vault_buffer_init block]. rewrite Hl. balance.
Qed.

Definition sample_time (n : mini_http) : Z * mini_http := (9999, n).

(** ** Witnesses *)

Definition search_request : list Z := [2; 0; 0; 0; 3] ++ text "ELI".

Lemma vault_request_safe_witness :
  exists opcode buf' n c' w', search_request !! O = Some opcode /\
    handle_retro_vault_request sample_time sample_context search_request 8 (replicate 255 0) 255 sample_world
      = Some ((buf', n, c'), w') /\
    reply_ok opcode 255 (replicate 255 0) buf' n /\ context_ok c' /\ balanced ∅ c' w'.
Proof. apply vault_request_safe; [closed|closed|closed|closed|exact sample_ok|apply sample_balanced]. Defined.

(** The answer has the one package that matches. *)
Example search_answer :
  wp (handle_retro_vault_request sample_time sample_context search_request 8 (replicate 255 0) 255)
    (fun r _ => take (Z.to_nat r.1.2) r.1.1 =
       [130; 0; 255; 255; 1] ++ [5] ++ text "elite" ++ [6] ++ text "Elit" ++ [195; 169]) sample_world.
Proof. vm_compute. reflexivity. Qed.

(** A network that has the catalog, and what the client makes of each. *)
Definition good_world : world mini_http := World sample_after (MiniHttp [sample_doc] 200).
Definition fetched (w : world mini_http) : option (Z * retro_vault_buffer * Z * world mini_http) :=
  get_retro_vault_curl sample_client packages_path retro_vault_catalog_limit retro_vault_buffer_init 0 w.
Definition fetched_buffer (w : world mini_http) : retro_vault_buffer :=
  match fetched w with Some ((_, b, _), _) => b | None => retro_vault_buffer_init end.
Definition fetched_world (w : world mini_http) : world mini_http := match fetched w with Some (_, w') => w' | None => w end.

Lemma fetched_holds w doc : bytes_ok doc -> b_size (fetched_buffer w) = zlen doc ->
  match b_data (fetched_buffer w) with Some (_, cells) => bool_decide (take (length doc) cells = doc) = true | None => False end ->
  buffer_holds (fetched_buffer w) doc.
Proof.
  intros Hdoc Hsize Hdata. split; [done|]. split; [done|]. destruct (b_data _) as [[b cells]|]; [|done].
  apply bool_decide_eq_true in Hdata. exists (drop (length doc) cells). by rewrite <- Hdata at 1; rewrite take_drop.
Qed.

Lemma catalog_kept_witness :
  (exists c' w', ensure_catalog sample_time sample_context sample_world = Some ((0, c'), w') /\
     balanced ∅ c' w' /\ c' = sample_context) /\
  memory_ok sample_after /\
  (exists status c' w', ensure_catalog sample_time sample_context good_world = Some ((status, c'), w') /\
     balanced ∅ c' w' /\ context_ok c' /\ catalog_fetched_at c' = 9999 /\ package_count c' = 2 /\
     refreshed sample_after sample_context 9999 0 200 sample_doc status c').
Proof.
  split; [|split; [intros b; vm_compute; reflexivity|]].
  - destruct (catalog_kept sample_time sample_context sample_world ∅ (get_retro_vault_curl sample_client) 9999
      (w_net sample_world) 0 (fetched_buffer sample_world) 503 (text "busy") (fetched_world sample_world))
      as (status & c' & w' & E & Hb & _ & _ & Hr);
      [exact sample_ok|apply sample_balanced|reflexivity|reflexivity|vm_compute; reflexivity|vm_compute; reflexivity| |].
    { apply fetched_holds; [closed|vm_compute; reflexivity|vm_compute; reflexivity]. }
    destruct Hr as [[Ec Es]|(_ & Hcode & _)]; [|lia]. exists c', w'.
    assert (Hs : status = 0) by (rewrite Es; vm_compute; reflexivity).
    rewrite Hs in E. split; [exact E|]. split; [exact Hb|exact Ec].
  - destruct (catalog_kept sample_time sample_context good_world ∅ (get_retro_vault_curl sample_client) 9999
      (w_net good_world) 0 (fetched_buffer good_world) 200 sample_doc (fetched_world good_world))
      as (status & c' & w' & E & Hb & Hok & Hr);
      [exact sample_ok|apply sample_balanced|reflexivity|reflexivity|vm_compute; reflexivity|vm_compute; reflexivity| |].
    { apply fetched_holds; [exact sample_bytes|vm_compute; reflexivity|vm_compute; reflexivity]. }
    exists status, c', w'. split; [exact E|]. split; [exact Hb|]. split; [exact Hok|].
    assert (Hc : (fun r => (catalog_fetched_at r.1.2, package_count r.1.2)) <$>
      ensure_catalog sample_time sample_context good_world = Some (9999, 2)) by (vm_compute; reflexivity).
    rewrite E in Hc. injection Hc as H1 H2. split; [exact H1|]. split; [exact H2|exact Hr].
Defined.

(** With a platform, a model and a query that only the first package has. *)
Lemma vault_list_complete_witness :
  list_all sample_context 1 64 (text "IDP") (text "partner") (text "LIT") (replicate 64 0) 2 0 =
    Some [(text "elite", text "Elit" ++ [195; 169])].
Proof.
  refine (vault_list_complete sample_context 1 64 (text "IDP") (text "partner") (text "LIT") (replicate 64 0)
    sample_ok _ _ _); [closed|closed|].
  vm_compute. repeat (constructor; [intros _; discriminate|]). constructor.
Defined.

Lemma download_reassembled_witness :
  download_all (Buffer (Some (0%nat, text "a tape image" ++ [-1; -1])) 12 14 100 false) 4 16 0 (replicate 16 0) 13 0
    = Some (text "a tape image").
Proof. apply (download_reassembled _ (text "a tape image")); [|closed|closed|closed]. split; [closed|]. split; [closed|]. by exists [-1; -1]. Defined.

(** A start, a LIST whose answer uses up the network's data, and a LIST. *)
Definition list_packet : vault_call :=
  CallPacket 9 (PacketView (Some [1; 0; 0; 0]) 4) (PacketBuffer 1 (replicate 64 0) 64 0).
Definition stopped_vault : vault_world mini_http :=
  VaultWorld (World sample_mem (MiniHttp [sample_doc] 200)) zero_plugin_state.

Lemma vault_lifecycle_witness :
  wp (vault_calls (fun _ => None) sample_time [CallStart; list_packet; list_packet]) (fun rs w1 => length rs = 3%nat /\
    wp stop_retro_vault_plugin (fun r w2 => r = 0 /\ live (w_mem (vw_world w2)) = ∅ /\
      forall port v b, exists b', handle_retro_vault_packet sample_time port v b w2 = Some ((-1, b'), w2)) w1) stopped_vault.
Proof.
  apply (vault_lifecycle (fun _ => None) sample_time [CallStart; list_packet; list_packet] stopped_vault); [|reflexivity].
  assert (Hp : call_ok list_packet).
  { split; [exists [1; 0; 0; 0]; split_and!; closed|split_and!; closed]. }
  apply Forall_cons; split; [exact I|]. apply Forall_cons; split; [exact Hp|]. apply Forall_cons; split; [exact Hp|constructor].
Defined.

(** All three calls succeed. *)
Example vault_calls_succeed :
  wp (vault_calls (fun _ => None) sample_time [CallStart; list_packet; list_packet]) (fun rs _ => rs = [0; 0; 0]) stopped_vault.
Proof. vm_compute. reflexivity. Qed.
