(* ===== verification/Client.v ===== *)
(** The portable client library (lib/client/portable/*.c, lib/client/*.c):
    one synchronous exchange with the server, and the typed calls of the
    echo, system, time, TCP proxy and filesystem plugins.

    Caller data does not lie inside the client's own workspace: a zero-copy
    result is only valid until the next call. *)
From stdpp Require Import base numbers list option strings.
From Stdlib Require Import ZArith Lia.
From S2P Require Import Prelude Wire CLib Time Filesystem TcpProxy Runtime.

Local Open Scope Z_scope.
Local Open Scope squid_scope.

(** ** Results of client code

    A call returns, is still waiting when its fuel is used up, or has
    undefined behaviour. *)
Inductive res (S A : Type) := Returns (a : A) (s : S) | Waiting | Undefined.
Arguments Returns {S A} _ _.
Arguments Waiting {S A}.
Arguments Undefined {S A}.

Definition CT (S A : Type) : Type := S -> res S A.
Definition cret {S A} (a : A) : CT S A := fun s => Returns a s.
Definition cbind {S A B} (m : CT S A) (k : A -> CT S B) : CT S B := fun s =>
  match m s with
  | Returns a s' => k a s'
  | Waiting => Waiting
  | Undefined => Undefined
  end.
(** A memory access that may be undefined. *)
Definition access {S A} (o : option A) : CT S A := fun s =>
  match o with Some a => Returns a s | None => Undefined end.

Notation "'let^' x := m 'in' k" := (cbind m (fun x => k))
  (at level 10, x name, m at level 100, k at level 200) : squid_scope.
Notation "'let^' ' p := m 'in' k" := (cbind m (fun y => match y with p => k end))
  (at level 10, p pattern, m at level 100, k at level 200) : squid_scope.
Notation "'do^' m ';' k" := (cbind m (fun _ => k))
  (at level 10, m at level 100, k at level 200) : squid_scope.

(** ** base.h *)

Definition SQUID_CLIENT_PACKET_MAX : Z := 255.
Definition SQUID_CLIENT_ERROR_ARGUMENT : Z := -1.
Definition SQUID_CLIENT_ERROR_LINK : Z := -2.
Definition SQUID_CLIENT_ERROR_IO : Z := -3.
Definition SQUID_CLIENT_ERROR_PROTOCOL : Z := -4.
Definition SQUID_CLIENT_ERROR_OVERFLOW : Z := -5.
Definition SQUID_CLIENT_ERROR_CANCELLED : Z := -6.

(** [packet] is the workspace, [None] when the pointer is null; [has_idle]
    whether there is an idle callback. *)
Record squid_client := SquidClient {
  client_fd : Z;
  packet : option (list Z);
  client_capacity : Z;
  has_idle : bool }.

(** A zero-copy result: [ref_size] bytes at offset [ref_data] of the
    workspace. *)
Record squid_client_bytes := ClientBytes { ref_data : Z; ref_size : Z }.

(** What the client uses besides the socket calls: the link epoch and the
    caller's idle callback, which may run the engine. *)
Class ClientHost (N : Type) := {
  snet_link_epoch : N -> Z;
  idle_callback : N -> Z * N }.

(** The network and the client object; [None] is a null client pointer. *)
Record client_state (N : Type) := ClientState {
  c_net : N;
  c_client : option squid_client }.
Arguments ClientState {N} _ _.
Arguments c_net {N} _.
Arguments c_client {N} _.

Section client.
Context {N : Type} `{Squid N} `{ClientHost N}.
Abbreviation C := (CT (client_state N)).

Definition on_link {A} (f : N -> A * N) : C A := fun s =>
  let '(a, n) := f (c_net s) in Returns a (ClientState n (c_client s)).
Definition the_client : C (option squid_client) := fun s => Returns (c_client s) s.
Definition link_is_up : C bool := fun s => Returns (snet_link_is_up (c_net s)) s.
Definition link_epoch : C Z := fun s => Returns (snet_link_epoch (c_net s)) s.

(** Reads and writes of the workspace through [client->packet]. *)
Definition workspace : C (list Z) := fun s =>
  match c_client s with
  | Some c => match packet c with Some mem => Returns mem s | None => Undefined end
  | None => Undefined
  end.
Definition set_workspace (mem : list Z) : C unit := fun s =>
  match c_client s with
  | Some c =>
      Returns tt (ClientState (c_net s)
        (Some (SquidClient (client_fd c) (Some mem) (client_capacity c) (has_idle c))))
  | None => Undefined
  end.
Definition get_byte (i : Z) : C Z := let^ mem := workspace in access (rd mem i).
Definition put_byte (i v : Z) : C unit :=
  let^ mem := workspace in let^ mem := access (wr mem i v) in set_workspace mem.

(** *** portable/internal.c *)

Definition squid_client_read_u16 (i : Z) : C Z :=
  let^ mem := workspace in access (read_u16 mem i).
Definition squid_client_read_u32 (i : Z) : C Z :=
  let^ mem := workspace in access (read_u32 mem i).
Definition squid_client_write_u16 (i value : Z) : C unit :=
  do^ put_byte i (u8 value);
  put_byte (i + 1) (u8 (Z.shiftr value 8)).
Definition squid_client_write_u32 (i value : Z) : C unit :=
  do^ put_byte i (u8 value);
  do^ put_byte (i + 1) (u8 (Z.shiftr value 8));
  do^ put_byte (i + 2) (u8 (Z.shiftr value 16));
  put_byte (i + 3) (u8 (Z.shiftr value 24)).

(** The loop over the characters of [text]. *)
Fixpoint text_size_loop (text : list Z) (size maximum : Z) : Z :=
  match text with
  | [] => size
  | _ :: text =>
      let size := u16 (size + 1) in
      if maximum <? size then SQUID_CLIENT_ERROR_ARGUMENT else text_size_loop text size maximum
  end.
Definition squid_client_text_size (text : option (list Z)) (maximum : Z) : Z :=
  match text with
  | None => 0
  | Some text => text_size_loop text 0 maximum
  end.

(** [squid_client_copy(client->packet + i, source, size)]. *)
Fixpoint copy_loop (source : list Z) (index : Z) (todo : nat) (i : Z) : C unit :=
  match todo with
  | O => cret tt
  | S todo =>
      let^ b := access (rd source index) in
      do^ put_byte (i + index) b;
      copy_loop source (index + 1) todo i
  end.
Definition squid_client_copy (i : Z) (source : list Z) (size : Z) : C unit :=
  copy_loop source 0 (Z.to_nat size) i.

(** *** portable/client.c *)

Definition wait_for_progress (epoch : Z) : C Z :=
  let^ client := the_client in
  let^ client := access client in
  let^ cancelled :=
    (if has_idle client then let^ r := on_link idle_callback in cret (negb (r =? 0))
     else cret false) in
  if (cancelled : bool) then cret SQUID_CLIENT_ERROR_CANCELLED
  else
    let^ up := link_is_up in
    let^ now := link_epoch in
    if negb up || negb (now =? epoch) then cret SQUID_CLIENT_ERROR_LINK else cret 0.

(** [receive_bytes] into a local variable or the start of the workspace: the
    result and the bytes stored so far. *)
Fixpoint receive_bytes (fuel : nat) (size epoch : Z) (data : list Z) : C (Z * list Z) :=
  match fuel with
  | O => fun _ => Waiting
  | S fuel =>
      if zlen data <? size then
        let^ client := the_client in
        let^ client := access client in
        let^ '(result, part) := on_link (fun n =>
          let '(r, d, n) := squid_recv (client_fd client) (u16 (size - zlen data)) n in
          ((r, d), n)) in
        if result <? 0 then cret (SQUID_CLIENT_ERROR_IO, data)
        else
          let data := data ++ part in
          if zlen data =? size then cret (0, data)
          else
            let^ wait_result := wait_for_progress epoch in
            if negb (wait_result =? 0) then cret (wait_result, data)
            else receive_bytes fuel size epoch data
      else cret (0, data)
  end.

(** [receive_bytes(client, client->packet, size, epoch)]. *)
Definition receive_into_packet (fuel : nat) (size epoch : Z) : C Z :=
  let^ '(result, data) := receive_bytes fuel size epoch [] in
  let^ mem := workspace in
  let^ mem := access (wr_bytes mem 0 data) in
  do^ set_workspace mem;
  cret result.

(** The loop that drains a response larger than the workspace. *)
Fixpoint drain (fuel : nat) (remaining capacity epoch : Z) : C Z :=
  match fuel with
  | O => fun _ => Waiting
  | S fuel' =>
      if 0 <? remaining then
        let part := if capacity <? remaining then capacity else remaining in
        let^ result := receive_into_packet fuel part epoch in
        if negb (result =? 0) then cret result
        else drain fuel' (u16 (remaining - part)) capacity epoch
      else cret SQUID_CLIENT_ERROR_OVERFLOW
  end.

Definition squid_client_init (socket_fd : Z) (workspace : option (list Z)) (packet_capacity : Z)
    (idle : bool) : C unit := fun s =>
  Returns tt
    match c_client s with
    | None => s
    | Some _ => ClientState (c_net s) (Some (SquidClient socket_fd workspace packet_capacity idle))
    end.

(** The second half of [squid_client_exchange], after the request is sent. *)
Definition receive_response (fuel : nat) (capacity epoch : Z) : C Z :=
  let^ '(result, data) := receive_bytes fuel 1 epoch [] in
  if negb (result =? 0) then cret result
  else
    let^ response_size := access (rd data 0) in
    if response_size =? 0 then cret SQUID_CLIENT_ERROR_PROTOCOL
    else if capacity <? response_size then drain fuel response_size capacity epoch
    else
      let^ result := receive_into_packet fuel response_size epoch in
      cret (if result =? 0 then response_size else result).

Definition squid_client_exchange (fuel : nat) (request_size : Z) : C Z :=
  let^ client := the_client in
  match client with
  | None => cret SQUID_CLIENT_ERROR_ARGUMENT
  | Some client =>
      match packet client with
      | None => cret SQUID_CLIENT_ERROR_ARGUMENT
      | Some _ =>
          if (client_capacity client =? 0) || (SQUID_CLIENT_PACKET_MAX <? client_capacity client)
             || (request_size =? 0) || (client_capacity client <? request_size)
          then cret SQUID_CLIENT_ERROR_ARGUMENT
          else
            let^ up := link_is_up in
            if negb up then cret SQUID_CLIENT_ERROR_LINK
            else
              let^ epoch := link_epoch in
              do^ put_byte 0 (u8 request_size);
              let^ mem := workspace in
              let^ message := access (rd_bytes mem 0 (u16 (request_size + 1))) in
              let^ result := on_link (squid_send (client_fd client) message) in
              if result <? 0 then cret SQUID_CLIENT_ERROR_IO
              else
                receive_response fuel (client_capacity client) epoch
      end
  end.

(** The result and [*response_size]. *)
Definition squid_client_response (fuel : nat) (request_size opcode minimum_size : Z) : C (Z * Z) :=
  let^ size := squid_client_exchange fuel request_size in
  if size <? 0 then cret (size, 0)
  else if size <? 2 then cret (SQUID_CLIENT_ERROR_PROTOCOL, 0)
  else
    let^ b0 := get_byte 0 in
    if negb (b0 =? u8 (Z.lor opcode 128)) then cret (SQUID_CLIENT_ERROR_PROTOCOL, 0)
    else
      let^ b1 := get_byte 1 in
      if negb (b1 =? 0) then cret (b1, 0)
      else if size <? minimum_size then cret (SQUID_CLIENT_ERROR_PROTOCOL, 0)
      else cret (0, size).

(** [client == 0 || client->packet == 0]: the capacity of a usable client. *)
Definition usable_capacity : C (option Z) :=
  let^ client := the_client in
  cret (match client with
        | Some c => match packet c with Some _ => Some (client_capacity c) | None => None end
        | None => None
        end).
End client.
