(* ===== verification/ClientCalls.v ===== *)
(** The typed client calls (lib/client/echo.c, system.c, time.c,
    tcp_proxy.c, filesystem.c).  An output pointer is a [bool], whether it is
    not null; what a successful call stores through it is returned. *)
From stdpp Require Import base numbers list option strings.
From Stdlib Require Import ZArith Lia.
From S2P Require Import Prelude Wire CLib Time Filesystem TcpProxy Runtime Client.

Local Open Scope Z_scope.
Local Open Scope squid_scope.

(** ** Results *)

Record squid_client_time := ClientTime {
  year : Z; month : Z; day : Z; hour : Z; minute : Z; second : Z;
  weekday : Z; daylight_saving : Z; utc_offset_minutes : Z; unix_seconds : Z }.
Record squid_client_tcp_read := ClientTcpRead { read_eof : Z; read_data : squid_client_bytes }.
Record squid_client_fs_stat := ClientFsStat {
  stat_type : Z; stat_mode : Z; stat_size : Z; modification_time : Z }.
(** [next] and [end] are offsets into the workspace, [None] a null pointer. *)
Record squid_client_fs_list := ClientFsList {
  next_cursor : Z; entries_left : Z; page_next : option Z; page_end : option Z }.
Record squid_client_fs_entry := ClientFsEntry {
  entry_type : Z; entry_file_name : squid_client_bytes; entry_size : Z }.
Record squid_client_fs_read := ClientFsRead {
  chunk_offset : Z; chunk_total : Z; chunk_data : squid_client_bytes }.

Section calls.
Context {N : Type} `{Squid N} `{ClientHost N}.
Local Abbreviation C := (CT (client_state N)).

Definition argument_error {A} : C (Z * option A) := cret (SQUID_CLIENT_ERROR_ARGUMENT, None).
Definition protocol_error {A} : C (Z * option A) := cret (SQUID_CLIENT_ERROR_PROTOCOL, None).
Definition call_error {A} (code : Z) : C (Z * option A) := cret (code, None).
Definition success {A} (a : A) : C (Z * option A) := cret (0, Some a).

(** ** Echo and system *)

Definition squid_client_echo (fuel : nat) (data : option (list Z)) (size : Z) (reply : bool)
    : C (Z * option squid_client_bytes) :=
  let^ usable := usable_capacity in
  match usable, data with
  | Some capacity, Some data =>
      if (size =? 0) || negb reply || (capacity <? size) then argument_error
      else
        do^ squid_client_copy 1 data size;
        let^ response_size := squid_client_exchange fuel size in
        if response_size <? 0 then call_error response_size
        else success (ClientBytes 0 (u8 response_size))
  | _, _ => argument_error
  end.

Definition squid_client_system_id (fuel : nat) (reply : bool)
    : C (Z * option squid_client_bytes) :=
  let^ usable := usable_capacity in
  match usable with
  | None => argument_error
  | Some capacity =>
      if negb reply || (capacity <? 2) then argument_error
      else
        do^ put_byte 1 105;
        do^ put_byte 2 100;
        let^ response_size := squid_client_exchange fuel 2 in
        if response_size <? 0 then call_error response_size
        else success (ClientBytes 0 (u8 response_size))
  end.

(** ** Time *)

(** The fields of the reply. *)
Definition read_time_reply : C (Z * option squid_client_time) :=
  let^ y := squid_client_read_u16 2 in
  let^ mo := get_byte 4 in
  let^ d := get_byte 5 in
  let^ h := get_byte 6 in
  let^ mi := get_byte 7 in
  let^ se := get_byte 8 in
  let^ w := get_byte 9 in
  let^ off := squid_client_read_u16 10 in
  let^ unix := squid_client_read_u32 12 in
  success (ClientTime y mo d h mi se (u8 (Z.land w SQUID_TIME_WEEKDAY_MASK))
    (u8 (if Z.land w SQUID_TIME_DST_BIT =? 0 then 0 else 1)) (s16 off) unix).

Definition squid_client_time_get (fuel : nat) (mode : Z) (value : bool)
    : C (Z * option squid_client_time) :=
  let^ usable := usable_capacity in
  match usable with
  | None => argument_error
  | Some capacity =>
      if negb value || (negb (mode =? SQUID_TIME_MODE_UTC) && negb (mode =? SQUID_TIME_MODE_LOCAL))
         || (capacity <? 2) then argument_error
      else
        do^ put_byte 1 SQUID_TIME_OP_GET;
        do^ put_byte 2 mode;
        let^ '(result, size) :=
          squid_client_response fuel 2 SQUID_TIME_OP_GET SQUID_TIME_REPLY_SIZE in
        if negb (result =? 0) then call_error result
        else if negb (size =? SQUID_TIME_REPLY_SIZE) then protocol_error
        else
          read_time_reply
  end.

(** ** TCP proxy *)

Definition squid_client_tcp_connect (fuel : nat) (host : option (list Z)) (port : Z) (family : bool)
    : C (Z * option Z) :=
  let host_size := squid_client_text_size host SQUID_TCP_HOST_MAX in
  let^ usable := usable_capacity in
  match usable with
  | None => argument_error
  | Some capacity =>
      if negb family || (host_size <=? 0) || (port =? 0) then argument_error
      else
        let request_size := u16 (4 + u16 host_size) in
        if capacity <? request_size then argument_error
        else
          do^ put_byte 1 SQUID_TCP_OP_CONNECT;
          do^ squid_client_write_u16 2 port;
          do^ put_byte 4 (u8 host_size);
          let^ host := access host in
          do^ squid_client_copy 5 host (u16 host_size);
          let^ '(result, response_size) :=
            squid_client_response fuel request_size SQUID_TCP_OP_CONNECT 3 in
          if negb (result =? 0) then call_error result
          else
            let^ b2 := get_byte 2 in
            if negb (response_size =? 3)
               || (negb (b2 =? SQUID_TCP_FAMILY_IPV4) && negb (b2 =? SQUID_TCP_FAMILY_IPV6))
            then protocol_error else success b2
  end.

Definition squid_client_tcp_write (fuel : nat) (data : option (list Z)) (size : Z) (written : bool)
    : C (Z * option Z) :=
  let request_size := u16 (2 + size) in
  let^ usable := usable_capacity in
  match usable, data with
  | Some capacity, Some data =>
      if negb written || (size =? 0) || (capacity <? request_size) then argument_error
      else
        do^ put_byte 1 SQUID_TCP_OP_WRITE;
        do^ put_byte 2 size;
        do^ squid_client_copy 3 data size;
        let^ '(result, response_size) :=
          squid_client_response fuel request_size SQUID_TCP_OP_WRITE 3 in
        if negb (result =? 0) then call_error result
        else
          let^ b2 := get_byte 2 in
          if negb (response_size =? 3) || (size <? b2) then protocol_error else success b2
  | _, _ => argument_error
  end.

Definition squid_client_tcp_read_call (fuel : nat) (maximum_wait_ms maximum_bytes : Z) (chunk : bool)
    : C (Z * option squid_client_tcp_read) :=
  let^ usable := usable_capacity in
  match usable with
  | None => argument_error
  | Some capacity =>
      if negb chunk || (SQUID_TCP_READ_WAIT_MAX_MS <? maximum_wait_ms) || (capacity <? 4)
      then argument_error
      else
        do^ put_byte 1 SQUID_TCP_OP_READ;
        do^ squid_client_write_u16 2 maximum_wait_ms;
        do^ put_byte 4 maximum_bytes;
        let^ '(result, response_size) := squid_client_response fuel 4 SQUID_TCP_OP_READ 4 in
        if negb (result =? 0) then call_error result
        else
          let^ data_size := get_byte 3 in
          let^ flags := get_byte 2 in
          if negb (response_size =? 4 + data_size)
             || negb (Z.land flags (u8 (Z.lnot SQUID_TCP_READ_EOF)) =? 0) then protocol_error
          else
            success (ClientTcpRead (u8 (if Z.land flags SQUID_TCP_READ_EOF =? 0 then 0 else 1))
                       (ClientBytes 4 data_size))
  end.

Definition squid_client_tcp_close (fuel : nat) : C (Z * option unit) :=
  let^ usable := usable_capacity in
  match usable with
  | None => argument_error
  | Some capacity =>
      if capacity <? 1 then argument_error
      else
        do^ put_byte 1 SQUID_TCP_OP_CLOSE;
        let^ '(result, response_size) := squid_client_response fuel 1 SQUID_TCP_OP_CLOSE 2 in
        if negb (result =? 0) then call_error result
        else if response_size =? 2 then success tt else protocol_error
  end.

Definition squid_client_tcp_status (fuel : nat) (connected : bool) : C (Z * option Z) :=
  let^ usable := usable_capacity in
  match usable with
  | None => argument_error
  | Some capacity =>
      if negb connected || (capacity <? 1) then argument_error
      else
        do^ put_byte 1 SQUID_TCP_OP_STATUS;
        let^ '(result, response_size) := squid_client_response fuel 1 SQUID_TCP_OP_STATUS 3 in
        if negb (result =? 0) then call_error result
        else
          let^ b2 := get_byte 2 in
          if negb (response_size =? 3) || (1 <? b2) then protocol_error else success b2
  end.

(** ** Filesystem *)

Definition filesystem_path_size (path : option (list Z)) (allow_empty : bool) : Z :=
  let size := squid_client_text_size path SQUID_FS_PATH_MAX in
  if (size <? 0) || (negb allow_empty && (size =? 0)) then SQUID_CLIENT_ERROR_ARGUMENT else size.

(** A path argument as the source of a copy: a null pointer is only read
    when it has characters. *)
Definition path_text (path : option (list Z)) : list Z := default [] path.

Definition filesystem_path_call (fuel : nat) (opcode : Z) (path : option (list Z))
    (allow_empty : bool) (minimum_response_size : Z) : C (Z * Z) :=
  let path_size := filesystem_path_size path allow_empty in
  let^ usable := usable_capacity in
  match usable with
  | None => cret (SQUID_CLIENT_ERROR_ARGUMENT, 0)
  | Some capacity =>
      if path_size <? 0 then cret (SQUID_CLIENT_ERROR_ARGUMENT, 0)
      else
        let request_size := u16 (2 + u16 path_size) in
        if capacity <? request_size then cret (SQUID_CLIENT_ERROR_ARGUMENT, 0)
        else
          do^ put_byte 1 opcode;
          do^ put_byte 2 (u8 path_size);
          do^ squid_client_copy 3 (path_text path) (u16 path_size);
          squid_client_response fuel request_size opcode minimum_response_size
  end.

Definition squid_client_fs_stat_call (fuel : nat) (path : option (list Z)) (value : bool)
    : C (Z * option squid_client_fs_stat) :=
  if negb value then argument_error
  else
    let^ '(result, size) := filesystem_path_call fuel SQUID_FS_OP_STAT path true 13 in
    if negb (result =? 0) then call_error result
    else if negb (size =? 13) then protocol_error
    else
      let^ ty := get_byte 2 in
      let^ mode := squid_client_read_u16 3 in
      let^ sz := squid_client_read_u32 5 in
      let^ mtime := squid_client_read_u32 9 in
      success (ClientFsStat ty mode sz mtime).

Definition squid_client_fs_list_call (fuel : nat) (path : option (list Z)) (cursor : Z) (page : bool)
    : C (Z * option squid_client_fs_list) :=
  let path_size := filesystem_path_size path true in
  let^ usable := usable_capacity in
  match usable with
  | None => argument_error
  | Some capacity =>
      if negb page || (path_size <? 0) then argument_error
      else
        let request_size := u16 (4 + u16 path_size) in
        if capacity <? request_size then argument_error
        else
          do^ put_byte 1 SQUID_FS_OP_LIST;
          do^ squid_client_write_u16 2 cursor;
          do^ put_byte 4 (u8 path_size);
          do^ squid_client_copy 5 (path_text path) (u16 path_size);
          let^ '(result, size) := squid_client_response fuel request_size SQUID_FS_OP_LIST 5 in
          if negb (result =? 0) then call_error result
          else
            let^ nc := squid_client_read_u16 2 in
            let^ count := get_byte 4 in
            success (ClientFsList nc count (Some 5) (Some size))
  end.

(** Equality of pointers into the workspace. *)
Definition same_pointer (p q : option Z) : bool :=
  match p, q with Some p, Some q => p =? q | None, None => true | _, _ => false end.

(** The result, the page and the entry; a null [page] is [None], [entry] says
    whether the pointer is not null. *)
Definition squid_client_fs_list_next (page : option squid_client_fs_list) (entry : bool)
    : C (Z * option squid_client_fs_list * option squid_client_fs_entry) :=
  match page, entry with
  | Some page, true =>
      if entries_left page =? 0 then
        cret (if same_pointer (page_next page) (page_end page) then 0
              else SQUID_CLIENT_ERROR_PROTOCOL, Some page, None)
      else
        match page_next page, page_end page with
        | Some current, Some last =>
            if (last <? current) || (u16 (last - current) <? 6) then
              cret (SQUID_CLIENT_ERROR_PROTOCOL, Some page, None)
            else
              let^ name_size := get_byte (current + 1) in
              if u16 (last - current) <? u16 (6 + name_size) then
                cret (SQUID_CLIENT_ERROR_PROTOCOL, Some page, None)
              else
                let^ ty := get_byte current in
                let^ size := squid_client_read_u32 (current + 2 + name_size) in
                cret (1, Some (ClientFsList (next_cursor page) (u8 (entries_left page - 1))
                                 (Some (current + 6 + name_size)) (Some last)),
                      Some (ClientFsEntry ty (ClientBytes (current + 2) name_size) size))
        | _, _ => cret (SQUID_CLIENT_ERROR_PROTOCOL, Some page, None)
        end
  | _, _ => cret (SQUID_CLIENT_ERROR_ARGUMENT, page, None)
  end.

Definition squid_client_fs_read_call (fuel : nat) (path : option (list Z))
    (offset maximum_bytes : Z) (chunk : bool) : C (Z * option squid_client_fs_read) :=
  let path_size := filesystem_path_size path false in
  let^ usable := usable_capacity in
  match usable with
  | None => argument_error
  | Some capacity =>
      if negb chunk || (path_size <? 0) then argument_error
      else
        let request_size := u16 (7 + u16 path_size) in
        if capacity <? request_size then argument_error
        else
          do^ put_byte 1 SQUID_FS_OP_READ;
          do^ squid_client_write_u32 2 offset;
          do^ put_byte 6 maximum_bytes;
          do^ put_byte 7 (u8 path_size);
          do^ squid_client_copy 8 (path_text path) (u16 path_size);
          let^ '(result, size) := squid_client_response fuel request_size SQUID_FS_OP_READ 11 in
          if negb (result =? 0) then call_error result
          else
            let^ data_size := get_byte 10 in
            if negb (size =? 11 + data_size) then protocol_error
            else
              let^ off := squid_client_read_u32 2 in
              let^ total := squid_client_read_u32 6 in
              success (ClientFsRead off total (ClientBytes 11 data_size))
  end.

Definition squid_client_fs_write (fuel : nat) (path : option (list Z)) (offset flags : Z)
    (data : option (list Z)) (size : Z) (written : bool) : C (Z * option Z) :=
  let path_size := filesystem_path_size path false in
  let^ usable := usable_capacity in
  match usable with
  | None => argument_error
  | Some capacity =>
      if negb written || (path_size <? 0)
         || ((0 <? size) && match data with None => true | Some _ => false end)
      then argument_error
      else
        let request_size := u16 (8 + u16 path_size + size) in
        if capacity <? request_size then argument_error
        else
          do^ put_byte 1 SQUID_FS_OP_WRITE;
          do^ squid_client_write_u32 2 offset;
          do^ put_byte 6 flags;
          do^ put_byte 7 (u8 path_size);
          do^ squid_client_copy 8 (path_text path) (u16 path_size);
          do^ put_byte (8 + path_size) size;
          do^ squid_client_copy (9 + path_size) (path_text data) size;
          let^ '(result, response_size) :=
            squid_client_response fuel request_size SQUID_FS_OP_WRITE 7 in
          if negb (result =? 0) then call_error result
          else
            let^ b6 := get_byte 6 in
            let^ off := squid_client_read_u32 2 in
            if negb (response_size =? 7) || (size <? b6) || negb (off =? offset)
            then protocol_error else success b6
  end.

Definition squid_client_fs_mkdir (fuel : nat) (path : option (list Z)) : C (Z * option unit) :=
  let^ '(result, response_size) := filesystem_path_call fuel SQUID_FS_OP_MKDIR path false 2 in
  if negb (result =? 0) then call_error result
  else if response_size =? 2 then success tt else protocol_error.

Definition squid_client_fs_delete (fuel : nat) (path : option (list Z)) : C (Z * option unit) :=
  let^ '(result, response_size) := filesystem_path_call fuel SQUID_FS_OP_DELETE path false 2 in
  if negb (result =? 0) then call_error result
  else if response_size =? 2 then success tt else protocol_error.

Definition squid_client_fs_rename (fuel : nat) (old_path new_path : option (list Z))
    : C (Z * option unit) :=
  let old_size := filesystem_path_size old_path false in
  let new_size := filesystem_path_size new_path false in
  let^ usable := usable_capacity in
  match usable with
  | None => argument_error
  | Some capacity =>
      if (old_size <? 0) || (new_size <? 0) then argument_error
      else
        let request_size := u16 (3 + u16 old_size + u16 new_size) in
        if capacity <? request_size then argument_error
        else
          do^ put_byte 1 SQUID_FS_OP_RENAME;
          do^ put_byte 2 (u8 old_size);
          do^ squid_client_copy 3 (path_text old_path) (u16 old_size);
          do^ put_byte (3 + old_size) (u8 new_size);
          do^ squid_client_copy (4 + old_size) (path_text new_path) (u16 new_size);
          let^ '(result, response_size) :=
            squid_client_response fuel request_size SQUID_FS_OP_RENAME 2 in
          if negb (result =? 0) then call_error result
          else if response_size =? 2 then success tt else protocol_error
  end.
End calls.
