(* ===== verification/ClientRetro.v ===== *)
(** The client calls of the retrovault service (lib/client/retrovault.c).  As
    in ClientCalls.v an output pointer is a [bool], and what a successful call
    stores through it is returned. *)
From stdpp Require Import base numbers list option strings.
From Stdlib Require Import ZArith Lia.
From S2P Require Import Prelude Wire CLib Vault Runtime Client ClientCalls.

Local Open Scope Z_scope.
Local Open Scope squid_scope.

(** [next] and [end] are offsets into the workspace, [None] a null pointer. *)
Record squid_client_retro_list := RetroList {
  rl_next_cursor : Z; rl_entries_left : Z; rl_next : option Z; rl_end : option Z }.
Record squid_client_retro_entry := RetroEntry {
  re_id : squid_client_bytes; re_name : squid_client_bytes }.
Record squid_client_retro_info := RetroInfo {
  ri_next_cursor : Z; ri_values_left : Z; ri_next : option Z; ri_end : option Z }.
Record squid_client_retro_value := RetroValue {
  rv_type : Z; rv_value : squid_client_bytes }.
Record squid_client_retro_download := RetroDownload {
  rd_offset : Z; rd_total_size : Z; rd_data : squid_client_bytes }.

Section calls.
Context {N : Type} `{Squid N} `{ClientHost N}.
Local Abbreviation C := (CT (client_state N)).

Definition retro_text_size (text : option (list Z)) : Z := squid_client_text_size text 255.

Definition retro_page_response (fuel : nat) (request_size opcode : Z)
    : C (Z * option squid_client_retro_list) :=
  let^ '(result, size) := squid_client_response fuel request_size opcode 5 in
  if negb (result =? 0) then call_error result
  else
    let^ nc := squid_client_read_u16 2 in
    let^ count := get_byte 4 in
    success (RetroList nc count (Some 5) (Some size)).

Definition squid_client_retro_list_call (fuel : nat) (platform model : option (list Z)) (cursor : Z)
    (page : bool) : C (Z * option squid_client_retro_list) :=
  let platform_size := retro_text_size platform in
  let model_size := retro_text_size model in
  let^ usable := usable_capacity in
  match usable with
  | None => argument_error
  | Some capacity =>
      if negb page || (platform_size <? 0) || (model_size <? 0) then argument_error
      else
        let request_size := u16 (4 + u16 platform_size) in
        let request_size :=
          if 0 <? model_size then u16 (request_size + 1 + u16 model_size) else request_size in
        if capacity <? request_size then argument_error
        else
          do^ put_byte 1 RETRO_VAULT_OP_LIST;
          do^ squid_client_write_u16 2 cursor;
          do^ put_byte 4 (u8 platform_size);
          do^ squid_client_copy 5 (path_text platform) (u16 platform_size);
          let position := u16 (4 + u16 platform_size) in
          do^ (if 0 <? model_size then
                 do^ put_byte (1 + position) (u8 model_size);
                 squid_client_copy (1 + u16 (position + 1)) (path_text model) (u16 model_size)
               else cret tt);
          retro_page_response fuel request_size RETRO_VAULT_OP_LIST
  end.

Definition squid_client_retro_search (fuel : nat) (platform model query : option (list Z)) (cursor : Z)
    (page : bool) : C (Z * option squid_client_retro_list) :=
  let platform_size := retro_text_size platform in
  let model_size := retro_text_size model in
  let query_size := retro_text_size query in
  let^ usable := usable_capacity in
  match usable with
  | None => argument_error
  | Some capacity =>
      if negb page || (platform_size <? 0) || (model_size <? 0) || (query_size <? 0) then argument_error
      else
        let request_size := u16 (5 + u16 platform_size + u16 query_size) in
        let request_size :=
          if 0 <? model_size then u16 (request_size + 1 + u16 model_size) else request_size in
        if capacity <? request_size then argument_error
        else
          do^ put_byte 1 RETRO_VAULT_OP_SEARCH;
          do^ squid_client_write_u16 2 cursor;
          do^ put_byte 4 (u8 platform_size);
          do^ squid_client_copy 5 (path_text platform) (u16 platform_size);
          let position := u16 (4 + u16 platform_size) in
          do^ put_byte (1 + position) (u8 query_size);
          let position := u16 (position + 1) in
          do^ squid_client_copy (1 + position) (path_text query) (u16 query_size);
          let position := u16 (position + u16 query_size) in
          do^ (if 0 <? model_size then
                 do^ put_byte (1 + position) (u8 model_size);
                 squid_client_copy (1 + u16 (position + 1)) (path_text model) (u16 model_size)
               else cret tt);
          retro_page_response fuel request_size RETRO_VAULT_OP_SEARCH
  end.

(** The result, the page and the entry; a null [page] is [None], [entry] says
    whether the pointer is not null. *)
Definition squid_client_retro_list_next (page : option squid_client_retro_list) (entry : bool)
    : C (Z * option squid_client_retro_list * option squid_client_retro_entry) :=
  match page, entry with
  | Some page, true =>
      if rl_entries_left page =? 0 then
        cret (if same_pointer (rl_next page) (rl_end page) then 0
              else SQUID_CLIENT_ERROR_PROTOCOL, Some page, None)
      else
        match rl_next page, rl_end page with
        | Some current, Some last =>
            if last <=? current then cret (SQUID_CLIENT_ERROR_PROTOCOL, Some page, None)
            else
              let^ id_size := get_byte current in
              let needed := u16 (2 + id_size) in
              if u16 (last - current) <? needed then
                cret (SQUID_CLIENT_ERROR_PROTOCOL, Some page, None)
              else
                let^ name_size := get_byte (current + 1 + id_size) in
                let needed := u16 (needed + name_size) in
                if u16 (last - current) <? needed then
                  cret (SQUID_CLIENT_ERROR_PROTOCOL, Some page, None)
                else
                  cret (1, Some (RetroList (rl_next_cursor page) (u8 (rl_entries_left page - 1))
                                   (Some (current + needed)) (Some last)),
                        Some (RetroEntry (ClientBytes (current + 1) id_size)
                                (ClientBytes (current + 2 + id_size) name_size)))
        | _, _ => cret (SQUID_CLIENT_ERROR_PROTOCOL, Some page, None)
        end
  | _, _ => cret (SQUID_CLIENT_ERROR_ARGUMENT, page, None)
  end.

Definition squid_client_retro_info_call (fuel : nat) (package_id : option (list Z)) (cursor : Z)
    (page : bool) : C (Z * option squid_client_retro_info) :=
  let id_size := retro_text_size package_id in
  let^ usable := usable_capacity in
  match usable with
  | None => argument_error
  | Some capacity =>
      if negb page || (id_size <=? 0) then argument_error
      else
        let request_size := u16 (4 + u16 id_size) in
        if capacity <? request_size then argument_error
        else
          do^ put_byte 1 RETRO_VAULT_OP_INFO;
          do^ squid_client_write_u16 2 cursor;
          do^ put_byte 4 (u8 id_size);
          do^ squid_client_copy 5 (path_text package_id) (u16 id_size);
          let^ '(result, response_size) :=
            squid_client_response fuel request_size RETRO_VAULT_OP_INFO 5 in
          if negb (result =? 0) then call_error result
          else
            let^ nc := squid_client_read_u16 2 in
            let^ count := get_byte 4 in
            success (RetroInfo nc count (Some 5) (Some response_size))
  end.

Definition squid_client_retro_info_next (page : option squid_client_retro_info) (value : bool)
    : C (Z * option squid_client_retro_info * option squid_client_retro_value) :=
  match page, value with
  | Some page, true =>
      if ri_values_left page =? 0 then
        cret (if same_pointer (ri_next page) (ri_end page) then 0
              else SQUID_CLIENT_ERROR_PROTOCOL, Some page, None)
      else
        match ri_next page, ri_end page with
        | Some current, Some last =>
            if (last <? current) || (u16 (last - current) <? 2) then
              cret (SQUID_CLIENT_ERROR_PROTOCOL, Some page, None)
            else
              let^ value_size := get_byte (current + 1) in
              if u16 (last - current) <? u16 (2 + value_size) then
                cret (SQUID_CLIENT_ERROR_PROTOCOL, Some page, None)
              else
                let^ ty := get_byte current in
                cret (1, Some (RetroInfo (ri_next_cursor page) (u8 (ri_values_left page - 1))
                                 (Some (current + 2 + value_size)) (Some last)),
                      Some (RetroValue ty (ClientBytes (current + 2) value_size)))
        | _, _ => cret (SQUID_CLIENT_ERROR_PROTOCOL, Some page, None)
        end
  | _, _ => cret (SQUID_CLIENT_ERROR_ARGUMENT, page, None)
  end.

Definition squid_client_retro_download_call (fuel : nat) (package_id download_id : option (list Z))
    (offset maximum_bytes : Z) (chunk : bool) : C (Z * option squid_client_retro_download) :=
  let package_size := retro_text_size package_id in
  let download_size := retro_text_size download_id in
  let^ usable := usable_capacity in
  match usable with
  | None => argument_error
  | Some capacity =>
      if negb chunk || (package_size <=? 0) || (download_size <=? 0) then argument_error
      else
        let request_size := u16 (8 + u16 package_size + u16 download_size) in
        if capacity <? request_size then argument_error
        else
          do^ put_byte 1 RETRO_VAULT_OP_DOWNLOAD;
          do^ squid_client_write_u32 2 offset;
          do^ put_byte 6 maximum_bytes;
          do^ put_byte 7 (u8 package_size);
          do^ squid_client_copy 8 (path_text package_id) (u16 package_size);
          let position := u16 (7 + u16 package_size) in
          do^ put_byte (1 + position) (u8 download_size);
          do^ squid_client_copy (1 + u16 (position + 1)) (path_text download_id) (u16 download_size);
          let^ '(result, response_size) :=
            squid_client_response fuel request_size RETRO_VAULT_OP_DOWNLOAD 11 in
          if negb (result =? 0) then call_error result
          else
            let^ data_size := get_byte 10 in
            if negb (response_size =? 11 + data_size) then protocol_error
            else
              let^ off := squid_client_read_u32 2 in
              let^ total := squid_client_read_u32 6 in
              success (RetroDownload off total (ClientBytes 11 data_size))
  end.
End calls.
