(* ===== verification/ClientSafety.v ===== *)
(** The client library is memory safe against any server: whatever the
    socket delivers, no call leaves the caller's workspace. *)
From stdpp Require Import base numbers list option strings.
From Stdlib Require Import ZArith Lia.
From S2P Require Import Prelude Wire CLib Time Filesystem TcpProxy Runtime Client ClientCalls.

Local Open Scope Z_scope.
Local Open Scope squid_scope.

(** ** Reasoning about client code

    [cwp w m Q s]: no undefined behaviour, [Q] when [m] returns; [w] says
    whether it may still be waiting. *)
Definition cwp {S A} (w : Prop) (m : CT S A) (Q : A -> S -> Prop) (s : S) : Prop :=
  match m s with Returns a s' => Q a s' | Waiting => w | Undefined => False end.

Lemma cwp_ret {S A} w (a : A) Q (s : S) : Q a s -> cwp w (cret a) Q s.
Proof. done. Qed.
Lemma cwp_bind {S A B} w (m : CT S A) (k : A -> CT S B) Q s :
  cwp w m (fun a s' => cwp w (k a) Q s') s -> cwp w (cbind m k) Q s.
Proof. unfold cwp, cbind. by destruct (m s). Qed.
Lemma cwp_mono {S A} w (m : CT S A) (P Q : A -> S -> Prop) s :
  cwp w m P s -> (forall a s', P a s' -> Q a s') -> cwp w m Q s.
Proof. unfold cwp. destruct (m s); auto. Qed.
Lemma cwp_access {S A} w (o : option A) a Q (s : S) : o = Some a -> Q a s -> cwp w (access o) Q s.
Proof. by intros ->. Qed.

Lemma cbind_returns {S A B} (m : CT S A) (k : A -> CT S B) s a s' :
  m s = Returns a s' -> cbind m k s = k a s'.
Proof. unfold cbind. by intros ->. Qed.

Section safety.
Context {N : Type} `{Squid N} `{ClientHost N}.
(** The client: its socket, capacity, idle callback and the length of the
    caller's workspace. *)
Context (fd cap : Z) (idle : bool) (L : Z).
Local Abbreviation state := (client_state N).

Definition client_with (mem : list Z) : squid_client := SquidClient fd (Some mem) cap idle.
Definition at_mem (n : N) (mem : list Z) : state := ClientState n (Some (client_with mem)).

(** The workspace holds [req] after its first byte. *)
Definition filled (req : list Z) (n : N) (s : state) : Prop :=
  exists x rest, s = at_mem n (x :: req ++ rest) /\ 1 + zlen req + zlen rest = L.

(** Some workspace of the right length. *)
Definition usable (s : state) : Prop := exists n mem, s = at_mem n mem /\ zlen mem = L.

Lemma filled_nil n mem : zlen mem = L -> 1 <= L -> filled [] n (at_mem n mem).
Proof.
  intros HL H1. destruct mem as [|x rest]; [zlen_lia|]. exists x, rest. split; [done|zlen_lia].
Qed.
Lemma usable_filled s : usable s -> 1 <= L -> exists n, filled [] n s.
Proof. intros (n & mem & -> & HL) H1. exists n. by apply filled_nil. Qed.
Lemma filled_usable req n s : filled req n s -> usable s.
Proof. intros (x & rest & -> & HL). eexists n, _. split; [done|zlen_lia]. Qed.

Lemma cwp_workspace w n mem Q : Q mem (at_mem n mem) -> cwp w workspace Q (at_mem n mem).
Proof. done. Qed.
Lemma cwp_set_workspace w n mem mem' Q :
  Q tt (at_mem n mem') -> cwp w (set_workspace mem') Q (at_mem n mem).
Proof. done. Qed.
Lemma cwp_client w n mem Q :
  Q (Some (client_with mem)) (at_mem n mem) -> cwp w the_client Q (at_mem n mem).
Proof. done. Qed.

Lemma put_byte_eq n mem i v mem' : wr mem i v = Some mem' ->
  put_byte i v (at_mem n mem) = Returns tt (at_mem n mem').
Proof. intros E. unfold put_byte, cbind, workspace, access. cbn. by rewrite E. Qed.

Lemma cwp_put w req n s i v Q : filled req n s -> i = 1 + zlen req -> i < L ->
  (forall s', filled (req ++ [v]) n s' -> Q tt s') -> cwp w (put_byte i v) Q s.
Proof.
  intros (x & rest & -> & HL) -> Hi HQ. destruct rest as [|y rest]; [zlen_lia|].
  unfold cwp. rewrite (put_byte_eq _ _ _ _ (x :: (req ++ [v]) ++ rest)).
  - apply HQ. exists x, rest. split; [done|zlen_lia].
  - rewrite <- app_assoc. change (x :: req ++ y :: rest) with ((x :: req) ++ y :: rest).
    rewrite wr_app by zlen_lia. done.
Qed.

Lemma cwp_write_u16 w req n s i v Q : filled req n s -> i = 1 + zlen req -> i + 1 < L ->
  (forall s', filled (req ++ le16 v) n s' -> Q tt s') -> cwp w (squid_client_write_u16 i v) Q s.
Proof.
  intros Hf -> Hi HQ. apply cwp_bind. eapply cwp_put; [exact Hf|done|lia|].
  intros s1 Hf1. eapply cwp_put; [exact Hf1|zlen_lia|zlen_lia|].
  intros s2 Hf2. apply HQ. rewrite <- app_assoc in Hf2. unfold le16. cbn in Hf2.
  rewrite land_255. change (2 ^ 8) with 256 in Hf2.
  unfold u8 in *. by rewrite Z.mod_mod by lia.
Qed.

Lemma cwp_write_u32 w req n s i v Q : filled req n s -> i = 1 + zlen req -> i + 3 < L ->
  (forall s', filled (req ++ le32 v) n s' -> Q tt s') -> cwp w (squid_client_write_u32 i v) Q s.
Proof.
  intros Hf -> Hi HQ. apply cwp_bind. eapply cwp_put; [exact Hf|done|lia|].
  intros s1 Hf1. apply cwp_bind. eapply cwp_put; [exact Hf1|zlen_lia|zlen_lia|].
  intros s2 Hf2. apply cwp_bind. eapply cwp_put; [exact Hf2|zlen_lia|zlen_lia|].
  intros s3 Hf3. eapply cwp_put; [exact Hf3|zlen_lia|zlen_lia|].
  intros s4 Hf4. apply HQ. rewrite <- !app_assoc in Hf4. unfold le32. cbn in Hf4.
  rewrite land_255. unfold u8 in *. by rewrite Z.mod_mod by lia.
Qed.

Lemma rd_taken mem k i : bytes_ok (take (Z.to_nat k) mem) -> 0 <= i < k -> k <= zlen mem ->
  exists v, rd mem i = Some v /\ is_byte v.
Proof.
  intros Hb Hi Hk. destruct (rd_ok _ i Hb) as (v & Hv & Hr).
  { rewrite zlen_take. lia. }
  exists v. split; [|done]. apply rd_inv in Hv as (_ & Hl & ?).
  apply rd_Some; [lia| |done]. by rewrite lookup_take_lt in Hl by lia.
Qed.

Lemma copy_loop_spec w source n i Q : forall todo index req s,
  filled req n s -> bytes_ok (take (Z.to_nat index + todo) source) ->
  0 <= index -> i + index = 1 + zlen req -> index + Z.of_nat todo <= zlen source -> 1 + zlen req + Z.of_nat todo <= L ->
  (forall s', filled (req ++ take todo (drop (Z.to_nat index) source)) n s' -> Q tt s') ->
  cwp w (copy_loop source index todo i) Q s.
Proof.
  induction todo as [|todo IH]; intros index req s Hf Hb Hi Hpos Hsrc HL HQ; cbn [copy_loop].
  { apply cwp_ret, HQ. by rewrite take_0, app_nil_r. }
  destruct (rd_taken source (index + Z.of_nat (S todo)) index) as (v & Hv & _); [|lia|lia|].
  { by replace (Z.to_nat (index + Z.of_nat (S todo))) with (Z.to_nat index + S todo)%nat by lia. }
  apply cwp_bind. eapply cwp_access; [exact Hv|]. apply cwp_bind.
  eapply cwp_put; [exact Hf|lia|lia|]. intros s' Hf'.
  eapply IH; [exact Hf'| |lia|zlen_lia|lia|zlen_lia|].
  { by replace (Z.to_nat (index + 1) + todo)%nat with (Z.to_nat index + S todo)%nat by lia. }
  intros s2 Hf2. apply HQ. apply rd_inv in Hv as (_ & Hlk & _).
  rewrite <- app_assoc in Hf2. cbn [app] in Hf2.
  rewrite (drop_S source v) by done. cbn [take].
  by replace (S (Z.to_nat index)) with (Z.to_nat (index + 1)) by lia.
Qed.

Lemma cwp_copy w req n s i source size Q : filled req n s -> i = 1 + zlen req ->
  bytes_ok (take (Z.to_nat size) source) -> 0 <= size <= zlen source -> i + size <= L ->
  (forall s', filled (req ++ take (Z.to_nat size) source) n s' -> Q tt s') ->
  cwp w (squid_client_copy i source size) Q s.
Proof.
  intros Hf -> Hb Hs HL HQ. unfold squid_client_copy.
  eapply copy_loop_spec; [exact Hf|done|lia|lia|lia|lia|]. exact HQ.
Qed.

(** ** One exchange *)

Context `{LAWS : !RecvLaw N}.

(** A state that differs only in the network. *)
Definition same_mem (mem : list Z) (s : state) : Prop := exists n, s = at_mem n mem.

Lemma wait_for_progress_safe epoch n mem :
  cwp True (wait_for_progress epoch) (fun r s' =>
    (r = 0 \/ r = -2 \/ r = -6) /\ same_mem mem s') (at_mem n mem).
Proof.
  assert (Hlink : forall n', cwp True (
      let^ up := link_is_up in let^ now := link_epoch in
      if negb up || negb (now =? epoch) then cret SQUID_CLIENT_ERROR_LINK else cret 0)
    (fun r s' => (r = 0 \/ r = -2 \/ r = -6) /\ same_mem mem s') (at_mem n' mem)).
  { intros n'. unfold cwp, cbind, link_is_up, link_epoch. cbn. case_test; (split; [|by eexists]); [right; left|left]; done. }
  unfold wait_for_progress. apply cwp_bind. cbn. apply cwp_bind. cbn. apply cwp_bind.
  destruct idle; [|exact (Hlink n)]. apply cwp_bind. unfold on_link, cwp at 1. cbn [c_net at_mem].
  destruct (idle_callback n) as [r n']. cbn. destruct (negb (r =? 0)); [|exact (Hlink n')].
  split; [by right; right|by eexists].
Qed.

Lemma receive_bytes_safe size epoch mem : forall fuel n data,
  0 <= size <= 255 -> bytes_ok data -> zlen data <= size ->
  cwp True (receive_bytes fuel size epoch data) (fun res s' =>
    same_mem mem s' /\ bytes_ok res.2 /\ zlen res.2 <= size /\
    (res.1 = 0 /\ zlen res.2 = size \/ res.1 = -2 \/ res.1 = -3 \/ res.1 = -6)) (at_mem n mem).
Proof.
  induction fuel as [|fuel IH]; intros n data Hsz Hb Hlen; [done|]. cbn [receive_bytes].
  destruct (Z.ltb_spec (zlen data) size) as [Hlt|Hge].
  2:{ apply cwp_ret. split; [by exists n|]. split_and!; try done. left. split; [done|]. cbn. lia. }
  apply cwp_bind. cbn. apply cwp_bind. cbn. apply cwp_bind. unfold on_link. unfold cwp at 1. cbn.
  pose proof (recv_bytes fd (u16 (size - zlen data)) n ltac:(apply u16_range)) as Hr.
  rewrite u16_small in * by zlen_lia.
  destruct (squid_recv fd (size - zlen data) n) as [[r d] n'].
  destruct (Z.ltb_spec r 0) as [Hneg|Hpos].
  { apply cwp_ret. split; [by exists n'|]. split_and!; try done. by right; right; left. }
  destruct (Hr Hpos) as (Hmax & Hd & Hdb). cbv zeta.
  assert (Hb' : bytes_ok (data ++ d)) by by apply bytes_ok_app.
  destruct (Z.eqb_spec (zlen (data ++ d)) size) as [Heq|Hne].
  { apply cwp_ret. split; [by exists n'|]. split_and!; try done; cbn; lia. }
  assert (Hlen' : zlen (data ++ d) <= size) by zlen_lia.
  apply cwp_bind. eapply cwp_mono; [apply (wait_for_progress_safe epoch n' mem)|].
  intros wr s' (Hwr & n2 & ->). destruct (Z.eqb_spec wr 0) as [->|Hw]; cbn [negb].
  - by apply IH.
  - apply cwp_ret. split; [by exists n2|]. split_and!; try done. cbn; lia.
Qed.

Lemma receive_into_packet_safe fuel size epoch n mem :
  0 <= size <= 255 -> size <= L -> zlen mem = L ->
  cwp True (receive_into_packet fuel size epoch) (fun r s' =>
    exists n' mem', s' = at_mem n' mem' /\ zlen mem' = L /\
      (r = 0 /\ bytes_ok (take (Z.to_nat size) mem') \/ -6 <= r < 0)) (at_mem n mem).
Proof.
  intros Hs HsL HL. unfold receive_into_packet. apply cwp_bind.
  eapply cwp_mono; [apply (receive_bytes_safe size epoch mem fuel n []); [done|constructor|]|].
  { rewrite zlen_nil. lia. }
  intros [r data] s' ((n' & ->) & Hb & Hlen & Hr). cbn [fst snd] in *.
  apply cwp_bind, cwp_workspace, cwp_bind. eapply cwp_access; [apply wr_bytes_at; lia|].
  apply cwp_bind, cwp_set_workspace, cwp_ret. eexists _, _. split; [done|].
  change (Z.to_nat 0) with O. rewrite take_0, drop_0. cbn [app].
  split; [pose proof (zlen_drop (length data) mem); unfold zlen in *; rewrite length_app; lia|].
  destruct Hr as [[-> Hsz]|Hr]; [left|right; lia]. split; [done|].
  rewrite take_app_length' by (unfold zlen in Hsz; lia). done.
Qed.

Lemma drain_safe epoch : forall fuel remaining n mem,
  0 <= remaining <= 255 -> 0 < cap -> cap <= L -> zlen mem = L ->
  cwp True (drain fuel remaining cap epoch) (fun r s' => usable s' /\ -6 <= r < 0) (at_mem n mem).
Proof.
  induction fuel as [|fuel IH]; intros remaining n mem Hr Hc HcL HL; [done|]. cbn [drain].
  destruct (Z.ltb_spec 0 remaining).
  2:{ apply cwp_ret. split; [by eexists _, _|done]. }
  set (part := if cap <? remaining then cap else remaining).
  assert (Hp : 0 < part <= remaining /\ part <= cap).
  { unfold part. destruct (Z.ltb_spec cap remaining); lia. }
  apply cwp_bind. eapply cwp_mono; [apply receive_into_packet_safe; lia|].
  intros r s' (n' & mem' & -> & HL' & Hr').
  destruct (Z.eqb_spec r 0) as [->|Hne]; cbn [negb].
  - apply IH; try done. rewrite u16_small by lia. lia.
  - apply cwp_ret. split; [by eexists _, _|lia].
Qed.

(** How an exchange can end. *)
Definition exchanged (r : Z) (s' : state) : Prop :=
  exists n mem, s' = at_mem n mem /\ zlen mem = L /\
    (-6 <= r < 0 \/ 1 <= r <= 255 /\ r <= L /\ bytes_ok (take (Z.to_nat r) mem)).

Lemma exchanged_error r n mem : -6 <= r < 0 -> zlen mem = L -> exchanged r (at_mem n mem).
Proof. intros Hr Hm. exists n, mem. auto. Qed.

Lemma receive_response_safe fuel epoch n mem :
  0 < cap <= 255 -> cap <= L -> zlen mem = L ->
  cwp True (receive_response fuel cap epoch) exchanged (at_mem n mem).
Proof.
  intros Hc HcL Hmem. unfold receive_response. apply cwp_bind.
  eapply cwp_mono; [apply (receive_bytes_safe 1 epoch mem fuel n []);
    [lia|constructor|rewrite zlen_nil; lia]|].
  intros [r data] s' ((n2 & ->) & Hdb & Hdl & Hr). cbn [fst snd] in *.
  destruct (Z.eqb_spec r 0) as [->|Hne]; cbn [negb]; [|apply cwp_ret, exchanged_error; [lia|done]].
  destruct Hr as [[_ Hd1]|Hr]; [|lia].
  destruct (rd_ok data 0 Hdb ltac:(lia)) as (size & Hsize & Hsr).
  apply cwp_bind. eapply cwp_access; [exact Hsize|].
  destruct (Z.eqb_spec size 0); [by apply cwp_ret, exchanged_error|].
  destruct (Z.ltb_spec cap size).
  - eapply cwp_mono; [apply (drain_safe epoch fuel size n2 mem); lia|].
    intros r s' [(n3 & m3 & -> & Hm3) Hr']. by apply exchanged_error.
  - apply cwp_bind. eapply cwp_mono; [apply (receive_into_packet_safe fuel size _ n2 mem); lia|].
    intros r s' (n3 & m3 & -> & Hm3 & Hr'). apply cwp_ret.
    destruct (Z.eqb_spec r 0) as [->|]; [|apply exchanged_error; [lia|done]].
    exists n3, m3. split_and!; try done. right. destruct Hr' as [[_ ?]|?]; [|lia]. split_and!; try done; lia.
Qed.

(** The message the client sends. *)
Lemma message_bytes x req rest : bytes_ok req -> is_byte x ->
  rd_bytes (x :: req ++ rest) 0 (zlen req + 1) = Some (x :: req).
Proof.
  intros Hb Hx. change (x :: req ++ rest) with ((x :: req) ++ rest).
  assert (Hbs : bytes_ok (x :: req)) by by constructor.
  unfold rd_bytes.
  destruct (Z.leb_spec 0 (zlen req + 1)), (Z.leb_spec (0 + (zlen req + 1)) (zlen ((x :: req) ++ rest)));
    try zlen_lia. cbn [andb Z.leb Z.compare]. rewrite drop_0.
  rewrite take_app_length' by (unfold zlen; cbn; lia). by rewrite bytes_ok_forallb.
Qed.

(** What [squid_client_exchange] does with a request in place: it checks the
    sizes and the link, sends the framed request, and receives. *)
Lemma exchange_eq fuel x req rest n : bytes_ok req ->
  squid_client_exchange fuel (zlen req) (at_mem n (x :: req ++ rest)) =
    if (cap =? 0) || (255 <? cap) || (zlen req =? 0) || (cap <? zlen req)
    then Returns SQUID_CLIENT_ERROR_ARGUMENT (at_mem n (x :: req ++ rest))
    else if negb (snet_link_is_up n)
    then Returns SQUID_CLIENT_ERROR_LINK (at_mem n (x :: req ++ rest))
    else
      let '(sent, n1) := squid_send fd (zlen req :: req) n in
      if sent <? 0 then Returns SQUID_CLIENT_ERROR_IO (at_mem n1 (zlen req :: req ++ rest))
      else receive_response fuel cap (snet_link_epoch n) (at_mem n1 (zlen req :: req ++ rest)).
Proof.
  intros Hb. pose proof (zlen_nonneg req). unfold squid_client_exchange.
  rewrite (cbind_returns _ _ _ (Some (client_with (x :: req ++ rest))) (at_mem n (x :: req ++ rest)))
    by reflexivity.
  cbn [client_with packet client_capacity client_fd]. unfold SQUID_CLIENT_PACKET_MAX.
  destruct ((cap =? 0) || (255 <? cap) || (zlen req =? 0) || (cap <? zlen req)) eqn:Hguard; [done|].
  erewrite cbind_returns by reflexivity. cbn [c_net at_mem].
  destruct (snet_link_is_up n); [|done]. cbn [negb].
  erewrite cbind_returns by reflexivity. cbn [c_net at_mem].
  erewrite cbind_returns by (apply (put_byte_eq n _ 0 _ (u8 (zlen req) :: req ++ rest)); done).
  erewrite cbind_returns by reflexivity. rewrite u16_small, u8_small by lia.
  rewrite message_bytes by (done || unfold is_byte; lia).
  erewrite cbind_returns by reflexivity. unfold cbind, on_link. cbn [c_net at_mem].
  destruct (squid_send fd _ n) as [sent n1]. by destruct (sent <? 0).
Qed.

Lemma exchange_safe fuel req n s :
  filled req n s -> bytes_ok req -> 0 <= cap -> cap + 1 <= L ->
  cwp True (squid_client_exchange fuel (zlen req)) exchanged s.
Proof.
  intros (x & rest & -> & HL) Hb Hc HcL. unfold cwp at 1. rewrite exchange_eq by done.
  pose proof (zlen_nonneg req).
  destruct (_ || _) eqn:Hguard; [apply exchanged_error; [done|zlen_lia]|].
  destruct (snet_link_is_up n); [|apply exchanged_error; [done|zlen_lia]]. cbn [negb].
  destruct (squid_send fd _ n) as [sent n1].
  destruct (sent <? 0); [apply exchanged_error; [done|zlen_lia]|].
  apply (receive_response_safe fuel (snet_link_epoch n) n1 (zlen req :: req ++ rest)); zlen_lia.
Qed.

(** ** Reading the reply *)

Lemma cwp_get_byte w n mem k i Q : bytes_ok (take (Z.to_nat k) mem) -> 0 <= i < k -> k <= zlen mem ->
  (forall v, is_byte v -> Q v (at_mem n mem)) -> cwp w (get_byte i) Q (at_mem n mem).
Proof.
  intros Hb Hi Hk HQ. destruct (rd_taken mem k i Hb Hi Hk) as (v & Hv & Hr).
  apply cwp_bind, cwp_workspace. eapply cwp_access; eauto.
Qed.

Lemma cwp_read_u16 w n mem k i Q : bytes_ok (take (Z.to_nat k) mem) -> 0 <= i -> i + 1 < k ->
  k <= zlen mem -> (forall v, Q v (at_mem n mem)) ->
  cwp w (squid_client_read_u16 i) Q (at_mem n mem).
Proof.
  intros Hb Hi Hik Hk HQ. apply cwp_bind, cwp_workspace.
  destruct (rd_taken mem k i Hb) as (a & Ha & _); [lia..|].
  destruct (rd_taken mem k (i + 1) Hb) as (b & Hb' & _); [lia..|].
  eapply cwp_access; [|apply HQ]. unfold read_u16. by rewrite Ha, Hb'.
Qed.

Lemma cwp_read_u32 w n mem k i Q : bytes_ok (take (Z.to_nat k) mem) -> 0 <= i -> i + 3 < k ->
  k <= zlen mem -> (forall v, Q v (at_mem n mem)) ->
  cwp w (squid_client_read_u32 i) Q (at_mem n mem).
Proof.
  intros Hb Hi Hik Hk HQ. apply cwp_bind, cwp_workspace.
  destruct (rd_taken mem k i Hb) as (a & Ha & _); [lia..|].
  destruct (rd_taken mem k (i + 1) Hb) as (b & Hb' & _); [lia..|].
  destruct (rd_taken mem k (i + 2) Hb) as (c & Hc & _); [lia..|].
  destruct (rd_taken mem k (i + 3) Hb) as (d & Hd & _); [lia..|].
  eapply cwp_access; [|apply HQ]. unfold read_u32. by rewrite Ha, Hb', Hc, Hd.
Qed.

(** How a request/response call can end: a code, and for code 0 a reply of
    at least the minimum size in the workspace. *)
Definition responded (minimum_size : Z) (res : Z * Z) (s' : state) : Prop :=
  exists n mem, s' = at_mem n mem /\ zlen mem = L /\ -6 <= res.1 <= 255 /\
    (res.1 = 0 -> minimum_size <= res.2 <= 255 /\ res.2 <= L /\ bytes_ok (take (Z.to_nat res.2) mem)).

Lemma response_safe fuel req n s opcode minimum_size size :
  filled req n s -> bytes_ok req -> size = zlen req -> 0 <= cap -> cap + 1 <= L -> 0 <= minimum_size ->
  cwp True (squid_client_response fuel size opcode minimum_size) (responded minimum_size) s.
Proof.
  intros Hf Hb -> Hc HcL Hmin. unfold squid_client_response. apply cwp_bind.
  eapply cwp_mono; [by eapply exchange_safe|]. intros r s' (n' & mem & -> & HL & Hr).
  assert (Hcode : forall code sz, -6 <= code <= 255 -> code <> 0 -> responded minimum_size (code, sz) (at_mem n' mem)).
  { intros code sz Hcode Hne. exists n', mem. cbn. split_and!; try done; lia. }
  destruct (Z.ltb_spec r 0); [apply cwp_ret, Hcode; lia|].
  destruct (Z.ltb_spec r 2); [by apply cwp_ret, Hcode|].
  destruct Hr as [?|(Hr & HrL & Hok)]; [lia|].
  apply cwp_bind. eapply (cwp_get_byte _ _ _ r); [done|lia|lia|]. intros b0 Hb0.
  destruct (negb _); [by apply cwp_ret, Hcode|].
  apply cwp_bind. eapply (cwp_get_byte _ _ _ r); [done|lia|lia|]. intros b1 Hb1. unfold is_byte in Hb1.
  destruct (Z.eqb_spec b1 0) as [->|]; cbn [negb]; [|apply cwp_ret, Hcode; lia].
  destruct (Z.ltb_spec r minimum_size); [by apply cwp_ret, Hcode|].
  apply cwp_ret. exists n', mem. cbn. split_and!; try done. intros _. split_and!; done || lia.
Qed.

(** ** The typed calls *)

(** A call is safe: started with a usable client it has no undefined
    behaviour, leaves the client usable, and returns a value exactly when its
    code is 0. *)
Definition call_safe {A} (m : CT state (Z * option A)) : Prop :=
  forall s, usable s ->
    cwp True m (fun res s' => usable s' /\ -6 <= res.1 <= 255 /\ (res.1 = 0 <-> res.2 <> None)) s.

Context (Hcap : 0 <= cap <= 65535) (HL : cap + 1 <= L).

Lemma usable_capacity_eq n mem :
  usable_capacity (at_mem n mem) = Returns (Some cap) (at_mem n mem).
Proof. done. Qed.

Lemma finish_error {A} (code : Z) s : usable s -> -6 <= code <= 255 -> code <> 0 ->
  cwp True (call_error (A := A) code)
    (fun res s' => usable s' /\ -6 <= res.1 <= 255 /\ (res.1 = 0 <-> res.2 <> None)) s.
Proof. intros ? ? ?. apply cwp_ret. cbn. split; [done|]. split; [lia|]. by split. Qed.
Lemma finish_success {A} (a : A) s : usable s ->
  cwp True (success a)
    (fun res s' => usable s' /\ -6 <= res.1 <= 255 /\ (res.1 = 0 <-> res.2 <> None)) s.
Proof. intros ?. apply cwp_ret. cbn. split; [done|]. split; [lia|]. by split. Qed.
Lemma finish_argument {A} s : usable s ->
  cwp True (argument_error (A := A))
    (fun res s' => usable s' /\ -6 <= res.1 <= 255 /\ (res.1 = 0 <-> res.2 <> None)) s.
Proof. intros. by apply (finish_error (-1)). Qed.
Lemma finish_protocol {A} s : usable s ->
  cwp True (protocol_error (A := A))
    (fun res s' => usable s' /\ -6 <= res.1 <= 255 /\ (res.1 = 0 <-> res.2 <> None)) s.
Proof. intros. by apply (finish_error (-4)). Qed.

Lemma at_mem_usable n mem : zlen mem = L -> usable (at_mem n mem).
Proof. intros. by eexists n, mem. Qed.
End safety.

#[export] Hint Resolve at_mem_usable finish_argument finish_protocol finish_success : squid.

(** Runs a prefix of workspace writes. *)
Ltac fill1 :=
  apply cwp_bind;
  match goal with
  | Hf : filled _ _ _ _ _ _ _ |- _ =>
      first [ eapply (cwp_put _ _ _ _ _ _ _ _ _ _ _ Hf)
            | eapply (cwp_write_u16 _ _ _ _ _ _ _ _ _ _ _ Hf)
            | eapply (cwp_write_u32 _ _ _ _ _ _ _ _ _ _ _ Hf)
            | eapply (cwp_copy _ _ _ _ _ _ _ _ _ _ _ _ Hf) ]; clear Hf
  end.
