(* ===== verification/ClientProps.v ===== *)
(** Every typed client call is safe against every server. *)
From stdpp Require Import base numbers list option strings.
From Stdlib Require Import ZArith Lia.
From S2P Require Import Prelude Wire CLib Time Filesystem.
From S2P Require Import TcpProxy Runtime Client ClientCalls ClientRetro ClientSafety.

Local Open Scope Z_scope.
Local Open Scope squid_scope.

(** ** Text arguments *)

Lemma text_size_loop_eq text size maximum :
  0 <= size <= maximum -> maximum <= 255 ->
  text_size_loop text size maximum =
    if maximum <? size + zlen text then SQUID_CLIENT_ERROR_ARGUMENT else size + zlen text.
Proof.
  revert size. induction text as [|c text IH]; intros size Hs Hm; cbn [text_size_loop].
  - rewrite zlen_nil, Z.add_0_r. destruct (Z.ltb_spec maximum size); [lia|done].
  - rewrite u16_small by lia. rewrite zlen_cons, Z.add_assoc. pose proof (zlen_nonneg text).
    destruct (Z.ltb_spec maximum (size + 1)).
    + destruct (Z.ltb_spec maximum (size + 1 + zlen text)); [done|lia].
    + apply IH; lia.
Qed.

Lemma text_size_eq text maximum : 0 <= maximum <= 255 ->
  squid_client_text_size (Some text) maximum =
    if maximum <? zlen text then SQUID_CLIENT_ERROR_ARGUMENT else zlen text.
Proof. intros. cbn. by rewrite text_size_loop_eq by lia. Qed.

(** The size of a usable text is its length. *)
Lemma text_size_inv text maximum n : 0 <= maximum <= 255 ->
  squid_client_text_size text maximum = n -> 0 <= n ->
  n <= maximum /\ n = zlen (default [] text).
Proof.
  intros Hm <- Hn. destruct text as [t|]; [|split; [cbn in *; lia|done]].
  rewrite text_size_eq in * by done.
  by destruct (Z.ltb_spec maximum (zlen t)).
Qed.

Lemma path_size_inv path allow_empty n : filesystem_path_size path allow_empty = n -> 0 <= n ->
  n <= 240 /\ n = zlen (path_text path).
Proof.
  unfold filesystem_path_size. intros E Hn.
  destruct (_ || _); [unfold SQUID_CLIENT_ERROR_ARGUMENT in *; lia|].
  by apply (text_size_inv path 240 n).
Qed.

Lemma retro_size_inv t n : retro_text_size t = n -> 0 <= n -> n <= 255 /\ n = zlen (path_text t).
Proof. intros E Hn. by apply (text_size_inv t 255 n). Qed.

Definition text_ok (t : option (list Z)) : Prop := cstr_ok (default [] t).
Definition data_ok (d : option (list Z)) (size : Z) : Prop :=
  0 <= size <= 255 /\ match d with
    | Some l => bytes_ok (take (Z.to_nat size) l) /\ size <= zlen l
    | None => True
    end.

(** Closes the side conditions of the workspace steps. *)
Ltac wsolve :=
  first [ done
        | by auto with squid
        | unfold is_byte, le16, le32 in *; autorewrite with zlen in *; zlen_nonnegs; lia ].

Lemma bytes_ok_one v : is_byte v -> bytes_ok [v].
Proof. intros. by constructor. Qed.
Ltac bsolve :=
  repeat (apply bytes_ok_app; split);
  first [ by apply bytes_ok_one; unfold is_byte; first [apply u8_range | vm_compute; intuition congruence | lia]
        | by constructor
        | wsolve ].

(** Runs the request/response exchange and keeps the successful case. *)
Ltac respond :=
  apply cwp_bind;
  lazymatch goal with
  | Hf : filled ?fd ?cap ?idle ?L _ _ _ |- _ =>
      eapply cwp_mono;
      [ eapply (response_safe fd cap idle L);
        [exact Hf | bsolve | wsolve | lia | lia | done]
      | ]
  end;
  let n := fresh "n" in let mem := fresh "mem" in
  intros [result size'] ? (n & mem & -> & ?Hmem & ?Hcode & ?Hok); cbn [fst snd] in *;
  destruct (Z.eqb_spec result 0) as [->|?Hne]; cbn [negb];
  [ destruct (Hok eq_refl) as (?Hmin & ?HsL & ?Hbytes)
  | by apply finish_error; [apply at_mem_usable|..] ].

(** Reads of the reply. *)
Ltac read_reply :=
  apply cwp_bind;
  match goal with
  | Hb : bytes_ok (take (Z.to_nat ?k) ?mem) |- _ =>
      first [ eapply (cwp_get_byte _ _ _ _ _ mem k); [exact Hb|lia|lia|]; intros ? ?
            | eapply (cwp_read_u16 _ _ _ _ _ mem k); [exact Hb|lia|lia|lia|]; intros ?
            | eapply (cwp_read_u32 _ _ _ _ _ mem k); [exact Hb|lia|lia|lia|]; intros ? ]
  end.
Ltac finish_call :=
  repeat case_test;
  first [ apply finish_protocol | apply finish_success ]; by apply at_mem_usable.

Section calls.
Context {N : Type} `{Squid N} `{ClientHost N} `{LAWS : !RecvLaw N}.
Context (fd cap : Z) (idle : bool) (L : Z) (Hcap : 0 <= cap <= 65535) (HL : cap + 1 <= L).

Local Abbreviation safe m := (call_safe fd cap idle L m).
Local Abbreviation fl := (filled fd cap idle L).

(** The start of every call: the workspace, and its capacity. *)
Lemma start_call {A} (k : option Z -> CT (client_state N) (Z * option A)) Q s :
  usable fd cap idle L s ->
  (forall n s', fl [] n s' -> usable fd cap idle L s' -> cwp True (k (Some cap)) Q s') ->
  cwp True (cbind usable_capacity k) Q s.
Proof.
  intros Hu Hk. destruct (usable_filled fd cap idle L s Hu ltac:(lia)) as [n Hf].
  destruct Hu as (n' & mem & -> & Hm). apply cwp_bind. unfold cwp at 1.
  rewrite usable_capacity_eq. apply (Hk n); [done|by eexists _, _].
Qed.

Lemma echo_safe fuel data size reply : data_ok data size ->
  safe (squid_client_echo fuel data size reply).
Proof.
  intros [Hs Hd] s Hu. unfold squid_client_echo. apply start_call; [done|]. intros n s1 Hf Hu1.
  destruct data as [data|]; [|by apply finish_argument]. destruct Hd as [Hdb Hdl].
  destruct ((size =? 0) || negb reply || (cap <? size)) eqn:Hg; [by apply finish_argument|].
  fill1; [wsolve..|]. intros s2 Hf. cbn [app] in Hf. apply cwp_bind.
  assert (Hsz : size = zlen (take (Z.to_nat size) data)) by (rewrite zlen_take; lia).
  rewrite Hsz at 1. eapply cwp_mono; [eapply (exchange_safe fd cap idle L); [exact Hf|wsolve|lia|lia]|].
  intros r s3 (n3 & mem & -> & Hm & Hr). destruct (Z.ltb_spec r 0).
  - apply finish_error; [by apply at_mem_usable|lia..].
  - apply finish_success. by apply at_mem_usable.
Qed.

Lemma system_id_safe fuel reply : safe (squid_client_system_id fuel reply).
Proof.
  intros s Hu. unfold squid_client_system_id. apply start_call; [done|]. intros n s1 Hf Hu1.
  destruct (negb reply || (cap <? 2)) eqn:Hg; [by apply finish_argument|].
  fill1; [wsolve..|]. intros s2 Hf. fill1; [wsolve..|]. intros s3 Hf. apply cwp_bind.
  eapply cwp_mono; [eapply (exchange_safe fd cap idle L _ _ _ _ Hf); [bsolve|lia|lia]|].
  intros r s4 (n3 & mem & -> & Hm & Hr). destruct (Z.ltb_spec r 0).
  - apply finish_error; [by apply at_mem_usable|lia..].
  - apply finish_success. by apply at_mem_usable.
Qed.

Lemma time_get_safe fuel mode value : 0 <= mode <= 255 ->
  safe (squid_client_time_get fuel mode value).
Proof.
  intros Hmode s Hu. unfold squid_client_time_get. apply start_call; [done|]. intros n s1 Hf Hu1.
  destruct (negb value || _ || _) eqn:Hg; [by apply finish_argument|].
  fill1; [wsolve..|]. intros s2 Hf. fill1; [wsolve..|]. intros s3 Hf.
  respond. destruct (Z.eqb_spec size' SQUID_TIME_REPLY_SIZE); cbn [negb];
    [|by apply finish_protocol, at_mem_usable].
  change SQUID_TIME_REPLY_SIZE with 16 in *. unfold read_time_reply. repeat read_reply. finish_call.
Qed.

Lemma tcp_connect_safe fuel host port family : text_ok host -> 0 <= port <= 65535 ->
  safe (squid_client_tcp_connect fuel host port family).
Proof.
  intros Ht Hp s Hu. unfold squid_client_tcp_connect.
  apply start_call; [done|]. intros n s1 Hf Hu1.
  destruct (negb family || _ || _) eqn:Hg; [by apply finish_argument|].
  set (hs := squid_client_text_size host SQUID_TCP_HOST_MAX) in *.
  assert (Hpos : 0 < hs) by (clearbody hs; destruct (Z.leb_spec hs 0); [by destruct family|done]).
  destruct (text_size_inv host SQUID_TCP_HOST_MAX hs ltac:(done) eq_refl (Z.lt_le_incl _ _ Hpos)) as [Hmax Hlen].
  change SQUID_TCP_HOST_MAX with 240 in Hmax.
  destruct host as [host|]; [|done]. change (hs = zlen host) in Hlen. change (cstr_ok host) in Ht.
  clearbody hs.
  rewrite !u16_small by (rewrite ?u16_small; lia). rewrite u8_small by lia.
  destruct (Z.ltb_spec cap (4 + hs)); [by apply finish_argument|].
  do 3 (fill1; [wsolve..|]; intros ? Hf). apply cwp_bind.
  eapply cwp_access; [done|]. fill1; [wsolve..|]. intros s5 Hf. respond. read_reply. finish_call.
Qed.

Lemma tcp_write_safe fuel data size written : data_ok data size ->
  safe (squid_client_tcp_write fuel data size written).
Proof.
  intros [Hs Hd] s Hu. unfold squid_client_tcp_write. apply start_call; [done|]. intros n s1 Hf Hu1.
  destruct data as [data|]; [|by apply finish_argument]. destruct Hd as [Hdb Hdl].
  rewrite u16_small by lia.
  destruct (negb written || (size =? 0) || (cap <? 2 + size)) eqn:Hg; [by apply finish_argument|].
  do 3 (fill1; [wsolve..|]; intros ? Hf). respond. read_reply. finish_call.
Qed.

Lemma tcp_read_safe fuel wait maximum chunk : 0 <= wait <= 65535 -> 0 <= maximum <= 255 ->
  safe (squid_client_tcp_read_call fuel wait maximum chunk).
Proof.
  intros Hw Hm s Hu. unfold squid_client_tcp_read_call. apply start_call; [done|]. intros n s1 Hf Hu1.
  destruct (negb chunk || _ || _) eqn:Hg; [by apply finish_argument|].
  do 3 (fill1; [wsolve..|]; intros ? Hf). respond. do 2 read_reply. finish_call.
Qed.

Lemma tcp_close_safe fuel : safe (squid_client_tcp_close fuel).
Proof.
  intros s Hu. unfold squid_client_tcp_close. apply start_call; [done|]. intros n s1 Hf Hu1.
  destruct (cap <? 1) eqn:Hg; [by apply finish_argument|].
  fill1; [wsolve..|]. intros ? Hf. respond. finish_call.
Qed.

Lemma tcp_status_safe fuel connected : safe (squid_client_tcp_status fuel connected).
Proof.
  intros s Hu. unfold squid_client_tcp_status. apply start_call; [done|]. intros n s1 Hf Hu1.
  destruct (negb connected || _) eqn:Hg; [by apply finish_argument|].
  fill1; [wsolve..|]. intros ? Hf. respond. read_reply. finish_call.
Qed.

(** A filesystem call that carries one path. *)
Lemma path_call_safe fuel opcode path allow_empty minimum_size s :
  usable fd cap idle L s -> text_ok path -> is_byte opcode -> 0 <= minimum_size ->
  cwp True (filesystem_path_call fuel opcode path allow_empty minimum_size)
    (responded fd cap idle L minimum_size) s.
Proof.
  intros Hu Ht Hop Hmin. unfold filesystem_path_call.
  destruct (usable_filled fd cap idle L s Hu ltac:(lia)) as [n Hf].
  pose proof Hu as (n' & mem & -> & Hm). apply cwp_bind. unfold cwp at 1. rewrite usable_capacity_eq.
  assert (Herr : responded fd cap idle L minimum_size (SQUID_CLIENT_ERROR_ARGUMENT, 0)
                   (at_mem fd cap idle n' mem)).
  { exists n', mem. split_and!; try done. }
  set (ps := filesystem_path_size path allow_empty).
  destruct (Z.ltb_spec ps 0) as [|Hps]; [done|].
  destruct (path_size_inv path allow_empty ps eq_refl Hps) as [Hmax Hlen].
  clearbody ps.
  rewrite !u16_small by (rewrite ?u16_small; lia). rewrite u8_small by lia.
  destruct (Z.ltb_spec cap (2 + ps)); [done|].
  assert (Hpb : bytes_ok (path_text path)) by (apply cstr_bytes, Ht).
  do 3 (fill1; [wsolve..|]; intros ? Hf).
  eapply (response_safe fd cap idle L); [exact Hf|bsolve|wsolve|lia|lia|lia].
Qed.

Lemma fs_stat_safe fuel path value : text_ok path -> safe (squid_client_fs_stat_call fuel path value).
Proof.
  intros Ht s Hu. unfold squid_client_fs_stat_call.
  destruct value; cbn [negb]; [|by apply finish_argument]. apply cwp_bind.
  eapply cwp_mono; [by apply path_call_safe|].
  intros [result size'] ? (n & mem & -> & Hmem & Hcode & Hok); cbn [fst snd] in *.
  destruct (Z.eqb_spec result 0) as [->|]; cbn [negb];
    [|by apply finish_error; [apply at_mem_usable|..]].
  destruct (Hok eq_refl) as (Hmin & HsL & Hbytes).
  destruct (Z.eqb_spec size' 13); cbn [negb]; [|by apply finish_protocol, at_mem_usable].
  repeat read_reply. finish_call.
Qed.

Lemma fs_unit_call_safe fuel opcode path : text_ok path -> is_byte opcode ->
  safe (let^ '(result, response_size) := filesystem_path_call fuel opcode path false 2 in
        if negb (result =? 0) then call_error result
        else if response_size =? 2 then success tt else protocol_error).
Proof.
  intros Ht Hop s Hu. apply cwp_bind. eapply cwp_mono; [by apply path_call_safe|].
  intros [result size'] ? (n & mem & -> & Hmem & Hcode & Hok); cbn [fst snd] in *.
  destruct (Z.eqb_spec result 0) as [->|]; cbn [negb]; [finish_call|].
  by apply finish_error; [apply at_mem_usable|..].
Qed.

Lemma fs_list_safe fuel path cursor page : text_ok path -> 0 <= cursor <= 65535 ->
  safe (squid_client_fs_list_call fuel path cursor page).
Proof.
  intros Ht Hc s Hu. unfold squid_client_fs_list_call. apply start_call; [done|]. intros n s1 Hf Hu1.
  set (ps := filesystem_path_size path true).
  destruct (negb page || (ps <? 0)) eqn:Hg; [by apply finish_argument|].
  destruct (path_size_inv path true ps eq_refl ltac:(lia)) as [Hmax Hlen].
  clearbody ps.
  rewrite !u16_small by (rewrite ?u16_small; lia). rewrite u8_small by lia.
  destruct (Z.ltb_spec cap (4 + ps)); [by apply finish_argument|].
  assert (Hpb : bytes_ok (path_text path)) by (apply cstr_bytes, Ht).
  do 4 (fill1; [wsolve..|]; intros ? Hf). respond. do 2 read_reply. finish_call.
Qed.

Lemma fs_read_safe fuel path offset maximum chunk : text_ok path -> 0 <= maximum <= 255 ->
  safe (squid_client_fs_read_call fuel path offset maximum chunk).
Proof.
  intros Ht Hm s Hu. unfold squid_client_fs_read_call. apply start_call; [done|]. intros n s1 Hf Hu1.
  set (ps := filesystem_path_size path false).
  destruct (negb chunk || (ps <? 0)) eqn:Hg; [by apply finish_argument|].
  destruct (path_size_inv path false ps eq_refl ltac:(lia)) as [Hmax Hlen].
  clearbody ps.
  rewrite !u16_small by (rewrite ?u16_small; lia). rewrite u8_small by lia.
  destruct (Z.ltb_spec cap (7 + ps)); [by apply finish_argument|].
  assert (Hpb : bytes_ok (path_text path)) by (apply cstr_bytes, Ht).
  do 5 (fill1; [wsolve..|]; intros ? Hf). respond. read_reply.
  case_test; [by apply finish_protocol, at_mem_usable|]. do 2 read_reply. finish_call.
Qed.

Lemma fs_write_safe fuel path offset flags data size written :
  text_ok path -> 0 <= flags <= 255 -> data_ok data size ->
  safe (squid_client_fs_write fuel path offset flags data size written).
Proof.
  intros Ht Hfl [Hs Hd] s Hu. unfold squid_client_fs_write. apply start_call; [done|].
  intros n s1 Hf Hu1. set (ps := filesystem_path_size path false).
  destruct (negb written || (ps <? 0) || _) eqn:Hg; [by apply finish_argument|].
  destruct (path_size_inv path false ps eq_refl ltac:(lia)) as [Hmax Hlen].
  clearbody ps.
  rewrite !u16_small by (rewrite ?u16_small; lia). rewrite u8_small by lia.
  destruct (Z.ltb_spec cap (8 + ps + size)); [by apply finish_argument|].
  assert (Hpb : bytes_ok (path_text path)) by (apply cstr_bytes, Ht).
  assert (Hdd : bytes_ok (take (Z.to_nat size) (path_text data)) /\ size <= zlen (path_text data)).
  { destruct data as [l|]; [done|]. cbn. change (zlen []) with 0. rewrite take_nil.
    split; [constructor|lia]. }
  destruct Hdd as [Hdb Hdl].
  do 7 (fill1; [wsolve..|]; intros ? Hf). respond. do 2 read_reply. finish_call.
Qed.

Lemma fs_rename_safe fuel old_path new_path : text_ok old_path -> text_ok new_path ->
  safe (squid_client_fs_rename fuel old_path new_path).
Proof.
  intros Ht1 Ht2 s Hu. unfold squid_client_fs_rename. apply start_call; [done|]. intros n s1 Hf Hu1.
  set (os := filesystem_path_size old_path false). set (ns := filesystem_path_size new_path false).
  destruct ((os <? 0) || (ns <? 0)) eqn:Hg; [by apply finish_argument|].
  destruct (path_size_inv old_path false os eq_refl ltac:(lia)) as [Hm1 Hl1].
  destruct (path_size_inv new_path false ns eq_refl ltac:(lia)) as [Hm2 Hl2].
  clearbody os ns.
  rewrite !u16_small by (rewrite ?u16_small; lia). rewrite !u8_small by lia.
  destruct (Z.ltb_spec cap (3 + os + ns)); [by apply finish_argument|].
  assert (Hb1 : bytes_ok (path_text old_path)) by (apply cstr_bytes, Ht1).
  assert (Hb2 : bytes_ok (path_text new_path)) by (apply cstr_bytes, Ht2).
  do 5 (fill1; [wsolve..|]; intros ? Hf). respond. finish_call.
Qed.

(** *** Retrovault *)

(** The end of LIST and SEARCH. *)
Lemma retro_page_safe fuel opcode req n s : fl req n s -> bytes_ok req -> is_byte opcode ->
  cwp True (retro_page_response fuel (zlen req) opcode)
    (fun res s' => usable fd cap idle L s' /\ -6 <= res.1 <= 255 /\ (res.1 = 0 <-> res.2 <> None)) s.
Proof. intros Hf Hb Hop. unfold retro_page_response. respond. do 2 read_reply. finish_call. Qed.

(** The optional model at the end of a request. *)
Lemma retro_model_safe model position ms req n s (Q : unit -> client_state N -> Prop) :
  fl req n s -> position = zlen req -> 0 <= ms <= 255 -> ms = zlen (path_text model) -> bytes_ok (path_text model) ->
  position + 2 <= 65535 -> position + (if 0 <? ms then 1 + ms else 0) <= cap ->
  (forall model_bytes s', fl (req ++ model_bytes) n s' -> bytes_ok model_bytes ->
     zlen model_bytes = (if 0 <? ms then 1 + ms else 0) -> Q tt s') ->
  cwp True (if 0 <? ms then
              do^ put_byte (1 + position) (u8 ms);
              squid_client_copy (1 + u16 (position + 1)) (path_text model) ms
            else cret tt) Q s.
Proof.
  intros Hf -> Hms Hlen Hb Hpos Hroom HQ. destruct (Z.ltb_spec 0 ms).
  - rewrite (u8_small ms), u16_small by (pose proof (zlen_nonneg req); lia). fill1; [wsolve..|]. intros s1 Hf.
    eapply (cwp_copy _ _ _ _ _ _ _ _ _ _ _ _ Hf); [wsolve..|]. intros s2 Hf2. rewrite <- app_assoc in Hf2.
    eapply HQ; [exact Hf2|bsolve|]. autorewrite with zlen. lia.
  - apply cwp_ret, (HQ []); [by rewrite app_nil_r|constructor|done].
Qed.

Lemma retro_list_safe fuel platform model cursor page :
  text_ok platform -> text_ok model -> 0 <= cursor <= 65535 ->
  safe (squid_client_retro_list_call fuel platform model cursor page).
Proof.
  intros Hp Hm Hc s Hu. unfold squid_client_retro_list_call. apply start_call; [done|]. intros n s1 Hf Hu1.
  set (ps := retro_text_size platform). set (ms := retro_text_size model).
  destruct (negb page || (ps <? 0) || (ms <? 0)) eqn:Hg; [by apply finish_argument|].
  destruct (retro_size_inv platform ps eq_refl ltac:(lia)) as [Hm1 Hl1].
  destruct (retro_size_inv model ms eq_refl ltac:(lia)) as [Hm2 Hl2].
  clearbody ps ms. assert (0 <= ps /\ 0 <= ms) as [??] by lia.
  rewrite (u16_small ps), (u16_small ms), (u16_small (4 + ps)), (u16_small (4 + ps + 1 + ms)), (u8_small ps) by lia.
  assert (Hb1 : bytes_ok (path_text platform)) by (apply cstr_bytes, Hp).
  assert (Hb2 : bytes_ok (path_text model)) by (apply cstr_bytes, Hm).
  cbv zeta. destruct (Z.ltb_spec cap (if 0 <? ms then 4 + ps + 1 + ms else 4 + ps)); [by apply finish_argument|].
  assert (Hroom : 4 + ps + (if 0 <? ms then 1 + ms else 0) <= cap) by (destruct (0 <? ms); lia).
  assert (4 + ps <= cap) by (destruct (Z.ltb_spec 0 ms); lia).
  do 4 (fill1; [wsolve..|]; intros ? Hf). apply cwp_bind.
  eapply retro_model_safe; [exact Hf|wsolve|done|done|done|lia|done|]. intros model_bytes s6 Hf6 Hmb Hml.
  match type of Hf6 with fl ?r _ _ => assert (Hsize : (if 0 <? ms then 4 + ps + 1 + ms else 4 + ps) = zlen r) end.
  { unfold le16. autorewrite with zlen. rewrite Hml. destruct (0 <? ms); lia. }
  rewrite Hsize. apply (retro_page_safe fuel _ _ n); [exact Hf6|bsolve|done].
Qed.
Lemma retro_search_safe fuel platform model query cursor page :
  text_ok platform -> text_ok model -> text_ok query -> 0 <= cursor <= 65535 ->
  safe (squid_client_retro_search fuel platform model query cursor page).
Proof.
  intros Hp Hm Hq Hc s Hu. unfold squid_client_retro_search. apply start_call; [done|]. intros n s1 Hf Hu1.
  set (ps := retro_text_size platform). set (ms := retro_text_size model). set (qs := retro_text_size query).
  destruct (negb page || (ps <? 0) || (ms <? 0) || (qs <? 0)) eqn:Hg; [by apply finish_argument|].
  destruct (retro_size_inv platform ps eq_refl ltac:(lia)) as [Hm1 Hl1].
  destruct (retro_size_inv model ms eq_refl ltac:(lia)) as [Hm2 Hl2].
  destruct (retro_size_inv query qs eq_refl ltac:(lia)) as [Hm3 Hl3].
  clearbody ps ms qs. assert (0 <= ps /\ 0 <= ms /\ 0 <= qs) as (?&?&?) by lia.
  rewrite (u16_small ps), (u16_small ms), (u16_small qs), (u16_small (5 + ps + qs)),
    (u16_small (5 + ps + qs + 1 + ms)), (u16_small (4 + ps)), (u16_small (4 + ps + 1)),
    (u16_small (4 + ps + 1 + qs)), (u8_small ps), (u8_small qs) by lia.
  assert (Hb1 : bytes_ok (path_text platform)) by (apply cstr_bytes, Hp).
  assert (Hb2 : bytes_ok (path_text model)) by (apply cstr_bytes, Hm).
  assert (Hb3 : bytes_ok (path_text query)) by (apply cstr_bytes, Hq).
  cbv zeta. destruct (Z.ltb_spec cap (if 0 <? ms then 5 + ps + qs + 1 + ms else 5 + ps + qs)); [by apply finish_argument|].
  assert (Hroom : 4 + ps + 1 + qs + (if 0 <? ms then 1 + ms else 0) <= cap) by (destruct (0 <? ms); lia).
  assert (5 + ps + qs <= cap) by (destruct (Z.ltb_spec 0 ms); lia).
  do 6 (fill1; [wsolve..|]; intros ? Hf). apply cwp_bind.
  eapply retro_model_safe; [exact Hf|wsolve|done|done|done|lia|done|]. intros model_bytes s8 Hf8 Hmb Hml.
  match type of Hf8 with fl ?r _ _ =>
    assert (Hsize : (if 0 <? ms then 5 + ps + qs + 1 + ms else 5 + ps + qs) = zlen r) end.
  { unfold le16. autorewrite with zlen. rewrite Hml. destruct (0 <? ms); lia. }
  rewrite Hsize. apply (retro_page_safe fuel _ _ n); [exact Hf8|bsolve|done].
Qed.

Lemma retro_info_safe fuel package_id cursor page : text_ok package_id -> 0 <= cursor <= 65535 ->
  safe (squid_client_retro_info_call fuel package_id cursor page).
Proof.
  intros Ht Hc s Hu. unfold squid_client_retro_info_call. apply start_call; [done|]. intros n s1 Hf Hu1.
  set (ids := retro_text_size package_id).
  destruct (negb page || (ids <=? 0)) eqn:Hg; [by apply finish_argument|].
  destruct (retro_size_inv package_id ids eq_refl ltac:(lia)) as [Hmax Hlen].
  clearbody ids.
  rewrite !u16_small by (rewrite ?u16_small; lia). rewrite u8_small by lia.
  destruct (Z.ltb_spec cap (4 + ids)); [by apply finish_argument|].
  assert (Hpb : bytes_ok (path_text package_id)) by (apply cstr_bytes, Ht).
  do 4 (fill1; [wsolve..|]; intros ? Hf). respond. do 2 read_reply. finish_call.
Qed.

Lemma retro_download_safe fuel package_id download_id offset maximum chunk :
  text_ok package_id -> text_ok download_id -> 0 <= maximum <= 255 ->
  safe (squid_client_retro_download_call fuel package_id download_id offset maximum chunk).
Proof.
  intros Ht1 Ht2 Hm s Hu. unfold squid_client_retro_download_call. apply start_call; [done|]. intros n s1 Hf Hu1.
  set (ps := retro_text_size package_id). set (ds := retro_text_size download_id).
  destruct (negb chunk || (ps <=? 0) || (ds <=? 0)) eqn:Hg; [by apply finish_argument|].
  destruct (retro_size_inv package_id ps eq_refl ltac:(lia)) as [Hm1 Hl1].
  destruct (retro_size_inv download_id ds eq_refl ltac:(lia)) as [Hm2 Hl2].
  clearbody ps ds. assert (0 < ps /\ 0 < ds) as [??] by lia.
  rewrite (u16_small ps), (u16_small ds), (u16_small (8 + ps + ds)), (u16_small (7 + ps)), (u16_small (7 + ps + 1)),
    (u8_small ps), (u8_small ds) by lia.
  cbv zeta. destruct (Z.ltb_spec cap (8 + ps + ds)); [by apply finish_argument|].
  assert (Hb1 : bytes_ok (path_text package_id)) by (apply cstr_bytes, Ht1).
  assert (Hb2 : bytes_ok (path_text download_id)) by (apply cstr_bytes, Ht2).
  do 7 (fill1; [wsolve..|]; intros ? Hf). respond. read_reply.
  case_test; [by apply finish_protocol, at_mem_usable|]. do 2 read_reply. finish_call.
Qed.
End calls.

(** ** All calls *)

Inductive typed_call :=
  | do_echo (data : option (list Z)) (size : Z) (reply : bool)
  | do_system_id (reply : bool)
  | do_time_get (mode : Z) (value : bool)
  | do_tcp_connect (host : option (list Z)) (port : Z) (family : bool)
  | do_tcp_write (data : option (list Z)) (size : Z) (written : bool)
  | do_tcp_read (wait maximum : Z) (chunk : bool)
  | do_tcp_close
  | do_tcp_status (connected : bool)
  | do_fs_stat (path : option (list Z)) (value : bool)
  | do_fs_list (path : option (list Z)) (cursor : Z) (page : bool)
  | do_fs_read (path : option (list Z)) (offset maximum : Z) (chunk : bool)
  | do_fs_write (path : option (list Z)) (offset flags : Z) (data : option (list Z)) (size : Z)
      (written : bool)
  | do_fs_mkdir (path : option (list Z))
  | do_fs_delete (path : option (list Z))
  | do_fs_rename (old_path new_path : option (list Z))
  | do_retro_list (platform model : option (list Z)) (cursor : Z) (page : bool)
  | do_retro_search (platform model query : option (list Z)) (cursor : Z) (page : bool)
  | do_retro_info (package_id : option (list Z)) (cursor : Z) (page : bool)
  | do_retro_download (package_id download_id : option (list Z)) (offset maximum : Z) (chunk : bool).

(** The arguments have their C types, and a buffer holds the size it is
    passed with. *)
Definition typed_call_ok (call : typed_call) : Prop :=
  match call with
  | do_echo data size _ | do_tcp_write data size _ => data_ok data size
  | do_time_get mode _ => 0 <= mode <= 255
  | do_tcp_connect host port _ => text_ok host /\ 0 <= port <= 65535
  | do_tcp_read wait maximum _ => 0 <= wait <= 65535 /\ 0 <= maximum <= 255
  | do_fs_stat path _ | do_fs_mkdir path | do_fs_delete path => text_ok path
  | do_fs_list path cursor _ => text_ok path /\ 0 <= cursor <= 65535
  | do_fs_read path _ maximum _ => text_ok path /\ 0 <= maximum <= 255
  | do_fs_write path _ flags data size _ => text_ok path /\ 0 <= flags <= 255 /\ data_ok data size
  | do_fs_rename old_path new_path => text_ok old_path /\ text_ok new_path
  | do_retro_list platform model cursor _ => text_ok platform /\ text_ok model /\ 0 <= cursor <= 65535
  | do_retro_search platform model query cursor _ =>
      text_ok platform /\ text_ok model /\ text_ok query /\ 0 <= cursor <= 65535
  | do_retro_info package_id cursor _ => text_ok package_id /\ 0 <= cursor <= 65535
  | do_retro_download package_id download_id _ maximum _ =>
      text_ok package_id /\ text_ok download_id /\ 0 <= maximum <= 255
  | _ => True
  end.

Section all_calls.
Context {N : Type} `{Squid N} `{ClientHost N}.

(** The code, and whether a value was stored. *)
Definition outcome_of {A} (m : CT (client_state N) (Z * option A))
    : CT (client_state N) (Z * bool) :=
  let^ '(code, v) := m in cret (code, match v with Some _ => true | None => false end).

Definition run_typed_call (fuel : nat) (call : typed_call) : CT (client_state N) (Z * bool) :=
  match call with
  | do_echo data size reply => outcome_of (squid_client_echo fuel data size reply)
  | do_system_id reply => outcome_of (squid_client_system_id fuel reply)
  | do_time_get mode value => outcome_of (squid_client_time_get fuel mode value)
  | do_tcp_connect host port family =>
      outcome_of (squid_client_tcp_connect fuel host port family)
  | do_tcp_write data size written => outcome_of (squid_client_tcp_write fuel data size written)
  | do_tcp_read wait maximum chunk =>
      outcome_of (squid_client_tcp_read_call fuel wait maximum chunk)
  | do_tcp_close => outcome_of (squid_client_tcp_close fuel)
  | do_tcp_status connected => outcome_of (squid_client_tcp_status fuel connected)
  | do_fs_stat path value => outcome_of (squid_client_fs_stat_call fuel path value)
  | do_fs_list path cursor page => outcome_of (squid_client_fs_list_call fuel path cursor page)
  | do_fs_read path offset maximum chunk =>
      outcome_of (squid_client_fs_read_call fuel path offset maximum chunk)
  | do_fs_write path offset flags data size written =>
      outcome_of (squid_client_fs_write fuel path offset flags data size written)
  | do_fs_mkdir path => outcome_of (squid_client_fs_mkdir fuel path)
  | do_fs_delete path => outcome_of (squid_client_fs_delete fuel path)
  | do_fs_rename old_path new_path => outcome_of (squid_client_fs_rename fuel old_path new_path)
  | do_retro_list platform model cursor page =>
      outcome_of (squid_client_retro_list_call fuel platform model cursor page)
  | do_retro_search platform model query cursor page =>
      outcome_of (squid_client_retro_search fuel platform model query cursor page)
  | do_retro_info package_id cursor page =>
      outcome_of (squid_client_retro_info_call fuel package_id cursor page)
  | do_retro_download package_id download_id offset maximum chunk =>
      outcome_of (squid_client_retro_download_call fuel package_id download_id offset maximum chunk)
  end.

Lemma outcome_safe {A} fd cap idle L (m : CT (client_state N) (Z * option A)) s :
  call_safe fd cap idle L m -> usable fd cap idle L s ->
  cwp True (outcome_of m) (fun res s' =>
    usable fd cap idle L s' /\ -6 <= res.1 <= 255 /\ (res.1 = 0 <-> res.2 = true)) s.
Proof.
  intros Hm Hu. apply cwp_bind. eapply cwp_mono; [by apply Hm|].
  intros [code [v|]] s' (Hu' & Hc & Hv); apply cwp_ret; (split; [done|]); (split; [done|]); cbn in *.
  - by rewrite Hv.
  - split; [intros Hz; by apply Hv in Hz|done].
Qed.

(** C9. The client library is memory safe against any server: whatever bytes
    the socket delivers, in whatever pieces, and whatever the engine and the
    idle callback do, no typed call reads or writes outside the caller's
    workspace of capacity + 1 bytes or reads a byte of it that was never
    written; when the call returns the client is as usable as before, its code
    is a client error, a status byte of the server or 0, and it delivers a
    value exactly with code 0. *)
Theorem client_calls_safe `{LAWS : !RecvLaw N}
    fd cap idle L fuel call s :
  0 <= cap <= 65535 -> cap + 1 <= L -> usable fd cap idle L s -> typed_call_ok call ->
  match run_typed_call fuel call s with
  | Returns (code, delivered) s' =>
      usable fd cap idle L s' /\ -6 <= code <= 255 /\ (code = 0 <-> delivered = true)
  | Waiting => True
  | Undefined => False
  end.
Proof.
  intros Hcap HL Hu Hok.
  assert (Hw : cwp True (run_typed_call fuel call) (fun res s' =>
    usable fd cap idle L s' /\ -6 <= res.1 <= 255 /\ (res.1 = 0 <-> res.2 = true)) s).
  { destruct call; cbn [run_typed_call typed_call_ok] in *; apply outcome_safe; try done; destruct_and?.
    - by apply echo_safe.
    - by apply system_id_safe.
    - by apply time_get_safe.
    - by apply tcp_connect_safe.
    - by apply tcp_write_safe.
    - by apply tcp_read_safe.
    - by apply tcp_close_safe.
    - by apply tcp_status_safe.
    - by apply fs_stat_safe.
    - by apply fs_list_safe.
    - by apply fs_read_safe.
    - by apply fs_write_safe.
    - by apply fs_unit_call_safe.
    - by apply fs_unit_call_safe.
    - by apply fs_rename_safe.
    - by apply retro_list_safe.
    - by apply retro_search_safe.
    - by apply retro_info_safe.
    - by apply retro_download_safe. }
  unfold cwp in Hw. destruct (run_typed_call fuel call s) as [[code v] s'| |]; done.
Qed.
End all_calls.
