(* ===== verification/ClientLink.v ===== *)
(** A client and a server over a working link: an exchange returns, delivers
    the server's reply, and leaves the byte stream in step; and the round
    trips of the echo and time services. *)
From stdpp Require Import base numbers list option strings.
From Stdlib Require Import ZArith Lia.
From S2P Require Import Prelude Wire CLib Time PluginApi.
From S2P Require Import Filesystem TcpProxy Runtime Client ClientCalls ClientSafety.

Local Open Scope Z_scope.
Local Open Scope squid_scope.

(** ** Calls that return

    [ends m s a s']: with enough fuel, [m] started in [s] returns [a] in
    [s']. *)
Definition ends {S A} (m : nat -> CT S A) (s : S) (a : A) (s' : S) : Prop :=
  exists fuel0, forall fuel, (fuel0 <= fuel)%nat -> m fuel s = Returns a s'.

Lemma ends_now {S A} (m : nat -> CT S A) s a s' :
  (forall fuel, m fuel s = Returns a s') -> ends m s a s'.
Proof. intros Hm. exists O. auto. Qed.

Lemma ends_bind {S A B} (m : nat -> CT S A) (k : A -> nat -> CT S B) s a s1 b s2 :
  ends m s a s1 -> ends (k a) s1 b s2 ->
  ends (fun fuel => cbind (m fuel) (fun x => k x fuel)) s b s2.
Proof.
  intros [f1 H1] [f2 H2]. exists (Nat.max f1 f2). intros fuel Hf.
  unfold cbind. rewrite H1 by lia. apply H2. lia.
Qed.

Lemma ends_step {S A} (m m' : nat -> CT S A) s s1 a s2 :
  (forall fuel, m (Datatypes.S fuel) s = m' fuel s1) -> ends m' s1 a s2 -> ends m s a s2.
Proof.
  intros Hm [f1 H1]. exists (Datatypes.S f1). intros [|fuel] Hf; [lia|]. rewrite Hm. apply H1. lia.
Qed.

(** ** A working link

    [inbox n]: the bytes the server has sent and the client has not received;
    [peer n]: the server's state; [waits n] bounds how often a receive finds
    nothing although bytes are on their way, counted with the idle callback when
    there is one.  [reply] is what the server
    answers to a request. *)
Class LinkLaws {N S : Type} `{Squid N} `{ClientHost N} (idle : bool) (fd : Z) (up : N -> Prop)
    (inbox : N -> list Z) (peer : N -> S) (waits : N -> nat)
    (reply : list Z -> S -> option (list Z) * S) : Prop := {
  link_up : forall n, up n -> snet_link_is_up n = true;
  link_recv : forall n max, up n -> 0 < max ->
    let '(r, d, n') := squid_recv fd max n in
    up n' /\ snet_link_epoch n' = snet_link_epoch n /\ peer n' = peer n /\
    0 <= r <= max /\ zlen d = r /\ inbox n = d ++ inbox n' /\
    (inbox n <> [] -> r = 0 ->
       (waits (if idle then (idle_callback n').2 else n') < waits n)%nat);
  link_idle : forall n, up n ->
    let '(r, n') := idle_callback n in
    r = 0 /\ up n' /\ snet_link_epoch n' = snet_link_epoch n /\ peer n' = peer n /\
    inbox n' = inbox n;
  link_send : forall n request, up n -> inbox n = [] -> bytes_ok request ->
    1 <= zlen request <= 255 ->
    let '(r, n') := squid_send fd (zlen request :: request) n in
    0 <= r /\ up n' /\ snet_link_epoch n' = snet_link_epoch n /\
    let '(response, s') := reply request (peer n) in
    peer n' = s' /\
    inbox n' = match response with Some resp => zlen resp :: resp | None => [] end }.

Section link.
Context {N S : Type} `{Squid N} `{ClientHost N} (fd cap : Z) (idle : bool) (up : N -> Prop)
  (inbox : N -> list Z) (peer : N -> S) (waits : N -> nat)
  (reply : list Z -> S -> option (list Z) * S)
  `{LINK : !LinkLaws idle fd up inbox peer waits reply}.
Local Abbreviation at_mem := (at_mem fd cap idle).

(** The link stays as it is but for the bytes received. *)
Record goes_on (n n' : N) : Prop := {
  go_up : up n';
  go_epoch : snet_link_epoch n' = snet_link_epoch n;
  go_peer : peer n' = peer n }.

Lemma goes_on_trans n1 n2 n3 : goes_on n1 n2 -> goes_on n2 n3 -> goes_on n1 n3.
Proof. intros [? E1 P1] [? E2 P2]. split; [done|congruence..]. Qed.

(** The network after a wait. *)
Definition waited (n : N) : N := if idle then (idle_callback n).2 else n.

Lemma wait_for_progress_ok n mem : up n ->
  wait_for_progress (snet_link_epoch n) (at_mem n mem) = Returns 0 (at_mem (waited n) mem) /\
    goes_on n (waited n) /\ inbox (waited n) = inbox n.
Proof.
  intros Hup. unfold wait_for_progress, cbind, the_client, access, link_is_up, link_epoch, waited. cbn.
  destruct idle.
  - pose proof (link_idle n Hup) as Hi. unfold on_link. cbn.
    destruct (idle_callback n) as [r n']. destruct Hi as (-> & Hup' & He & Hp & Hin). cbn.
    rewrite (link_up n' Hup'), He, Z.eqb_refl. by split_and!; [|split|].
  - cbn. rewrite (link_up n Hup), Z.eqb_refl. by split_and!; [|split|].
Qed.

(** One turn of [receive_bytes]: some bytes [d] arrive, and the loop is done
    or goes on. *)
Lemma receive_turn size mem n data : up n -> zlen data < size <= 255 -> inbox n <> [] ->
  exists d n', goes_on n n' /\ inbox n = d ++ inbox n' /\ zlen d <= size - zlen data /\
    (zlen d = 0 -> (waits n' < waits n)%nat) /\
    forall fuel, receive_bytes (Datatypes.S fuel) size (snet_link_epoch n) data (at_mem n mem) =
      if zlen (data ++ d) =? size then Returns (0, data ++ d) (at_mem n' mem)
      else receive_bytes fuel size (snet_link_epoch n') (data ++ d) (at_mem n' mem).
Proof.
  intros Hup Hsize Hne. pose proof (zlen_nonneg data).
  pose proof (link_recv n (size - zlen data) Hup ltac:(lia)) as Hr.
  destruct (squid_recv fd (size - zlen data) n) as [[r d] n1] eqn:Erecv.
  destruct Hr as (Hup1 & He1 & Hp1 & Hrange & Hd & Hinbox & Hprogress).
  destruct (wait_for_progress_ok n1 mem Hup1) as (Hwp & Hgo2 & Hin2).
  assert (Hgo1 : goes_on n n1) by by split.
  assert (Hstep : forall fuel, receive_bytes (Datatypes.S fuel) size (snet_link_epoch n) data (at_mem n mem) =
    (if zlen (data ++ d) =? size then cret (0, data ++ d)
     else let^ wait_result := wait_for_progress (snet_link_epoch n) in
          if negb (wait_result =? 0) then cret (wait_result, data ++ d)
          else receive_bytes fuel size (snet_link_epoch n) (data ++ d)) (at_mem n1 mem)).
  { intros fuel. cbn [receive_bytes]. destruct (Z.ltb_spec (zlen data) size); [|lia].
    unfold cbind at 1 2 3, the_client, access, on_link. cbn. rewrite u16_small, Erecv by lia.
    by destruct (Z.ltb_spec r 0); [lia|]. }
  destruct (Z.eqb_spec (zlen (data ++ d)) size) as [Hfull|Hmore].
  - exists d, n1. split_and!; try done; [lia|rewrite zlen_app in Hfull; lia|].
    intros fuel. rewrite Hstep. by destruct (Z.eqb_spec (zlen (data ++ d)) size).
  - exists d, (waited n1). rewrite Hin2. split_and!; [by eapply goes_on_trans|done|lia| |].
    + intros ?. by apply Hprogress; [|lia].
    + intros fuel. rewrite Hstep. destruct (Z.eqb_spec (zlen (data ++ d)) size); [done|].
      unfold cbind. rewrite <- He1, Hwp. cbn [Z.eqb negb]. by rewrite (go_epoch _ _ Hgo2).
Qed.

(** [receive_bytes] returns once the bytes are on their way. *)
Lemma receive_bytes_ends size mem : 0 <= size <= 255 ->
  forall todo waiting n data, up n -> (Z.to_nat (size - zlen data) <= todo)%nat ->
  (waits n <= waiting)%nat -> zlen data <= size -> size - zlen data <= zlen (inbox n) ->
  exists n', ends (fun fuel => receive_bytes fuel size (snet_link_epoch n) data)
      (at_mem n mem) (0, data ++ take (Z.to_nat (size - zlen data)) (inbox n)) (at_mem n' mem) /\
    goes_on n n' /\ inbox n' = drop (Z.to_nat (size - zlen data)) (inbox n).
Proof.
  intros Hsize. induction todo as [todo IHt] using lt_wf_ind.
  induction waiting as [waiting IHw] using lt_wf_ind. intros n data Hup Htodo Hwait Hdata Hin.
  pose proof (zlen_nonneg data). destruct (Z.ltb_spec (zlen data) size) as [Hlt|Hge].
  2:{ exists n. replace (size - zlen data) with 0 by lia. rewrite take_0, drop_0, app_nil_r.
      split; [|by split]. exists 1%nat. intros [|fuel] Hf; [lia|]. cbn [receive_bytes].
      by destruct (Z.ltb_spec (zlen data) size); [lia|]. }
  assert (Hne : inbox n <> []) by (intros E; rewrite E, zlen_nil in Hin; lia).
  destruct (receive_turn size mem n data Hup ltac:(lia) Hne)
    as (d & n2 & Hgo & Hinbox & Hd & Hw & Hstep).
  pose proof (go_up _ _ Hgo) as Hup2. pose proof (zlen_nonneg d).
  rewrite Hinbox in Hin. rewrite !zlen_app in *.
  destruct (Z.eqb_spec (zlen data + zlen d) size) as [Hfull|Hmore].
  { exists n2. replace (Z.to_nat (size - zlen data)) with (length d) by (unfold zlen in *; lia).
    rewrite Hinbox, take_app_length, drop_app_length. split; [|done].
    exists 1%nat. intros [|fuel] Hf; [lia|]. by rewrite Hstep. }
  assert (Hrec : exists n', ends (fun fuel => receive_bytes fuel size (snet_link_epoch n2) (data ++ d))
      (at_mem n2 mem) (0, (data ++ d) ++ take (Z.to_nat (size - zlen (data ++ d))) (inbox n2))
      (at_mem n' mem) /\
    goes_on n2 n' /\ inbox n' = drop (Z.to_nat (size - zlen (data ++ d))) (inbox n2)).
  { rewrite zlen_app. destruct (decide (zlen d = 0)) as [Hr0|Hr0].
    - rewrite <- zlen_app. specialize (Hw Hr0).
      apply (IHw (waits n2)); rewrite ?zlen_app; done || lia.
    - rewrite <- zlen_app.
      apply (IHt (Z.to_nat (size - zlen (data ++ d))) ltac:(rewrite zlen_app; lia) (waits n2));
        rewrite ?zlen_app; done || lia. }
  destruct Hrec as (n' & Hends & Hgo' & Hin'). exists n'.
  replace (Z.to_nat (size - zlen data)) with (length d + Z.to_nat (size - zlen (data ++ d)))%nat
    by (rewrite zlen_app; unfold zlen in *; lia).
  rewrite Hinbox, take_app_add, drop_app_add, app_assoc. split; [|split].
  - eapply ends_step; [|exact Hends]. intros fuel. cbv beta. rewrite Hstep.
    by destruct (Z.eqb_spec (zlen data + zlen d) size).
  - by eapply goes_on_trans.
  - done.
Qed.

(** Bytes received into the start of the workspace. *)
Lemma receive_into_packet_ends size n mem :
  up n -> 0 <= size <= 255 -> size <= zlen mem -> size <= zlen (inbox n) ->
  exists n', ends (fun fuel => receive_into_packet fuel size (snet_link_epoch n)) (at_mem n mem) 0
      (at_mem n' (take (Z.to_nat size) (inbox n) ++ drop (Z.to_nat size) mem)) /\
    goes_on n n' /\ inbox n' = drop (Z.to_nat size) (inbox n).
Proof.
  intros Hup Hs Hm Hin.
  destruct (receive_bytes_ends size mem Hs (Z.to_nat (size - zlen (@nil Z))) (waits n) n [] Hup)
    as (n' & Hends & Hgo & Hin'); rewrite ?zlen_nil, ?Z.sub_0_r in *; try lia.
  exists n'. split; [|done]. cbn [app] in Hends.
  refine (ends_bind _ (fun x _ => let '(result, data) := x in _) _ _ _ _ _ Hends _).
  apply ends_now. intros _. cbv beta.
  set (data := take (Z.to_nat size) (inbox n)).
  assert (Hd : zlen data = size) by (unfold data; rewrite zlen_take; lia).
  assert (Hw : wr_bytes mem 0 data = Some (data ++ drop (Z.to_nat size) mem)).
  { rewrite wr_bytes_at by lia. change (Z.to_nat 0) with O. rewrite take_0, drop_0. cbn [app].
    do 2 f_equal. f_equal. unfold zlen in Hd. lia. }
  rewrite (cbind_returns _ _ _ mem (at_mem n' mem)) by done.
  rewrite (cbind_returns _ _ _ (data ++ drop (Z.to_nat size) mem) (at_mem n' mem))
    by (unfold access; by rewrite Hw).
  done.
Qed.

(** A response larger than the workspace is drained completely. *)
Lemma drain_ends : forall todo remaining n mem, (Z.to_nat remaining <= todo)%nat ->
  up n -> 0 <= remaining <= 255 -> 0 < cap -> cap <= zlen mem -> remaining <= zlen (inbox n) ->
  exists n' mem', ends (fun fuel => drain fuel remaining cap (snet_link_epoch n)) (at_mem n mem)
      SQUID_CLIENT_ERROR_OVERFLOW (at_mem n' mem') /\
    zlen mem' = zlen mem /\ goes_on n n' /\ inbox n' = drop (Z.to_nat remaining) (inbox n).
Proof.
  induction todo as [todo IH] using lt_wf_ind. intros remaining n mem Ht Hup Hr Hc Hm Hin.
  destruct (Z.ltb_spec 0 remaining) as [Hpos|Hz].
  2:{ exists n, mem. replace remaining with 0 in * by lia. split; [|by rewrite drop_0].
      exists 1%nat. intros [|fuel] Hf; [lia|]. done. }
  set (part := if cap <? remaining then cap else remaining).
  assert (Hp : 0 < part <= remaining /\ part <= cap).
  { unfold part. destruct (Z.ltb_spec cap remaining); lia. }
  destruct (receive_into_packet_ends part n mem Hup) as (n1 & [f1 He1] & Hgo1 & Hin1); [lia..|].
  set (mem1 := take (Z.to_nat part) (inbox n) ++ drop (Z.to_nat part) mem) in *.
  assert (Hm1 : zlen mem1 = zlen mem).
  { unfold mem1. rewrite zlen_app, zlen_take, zlen_drop. lia. }
  destruct (IH (Z.to_nat (remaining - part)) ltac:(lia) (remaining - part) n1 mem1)
    as (n2 & mem2 & [f2 He2] & Hm2 & Hgo2 & Hin2); [lia|apply Hgo1|lia|lia|lia| |].
  { rewrite Hin1, zlen_drop. lia. }
  exists n2, mem2. split; [|split; [lia|split; [by eapply goes_on_trans|]]].
  - exists (Datatypes.S (Nat.max f1 f2)). intros [|fuel] Hf; [lia|]. cbn [drain].
    destruct (Z.ltb_spec 0 remaining); [|lia]. fold part.
    rewrite (cbind_returns _ _ _ 0 (at_mem n1 mem1)) by (apply He1; lia). cbn [Z.eqb negb].
    rewrite u16_small by lia. rewrite <- (go_epoch _ _ Hgo1). apply He2. lia.
  - rewrite Hin2, Hin1, drop_drop. f_equal. lia.
Qed.

(** The code of an exchange that gets the response [resp]. *)
Definition exchange_code (resp : list Z) : Z :=
  if cap <? zlen resp then SQUID_CLIENT_ERROR_OVERFLOW else zlen resp.

Lemma receive_response_ends resp n mem :
  up n -> inbox n = zlen resp :: resp -> 1 <= zlen resp <= 255 -> 0 < cap -> cap <= zlen mem ->
  exists n' mem', ends (fun fuel => receive_response fuel cap (snet_link_epoch n)) (at_mem n mem)
      (exchange_code resp) (at_mem n' mem') /\
    zlen mem' = zlen mem /\ goes_on n n' /\ inbox n' = [] /\
    (zlen resp <= cap -> take (length resp) mem' = resp).
Proof.
  intros Hup Hin Hr Hc Hm. unfold receive_response.
  destruct (receive_bytes_ends 1 mem ltac:(lia) 1 (waits n) n [] Hup) as (n1 & He1 & Hgo1 & Hin1);
    [done|done|done|rewrite Hin; zlen_lia|].
  rewrite zlen_nil, Z.sub_0_r, Hin in *. change (Z.to_nat 1) with 1%nat in *.
  rewrite firstn_cons, firstn_O in He1. rewrite skipn_cons, drop_0 in Hin1.
  unfold exchange_code. destruct (Z.ltb_spec cap (zlen resp)) as [Hbig|Hfits].
  - destruct (drain_ends (Z.to_nat (zlen resp)) (zlen resp) n1 mem) as (n2 & mem2 & He2 & Hm2 & Hgo2 & Hin2);
      [lia|apply Hgo1|lia|lia|lia|rewrite Hin1; lia|].
    exists n2, mem2. split; [|split_and!].
    + refine (ends_bind _ (fun x fuel => let '(result, data) := x in _) _ _ _ _ _ He1 _).
      cbn [Z.eqb negb app]. destruct He2 as [f2 He2]. exists f2. intros fuel Hf.
      rewrite (cbind_returns _ _ _ (zlen resp) (at_mem n1 mem))
        by (unfold access, rd; cbn; by destruct (Z.ltb_spec (zlen resp) 0); [lia|]).
      destruct (Z.eqb_spec (zlen resp) 0), (Z.ltb_spec cap (zlen resp)); try lia.
      rewrite <- (go_epoch _ _ Hgo1). by apply He2.
    + done.
    + by eapply goes_on_trans.
    + rewrite Hin2, Hin1. unfold zlen. rewrite Nat2Z.id. by rewrite drop_all.
    + lia.
  - destruct (receive_into_packet_ends (zlen resp) n1 mem) as (n2 & He2 & Hgo2 & Hin2);
      [apply Hgo1|lia|lia|rewrite Hin1; lia|].
    eexists n2, _. split; [|split_and!].
    + refine (ends_bind _ (fun x fuel => let '(result, data) := x in _) _ _ _ _ _ He1 _).
      cbn [Z.eqb negb app]. destruct He2 as [f2 He2]. exists f2. intros fuel Hf.
      rewrite (cbind_returns _ _ _ (zlen resp) (at_mem n1 mem))
        by (unfold access, rd; cbn; by destruct (Z.ltb_spec (zlen resp) 0); [lia|]).
      destruct (Z.eqb_spec (zlen resp) 0), (Z.ltb_spec cap (zlen resp)); try lia.
      rewrite <- (go_epoch _ _ Hgo1). erewrite cbind_returns by (by apply He2). done.
    + rewrite zlen_app, zlen_take, zlen_drop, Hin1. lia.
    + by eapply goes_on_trans.
    + rewrite Hin2, Hin1. unfold zlen. rewrite Nat2Z.id. by rewrite drop_all.
    + intros _. rewrite Hin1. unfold zlen. rewrite Nat2Z.id, firstn_all.
      by rewrite take_app_length.
Qed.

Lemma exchange_ends x req rest n resp s' :
  up n -> inbox n = [] -> bytes_ok req -> 1 <= zlen req <= cap -> cap <= 255 ->
  cap + 1 <= zlen (x :: req ++ rest) ->
  reply req (peer n) = (Some resp, s') -> 1 <= zlen resp <= 255 ->
  exists n' mem', ends (fun fuel => squid_client_exchange fuel (zlen req)) (at_mem n (x :: req ++ rest))
      (exchange_code resp) (at_mem n' mem') /\
    zlen mem' = zlen (x :: req ++ rest) /\ up n' /\ inbox n' = [] /\ peer n' = s' /\
    (zlen resp <= cap -> take (length resp) mem' = resp).
Proof.
  intros Hup Hin Hb Hreq Hc Hm Hrep Hresp.
  pose proof (link_send n req Hup Hin Hb ltac:(lia)) as Hs.
  destruct (squid_send fd (zlen req :: req) n) as [sent n1] eqn:Esend.
  rewrite Hrep in Hs. destruct Hs as (Hsent & Hup1 & He1 & Hp1 & Hin1).
  destruct (receive_response_ends resp n1 (zlen req :: req ++ rest) Hup1 Hin1 Hresp)
    as (n' & mem' & [f Hends] & Hm' & Hgo & Hin' & Htake); [lia|zlen_lia|].
  exists n', mem'. split_and!; try done; [|apply Hgo|by rewrite (go_peer _ _ Hgo)].
  exists f. intros fuel Hf. rewrite exchange_eq by done.
  destruct ((cap =? 0) || _ || _ || _) eqn:Hg; [lia|].
  rewrite (link_up n Hup). cbn [negb]. rewrite Esend.
  destruct (Z.ltb_spec sent 0); [lia|]. rewrite <- He1. by apply Hends.
Qed.

(** C6. One exchange over a working link: with a request of 1 to capacity
    bytes in place and no bytes in flight, [squid_client_exchange] returns; the
    server has handled exactly that request; a reply that fits is found at the
    start of the workspace with its size as the result, a larger one is drained
    and reported as an overflow; in both cases no bytes are left in flight, so
    that the next exchange is in step with the server. *)
Theorem client_exchange_in_step x req rest n resp s' :
  up n -> inbox n = [] -> bytes_ok req -> 1 <= zlen req <= cap -> cap <= 255 ->
  cap + 1 <= zlen (x :: req ++ rest) ->
  reply req (peer n) = (Some resp, s') -> 1 <= zlen resp <= 255 ->
  exists fuel0 n' mem',
    (forall fuel, (fuel0 <= fuel)%nat ->
      squid_client_exchange fuel (zlen req) (at_mem n (x :: req ++ rest)) =
        Returns (if cap <? zlen resp then SQUID_CLIENT_ERROR_OVERFLOW else zlen resp)
          (at_mem n' mem')) /\
    zlen mem' = zlen (x :: req ++ rest) /\ up n' /\ inbox n' = [] /\ peer n' = s' /\
    (zlen resp <= cap -> take (length resp) mem' = resp).
Proof.
  intros Hup Hin Hb Hreq Hc Hm Hrep Hresp.
  destruct (exchange_ends x req rest n resp s') as (n' & mem' & [f Hends] & Hrest); try done.
  by exists f, n', mem'.
Qed.

(** ** Reading a reply *)

Lemma get_byte_at (n : N) mem i v : 0 <= i -> mem !! Z.to_nat i = Some v -> is_byte v ->
  get_byte i (at_mem n mem) = Returns v (at_mem n mem).
Proof.
  intros Hi Hv [Hr _]. unfold get_byte. rewrite (cbind_returns _ _ _ mem (at_mem n mem)) by done.
  unfold access. by rewrite (rd_Some mem i v Hi Hv Hr).
Qed.

Lemma read_u16_at (n : N) mem i a b : 0 <= i -> mem !! Z.to_nat i = Some a ->
  mem !! Z.to_nat (i + 1) = Some b -> is_byte a -> is_byte b ->
  squid_client_read_u16 i (at_mem n mem) = Returns (of_le16 a b) (at_mem n mem).
Proof.
  intros Hi Ha Hb Hra Hrb. unfold squid_client_read_u16.
  rewrite (cbind_returns _ _ _ mem (at_mem n mem)) by done. unfold access, read_u16.
  rewrite (rd_Some mem i a), (rd_Some mem (i + 1) b) by (done || apply Hra || apply Hrb || lia).
  by rewrite read_u16_val.
Qed.

Lemma read_u32_at (n : N) mem i a b c d : 0 <= i -> mem !! Z.to_nat i = Some a ->
  mem !! Z.to_nat (i + 1) = Some b -> mem !! Z.to_nat (i + 2) = Some c ->
  mem !! Z.to_nat (i + 3) = Some d -> is_byte a -> is_byte b -> is_byte c -> is_byte d ->
  squid_client_read_u32 i (at_mem n mem) = Returns (of_le32 a b c d) (at_mem n mem).
Proof.
  intros Hi Ha Hb Hc Hd Hra Hrb Hrc Hrd. unfold squid_client_read_u32.
  rewrite (cbind_returns _ _ _ mem (at_mem n mem)) by done. unfold access, read_u32.
  rewrite (rd_Some mem i a), (rd_Some mem (i + 1) b), (rd_Some mem (i + 2) c), (rd_Some mem (i + 3) d)
    by (done || apply Hra || apply Hrb || apply Hrc || apply Hrd || lia).
  by rewrite read_u32_val.
Qed.

(** ** Echo *)

(** What the server's runtime answers for a plugin: the bytes of a successful
    response.  [mem] is the response buffer. *)
Definition plugin_reply (handle : handle_packet_fn S) (port : Z) (mem : list Z)
    (request : list Z) (s : S) : option (list Z) * S :=
  match handle port (Some (PacketView (Some request) (zlen request)))
          (Some (PacketBuffer (response_address port) mem server_packet_max 0)) s with
  | Some ((result, Some b), s') =>
      (if (result =? 0) && (0 <? packet_size b)
       then Some (take (Z.to_nat (packet_size b)) (packet_mem b)) else None, s')
  | Some (_, s') => (None, s')
  | None => (None, s)
  end.

Lemma cwp_returns {St A} (m : CT St A) Q s : cwp False m Q s -> exists a s', m s = Returns a s' /\ Q a s'.
Proof. unfold cwp. destruct (m s); [eauto|done..]. Qed.

Lemma echo_reply port mem request s : 0 <= port -> zlen mem = 255 -> bytes_ok request ->
  1 <= zlen request <= 255 ->
  plugin_reply handle_echo_packet port mem request s = (Some request, s).
Proof.
  intros Hport Hm Hb Hr. unfold plugin_reply.
  rewrite handle_echo_eq; cbn [packet_data packet_capacity packet_mem];
    try done; [|lia|unfold response_address; lia|unfold server_packet_max; lia].
  unfold server_packet_max. destruct (Z.ltb_spec 255 (zlen request)); [lia|].
  cbn [Z.eqb packet_size packet_mem andb]. destruct (Z.ltb_spec 0 (zlen request)); [|lia].
  unfold zlen. rewrite Nat2Z.id, firstn_all. by rewrite take_app_length.
Qed.
End link.

Section echo.
Context {N S : Type} `{Squid N} `{ClientHost N} (fd : Z) (idle : bool) (up : N -> Prop)
  (inbox : N -> list Z) (peer : N -> S) (waits : N -> nat) (port : Z) (response_mem : list Z).
Context `{LINK : !LinkLaws idle fd up inbox peer waits
                   (plugin_reply handle_echo_packet port response_mem)}.

(** Echo, end to end: over a working link to a server whose port runs the
    echo plugin, [squid_client_echo] returns 0 and hands the caller exactly the
    bytes it sent, and leaves the link in step. *)
Theorem client_echo_roundtrip cap data size n mem :
  0 <= port -> zlen response_mem = 255 -> up n -> inbox n = [] ->
  bytes_ok (take (Z.to_nat size) data) -> 1 <= size <= cap -> size <= zlen data -> cap <= 255 -> cap + 1 <= zlen mem ->
  exists fuel0 n' mem',
    (forall fuel, (fuel0 <= fuel)%nat ->
      squid_client_echo fuel (Some data) size true (at_mem fd cap idle n mem) =
        Returns (0, Some (ClientBytes 0 size)) (at_mem fd cap idle n' mem')) /\
    take (Z.to_nat size) mem' = take (Z.to_nat size) data /\ up n' /\ inbox n' = [] /\
    zlen mem' = zlen mem.
Proof.
  intros Hport Hrm Hup Hin Hb Hs Hsd Hc Hm.
  pose proof (filled_nil fd cap idle (zlen mem) n mem eq_refl ltac:(lia)) as Hf.
  destruct (cwp_returns (squid_client_copy 1 data size)
    (fun _ s1 => filled fd cap idle (zlen mem) (take (Z.to_nat size) data) n s1) (at_mem fd cap idle n mem))
    as ([] & s1 & Ecopy & x & rest & -> & HL).
  { eapply (cwp_copy fd cap idle (zlen mem) _ _ _ _ _ _ _ _ Hf); [done|done|lia|lia|auto]. }
  set (req := take (Z.to_nat size) data) in *.
  assert (Hreq : zlen req = size) by (unfold req; rewrite zlen_take; lia).
  assert (Hbr : bytes_ok req) by done.
  destruct (exchange_ends fd cap idle up inbox peer waits _ x req rest n req (peer n))
    as (n' & mem' & [f Hends] & Hm' & Hup' & Hin' & _ & Htake); try done; try zlen_lia.
  { apply echo_reply; done || lia. }
  exists f, n', mem'. split_and!; try done.
  - intros fuel Hfuel. unfold squid_client_echo.
    rewrite (cbind_returns _ _ _ (Some cap) (at_mem fd cap idle n mem)) by done.
    destruct ((size =? 0) || negb true || (cap <? size)) eqn:Hg; [cbn in Hg; lia|].
    rewrite (cbind_returns _ _ _ tt (at_mem fd cap idle n (x :: req ++ rest))) by done.
    rewrite <- Hreq at 1. erewrite cbind_returns by (by apply Hends). unfold exchange_code.
    destruct (Z.ltb_spec cap (zlen req)); [lia|]. rewrite Hreq.
    destruct (Z.ltb_spec size 0); [lia|]. by rewrite u8_small by lia.
  - rewrite <- Htake by lia. f_equal. unfold zlen in Hreq. lia.
  - rewrite Hm'. zlen_lia.
Qed.
End echo.

(** ** Time *)

Section time.
Context {N S : Type} `{Squid N} `{ClientHost N} (fd : Z) (idle : bool) (up : N -> Prop)
  (inbox : N -> list Z) (peer : N -> S) (waits : N -> nat) (port : Z) (response_mem : list Z)
  (clk : S -> clock).
Context `{LINK : !LinkLaws idle fd up inbox peer waits
                   (plugin_reply (handle_squid_time_packet clk) port response_mem)}.

Lemma time_reply mode s t off : 0 <= port -> zlen response_mem = 255 ->
  requested_time (clk s) mode t off ->
  plugin_reply (handle_squid_time_packet clk) port response_mem [SQUID_TIME_OP_GET; mode] s =
    (Some (header 1 0 ++ time_record mode (time_now (clk s)) off t), s).
Proof.
  intros Hport Hm Ht. unfold plugin_reply, handle_squid_time_packet, packet_entry.
  cbn [view_data view_size packet_data packet_capacity packet_mem].
  change (zlen [SQUID_TIME_OP_GET; mode]) with 2. unfold response_address, server_packet_max.
  destruct (Z.eqb_spec (1 + port) 0); [lia|]. cbn [Z.eqb orb]. unfold bind, time_core, lift.
  rewrite (time_get_eq (clk s) mode response_mem 255 t off Ht) by lia.
  cbn [Z.ltb Z.compare]. change (u64 16) with 16. cbn [ret packet_size packet_mem Z.eqb andb Z.ltb Z.compare].
  rewrite app_assoc. by rewrite take_app_length'.
Qed.

(** What the client reads from a reply to GET. *)
Lemma read_time_reply_eq cap (n : N) rest mode now off t :
  tm_ok t -> -32768 <= off < 32768 -> mode = 0 \/ mode = 1 ->
  read_time_reply (at_mem fd cap idle n ((header 1 0 ++ time_record mode now off t) ++ rest)) =
    Returns (0, Some (ClientTime (tm_year t + 1900) (tm_mon t + 1) (tm_mday t) (tm_hour t)
        (tm_min t) (tm_sec t) (tm_wday t)
        (if (mode =? SQUID_TIME_MODE_LOCAL) && (0 <? tm_isdst t) then 1 else 0) off
        (if (0 <=? now) && (now <=? UINT32_MAX) then now else SQUID_TIME_UNIX_UNKNOWN)))
      (at_mem fd cap idle n ((header 1 0 ++ time_record mode now off t) ++ rest)).
Proof.
  intros (Hy & Hm & Hd & Hh & Hmi & Hs & Hw) Ho Hmode.
  set (dst := (mode =? SQUID_TIME_MODE_LOCAL) && (0 <? tm_isdst t)).
  set (w := if dst then Z.lor (tm_wday t) SQUID_TIME_DST_BIT else tm_wday t).
  set (unix := if (0 <=? now) && (now <=? UINT32_MAX) then now else SQUID_TIME_UNIX_UNKNOWN).
  assert (Hwd : u8 (Z.land (tm_wday t) SQUID_TIME_WEEKDAY_MASK) = tm_wday t).
  { unfold SQUID_TIME_WEEKDAY_MASK. change 7 with (Z.ones 3). rewrite Z.land_ones by lia.
    change (2 ^ 3) with 8. rewrite Z.mod_small, u8_small by lia. done. }
  assert (Hwcases : tm_wday t = 0 \/ tm_wday t = 1 \/ tm_wday t = 2 \/ tm_wday t = 3 \/ tm_wday t = 4
    \/ tm_wday t = 5 \/ tm_wday t = 6) by lia.
  assert (Hwb : is_byte w /\ u8 (Z.land w SQUID_TIME_WEEKDAY_MASK) = tm_wday t /\
    u8 (if Z.land w SQUID_TIME_DST_BIT =? 0 then 0 else 1) = if dst then 1 else 0).
  { unfold w, is_byte. destruct dst, Hwcases as [->|[->|[->|[->|[->|[->| ->]]]]]]; by vm_compute. }
  destruct Hwb as (Hwb & Hw7 & Hwdst).
  assert (Hunix : 0 <= unix < 4294967296 /\
    (if (0 <=? now) && (now <=? UINT32_MAX) then u32 now else SQUID_TIME_UNIX_UNKNOWN) = unix).
  { unfold unix. destruct ((0 <=? now) && (now <=? UINT32_MAX)) eqn:E; [|done].
    unfold UINT32_MAX in E. split; [lia|apply u32_small; lia]. }
  destruct Hunix as [Hur Hue].
  unfold time_record. fold dst. rewrite Hwd, Hue. fold w.
  rewrite (u8_small (tm_mon t + 1)), (u8_small (tm_mday t)), (u8_small (tm_hour t)),
    (u8_small (tm_min t)), (u8_small (tm_sec t)), (u16_small (tm_year t + 1900)) by lia.
  set (mem := (_ ++ _) ++ rest).
  assert (Hu : forall v, is_byte (u8 v)) by apply u8_range.
  unfold read_time_reply.
  erewrite cbind_returns by (apply read_u16_at; [lia|reflexivity|reflexivity|apply Hu..]).
  do 6 (erewrite cbind_returns by (apply get_byte_at; [lia|reflexivity|done || unfold is_byte; lia])).
  erewrite cbind_returns by (apply read_u16_at; [lia|reflexivity|reflexivity|apply Hu..]).
  erewrite cbind_returns by (apply read_u32_at; [lia|reflexivity..|apply Hu|apply Hu|apply Hu|apply Hu]).
  rewrite !of_le16_le16 by (apply u16_range || lia). rewrite of_le32_le32, s16_u16, Hw7, Hwdst by lia.
  done.
Qed.

(** Time, end to end: over a working link to a server whose port runs the
    time plugin, [squid_client_time_get] returns 0 with the year, month, day,
    hour, minute, second, weekday, daylight-saving flag, UTC offset and Unix
    time of the server's clock, for UTC and for local time. *)
Theorem client_time_roundtrip cap mode n mem t off :
  0 <= port -> zlen response_mem = 255 -> up n -> inbox n = [] ->
  requested_time (clk (peer n)) mode t off -> tm_ok t ->
  16 <= cap <= 255 -> cap + 1 <= zlen mem ->
  exists fuel0 n' mem',
    (forall fuel, (fuel0 <= fuel)%nat ->
      squid_client_time_get fuel mode true (at_mem fd cap idle n mem) =
        Returns (0, Some (ClientTime (tm_year t + 1900) (tm_mon t + 1) (tm_mday t) (tm_hour t)
            (tm_min t) (tm_sec t) (tm_wday t)
            (if (mode =? SQUID_TIME_MODE_LOCAL) && (0 <? tm_isdst t) then 1 else 0) off
            (if (0 <=? time_now (clk (peer n))) && (time_now (clk (peer n)) <=? UINT32_MAX)
             then time_now (clk (peer n)) else SQUID_TIME_UNIX_UNKNOWN)))
          (at_mem fd cap idle n' mem')) /\
    up n' /\ inbox n' = [] /\ peer n' = peer n.
Proof.
  intros Hport Hrm Hup Hin Ht Htm Hc Hm. split_cells mem 3%nat.
  assert (Hmode : mode = 0 \/ mode = 1) by (destruct Ht as (_ & [(-> & _)|(-> & _)]); auto).
  assert (Hoff : -32768 <= off < 32768).
  { destruct Ht as (_ & [(_ & _ & ->)|(_ & _ & Ho)]); [lia|by eapply parse_utc_offset_range]. }
  set (resp := header 1 0 ++ time_record mode (time_now (clk (peer n))) off t).
  set (req := [SQUID_TIME_OP_GET; mode]).
  destruct (exchange_ends fd cap idle up inbox peer waits _ c req mem n resp (peer n))
    as (n' & mem' & [f Hends] & Hm' & Hup' & Hin' & Hp' & Htake);
    [done|done| |change (zlen req) with 2; lia|lia|unfold req; zlen_lia| |change (zlen resp) with 16; lia|].
  { unfold req. repeat constructor; unfold is_byte, SQUID_TIME_OP_GET; lia. }
  { by apply time_reply. }
  specialize (Htake ltac:(change (zlen resp) with 16; lia)).
  change (length resp) with 16%nat in Htake.
  exists f, n', mem'. split_and!; try done. intros fuel Hfuel. unfold squid_client_time_get.
  rewrite (cbind_returns _ _ _ (Some cap) (at_mem fd cap idle n (c :: c0 :: c1 :: mem))) by done.
  destruct (Z.ltb_spec cap 2); [lia|].
  replace (negb (mode =? SQUID_TIME_MODE_UTC) && negb (mode =? SQUID_TIME_MODE_LOCAL)) with false
    by (destruct Hmode as [-> | ->]; done). cbn [negb orb].
  rewrite (cbind_returns _ _ _ tt (at_mem fd cap idle n (c :: SQUID_TIME_OP_GET :: c1 :: mem))) by done.
  rewrite (cbind_returns _ _ _ tt (at_mem fd cap idle n (c :: req ++ mem))) by done.
  assert (Hmem : mem' = resp ++ drop 16 mem') by (rewrite <- Htake at 1; symmetry; apply take_drop).
  rewrite (cbind_returns _ _ _ (0, 16) (at_mem fd cap idle n' mem')).
  - cbn [Z.eqb negb]. change (16 =? SQUID_TIME_REPLY_SIZE) with true. cbn [negb].
    rewrite Hmem. apply read_time_reply_eq; done.
  - unfold squid_client_response. change 2 with (zlen req) at 1.
    erewrite cbind_returns by (by apply Hends). unfold exchange_code.
    change (zlen resp) with 16. destruct (Z.ltb_spec cap 16); [lia|].
    change (16 <? 0) with false. change (16 <? 2) with false. cbv iota. rewrite Hmem. erewrite cbind_returns by (apply get_byte_at; [lia|reflexivity|done]).
    match goal with |- context [negb (?a =? ?b)] => change (negb (a =? b)) with false end. cbv iota.
    by erewrite cbind_returns by (apply get_byte_at; [lia|reflexivity|done]).
Qed.
End time.
