(* ===== verification/ClientList.v ===== *)
(** The client's iteration over a LIST page is the reference decoder of the
    page format, on every byte string; and it reads back the pages the server
    writes. *)
From stdpp Require Import base numbers list option strings.
From Stdlib Require Import ZArith Lia.
From S2P Require Import Prelude Wire CLib Posix Filesystem FsSafety.
From S2P Require Import FsList Runtime Client ClientCalls ClientSafety ClientLink.

Local Open Scope Z_scope.
Local Open Scope squid_scope.

(** [count] entries that use up the whole of [b]. *)
Fixpoint decode_exact (count : nat) (b : list Z) : option (list dir_entry) :=
  match count with
  | O => match b with [] => Some [] | _ => None end
  | S count =>
      match b with
      | ty :: len :: b =>
          match drop (Z.to_nat len) b with
          | s0 :: s1 :: s2 :: s3 :: rest =>
              match decode_exact count rest with
              | Some l => Some (DirEntry ty (take (Z.to_nat len) b) (of_le32 s0 s1 s2 s3) :: l)
              | None => None
              end
          | _ => None
          end
      | _ => None
      end
  end.

(** An entry that fits the rest of the page. *)
Lemma decode_exact_entry count ty len name s0 s1 s2 s3 rest :
  zlen name = len ->
  decode_exact (S count) (ty :: len :: name ++ s0 :: s1 :: s2 :: s3 :: rest) =
    match decode_exact count rest with
    | Some l => Some (DirEntry ty name (of_le32 s0 s1 s2 s3) :: l)
    | None => None
    end.
Proof.
  intros <-. cbn [decode_exact]. unfold zlen. rewrite Nat2Z.id, drop_app_length, take_app_length. done.
Qed.

(** An entry that does not. *)
Lemma decode_exact_short count ty len b : 0 <= len -> zlen b < len + 4 ->
  decode_exact (S count) (ty :: len :: b) = None.
Proof.
  intros Hl Hb. cbn [decode_exact].
  assert (Hd : zlen (drop (Z.to_nat len) b) < 4) by (rewrite zlen_drop; lia).
  destruct (drop (Z.to_nat len) b) as [|? [|? [|? [|? ?]]]]; try done. zlen_lia.
Qed.
Lemma decode_exact_tiny count b : zlen b < 2 -> decode_exact (S count) b = None.
Proof. intros Hb. destruct b as [|? [|? ?]]; try done. zlen_lia. Qed.

Section list.
Context {N : Type} `{Squid N} `{ClientHost N} (fd cap : Z) (idle : bool).
Local Abbreviation at_mem := (at_mem fd cap idle).

(** The caller's loop: entries until the call returns something else. *)
Fixpoint list_all (fuel : nat) (page : option squid_client_fs_list)
    : CT (client_state N) (Z * list squid_client_fs_entry) :=
  match fuel with
  | O => fun _ => Waiting
  | S fuel =>
      let^ '(result, page, entry) := squid_client_fs_list_next page true in
      match entry with
      | Some entry =>
          let^ '(code, entries) := list_all fuel page in cret (code, entry :: entries)
      | None => cret (result, [])
      end
  end.

(** What an entry refers to. *)
Definition resolve (mem : list Z) (e : squid_client_fs_entry) : dir_entry :=
  let r := entry_file_name e in
  DirEntry (entry_type e) (take (Z.to_nat (ref_size r)) (drop (Z.to_nat (ref_data r)) mem))
    (entry_size e).

(** One call on a page whose remaining bytes are [b]. *)
Lemma list_next_entry (n : N) pre b post nc left ty len name s0 s1 s2 s3 rest :
  b = ty :: len :: name ++ s0 :: s1 :: s2 :: s3 :: rest -> zlen name = len -> bytes_ok b ->
  0 < left <= 255 -> zlen b < 65536 ->
  let mem := pre ++ b ++ post in
  squid_client_fs_list_next (Some (ClientFsList nc left (Some (zlen pre)) (Some (zlen pre + zlen b)))) true
      (at_mem n mem) =
    Returns (1, Some (ClientFsList nc (left - 1) (Some (zlen pre + (6 + len))) (Some (zlen pre + zlen b))),
      Some (ClientFsEntry ty (ClientBytes (zlen pre + 2) len) (of_le32 s0 s1 s2 s3))) (at_mem n mem).
Proof.
  intros Hb Hlen Hok Hleft Hsize mem. unfold squid_client_fs_list_next.
  cbn [entries_left ClientCalls.page_next page_end next_cursor].
  pose proof (zlen_nonneg name). pose proof (zlen_nonneg rest). pose proof (zlen_nonneg pre).
  assert (Hzb : zlen b = 6 + len + zlen rest) by (rewrite Hb; zlen_lia).
  assert (Hbyte : forall i v, b !! i = Some v -> is_byte v)
    by (intros i v Hv; exact (Forall_lookup_1 _ _ _ _ Hok Hv)).
  assert (Hmem : forall i v, b !! i = Some v ->
    mem !! Z.to_nat (zlen pre + Z.of_nat i) = Some v /\ is_byte v).
  { intros i v Hv. split; [|by eapply Hbyte]. unfold mem, zlen.
    rewrite <- Nat2Z.inj_add, Nat2Z.id, lookup_app_r by lia.
    rewrite Nat.add_sub_swap, Nat.sub_diag by lia. by apply lookup_app_l_Some. }
  assert (Htail : forall k v, [s0; s1; s2; s3] !! k = Some v ->
    b !! (2 + length name + k)%nat = Some v).
  { intros k v Hv. rewrite Hb. change (ty :: len :: ?l) with ([ty; len] ++ l).
    rewrite (lookup_app_r [ty; len]) by (cbn; lia). cbn [length].
    replace (2 + length name + k - 2)%nat with (length name + k)%nat by lia.
    rewrite lookup_app_r by lia. replace (length name + k - length name)%nat with k by lia.
    by destruct k as [|[|[|[|k]]]]. }
  destruct (Z.eqb_spec left 0); [lia|]. rewrite (Z.add_simpl_l (zlen pre)), u16_small by lia.
  destruct (Z.ltb_spec (zlen pre + zlen b) (zlen pre)), (Z.ltb_spec (zlen b) 6); try lia. cbn [orb].
  destruct (Hmem 0%nat ty) as [M0 B0]; [by rewrite Hb|].
  destruct (Hmem 1%nat len) as [M1 B1]; [by rewrite Hb|].
  assert (Hl : 0 <= len < 256) by apply B1.
  erewrite cbind_returns by (apply (get_byte_at fd cap idle n mem (zlen pre + 1)); [lia|exact M1|done]).
  rewrite u16_small by lia. destruct (Z.ltb_spec (zlen b) (6 + len)); [lia|].
  rewrite Z.add_0_r in M0.
  erewrite cbind_returns by (apply (get_byte_at fd cap idle n mem (zlen pre)); [lia|exact M0|done]).
  assert (Hs : forall k v, [s0; s1; s2; s3] !! k = Some v ->
    mem !! Z.to_nat (zlen pre + 2 + len + Z.of_nat k) = Some v /\ is_byte v).
  { intros k v Hv. apply Htail in Hv. apply Hmem in Hv. rewrite <- Hlen. unfold zlen in *.
    by replace (Z.of_nat (length pre) + 2 + Z.of_nat (length name) + Z.of_nat k)
      with (Z.of_nat (length pre) + Z.of_nat (2 + length name + k)) by lia. }
  destruct (Hs 0%nat s0 eq_refl) as [? ?]. destruct (Hs 1%nat s1 eq_refl) as [? ?].
  destruct (Hs 2%nat s2 eq_refl) as [? ?]. destruct (Hs 3%nat s3 eq_refl) as [? ?].
  erewrite cbind_returns by (apply (read_u32_at fd cap idle n mem (zlen pre + 2 + len) s0 s1 s2 s3);
    rewrite ?Z.add_0_r in *; try done; lia).
  rewrite u8_small by lia. unfold cret. repeat (f_equal; try lia).
Qed.

(** A page whose next entry does not fit is refused. *)
Lemma list_next_malformed (n : N) pre b post nc left :
  bytes_ok b -> 0 < left <= 255 -> zlen b < 65536 ->
  zlen b < 6 \/ (exists ty len b', b = ty :: len :: b' /\ zlen b' < len + 4) ->
  let page := Some (ClientFsList nc left (Some (zlen pre)) (Some (zlen pre + zlen b))) in
  squid_client_fs_list_next page true (at_mem n (pre ++ b ++ post)) =
    Returns (SQUID_CLIENT_ERROR_PROTOCOL, page, None) (at_mem n (pre ++ b ++ post)).
Proof.
  intros Hok Hleft Hsize Hbad page. unfold squid_client_fs_list_next.
  cbn [page entries_left ClientCalls.page_next page_end]. pose proof (zlen_nonneg b).
  pose proof (zlen_nonneg pre).
  destruct (Z.eqb_spec left 0); [lia|]. rewrite (Z.add_simpl_l (zlen pre)), u16_small by lia.
  destruct (Z.ltb_spec (zlen pre + zlen b) (zlen pre)); [lia|].
  destruct (Z.ltb_spec (zlen b) 6); [done|]. cbn [orb].
  destruct Hbad as [?|(ty & len & b' & -> & Hshort)]; [lia|].
  apply Forall_cons_1 in Hok as [_ Hok]. apply Forall_cons_1 in Hok as [Hlen _].
  erewrite cbind_returns by (apply (get_byte_at fd cap idle n _ (zlen pre + 1) len); [lia| |done];
    unfold zlen; replace (Z.to_nat (Z.of_nat (length pre) + 1)) with (length pre + 1)%nat by lia;
    rewrite lookup_app_r by lia; by replace (length pre + 1 - length pre)%nat with 1%nat by lia).
  unfold is_byte in Hlen. rewrite u16_small by lia.
  destruct (Z.ltb_spec (zlen (ty :: len :: b')) (6 + len)); [done|zlen_lia].
Qed.

(** The first entry of [b], when it fits. *)
Lemma split_entry b : bytes_ok b ->
  (zlen b < 6 \/ exists ty len b', b = ty :: len :: b' /\ zlen b' < len + 4) \/
  exists ty len name s0 s1 s2 s3 rest,
    b = ty :: len :: name ++ s0 :: s1 :: s2 :: s3 :: rest /\ zlen name = len.
Proof.
  intros Hok. destruct (Z.lt_ge_cases (zlen b) 6); [by left; left|].
  destruct b as [|ty [|len b]]; [zlen_lia..|].
  apply Forall_cons_1 in Hok as [_ Hok]. apply Forall_cons_1 in Hok as [Hlen _]. unfold is_byte in Hlen.
  destruct (Z.lt_ge_cases (zlen b) (len + 4)); [left; right; eauto|right].
  assert (Hd : 4 <= zlen (drop (Z.to_nat len) b)) by (rewrite zlen_drop; lia).
  destruct (drop (Z.to_nat len) b) as [|s0 [|s1 [|s2 [|s3 rest]]]] eqn:E; [zlen_lia..|].
  exists ty, len, (take (Z.to_nat len) b), s0, s1, s2, s3, rest.
  split; [by rewrite <- E, take_drop|]. rewrite zlen_take. lia.
Qed.

(** A first entry that does not fit is no entry for the decoder either. *)
Lemma decode_exact_bad count b : bytes_ok b ->
  zlen b < 6 \/ (exists ty len b', b = ty :: len :: b' /\ zlen b' < len + 4) ->
  decode_exact (S count) b = None.
Proof.
  intros Hok [Ht|(ty & len & b' & -> & Hs)].
  - destruct b as [|ty [|len b]]; [done..|].
    apply Forall_cons_1 in Hok as [_ Hok]. apply Forall_cons_1 in Hok as [[Hlen _] _].
    apply decode_exact_short; [done|zlen_lia].
  - apply decode_exact_short; [|done].
    apply Forall_cons_1 in Hok as [_ Hok]. apply Forall_cons_1 in Hok as [Hlen _]. apply Hlen.
Qed.

Lemma list_all_spec (n : N) post nc count : forall pre b,
  bytes_ok b -> (count <= 255)%nat -> zlen b < 65536 ->
  let mem := pre ++ b ++ post in
  exists refs,
    list_all (S count) (Some (ClientFsList nc (Z.of_nat count) (Some (zlen pre)) (Some (zlen pre + zlen b))))
        (at_mem n mem) =
      Returns (match decode_exact count b with Some _ => 0 | None => SQUID_CLIENT_ERROR_PROTOCOL end, refs)
        (at_mem n mem) /\
    forall es, decode_exact count b = Some es -> map (resolve mem) refs = es.
Proof.
  induction count as [|count IH]; intros pre b Hok Hcount Hsize mem.
  - exists []. pose proof (zlen_nonneg b).
    assert (E : list_all 1 (Some (ClientFsList nc 0 (Some (zlen pre)) (Some (zlen pre + zlen b)))) (at_mem n mem) =
      Returns (if zlen pre =? zlen pre + zlen b then 0 else SQUID_CLIENT_ERROR_PROTOCOL, []) (at_mem n mem))
      by done.
    change (Z.of_nat 0) with 0. rewrite E.
    destruct (Z.eqb_spec (zlen pre) (zlen pre + zlen b)) as [H0'|H0'].
    + rewrite (zlen_nil_inv b) by lia. split; [done|]. by intros es [= <-].
    + destruct b as [|x b]; [change (zlen (@nil Z)) with 0 in H0'; lia|]. by split.
  - cbn [list_all]. destruct (split_entry b Hok) as
      [Hbad|(ty & len & name & s0 & s1 & s2 & s3 & rest & Hb & Hlen)].
    + rewrite (decode_exact_bad count b Hok Hbad). exists []. split; [|done].
      erewrite cbind_returns by (apply list_next_malformed; [done|lia|done|done]). done.
    + erewrite cbind_returns by (apply (list_next_entry n pre b post nc _ ty len name s0 s1 s2 s3 rest);
        [done|done|done|lia|done]).
      pose proof (zlen_nonneg name).
      assert (Hzb : zlen b = 6 + len + zlen rest) by (rewrite Hb; zlen_lia).
      set (pre' := pre ++ ty :: len :: name ++ [s0; s1; s2; s3]).
      assert (Hmem : mem = pre' ++ rest ++ post).
      { unfold mem, pre'. rewrite Hb, <- !app_assoc. cbn [app]. by rewrite <- !app_assoc. }
      assert (Hpre : zlen pre' = zlen pre + (6 + len)) by (unfold pre'; zlen_lia).
      assert (Hrest : bytes_ok rest).
      { rewrite Hb in Hok. change (ty :: len :: ?l) with ([ty; len] ++ l) in Hok.
        apply bytes_ok_app in Hok as [_ Hok]. apply bytes_ok_app in Hok as [_ Hok].
        change (s0 :: s1 :: s2 :: s3 :: ?l) with ([s0; s1; s2; s3] ++ l) in Hok.
        by apply bytes_ok_app in Hok as [_ Hok]. }
      destruct (IH pre' rest Hrest ltac:(lia) ltac:(zlen_lia)) as (refs & Hall & Hrefs).
      rewrite <- Hmem, Hpre in *.
      replace (zlen pre + zlen b) with (zlen pre + (6 + len) + zlen rest) by lia.
      replace (Z.of_nat (S count) - 1) with (Z.of_nat count) by lia.
      rewrite (cbind_returns _ _ _ _ _ Hall). eexists. unfold cret.
      rewrite Hb, decode_exact_entry by done. destruct (decode_exact count rest) as [l|]; (split; [done|]); [|done].
      intros es [= <-]. cbn [map]. rewrite (Hrefs l eq_refl). f_equal.
      unfold resolve. cbn [entry_type entry_file_name entry_size ref_size ref_data]. f_equal.
      rewrite Hmem. unfold pre'.
      replace (Z.to_nat (zlen pre + 2)) with (length pre + 2)%nat by (unfold zlen; lia).
      rewrite <- !app_assoc, drop_app_add. cbn [app drop]. rewrite <- !app_assoc, <- Hlen.
      unfold zlen. rewrite drop_0, Nat2Z.id. by rewrite take_app_length.
Qed.

(** C36. Iterating [squid_client_fs_list_next] over a page decodes the page
    format exactly, on every byte string a server may send: the entries come
    out one by one as the reference decoder reads them, with each name lying
    inside the page, and the iteration ends with 0 when the announced entries
    use up the page and with a protocol error when one of them would run past
    its end or bytes are left over; no byte outside the page is read. *)
Theorem client_list_decodes (n : N) (pre b post : list Z) nc count :
  bytes_ok b -> (count <= 255)%nat -> zlen b < 65536 ->
  let mem := pre ++ b ++ post in
  exists refs,
    list_all (S count) (Some (ClientFsList nc (Z.of_nat count) (Some (zlen pre)) (Some (zlen pre + zlen b))))
        (at_mem n mem) =
      Returns (match decode_exact count b with Some _ => 0 | None => SQUID_CLIENT_ERROR_PROTOCOL end, refs)
        (at_mem n mem) /\
    forall es, decode_exact count b = Some es -> map (resolve mem) refs = es.
Proof. intros Hok Hc Hs. by apply list_all_spec. Qed.

(** The records the server writes are decoded to the entries they describe. *)
Lemma decode_exact_records info es :
  (forall n, stat_ok (info n)) -> Forall (fun n => zlen n < 256) es ->
  decode_exact (length es) (records info es) = Some (map (entry_of info) es).
Proof.
  intros Hst. induction 1 as [|name es Hn _ IH]; [done|]. rewrite records_cons. unfold list_record, le32.
  pose proof (zlen_nonneg name). rewrite (u8_small (zlen name)) by lia.
  rewrite <- !app_assoc. cbn [app length]. rewrite decode_exact_entry by done. rewrite IH.
  cbn [map]. unfold entry_of at 2. destruct (Hst name) as [[_ ?] _].
  rewrite entry_type_eq, entry_size_eq by done. do 3 f_equal. apply of_le32_le32, file_size_range.
Qed.
End list.
