(* ===== verification/ClientPages.v ===== *)
(** The client's iterations over the pages of the retrovault service are the
    reference decoders of the page formats, on every byte string. *)
From stdpp Require Import base numbers list option strings.
From Stdlib Require Import ZArith Lia.
From S2P Require Import Prelude Wire CLib Runtime Client ClientCalls ClientRetro ClientSafety ClientLink.

Local Open Scope Z_scope.
Local Open Scope squid_scope.

(** ** A page format

    [split b] takes one item off the front of [b]: its value and its size. *)
Fixpoint decode_items {V} (split : list Z -> option (V * nat)) (count : nat) (b : list Z) : option (list V) :=
  match count with
  | O => match b with [] => Some [] | _ => None end
  | S count =>
      let? '(v, k) := split b in
      let? l := decode_items split count (drop k b) in
      Some (v :: l)
  end.

(** The items at the front of [b] that can be read, [count] of them at most. *)
Fixpoint decoded_prefix {V} (split : list Z -> option (V * nat)) (count : nat) (b : list Z) : list V :=
  match count with
  | O => []
  | S count =>
      match split b with
      | Some (v, k) => v :: decoded_prefix split count (drop k b)
      | None => []
      end
  end.
Lemma decode_items_prefix {V} (split : list Z -> option (V * nat)) count : forall b vs,
  decode_items split count b = Some vs -> decoded_prefix split count b = vs.
Proof.
  induction count as [|count IH]; intros b vs E; cbn [decode_items decoded_prefix] in *.
  { by destruct b; simplify_eq. }
  destruct (split b) as [[v k]|]; [|done].
  destruct (decode_items split count (drop k b)) as [l|] eqn:El; [|done]. injection E as <-.
  f_equal. by apply IH.
Qed.

(** A reference to bytes of [lo..hi] only. *)
Definition ref_inside (lo hi : Z) (r : squid_client_bytes) : Prop :=
  lo <= ref_data r /\ 0 <= ref_size r /\ ref_data r + ref_size r <= hi.

(** An entry of LIST and SEARCH: identifier and name, each after its size. *)
Definition split_listed (b : list Z) : option (list Z * list Z * nat) :=
  match b with
  | id_size :: b =>
      match drop (Z.to_nat id_size) b with
      | name_size :: b' =>
          if name_size <=? zlen b'
          then Some ((take (Z.to_nat id_size) b, take (Z.to_nat name_size) b'),
                     (2 + Z.to_nat id_size + Z.to_nat name_size)%nat)
          else None
      | [] => None
      end
  | [] => None
  end.
(** A value of INFO: its type and its bytes, after their size. *)
Definition split_value (b : list Z) : option (Z * list Z * nat) :=
  match b with
  | ty :: size :: b =>
      if size <=? zlen b then Some ((ty, take (Z.to_nat size) b), (2 + Z.to_nat size)%nat) else None
  | _ => None
  end.

(** ** Iterating *)

Section iterate.
Context {N : Type} `{Squid N} `{ClientHost N} (fd cap : Z) (idle : bool).
Local Abbreviation at_mem := (at_mem fd cap idle).
Context {P E V : Type}.

(** The caller's loop: items until the call returns something else. *)
Fixpoint iterate (next : P -> CT (client_state N) (Z * P * option E)) (fuel : nat) (page : P)
    : CT (client_state N) (Z * list E) :=
  match fuel with
  | O => fun _ => Waiting
  | S fuel =>
      let^ '(result, page, item) := next page in
      match item with
      | Some item => let^ '(code, items) := iterate next fuel page in cret (code, item :: items)
      | None => cret (result, [])
      end
  end.

(** What an iteration must do: [page left next end] is the page with [left]
    items at [next..end], [resolve mem] the value an item refers to, [refs] the
    references it holds. *)
Class Iterates (next : P -> CT (client_state N) (Z * P * option E)) (page : Z -> Z -> Z -> P)
    (resolve : list Z -> E -> V) (refs : E -> list squid_client_bytes) (split : list Z -> option (V * nat)) : Prop := {
  split_size : forall b v k, bytes_ok b -> split b = Some (v, k) -> (k <= length b)%nat;
  next_end : forall n mem p e, next (page 0 p e) (at_mem n mem) =
    Returns (if p =? e then 0 else SQUID_CLIENT_ERROR_PROTOCOL, page 0 p e, None) (at_mem n mem);
  next_bad : forall n pre b post left, bytes_ok b -> 0 < left <= 255 -> zlen b < 65536 -> split b = None ->
    let mem := pre ++ b ++ post in let p := page left (zlen pre) (zlen pre + zlen b) in
    next p (at_mem n mem) = Returns (SQUID_CLIENT_ERROR_PROTOCOL, p, None) (at_mem n mem);
  next_item : forall n pre b post left v k, bytes_ok b -> 0 < left <= 255 -> zlen b < 65536 -> split b = Some (v, k) ->
    let mem := pre ++ b ++ post in
    exists item, resolve mem item = v /\
    Forall (ref_inside (zlen pre) (zlen pre + zlen b)) (refs item) /\
    next (page left (zlen pre) (zlen pre + zlen b)) (at_mem n mem) =
      Returns (1, page (left - 1) (zlen pre + Z.of_nat k) (zlen pre + zlen b), Some item) (at_mem n mem) }.

Lemma inside_weaken lo lo' hi r : lo <= lo' -> ref_inside lo' hi r -> ref_inside lo hi r.
Proof. unfold ref_inside. lia. Qed.

Lemma iterate_spec next page resolve refs split `{!Iterates next page resolve refs split}
    (n : N) post count : forall pre b,
  bytes_ok b -> (count <= 255)%nat -> zlen b < 65536 ->
  let mem := pre ++ b ++ post in
  exists items,
    iterate next (S count) (page (Z.of_nat count) (zlen pre) (zlen pre + zlen b)) (at_mem n mem) =
      Returns (match decode_items split count b with Some _ => 0 | None => SQUID_CLIENT_ERROR_PROTOCOL end, items)
        (at_mem n mem) /\
    map (resolve mem) items = decoded_prefix split count b /\
    Forall (fun item => Forall (ref_inside (zlen pre) (zlen pre + zlen b)) (refs item)) items.
Proof.
  induction count as [|count IH]; intros pre b Hok Hcount Hsize mem; cbn [iterate].
  - exists []. change (Z.of_nat 0) with 0. rewrite (cbind_returns _ _ _ _ _ (next_end n mem _ _)).
    cbn [decode_items]. destruct b as [|x b].
    + rewrite zlen_nil, Z.add_0_r, Z.eqb_refl. by split_and!; [done|done|constructor].
    + pose proof (zlen_nonneg b). rewrite zlen_cons.
      destruct (Z.eqb_spec (zlen pre) (zlen pre + (1 + zlen b))); [lia|]. by split_and!; [done|done|constructor].
  - cbn [decode_items decoded_prefix]. destruct (split b) as [[v k]|] eqn:Es.
    2: { exists []. erewrite cbind_returns by (apply (next_bad n pre b post); [done|lia|done|done]).
      by split_and!; [done|done|constructor]. }
    destruct (next_item n pre b post (Z.of_nat (S count)) v k Hok ltac:(lia) Hsize Es) as (item & Hv & Hin & Hnext).
    rewrite (cbind_returns _ _ _ _ _ Hnext). pose proof (split_size b v k Hok Es) as Hk.
    assert (Hmem : mem = (pre ++ take k b) ++ drop k b ++ post).
    { unfold mem. rewrite <- app_assoc. f_equal. rewrite app_assoc. by rewrite take_drop. }
    assert (Hpre : zlen (pre ++ take k b) = zlen pre + Z.of_nat k) by (rewrite zlen_app, zlen_take; unfold zlen; lia).
    assert (Hrest : zlen pre + Z.of_nat k + zlen (drop k b) = zlen pre + zlen b) by (rewrite zlen_drop; unfold zlen; lia).
    destruct (IH (pre ++ take k b) (drop k b)) as (items & Hall & Hitems & Hins);
      [by apply Forall_drop|lia|rewrite zlen_drop; lia|].
    rewrite <- Hmem in *. rewrite Hpre, Hrest in Hall, Hins. replace (Z.of_nat (S count) - 1) with (Z.of_nat count) by lia.
    rewrite (cbind_returns _ _ _ _ _ Hall). exists (item :: items). unfold cret.
    split; [by destruct (decode_items split count (drop k b))|]. split.
    + cbn [map]. f_equal; [exact Hv|exact Hitems].
    + constructor; [done|]. eapply Forall_impl; [exact Hins|]. intros e He.
      eapply Forall_impl; [exact He|]. intros r. apply inside_weaken. lia.
Qed.
End iterate.

(** ** The two page formats *)

Section pages.
Context {N : Type} `{Squid N} `{ClientHost N} (fd cap : Z) (idle : bool).
Local Abbreviation at_mem := (at_mem fd cap idle).

(** The bytes a reference points to. *)
Definition referred (mem : list Z) (r : squid_client_bytes) : list Z :=
  take (Z.to_nat (ref_size r)) (drop (Z.to_nat (ref_data r)) mem).
Definition listed (mem : list Z) (e : squid_client_retro_entry) : list Z * list Z :=
  (referred mem (re_id e), referred mem (re_name e)).
Definition valued (mem : list Z) (v : squid_client_retro_value) : Z * list Z :=
  (rv_type v, referred mem (rv_value v)).
Definition entry_refs (e : squid_client_retro_entry) : list squid_client_bytes := [re_id e; re_name e].
Definition value_refs (v : squid_client_retro_value) : list squid_client_bytes := [rv_value v].

Definition list_page (cursor left next last : Z) : option squid_client_retro_list :=
  Some (RetroList cursor left (Some next) (Some last)).
Definition info_page (cursor left next last : Z) : option squid_client_retro_info :=
  Some (RetroInfo cursor left (Some next) (Some last)).

(** Byte [i] of [b] in the workspace. *)
Lemma get_byte_mid (n : N) pre b post i v : b !! i = Some v -> bytes_ok b ->
  get_byte (zlen pre + Z.of_nat i) (at_mem n (pre ++ b ++ post)) = Returns v (at_mem n (pre ++ b ++ post)).
Proof.
  intros Hv Hb. pose proof (zlen_nonneg pre). apply get_byte_at; [lia| |exact (Forall_lookup_1 _ _ _ _ Hb Hv)].
  unfold zlen. rewrite <- Nat2Z.inj_add, Nat2Z.id, lookup_app_r by lia.
  replace (length pre + i - length pre)%nat with i by lia. by apply lookup_app_l_Some.
Qed.

(** [size] bytes at offset [i] of [b]. *)
Lemma referred_mid pre b post i size : 0 <= size -> (i + Z.to_nat size <= length b)%nat ->
  referred (pre ++ b ++ post) (ClientBytes (zlen pre + Z.of_nat i) size) = take (Z.to_nat size) (drop i b).
Proof.
  intros Hs Hi. unfold referred. cbn [ref_size ref_data]. unfold zlen. rewrite <- Nat2Z.inj_add, Nat2Z.id, drop_app_add.
  rewrite drop_app_le by lia. rewrite take_app_le; [done|]. rewrite length_drop. lia.
Qed.

Lemma split_listed_shape b : bytes_ok b ->
  match split_listed b with
  | None => b = [] \/ (exists a s, b = a :: s /\ is_byte a /\ (zlen s <= a \/
      exists c s', drop (Z.to_nat a) s = c :: s' /\ is_byte c /\ zlen s' < c))
  | Some (v, k) => exists a s c s', b = a :: s /\ is_byte a /\ drop (Z.to_nat a) s = c :: s' /\ is_byte c /\
      c <= zlen s' /\ v = (take (Z.to_nat a) s, take (Z.to_nat c) s') /\ k = (2 + Z.to_nat a + Z.to_nat c)%nat
  end.
Proof.
  intros Hb. unfold split_listed. destruct b as [|a s]; [by left|].
  apply Forall_cons_1 in Hb as [Ha Hs]. destruct (drop (Z.to_nat a) s) as [|c s'] eqn:Ed.
  - right. exists a, s. split_and!; [done|done|]. left. apply (f_equal length) in Ed. rewrite length_drop in Ed.
    unfold is_byte, zlen in *. cbn in Ed. lia.
  - assert (Hc : is_byte c).
    { apply (Forall_drop _ (Z.to_nat a)) in Hs. rewrite Ed in Hs. by apply Forall_cons_1 in Hs as [? _]. }
    destruct (Z.leb_spec c (zlen s')); [by exists a, s, c, s'|]. right. exists a, s. split_and!; [done|done|]. right. by exists c, s'.
Qed.

(** One call on a page whose remaining bytes are [b]. *)
Lemma list_next_eq cursor (n : N) pre b post left : bytes_ok b -> 0 < left <= 255 -> zlen b < 65536 ->
  let mem := pre ++ b ++ post in
  squid_client_retro_list_next (list_page cursor left (zlen pre) (zlen pre + zlen b)) true (at_mem n mem) =
  match split_listed b with
  | None => Returns (SQUID_CLIENT_ERROR_PROTOCOL, list_page cursor left (zlen pre) (zlen pre + zlen b), None) (at_mem n mem)
  | Some ((id, name), k) =>
      Returns (1, list_page cursor (left - 1) (zlen pre + Z.of_nat k) (zlen pre + zlen b),
        Some (RetroEntry (ClientBytes (zlen pre + 1) (zlen id)) (ClientBytes (zlen pre + 2 + zlen id) (zlen name)))) (at_mem n mem)
  end.
Proof.
  intros Hb Hl Hsize mem. pose proof (split_listed_shape b Hb) as Hs.
  unfold squid_client_retro_list_next, list_page. cbn [rl_entries_left rl_next rl_end rl_next_cursor].
  destruct (Z.eqb_spec left 0); [lia|]. pose proof (zlen_nonneg pre).
  destruct b as [|a s]; [rewrite zlen_nil; by destruct (Z.leb_spec (zlen pre + 0) (zlen pre)); [|lia]|].
  assert (Ha : 0 <= a < 256) by (by apply Forall_cons_1 in Hb as [? _]).
  rewrite zlen_cons in *. pose proof (zlen_nonneg s).
  destruct (Z.leb_spec (zlen pre + (1 + zlen s)) (zlen pre)); [lia|].
  rewrite (Z.add_simpl_l (zlen pre)), (u16_small (1 + zlen s)) by lia.
  pose proof (get_byte_mid n pre (a :: s) post 0 a eq_refl Hb) as Hg. rewrite Z.add_0_r in Hg.
  rewrite (cbind_returns _ _ _ _ _ Hg), (u16_small (2 + a)) by lia.
  assert (Hname : forall c s', drop (Z.to_nat a) s = c :: s' -> is_byte c ->
    get_byte (zlen pre + 1 + a) (at_mem n mem) = Returns c (at_mem n mem) /\ zlen s = a + 1 + zlen s' /\ u16 (2 + a + c) = 2 + a + c).
  { intros c s' Hd Hc. unfold is_byte in Hc. rewrite u16_small by lia. pose proof (f_equal length Hd) as Hlen.
    rewrite length_drop in Hlen. cbn in Hlen. split_and!; [|unfold zlen; lia|done].
    replace (zlen pre + 1 + a) with (zlen pre + Z.of_nat (1 + Z.to_nat a)) by lia. apply get_byte_mid; [|done].
    apply (f_equal (fun l => l !! O)) in Hd. cbv beta in Hd. rewrite lookup_drop, Nat.add_0_r in Hd. exact Hd. }
  destruct (split_listed (a :: s)) as [[v k]|].
  - destruct Hs as (a' & t & c & s' & [= <- <-] & _ & Hd & Hc & Hcl & -> & ->).
    destruct (Hname c s' Hd Hc) as (Hg2 & Hz & Hu). unfold is_byte in Hc.
    destruct (Z.ltb_spec (1 + zlen s) (2 + a)); [lia|]. rewrite (cbind_returns _ _ _ _ _ Hg2), Hu.
    destruct (Z.ltb_spec (1 + zlen s) (2 + a + c)); [lia|]. rewrite u8_small, !zlen_take, !Z2Nat.id, !Z.min_l by lia.
    unfold cret. by replace (Z.of_nat (2 + Z.to_nat a + Z.to_nat c)) with (2 + a + c) by lia.
  - destruct Hs as [?|(a' & t & [= <- <-] & _ & Hs)]; [done|].
    destruct (Z.ltb_spec (1 + zlen s) (2 + a)); [done|]. destruct Hs as [?|(c & s' & Hd & Hc & Hlt)]; [lia|].
    destruct (Hname c s' Hd Hc) as (Hg2 & Hz & Hu). rewrite (cbind_returns _ _ _ _ _ Hg2), Hu.
    destruct (Z.ltb_spec (1 + zlen s) (2 + a + c)); [done|lia].
Qed.

#[export] Instance list_iterates cursor : Iterates (N := N) fd cap idle
  (fun p => squid_client_retro_list_next p true) (list_page cursor) listed entry_refs split_listed.
Proof.
  split.
  - intros b v k Hb E. pose proof (split_listed_shape b Hb) as Hs. rewrite E in Hs.
    destruct Hs as (a & s & c & s' & -> & Ha & Hd & Hc & Hcl & _ & ->). apply (f_equal length) in Hd.
    rewrite length_drop in Hd. unfold is_byte, zlen in *. cbn in *. lia.
  - done.
  - intros n pre b post left Hb Hl Hsize E mem p. unfold p, mem. rewrite list_next_eq by done. by rewrite E.
  - intros n pre b post left v k Hb Hl Hsize E mem. unfold mem. rewrite list_next_eq, E by done.
    pose proof (split_listed_shape b Hb) as Hs. rewrite E in Hs.
    destruct Hs as (a & s & c & s' & -> & Ha & Hd & Hc & Hcl & -> & ->). unfold is_byte in Ha, Hc.
    pose proof (f_equal length Hd) as Hlen. rewrite length_drop in Hlen. cbn in Hlen.
    rewrite !zlen_take, !Z2Nat.id, !Z.min_l by (unfold zlen in *; lia).
    eexists. refine (conj _ (conj _ eq_refl)).
    2: { repeat constructor; unfold ref_inside; cbn; rewrite ?zlen_cons; unfold zlen in *; lia. }
    unfold listed. cbn [re_id re_name]. f_equal.
    + apply (referred_mid pre (a :: s) post 1 a); [lia|cbn; unfold zlen in *; lia].
    + replace (zlen pre + 2 + a) with (zlen pre + Z.of_nat (2 + Z.to_nat a)) by lia.
      rewrite referred_mid; [|lia|cbn; unfold zlen in *; lia]. f_equal. cbn [Nat.add drop].
      by rewrite <- Nat.add_1_r, <- drop_drop, Hd.
Qed.

Lemma info_next_eq cursor (n : N) pre b post left : bytes_ok b -> 0 < left <= 255 -> zlen b < 65536 ->
  let mem := pre ++ b ++ post in
  squid_client_retro_info_next (info_page cursor left (zlen pre) (zlen pre + zlen b)) true (at_mem n mem) =
  match split_value b with
  | None => Returns (SQUID_CLIENT_ERROR_PROTOCOL, info_page cursor left (zlen pre) (zlen pre + zlen b), None) (at_mem n mem)
  | Some ((ty, v), k) =>
      Returns (1, info_page cursor (left - 1) (zlen pre + Z.of_nat k) (zlen pre + zlen b),
        Some (RetroValue ty (ClientBytes (zlen pre + 2) (zlen v)))) (at_mem n mem)
  end.
Proof.
  intros Hb Hl Hsize mem. unfold squid_client_retro_info_next, info_page. cbn [ri_values_left ri_next ri_end ri_next_cursor].
  destruct (Z.eqb_spec left 0); [lia|]. pose proof (zlen_nonneg pre). pose proof (zlen_nonneg b).
  rewrite (Z.add_simpl_l (zlen pre)), (u16_small (zlen b)) by lia.
  destruct (Z.ltb_spec (zlen pre + zlen b) (zlen pre)); [lia|]. cbn [orb].
  destruct b as [|ty [|size b]]; [done..|]. rewrite !zlen_cons in *. pose proof (zlen_nonneg b).
  destruct (Z.ltb_spec (1 + (1 + zlen b)) 2); [lia|].
  assert (Hs : 0 <= size < 256) by (apply Forall_cons_1 in Hb as [_ Hb]; by apply Forall_cons_1 in Hb as [? _]).
  rewrite (cbind_returns _ _ _ _ _ (get_byte_mid n pre (ty :: size :: b) post 1 size eq_refl Hb)), u16_small by lia.
  cbn [split_value]. destruct (Z.leb_spec size (zlen b)), (Z.ltb_spec (1 + (1 + zlen b)) (2 + size)); try lia; [|done].
  pose proof (get_byte_mid n pre (ty :: size :: b) post 0 ty eq_refl Hb) as Hg. rewrite Z.add_0_r in Hg.
  rewrite (cbind_returns _ _ _ _ _ Hg), u8_small, zlen_take, Z2Nat.id, Z.min_l by lia. unfold cret.
  by replace (zlen pre + Z.of_nat (2 + Z.to_nat size)) with (zlen pre + 2 + size) by lia.
Qed.

#[export] Instance info_iterates cursor : Iterates (N := N) fd cap idle
  (fun p => squid_client_retro_info_next p true) (info_page cursor) valued value_refs split_value.
Proof.
  split.
  - intros b v k Hb E. destruct b as [|ty [|size b]]; [done..|]. cbn [split_value] in E.
    destruct (Z.leb_spec size (zlen b)); [|done]. injection E as _ <-. unfold zlen in *. cbn. lia.
  - done.
  - intros n pre b post left Hb Hl Hsize E mem p. unfold p, mem. rewrite info_next_eq by done. by rewrite E.
  - intros n pre b post left v k Hb Hl Hsize E mem. unfold mem. rewrite info_next_eq, E by done.
    destruct b as [|ty [|size b]]; [done..|]. cbn [split_value] in E.
    assert (Hs : 0 <= size < 256) by (apply Forall_cons_1 in Hb as [_ Hb]; by apply Forall_cons_1 in Hb as [? _]).
    destruct (Z.leb_spec size (zlen b)); [|done]. injection E as <- <-.
    rewrite zlen_take, Z2Nat.id, Z.min_l by lia. eexists. refine (conj _ (conj _ eq_refl)).
    2: { repeat constructor; unfold ref_inside; cbn; rewrite ?zlen_cons; unfold zlen in *; lia. }
    unfold valued. cbn [rv_type rv_value]. f_equal.
    apply (referred_mid pre (ty :: size :: b) post 2 size); [lia|cbn; unfold zlen in *; lia].
Qed.

(** C37. Iterating over a page of the retrovault service decodes the page format
    exactly, on every byte string a server may send: the entries of LIST and
    SEARCH and the values of INFO come out one by one as the reference decoder
    reads them, and the iteration ends with 0 when the announced items use up
    the page and with a protocol error when one of them would run past its end
    or bytes are left over.  Also then the items handed out before are exactly
    those that can be read at the front of the page, and every reference of
    every item lies inside the page; no byte outside the page is read. *)
Theorem retro_pages_decoded (n : N) pre b post cursor count :
  bytes_ok b -> (count <= 255)%nat -> zlen b < 65536 ->
  let mem := pre ++ b ++ post in
  let lo := zlen pre in let hi := zlen pre + zlen b in
  (exists entries,
     iterate (fun p => squid_client_retro_list_next p true) (S count)
       (list_page cursor (Z.of_nat count) lo hi) (at_mem n mem) =
       Returns (match decode_items split_listed count b with Some _ => 0 | None => SQUID_CLIENT_ERROR_PROTOCOL end, entries)
         (at_mem n mem) /\
     (forall l, decode_items split_listed count b = Some l -> map (listed mem) entries = l) /\
     map (listed mem) entries = decoded_prefix split_listed count b /\
     Forall (fun e => Forall (ref_inside lo hi) (entry_refs e)) entries) /\
  (exists values,
     iterate (fun p => squid_client_retro_info_next p true) (S count)
       (info_page cursor (Z.of_nat count) lo hi) (at_mem n mem) =
       Returns (match decode_items split_value count b with Some _ => 0 | None => SQUID_CLIENT_ERROR_PROTOCOL end, values)
         (at_mem n mem) /\
     (forall l, decode_items split_value count b = Some l -> map (valued mem) values = l) /\
     map (valued mem) values = decoded_prefix split_value count b /\
     Forall (fun v => Forall (ref_inside lo hi) (value_refs v)) values).
Proof.
  intros Hb Hc Hs mem lo hi. split.
  - destruct (iterate_spec fd cap idle _ (list_page cursor) listed entry_refs split_listed n post count
      pre b Hb Hc Hs) as (items & Hit & Hp & Hin). exists items. split_and!; [done| |done|done].
    intros l Hl. etrans; [exact Hp|]. by apply decode_items_prefix.
  - destruct (iterate_spec fd cap idle _ (info_page cursor) valued value_refs split_value n post count
      pre b Hb Hc Hs) as (items & Hit & Hp & Hin). exists items. split_and!; [done| |done|done].
    intros l Hl. etrans; [exact Hp|]. by apply decode_items_prefix.
Qed.

(** The entries the service writes are read back. *)
Lemma split_listed_entry id name rest :
  split_listed (zlen id :: id ++ zlen name :: name ++ rest) = Some ((id, name), (2 + length id + length name)%nat).
Proof.
  cbn [split_listed]. unfold zlen. rewrite Nat2Z.id, drop_app_length, length_app, take_app_length.
  destruct (Z.leb_spec (Z.of_nat (length name)) (Z.of_nat (length name + length rest))); [|lia].
  by rewrite Nat2Z.id, take_app_length.
Qed.
Lemma drop_listed_entry id name rest :
  drop (2 + length id + length name) (zlen id :: id ++ zlen name :: name ++ rest) = rest.
Proof.
  cbn [Nat.add drop]. rewrite <- (drop_app_length (id ++ zlen name :: name) rest) at 2.
  rewrite <- app_assoc, length_app. cbn [app length]. f_equal. lia.
Qed.
Lemma decode_listed l :
  decode_items split_listed (length l) (concat (map (fun e => zlen e.1 :: e.1 ++ zlen e.2 :: e.2) l)) = Some l.
Proof.
  induction l as [|[id name] l IH]; [done|]. cbn [map concat length decode_items fst snd].
  rewrite <- app_comm_cons, <- app_assoc, <- app_comm_cons, split_listed_entry, drop_listed_entry. cbv beta iota zeta. by rewrite IH.
Qed.
End pages.
