(* ===== verification/ClientVault.v ===== *)
(** The client and the retrovault service over a working link: listing the
    whole catalog, page after page. *)
From stdpp Require Import base numbers list option gmultiset strings.
From Stdlib Require Import ZArith Lia.
From S2P Require Import Prelude Wire CLib PluginApi Heap Vault VaultCatalog VaultServe VaultPages VaultProps VaultPaging Curl VaultPlugin.
From S2P Require Import Runtime Client ClientCalls ClientRetro ClientSafety ClientProps ClientLink ClientPages.

Local Open Scope Z_scope.
Local Open Scope squid_scope.

(** ** The request *)

(** The bytes of a LIST request; no model is asked for by an empty one. *)
Definition model_bytes (model : list Z) : list Z :=
  match model with [] => [] | _ => zlen model :: model end.
Definition list_request (cursor : Z) (platform model : list Z) : list Z :=
  RETRO_VAULT_OP_LIST :: le16 cursor ++ zlen platform :: platform ++ model_bytes model.

Lemma zlen_model_bytes model : zlen (model_bytes model) = if 0 <? zlen model then 1 + zlen model else 0.
Proof.
  destruct model as [|x model]; [done|]. unfold model_bytes. rewrite !zlen_cons. pose proof (zlen_nonneg model).
  by destruct (Z.ltb_spec 0 (1 + zlen model)); [|lia].
Qed.
Lemma zlen_list_request cursor platform model :
  zlen (list_request cursor platform model) = 4 + zlen platform + zlen (model_bytes model).
Proof. unfold list_request, le16. autorewrite with zlen. lia. Qed.

(** The service reads what the client wrote. *)
Lemma list_request_read cursor platform model : 0 <= cursor < 65535 -> bytes_ok platform -> bytes_ok model ->
  zlen platform < 256 -> zlen model < 256 ->
  read_list_request RETRO_VAULT_OP_LIST (list_request cursor platform model) (zlen (list_request cursor platform model))
    = Some (Some (cursor, platform, [], model)).
Proof.
  intros Hc Hp Hm Hpl Hml. unfold read_list_request. rewrite zlen_list_request.
  pose proof (zlen_nonneg platform). pose proof (zlen_nonneg (model_bytes model)).
  destruct (Z.ltb_spec (4 + zlen platform + zlen (model_bytes model)) 4); [lia|].
  assert (Hcur : read_u16 (list_request cursor platform model) 1 = Some cursor).
  { unfold read_u16, list_request, le16. cbn [app]. rewrite (rd_Some _ 1 (u8 (Z.land cursor 255))), (rd_Some _ (1 + 1) (u8 (Z.shiftr cursor 8)));
      [|lia|done|apply u8_range|lia|done|apply u8_range].
    rewrite read_u16_val by apply u8_range. f_equal. apply of_le16_le16. lia. }
  rewrite Hcur. unfold RETRO_VAULT_CURSOR_END. destruct (Z.eqb_spec cursor 65535); [lia|].
  assert (Hsize : rd (list_request cursor platform model) 3 = Some (zlen platform)).
  { apply rd_Some; [lia|done|lia]. }
  rewrite Hsize. destruct (Z.ltb_spec (4 + zlen platform + zlen (model_bytes model) - 4) (zlen platform)); [lia|].
  assert (Hplat : rd_bytes (list_request cursor platform model) 4 (zlen platform) = Some platform).
  { exact (rd_bytes_mid (RETRO_VAULT_OP_LIST :: le16 cursor ++ [zlen platform]) platform (model_bytes model) Hp). }
  rewrite Hplat. change (RETRO_VAULT_OP_LIST =? RETRO_VAULT_OP_SEARCH) with false. cbv iota beta zeta.
  destruct model as [|x model]; cbn [model_bytes].
  { rewrite zlen_nil, Z.add_0_r, Z.ltb_irrefl, Z.eqb_refl. done. }
  remember (x :: model) as m eqn:Em. rewrite zlen_cons. pose proof (zlen_nonneg m).
  destruct (Z.ltb_spec (4 + zlen platform) (4 + zlen platform + (1 + zlen m))); [|lia].
  assert (Hpre : zlen (RETRO_VAULT_OP_LIST :: le16 cursor ++ zlen platform :: platform) = 4 + zlen platform).
  { unfold le16. autorewrite with zlen. lia. }
  assert (Hreq : list_request cursor platform m =
    (RETRO_VAULT_OP_LIST :: le16 cursor ++ zlen platform :: platform) ++ [zlen m] ++ m ++ []).
  { subst m. unfold list_request. rewrite app_nil_r. done. }
  rewrite Hreq. remember (RETRO_VAULT_OP_LIST :: le16 cursor ++ zlen platform :: platform) as pre eqn:Epre. clear Epre Hreq Hcur Hsize Hplat.
  rewrite <- Hpre. rewrite (rd_Some _ (zlen pre) (zlen m)).
  2: { apply zlen_nonneg. }
  2: { unfold zlen at 1. rewrite Nat2Z.id, lookup_app_r, Nat.sub_diag by done. done. }
  2: { done. }
  destruct (Z.eqb_spec (zlen m) (zlen pre + (1 + zlen m) - (zlen pre + 1))); cbn [negb]; [|lia].
  pose proof (rd_bytes_mid (pre ++ [zlen m]) m [] Hm) as Hr. rewrite <- app_assoc, zlen_app in Hr.
  change (zlen [zlen m]) with 1 in Hr. by rewrite Hr.
Qed.

(** ** The service's side *)

Lemma bind_returns {S A B} (m : ST S A) (k : A -> ST S B) s a s' : m s = Some (a, s') -> bind m k s = k a s'.
Proof. unfold bind. by intros ->. Qed.

Section service.
Context {NV : Type} (time_now : NV -> Z * NV) (c : retro_vault_context NV) (platform model response_mem : list Z) (port : Z).
Context (c_ok : context_ok c) (platform_ok : bytes_ok platform) (model_ok : bytes_ok model)
  (sizes_ok : zlen platform + zlen model <= 250) (mem_ok : zlen response_mem = 255) (port_ok : 0 <= port).

(** The catalog does not get stale. *)
Context (fresh : forall n, catalog_is_fresh c (time_now n).1 = true).

(** A started plugin with this context. *)
Definition serving (s : vault_world NV) : Prop := vault_started (vw_state s) <> 0 /\ vault_context (vw_state s) = c.

Abbreviation found := (selected platform model [] (contents (packages c))).
Definition page_count (cursor : nat) : nat := fill 255 250 true (drop cursor found).
Definition page_items (cursor : nat) : list (list Z * list Z) := omap (shown 255) (take (page_count cursor) (drop cursor found)).
Definition page_next (cursor : nat) : Z := next_of (Z.of_nat cursor) (page_count cursor) (length (drop cursor found)).
Definition page_bytes (cursor : nat) : list Z :=
  header RETRO_VAULT_OP_LIST 0 ++ le16 (page_next cursor) ++ zlen (page_items cursor) :: bytes_of (page_items cursor).

Lemma ids_short : Forall (fun p => zlen (view (p_id p)) <= 247 -> zlen (view (p_id p)) + 2 <= 255 - 5) (contents (packages c)).
Proof. apply Forall_forall. intros p _ Hl. lia. Qed.

Lemma page_bytes_ok cursor : bytes_ok (bytes_of (page_items cursor)).
Proof.
  apply (items_bytes c 255 []); [done|lia|exact ids_short|]. apply Forall_take, Forall_drop, Forall_forall. intros p Hp.
  apply list_elem_of_In in Hp. apply list_elem_of_In. unfold selected in Hp. by apply List.filter_In in Hp as [? _].
Qed.

Lemma request_bytes cursor : bytes_ok (list_request cursor platform model).
Proof.
  unfold list_request. constructor; [done|]. apply Forall_app. split; [repeat constructor; apply u8_range|].
  pose proof (zlen_nonneg platform). pose proof (zlen_nonneg model).
  constructor; [unfold is_byte; lia|]. apply Forall_app. split; [done|].
  unfold model_bytes. destruct model; [constructor|]. constructor; [unfold is_byte; lia|done].
Qed.
Lemma request_size cursor : 4 <= zlen (list_request cursor platform model) <= 255.
Proof.
  rewrite zlen_list_request, zlen_model_bytes. pose proof (zlen_nonneg platform). pose proof (zlen_nonneg model).
  destruct (Z.ltb_spec 0 (zlen model)); lia.
Qed.

Lemma page_size cursor : (cursor <= length found)%nat ->
  5 + zlen (bytes_of (page_items cursor)) <= 255 /\ zlen (page_items cursor) < 256 /\ 0 <= page_next cursor < 65536.
Proof.
  intros Hcur. destruct (page_exact c RETRO_VAULT_OP_LIST 255 platform model [] response_mem c_ok ltac:(lia) ltac:(lia) ids_short cursor Hcur)
    as (buf & _ & _ & _ & Hcap & _ & Hcnt). split_and!; [done|done|..];
    by apply (next_range c 255 platform model [] c_ok).
Qed.
Lemma zlen_page_bytes cursor : zlen (page_bytes cursor) = 5 + zlen (bytes_of (page_items cursor)).
Proof. unfold page_bytes, header, le16. autorewrite with zlen. lia. Qed.

Lemma ensure_fresh w : ensure_catalog time_now c w =
  Some ((RETRO_VAULT_STATUS_OK, c), World (w_mem w) (time_now (w_net w)).2).
Proof.
  specialize (fresh (w_net w)). unfold ensure_catalog. rewrite (bind_returns _ _ _ (time_now (w_net w)).1 (World (w_mem w) (time_now (w_net w)).2)).
  - by rewrite fresh.
  - unfold c_time. by destruct (time_now (w_net w)).
Qed.

Lemma list_served_fresh cursor w : (cursor <= length found)%nat -> Z.of_nat cursor < 65535 ->
  let req := list_request (Z.of_nat cursor) platform model in
  exists buf, handle_retro_vault_request time_now c req (zlen req) response_mem 255 w =
      Some ((buf, 5 + zlen (bytes_of (page_items cursor)), c), World (w_mem w) (time_now (w_net w)).2) /\
    take (Z.to_nat (5 + zlen (bytes_of (page_items cursor)))) buf = page_bytes cursor /\
    5 + zlen (bytes_of (page_items cursor)) <= 255.
Proof.
  intros Hcur Hmax req. destruct (page_exact c RETRO_VAULT_OP_LIST 255 platform model [] response_mem c_ok ltac:(lia) ltac:(lia) ids_short cursor Hcur)
    as (buf & E & _ & Hbytes & Hcap & _). exists buf. split; [|done].
  pose proof (request_size (Z.of_nat cursor)) as Hsize. fold req in Hsize. pose proof (zlen_nonneg platform). pose proof (zlen_nonneg model).
  unfold handle_retro_vault_request. destruct (Z.eqb_spec (zlen req) 0); [lia|]. change (255 <? 2) with false. cbn [orb].
  rewrite (bind_returns _ _ _ RETRO_VAULT_OP_LIST w) by done.
  change (RETRO_VAULT_OP_LIST =? RETRO_VAULT_OP_CAPABILITIES) with false. change (_ || _) with true. cbv iota.
  unfold handle_list_or_search. rewrite (bind_returns _ _ _ (Some (Z.of_nat cursor, platform, [], model)) w).
  2: { unfold lift, req. by rewrite list_request_read by (done || lia). }
  rewrite (bind_returns _ _ _ _ _ (ensure_fresh w)). change (negb (RETRO_VAULT_STATUS_OK =? RETRO_VAULT_STATUS_OK)) with false.
  cbv iota beta. unfold answer, bind, lift. by rewrite E.
Qed.

Lemma list_reply cursor s : (cursor <= length found)%nat -> Z.of_nat cursor < 65535 -> serving s ->
  exists s', plugin_reply (handle_retro_vault_packet time_now) port response_mem
      (list_request (Z.of_nat cursor) platform model) s = (Some (page_bytes cursor), s') /\ serving s'.
Proof.
  intros Hcur Hmax [Hst Hctx]. unfold plugin_reply, handle_retro_vault_packet, packet_entry.
  cbn [view_data view_size packet_data packet_capacity packet_mem]. unfold server_packet_max.
  pose proof (request_size (Z.of_nat cursor)) as Hsize. destruct (list_served_fresh cursor (vw_world s) Hcur Hmax) as (buf & E & Hbytes & Hcap).
  set (req := list_request (Z.of_nat cursor) platform model) in *.
  unfold response_address. destruct (Z.eqb_spec (zlen req) 0), (Z.eqb_spec (1 + port) 0); try lia. cbn [Z.eqb orb].
  rewrite (bind_returns _ _ _ (buf, 5 + zlen (bytes_of (page_items cursor)))
    (VaultWorld (World (w_mem (vw_world s)) (time_now (w_net (vw_world s))).2)
       (VaultPluginState c (vault_curl (vw_state s)) (vault_started (vw_state s))))).
  2: { unfold vault_core. rewrite (bind_returns _ _ _ (vw_state s) s) by done.
       destruct (Z.eqb_spec (vault_started (vw_state s)) 0); [done|]. rewrite Hctx.
       unfold bind at 1, on_world. by rewrite E. }
  pose proof (zlen_nonneg (bytes_of (page_items cursor))).
  destruct (Z.ltb_spec (5 + zlen (bytes_of (page_items cursor))) 0); [lia|]. unfold ret. cbv iota beta.
  cbn [packet_size packet_mem Z.eqb andb]. rewrite u64_small by lia.
  destruct (Z.ltb_spec 0 (5 + zlen (bytes_of (page_items cursor)))); [|lia]. rewrite Hbytes. eexists. split; [done|]. by split.
Qed.
End service.

(** ** The client's side *)

Lemma cbind_assoc {S A B D} (m : CT S A) (k : A -> CT S B) (l : B -> CT S D) s :
  cbind (cbind m k) l s = cbind m (fun x => cbind (k x) l) s.
Proof. unfold cbind. by destruct (m s). Qed.
Lemma cbind_cong {S A B} (m : CT S A) (k k' : A -> CT S B) s :
  (forall a s', k a s' = k' a s') -> cbind m k s = cbind m k' s.
Proof. intros Hk. unfold cbind. by destruct (m s). Qed.

Section client.
Context {N : Type} `{Squid N} `{ClientHost N} (fd : Z) (idle : bool) (platform model : list Z).
Context (platform_ok : cstr_ok platform) (model_ok : cstr_ok model) (sizes_ok : zlen platform + zlen model <= 250).
Local Abbreviation at_mem := (at_mem fd 255 idle).

(** The writes of [squid_client_retro_list_call]. *)
Definition write_list_request (cursor : Z) : CT (client_state N) unit :=
  do^ put_byte 1 RETRO_VAULT_OP_LIST;
  do^ squid_client_write_u16 2 cursor;
  do^ put_byte 4 (zlen platform);
  do^ squid_client_copy 5 platform (zlen platform);
  if 0 <? zlen model then
    do^ put_byte (1 + (4 + zlen platform)) (zlen model);
    squid_client_copy (1 + (4 + zlen platform + 1)) model (zlen model)
  else cret tt.

Lemma list_call_eq fuel cursor n mem :
  squid_client_retro_list_call fuel (Some platform) (Some model) cursor true (at_mem n mem) =
  cbind (write_list_request cursor) (fun _ =>
    retro_page_response fuel (zlen (list_request cursor platform model)) RETRO_VAULT_OP_LIST) (at_mem n mem).
Proof.
  pose proof (zlen_nonneg platform). pose proof (zlen_nonneg model). unfold squid_client_retro_list_call, retro_text_size.
  rewrite !text_size_eq by lia. destruct (Z.ltb_spec 255 (zlen platform)), (Z.ltb_spec 255 (zlen model)); try lia.
  rewrite (cbind_returns _ _ _ (Some 255) (at_mem n mem)) by done.
  destruct (Z.ltb_spec (zlen platform) 0), (Z.ltb_spec (zlen model) 0); try lia. cbn [negb orb path_text default].
  rewrite (u16_small (zlen platform)), (u16_small (zlen model)), (u16_small (4 + zlen platform)),
    (u16_small (4 + zlen platform + 1 + zlen model)), (u16_small (4 + zlen platform + 1)), !u8_small by lia. cbv zeta.
  assert (Hsize : (if 0 <? zlen model then 4 + zlen platform + 1 + zlen model else 4 + zlen platform) =
    zlen (list_request cursor platform model)).
  { rewrite zlen_list_request, zlen_model_bytes. destruct (0 <? zlen model); lia. }
  rewrite Hsize. pose proof (request_size platform model sizes_ok cursor).
  destruct (Z.ltb_spec 255 (zlen (list_request cursor platform model))); [lia|].
  unfold write_list_request. repeat (rewrite cbind_assoc; apply cbind_cong; intros ? ?).
  done.
Qed.

Lemma write_list_request_spec cursor n mem : 0 <= cursor <= 65535 -> zlen mem = 256 ->
  exists x rest, write_list_request cursor (at_mem n mem) =
    Returns tt (at_mem n (x :: list_request cursor platform model ++ rest)) /\
    zlen (x :: list_request cursor platform model ++ rest) = 256.
Proof.
  intros Hc Hmem. pose proof (zlen_nonneg platform). pose proof (zlen_nonneg model).
  assert (Hb1 : bytes_ok platform) by (by apply cstr_bytes).
  assert (Hb2 : bytes_ok model) by (by apply cstr_bytes).
  pose proof (filled_nil fd 255 idle 256 n mem Hmem ltac:(lia)) as Hf.
  destruct (cwp_returns (write_list_request cursor)
    (fun _ s1 => filled fd 255 idle 256 (list_request cursor platform model) n s1) (at_mem n mem))
    as ([] & s1 & E & x & rest & -> & HL).
  { unfold write_list_request. do 4 (fill1; [wsolve..|]; intros ? Hf).
    assert (Hreq : forall m, m = model_bytes model -> 
      (((([] ++ [RETRO_VAULT_OP_LIST]) ++ le16 cursor) ++ [zlen platform]) ++ take (Z.to_nat (zlen platform)) platform) ++ m
      = list_request cursor platform model).
    { intros m ->. rewrite <- !app_assoc. cbn [app]. unfold list_request. unfold zlen at 2. rewrite Nat2Z.id, firstn_all. done. }
    destruct (Z.ltb_spec 0 (zlen model)).
    - fill1; [wsolve..|]. intros ? Hf. eapply (cwp_copy _ _ _ _ _ _ _ _ _ _ _ _ Hf); [wsolve..|]. intros s2 Hf2.
      rewrite <- Hreq with (m := [zlen model] ++ take (Z.to_nat (zlen model)) model); [by rewrite app_assoc|].
      unfold zlen at 2. rewrite Nat2Z.id, firstn_all. destruct model; [rewrite zlen_nil in *; lia|done].
    - apply cwp_ret. rewrite <- (Hreq []); [by rewrite app_nil_r|]. by rewrite (zlen_nil_inv model) by lia. }
  exists x, rest. split; [exact E|]. rewrite zlen_cons, zlen_app. lia.
Qed.
End client.

(** ** Over the link *)

Section link.
Context {N NV : Type} `{Squid N} `{ClientHost N} (fd : Z) (up : N -> Prop) (inbox : N -> list Z)
  (peer : N -> vault_world NV) (waits : N -> nat) (port : Z) (response_mem : list Z) (time_now : NV -> Z * NV) (idle : bool).
Context `{LINK : !LinkLaws idle fd up inbox peer waits
                   (plugin_reply (handle_retro_vault_packet time_now) port response_mem)}.
Context (c : retro_vault_context NV) (platform model : list Z).
Local Abbreviation at_mem := (at_mem fd 255 idle).
Local Abbreviation found := (selected platform model [] (contents (packages c))).

(** The caller's loop: all entries of a page, copied out of the workspace, then
    the next page, until the end mark. *)
Fixpoint retro_list_all (rounds : nat) (fuel : nat) (cursor : Z) : CT (client_state N) (Z * list (list Z * list Z)) :=
  match rounds with
  | O => fun _ => Waiting
  | S rounds =>
      let^ '(code, page) := squid_client_retro_list_call fuel (Some platform) (Some model) cursor true in
      match page with
      | None => cret (code, [])
      | Some p =>
          let^ '(code, entries) := iterate (fun p => squid_client_retro_list_next p true) 256 (Some p) in
          if negb (code =? 0) then cret (code, [])
          else
            let^ mem := workspace in
            let l := map (listed mem) entries in
            if rl_next_cursor p =? RETRO_VAULT_CURSOR_END then cret (0, l)
            else
              let^ '(code, more) := retro_list_all rounds fuel (rl_next_cursor p) in
              cret (code, l ++ more)
      end
  end.

Context (c_ok : context_ok c) (platform_ok : cstr_ok platform) (model_ok : cstr_ok model)
  (sizes_ok : zlen platform + zlen model <= 250) (mem_ok : zlen response_mem = 255) (port_ok : 0 <= port).
Context (fresh : forall n, catalog_is_fresh c (time_now n).1 = true).

(** The link is idle and the service ready, the client's workspace usable. *)
Definition ready (n : N) (mem : list Z) : Prop := up n /\ inbox n = [] /\ serving c (peer n) /\ zlen mem = 256.

Lemma list_call_ends cursor n mem : (cursor <= length found)%nat -> Z.of_nat cursor < 65535 -> ready n mem ->
  exists n' tail, let mem' := page_bytes c platform model cursor ++ tail in
    ends (fun fuel => squid_client_retro_list_call fuel (Some platform) (Some model) (Z.of_nat cursor) true)
      (at_mem n mem)
      (0, list_page (page_next c platform model cursor) (zlen (page_items c platform model cursor)) 5
            (5 + zlen (bytes_of (page_items c platform model cursor)))) (at_mem n' mem') /\
    ready n' mem'.
Proof.
  intros Hcur Hmax (Hup & Hin & Hserv & Hmem).
  destruct (write_list_request_spec fd idle platform model platform_ok model_ok sizes_ok (Z.of_nat cursor) n mem ltac:(lia) Hmem)
    as (x & rest & Ew & Hz).
  assert (Hpb : bytes_ok platform) by (by apply cstr_bytes).
  assert (Hmb : bytes_ok model) by (by apply cstr_bytes).
  destruct (list_reply time_now c platform model response_mem port c_ok Hpb Hmb sizes_ok mem_ok port_ok fresh cursor (peer n) Hcur Hmax Hserv)
    as (s' & Hreply & Hserv').
  destruct (page_size c platform model response_mem c_ok mem_ok cursor Hcur) as (Hpsize & Hcount & Hnext).
  pose proof (zlen_page_bytes c platform model cursor) as Hpz. pose proof (request_size platform model sizes_ok (Z.of_nat cursor)) as Hrsize.
  pose proof (zlen_nonneg (bytes_of (page_items c platform model cursor))).
  destruct (exchange_ends fd 255 idle up inbox peer waits _ x (list_request (Z.of_nat cursor) platform model) rest n
    (page_bytes c platform model cursor) s') as (n' & mem' & [f Hends] & Hm' & Hup' & Hin' & Hp' & Htake);
    [done|done|by apply request_bytes|lia|lia|lia|done|lia|].
  specialize (Htake ltac:(lia)). exists n', (drop (length (page_bytes c platform model cursor)) mem').
  assert (Emem : page_bytes c platform model cursor ++ drop (length (page_bytes c platform model cursor)) mem' = mem').
  { rewrite <- Htake at 1. apply take_drop. }
  cbv zeta. split; [|rewrite Emem; split_and!; [done|done|by rewrite Hp'|lia]].
  exists f. intros fuel Hf. rewrite list_call_eq by done. rewrite (cbind_returns _ _ _ _ _ Ew).
  rewrite Emem. unfold retro_page_response.
  assert (Hcell : forall i v, page_bytes c platform model cursor !! i = Some v -> mem' !! i = Some v).
  { intros i v Hv. rewrite <- Emem. by apply lookup_app_l_Some. }
  assert (Hu : forall v, is_byte (u8 v)) by apply u8_range.
  rewrite (cbind_returns _ _ _ (0, zlen (page_bytes c platform model cursor)) (at_mem n' mem')).
  - cbn [Z.eqb negb]. rewrite Hpz.
    erewrite cbind_returns by (apply read_u16_at; [lia|apply Hcell; reflexivity|apply Hcell; reflexivity|apply Hu|apply Hu]).
    erewrite cbind_returns by (apply get_byte_at; [lia|apply Hcell; reflexivity|
      unfold is_byte; pose proof (zlen_nonneg (page_items c platform model cursor)); lia]).
    rewrite of_le16_le16 by done. done.
  - unfold squid_client_response. erewrite cbind_returns by (by apply Hends). unfold exchange_code.
    destruct (Z.ltb_spec 255 (zlen (page_bytes c platform model cursor))); [lia|].
    destruct (Z.ltb_spec (zlen (page_bytes c platform model cursor)) 0), (Z.ltb_spec (zlen (page_bytes c platform model cursor)) 2); try lia.
    erewrite cbind_returns by (apply get_byte_at; [lia|apply Hcell; reflexivity|apply Hu]).
    rewrite Z.eqb_refl. cbn [negb].
    erewrite cbind_returns by (apply get_byte_at; [lia|apply Hcell; reflexivity|done]). cbn [Z.eqb negb].
    destruct (Z.ltb_spec (zlen (page_bytes c platform model cursor)) 5); [lia|done].
Qed.

Lemma iterate_more {P E} (next : P -> CT (client_state N) (Z * P * option E)) k : forall k' p s r s',
  iterate next k p s = Returns r s' -> (k <= k')%nat -> iterate next k' p s = Returns r s'.
Proof.
  induction k as [|k IH]; intros k' p s r s' Hr Hk; [done|]. destruct k' as [|k']; [lia|]. cbn [iterate] in *.
  unfold cbind in *. destruct (next p s) as [[[result p1] [item|]] s1| |]; [|done..].
  destruct (iterate next k p1 s1) as [[code items] s2| |] eqn:E1; [|done..].
  by rewrite (IH k' p1 s1 _ _ E1) by lia.
Qed.

(** Reading the page. *)
Lemma page_read cursor (n : N) tail : (cursor <= length found)%nat ->
  let mem := page_bytes c platform model cursor ++ tail in
  exists entries, iterate (fun p => squid_client_retro_list_next p true) 256
      (list_page (page_next c platform model cursor) (zlen (page_items c platform model cursor)) 5
         (5 + zlen (bytes_of (page_items c platform model cursor)))) (at_mem n mem) = Returns (0, entries) (at_mem n mem) /\
    map (listed mem) entries = page_items c platform model cursor.
Proof.
  intros Hcur mem. destruct (page_size c platform model response_mem c_ok mem_ok cursor Hcur) as (Hpsize & Hcount & _).
  set (items := page_items c platform model cursor) in *.
  set (pre := header RETRO_VAULT_OP_LIST 0 ++ le16 (page_next c platform model cursor) ++ [zlen items]).
  assert (Emem : mem = pre ++ bytes_of items ++ tail).
  { unfold mem, page_bytes, pre. rewrite <- !app_assoc. done. }
  destruct (iterate_spec fd 255 idle (fun p => squid_client_retro_list_next p true)
    (list_page (page_next c platform model cursor)) listed entry_refs split_listed n tail (length items) pre (bytes_of items))
    as (entries & Hit & Hv & _).
  { by apply page_bytes_ok. }
  { unfold zlen in Hcount. lia. }
  { lia. }
  rewrite <- Emem in *. change (zlen pre) with 5 in Hit. pose proof (decode_listed items) as Hdec.
  change (concat _) with (bytes_of items) in Hdec. rewrite Hdec in *. exists entries.
  split; [|rewrite Hv; by apply decode_items_prefix]. eapply iterate_more; [exact Hit|]. unfold zlen in Hcount. lia.
Qed.

Lemma list_all_ends rounds : forall cursor n mem, (cursor <= length found)%nat -> Z.of_nat cursor < 65535 ->
  (length found - cursor < rounds)%nat -> ready n mem ->
  exists n' mem', ends (fun fuel => retro_list_all rounds fuel (Z.of_nat cursor)) (at_mem n mem)
      (0, omap (shown 255) (drop cursor found)) (at_mem n' mem') /\ ready n' mem'.
Proof.
  induction rounds as [|rounds IH]; intros cursor n mem Hcur Hmax Hr Hready; [lia|].
  destruct (list_call_ends cursor n mem Hcur Hmax Hready) as (n1 & tail & [f1 Hcall] & Hready1). cbv zeta in *.
  destruct (page_read cursor n1 tail Hcur) as (entries & Hit & Hentries). cbv zeta in *.
  set (mem1 := page_bytes c platform model cursor ++ tail) in *.
  pose proof (fill_le 255 (drop cursor found) 250 true) as Hk. fold (page_count c platform model cursor) in Hk.
  assert (Hlen : length (drop cursor found) = (length found - cursor)%nat) by apply length_drop.
  pose proof (selected_few c platform model [] c_ok) as Hfew. unfold zlen in Hfew.
  assert (Hstep : forall fuel, (f1 <= fuel)%nat -> retro_list_all (S rounds) fuel (Z.of_nat cursor) (at_mem n mem) =
    (if page_next c platform model cursor =? RETRO_VAULT_CURSOR_END then cret (0, page_items c platform model cursor)
     else let^ '(code, more) := retro_list_all rounds fuel (page_next c platform model cursor) in
          cret (code, page_items c platform model cursor ++ more)) (at_mem n1 mem1)).
  { intros fuel Hf. cbn [retro_list_all]. rewrite (cbind_returns _ _ _ _ _ (Hcall fuel Hf)). unfold list_page.
    cbv iota beta. unfold list_page in Hit. rewrite (cbind_returns _ _ _ _ _ Hit). cbn [Z.eqb negb].
    rewrite (cbind_returns _ _ _ mem1 (at_mem n1 mem1)) by done. cbn [rl_next_cursor]. by rewrite Hentries. }
  unfold page_next, next_of in Hstep. destruct (Nat.eqb_spec (page_count c platform model cursor) (length (drop cursor found))) as [Heq|Hne].
  { exists n1, mem1. split; [|done]. exists f1. intros fuel Hf. rewrite Hstep by done. rewrite Z.eqb_refl.
    unfold page_items. rewrite Heq, firstn_all. done. }
  set (k := page_count c platform model cursor) in *.
  destruct (Z.eqb_spec (Z.of_nat cursor + Z.of_nat k) RETRO_VAULT_CURSOR_END); [unfold RETRO_VAULT_CURSOR_END in *; lia|].
  assert (Hpos : (0 < k)%nat).
  { clear -Hne. revert Hne. unfold k, page_count. destruct (drop cursor found) as [|p rest]; [done|]. intros _. apply fill_progress. }
  rewrite <- Nat2Z.inj_add in Hstep.
  destruct (IH (cursor + k)%nat n1 mem1) as (n2 & mem2 & [f2 Hrest] & Hready2); [lia|lia|lia|done|].
  exists n2, mem2. split; [|done]. exists (Nat.max f1 f2). intros fuel Hf. rewrite Hstep by lia.
  rewrite (cbind_returns _ _ _ _ _ (Hrest fuel ltac:(lia))). unfold cret. do 2 f_equal.
  unfold page_items. fold k. by rewrite <- omap_app, <- drop_drop, take_drop.
Qed.

(** C13. Listing the catalog, end to end.  Over a working link to a server whose
    port runs the retrovault plugin with a catalog that stays fresh, a client
    with a workspace of 255 bytes that asks for page after page, reads the
    entries of each and goes on from its cursor until the end mark, gets every
    package of the platform and model asked for exactly once and in catalog
    order (one with an identifier of more than 247 bytes is left out), each with
    its identifier and its name, as far as it fits an entry; this takes at most
    one request per package and one more, every request returns, and client
    and server are ready for the next one.  An empty platform or model stands
    for all; otherwise they are compared up to case and up to the documented
    second names of two platforms ([matching]). *)
Theorem client_lists_catalog n mem : ready n mem ->
  exists fuel0 n' mem', (forall fuel, (fuel0 <= fuel)%nat ->
      retro_list_all (S (length found)) fuel 0 (at_mem n mem) =
        Returns (0, omap (shown 255) found) (at_mem n' mem')) /\ ready n' mem'.
Proof.
  intros Hready. destruct (list_all_ends (S (length found)) 0 n mem) as (n' & mem' & [f Hends] & Hready');
    [lia|lia|lia|done|]. rewrite drop_0 in Hends. by exists f, n', mem'.
Qed.
End link.
