(* ===== verification/ClientFs.v ===== *)
(** The filesystem, end to end: the typed calls of the portable client
    (lib/client/filesystem.c), over a working link to a server whose port
    runs the filesystem plugin, implement the store of FsStore.v. *)
From stdpp Require Import base numbers list option gmap strings.
From Stdlib Require Import ZArith Lia.
From S2P Require Import Prelude Wire CLib PluginApi Posix.
From S2P Require Import Filesystem FsPath FsTrace FsSafety FsStore FsRefine FsSession FsPlugin.
From S2P Require Import Runtime Client ClientCalls ClientSafety ClientProps ClientLink ClientPages.

Local Open Scope Z_scope.
Local Open Scope squid_scope.

(** ** Calls that return, by their outcome

    [ewp m Q s]: with enough fuel [m] returns, always the same, and [Q] holds of
    what it returns. *)
Definition ewp {S A} (m : nat -> CT S A) (Q : A -> S -> Prop) (s : S) : Prop :=
  exists a s', ends m s a s' /\ Q a s'.

Lemma ewp_now {S A} (m : CT S A) Q (s : S) : cwp False m Q s -> ewp (fun _ => m) Q s.
Proof. intros Hm. apply cwp_returns in Hm as (a & s' & E & HQ). exists a, s'. split; [by apply ends_now|done]. Qed.
Lemma ewp_bind {S A B} (m : nat -> CT S A) (k : A -> nat -> CT S B) Q s :
  ewp m (fun a s' => ewp (k a) Q s') s -> ewp (fun fuel => cbind (m fuel) (fun a => k a fuel)) Q s.
Proof.
  intros (a & s1 & H1 & b & s2 & H2 & HQ). exists b, s2. split; [|done]. by eapply ends_bind.
Qed.
(** A step that needs no fuel. *)
Lemma ewp_step {S A B} (m : CT S A) (k : A -> nat -> CT S B) Q s :
  cwp False m (fun a s' => ewp (k a) Q s') s -> ewp (fun fuel => cbind m (fun a => k a fuel)) Q s.
Proof. intros Hm. apply (ewp_bind (fun _ => m)). by apply ewp_now. Qed.
Lemma ewp_mono {S A} (m : nat -> CT S A) (P Q : A -> S -> Prop) s :
  ewp m P s -> (forall a s', P a s' -> Q a s') -> ewp m Q s.
Proof. intros (a & s' & H & HP) HQ. exists a, s'. auto. Qed.

(** ** What the calls hand out *)

Inductive fs_value :=
| ValStat (v : squid_client_fs_stat)
| ValRead (v : squid_client_fs_read)
| ValWritten (bytes : Z)
| ValDone.

(** The paths and data the client's caller may pass. *)
Definition client_path (allow_empty : bool) (path : list Z) : Prop :=
  cstr_ok path /\ zlen path <= 240 /\ (allow_empty = false -> path <> []).
Definition client_op (op : fs_op) : Prop :=
  match op with
  | OpStat path => client_path true path
  | OpRead path _ maximum => client_path false path /\ is_byte maximum
  | OpWrite path _ flags data => client_path false path /\ is_byte flags /\ bytes_ok data
  | OpMkdir path | OpDelete path => client_path false path
  | OpRename old new => client_path false old /\ client_path false new
  end.

(** The result [v] of a call that returned 0, its bytes in the workspace [mem],
    for the stores before and after. *)
Definition fs_result (root : Z) (op : fs_op) (ns : gmap Z fnode) (v : fs_value) (mem : list Z)
    (ns' : gmap Z fnode) : Prop :=
  match op, v with
  | OpStat path, ValStat st =>
      ns' = ns /\ exists i n, walk ns root (names path) = Some i /\ ns !! i = Some n /\
        stat_type st = node_type n /\ stat_size st = node_size n
  | OpRead path offset maximum, ValRead chunk =>
      ns' = ns /\ exists c data, file_at ns root path c /\ chunk_offset chunk = offset /\
        chunk_total chunk = zlen c /\ referred mem (chunk_data chunk) = data /\
        data `prefix_of` drop (Z.to_nat offset) c /\ (data = [] -> offset = zlen c) /\
        (0 < maximum -> zlen data <= maximum)
  | OpWrite path offset flags data, ValWritten written =>
      0 <= written <= zlen data /\ exists i ns1 c, entered root ns path flags i ns1 /\
        ns1 !! i = Some (FFile c) /\
        ns' = <[i := FFile (patch c offset (take (Z.to_nat written) data))]> ns1
  | OpMkdir path, ValDone =>
      exists di es leaf, entry_at ns root path di es leaf /\ makes ns di es leaf ns'
  | OpDelete path, ValDone =>
      exists di es leaf, entry_at ns root path di es leaf /\ unlinks ns di es leaf ns'
  | OpRename old new, ValDone =>
      exists odi oes ol ndi nes nl, entry_at ns root old odi oes ol /\
        entry_at ns root new ndi nes nl /\ moves ns odi oes ol ndi nes nl ns'
  | _, _ => False
  end.

Section call.
Context {N : Type} `{Squid N} `{ClientHost N}.

Definition with_value {A} (inject : A -> fs_value) (m : CT (client_state N) (Z * option A))
    : CT (client_state N) (Z * option fs_value) :=
  let^ '(code, value) := m in cret (code, inject <$> value).

(** The client call for an operation. *)
Definition fs_call (fuel : nat) (op : fs_op) : CT (client_state N) (Z * option fs_value) :=
  match op with
  | OpStat path => with_value ValStat (squid_client_fs_stat_call fuel (Some path) true)
  | OpRead path offset maximum =>
      with_value ValRead (squid_client_fs_read_call fuel (Some path) offset maximum true)
  | OpWrite path offset flags data =>
      with_value ValWritten
        (squid_client_fs_write fuel (Some path) offset flags (Some data) (zlen data) true)
  | OpMkdir path => with_value (fun _ => ValDone) (squid_client_fs_mkdir fuel (Some path))
  | OpDelete path => with_value (fun _ => ValDone) (squid_client_fs_delete fuel (Some path))
  | OpRename old new =>
      with_value (fun _ => ValDone) (squid_client_fs_rename fuel (Some old) (Some new))
  end.

(** One call after the other. *)
Fixpoint fs_calls (fuel : nat) (ops : list fs_op)
    : CT (client_state N) (list (Z * option fs_value)) :=
  match ops with
  | [] => cret []
  | op :: ops =>
      let^ result := fs_call fuel op in
      let^ results := fs_calls fuel ops in
      cret (result :: results)
  end.
End call.

(** What [results] say about the store, from [ns] to [ns']. *)
Inductive history (root : Z) : list fs_op -> gmap Z fnode -> list (Z * option fs_value) -> gmap Z fnode -> Prop :=
| history_nil ns : history root [] ns [] ns
| history_done op ops ns v mem ns1 results ns2 :
    fs_result root op ns v mem ns1 -> history root ops ns1 results ns2 ->
    history root (op :: ops) ns ((0, Some v) :: results) ns2
| history_failed op ops ns code ns1 results ns2 :
    code <> 0 -> fs_failed root op ns ns1 -> history root ops ns1 results ns2 ->
    history root (op :: ops) ns ((code, None) :: results) ns2.

(** *** Writing a file in pieces *)

(** Every piece was written as a whole. *)
Definition all_accepted (chunks : list (list Z)) : list (Z * option fs_value) :=
  map (fun d => (0, Some (ValWritten (zlen d)))) chunks.

Lemma result_step root path offset flags data ns mem ns' :
  fs_result root (OpWrite path offset flags data) ns (ValWritten (zlen data)) mem ns' ->
  fs_step root 255 (OpWrite path offset flags data) ns (written_answer offset data) ns'.
Proof.
  intros (Hw & i & ns1 & c & He & Hi & ->). right. exists (le32 offset ++ [zlen data]).
  split; [|done]. by exists i, ns1, c, (zlen data).
Qed.

Lemma appended root path chunks : forall c ns ns',
  file_at ns root path c ->
  history root (append_from path (zlen c) chunks) ns (all_accepted chunks) ns' ->
  file_at ns' root path (c ++ concat chunks).
Proof.
  induction chunks as [|d chunks IH]; intros c ns ns' Hf Hh; cbn in Hh; inversion Hh; subst.
  { by rewrite app_nil_r. }
  cbn [concat]. rewrite app_assoc. rewrite <- zlen_app in *. eapply IH; [|done].
  eapply write_more; [done|]. by eapply result_step.
Qed.
Lemma uploaded root path chunks ns ns' : chunks <> [] ->
  history root (upload path chunks) ns (all_accepted chunks) ns' ->
  file_at ns' root path (concat chunks).
Proof.
  intros Hne Hh. destruct chunks as [|d chunks]; [done|]. cbn in Hh. inversion Hh; subst.
  cbn [concat]. eapply appended; [|done]. eapply write_new; [|by eapply result_step]. done.
Qed.

(** ** Requests and replies *)

(** The smallest reply with the status OK. *)
Definition least_reply (op : fs_op) : Z :=
  match op with OpStat _ => 13 | OpRead _ _ _ => 11 | OpWrite _ _ _ _ => 7 | _ => 2 end.

Lemma fs_ok_size root op ns body ns' : fs_ok root 255 op ns body ns' ->
  least_reply op <= 2 + zlen body <= 255 /\
  (zlen (encode op) < 2 + zlen body -> ns' = ns).
Proof.
  destruct op; cbn [fs_ok least_reply]; unfold encode, le16, le32.
  - intros (-> & i & n & mode & mtime & _ & _ & ->). split; [zlen_lia|done].
  - intros (-> & i & c & data & _ & _ & _ & _ & _ & Hd & _ & ->). split; [|done].
    zlen_nonnegs. zlen_lia.
  - intros (i & ns1 & c & w & _ & _ & _ & _ & ->). split; [zlen_lia|]. intros. zlen_lia.
  - intros (di & es & leaf & _ & _ & ->). split; [done|]. intros. zlen_lia.
  - intros (di & es & leaf & _ & _ & ->). split; [done|]. intros. zlen_lia.
  - intros (odi & oes & ol & ndi & nes & nl & _ & _ & _ & ->). split; [done|]. intros. zlen_lia.
Qed.

Lemma fs_step_reply root op ns reply ns' : fs_step root 255 op ns reply ns' -> 2 <= zlen reply <= 255.
Proof.
  intros [[_ (st & _ & ->)]|(body & Hok & ->)]; [done|]. apply fs_ok_size in Hok as [Hs _].
  assert (2 <= least_reply op) by (by destruct op). unfold header. zlen_nonnegs. autorewrite with zlen. zlen_lia.
Qed.

Lemma client_path_size empty path : client_path empty path ->
  bytes_ok path /\ 0 <= zlen path <= 240 /\ (empty = false -> 0 < zlen path) /\
  filesystem_path_size (Some path) empty = zlen path.
Proof.
  intros (Hc & Hl & Hne). pose proof (zlen_nonneg path).
  assert (Hpos : empty = false -> 0 < zlen path).
  { intros E. specialize (Hne E). destruct path; [done|zlen_lia]. }
  split_and!; [by apply cstr_bytes|lia|lia|done|].
  unfold filesystem_path_size. rewrite text_size_eq by (vm_compute; split; discriminate).
  unfold SQUID_FS_PATH_MAX. destruct (Z.ltb_spec 240 (zlen path)), (Z.ltb_spec (zlen path) 0); try lia.
  destruct empty; [done|]. specialize (Hpos eq_refl). by destruct (Z.eqb_spec (zlen path) 0); [lia|].
Qed.

Lemma encode_bytes op : client_op op -> zlen (encode op) <= 255 -> bytes_ok (encode op).
Proof.
  intros Hop Hl.
  assert (Hone : forall l : list Z, zlen l <= 255 -> bytes_ok [zlen l]).
  { intros l Hz. apply bytes_ok_one. unfold is_byte. pose proof (zlen_nonneg l). lia. }
  destruct op; unfold encode in *; cbn [client_op op_code] in *; rewrite !bytes_ok_app;
    (split; [apply bytes_ok_one; by vm_compute|]).
  - apply client_path_size in Hop as (? & ? & _). split; [|done]. apply Hone. lia.
  - destruct Hop as [Hp Hm]. apply client_path_size in Hp as (? & ? & _).
    split_and!; [auto with squid|apply (bytes_ok_app [_] [_]); split; [by apply bytes_ok_one|apply Hone; lia]|done].
  - destruct Hop as (Hp & Hf & Hd). apply client_path_size in Hp as (? & ? & _).
    split_and!; [auto with squid|apply (bytes_ok_app [_] [_]); split; [by apply bytes_ok_one|apply Hone; lia]|done| |done].
    apply Hone. revert Hl. unfold le32. zlen_nonnegs. autorewrite with zlen. lia.
  - apply client_path_size in Hop as (? & ? & _). split; [|done]. apply Hone. lia.
  - apply client_path_size in Hop as (? & ? & _). split; [|done]. apply Hone. lia.
  - destruct Hop as [Hp1 Hp2]. apply client_path_size in Hp1 as (? & ? & _), Hp2 as (? & ? & _).
    split_and!; [apply Hone; lia|done|apply Hone; lia|done].
Qed.

(** ** The server's side *)

Section service.
Context {W : Type} {PX : Posix W} (view : W -> store) (sound : W -> Prop)
  {FK : FileKernel W view sound} {PL : PosixLaws W}.
Context (context : squid_fs_context) (root : Z) (hs : gmap Z Z) (port : Z) (response_mem : list Z).

(** The plugin runs, on the files [ns] and with no descriptor but its own open. *)
Definition fs_serving (ns : gmap Z fnode) (w : fs_world W) : Prop :=
  fs_started (fs_state w) <> 0 /\ fs_context (fs_state w) = context /\
  at_store view sound (fs_os w) ns hs /\ root_ok ns root.

Context (based : base context root hs) (port_ok : 0 <= port) (mem_ok : zlen response_mem = 255).

Lemma fs_plugin_reply op ns (w : fs_world W) :
  op_range op -> bytes_ok (encode op) -> fs_serving ns w -> zlen (encode op) <= 255 ->
  exists reply ns' w', plugin_reply handle_squid_fs_packet port response_mem (encode op) w = (Some reply, w') /\
    fs_step root 255 op ns reply ns' /\ fs_serving ns' w'.
Proof.
  intros Hr Hb (Hst & Hctx & Hat & Hroot) Hl.
  assert (Hpos : 0 < zlen (encode op)) by (unfold encode; zlen_nonnegs; autorewrite with zlen; zlen_lia).
  pose proof (fs_request_served view sound context root hs 255 based ltac:(lia) ltac:(lia)
    (encode op) response_mem ns (fs_os w) Hb ltac:(lia) ltac:(lia) Hroot Hat) as Hserved.
  apply wp_inv in Hserved as ([b k] & o & E & [Hlen Hk] & ns' & Hat' & Hs). cbn [fst snd] in *.
  pose proof (root_served _ _ _ _ _ _ Hroot Hs) as Hroot'. apply served_step in Hs; [|done].
  pose proof (fs_step_reply _ _ _ _ _ Hs) as Hsize.
  assert (Hk0 : 0 < k) by (rewrite zlen_take in Hsize; lia).
  exists (take (Z.to_nat k) b), ns', (FsWorld o (fs_state w)). split_and!; [|done|done].
  unfold plugin_reply, handle_squid_fs_packet, packet_entry, response_address, server_packet_max.
  cbn [view_data view_size packet_data packet_capacity packet_mem packet_size].
  destruct (Z.eqb_spec (zlen (encode op)) 0), (Z.eqb_spec (1 + port) 0); try lia. cbn [Z.eqb orb].
  unfold bind, fs_core, get_state. cbn [fs_state]. unfold bind.
  destruct (Z.eqb_spec (fs_started (fs_state w)) 0); [done|].
  rewrite Hctx, (on_os_eq _ _ _ _ E). cbn iota beta.
  destruct (Z.ltb_spec k 0); [lia|]. cbn [ret Z.eqb andb packet_size packet_mem].
  unfold ret. rewrite u64_small by lia. cbn [packet_size packet_mem].
  by destruct (Z.ltb_spec 0 k); [|lia].
Qed.
End service.

(** ** Over the link *)

Section link.
Context {N W : Type} `{Squid N} `{ClientHost N} {PX : Posix W} (view : W -> store) (sound : W -> Prop)
  {FK : FileKernel W view sound} {PL : PosixLaws W}.
Context (fd cap : Z) (idle : bool) (up : N -> Prop) (inbox : N -> list Z) (peer : N -> fs_world W)
  (waits : N -> nat) (port : Z) (response_mem : list Z).
Context `{LINK : !LinkLaws idle fd up inbox peer waits
                   (plugin_reply handle_squid_fs_packet port response_mem)}.
Context (context : squid_fs_context) (root : Z) (hs : gmap Z Z) (L : Z).
Context (based : base context root hs) (port_ok : 0 <= port) (mem_ok : zlen response_mem = 255).
Context (cap_ok : cap <= 255) (L_ok : cap + 1 <= L).
Local Abbreviation at_mem := (at_mem fd cap idle).
Local Abbreviation filled := (filled fd cap idle L).

(** The link is up with nothing in flight, and the server serves the files [ns]. *)
Definition in_step (ns : gmap Z fnode) (n : N) : Prop :=
  up n /\ inbox n = [] /\ fs_serving view sound context root hs ns (peer n).

(** What [squid_client_response] makes of the server's answer. *)
Definition fs_responded (op : fs_op) (ns ns' : gmap Z fnode) (mem : list Z) (r : Z * Z) : Prop :=
  r.1 <> 0 /\ fs_failed root op ns ns' \/
  exists body, r = (0, 2 + zlen body) /\ fs_ok root 255 op ns body ns' /\
    take (2 + length body) mem = header (op_code op) 0 ++ body.

Lemma cwp_byte_at (n : N) mem i v (Q : Z -> client_state N -> Prop) :
  0 <= i -> mem !! Z.to_nat i = Some v -> is_byte v -> Q v (at_mem n mem) ->
  cwp False (get_byte i) Q (at_mem n mem).
Proof. intros. unfold cwp. by rewrite (get_byte_at fd cap idle n mem i v). Qed.
(** The cells that hold [bs]. *)
Lemma cells_at mem i k bs : take k (drop i mem) = bs -> bytes_ok bs ->
  forall j x, bs !! j = Some x -> mem !! (i + j)%nat = Some x /\ is_byte x.
Proof.
  intros <- Hb j x Hj. split; [|by eapply bytes_ok_lookup].
  apply lookup_take_Some in Hj as [Hj _]. by rewrite lookup_drop in Hj.
Qed.
Lemma cwp_u32_some (n : N) mem i v :
  0 <= i -> take 4 (drop (Z.to_nat i) mem) = le32 v ->
  cwp False (squid_client_read_u32 i) (fun x s => s = at_mem n mem /\ (0 <= v < 4294967296 -> x = v)) (at_mem n mem).
Proof.
  intros Hi Ht. pose proof (cells_at _ _ _ _ Ht (le32_ok v)) as Hat. unfold cwp, le32 in *.
  pose proof (Hat 0%nat _ eq_refl) as [H0' B0]. pose proof (Hat 1%nat _ eq_refl) as [H1' B1].
  pose proof (Hat 2%nat _ eq_refl) as [H2' B2]. pose proof (Hat 3%nat _ eq_refl) as [H3' B3].
  rewrite Nat.add_0_r in H0'.
  erewrite read_u32_at; [|done|exact H0'|..|exact B0|exact B1|exact B2|exact B3];
    rewrite ?Z2Nat.inj_add by lia; try done.
  split; [done|]. apply of_le32_le32.
Qed.
Lemma cwp_u32_at (n : N) mem i v (Q : Z -> client_state N -> Prop) :
  0 <= i -> take 4 (drop (Z.to_nat i) mem) = le32 v -> 0 <= v < 4294967296 -> Q v (at_mem n mem) ->
  cwp False (squid_client_read_u32 i) Q (at_mem n mem).
Proof. intros Hi Ht Hv HQ. eapply cwp_mono; [by apply cwp_u32_some|]. intros x s [-> Hx]. by rewrite Hx. Qed.
Lemma cwp_u16_some (n : N) mem i v : 0 <= i -> take 2 (drop (Z.to_nat i) mem) = le16 v ->
  cwp False (squid_client_read_u16 i) (fun _ s => s = at_mem n mem) (at_mem n mem).
Proof.
  intros Hi Ht. pose proof (cells_at _ _ _ _ Ht (le16_ok v)) as Hat. unfold cwp, le16 in *.
  pose proof (Hat 0%nat _ eq_refl) as [H0' B0]. pose proof (Hat 1%nat _ eq_refl) as [H1' B1].
  rewrite Nat.add_0_r in H0'.
  erewrite read_u16_at; [|done|exact H0'| |exact B0|exact B1]; [done|].
  by rewrite Z2Nat.inj_add by lia.
Qed.

Lemma fs_response op minimum n s ns (Q : Z * Z -> client_state N -> Prop) :
  filled (encode op) n s -> op_range op -> client_op op -> zlen (encode op) <= cap ->
  minimum <= least_reply op -> in_step ns n ->
  (forall r ns' n' mem', in_step ns' n' -> zlen mem' = L -> fs_responded op ns ns' mem' r -> Q r (at_mem n' mem')) ->
  ewp (fun fuel => squid_client_response fuel (zlen (encode op)) (op_code op) minimum) Q s.
Proof.
  intros (x & rest & -> & HL) Hr Hop Hl Hmin (Hup & Hin & Hserv) HQ.
  pose proof (encode_bytes op Hop ltac:(lia)) as Hb.
  destruct (fs_plugin_reply view sound context root hs port response_mem based port_ok mem_ok op ns (peer n))
    as (reply & ns' & w' & Hreply & Hstep & Hserv'); [done|done|done|lia|].
  pose proof (fs_step_reply root op ns reply ns' Hstep) as Hsize.
  assert (Hpos : 0 < zlen (encode op)) by (unfold encode; zlen_nonnegs; autorewrite with zlen; zlen_lia).
  destruct (exchange_ends fd cap idle up inbox peer waits _ x (encode op) rest n reply w')
    as (n' & mem' & Hends & Hm' & Hup' & Hin' & Hp' & Htake); try done; try lia; [zlen_lia|].
  assert (Hst : in_step ns' n') by (by split_and!; [..|rewrite Hp']).
  assert (HL' : zlen mem' = L) by zlen_lia. pose proof (fun r => HQ r ns' n' mem' Hst HL') as HQ'. clear HQ.
  unfold squid_client_response. apply (ewp_bind (fun fuel => squid_client_exchange fuel _)).
  eexists _, _. split; [exact Hends|]. apply ewp_now.
  unfold exchange_code.
  destruct (Z.ltb_spec cap (zlen reply)) as [Hbig|Hfit].
  { apply cwp_ret, HQ'. left. split; [done|]. destruct Hstep as [[? _]|(body & Hok & ->)]; [done|left].
    apply fs_ok_size in Hok as [_ Hsame]. apply Hsame. unfold header in Hbig. zlen_lia. }
  specialize (Htake Hfit).
  destruct (Z.ltb_spec (zlen reply) 0), (Z.ltb_spec (zlen reply) 2); try lia.
  assert (Hcell : forall i v, reply !! i = Some v -> mem' !! i = Some v).
  { intros i v Hv. rewrite <- Htake in Hv. by apply lookup_take_Some in Hv as [Hv _]. }
  apply cwp_bind. eapply cwp_byte_at; [lia|apply Hcell|apply u8_range|].
  { destruct Hstep as [[_ (st & _ & ->)]|(body & _ & ->)]; reflexivity. }
  rewrite Z.eqb_refl. cbn [negb]. apply cwp_bind.
  destruct Hstep as [[Hfail (st & Hrange & ->)]|(body & Hok & ->)].
  - eapply cwp_byte_at; [lia|by apply Hcell|unfold is_byte; lia|].
    destruct (Z.eqb_spec st 0); [lia|]. apply cwp_ret, HQ'. by left.
  - eapply cwp_byte_at; [lia|by apply Hcell|done|]. cbn [Z.eqb negb].
    pose proof (fs_ok_size _ _ _ _ _ Hok) as [Hleast _].
    assert (Hz : zlen (header (op_code op) 0 ++ body) = 2 + zlen body) by (unfold header; zlen_lia).
    rewrite Hz. destruct (Z.ltb_spec (2 + zlen body) minimum); [lia|]. apply cwp_ret, HQ'. right.
    exists body. by split_and!.
Qed.

(** One write of the request. *)
Ltac efill :=
  apply ewp_step;
  match goal with
  | Hf : ClientSafety.filled _ _ _ _ _ _ _ |- _ =>
      first [ eapply (cwp_put _ _ _ _ _ _ _ _ _ _ _ Hf)
            | eapply (cwp_write_u32 _ _ _ _ _ _ _ _ _ _ _ Hf)
            | eapply (cwp_copy _ _ _ _ _ _ _ _ _ _ _ _ Hf) ]; clear Hf
  end; [wsolve..|]; intros ? Hf.

Lemma take_zlen (l : list Z) : take (Z.to_nat (zlen l)) l = l.
Proof. unfold zlen. by rewrite Nat2Z.id, firstn_all. Qed.

(** The request is written. *)
Ltac requested op :=
  lazymatch goal with
  | Hf : ClientSafety.filled _ _ _ _ ?request _ _ |- _ =>
      replace request with (encode op) in Hf
        by (unfold op, encode; cbn [path_text default]; rewrite ?take_zlen, <- ?app_assoc; reflexivity)
  end.
(** A call for [op] is through. *)
Definition called {A} (op : fs_op) (ns : gmap Z fnode) (inject : A -> fs_value) (r : Z * option A)
    (s : client_state N) : Prop :=
  exists ns' n mem, s = at_mem n mem /\ zlen mem = L /\ in_step ns' n /\
    match r.2 with
    | Some v => r.1 = 0 /\ fs_result root op ns (inject v) mem ns'
    | None => r.1 <> 0 /\ fs_failed root op ns ns'
    end.

Lemma called_error {A} op ns ns' (inject : A -> fs_value) code n mem :
  in_step ns' n -> zlen mem = L -> code <> 0 -> fs_failed root op ns ns' ->
  cwp False (call_error code) (called op ns inject) (at_mem n mem).
Proof. intros. apply cwp_ret. by exists ns', n, mem. Qed.
Lemma called_success {A} op ns ns' (inject : A -> fs_value) v n mem :
  in_step ns' n -> zlen mem = L -> fs_result root op ns (inject v) mem ns' ->
  cwp False (success v) (called op ns inject) (at_mem n mem).
Proof. intros. apply cwp_ret. by exists ns', n, mem. Qed.

(** The answer is OK, or the call has failed. *)
Ltac answered Hok Ht :=
  intros [code size] ns' n' mem' Hst' HL' [[Hcode Hfail]|(body & E & Hok & Ht)]; apply ewp_now;
  [ cbn [fst] in Hcode; destruct (Z.eqb_spec code 0); [done|]; by eapply called_error
  | injection E as -> ->; cbn [Z.eqb negb]; cbn [fs_ok] in Hok ].
Ltac responds op Hok Ht :=
  apply (ewp_bind (fun fuel => squid_client_response fuel _ _ _));
  eapply (fs_response op); [eassumption|done|done|done|done|eassumption|answered Hok Ht].

(** The bytes of the reply after the header. *)
Lemma reply_body_at {op} {body mem : list Z} :
  take (2 + length body) mem = header op 0 ++ body ->
  forall i k, (i + k <= length body)%nat -> take k (drop (2 + i) mem) = take k (drop i body).
Proof.
  intros Ht i k Hk. replace (drop i body) with (drop (2 + i) (header op 0 ++ body)) by done.
  rewrite <- Ht, skipn_firstn_comm, take_take. f_equal. lia.
Qed.

Lemma reply_cell {op} {body mem : list Z} :
  take (2 + length body) mem = header op 0 ++ body ->
  forall i v, body !! i = Some v -> mem !! (2 + i)%nat = Some v.
Proof.
  intros Ht i v Hv. assert (E : (header op 0 ++ body) !! (2 + i)%nat = Some v) by done.
  rewrite <- Ht in E. by apply lookup_take_Some in E as [E _].
Qed.

Lemma fs_read_ok path offset maximum n mem ns :
  let op := OpRead path offset maximum in
  client_op op -> op_range op -> zlen (encode op) <= cap -> zlen mem = L -> in_step ns n ->
  ewp (fun fuel => squid_client_fs_read_call fuel (Some path) offset maximum true)
    (called op ns ValRead) (at_mem n mem).
Proof.
  intros op Hop Hr Hl Hm Hst. pose proof Hop as [Hp Hmax].
  apply client_path_size in Hp as (Hb & Hz & Hne & Hsize).
  assert (Hel : zlen (encode op) = 7 + zlen path) by (unfold op, encode, le32; zlen_lia).
  unfold squid_client_fs_read_call. rewrite Hsize. apply ewp_step. unfold cwp at 1.
  rewrite usable_capacity_eq. destruct (Z.ltb_spec (zlen path) 0); [lia|]. cbn [negb orb].
  rewrite !u16_small, u8_small by (rewrite ?u16_small; lia).
  rewrite <- Hel. destruct (Z.ltb_spec cap (zlen (encode op))); [lia|].
  pose proof (filled_nil fd cap idle L n mem Hm ltac:(lia)) as Hf.
  do 5 efill. requested op. responds op Hok Ht.
  destruct Hok as (-> & i & c & data & Hw & Hi & Hrange & Hpre & Hemp & Hd & Hmx & ->).
  pose proof (reply_body_at Ht) as Hbody. rewrite !length_app in Hbody. cbn [length le32] in Hbody.
  assert (Hz10 : mem' !! 10%nat = Some (zlen data)).
  { apply (reply_cell Ht 8). reflexivity. }
  apply cwp_bind. eapply cwp_byte_at; [lia|exact Hz10|unfold is_byte; pose proof (zlen_nonneg data); lia|].
  assert (Hbl : zlen (le32 offset ++ le32 (zlen c) ++ [zlen data] ++ data) = 9 + zlen data)
    by (unfold le32; zlen_lia).
  rewrite Hbl. destruct (Z.eqb_spec (2 + (9 + zlen data)) (11 + zlen data)); [|lia]. cbn [negb].
  apply cwp_bind. eapply cwp_u32_at; [lia|apply (Hbody 0%nat 4%nat); lia|done|].
  apply cwp_bind. eapply cwp_u32_at; [lia|apply (Hbody 4%nat 4%nat); lia|pose proof (zlen_nonneg c); unfold UINT32_MAX in *; lia|].
  eapply called_success; [done|done|]. split; [done|]. exists c, data. split_and!; try done.
  - by exists i.
  - unfold referred. cbn [chunk_data ref_size ref_data]. rewrite (Hbody 9%nat); [apply take_zlen|].
    unfold zlen. lia.
Qed.

Lemma fs_write_ok path offset flags data n mem ns :
  let op := OpWrite path offset flags data in
  client_op op -> op_range op -> zlen (encode op) <= cap -> zlen mem = L -> in_step ns n ->
  ewp (fun fuel => squid_client_fs_write fuel (Some path) offset flags (Some data) (zlen data) true)
    (called op ns ValWritten) (at_mem n mem).
Proof.
  intros op Hop Hr Hl Hm Hst. pose proof Hop as (Hp & Hfl & Hdb).
  apply client_path_size in Hp as (Hb & Hz & Hne & Hsize). pose proof (zlen_nonneg data) as Hd0.
  assert (Hel : zlen (encode op) = 8 + zlen path + zlen data) by (unfold op, encode, le32; zlen_lia).
  unfold squid_client_fs_write. rewrite Hsize. apply ewp_step. unfold cwp at 1.
  rewrite usable_capacity_eq. destruct (Z.ltb_spec (zlen path) 0); [lia|]. cbn [negb orb].
  change (path_text (Some path)) with path. change (path_text (Some data)) with data.
  rewrite andb_false_r. rewrite !u16_small, u8_small by (rewrite ?u16_small; lia).
  rewrite <- Hel. destruct (Z.ltb_spec cap (zlen (encode op))); [lia|].
  pose proof (filled_nil fd cap idle L n mem Hm ltac:(lia)) as Hf.
  assert (Hdt : bytes_ok (take (Z.to_nat (zlen data)) data)) by (by rewrite take_zlen).
  assert (Hpt : bytes_ok (take (Z.to_nat (zlen path)) path)) by (by rewrite take_zlen).
  do 7 efill. requested op. responds op Hok Ht.
  destruct Hok as (i & ns1 & c & w & He & Hi & Hw & -> & ->).
  pose proof (reply_body_at Ht) as Hbody. rewrite !length_app in Hbody. cbn [length le32] in Hbody.
  assert (Hz6 : mem' !! 6%nat = Some w) by (apply (reply_cell Ht 4); reflexivity).
  apply cwp_bind. eapply cwp_byte_at; [lia|exact Hz6|unfold is_byte; lia|].
  apply cwp_bind. eapply cwp_u32_at; [lia|apply (Hbody 0%nat 4%nat); lia|done|].
  change (zlen (le32 offset ++ [w])) with 5. change (2 + 5 =? 7) with true. rewrite Z.eqb_refl.
  destruct (Z.ltb_spec (zlen data) w); [lia|]. cbn [negb orb].
  eapply called_success; [done|done|]. split; [lia|]. by exists i, ns1, c.
Qed.

Lemma path_call_ok op path empty n mem ns (Q : Z * Z -> client_state N -> Prop) :
  encode op = [op_code op] ++ [zlen path] ++ path -> client_path empty path -> client_op op ->
  op_range op -> zlen (encode op) <= cap -> zlen mem = L -> in_step ns n ->
  (forall r ns' n' mem', in_step ns' n' -> zlen mem' = L -> fs_responded op ns ns' mem' r -> Q r (at_mem n' mem')) ->
  ewp (fun fuel => filesystem_path_call fuel (op_code op) (Some path) empty (least_reply op)) Q (at_mem n mem).
Proof.
  intros Henc Hp Hop Hr Hl Hm Hst HQ. apply client_path_size in Hp as (Hb & Hz & Hne & Hsize).
  assert (Hel : zlen (encode op) = 2 + zlen path) by (rewrite Henc; zlen_lia).
  unfold filesystem_path_call. rewrite Hsize. apply ewp_step. unfold cwp at 1.
  rewrite usable_capacity_eq. destruct (Z.ltb_spec (zlen path) 0); [lia|].
  rewrite !u16_small, u8_small by (rewrite ?u16_small; lia).
  rewrite <- Hel. destruct (Z.ltb_spec cap (zlen (encode op))); [lia|].
  pose proof (filled_nil fd cap idle L n mem Hm ltac:(lia)) as Hf.
  assert (Hpt : bytes_ok (take (Z.to_nat (zlen path)) path)) by (by rewrite take_zlen).
  assert (Hcode : is_byte (op_code op)) by (by destruct op).
  do 3 efill. cbn [path_text default] in Hf. rewrite take_zlen, <- !app_assoc in Hf. cbn [app] in Hf.
  eapply (fs_response op); [by rewrite Henc|done|done|done|done|done|done].
Qed.

Lemma fs_stat_ok path n mem ns :
  let op := OpStat path in
  client_op op -> zlen (encode op) <= cap -> zlen mem = L -> in_step ns n ->
  ewp (fun fuel => squid_client_fs_stat_call fuel (Some path) true) (called op ns ValStat) (at_mem n mem).
Proof.
  intros op Hop Hl Hm Hst. unfold squid_client_fs_stat_call. cbn [negb].
  apply (ewp_bind (fun fuel => filesystem_path_call fuel _ _ _ _)).
  apply (path_call_ok op path true n mem ns); try done. answered Hok Ht.
  destruct Hok as (-> & i & node & mode & mtime & Hw & Hi & ->).
  pose proof (reply_body_at Ht) as Hbody. rewrite !length_app in Hbody. cbn [length le16 le32] in Hbody.
  assert (Hty : is_byte (node_type node)) by (by destruct node).
  assert (Hsz : 0 <= node_size node < 4294967296).
  { destruct node as [c| |]; cbn [node_size]; try done. unfold SQUID_FS_SIZE_UNKNOWN, UINT32_MAX in *.
    pose proof (zlen_nonneg c). destruct (Z.leb_spec (zlen c) 4294967295); lia. }
  change (zlen _) with 11. change (2 + 11 =? 13) with true. cbn [negb].
  apply cwp_bind. eapply cwp_byte_at; [lia|apply (reply_cell Ht 0); reflexivity|done|].
  apply cwp_bind. eapply cwp_mono; [apply (cwp_u16_some n' mem' 3 mode); [lia|]|].
  { apply (Hbody 1%nat 2%nat). lia. }
  intros m s ->. apply cwp_bind. eapply cwp_u32_at; [lia|apply (Hbody 3%nat 4%nat); lia|done|].
  apply cwp_bind. eapply cwp_mono; [apply (cwp_u32_some n' mem' 9 mtime); [lia|]|].
  { apply (Hbody 7%nat 4%nat). lia. }
  intros mt s [-> _]. eapply called_success; [done|done|]. split; [done|]. by exists i, node.
Qed.

Lemma fs_unit_ok op path n mem ns :
  encode op = [op_code op] ++ [zlen path] ++ path -> client_path false path -> client_op op ->
  op_range op -> least_reply op = 2 -> (forall body ns', fs_ok root 255 op ns body ns' -> body = []) ->
  (forall body ns' mem', fs_ok root 255 op ns body ns' -> fs_result root op ns ValDone mem' ns') ->
  zlen (encode op) <= cap -> zlen mem = L -> in_step ns n ->
  ewp (fun fuel =>
    let^ '(result, response_size) := filesystem_path_call fuel (op_code op) (Some path) false 2 in
    if negb (result =? 0) then call_error result
    else if response_size =? 2 then success tt else protocol_error)
    (called op ns (fun _ => ValDone)) (at_mem n mem).
Proof.
  intros Henc Hp Hop Hr Hmin Hbody Hres Hl Hm Hst.
  apply (ewp_bind (fun fuel => filesystem_path_call fuel _ _ _ _)).
  pose proof (fun Q => path_call_ok op path false n mem ns Q) as Hcall. rewrite Hmin in Hcall.
  apply Hcall; try done. clear Hcall. answered Hok Ht.
  rewrite (Hbody _ _ Hok). change (2 + zlen [] =? 2) with true. by eapply called_success; [..|eapply Hres].
Qed.

Lemma fs_rename_ok old new n mem ns :
  let op := OpRename old new in
  client_op op -> zlen (encode op) <= cap -> zlen mem = L -> in_step ns n ->
  ewp (fun fuel => squid_client_fs_rename fuel (Some old) (Some new))
    (called op ns (fun _ => ValDone)) (at_mem n mem).
Proof.
  intros op Hop Hl Hm Hst. pose proof Hop as [Hp1 Hp2].
  apply client_path_size in Hp1 as (Hb1 & Hz1 & _ & Hs1), Hp2 as (Hb2 & Hz2 & _ & Hs2).
  assert (Hel : zlen (encode op) = 3 + zlen old + zlen new) by (unfold op, encode; zlen_lia).
  unfold squid_client_fs_rename. rewrite Hs1, Hs2. apply ewp_step. unfold cwp at 1.
  rewrite usable_capacity_eq. destruct (Z.ltb_spec (zlen old) 0), (Z.ltb_spec (zlen new) 0); try lia. cbn [orb].
  change (path_text (Some old)) with old. change (path_text (Some new)) with new.
  rewrite !u16_small, !u8_small by (rewrite ?u16_small; lia).
  rewrite <- Hel. destruct (Z.ltb_spec cap (zlen (encode op))); [lia|].
  pose proof (filled_nil fd cap idle L n mem Hm ltac:(lia)) as Hf.
  assert (bytes_ok (take (Z.to_nat (zlen old)) old)) by (by rewrite take_zlen).
  assert (bytes_ok (take (Z.to_nat (zlen new)) new)) by (by rewrite take_zlen).
  do 5 efill. requested op. responds op Hok Ht.
  destruct Hok as (odi & oes & ol & ndi & nes & nl & Ho & Hn & Hmv & ->).
  change (2 + zlen [] =? 2) with true. eapply called_success; [done|done|].
  by exists odi, oes, ol, ndi, nes, nl.
Qed.

Lemma value_ok {A} op ns (inject : A -> fs_value) (m : nat -> CT (client_state N) (Z * option A)) s :
  ewp m (called op ns inject) s -> ewp (fun fuel => with_value inject (m fuel)) (called op ns id) s.
Proof.
  intros Hm. apply (ewp_bind m). eapply ewp_mono; [exact Hm|].
  intros [code value] s' (ns' & n & mem & -> & Hl & Hst & Hres). apply ewp_now, cwp_ret.
  exists ns', n, mem. split_and!; [done..|]. by destruct value.
Qed.

Lemma fs_call_ok op n mem ns :
  client_op op -> op_range op -> zlen (encode op) <= cap -> zlen mem = L -> in_step ns n ->
  ewp (fun fuel => fs_call fuel op) (called op ns id) (at_mem n mem).
Proof.
  intros Hop Hr Hl Hm Hst. destruct op; apply value_ok.
  - by apply fs_stat_ok.
  - by apply fs_read_ok.
  - by apply fs_write_ok.
  - apply (fs_unit_ok (OpMkdir path) path); try done.
    + by intros body ns' (di & es & leaf & _ & _ & ->).
    + intros body ns' mem' (di & es & leaf & He & Hmk & _). by exists di, es, leaf.
  - apply (fs_unit_ok (OpDelete path) path); try done.
    + by intros body ns' (di & es & leaf & _ & _ & ->).
    + intros body ns' mem' (di & es & leaf & He & Hmk & _). by exists di, es, leaf.
  - by apply fs_rename_ok.
Qed.

(** C4. The client's filesystem calls implement the store, end to end: over a
    working link to a server whose port runs the filesystem plugin, on a kernel
    that behaves as documented, every call of the client (STAT, READ, WRITE,
    MKDIR, DELETE, RENAME) whose request fits the workspace returns, with the
    link in step for the next one.  When it returns 0 the files below the root
    were changed, and the value and the bytes in the workspace describe them,
    as the store says; when it returns an error there is no value and nothing
    has changed, except that WRITE may have created or emptied its file. *)
Theorem client_fs_refines_store op n mem ns :
  client_op op -> op_range op -> zlen (encode op) <= cap -> zlen mem = L -> in_step ns n ->
  exists code value n' mem' ns',
    ends (fun fuel => fs_call fuel op) (at_mem n mem) (code, value) (at_mem n' mem') /\
    in_step ns' n' /\ zlen mem' = L /\
    match value with
    | Some v => code = 0 /\ fs_result root op ns v mem' ns'
    | None => code <> 0 /\ fs_failed root op ns ns'
    end.
Proof.
  intros Hop Hr Hl Hm Hst.
  destruct (fs_call_ok op n mem ns Hop Hr Hl Hm Hst) as ([code value] & s' & Hends & ns' & n' & mem' & -> & Hres).
  exists code, value, n', mem', ns'. tauto.
Qed.

Definition client_request (op : fs_op) : Prop :=
  client_op op /\ op_range op /\ zlen (encode op) <= cap.

Lemma fs_calls_ok ops : forall n mem ns,
  Forall client_request ops -> zlen mem = L -> in_step ns n ->
  exists results n' mem' ns', ends (fun fuel => fs_calls fuel ops) (at_mem n mem) results (at_mem n' mem') /\
    in_step ns' n' /\ zlen mem' = L /\ history root ops ns results ns'.
Proof.
  induction ops as [|op ops IH]; intros n mem ns Hops Hm Hst.
  { exists [], n, mem, ns. split; [by apply ends_now|]. split_and!; [done|done|constructor]. }
  apply Forall_cons_1 in Hops as [(Hop & Hr & Hl) Hops].
  destruct (fs_call_ok op n mem ns Hop Hr Hl Hm Hst)
    as ([code value] & s1 & Hends & ns1 & n1 & mem1 & -> & Hm1 & Hst1 & Hres).
  destruct (IH n1 mem1 ns1 Hops Hm1 Hst1) as (results & n2 & mem2 & ns2 & Hends2 & Hst2 & Hm2 & Hh).
  exists ((code, value) :: results), n2, mem2, ns2. split_and!; [|done|done|].
  - eapply (ends_bind (fun fuel => fs_call fuel op)
      (fun result fuel => let^ results := fs_calls fuel ops in cret (result :: results))); [exact Hends|].
    eapply (ends_bind (fun fuel => fs_calls fuel ops) (fun results _ => cret ((code, value) :: results)));
      [exact Hends2|]. by apply ends_now.
  - cbn [fst snd] in Hres. destruct value as [v|]; [destruct Hres as [-> Hres]|destruct Hres]; by econstructor.
Qed.

(** C24. A file round trip between client and server: a client that writes a file
    in consecutive pieces, each of which was accepted as a whole, and then reads
    at any offset gets an error, or a chunk that names the offset and the size
    of the whole file and whose bytes, in the client's workspace, are the bytes
    of the pieces at that offset, at least one unless the offset is the end of
    the file.  Both the writes and the read return. *)
Theorem client_file_roundtrip path chunks offset maximum n mem ns :
  Forall client_request (upload path chunks) -> client_request (OpRead path offset maximum) ->
  chunks <> [] -> zlen mem = L -> in_step ns n ->
  exists results n1 mem1 code value n2 mem2,
    ends (fun fuel => fs_calls fuel (upload path chunks)) (at_mem n mem) results (at_mem n1 mem1) /\
    ends (fun fuel => fs_call fuel (OpRead path offset maximum)) (at_mem n1 mem1) (code, value) (at_mem n2 mem2) /\
    (results = all_accepted chunks ->
     match value with
     | None => code <> 0
     | Some v => exists chunk, v = ValRead chunk /\ code = 0 /\ chunk_offset chunk = offset /\
         chunk_total chunk = zlen (concat chunks) /\
         referred mem2 (chunk_data chunk) `prefix_of` drop (Z.to_nat offset) (concat chunks) /\
         (referred mem2 (chunk_data chunk) = [] -> offset = zlen (concat chunks))
     end).
Proof.
  intros Hup (Hop & Hr & Hl) Hne Hm Hst.
  destruct (fs_calls_ok _ n mem ns Hup Hm Hst) as (results & n1 & mem1 & ns1 & Hends1 & Hst1 & Hm1 & Hh).
  destruct (fs_call_ok _ n1 mem1 ns1 Hop Hr Hl Hm1 Hst1)
    as ([code value] & s2 & Hends2 & ns2 & n2 & mem2 & -> & Hm2 & Hst2 & Hres).
  exists results, n1, mem1, code, value, n2, mem2. split_and!; [done|done|]. intros ->.
  apply uploaded in Hh as (i & Hw & Hi); [|done]. cbn [fst snd id] in Hres.
  destruct value as [v|]; [|by destruct Hres]. destruct Hres as [-> Hres].
  destruct v as [|chunk| |]; try done. destruct Hres as (_ & c & data & (j & Hwj & Hj) & Ho & Ht & <- & Hp & He & _).
  assert (j = i) as -> by congruence. assert (c = concat chunks) as -> by congruence. by exists chunk.
Qed.
End link.
