(* ===== verification/Samples.v ===== *)
(** The sample programs (samples/echo/echo_sample.c, samples/sys/sys_sample.c):
    command-line clients that put the local transport, libsquid and the client
    library together.  The engine's state holds the transport its hooks use. *)
From stdpp Require Import base numbers list option gmap strings.
From Stdlib Require Import ZArith Lia.
From S2P Require Import Prelude CLib Runtime Local Client ClientCalls.

Local Open Scope Z_scope.
Local Open Scope squid_scope.

(** ** What the programs use besides the server's engine *)

Class SquidClientSide (N : Type) := {
  squid_connect : Z -> Z -> N -> Z * N;
  client_link_epoch : N -> Z;
  SQUID_PAYLOAD_MAX : Z;
  usleep : Z -> N -> N }.

(** The transport the engine's hooks send to and receive from. *)
Class Platform (N W : Type) := {
  hooks : N -> local_state W;
  set_hooks : local_state W -> N -> N }.

Definition SQUID_CLIENT_WORKSPACE_SIZE : Z := SQUID_CLIENT_PACKET_MAX + 1.
Definition ECHO_CHANNEL : Z := 1.
Definition SYS_CHANNEL : Z := 2.

(** The process: the engine and the client object, what is left of the
    standard input and what was written. *)
Record process (N : Type) := Process {
  pr_client : client_state N;
  pr_stdin : list Z;
  pr_stdout : list Z;
  pr_stderr : list Z }.
Arguments Process {N} _ _ _ _.
Arguments pr_client {N} _.
Arguments pr_stdin {N} _.
Arguments pr_stdout {N} _.
Arguments pr_stderr {N} _.

(** ["%.*s"]: at most [n] bytes from index [i] of an array, up to a NUL. *)
Fixpoint print_precision (mem : list Z) (i : Z) (n : nat) : option (list Z) :=
  match n with
  | O => Some []
  | S n =>
      let? c := rd mem i in
      if c =? 0 then Some []
      else let? s := print_precision mem (i + 1) n in Some (c :: s)
  end.

(** [strlen], and the trailing newline replaced by a NUL: the array and
    [len]. *)
Definition strip_newline (line : list Z) : option (list Z * Z) :=
  let? s := cstring line in
  let len := zlen s in
  if 0 <? len then
    let? last := rd line (len - 1) in
    if last =? 10 then let? line := wr line (len - 1) 0 in Some (line, len - 1)
    else Some (line, len)
  else Some (line, len).

Section samples.
Context {N W : Type} `{Squid N} `{SquidInit N} `{SquidClientSide N} `{LocalSockets W}
  `{Platform N W}.
Local Abbreviation P := (CT (process N)).

(** The idle callback of both programs. *)
Definition pump_squid (n : N) : Z * N := (0, usleep 5000 (snet_burst n)).
#[global] Instance sample_host : ClientHost N := {
  snet_link_epoch := client_link_epoch;
  idle_callback := pump_squid }.

Definition timing : squid_timing := SquidTiming 6 0 0 3 SQUID_PAYLOAD_MAX.

(** *** Calls into the components *)

Definition on_client {A} (m : CT (client_state N) A) : P A := fun s =>
  match m (pr_client s) with
  | Returns a c => Returns a (Process c (pr_stdin s) (pr_stdout s) (pr_stderr s))
  | Waiting => Waiting
  | Undefined => Undefined
  end.
Definition on_engine {A} (f : N -> A * N) : P A := on_client (on_link f).
Definition on_transport {A} (m : ST (local_state W) A) : P A := fun s =>
  let n := c_net (pr_client s) in
  match m (hooks n) with
  | Some (a, l) => on_engine (fun n => (a, set_hooks l n)) s
  | None => Undefined
  end.

Definition print_out (message : list Z) : P unit := fun s =>
  Returns tt (Process (pr_client s) (pr_stdin s) (pr_stdout s ++ message) (pr_stderr s)).
Definition print_error (message : list Z) : P unit := fun s =>
  Returns tt (Process (pr_client s) (pr_stdin s) (pr_stdout s) (pr_stderr s ++ message)).
(** [fgets(line, sizeof line, stdin)]; [None] is NULL, at the end of the
    input. *)
Definition read_line (line : list Z) : P (option (list Z)) := fun s =>
  match pr_stdin s with
  | [] => Returns None s
  | _ =>
      let '(chunk, rest) := fgets (length line - 1) (pr_stdin s) in
      Returns (Some (chunk ++ 0 :: drop (S (length chunk)) line))
        (Process (pr_client s) rest (pr_stdout s) (pr_stderr s))
  end.

(** The bytes of a zero-copy reply as text. *)
Definition reply_text (reply : squid_client_bytes) : P (list Z) :=
  let^ mem := on_client workspace in
  access (print_precision mem (ref_data reply) (Z.to_nat (ref_size reply))).

(** *** The common start and end *)

(** [while (!snet_link_is_up())]. *)
Fixpoint wait_for_link (fuel : nat) : P unit :=
  match fuel with
  | O => fun _ => Waiting
  | S fuel =>
      let^ up := on_client link_is_up in
      if (up : bool) then cret tt
      else
        do^ on_engine (fun n => (tt, snet_burst n));
        do^ on_engine (fun n => (tt, usleep 5000 n));
        wait_for_link fuel
  end.

Definition transport_address : nat := 0.
Definition close_local : P unit := on_transport (local_transport_close (Some transport_address)).

(** From [local_transport_connect] to the handshake: the socket, or [None]
    when the program leaves with 1. *)
Definition connect_server (fuel : nat) (channel : Z) : P (option Z) :=
  let^ connected := on_transport (local_transport_connect (Some transport_address)
                                    (Some local_transport_default_socket_path)) in
  if negb (connected =? 0) then
    do^ print_error (text "error: cannot connect to " ++ local_transport_default_socket_path
          ++ [10] ++ text "       is squid-server running?" ++ [10]);
    cret None
  else
    do^ on_transport (local_transport_activate (Some transport_address));
    do^ on_engine (fun n => (tt, snet_init timing n));
    let^ squid_fd :=
      on_engine (squid_open SQUID_CLIENT_WORKSPACE_SIZE SQUID_CLIENT_WORKSPACE_SIZE) in
    if squid_fd <? 0 then
      do^ print_error (text "error: squid_open failed" ++ [10]);
      do^ close_local;
      cret None
    else
      do^ on_engine (squid_connect squid_fd channel);
      do^ on_client (squid_client_init squid_fd (Some (uninit SQUID_CLIENT_WORKSPACE_SIZE))
                       SQUID_CLIENT_PACKET_MAX true);
      do^ wait_for_link fuel;
      cret (Some squid_fd).

Definition disconnect (squid_fd code : Z) : P Z :=
  do^ on_engine (fun n => (tt, squid_close squid_fd n));
  do^ close_local;
  cret code.

Definition send_failed : list Z :=
  text "error: send failed — server may have disconnected" ++ [10].

(** *** echo_sample.c *)

(** The loop over [fgets]; [turns] bounds the lines that are left. *)
Fixpoint echo_loop (fuel turns : nat) (line : list Z) : P unit :=
  match turns with
  | O => fun _ => Undefined
  | S turns =>
      let^ got := read_line line in
      match got with
      | None => cret tt
      | Some line =>
          let^ '(line, len) := access (strip_newline line) in
          if len =? 0 then echo_loop fuel turns line
          else
            let^ '(result, reply) :=
              on_client (squid_client_echo fuel (Some line) (u8 len) true) in
            if negb (result =? 0) then print_error send_failed
            else
              let^ reply := access reply in
              let^ message := reply_text reply in
              do^ print_out (text "< " ++ message ++ [10]);
              echo_loop fuel turns line
      end
  end.

Definition echo_banner : list Z :=
  text "connected to squid-server (echo, channel " ++ digits 10 ECHO_CHANNEL ++ text ")" ++ [10]
  ++ text "type a message and press enter — ctrl+d to quit" ++ [10; 10].

Definition echo_main (fuel : nat) : P Z :=
  let^ connected := connect_server fuel ECHO_CHANNEL in
  match connected with
  | None => cret 1
  | Some squid_fd =>
      do^ print_out echo_banner;
      do^ (fun s => echo_loop fuel (S (length (pr_stdin s)))
                      (uninit SQUID_CLIENT_WORKSPACE_SIZE) s);
      disconnect squid_fd 0
  end.

(** *** sys_sample.c *)

Definition print_usage (program : list Z) : P unit :=
  print_error (text "usage: " ++ program ++ text " <command>" ++ [10] ++ text "commands:" ++ [10]
    ++ text "  id   print server hostname and OS" ++ [10]).

Definition sys_main (fuel : nat) (argv : list (list Z)) : P Z :=
  match argv with
  | [program; command] =>
      let command_len := zlen command in
      if command_len =? 0 then do^ print_usage program; cret 1
      else if SQUID_CLIENT_PACKET_MAX <? command_len then
        do^ print_error (text "error: command is too long (maximum "
              ++ digits 10 SQUID_CLIENT_PACKET_MAX ++ text " bytes)" ++ [10]);
        cret 1
      else
        let^ connected := connect_server fuel SYS_CHANNEL in
        match connected with
        | None => cret 1
        | Some squid_fd =>
            let^ '(result, reply) :=
              (if eq_text command (text "id")
               then on_client (squid_client_system_id fuel true)
               else cret (SQUID_CLIENT_ERROR_ARGUMENT, None)) in
            if negb (result =? 0) then
              do^ print_error send_failed;
              disconnect squid_fd 1
            else
              let^ reply := access reply in
              if 0 <? ref_size reply then
                let^ message := reply_text reply in
                do^ print_out (message ++ [10]);
                disconnect squid_fd 0
              else
                do^ print_error (text "error: link lost or no response from server" ++ [10]);
                disconnect squid_fd 1
        end
  | _ =>
      let^ program := access (head argv) in
      do^ print_usage program;
      cret 1
  end.
End samples.
