(* ===== verification/SamplesProps.v ===== *)
(** The sample programs: on every path and with any server they have no
    undefined behaviour and release the socket and the connection they
    opened. *)
From stdpp Require Import base numbers list option gmap strings.
From Stdlib Require Import ZArith Lia.
From S2P Require Import Prelude CLib Runtime Local LocalProps Client ClientCalls ClientSafety ClientProps.
From S2P Require Import Samples.

Local Open Scope Z_scope.
Local Open Scope squid_scope.

(** ** The protocol of a dialling socket *)

Inductive dial_phase := Hung | Dialling (fd : Z) | Refused (fd : Z) | Talking (fd : Z).

Section dial.
Variable path : list Z.

Inductive dial_step : dial_phase -> local_event -> dial_phase -> Prop :=
| dial_no_socket r : r < 0 -> dial_step Hung (LSocket r) Hung
| dial_socket fd : 0 <= fd -> dial_step Hung (LSocket fd) (Dialling fd)
| dial_connect fd : dial_step (Dialling fd) (LConnect fd (fill_sockaddr path) 0) (Talking fd)
| dial_refused fd r : r <> 0 ->
    dial_step (Dialling fd) (LConnect fd (fill_sockaddr path) r) (Refused fd)
| dial_give_up fd : dial_step (Refused fd) (LClose fd) Hung
| dial_send fd c r : dial_step (Talking fd) (LSend fd c r) (Talking fd)
| dial_recv fd r : dial_step (Talking fd) (LRecv fd r) (Talking fd)
| dial_hang_up fd : dial_step (Talking fd) (LClose fd) Hung.

Context {W : Type} `{LocalSockets W} (before : list local_event) (p : nat).
Local Abbreviation dialled := (follows dial_step Hung before p).

Lemma dial_connect_spec t l : dialled Hung [] t l -> zlen path < 108 ->
  wp (local_transport_connect (Some p) (Some path)) (fun r l' =>
    (r = 0 /\ exists fd, 0 <= fd /\
       dialled (Talking fd) [] (LocalTransport (-1) fd (strncpy_zeroed 108 path)) l') \/
    (r <> 0 /\ exists t', Local.client_fd t' < 0 /\ dialled Hung [] t' l')) l.
Proof.
  intros Hf Hl. cbn [local_transport_connect]. unfold local_transport_socket_path_max at 1.
  destruct (Z.leb_spec 108 (zlen path)); [lia|].
  apply wp_bind. eapply wp_l_load; [done|]. apply wp_bind. eapply wp_l_store; [done|].
  intros l1 _ Hf1. apply wp_bind. call_step l2 Hl2. destruct (Z.ltb_spec a 0).
  { exists Hung. split; [by constructor|]. intros Hf2. right. split; [done|].
    exists (init_transport_fields path). done. }
  exists (Dialling a). split; [by constructor|]. intros Hf2.
  apply wp_bind. call_step l3 Hl3. destruct (Z.eqb_spec a0 0) as [->|Hne]; cbn [negb].
  - exists (Talking a). split; [constructor|]. intros Hf3. apply wp_bind.
    eapply wp_l_load; [done|]. apply wp_bind. eapply wp_l_store; [done|]. intros l4 _ Hf4.
    left. split; [done|]. by exists a.
  - exists (Refused a). split; [by constructor|]. intros Hf3. apply wp_bind. call_step l4 Hl4.
    exists Hung. split; [constructor|]. intros Hf4. right. split; [done|].
    exists (init_transport_fields path). done.
Qed.

(** The hooks talk on the connection only. *)
Definition talking (fd : Z) (l : local_state W) : Prop :=
  0 <= fd /\ transport_fd l = fd /\
  exists sent, dialled (Talking fd) sent (LocalTransport (-1) fd (strncpy_zeroed 108 path)) l.

Lemma activate_spec fd l : 0 <= fd ->
  dialled (Talking fd) [] (LocalTransport (-1) fd (strncpy_zeroed 108 path)) l ->
  wp (local_transport_activate (Some p)) (fun _ l' => talking fd l') l.
Proof.
  intros Hfd Hf. cbn [local_transport_activate]. apply wp_bind. eapply wp_l_load; [done|].
  split_and!; [done|done|]. by exists [].
Qed.

Lemma hook_spec fd u l : talking fd l -> match u with use_wait _ => False | _ => True end ->
  wp (local_do 0 p u) (fun _ l' => talking fd l') l.
Proof.
  intros (Hfd & Htr & sent & Hf) Hu. destruct u as [c| |]; [| |done]; cbn [local_do].
  all: apply wp_bind; change (wp get_transport_fd ?Q l) with (Q (transport_fd l) l); cbv beta;
    rewrite Htr; apply wp_bind.
  - eapply wp_l_call; [done|]. intros r l1 Hl1. exists (Talking fd). split; [constructor|].
    intros Hf1. apply wp_ret. split_and!; [done|congruence|eauto].
  - eapply wp_l_call; [done|]. intros [r c] l1 Hl1. exists (Talking fd). split; [constructor|].
    intros Hf1. apply wp_ret. split_and!; [done|congruence|eauto].
Qed.

Lemma dial_close_spec fd l : talking fd l ->
  wp (local_transport_close (Some p)) (fun _ l' => transport_fd l' = -1 /\
    exists sent t', Local.client_fd t' < 0 /\ dialled Hung sent t' l') l.
Proof.
  intros (Hfd & Htr & sent & Hf). cbn [local_transport_close]. apply wp_bind.
  eapply wp_l_load; [done|]. cbn [Local.client_fd]. destruct (Z.leb_spec 0 fd); [|lia].
  apply wp_bind, wp_bind. call_step l1 Hl1. exists Hung. split; [constructor|]. intros Hf1.
  eapply wp_l_store; [done|]. intros l2 _ Hf2. apply wp_bind. eapply wp_l_load; [done|].
  cbn [listen_fd set_client_fd]. apply wp_bind, wp_ret. split; [done|].
  eexists _, _. by split; [|exact Hf2].
Qed.
End dial.

(** ** The engine and its hooks *)

(** The calls of the engine. *)
Inductive engine_step {N} `{Squid N} `{SquidInit N} `{SquidClientSide N} : N -> N -> Prop :=
| by_init t n : engine_step n (snet_init t n)
| by_open a b n : engine_step n (squid_open a b n).2
| by_connect fd c n : engine_step n (squid_connect fd c n).2
| by_close fd n : engine_step n (squid_close fd n)
| by_send fd d n : engine_step n (squid_send fd d n).2
| by_recv fd m n : engine_step n (squid_recv fd m n).2
| by_burst n : engine_step n (snet_burst n)
| by_sleep t n : engine_step n (usleep t n).

(** Some calls of the send and receive hooks. *)
Definition hook_calls {W} `{LocalSockets W} (l l' : local_state W) : Prop :=
  exists us rs, Forall (fun u => match u with use_wait _ => False | _ => True end) us /\
    local_uses 0 transport_address us l = Some (rs, l').

(** What the programs rely on: the engine reaches the transport through its
    hooks only, and its calls open and close no other socket. *)
Class EngineLaws (N W : Type) `{Squid N} `{SquidInit N} `{SquidClientSide N} `{LocalSockets W}
    `{Platform N W} (socks : N -> gset Z) : Prop := {
  hooks_set : forall l (n : N), hooks (set_hooks l n) = l;
  hooks_called : forall n n', engine_step n n' -> hook_calls (hooks n) (hooks n');
  set_sockets : forall l n, socks (set_hooks l n) = socks n;
  connect_sockets : forall fd c n, socks (squid_connect fd c n).2 = socks n;
  sleep_sockets : forall t n, socks (usleep t n) = socks n }.

(** ** Processes *)

Section process.
Context {N : Type}.

Lemma cwp_on_client {A} w (m : CT (client_state N) A) Q (s : process N) :
  cwp w m (fun a c => Q a (Process c (pr_stdin s) (pr_stdout s) (pr_stderr s))) (pr_client s) ->
  cwp w (on_client m) Q s.
Proof. unfold cwp, on_client. by destruct (m (pr_client s)). Qed.

Lemma cwp_both {St A} w (m : CT St A) (P Q : A -> St -> Prop) (s : St) :
  cwp w m P s -> cwp True m Q s -> cwp w m (fun a s' => P a s' /\ Q a s') s.
Proof. unfold cwp. by destruct (m s). Qed.

(** [keeps J m]: the network satisfies [J] when [m] returns. *)
Definition keeps {A} (J : N -> Prop) (m : CT (client_state N) A) : Prop :=
  forall c, J (c_net c) -> cwp True m (fun _ c' => J (c_net c')) c \/ m c = Undefined.

Lemma keeps_bind {A B} J (m : CT (client_state N) A) (k : A -> CT (client_state N) B) :
  keeps J m -> (forall a, keeps J (k a)) -> keeps J (cbind m k).
Proof.
  intros Hm Hk c Hc. unfold cwp, cbind in *. destruct (Hm c Hc) as [H1|H1]; unfold cwp in H1.
  - destruct (m c) as [a c'| |]; [apply (Hk a c' H1)|by left|done].
  - rewrite H1. by right.
Qed.
Lemma keeps_ret {A} J (a : A) : keeps J (cret a).
Proof. by left. Qed.
Lemma keeps_access {A} J (o : option A) : keeps J (access o).
Proof. intros c Hc. unfold cwp, access. destruct o; [by left|by right]. Qed.
Lemma keeps_client J : keeps J the_client.
Proof. by left. Qed.
Lemma keeps_workspace J : keeps J workspace.
Proof. intros c Hc. unfold cwp, workspace. destruct (c_client c) as [[? [?|] ? ?]|]; auto. Qed.
Lemma keeps_set_workspace J mem : keeps J (set_workspace mem).
Proof. intros c Hc. unfold cwp, set_workspace. destruct (c_client c); auto. Qed.
Lemma keeps_waiting {A} J : keeps (A := A) J (fun _ => Waiting).
Proof. by left. Qed.
Lemma keeps_link {A} (J : N -> Prop) (f : N -> A * N) :
  (forall n, J n -> J (f n).2) -> keeps J (on_link f).
Proof. intros Hf c Hc. left. unfold cwp, on_link. specialize (Hf _ Hc). by destruct (f (c_net c)). Qed.
End process.

(** Goes through client code. *)
Ltac keeps_steps :=
  repeat first
    [ lazymatch goal with |- keeps _ (cbind _ _) => apply keeps_bind; [|intros ?] end
    | apply keeps_ret | apply keeps_access | apply keeps_client | apply keeps_workspace
    | apply keeps_set_workspace | apply keeps_waiting | by left
    | case_match ].

Section keeping.
Context {N : Type} `{Squid N} `{ClientHost N} (J : N -> Prop).
Context (J_send : forall fd d n, J n -> J (squid_send fd d n).2)
  (J_recv : forall fd m n, J n -> J (squid_recv fd m n).2)
  (J_idle : forall n, J n -> J (idle_callback n).2).

Lemma keeps_wait epoch : keeps J (wait_for_progress epoch).
Proof. unfold wait_for_progress. keeps_steps. by apply keeps_link. Qed.

Lemma keeps_receive size epoch : forall fuel data, keeps J (receive_bytes fuel size epoch data).
Proof.
  induction fuel as [|fuel IH]; intros data; cbn [receive_bytes]; keeps_steps; try done.
  - apply keeps_link. intros n Hn. specialize (J_recv (client_fd a0) (u16 (size - zlen data)) n Hn).
    by destruct (squid_recv _ _ n) as [[r d] n'].
  - apply keeps_wait.
Qed.

Lemma keeps_into fuel size epoch : keeps J (receive_into_packet fuel size epoch).
Proof. unfold receive_into_packet. keeps_steps. apply keeps_receive. Qed.

Lemma keeps_drain capacity epoch : forall fuel remaining, keeps J (drain fuel remaining capacity epoch).
Proof.
  induction fuel as [|fuel IH]; intros remaining; cbn [drain]; keeps_steps; try done;
    apply keeps_into.
Qed.

Lemma keeps_exchange fuel size : keeps J (squid_client_exchange fuel size).
Proof.
  unfold squid_client_exchange, receive_response, put_byte. keeps_steps;
    auto using keeps_link, keeps_receive, keeps_drain, keeps_into.
Qed.

Lemma keeps_copy source i : forall todo index, keeps J (copy_loop source index todo i).
Proof.
  induction todo as [|todo IH]; intros index; cbn [copy_loop]; unfold put_byte; keeps_steps. done.
Qed.

Lemma keeps_echo fuel data size reply : keeps J (squid_client_echo fuel data size reply).
Proof.
  unfold squid_client_echo, usable_capacity, argument_error, call_error, success. keeps_steps;
    auto using keeps_exchange. apply keeps_copy.
Qed.
Lemma keeps_system_id fuel reply : keeps J (squid_client_system_id fuel reply).
Proof.
  unfold squid_client_system_id, usable_capacity, argument_error, call_error, success, put_byte.
  keeps_steps. apply keeps_exchange.
Qed.
End keeping.

(** ** Lines *)

(** The message a line of input holds. *)
Definition strip (s : list Z) : list Z :=
  if decide (last s = Some 10) then removelast s else s.
Definition line_message (chunk : list Z) : list Z := strip (before_nul chunk).

Lemma strip_snoc s c : strip (s ++ [c]) = if decide (c = 10) then s else s ++ [c].
Proof.
  unfold strip. rewrite last_snoc, removelast_last. repeat case_decide; congruence.
Qed.

Lemma strip_prefix s : strip s `prefix_of` s.
Proof.
  destruct s as [|c s _] using rev_ind; [done|]. rewrite strip_snoc.
  case_decide; [by apply prefix_app_r|done].
Qed.
Lemma line_message_prefix chunk : line_message chunk `prefix_of` chunk.
Proof. etrans; [apply strip_prefix|apply before_nul_prefix]. Qed.
Lemma line_message_length chunk : (length (line_message chunk) <= length chunk)%nat.
Proof. apply prefix_length, line_message_prefix. Qed.
Lemma line_message_bytes chunk : bytes_ok chunk -> bytes_ok (line_message chunk).
Proof.
  intros Hb. destruct (line_message_prefix chunk) as [k E]. rewrite E in Hb.
  by apply bytes_ok_app in Hb as [? _].
Qed.

Lemma strip_newline_eq chunk rest : bytes_ok chunk ->
  exists line, strip_newline (chunk ++ 0 :: rest) = Some (line, zlen (line_message chunk)) /\
    length line = length (chunk ++ 0 :: rest) /\
    take (length (line_message chunk)) line = line_message chunk.
Proof.
  intros Hb. unfold strip_newline, line_message. rewrite cstring_before_nul by done.
  destruct (before_nul_prefix chunk) as [after E].
  assert (Hb' : bytes_ok (before_nul chunk)) by (rewrite E in Hb; by apply bytes_ok_app in Hb as [? _]).
  assert (EL : chunk ++ 0 :: rest = before_nul chunk ++ after ++ 0 :: rest) by (by rewrite E at 1; rewrite <- app_assoc).
  rewrite EL. clear E EL. destruct (before_nul chunk) as [|c s _] using rev_ind; cbn [mbind option_bind].
  { by exists (after ++ 0 :: rest). }
  rewrite strip_snoc. apply bytes_ok_app in Hb' as [_ Hc]. apply Forall_cons_1 in Hc as [[Hc _] _].
  rewrite zlen_app. change (zlen [c]) with 1. pose proof (zlen_nonneg s).
  destruct (Z.ltb_spec 0 (zlen s + 1)); [|lia]. replace (zlen s + 1 - 1) with (zlen s) by lia.
  rewrite <- app_assoc. cbn [app].
  rewrite (rd_Some _ (zlen s) c) by
    (done || unfold zlen; rewrite Nat2Z.id; apply list_lookup_middle; done).
  cbn [mbind option_bind]. destruct (Z.eqb_spec c 10) as [->|Hne].
  - rewrite decide_True by done. rewrite wr_app by done. eexists. split; [done|].
    rewrite !length_app. split; [done|]. apply take_app_length.
  - rewrite decide_False by done. eexists. rewrite zlen_app. split; [done|]. split; [done|].
    change (c :: after ++ 0 :: rest) with ([c] ++ after ++ 0 :: rest). rewrite app_assoc.
    apply take_app_length.
Qed.

Lemma print_precision_eq mem n : forall i, 0 <= i ->
  bytes_ok (take (Z.to_nat i + n) mem) -> i + Z.of_nat n <= zlen mem ->
  print_precision mem i n = Some (before_nul (take n (drop (Z.to_nat i) mem))).
Proof.
  induction n as [|n IH]; intros i Hi Hb Hl; cbn [print_precision]; [by rewrite take_0|].
  destruct (rd_taken mem (i + Z.of_nat (S n)) i) as (v & Hv & Hr); [|lia|lia|].
  { by replace (Z.to_nat (i + Z.of_nat (S n))) with (Z.to_nat i + S n)%nat by lia. }
  rewrite Hv. apply rd_inv in Hv as (_ & Hlk & _). rewrite (drop_S mem v) by done.
  cbn [mbind option_bind take before_nul]. destruct (v =? 0); [done|].
  rewrite IH; [|lia| |lia].
  - by replace (Z.to_nat (i + 1)) with (S (Z.to_nat i)) by lia.
  - by replace (Z.to_nat (i + 1) + n)%nat with (Z.to_nat i + S n)%nat by lia.
Qed.

Lemma fgets_length n file : (length (fgets n file).1 <= n)%nat.
Proof.
  revert file. induction n as [|n IH]; intros [|c file]; cbn; try lia.
  destruct (c =? 10); cbn; [lia|]. specialize (IH file). destruct (fgets n file). cbn in *. lia.
Qed.
Lemma fgets_progress n c file : (0 < length (fgets (S n) (c :: file)).1)%nat.
Proof. cbn. destruct (c =? 10); cbn; [lia|]. destruct (fgets n file). cbn. lia. Qed.

(** [read_line] on input that is not at its end. *)
Lemma read_line_eq {N} (line : list Z) (s : process N) : zlen line = 256 -> bytes_ok (pr_stdin s) ->
  pr_stdin s <> [] ->
  exists chunk rest, fgets 255 (pr_stdin s) = (chunk, rest) /\ bytes_ok chunk /\ bytes_ok rest /\
    (length rest < length (pr_stdin s))%nat /\ (length chunk <= 255)%nat /\
    read_line line s = Returns (Some (chunk ++ 0 :: drop (S (length chunk)) line))
      (Process (pr_client s) rest (pr_stdout s) (pr_stderr s)).
Proof.
  intros Hl Hb Hne. unfold read_line. replace (length line - 1)%nat with 255%nat by (unfold zlen in Hl; lia).
  destruct (pr_stdin s) as [|c file] eqn:E; [done|].
  pose proof (fgets_app 255 (c :: file)) as Ha. pose proof (fgets_length 255 (c :: file)) as Hn.
  pose proof (fgets_progress 254 c file) as Hp.
  destruct (fgets 255 (c :: file)) as [chunk rest]. cbn [fst] in *. exists chunk, rest.
  rewrite Ha in Hb. apply bytes_ok_app in Hb as [H1 H2].
  assert (length (c :: file) = length chunk + length rest)%nat by (by rewrite Ha, length_app).
  split_and!; try done. lia.
Qed.

(** ** The programs, with any server *)

Section safety.
Context {N W : Type} `{Squid N} `{SquidInit N} `{SquidClientSide N} `{LocalSockets W}
  `{Platform N W} `{!RecvLaw N}
  (socks : N -> gset Z) `{!SquidSockets N socks} `{LAWS : !EngineLaws N W socks}.
Local Abbreviation path := local_transport_default_socket_path.
Local Abbreviation net s := (c_net (pr_client s)).

(** The network of a program that talks on descriptor [fd] and has opened the
    socket [sq] besides those of [base]. *)
Definition online (before : list local_event) (fd sq : Z) (base : gset Z) (n : N) : Prop :=
  talking path before transport_address fd (hooks n) /\ (sq ∉ base) /\ socks n = ({[ sq ]} ∪ base).

Lemma uses_keep before fd us : Forall (fun u => match u with use_wait _ => False | _ => True end) us ->
  forall l rs l', local_uses 0 transport_address us l = Some (rs, l') ->
  talking path before transport_address fd l -> talking path before transport_address fd l'.
Proof.
  induction 1 as [|u us Hu _ IH]; intros l rs l' E Ht; cbn [local_uses] in E; [by inversion E; subst|].
  pose proof (hook_spec path before transport_address fd u l Ht Hu) as Hw. unfold wp in Hw.
  unfold bind in E. destruct (local_do 0 transport_address u l) as [[r l1]|]; [|done].
  destruct (local_uses 0 transport_address us l1) as [[rs1 l2]|] eqn:E2; [|done].
  inversion E; subst. by eapply IH.
Qed.

Lemma engine_keeps before fd n n' : engine_step n n' ->
  talking path before transport_address fd (hooks n) ->
  talking path before transport_address fd (hooks n').
Proof. intros Hs. destruct (hooks_called n n' Hs) as (us & rs & Hu & E). by eapply uses_keep. Qed.

(** An engine call that leaves the sockets alone. *)
Lemma online_step before fd sq base n n' : engine_step n n' -> socks n' = socks n ->
  online before fd sq base n -> online before fd sq base n'.
Proof. intros Hs E (Ht & Hn & Hb). split; [by eapply engine_keeps|]. by rewrite E. Qed.

Lemma online_send before fd sq base g d n :
  online before fd sq base n -> online before fd sq base (squid_send g d n).2.
Proof. apply online_step; [constructor|apply socket_send]. Qed.
Lemma online_recv before fd sq base g m n :
  online before fd sq base n -> online before fd sq base (squid_recv g m n).2.
Proof. apply online_step; [constructor|apply socket_recv]. Qed.
Lemma online_burst before fd sq base n :
  online before fd sq base n -> online before fd sq base (snet_burst n).
Proof. apply online_step; [constructor|apply socket_burst]. Qed.
Lemma online_sleep before fd sq base t n :
  online before fd sq base n -> online before fd sq base (usleep t n).
Proof. apply online_step; [constructor|apply sleep_sockets]. Qed.
Lemma online_idle before fd sq base n :
  online before fd sq base n -> online before fd sq base (idle_callback n).2.
Proof. intros. by apply online_sleep, online_burst. Qed.

(** Everything is given back. *)
Definition released (s0 : process N) (s : process N) : Prop :=
  (exists es, l_trace (hooks (net s)) = l_trace (hooks (net s0)) ++ es /\
     run (dial_step path) Hung es Hung) /\
  (exists t, local_transports (hooks (net s)) !! transport_address = Some t /\
     Local.client_fd t < 0) /\
  (socks (net s) = socks (net s0) \/ exists n1, socks (net s) = socks (snet_init timing n1)).

(** A program in its session: the socket, the workspace, and a set [base] of
    the sockets the engine started with. *)
Record in_session (s0 : process N) (fd sq : Z) (base : gset Z) (s : process N) : Prop := {
  ses_online : online (l_trace (hooks (net s0))) fd sq base (net s);
  ses_client : exists mem, pr_client s = at_mem sq 255 true (net s) mem /\ zlen mem = 256;
  ses_base : exists n1, base = socks (snet_init timing n1) }.

Lemma cwp_engine {A} w (f : N -> A * N) Q s :
  (forall a n', f (net s) = (a, n') ->
     Q a (Process (ClientState n' (c_client (pr_client s))) (pr_stdin s) (pr_stdout s) (pr_stderr s))) ->
  cwp w (on_engine f) Q s.
Proof.
  intros HQ. apply cwp_on_client. unfold cwp, on_link.
  destruct (f (net s)) as [a n'] eqn:E. by apply HQ.
Qed.

Lemma cwp_transport {A} w (m : ST (local_state W) A) P Q s :
  wp m P (hooks (net s)) ->
  (forall a l, P a l ->
     Q a (Process (ClientState (set_hooks l (net s)) (c_client (pr_client s)))
            (pr_stdin s) (pr_stdout s) (pr_stderr s))) ->
  cwp w (on_transport m) Q s.
Proof.
  intros Hm HQ. unfold wp in Hm. unfold cwp, on_transport.
  destruct (m (hooks (net s))) as [[a l]|]; [|done]. by apply HQ.
Qed.

Lemma disconnect_spec w s0 fd sq base code s : in_session s0 fd sq base s ->
  cwp w (disconnect sq code) (fun r s' => r = code /\ released s0 s') s.
Proof.
  intros [(Ht & Hn & Hb) _ [n1 Hbase]]. unfold disconnect. apply cwp_bind, cwp_engine.
  intros [] n2 [= <-].
  assert (Hs2 : socks (squid_close sq (net s)) = base).
  { rewrite socket_close, Hb. by apply remove_fresh. }
  apply cwp_bind. unfold close_local. eapply cwp_transport.
  { eapply (dial_close_spec path). cbn. eapply engine_keeps; [constructor|exact Ht]. }
  intros [] l (_ & sent & t' & Hc & Hl & es & Htr & Hrun & _). apply cwp_ret.
  split; [done|]. unfold released. cbn. rewrite hooks_set. split_and!; [by exists es|by exists t'|].
  right. exists n1. by rewrite set_sockets, Hs2.
Qed.

(** It returns, and prints nothing. *)
Lemma disconnect_returns s0 fd sq base code s : in_session s0 fd sq base s ->
  exists s', disconnect sq code s = Returns code s' /\ released s0 s' /\
    pr_stdin s' = pr_stdin s /\ pr_stdout s' = pr_stdout s /\ pr_stderr s' = pr_stderr s.
Proof.
  intros Hs. pose proof (disconnect_spec False s0 fd sq base code s Hs) as Hw. revert Hw.
  unfold cwp, disconnect, close_local, cbind, on_transport, on_engine, on_client, on_link.
  cbn [pr_client pr_stdin pr_stdout pr_stderr c_net].
  destruct (local_transport_close (Some transport_address) (hooks (squid_close sq (net s))))
    as [[[] l]|]; [|done]. intros [_ Hr]. eauto 6.
Qed.

Lemma wait_for_link_spec s0 fd sq base fuel : forall s, in_session s0 fd sq base s ->
  cwp True (wait_for_link fuel) (fun _ s' => in_session s0 fd sq base s' /\
    pr_stdin s' = pr_stdin s /\ pr_stdout s' = pr_stdout s) s.
Proof.
  induction fuel as [|fuel IH]; intros s Hs; [done|]. cbn [wait_for_link].
  apply cwp_bind, cwp_on_client. unfold cwp at 1, link_is_up.
  destruct (snet_link_is_up (net s)); [by destruct s as [[] ? ? ?]|].
  apply cwp_bind, cwp_engine. intros [] n1 [= <-]. apply cwp_bind, cwp_engine.
  intros [] n2 [= <-]. cbn. destruct Hs as [Ho (mem & Hc & Hm) Hb].
  eapply cwp_mono; [apply IH|].
  - split; [by apply online_sleep, online_burst| |done].
    exists mem. rewrite Hc. done.
  - done.
Qed.

(** A fresh process: the objects are there, uninitialised. *)
Definition fresh (s : process N) : Prop :=
  (exists t, local_transports (hooks (net s)) !! transport_address = Some t) /\
  (exists c, c_client (pr_client s) = Some c) /\ bytes_ok (pr_stdin s).

Lemma connect_server_spec fuel channel s : fresh s ->
  cwp True (connect_server fuel channel) (fun r s' =>
    pr_stdin s' = pr_stdin s /\ pr_stdout s' = pr_stdout s /\
    match r with
    | None => released s s'
    | Some sq => exists fd base, in_session s fd sq base s'
    end) s.
Proof.
  intros ([t Ht] & [c Hc] & Hb). unfold connect_server. apply cwp_bind. eapply cwp_transport.
  { apply (dial_connect_spec path (l_trace (hooks (net s))) transport_address t); [|closed].
    split; [done|]. exists []. rewrite app_nil_r. split_and!; [done|constructor|done]. }
  intros r l [(-> & fd & Hfd & Hl)|(Hr & t' & Ht' & Hl & es & Htr & Hrun & _)].
  2:{ destruct (Z.eqb_spec r 0); [done|]. cbn [negb]. apply cwp_bind. unfold cwp at 1, print_error.
      apply cwp_ret. cbn. split_and!; [done..|]. unfold released. cbn. rewrite hooks_set.
      split_and!; [by exists es|by exists t'|]. left. apply set_sockets. }
  cbn [Z.eqb negb]. apply cwp_bind. eapply cwp_transport.
  { cbn [pr_client c_net]. rewrite hooks_set. by apply (activate_spec path). }
  intros [] l2 Hl2. cbn [pr_client c_net c_client pr_stdin pr_stdout pr_stderr].
  apply cwp_bind, cwp_engine. intros [] n3 [= <-]. cbn [pr_client c_net].
  apply cwp_bind, cwp_engine. intros sq n4 E4. cbn [pr_client c_net] in E4.
  set (n2 := set_hooks l2 _) in *. pose proof (socket_open SQUID_CLIENT_WORKSPACE_SIZE
    SQUID_CLIENT_WORKSPACE_SIZE (snet_init timing n2)) as Hop. rewrite E4 in Hop.
  assert (Hl4 : talking path (l_trace (hooks (net s))) transport_address fd (hooks n4)).
  { replace n4 with (squid_open SQUID_CLIENT_WORKSPACE_SIZE SQUID_CLIENT_WORKSPACE_SIZE
      (snet_init timing n2)).2 by (by rewrite E4).
    eapply engine_keeps; [constructor|]. eapply engine_keeps; [constructor|].
    unfold n2. by rewrite hooks_set. }
  destruct (sq <? 0).
  - apply cwp_bind. unfold cwp at 1, print_error. apply cwp_bind. unfold close_local.
    eapply cwp_transport; [by eapply (dial_close_spec path)|].
    intros [] l5 (_ & sent & t' & Ht' & Hl5 & es & Htr & Hrun & _). apply cwp_ret. cbn.
    split_and!; [done..|]. unfold released. cbn. rewrite hooks_set.
    split_and!; [by exists es|by exists t'|]. right. exists n2. by rewrite set_sockets.
  - apply cwp_bind, cwp_engine. intros r5 n5 E5. cbn [pr_client c_net c_client] in *.
    apply cwp_bind, cwp_on_client. unfold cwp at 1, squid_client_init. cbn [pr_client c_client].
    rewrite Hc. apply cwp_bind. eapply cwp_mono; [eapply (wait_for_link_spec s fd sq)|].
    2:{ intros [] s' (Hs' & Hi & Ho). apply cwp_ret. eauto 6. }
    assert (n5 = (squid_connect sq channel n4).2) as -> by (by rewrite E5). split.
    + cbn. split; [eapply engine_keeps; [constructor|exact Hl4]|]. rewrite connect_sockets. apply Hop.
    + eexists. split; [done|]. closed.
    + by exists n2.
Qed.

(** A call that ends with an exchange delivers bytes at the start of the
    workspace. *)
Definition replied (sq : Z) (res : Z * option squid_client_bytes) (c : client_state N) : Prop :=
  exists n mem, c = at_mem sq 255 true n mem /\ zlen mem = 256 /\
    (res.1 = 0 -> exists r, res.2 = Some (ClientBytes 0 r) /\ 1 <= r <= 255 /\
       bytes_ok (take (Z.to_nat r) mem)).

Lemma finish_reply sq fuel size req n c :
  filled sq 255 true 256 req n c -> bytes_ok req -> size = zlen req ->
  cwp True (let^ response_size := squid_client_exchange fuel size in
            if response_size <? 0 then call_error response_size
            else success (ClientBytes 0 (u8 response_size))) (replied sq) c.
Proof.
  intros Hf Hb ->. apply cwp_bind. eapply cwp_mono; [by eapply (exchange_safe sq 255 true 256)|].
  intros r c' (n' & mem & -> & Hm & Hr). destruct (Z.ltb_spec r 0); apply cwp_ret.
  - exists n', mem. split_and!; [done|done|]. cbn. lia.
  - exists n', mem. split_and!; [done|done|]. intros _. exists r. cbn.
    rewrite u8_small by lia. split; [done|]. destruct Hr as [?|(? & _ & ?)]; [lia|done].
Qed.

Lemma echo_replied sq fuel line size n mem : zlen mem = 256 -> 1 <= size <= 255 ->
  size <= zlen line -> bytes_ok (take (Z.to_nat size) line) ->
  cwp True (squid_client_echo fuel (Some line) size true) (replied sq) (at_mem sq 255 true n mem).
Proof.
  intros Hm Hs Hl Hb. unfold squid_client_echo. apply cwp_bind. unfold cwp at 1.
  rewrite usable_capacity_eq. destruct (_ || _) eqn:Hg; [cbn in Hg; lia|].
  pose proof (filled_nil sq 255 true 256 n mem Hm ltac:(lia)) as Hf.
  fill1; [wsolve..|]. intros c Hf. cbn [app] in Hf.
  eapply finish_reply; [done..|]. rewrite zlen_take. lia.
Qed.

Lemma system_id_replied sq fuel n mem : zlen mem = 256 ->
  cwp True (squid_client_system_id fuel true) (replied sq) (at_mem sq 255 true n mem).
Proof.
  intros Hm. unfold squid_client_system_id. apply cwp_bind. unfold cwp at 1.
  rewrite usable_capacity_eq. cbn [negb orb Z.ltb Z.compare Pos.compare Pos.compare_cont].
  pose proof (filled_nil sq 255 true 256 n mem Hm ltac:(lia)) as Hf.
  fill1; [wsolve..|]. intros c Hf. fill1; [wsolve..|]. intros c2 Hf2.
  eapply finish_reply; [exact Hf2|closed|done].
Qed.

Lemma session_call s0 fd sq base (m : CT (client_state N) (Z * option squid_client_bytes)) s :
  in_session s0 fd sq base s ->
  keeps (online (l_trace (hooks (net s0))) fd sq base) m ->
  (forall n mem, zlen mem = 256 -> cwp True m (replied sq) (at_mem sq 255 true n mem)) ->
  cwp True (on_client m) (fun res s' => in_session s0 fd sq base s' /\
    pr_stdin s' = pr_stdin s /\
    (res.1 = 0 -> exists r, res.2 = Some (ClientBytes 0 r) /\ 1 <= r <= 255 /\
       exists message, reply_text (ClientBytes 0 r) s' = Returns message s')) s.
Proof.
  intros [Ho (mem & Hc & Hm) Hbase] Hk Hr. apply cwp_on_client. specialize (Hr (net s) mem Hm).
  rewrite <- Hc in Hr. eapply cwp_mono; [eapply cwp_both; [exact Hr|]|].
  { destruct (Hk _ Ho) as [Hd|Hu]; [exact Hd|]. unfold cwp in Hr. by rewrite Hu in Hr. }
  cbv beta. intros res c [(n' & mem' & -> & Hm' & Hres) Ho']. split_and!; [|done|].
  - split; [exact Ho'|by exists mem'|done].
  - intros H0'. destruct (Hres H0') as (r & E & Hr1 & Hb). exists r. split; [done|].
    split; [done|]. unfold reply_text. erewrite cbind_returns by done. cbn [ref_data ref_size].
    rewrite (print_precision_eq mem' (Z.to_nat r) 0); [|lia|done|lia].
    by eexists.
Qed.

Lemma online_keeps_echo before fd sq base fuel line size :
  keeps (online before fd sq base) (squid_client_echo fuel line size true).
Proof. apply keeps_echo; auto using online_send, online_recv, online_idle. Qed.
Lemma online_keeps_system_id before fd sq base fuel :
  keeps (online before fd sq base) (squid_client_system_id fuel true).
Proof. apply keeps_system_id; auto using online_send, online_recv, online_idle. Qed.

Lemma session_out s0 fd sq base s i o e : in_session s0 fd sq base s ->
  in_session s0 fd sq base (Process (pr_client s) i o e).
Proof. by intros [? ? ?]. Qed.

Lemma echo_loop_spec s0 fd sq base fuel : forall turns line s,
  in_session s0 fd sq base s -> bytes_ok (pr_stdin s) -> (length (pr_stdin s) < turns)%nat ->
  zlen line = 256 ->
  cwp True (echo_loop fuel turns line) (fun _ s' => in_session s0 fd sq base s') s.
Proof.
  induction turns as [|turns IH]; intros line s Hs Hb Ht Hl; [lia|]. cbn [echo_loop].
  destruct (decide (pr_stdin s = [])) as [E|Hne].
  { apply cwp_bind. unfold cwp at 1, read_line. by rewrite E. }
  destruct (read_line_eq line s Hl Hb Hne) as (chunk & rest & _ & Hcb & Hrb & Hlt & Hcl & E).
  apply cwp_bind. unfold cwp at 1. rewrite E. set (s1 := Process _ rest _ _).
  assert (Hs1 : in_session s0 fd sq base s1) by by apply session_out.
  destruct (strip_newline_eq chunk (drop (S (length chunk)) line) Hcb) as (line2 & E2 & Hl2 & Ht2).
  apply cwp_bind. eapply cwp_access; [exact E2|]. cbv beta iota.
  assert (Hl2' : zlen line2 = 256).
  { unfold zlen in *. rewrite Hl2, length_app. cbn. rewrite length_drop. lia. }
  assert (Hmb : bytes_ok (line_message chunk)).
  { by apply line_message_bytes. }
  assert (Hml : zlen (line_message chunk) <= 255).
  { pose proof (line_message_length chunk). unfold zlen. lia. }
  pose proof (zlen_nonneg (line_message chunk)).
  destruct (Z.eqb_spec (zlen (line_message chunk)) 0); [apply IH; try done; cbn; lia|].
  rewrite u8_small by lia. apply cwp_bind.
  eapply cwp_mono; [apply (session_call s0 fd sq base); [exact Hs1|apply online_keeps_echo|]|].
  { intros n' mem Hm. apply echo_replied; [done|lia|lia|].
    unfold zlen. by rewrite Nat2Z.id, Ht2. }
  intros [code reply] s2 (Hs2 & Hi2 & Hr). cbn [fst snd] in Hr.
  destruct (Z.eqb_spec code 0) as [->|]; cbn [negb]; [|by apply session_out].
  destruct (Hr eq_refl) as (r & -> & Hr1 & message & Hmsg). apply cwp_bind.
  eapply cwp_access; [done|]. apply cwp_bind. unfold cwp at 1. rewrite Hmsg.
  apply cwp_bind. unfold cwp at 1, print_out. apply IH; [by apply session_out|..]; cbn; rewrite ?Hi2; try done. cbn. lia.
Qed.

Lemma echo_main_spec fuel s : fresh s ->
  cwp True (echo_main fuel) (fun code s' => (code = 0 \/ code = 1) /\ released s s') s.
Proof.
  intros Hf. unfold echo_main. apply cwp_bind.
  eapply cwp_mono; [by apply connect_server_spec|].
  intros [sq|] s1 (Hi & _ & Hs); [|by apply cwp_ret; auto].
  destruct Hs as (fd & base & Hs). apply cwp_bind. unfold cwp at 1, print_out. apply cwp_bind.
  eapply cwp_mono; [apply (echo_loop_spec s fd sq base); [by apply session_out|..]|].
  - cbn. rewrite Hi. apply Hf.
  - cbn. lia.
  - closed.
  - intros [] s2 Hs2. eapply cwp_mono; [by eapply disconnect_spec|]. intros r s3 [-> ?]. auto.
Qed.

(** A program that leaves before it connects has nothing to give back. *)
Definition ended (s s' : process N) : Prop := net s' = net s \/ released s s'.

Lemma usage_spec message s :
  cwp True (do^ print_error message; cret 1) (fun code s' =>
    (code = 0 \/ code = 1) /\ ended s s') s.
Proof. split; [by right|by left]. Qed.

Lemma sys_session_spec s0 fd sq base fuel command s : in_session s0 fd sq base s ->
  cwp True (let^ '(result, reply) :=
      (if eq_text command (text "id")
       then on_client (squid_client_system_id fuel true)
       else cret (SQUID_CLIENT_ERROR_ARGUMENT, None)) in
    if negb (result =? 0) then
      do^ print_error send_failed;
      disconnect sq 1
    else
      let^ reply := access reply in
      if 0 <? ref_size reply then
        let^ message := reply_text reply in
        do^ print_out (message ++ [10]);
        disconnect sq 0
      else
        do^ print_error (text "error: link lost or no response from server" ++ [10]);
        disconnect sq 1) (fun code s' => (code = 0 \/ code = 1) /\ released s0 s') s.
Proof.
  intros Hs. assert (Hbye : forall code s1, code = 0 \/ code = 1 -> in_session s0 fd sq base s1 ->
    cwp True (disconnect sq code) (fun code s' => (code = 0 \/ code = 1) /\ released s0 s') s1).
  { intros code s1 Hc Hs1. eapply cwp_mono; [by eapply disconnect_spec|]. by intros r s2 [-> ?]. }
  apply cwp_bind. destruct (eq_text command (text "id")).
  2:{ apply cwp_ret. cbn [Z.eqb negb SQUID_CLIENT_ERROR_ARGUMENT]. apply cwp_bind.
      unfold cwp at 1, print_error. apply Hbye; [auto|]. by apply session_out. }
  eapply cwp_mono; [apply (session_call s0 fd sq base);
    [done|apply online_keeps_system_id|intros; by apply system_id_replied]|].
  intros [code reply] s1 (Hs1 & _ & Hr). cbn [fst snd] in Hr.
  destruct (Z.eqb_spec code 0) as [->|]; cbn [negb].
  2:{ apply cwp_bind. unfold cwp at 1, print_error. apply Hbye; [auto|]. by apply session_out. }
  destruct (Hr eq_refl) as (r & -> & Hr1 & message & Hmsg). apply cwp_bind.
  eapply cwp_access; [done|]. cbn [ref_size]. destruct (Z.ltb_spec 0 r); [|lia].
  apply cwp_bind. unfold cwp at 1. rewrite Hmsg. apply cwp_bind. unfold cwp at 1, print_out.
  apply Hbye; [auto|]. by apply session_out.
Qed.

(** The programs, as the command line starts them. *)
Inductive sample := echo_sample | sys_sample (argv : list (list Z)).
Definition run_sample (fuel : nat) (p : sample) : CT (process N) Z :=
  match p with echo_sample => echo_main fuel | sys_sample argv => sys_main fuel argv end.

Lemma sys_main_spec fuel argv s : fresh s -> argv <> [] ->
  cwp True (sys_main fuel argv) (fun code s' => (code = 0 \/ code = 1) /\ ended s s') s.
Proof.
  intros Hf Ha. destruct argv as [|program [|command [|]]]; [done| | |]; cbn [sys_main];
    try (apply cwp_bind; eapply cwp_access; [done|]; apply usage_spec).
  destruct (zlen command =? 0); [apply usage_spec|].
  destruct (SQUID_CLIENT_PACKET_MAX <? zlen command); [apply usage_spec|].
  apply cwp_bind. eapply cwp_mono; [by apply connect_server_spec|].
  intros [sq|] s1 (_ & _ & Hs); [|apply cwp_ret; split; [by right|by right]].
  destruct Hs as (fd & base & Hs). eapply cwp_mono; [by apply (sys_session_spec s fd sq base)|].
  intros code s2 [Hc Hr]. split; [done|by right].
Qed.

(** C35. The sample programs, whatever the server, the link and the user do: no
    undefined behaviour; the exit code is 0 or 1; and a program that ends has
    given back what it took: the calls on the Unix socket are a run of the
    dialling protocol from hung up to hung up (the descriptor is closed exactly
    once and the hooks used no other), the transport holds no descriptor, and
    no libsquid socket is left open. *)
Theorem samples_safe fuel p s :
  fresh s -> (forall argv, p = sys_sample argv -> argv <> []) ->
  match run_sample fuel p s with
  | Returns code s' => (code = 0 \/ code = 1) /\ ended s s'
  | Waiting => True
  | Undefined => False
  end.
Proof.
  intros Hf Ha. destruct p as [|argv]; cbn [run_sample].
  - pose proof (echo_main_spec fuel s Hf) as Hw. unfold cwp in Hw.
    destruct (echo_main fuel s); [|done..]. destruct Hw as [Hc Hr]. by split; [|right].
  - exact (sys_main_spec fuel argv s Hf (Ha argv eq_refl)).
Qed.
End safety.
