(* ===== verification/SamplesLink.v ===== *)
(** The sample programs over a working link: what the user types comes back,
    and the server's identification is printed. *)
From stdpp Require Import base numbers list option gmap strings.
From Stdlib Require Import ZArith Lia.
From S2P Require Import Prelude Wire CLib PluginApi ConfigProps Runtime Local LocalProps Client ClientCalls.
From S2P Require Import ClientSafety ClientProps ClientLink Samples SamplesProps.

Local Open Scope Z_scope.
Local Open Scope squid_scope.

(** ** The messages in the input *)

(** One message per call of [fgets] that is not empty. *)
Fixpoint messages_from (turns : nat) (file : list Z) : list (list Z) :=
  match turns, file with
  | S turns, _ :: _ =>
      let '(chunk, rest) := fgets 255 file in
      (if decide (line_message chunk = []) then [] else [line_message chunk])
      ++ messages_from turns rest
  | _, _ => []
  end.
Definition messages (file : list Z) : list (list Z) := messages_from (length file) file.

(** What the program prints for one. *)
Definition echoed (message : list Z) : list Z := text "< " ++ message ++ [10].

Lemma messages_from_enough file : forall turns, (length file <= turns)%nat ->
  messages_from turns file = messages file.
Proof.
  unfold messages. induction file as [file IH] using (induction_ltof1 _ length).
  unfold ltof in IH. intros turns Ht. destruct file as [|c file]; [by destruct turns|].
  destruct turns as [|turns]; cbn [length] in Ht; [lia|]. cbn [messages_from length].
  pose proof (fgets_app 255 (c :: file)) as Ha. pose proof (fgets_progress 254 c file) as Hp.
  destruct (fgets 255 (c :: file)) as [chunk rest]. cbn [fst] in Hp. f_equal.
  assert (Hl : (length rest < S (length file))%nat).
  { apply (f_equal length) in Ha. rewrite length_app in Ha. cbn in Ha. lia. }
  by rewrite (IH rest Hl turns), (IH rest Hl (length file)) by lia.
Qed.

Lemma messages_step c file chunk rest : fgets 255 (c :: file) = (chunk, rest) ->
  messages (c :: file) =
    (if decide (line_message chunk = []) then [] else [line_message chunk]) ++ messages rest.
Proof.
  intros E. unfold messages at 1. cbn [length messages_from]. rewrite E. f_equal.
  apply messages_from_enough.
  pose proof (fgets_app 255 (c :: file)) as Ha. pose proof (fgets_progress 254 c file) as Hp.
  rewrite E in Ha, Hp. apply (f_equal length) in Ha. rewrite length_app in Ha. cbn in *. lia.
Qed.

(** A chunk of text is a message and perhaps a newline. *)
Lemma fgets_chunk n file : let chunk := (fgets n file).1 in
  exists l, (10 ∉ l) /\ (chunk = l \/ chunk = l ++ [10]).
Proof.
  revert file. induction n as [|n IH]; intros [|c file]; cbn.
  1-3: exists []; split; [apply not_elem_of_nil|by left].
  destruct (Z.eqb_spec c 10) as [->|Hc]; [exists []; split; [apply not_elem_of_nil|by right]|].
  destruct (IH file) as (l & Hl & Hcase). destruct (fgets n file) as [chunk rest]. cbn in *.
  exists (c :: l). split; [by apply not_elem_of_cons; split; [congruence|]|].
  destruct Hcase as [->| ->]; auto.
Qed.

Lemma line_message_text l : cstr_ok l -> 10 ∉ l -> line_message l = l /\ line_message (l ++ [10]) = l.
Proof.
  intros Hok Hnl. unfold line_message. split.
  - rewrite before_nul_id by done. destruct l as [|c s _] using rev_ind; [done|].
    rewrite strip_snoc, decide_False; [done|]. intros ->. apply Hnl, elem_of_app. right. by left.
  - rewrite before_nul_id by (apply Forall_app; split; [done|by repeat constructor]).
    by rewrite strip_snoc, decide_True.
Qed.

Lemma filter_no_newline (l : list Z) : 10 ∉ l -> filter (fun c : Z => c <> 10) l = l.
Proof.
  induction l as [|c l IH]; intros Hn; [done|]. apply not_elem_of_cons in Hn as [Hc Hl].
  by rewrite filter_cons_True, IH by congruence.
Qed.

(** Nothing that is typed is lost: the messages are the text without its
    newlines, in pieces of 1 to 255 bytes. *)
Lemma messages_complete file : cstr_ok file ->
  concat (messages file) = filter (fun c => c <> 10) file /\
  Forall (fun m => 1 <= zlen m <= 255 /\ cstr_ok m /\ (10 ∉ m)) (messages file).
Proof.
  induction file as [file IH] using (induction_ltof1 _ length). unfold ltof in IH. intros Hok.
  destruct file as [|c file]; [done|].
  pose proof (fgets_app 255 (c :: file)) as Ha. pose proof (fgets_progress 254 c file) as Hp.
  pose proof (fgets_length 255 (c :: file)) as Hn. pose proof (fgets_chunk 255 (c :: file)) as Hc.
  destruct (fgets 255 (c :: file)) as [chunk rest] eqn:E. cbn [fst] in *.
  rewrite (messages_step c file chunk rest E). rewrite Ha in Hok |- *.
  apply Forall_app in Hok as [Hck Hrk]. destruct (IH rest) as [IH1 IH2]; [|done|].
  { apply (f_equal length) in Ha. rewrite length_app in Ha. cbn in *. lia. }
  rewrite concat_app, filter_app, IH1. destruct Hc as (l & Hl & Hcase).
  assert (Hlk : cstr_ok l) by (destruct Hcase as [->| ->]; [done|by apply Forall_app in Hck as [? _]]).
  destruct (line_message_text l Hlk Hl) as [M1 M2].
  assert (Hm : line_message chunk = l) by (by destruct Hcase as [->| ->]). rewrite Hm.
  assert (Hf : filter (fun c : Z => c <> 10) chunk = l).
  { destruct Hcase as [->| ->]; rewrite ?filter_app; rewrite filter_no_newline by done; [done|].
    by rewrite filter_cons_False, filter_nil, app_nil_r by tauto. }
  rewrite Hf. assert (Hll : (length l <= 255)%nat).
  { destruct Hcase as [->| ->]; [lia|]. rewrite length_app in Hn. lia. }
  case_decide as Hd; [by rewrite Hd|]. split; [cbn; by rewrite app_nil_r|].
  constructor; [|done]. split_and!; try done; unfold zlen; destruct l; cbn in *; lia || done.
Qed.

(** When no line fills the buffer, the messages are the lines that are not
    empty. *)
Lemma messages_lines file : cstr_ok file ->
  Forall (fun l => (length l < 255)%nat) (split_from 10 [] file) ->
  messages file = filter (fun l => l <> []) (split_from 10 [] file).
Proof.
  induction file as [file IH] using (induction_ltof1 _ length). unfold ltof in IH. intros Hok Hsh.
  assert (Hmsg : forall (l : list Z) ms, (if decide (l = []) then [] else [l]) ++ filter (fun l => l <> []) ms =
    filter (fun l => l <> []) (l :: ms)).
  { intros l ms. case_decide; [by rewrite filter_cons_False by tauto|by rewrite filter_cons_True]. }
  destruct (decide (10 ∈ file)) as [Hin|Hin].
  - apply list_elem_of_split_l in Hin as (l & rest & -> & Hl). rewrite split_from_line in * by done.
    cbn [app] in *. apply Forall_cons_1 in Hsh as [Hs1 Hs2].
    apply Forall_app in Hok as [Hlk Hrk]. apply Forall_cons_1 in Hrk as [_ Hrk].
    assert (Efg : fgets 255 (l ++ 10 :: rest) = (l ++ [10], rest)) by (by apply fgets_line).
    assert (exists c tail, l ++ 10 :: rest = c :: tail) as (c & tail & Ec) by (destruct l; eauto).
    rewrite Ec in Efg |- *. rewrite (messages_step c tail _ _ Efg).
    rewrite (proj2 (line_message_text l Hlk Hl)), IH; [apply Hmsg| |done|done].
    rewrite length_app. cbn. lia.
  - destruct file as [|c file]; [done|]. rewrite split_from_last in * by done.
    cbn [app] in *. apply Forall_cons_1 in Hsh as [Hs1 _].
    rewrite (messages_step c file (c :: file) []) by (apply fgets_last; done || lia).
    rewrite (proj1 (line_message_text _ Hok Hin)). apply (Hmsg _ []).
Qed.

(** A message holds no NUL. *)
Lemma line_message_nul chunk : before_nul (line_message chunk) = line_message chunk.
Proof.
  unfold line_message. assert (Hid : forall s, before_nul (before_nul s) = before_nul s).
  { induction s as [|c s IH]; cbn; [done|]. destruct (c =? 0) eqn:E; [done|]. cbn. by rewrite E, IH. }
  assert (Hpre : forall s k, before_nul (s ++ k) = s ++ k -> before_nul s = s).
  { induction s as [|c s IH]; intros k; cbn; [done|]. destruct (c =? 0); [done|].
    intros [= E]. f_equal. by eapply IH. }
  destruct (strip_prefix (before_nul chunk)) as [k E]. eapply Hpre. by rewrite <- E.
Qed.

(** ** A server that can be reached *)

(** While the handshake runs, the link comes up after finitely many bursts,
    with no bytes in flight. *)
Class Handshake {N} `{Squid N} `{SquidClientSide N} (up : N -> Prop) (inbox : N -> list Z)
    (linking : N -> Prop) (steps : N -> nat) : Prop := {
  hand_done : forall n, linking n -> snet_link_is_up n = true -> up n /\ inbox n = [];
  hand_step : forall n, linking n -> snet_link_is_up n = false ->
    let n' := usleep 5000 (snet_burst n) in linking n' /\ (steps n' < steps n)%nat }.

(** The server takes the connection and libsquid opens the socket [sq]; [n']
    is the engine when the handshake starts. *)
Definition reaches {N W} `{Squid N} `{SquidInit N} `{SquidClientSide N} `{LocalSockets W}
    `{Platform N W} (channel sq : Z) (n n' : N) : Prop :=
  exists l1 l2 n4, 0 <= sq /\
    local_transport_connect (Some transport_address) (Some local_transport_default_socket_path)
      (hooks n) = Some (0, l1) /\
    local_transport_activate (Some transport_address) (hooks (set_hooks l1 n)) = Some (tt, l2) /\
    squid_open SQUID_CLIENT_WORKSPACE_SIZE SQUID_CLIENT_WORKSPACE_SIZE
      (snet_init timing (set_hooks l2 (set_hooks l1 n))) = (sq, n4) /\
    n' = (squid_connect sq channel n4).2.

Section link.
Context {N W S : Type} `{Squid N} `{SquidInit N} `{SquidClientSide N} `{LocalSockets W}
  `{Platform N W} (sq : Z) (up : N -> Prop) (inbox : N -> list Z) (linking : N -> Prop)
  (steps : N -> nat) `{HAND : !Handshake up inbox linking steps}.
Local Abbreviation net s := (c_net (pr_client s)).

(** [ends] for processes. *)
Lemma ends_client {A} (m : nat -> CT (client_state N) A) (s : process N) a c :
  ends m (pr_client s) a c ->
  ends (fun fuel => on_client (m fuel)) s a (Process c (pr_stdin s) (pr_stdout s) (pr_stderr s)).
Proof.
  intros [f Hf]. exists f. intros fuel Hle. unfold on_client. by rewrite Hf.
Qed.

Lemma wait_for_link_ends : forall k (s : process N), (steps (net s) <= k)%nat -> linking (net s) ->
  exists n', up n' /\ inbox n' = [] /\
    ends wait_for_link s tt
      (Process (ClientState n' (c_client (pr_client s))) (pr_stdin s) (pr_stdout s) (pr_stderr s)).
Proof.
  induction k as [k IH] using lt_wf_ind. intros s Hk Hl.
  destruct (snet_link_is_up (net s)) eqn:Eup.
  - destruct (hand_done _ Hl Eup) as [Hup Hin]. exists (net s). split_and!; [done..|].
    exists 1%nat. intros [|fuel] Hf; [lia|]. cbn [wait_for_link].
    rewrite (cbind_returns _ _ _ true s) by (unfold on_client, link_is_up; rewrite Eup; by destruct s).
    destruct s as [[n c] i o e]. done.
  - destruct (hand_step _ Hl Eup) as [Hl2 Hs]. cbv zeta in Hl2, Hs.
    set (n2 := usleep 5000 (snet_burst (net s))) in *.
    destruct (IH (steps n2) ltac:(lia) (Process (ClientState n2 (c_client (pr_client s)))
      (pr_stdin s) (pr_stdout s) (pr_stderr s)) ltac:(cbn; lia) Hl2) as (n' & Hup & Hin & He).
    exists n'. split_and!; [done..|]. eapply ends_step; [|exact He]. intros fuel. cbn [wait_for_link].
    rewrite (cbind_returns _ _ _ false s) by (unfold on_client, link_is_up; rewrite Eup; by destruct s).
    done.
Qed.

Lemma connect_server_ends channel (s : process N) n5 c0 :
  reaches channel sq (net s) n5 -> linking n5 -> c_client (pr_client s) = Some c0 ->
  exists n', up n' /\ inbox n' = [] /\
    ends (fun fuel => connect_server fuel channel) s (Some sq)
      (Process (at_mem sq 255 true n' (uninit 256)) (pr_stdin s) (pr_stdout s) (pr_stderr s)).
Proof.
  intros (l1 & l2 & n4 & Hsq & E1 & E2 & E3 & ->) Hl Hc.
  set (s5 := Process (at_mem sq 255 true (squid_connect sq channel n4).2 (uninit 256))
    (pr_stdin s) (pr_stdout s) (pr_stderr s)).
  destruct (wait_for_link_ends (steps (net s5)) s5 ltac:(lia) Hl) as (n' & Hup & Hin & f & He).
  exists n'. split_and!; [done..|]. exists f. intros fuel Hf. unfold connect_server.
  assert (T1 : on_transport (local_transport_connect (Some transport_address)
      (Some local_transport_default_socket_path)) s = Returns 0
      (Process (ClientState (set_hooks l1 (net s)) (Some c0)) (pr_stdin s) (pr_stdout s) (pr_stderr s))).
  { unfold on_transport. rewrite E1. unfold on_engine, on_client, on_link. by rewrite Hc. }
  rewrite (cbind_returns _ _ _ _ _ T1). cbn [Z.eqb negb].
  assert (T2 : on_transport (local_transport_activate (Some transport_address))
      (Process (ClientState (set_hooks l1 (net s)) (Some c0)) (pr_stdin s) (pr_stdout s) (pr_stderr s)) =
      Returns tt (Process (ClientState (set_hooks l2 (set_hooks l1 (net s))) (Some c0))
        (pr_stdin s) (pr_stdout s) (pr_stderr s))).
  { unfold on_transport. cbn [pr_client c_net]. by rewrite E2. }
  rewrite (cbind_returns _ _ _ _ _ T2). erewrite cbind_returns by done.
  cbn [pr_client pr_stdin pr_stdout pr_stderr].
  erewrite cbind_returns by (unfold on_engine, on_client, on_link; cbn [pr_client c_net]; by rewrite E3).
  cbn [pr_client c_client pr_stdin pr_stdout pr_stderr]. destruct (Z.ltb_spec sq 0); [lia|].
  assert (T3 : on_engine (squid_connect sq channel) (Process (ClientState n4 (Some c0))
      (pr_stdin s) (pr_stdout s) (pr_stderr s)) = Returns (squid_connect sq channel n4).1
      (Process (ClientState (squid_connect sq channel n4).2 (Some c0))
        (pr_stdin s) (pr_stdout s) (pr_stderr s))).
  { unfold on_engine, on_client, on_link. cbn [pr_client c_net]. by destruct (squid_connect sq channel n4). }
  rewrite (cbind_returns _ _ _ _ _ T3). erewrite cbind_returns by done.
  cbn [pr_client c_client pr_stdin pr_stdout pr_stderr].
  erewrite cbind_returns by (by apply He). done.
Qed.
End link.

(** ** The echo sample *)

Section echo.
Context {N W S : Type} `{Squid N} `{SquidInit N} `{SquidClientSide N} `{LocalSockets W}
  `{Platform N W} `{!RecvLaw N}
  (socks : N -> gset Z) `{!SquidSockets N socks} `{LAWS : !EngineLaws N W socks}
  (sq : Z) (up : N -> Prop) (inbox : N -> list Z) (peer : N -> S) (waits : N -> nat)
  (response_mem : list Z)
  `{LINK : !LinkLaws true sq up inbox peer waits
             (plugin_reply handle_echo_packet ECHO_CHANNEL response_mem)}
  (linking : N -> Prop) (steps : N -> nat) `{HAND : !Handshake up inbox linking steps}.
Context (response_ok : zlen response_mem = 255).
Local Abbreviation net s := (c_net (pr_client s)).

(** One message goes out and comes back. *)
Lemma echo_call_ends n mem line message : up n -> inbox n = [] -> zlen mem = 256 ->
  zlen line = 256 -> take (length message) line = message -> bytes_ok message ->
  1 <= zlen message <= 255 ->
  exists n' mem', up n' /\ inbox n' = [] /\ zlen mem' = 256 /\
    take (length message) mem' = message /\
    ends (fun fuel => squid_client_echo fuel (Some line) (zlen message) true)
      (at_mem sq 255 true n mem) (0, Some (ClientBytes 0 (zlen message))) (at_mem sq 255 true n' mem').
Proof.
  intros Hup Hin Hm Hl Ht Hb Hs.
  assert (Hn : Z.to_nat (zlen message) = length message) by (unfold zlen; lia).
  destruct (client_echo_roundtrip sq true up inbox peer waits ECHO_CHANNEL response_mem
    255 line (zlen message) n mem) as (f & n' & mem' & He & Htake & Hup' & Hin' & Hm');
    rewrite ?Hn, ?Ht in *; try done; try lia.
  exists n', mem'. split_and!; try done; [lia|]. by exists f.
Qed.

Lemma reply_text_eq (n : N) mem r i o e : 0 <= r <= 256 -> zlen mem = 256 ->
  bytes_ok (take (Z.to_nat r) mem) ->
  reply_text (ClientBytes 0 r) (Process (at_mem sq 255 true n mem) i o e) =
    Returns (before_nul (take (Z.to_nat r) mem)) (Process (at_mem sq 255 true n mem) i o e).
Proof.
  intros Hr Hm Hb. unfold reply_text. erewrite cbind_returns by done. cbn [ref_data ref_size].
  rewrite (print_precision_eq mem (Z.to_nat r) 0); [|lia|done|lia]. done.
Qed.

Lemma echo_loop_ends : forall turns line n mem i o e,
  (length i < turns)%nat -> bytes_ok i -> zlen line = 256 -> zlen mem = 256 ->
  up n -> inbox n = [] ->
  exists n' mem',
    ends (fun fuel => echo_loop fuel turns line) (Process (at_mem sq 255 true n mem) i o e) tt
      (Process (at_mem sq 255 true n' mem') [] (o ++ concat (map echoed (messages i))) e).
Proof.
  induction turns as [|turns IH]; intros line n mem i o e Ht Hb Hl Hm Hup Hin; [lia|].
  set (s := Process (at_mem sq 255 true n mem) i o e).
  destruct i as [|c i].
  { exists n, mem. apply ends_now. intros fuel. cbn. by rewrite app_nil_r. }
  destruct (read_line_eq line s Hl Hb ltac:(done)) as (chunk & rest & Efg & Hcb & Hrb & Hlt & Hcl & E).
  cbn [pr_client pr_stdin pr_stdout pr_stderr s] in Efg, Hlt, E.
  rewrite (messages_step c i chunk rest Efg).
  destruct (strip_newline_eq chunk (drop (Datatypes.S (length chunk)) line) Hcb)
    as (line2 & E2 & Hl2 & Ht2).
  assert (Hl2' : zlen line2 = 256).
  { unfold zlen in *. rewrite Hl2, length_app. cbn. rewrite length_drop. lia. }
  pose proof (line_message_bytes chunk Hcb) as Hmb. pose proof (line_message_length chunk) as Hml.
  assert (Hstart : forall fuel, echo_loop fuel (Datatypes.S turns) line s =
    (if zlen (line_message chunk) =? 0 then echo_loop fuel turns line2
     else
       let^ '(result, reply) :=
         on_client (squid_client_echo fuel (Some line2) (u8 (zlen (line_message chunk))) true) in
       if negb (result =? 0) then print_error send_failed
       else
         let^ reply := access reply in
         let^ message := reply_text reply in
         do^ print_out (text "< " ++ message ++ [10]);
         echo_loop fuel turns line2) (Process (at_mem sq 255 true n mem) rest o e)).
  { intros fuel. cbn [echo_loop]. rewrite (cbind_returns _ _ _ _ _ E).
    erewrite cbind_returns by (unfold access; by rewrite E2). done. }
  cbn [length] in Hlt, Ht. destruct (Z.eqb_spec (zlen (line_message chunk)) 0) as [Hz|Hz].
  - apply zlen_nil_inv in Hz. rewrite Hz, decide_True by done. cbn [app].
    destruct (IH line2 n mem rest o e) as (n' & mem' & f & He); try done; [lia|].
    exists n', mem', f. intros fuel Hf. rewrite Hstart. by apply He.
  - rewrite decide_False by (intros E0; by rewrite E0 in Hz).
    pose proof (zlen_nonneg (line_message chunk)).
    destruct (echo_call_ends n mem line2 (line_message chunk)) as (n1 & mem1 & Hup1 & Hin1 & Hm1 & Htk1 & He1);
      try done; [unfold zlen in *; lia|].
    destruct (IH line2 n1 mem1 rest (o ++ echoed (line_message chunk)) e) as (n' & mem' & He2); try done; [lia|].
    exists n', mem'. cbn [app map concat]. rewrite app_assoc.
    destruct (ends_client (fun fuel => squid_client_echo fuel (Some line2) (zlen (line_message chunk)) true)
      (Process (at_mem sq 255 true n mem) rest o e) _ _ He1) as [f1 Hf1].
    destruct He2 as [f2 Hf2]. exists (Nat.max f1 f2). intros fuel Hf. rewrite Hstart.
    rewrite u8_small by (unfold zlen in *; lia). erewrite cbind_returns by (apply Hf1; lia).
    cbn [Z.eqb negb]. erewrite cbind_returns by done.
    assert (Hn : Z.to_nat (zlen (line_message chunk)) = length (line_message chunk)) by (unfold zlen; lia).
    erewrite cbind_returns by (apply reply_text_eq; [unfold zlen; lia|done|by rewrite Hn, Htk1]).
    rewrite Hn, Htk1. erewrite cbind_returns by done.
    cbn [pr_client pr_stdin pr_stdout pr_stderr].
    rewrite line_message_nul. apply Hf2. lia.
Qed.

(** C17. The echo sample, end to end: when the server can be reached and its port
    runs the echo plugin, the program ends with code 0 and has printed, after
    its banner, one line "< message" for every message the user typed, in order;
    the messages are the whole text without its newlines, in pieces of at most
    255 bytes, and exactly the lines that are not empty when no line fills the
    buffer.  Nothing is written to the error stream, and the connection and the
    socket are given back. *)
Theorem echo_sample_echoes (s : process N) n5 :
  fresh s -> cstr_ok (pr_stdin s) -> reaches ECHO_CHANNEL sq (net s) n5 -> linking n5 ->
  exists s' ms,
    (exists fuel0, forall fuel, (fuel0 <= fuel)%nat -> echo_main fuel s = Returns 0 s') /\
    pr_stdout s' = pr_stdout s ++ echo_banner ++ concat (map echoed ms) /\
    pr_stdin s' = [] /\ pr_stderr s' = pr_stderr s /\
    concat ms = filter (fun c => c <> 10) (pr_stdin s) /\
    Forall (fun m => 1 <= zlen m <= 255) ms /\
    (Forall (fun l => (length l < 255)%nat) (split_from 10 [] (pr_stdin s)) ->
       ms = filter (fun l => l <> []) (split_from 10 [] (pr_stdin s))) /\
    released socks s s'.
Proof.
  intros Hf Hok Hreach Hl. pose proof Hf as (_ & [c0 Hc] & Hb).
  destruct (connect_server_ends sq up inbox linking steps ECHO_CHANNEL s n5 c0 Hreach Hl Hc)
    as (n1 & Hup & Hin & f1 & He1).
  set (s2 := Process (at_mem sq 255 true n1 (uninit 256)) (pr_stdin s)
    (pr_stdout s ++ echo_banner) (pr_stderr s)).
  destruct (echo_loop_ends (Datatypes.S (length (pr_stdin s))) (uninit 256) n1 (uninit 256)
    (pr_stdin s) (pr_stdout s ++ echo_banner) (pr_stderr s))
    as (n3 & mem3 & f3 & He3); try done; [lia|].
  set (s3 := Process (at_mem sq 255 true n3 mem3) _ _ _) in He3.
  (* the session, as for any server *)
  assert (Hses : exists fd base, in_session socks s fd sq base s3).
  { pose proof (connect_server_spec socks f1 ECHO_CHANNEL s Hf) as Hw. unfold cwp in Hw.
    rewrite (He1 f1 (le_n _)) in Hw. destruct Hw as (_ & _ & fd & base & Hs1). exists fd, base.
    pose proof (echo_loop_spec socks s fd sq base f3 (Datatypes.S (length (pr_stdin s)))
      (uninit 256) s2) as Hw. unfold cwp, s2 in Hw. rewrite (He3 f3 (le_n _)) in Hw.
    apply Hw; try done; [by apply (session_out socks s fd sq base _ _ _ _ Hs1)|cbn; lia]. }
  destruct Hses as (fd & base & Hs3).
  destruct (disconnect_returns socks s fd sq base 0 s3 Hs3) as (s4 & E4 & Hrel & E5 & E6 & E7).
  destruct (messages_complete (pr_stdin s) Hok) as [Hcat Hall].
  exists s4, (messages (pr_stdin s)). split_and!; try done.
  - exists (Nat.max f1 f3). intros fuel Hfuel. unfold echo_main.
    erewrite cbind_returns by (apply He1; lia). cbv beta iota. erewrite cbind_returns by done.
    cbn [pr_client pr_stdin pr_stdout pr_stderr].
    erewrite cbind_returns by (apply He3; lia). done.
  - rewrite E6. cbn. by rewrite <- app_assoc.
  - eapply Forall_impl; [exact Hall|]. by intros m [? _].
  - by apply messages_lines.
Qed.
End echo.

(** ** The system sample *)

(** What the server says about itself. *)
Definition system_text (host : host_info) (sysname release : list Z) : list Z :=
  default (text "unknown") (host_name host) ++ [10] ++ sysname ++ [32] ++ release.

(** The packet: a text that does not fit is cut, and its NUL is sent too. *)
Definition system_packet (t : list Z) : list Z :=
  if zlen t <? 255 then t else take 254 t ++ [0].

Lemma system_reply {S} host sysname release mem (s : S) :
  host_uname host = Some (sysname, release) -> zlen mem = 255 ->
  plugin_reply (handle_squidsys_packet host) SYS_CHANNEL mem (text "id") s =
    (Some (system_packet (system_text host sysname release)), s).
Proof.
  intros Hu Hm. unfold plugin_reply, handle_squidsys_packet.
  cbn [view_data view_size packet_data packet_capacity packet_mem].
  change (zlen (text "id")) with 2. unfold response_address, server_packet_max, SYS_CHANNEL.
  change (1 + 2 =? 0) with false. change (255 =? 0) with false. cbn [orb]. unfold bind.
  change (2 =? 2) with true. cbv iota. unfold lift at 1.
  change (rd_bytes (text "id") 0 2) with (Some (text "id")). unfold ret at 1.
  change (eq_text (text "id") (text "id")) with true. cbv iota. rewrite Hu.
  replace (match host_name host with Some h => h | None => text "unknown" end)
    with (default (text "unknown") (host_name host)) by (by destruct (host_name host)).
  fold (system_text host sysname release). set (t := system_text host sysname release).
  unfold snprintf_into, snprintf, lift. cbn [fst snd].
  assert (Ht : zlen (take (Z.to_nat (255 - 1)) t) <= 254) by (rewrite zlen_take; lia).
  rewrite wr_bytes_at by (done || rewrite zlen_app; change (zlen [0]) with 1; lia).
  change (Z.to_nat 0) with 0%nat. rewrite take_0, drop_0. cbn [app ret packet_size packet_mem].
  change (Z.to_nat (255 - 1)) with 254%nat. unfold system_packet.
  assert (Hpos : 0 < zlen t).
  { unfold t, system_text. rewrite !zlen_app. change (zlen [10]) with 1. change (zlen [32]) with 1.
    zlen_nonnegs. lia. }
  destruct (Z.ltb_spec (zlen t) 255) as [Hlt|Hge].
  - destruct (Z.ltb_spec 0 (zlen t)); [|lia]. cbn [Z.eqb andb].
    rewrite (take_ge t 254) by (unfold zlen in Hlt; lia). rewrite <- app_assoc.
    unfold zlen. by rewrite Nat2Z.id, take_app_length.
  - cbn [Z.eqb andb Z.ltb Z.compare]. rewrite (take_app_length' (take 254 t ++ [0])); [done|].
    rewrite length_app, length_take. unfold zlen in Hge. change (Z.to_nat 255) with 255%nat.
    change (length [0]) with 1%nat. lia.
Qed.

Lemma system_packet_text t : cstr_ok t -> before_nul (system_packet t) = take 254 t.
Proof.
  intros Hok. unfold system_packet. destruct (Z.ltb_spec (zlen t) 255).
  - rewrite before_nul_id by done. by rewrite take_ge by (unfold zlen in *; lia).
  - assert (Hk : cstr_ok (take 254 t)) by by apply Forall_take. revert Hk. generalize (take 254 t). clear.
    induction 1 as [|c s Hc _ IH]; cbn; [done|]. destruct (Z.eqb_spec c 0); [lia|by rewrite IH].
Qed.

Lemma system_packet_bytes t : cstr_ok t -> bytes_ok (system_packet t).
Proof.
  intros Hok. apply cstr_bytes in Hok. unfold system_packet. destruct (_ <? _); [done|].
  apply bytes_ok_app. split; [by apply bytes_ok_take|by repeat constructor].
Qed.

Lemma system_packet_size t : 0 < zlen t -> 1 <= zlen (system_packet t) <= 255.
Proof.
  intros Ht. unfold system_packet. destruct (Z.ltb_spec (zlen t) 255); [lia|].
  rewrite zlen_app, zlen_take. change (zlen [0]) with 1. lia.
Qed.

Section sys.
Context {N W S : Type} `{Squid N} `{SquidInit N} `{SquidClientSide N} `{LocalSockets W}
  `{Platform N W} `{!RecvLaw N}
  (socks : N -> gset Z) `{!SquidSockets N socks} `{LAWS : !EngineLaws N W socks}
  (sq : Z) (up : N -> Prop) (inbox : N -> list Z) (peer : N -> S) (waits : N -> nat)
  (response_mem : list Z) (host : host_info)
  `{LINK : !LinkLaws true sq up inbox peer waits
             (plugin_reply (handle_squidsys_packet host) SYS_CHANNEL response_mem)}
  (linking : N -> Prop) (steps : N -> nat) `{HAND : !Handshake up inbox linking steps}.
Context (response_ok : zlen response_mem = 255).
Local Abbreviation net s := (c_net (pr_client s)).

Lemma system_id_ends sysname release n mem : host_uname host = Some (sysname, release) ->
  cstr_ok (system_text host sysname release) -> up n -> inbox n = [] -> zlen mem = 256 ->
  let t := system_packet (system_text host sysname release) in
  exists n' mem', zlen mem' = 256 /\ take (length t) mem' = t /\
    ends (fun fuel => squid_client_system_id fuel true) (at_mem sq 255 true n mem)
      (0, Some (ClientBytes 0 (zlen t))) (at_mem sq 255 true n' mem').
Proof.
  intros Hu Hok Hup Hin Hm t. split_cells mem 3%nat.
  assert (Ht : 1 <= zlen t <= 255).
  { apply system_packet_size. unfold system_text. rewrite !zlen_app. change (zlen [10]) with 1.
    change (zlen [32]) with 1. zlen_nonnegs. lia. }
  destruct (exchange_ends sq 255 true up inbox peer waits _ c (text "id") mem n t (peer n))
    as (n' & mem' & [f He] & Hm' & _ & _ & _ & Htake);
    [done|done|closed|change (zlen (text "id")) with 2; lia|lia| |by apply system_reply|done|].
  { change (text "id") with [105; 100]. zlen_lia. }
  exists n', mem'. split_and!; [rewrite Hm'; change (text "id") with [105; 100]; zlen_lia|apply Htake; lia|].
  exists f. intros fuel Hf. unfold squid_client_system_id.
  rewrite (cbind_returns _ _ _ (Some 255) (at_mem sq 255 true n (c :: c0 :: c1 :: mem))) by done.
  change (negb true || (255 <? 2)) with false. cbv iota.
  rewrite (cbind_returns _ _ _ tt (at_mem sq 255 true n (c :: 105 :: c1 :: mem))) by done.
  rewrite (cbind_returns _ _ _ tt (at_mem sq 255 true n (c :: text "id" ++ mem))) by done.
  change 2 with (zlen (text "id")) at 1. erewrite cbind_returns by (by apply He).
  unfold exchange_code. destruct (Z.ltb_spec 255 (zlen t)); [lia|].
  destruct (Z.ltb_spec (zlen t) 0); [lia|]. by rewrite u8_small by lia.
Qed.

(** The system sample, end to end: when the server can be reached and its port
    runs the squidsys plugin, "id" ends with code 0 and has printed the host
    name, system and release of the server, of which the first 254 bytes fit a
    packet, and given everything back. *)
Theorem sys_sample_prints program sysname release (s : process N) n5 :
  fresh s -> host_uname host = Some (sysname, release) ->
  cstr_ok (system_text host sysname release) ->
  reaches SYS_CHANNEL sq (net s) n5 -> linking n5 ->
  exists s',
    (exists fuel0, forall fuel, (fuel0 <= fuel)%nat ->
       sys_main fuel [program; text "id"] s = Returns 0 s') /\
    pr_stdout s' = pr_stdout s ++ take 254 (system_text host sysname release) ++ [10] /\
    pr_stderr s' = pr_stderr s /\ released socks s s'.
Proof.
  intros Hf Hu Hok Hreach Hl. pose proof Hf as (_ & [c0 Hc] & Hb).
  destruct (connect_server_ends sq up inbox linking steps SYS_CHANNEL s n5 c0 Hreach Hl Hc)
    as (n1 & Hup & Hin & f1 & He1).
  destruct (system_id_ends sysname release n1 (uninit 256) Hu Hok Hup Hin eq_refl)
    as (n2 & mem2 & Hm2 & Htk2 & He2).
  set (t := system_packet (system_text host sysname release)) in *.
  set (s1 := Process (at_mem sq 255 true n1 (uninit 256)) (pr_stdin s) (pr_stdout s) (pr_stderr s)) in *.
  destruct (ends_client (fun fuel => squid_client_system_id fuel true) s1 _ _ He2) as [f2 He2'].
  set (s2 := Process (at_mem sq 255 true n2 mem2) _ _ _) in He2'.
  set (s3 := Process (at_mem sq 255 true n2 mem2) (pr_stdin s)
    (pr_stdout s ++ take 254 (system_text host sysname release) ++ [10]) (pr_stderr s)).
  assert (Hses : exists fd base, in_session socks s fd sq base s3).
  { pose proof (connect_server_spec socks f1 SYS_CHANNEL s Hf) as Hw. unfold cwp in Hw.
    rewrite (He1 f1 (le_n _)) in Hw. destruct Hw as (_ & _ & fd & base & Hs1). exists fd, base.
    pose proof (session_call socks s fd sq base (squid_client_system_id f2 true) s1 Hs1
      (online_keeps_system_id socks _ fd sq base f2)
      (fun n' mem Hm => system_id_replied sq f2 n' mem Hm)) as Hw. unfold cwp in Hw.
    rewrite (He2' f2 (le_n _)) in Hw. destruct Hw as [Hs2 _].
    by apply (session_out socks s fd sq base _ _ _ _ Hs2). }
  destruct Hses as (fd & base & Hs3).
  destruct (disconnect_returns socks s fd sq base 0 s3 Hs3) as (s4 & E4 & Hrel & E5 & E6 & E7).
  exists s4. split_and!; [|by rewrite E6|by rewrite E7|done].
  exists (Nat.max f1 f2). intros fuel Hfuel. cbn [sys_main].
  change (zlen (text "id") =? 0) with false.
  change (SQUID_CLIENT_PACKET_MAX <? zlen (text "id")) with false. cbv iota.
  erewrite cbind_returns by (apply He1; lia). cbv beta iota.
  change (eq_text (text "id") (text "id")) with true. cbv iota.
  erewrite cbind_returns by (apply He2'; lia). cbn [Z.eqb negb].
  erewrite cbind_returns by done. cbn [ref_size].
  assert (Ht : 1 <= zlen t <= 255).
  { apply system_packet_size. unfold system_text. rewrite !zlen_app. change (zlen [10]) with 1.
    change (zlen [32]) with 1. zlen_nonnegs. lia. }
  destruct (Z.ltb_spec 0 (zlen t)); [|lia].
  assert (Hn : Z.to_nat (zlen t) = length t) by (unfold zlen; lia).
  erewrite cbind_returns by (apply reply_text_eq; [lia|done|rewrite Hn, Htk2; by apply system_packet_bytes]).
  rewrite Hn, Htk2. unfold t. rewrite system_packet_text by done.
  by erewrite cbind_returns by done.
Qed.
End sys.
