(* ===== verification/Spectrum.v ===== *)
(** The ZX Spectrum Interface 1 glue of the client library
    (lib/client/z80/spectrum_if1.c): it fills libsquid's platform table with the
    Interface 1 routines, starts the engine and opens a client.  The routines
    themselves are Z80 assembly and only named here. *)
From stdpp Require Import base numbers list option gmap strings.
From Stdlib Require Import ZArith Lia.
From S2P Require Import Prelude Runtime Samples Client ClientCalls ClientSafety.

Local Open Scope Z_scope.
Local Open Scope squid_scope.

(** ** squid_platform_t *)

(** The functions the table can point to. *)
Inductive platform_fn :=
| squid_client_spectrum_if1_send_char
| squid_client_spectrum_if1_recv_char
| squid_client_spectrum_if1_get_tick
| malloc
| free.

Record squid_platform := SquidPlatform {
  send_char : option platform_fn;
  recv_char : option platform_fn;
  get_tick : option platform_fn;
  mem_alloc : option platform_fn;
  mem_free : option platform_fn }.

(** The reset routine and the engine's start, with the table it is given. *)
Class SpectrumHost (N : Type) := {
  squid_client_spectrum_if1_reset : N -> N;
  snet_init_platform : squid_platform -> squid_timing -> N -> N;
  SQUID_PAYLOAD_DEFAULT : Z }.

(** The engine and the client object, and the file-scope
    [spectrum_if1_platform] and [spectrum_if1_timing]. *)
Record if1_state (N : Type) := If1State {
  if1_client : client_state N;
  spectrum_if1_platform : squid_platform;
  spectrum_if1_timing : squid_timing }.
Arguments If1State {N} _ _ _.
Arguments if1_client {N} _.
Arguments spectrum_if1_platform {N} _.
Arguments spectrum_if1_timing {N} _.

(** [None] is a null pointer. *)
Definition squid_client_spectrum_if1_platform (platform : option squid_platform)
    : option squid_platform :=
  match platform with
  | None => None
  | Some _ =>
      Some (SquidPlatform (Some squid_client_spectrum_if1_send_char)
              (Some squid_client_spectrum_if1_recv_char) (Some squid_client_spectrum_if1_get_tick)
              (Some malloc) (Some free))
  end.

Section if1.
Context {N : Type} `{Squid N} `{SquidClientSide N} `{SpectrumHost N}.
Local Abbreviation P := (CT (if1_state N)).

Definition if1_on_client {A} (m : CT (client_state N) A) : P A := fun s =>
  match m (if1_client s) with
  | Returns a c => Returns a (If1State c (spectrum_if1_platform s) (spectrum_if1_timing s))
  | Waiting => Waiting
  | Undefined => Undefined
  end.
Definition if1_on_engine {A} (f : N -> A * N) : P A := if1_on_client (on_link f).
Definition set_platform : P unit := fun s =>
  match squid_client_spectrum_if1_platform (Some (spectrum_if1_platform s)) with
  | Some platform => Returns tt (If1State (if1_client s) platform (spectrum_if1_timing s))
  | None => Undefined
  end.
Definition set_timing (t : squid_timing) : P unit := fun s =>
  Returns tt (If1State (if1_client s) (spectrum_if1_platform s) t).

Definition squid_client_spectrum_if1_open (channel : Z) (workspace : option (list Z))
    (packet_capacity : Z) : P Z :=
  let^ client := if1_on_client the_client in
  match client, workspace with
  | Some _, Some _ =>
      if (channel =? 0) || (15 <? channel) || (packet_capacity =? 0)
         || (SQUID_CLIENT_PACKET_MAX <? packet_capacity)
      then cret SQUID_CLIENT_ERROR_ARGUMENT
      else
        let queue_capacity := u16 (packet_capacity + 1) in
        do^ set_platform;
        do^ set_timing (SquidTiming 6 0 0 3 SQUID_PAYLOAD_DEFAULT);
        do^ if1_on_engine (fun n => (tt, squid_client_spectrum_if1_reset n));
        do^ (fun s => if1_on_engine (fun n =>
               (tt, snet_init_platform (spectrum_if1_platform s) (spectrum_if1_timing s) n)) s);
        let^ socket_fd := if1_on_engine (squid_open queue_capacity queue_capacity) in
        if socket_fd <? 0 then cret SQUID_CLIENT_ERROR_IO
        else
          let^ connected := if1_on_engine (squid_connect socket_fd channel) in
          if negb (connected =? 0) then
            do^ if1_on_engine (fun n => (tt, squid_close socket_fd n));
            cret SQUID_CLIENT_ERROR_IO
          else
            do^ if1_on_client (squid_client_init socket_fd workspace packet_capacity false);
            cret 0
  | _, _ => cret SQUID_CLIENT_ERROR_ARGUMENT
  end.

(** ** What it promises *)

Definition if1_table : squid_platform :=
  SquidPlatform (Some squid_client_spectrum_if1_send_char)
    (Some squid_client_spectrum_if1_recv_char) (Some squid_client_spectrum_if1_get_tick)
    (Some malloc) (Some free).
Definition if1_timing : squid_timing := SquidTiming 6 0 0 3 SQUID_PAYLOAD_DEFAULT.

(** The arguments the header allows. *)
Definition if1_arguments (c : option squid_client) (channel : Z) (workspace : option (list Z))
    (capacity : Z) : bool :=
  bool_decide (c <> None) && bool_decide (workspace <> None) && (1 <=? channel) && (channel <=? 15)
  && (1 <=? capacity) && (capacity <=? 255).

(** The engine after the start. *)
Definition if1_started (n : N) : N :=
  snet_init_platform if1_table if1_timing (squid_client_spectrum_if1_reset n).

Lemma if1_open_eq channel workspace capacity n c pf tm :
  0 <= channel < 256 -> 0 <= capacity < 65536 ->
  squid_client_spectrum_if1_open channel workspace capacity (If1State (ClientState n c) pf tm) =
    if if1_arguments c channel workspace capacity then
      let '(fd, n1) := squid_open (capacity + 1) (capacity + 1) (if1_started n) in
      if fd <? 0 then
        Returns SQUID_CLIENT_ERROR_IO (If1State (ClientState n1 c) if1_table if1_timing)
      else
        let '(r, n2) := squid_connect fd channel n1 in
        if negb (r =? 0) then
          Returns SQUID_CLIENT_ERROR_IO
            (If1State (ClientState (squid_close fd n2) c) if1_table if1_timing)
        else
          Returns 0 (If1State (ClientState n2 (Some (SquidClient fd workspace capacity false)))
                       if1_table if1_timing)
    else Returns SQUID_CLIENT_ERROR_ARGUMENT (If1State (ClientState n c) pf tm).
Proof.
  intros Hch Hcap. unfold squid_client_spectrum_if1_open, if1_arguments.
  destruct c as [c|]; [|done]. destruct workspace as [w|]; [|done].
  unfold SQUID_CLIENT_PACKET_MAX. rewrite (bool_decide_true (Some c <> None)), (bool_decide_true (Some w <> None)) by done.
  assert (E : (1 <=? channel) && (channel <=? 15) && (1 <=? capacity) && (capacity <=? 255) =
    negb ((channel =? 0) || (15 <? channel) || (capacity =? 0) || (255 <? capacity))) by lia.
  cbn [andb]. rewrite E. unfold cbind at 1. cbn [if1_on_client the_client if1_client c_client].
  destruct ((channel =? 0) || _ || _ || _) eqn:Eb; cbn [negb]; [done|].
  rewrite u16_small by lia. unfold cbind, if1_on_engine, if1_on_client, on_link. cbn.
  fold if1_timing if1_table (if1_started n).
  destruct (squid_open (capacity + 1) (capacity + 1) (if1_started n)) as [fd n1].
  destruct (fd <? 0); [done|]. cbn. destruct (squid_connect fd channel n1) as [r n2].
  by destruct (r =? 0).
Qed.

(** Opening a client on the Spectrum: wrong arguments are reported and change
    nothing; otherwise the engine is reset and started with the Interface 1
    table, and either the call fails with an I/O error, no socket is left open
    and the client is as it was, or it returns 0 with exactly one new socket,
    whose queues hold a whole framed packet, and a client without idle callback
    on which every typed call is safe. *)
Theorem spectrum_open_exact (socks : N -> gset Z) `{!SquidSockets N socks} channel workspace capacity n c pf tm :
  (forall fd ch (n : N), socks (squid_connect fd ch n).2 = socks n) ->
  0 <= channel < 256 -> 0 <= capacity < 65536 ->
  exists code s',
    squid_client_spectrum_if1_open channel workspace capacity (If1State (ClientState n c) pf tm) =
      Returns code s' /\
    if if1_arguments c channel workspace capacity then
      spectrum_if1_platform s' = if1_table /\ spectrum_if1_timing s' = if1_timing /\
      (code = SQUID_CLIENT_ERROR_IO /\ c_client (if1_client s') = c /\
         socks (c_net (if1_client s')) = socks (if1_started n) \/
       code = 0 /\ exists fd, (fd ∉ socks (if1_started n)) /\
         socks (c_net (if1_client s')) = ({[ fd ]} ∪ socks (if1_started n)) /\
         (exists n1, squid_open (capacity + 1) (capacity + 1) (if1_started n) = (fd, n1)) /\
         c_client (if1_client s') = Some (SquidClient fd workspace capacity false) /\
         (forall mem, workspace = Some mem -> capacity + 1 <= zlen mem ->
            usable fd capacity false (zlen mem) (if1_client s')))
    else
      code = SQUID_CLIENT_ERROR_ARGUMENT /\ s' = If1State (ClientState n c) pf tm.
Proof.
  intros Hconn Hch Hcap. rewrite if1_open_eq by done.
  destruct (if1_arguments c channel workspace capacity); [|by eexists _, _].
  pose proof (socket_open (capacity + 1) (capacity + 1) (if1_started n)) as Ho.
  destruct (squid_open (capacity + 1) (capacity + 1) (if1_started n)) as [fd n1] eqn:Eo.
  destruct (fd <? 0).
  { eexists _, _. split; [done|]. cbn. split_and!; [done..|]. by left. }
  destruct Ho as [Hfresh Hsocks]. specialize (Hconn fd channel n1).
  destruct (squid_connect fd channel n1) as [r n2]. cbn in Hconn. destruct (r =? 0); cbn [negb].
  - eexists _, _. split; [done|]. cbn. split_and!; [done..|]. right. split; [done|].
    exists fd. split_and!; [done|congruence|by eexists|done|].
    intros mem -> _. by exists n2, mem.
  - eexists _, _. split; [done|]. cbn. split_and!; [done..|]. left. split_and!; [done..|].
    rewrite socket_close, Hconn, Hsocks. by apply remove_fresh.
Qed.
End if1.
