(* ===== verification/ClientWitness.v ===== *)
(** A client and a server on one machine: a concrete link, on which the
    client theorems are applied. *)
From stdpp Require Import base numbers list option strings.
From Stdlib Require Import ZArith Lia.
From S2P Require Import Prelude Wire CLib Time PluginApi Posix Filesystem FsSafety FsList.
From S2P Require Import TcpProxy Runtime RuntimeProps Client ClientCalls ClientSafety ClientProps ClientLink ClientList.

Local Open Scope Z_scope.
Local Open Scope squid_scope.

(** A pipe to a server in state [p_server]: every other receive finds
    nothing, and bytes arrive at most three at a time. *)
Record pipe (S : Type) := Pipe { p_inbox : list Z; p_server : S; p_waits : nat }.
Arguments Pipe {S} _ _ _.
Arguments p_inbox {S} _.
Arguments p_server {S} _.
Arguments p_waits {S} _.

Section pipe.
Context {S : Type} (reply : list Z -> S -> option (list Z) * S).

Definition pipe_recv (max : Z) (n : pipe S) : Z * list Z * pipe S :=
  match p_waits n with
  | Datatypes.S w => (0, [], Pipe (p_inbox n) (p_server n) w)
  | O =>
      let k := Nat.min (Z.to_nat max) (Nat.min 3 (length (p_inbox n))) in
      (Z.of_nat k, take k (p_inbox n), Pipe (drop k (p_inbox n)) (p_server n) 1)
  end.
Definition pipe_send (data : list Z) (n : pipe S) : Z * pipe S :=
  match data with
  | [] => (-1, n)
  | _ :: request =>
      let '(response, s) := reply request (p_server n) in
      (zlen data,
       Pipe (p_inbox n ++ match response with Some resp => zlen resp :: resp | None => [] end) s
         (p_waits n))
  end.

Definition pipe_squid : Squid (pipe S) := {|
  squid_open _ _ n := (0, n);
  squid_bind _ _ n := (0, n);
  squid_close _ n := n;
  squid_send _ data n := pipe_send data n;
  squid_recv _ max n := pipe_recv max n;
  snet_burst n := n;
  snet_link_is_up _ := true;
  transport_wait n := (0, n) |}.
#[local] Existing Instance pipe_squid.
#[local] Instance pipe_host : ClientHost (pipe S) := {
  snet_link_epoch _ := 1;
  idle_callback n := (0, n) }.

Definition pipe_up (n : pipe S) : Prop := True.

#[local] Instance pipe_laws idle fd : LinkLaws idle fd pipe_up p_inbox p_server p_waits reply.
Proof.
  split.
  - done.
  - intros n max Hup Hmax. cbn [squid_recv pipe_squid]. unfold pipe_recv.
    destruct (p_waits n) as [|w] eqn:Ew.
    + set (k := Nat.min _ _). cbn [p_inbox p_server p_waits]. split_and!; try done.
      * lia.
      * lia.
      * rewrite zlen_take. unfold zlen. lia.
      * by rewrite take_drop.
      * intros Hne Hk. exfalso. assert (Hl : (0 < length (p_inbox n))%nat) by (by destruct (p_inbox n); [|cbn; lia]).
        unfold k in Hk. lia.
    + cbn. split_and!; try done; destruct idle; cbn; lia.
  - intros n Hup. by cbn.
  - intros n request Hup Hin Hreq Hr. cbn [squid_send pipe_squid]. unfold pipe_send.
    destruct (reply request (p_server n)) as [[resp|] s'] eqn:E; cbn [p_inbox p_server];
      rewrite Hin; cbn [app]; (split; [zlen_lia|done]).
Qed.
End pipe.

(** ** The echo service *)

Definition echo_peer : list Z -> unit -> option (list Z) * unit :=
  plugin_reply handle_echo_packet 1 (replicate 255 0).

#[local] Instance echo_pipe : Squid (pipe unit) := pipe_squid echo_peer.
#[local] Instance echo_pipe_host : ClientHost (pipe unit) := pipe_host.
#[local] Instance echo_link idle fd : LinkLaws idle fd pipe_up p_inbox p_server p_waits echo_peer :=
  pipe_laws echo_peer idle fd.

Definition quiet {S} (s : S) : pipe S := Pipe [] s 2.

Lemma client_echo_roundtrip_witness :
  exists fuel0 n' mem',
    (forall fuel, (fuel0 <= fuel)%nat ->
      squid_client_echo fuel (Some [104; 105; 33; 10]) 3 true (at_mem 0 32 true (quiet tt) (replicate 33 0)) =
        Returns (0, Some (ClientBytes 0 3)) (at_mem 0 32 true n' mem')) /\
    take (Z.to_nat 3) mem' = take (Z.to_nat 3) [104; 105; 33; 10] /\ pipe_up n' /\ p_inbox n' = [] /\
    zlen mem' = zlen (replicate 33 0).
Proof.
  apply (client_echo_roundtrip 0 true pipe_up p_inbox p_server p_waits 1 (replicate 255 0)
    32 [104; 105; 33; 10] 3 (quiet tt) (replicate 33 0)); closed.
Defined.

(** A workspace of eight bytes: a reply of three bytes fits. *)
Lemma client_exchange_in_step_witness :
  exists fuel0 n' mem',
    (forall fuel, (fuel0 <= fuel)%nat ->
      squid_client_exchange fuel (zlen [7; 8; 9]) (at_mem 0 8 false (quiet tt) (0 :: [7; 8; 9] ++ replicate 5 0)) =
        Returns (if 8 <? zlen [7; 8; 9] then SQUID_CLIENT_ERROR_OVERFLOW else zlen [7; 8; 9])
          (at_mem 0 8 false n' mem')) /\
    zlen mem' = zlen (0 :: [7; 8; 9] ++ replicate 5 0) /\ pipe_up n' /\ p_inbox n' = [] /\
    p_server n' = tt /\ (zlen [7; 8; 9] <= 8 -> take (length [7; 8; 9]) mem' = [7; 8; 9]).
Proof.
  apply (client_exchange_in_step 0 8 false pipe_up p_inbox p_server p_waits echo_peer
    0 [7; 8; 9] (replicate 5 0) (quiet tt) [7; 8; 9] tt); closed.
Defined.

(** The page with one directory "bin" and one file "a.txt" of 300 bytes. *)
Definition sample_page : list Z :=
  [1; 3; 98; 105; 110; 0; 0; 0; 0] ++ [0; 5; 97; 46; 116; 120; 116; 44; 1; 0; 0].
Lemma client_list_decodes_witness :
  exists refs,
    list_all 3 (Some (ClientFsList 0 2 (Some 5) (Some 25))) (at_mem 0 64 true (quiet tt)
        ([130; 0; 0; 0; 2] ++ sample_page ++ [9; 9])) =
      Returns (0, refs) (at_mem 0 64 true (quiet tt) ([130; 0; 0; 0; 2] ++ sample_page ++ [9; 9])) /\
    forall es, decode_exact 2 sample_page = Some es ->
      map (resolve ([130; 0; 0; 0; 2] ++ sample_page ++ [9; 9])) refs = es.
Proof.
  apply (client_list_decodes 0 64 true (quiet tt) [130; 0; 0; 0; 2] sample_page [9; 9] 0 2); (lia || closed).
Defined.

(** ** The time service *)

Definition time_peer : list Z -> unit -> option (list Z) * unit :=
  plugin_reply (handle_squid_time_packet (fun _ => sample_clock)) 1 (replicate 255 0).

#[local] Remove Hints echo_pipe echo_pipe_host echo_link : typeclass_instances.
#[local] Instance time_pipe : Squid (pipe unit) := pipe_squid time_peer.
#[local] Instance time_pipe_host : ClientHost (pipe unit) := pipe_host.
#[local] Instance time_link idle fd : LinkLaws idle fd pipe_up p_inbox p_server p_waits time_peer :=
  pipe_laws time_peer idle fd.

Lemma client_time_roundtrip_witness :
  exists fuel0 n' mem',
    (forall fuel, (fuel0 <= fuel)%nat ->
      squid_client_time_get fuel SQUID_TIME_MODE_LOCAL true (at_mem 0 32 true (quiet tt) (replicate 33 0)) =
        Returns (0, Some (ClientTime 2026 7 9 12 15 30 4 1 120 1783599330)) (at_mem 0 32 true n' mem')) /\
    pipe_up n' /\ p_inbox n' = [] /\ p_server n' = tt.
Proof.
  apply (client_time_roundtrip 0 true pipe_up p_inbox p_server p_waits 1 (replicate 255 0)
    (fun _ => sample_clock) 32 SQUID_TIME_MODE_LOCAL (quiet tt) (replicate 33 0) sample_tm 120);
    try closed.
Defined.

(** ** Any server: the sockets of [RuntimeProps] *)

#[local] Existing Instance queue_squid.
#[local] Existing Instance queue_laws.
#[local] Instance queue_host : ClientHost queues := {
  snet_link_epoch _ := 1;
  idle_callback n := (if zlen (q_rx n 0) =? 0 then 1 else 0, n) }.

(** A server that answers "stat" with nonsense. *)
Definition hostile : queues := Queues (fun _ => [9; 200; 3; 1; 1; 1; 1; 1; 1; 1]) (fun _ => []).

Lemma client_calls_safe_witness :
  match run_typed_call 40 (do_fs_stat (Some [104; 105]) true) (at_mem 0 16 true hostile (replicate 17 0)) with
  | Returns (code, delivered) s' =>
      usable 0 16 true 17 s' /\ -6 <= code <= 255 /\ (code = 0 <-> delivered = true)
  | Waiting => True
  | Undefined => False
  end.
Proof.
  apply (client_calls_safe 0 16 true 17 40 (do_fs_stat (Some [104; 105]) true)
    (at_mem 0 16 true hostile (replicate 17 0))); try lia.
  - by exists hostile, (replicate 17 0).
  - repeat constructor; closed.
Defined.

