(* ===== verification/SamplesWitness.v ===== *)
(** The sample programs on a small engine: a reply waits on the wire until the
    engine runs, and arrives at most three bytes at a time. *)
From stdpp Require Import base numbers list option gmap strings.
From Stdlib Require Import ZArith Lia.
From S2P Require Import Prelude CLib PluginApi Runtime Local LocalProps Client ClientCalls.
From S2P Require Import ClientSafety ClientProps ClientLink Samples SamplesProps SamplesLink.

Local Open Scope Z_scope.
Local Open Scope squid_scope.

Record toy (S : Type) := Toy {
  e_rx : list Z;
  e_wire : list Z;
  e_peer : S;
  e_tries : nat;
  e_socks : gset Z;
  e_local : local_state toy_local }.
Arguments Toy {S} _ _ _ _ _ _.
Arguments e_rx {S} _.
Arguments e_wire {S} _.
Arguments e_peer {S} _.
Arguments e_tries {S} _.
Arguments e_socks {S} _.
Arguments e_local {S} _.

#[local] Existing Instance toy_local_sockets.

Section toy.
Context {S : Type} (reply : list Z -> S -> option (list Z) * S).

Definition toy_recv (fd max : Z) (n : toy S) : Z * list Z * toy S :=
  if (fd =? 5) && forallb (fun b => (0 <=? b) && (b <? 256)) (e_rx n) then
    let k := Nat.min (Z.to_nat max) (Nat.min 3 (length (e_rx n))) in
    (Z.of_nat k, take k (e_rx n),
     Toy (drop k (e_rx n)) (e_wire n) (e_peer n) (e_tries n) (e_socks n) (e_local n))
  else (-1, [], n).
Definition toy_send (data : list Z) (n : toy S) : Z * toy S :=
  match data with
  | [] => (-1, n)
  | _ :: request =>
      let '(response, s) := reply request (e_peer n) in
      (zlen data,
       Toy (e_rx n)
         (e_wire n ++ match response with Some resp => zlen resp :: resp | None => [] end)
         s (e_tries n) (e_socks n) (e_local n))
  end.
(** The engine asks the transport for one byte, and hands over what was on
    the wire. *)
Definition toy_burst (n : toy S) : toy S :=
  Toy (e_rx n ++ e_wire n) [] (e_peer n) (pred (e_tries n)) (e_socks n)
    match local_recv_char (e_local n) with Some (_, l) => l | None => e_local n end.

#[local] Instance toy_squid : Squid (toy S) := {|
  squid_open _ _ n :=
    if decide (5 ∈ e_socks n) then (-1, n)
    else (5, Toy (e_rx n) (e_wire n) (e_peer n) (e_tries n) ({[ 5 ]} ∪ e_socks n) (e_local n));
  squid_bind _ _ n := (0, n);
  squid_close fd n :=
    Toy (e_rx n) (e_wire n) (e_peer n) (e_tries n) (e_socks n ∖ {[ fd ]}) (e_local n);
  squid_send _ data n := toy_send data n;
  squid_recv fd max n := toy_recv fd max n;
  snet_burst n := toy_burst n;
  snet_link_is_up n := bool_decide (e_tries n = 0%nat);
  transport_wait n := (0, n) |}.
#[local] Instance toy_init : SquidInit (toy S) := {| snet_init _ n := n |}.
#[local] Instance toy_client_side : SquidClientSide (toy S) := {|
  squid_connect _ _ n := (0, n);
  client_link_epoch _ := 1;
  SQUID_PAYLOAD_MAX := 64;
  usleep _ n := n |}.
#[local] Instance toy_platform : Platform (toy S) toy_local := {|
  hooks n := e_local n;
  set_hooks l n := Toy (e_rx n) (e_wire n) (e_peer n) (e_tries n) (e_socks n) l |}.

#[local] Instance toy_recv_law : RecvLaw (toy S).
Proof.
  intros fd max n Hm. cbn [squid_recv toy_squid]. unfold toy_recv.
  destruct ((fd =? 5) && _) eqn:E; [|lia]. intros _. apply andb_true_iff in E as [_ Hb].
  rewrite zlen_take. unfold zlen. split_and!; [lia|lia|]. apply bytes_ok_take.
  by apply bytes_ok_dec.
Qed.

#[local] Instance toy_sockets : SquidSockets (toy S) e_socks.
Proof.
  split; try done.
  - intros a b n. cbn. case_decide; cbn; done.
  - intros fd data n. cbn. unfold toy_send. destruct data as [|x request]; [done|].
    by destruct (reply request (e_peer n)).
  - intros fd max n. cbn. unfold toy_recv. by destruct (_ && _).
Qed.

Lemma no_hooks (l : local_state toy_local) : hook_calls l l.
Proof. exists [], []. done. Qed.

#[local] Instance toy_engine : EngineLaws (toy S) toy_local e_socks.
Proof.
  split; try done. intros n n' Hs. destruct Hs; cbn; try apply no_hooks.
  - case_decide; apply no_hooks.
  - unfold toy_send. destruct d as [|x request]; [apply no_hooks|].
    destruct (reply request (e_peer n)). apply no_hooks.
  - unfold toy_recv. destruct (_ && _); apply no_hooks.
  - destruct (local_recv_char (e_local n)) as [[r l]|] eqn:E; [|discriminate E].
    exists [use_recv], [r]. split; [by repeat constructor|].
    injection E as <- <-. done.
Qed.

(** The link, when the server answers in bytes. *)
Context (reply_ok : forall request s, bytes_ok request -> 1 <= zlen request <= 255 ->
  match (reply request s).1 with Some resp => bytes_ok resp /\ zlen resp <= 255 | None => True end).

Definition toy_up (n : toy S) : Prop := e_tries n = 0%nat /\ bytes_ok (e_rx n ++ e_wire n).
Definition toy_inbox (n : toy S) : list Z := e_rx n ++ e_wire n.
Definition toy_waits (n : toy S) : nat :=
  match e_rx n, e_wire n with [], _ :: _ => 1 | _, _ => 0 end.

Lemma bytes_ok_true l : bytes_ok l -> forallb (fun x => (0 <=? x) && (x <? 256)) l = true.
Proof.
  induction 1 as [|x l Hx _ IH]; [done|]. cbn. rewrite IH, andb_true_r. unfold is_byte in Hx. lia.
Qed.

#[local] Instance toy_link : LinkLaws true 5 toy_up toy_inbox e_peer toy_waits reply.
Proof.
  split.
  - intros n [Ht _]. cbn. by apply bool_decide_eq_true.
  - intros n max [Ht Hb] Hm. cbn [squid_recv toy_squid]. unfold toy_recv.
    rewrite bytes_ok_true by (by apply bytes_ok_app in Hb as [? _]). cbn [Z.eqb Pos.eqb andb].
    set (k := Nat.min _ _). unfold toy_up, toy_inbox, toy_waits.
    cbn [e_rx e_wire e_peer e_tries idle_callback sample_host pump_squid snet_burst toy_squid usleep
      toy_client_side toy_burst snd].
    split_and!; try done; try lia.
    + rewrite <- (take_drop k (e_rx n)), <- app_assoc in Hb. by apply bytes_ok_app in Hb as [_ ?].
    + rewrite zlen_take. unfold zlen. lia.
    + by rewrite app_assoc, take_drop.
    + intros Hne Hk. destruct (e_rx n) as [|b rx]; [|unfold k in Hk; cbn [length] in Hk; lia].
      cbn in Hne. rewrite drop_nil. destruct (e_wire n); [done|]. cbn. lia.
  - intros n [Ht Hb]. cbn. unfold toy_up, toy_inbox. cbn. rewrite Ht, !app_nil_r. done.
  - intros n request [Ht Hb] Hin Hr Hl. cbn [squid_send toy_squid]. unfold toy_send.
    specialize (reply_ok request (e_peer n) Hr Hl). unfold toy_inbox in *.
    apply app_eq_nil in Hin as [E1 E2].
    destruct (reply request (e_peer n)) as [[resp|] s']; cbn [fst] in reply_ok;
      unfold toy_up; cbn [e_rx e_wire e_peer e_tries]; rewrite E1, E2; cbn [app].
    + destruct reply_ok as [Hrb Hrl]. pose proof (zlen_nonneg resp).
      split_and!; try done; try zlen_lia. constructor; [unfold is_byte; lia|done].
    + split_and!; try done; try zlen_lia; constructor.
Qed.

Definition toy_linking (n : toy S) : Prop := toy_inbox n = [].
#[local] Instance toy_handshake : Handshake toy_up toy_inbox toy_linking e_tries.
Proof.
  split.
  - intros n Hl Hup. cbn in Hup. apply bool_decide_eq_true in Hup. split; [|done].
    split; [done|]. unfold toy_linking, toy_inbox in Hl.
    rewrite Hl. constructor.
  - intros n Hl Hdown. cbn in Hdown |- *. apply bool_decide_eq_false in Hdown.
    unfold toy_linking, toy_inbox, toy_burst in *. cbn. rewrite app_nil_r. split; [done|]. lia.
Qed.
End toy.

(** ** A session with the echo plugin *)

Definition toy_echo : list Z -> unit -> option (list Z) * unit :=
  plugin_reply handle_echo_packet ECHO_CHANNEL (replicate 255 0).
Lemma toy_echo_ok request s : bytes_ok request -> 1 <= zlen request <= 255 ->
  match (toy_echo request s).1 with Some resp => bytes_ok resp /\ zlen resp <= 255 | None => True end.
Proof.
  intros Hb Hl. unfold toy_echo. rewrite echo_reply by (done || lia || closed). cbn. split; [done|lia].
Qed.

Definition toy_start : local_state toy_local :=
  LocalState (-1) {[ transport_address := LocalTransport 0 0 [] ]} (ToyLocal 3 0 true) [].
Definition toy_process (input : list Z) : process (toy unit) :=
  Process (ClientState (Toy [] [] tt 2 ∅ toy_start) (Some (SquidClient 0 None 0 false))) input [] [].

#[local] Instance toy_echo_squid : Squid (toy unit) := toy_squid toy_echo.
#[local] Existing Instances toy_init toy_client_side toy_platform.
#[local] Instance toy_echo_recv : RecvLaw (toy unit) := toy_recv_law toy_echo.
#[local] Instance toy_echo_sockets : SquidSockets (toy unit) e_socks := toy_sockets toy_echo.
#[local] Instance toy_echo_engine : EngineLaws (toy unit) toy_local e_socks := toy_engine toy_echo.
#[local] Instance toy_echo_link : LinkLaws true 5 toy_up toy_inbox e_peer toy_waits toy_echo :=
  toy_link toy_echo toy_echo_ok.
#[local] Instance toy_echo_handshake : Handshake toy_up toy_inbox toy_linking e_tries :=
  toy_handshake toy_echo.

Lemma toy_fresh input : bytes_ok input -> fresh (toy_process input).
Proof. intros Hb. split_and!; [by eexists|by eexists|done]. Qed.

Definition toy_input : list Z := text "hi" ++ [10; 10] ++ text "there" ++ [10].

Lemma samples_safe_witness :
  match run_sample 1000 (sys_sample [text "sys_sample"; text "id"]) (toy_process toy_input) with
  | Returns code s' => (code = 0 \/ code = 1) /\ ended e_socks (toy_process toy_input) s'
  | Waiting => True
  | Undefined => False
  end.
Proof.
  apply (samples_safe e_socks 1000 (sys_sample [text "sys_sample"; text "id"]) (toy_process toy_input)).
  - apply toy_fresh. closed.
  - by intros argv [= <-].
Defined.

Lemma echo_sample_echoes_witness :
  exists s' ms,
    (exists fuel0, forall fuel, (fuel0 <= fuel)%nat -> echo_main fuel (toy_process toy_input) = Returns 0 s') /\
    pr_stdout s' = [] ++ echo_banner ++ concat (map echoed ms) /\
    pr_stdin s' = [] /\ pr_stderr s' = [] /\
    concat ms = filter (fun c => c <> 10) toy_input /\
    Forall (fun m => 1 <= zlen m <= 255) ms /\
    (Forall (fun l => (length l < 255)%nat) (split_from 10 [] toy_input) ->
       ms = filter (fun l => l <> []) (split_from 10 [] toy_input)) /\
    released e_socks (toy_process toy_input) s'.
Proof.
  apply (echo_sample_echoes e_socks 5 toy_up toy_inbox e_peer toy_waits (replicate 255 0)
    toy_linking e_tries eq_refl (toy_process toy_input)
    (Toy [] [] tt 2 {[ 5 ]} (LocalState 3 {[ 0%nat := LocalTransport (-1) 3
        (strncpy_zeroed 108 local_transport_default_socket_path) ]} (ToyLocal 4 0 true)
        [LSocket 3; LConnect 3 (fill_sockaddr local_transport_default_socket_path) 0]))).
  - apply toy_fresh. closed.
  - repeat constructor; closed.
  - eexists _, _, _. split_and!; closed.
  - reflexivity.
Defined.

(** What the user sees. *)
Lemma toy_echo_session :
  match echo_main 1000 (toy_process toy_input) with
  | Returns code s => code = 0 /\ pr_stdout s = echo_banner ++ text "< hi" ++ [10] ++ text "< there" ++ [10]
  | _ => False
  end.
Proof. vm_compute. by split. Qed.
