(* ===== verification/ClientVaultWitness.v ===== *)
(** The client of the retrovault service on concrete inputs: the pipe of
    ClientWitness.v to a started plugin that holds [sample_doc]'s catalog. *)
From stdpp Require Import base numbers list option gmultiset strings.
From Stdlib Require Import ZArith Lia.
From S2P Require Import Prelude Wire CLib PluginApi Heap Vault VaultCatalog VaultServe VaultProps VaultPaging Curl CurlProps VaultPlugin VaultWitness.
From S2P Require Import Runtime Client ClientCalls ClientRetro ClientSafety ClientLink ClientPages ClientVault ClientWitness.

Local Open Scope Z_scope.
Local Open Scope squid_scope.

Definition early (n : mini_http) : Z * mini_http := (1500, n).
Definition vault_peer : list Z -> vault_world mini_http -> option (list Z) * vault_world mini_http :=
  plugin_reply (handle_retro_vault_packet early) 1 (replicate 255 0).
Definition vault_server : vault_world mini_http := VaultWorld sample_world (VaultPluginState sample_context sample_client 1).

#[local] Instance vault_pipe : Squid (pipe (vault_world mini_http)) := pipe_squid vault_peer.
#[local] Instance vault_pipe_host : ClientHost (pipe (vault_world mini_http)) := pipe_host.
#[local] Instance vault_link idle fd : LinkLaws idle fd pipe_up p_inbox p_server p_waits vault_peer := pipe_laws vault_peer idle fd.

Lemma client_lists_catalog_witness :
  exists fuel0 n' mem', (forall fuel, (fuel0 <= fuel)%nat ->
      retro_list_all (text "IDP") (text "partner") 2 fuel 0 (at_mem 0 255 true (quiet vault_server) (replicate 256 0)) =
        Returns (0, [(text "elite", text "Elit" ++ [195; 169])]) (at_mem 0 255 true n' mem')) /\
    ready pipe_up p_inbox p_server sample_context n' mem'.
Proof.
  refine (client_lists_catalog 0 pipe_up p_inbox p_server p_waits 1 (replicate 255 0) early true sample_context (text "IDP") (text "partner")
    sample_ok _ _ _ _ _ _ (quiet vault_server) (replicate 256 0) _).
  - by apply text_cstr_ok.
  - by apply text_cstr_ok.
  - by vm_compute.
  - reflexivity.
  - lia.
  - intros n. vm_compute. reflexivity.
  - split; [exact I|]. split; [reflexivity|]. split; [|reflexivity]. split; [discriminate|reflexivity].
Defined.

(** Two entries; read as two values a byte is left over. *)
Definition two_items : list Z := [1; 2; 2; 65; 66] ++ [1; 67; 0].

Lemma retro_pages_decoded_witness :
  let mem := [129; 0; 7; 0; 2] ++ two_items ++ [9] in
  (exists entries,
     iterate (fun p => squid_client_retro_list_next p true) 3 (list_page 7 2 5 13)
       (at_mem 0 64 true (quiet vault_server) mem) =
       Returns (0, entries) (at_mem 0 64 true (quiet vault_server) mem) /\
     (forall l, decode_items split_listed 2 two_items = Some l -> map (listed mem) entries = l) /\
     map (listed mem) entries = [([2], [65; 66]); ([67], [])] /\
     Forall (fun e => Forall (ref_inside 5 13) (entry_refs e)) entries) /\
  (exists values,
     iterate (fun p => squid_client_retro_info_next p true) 3 (info_page 7 2 5 13)
       (at_mem 0 64 true (quiet vault_server) mem) =
       Returns (SQUID_CLIENT_ERROR_PROTOCOL, values) (at_mem 0 64 true (quiet vault_server) mem) /\
     (forall l, decode_items split_value 2 two_items = Some l -> map (valued mem) values = l) /\
     map (valued mem) values = [(1, [2; 65]); (66, [67])] /\
     Forall (fun v => Forall (ref_inside 5 13) (value_refs v)) values).
Proof.
  apply (retro_pages_decoded 0 64 true (quiet vault_server) [129; 0; 7; 0; 2] two_items [9] 7 2); (lia || closed).
Defined.
