(* ===== verification/ClientFsWitness.v ===== *)
(** The client's filesystem calls on concrete inputs: the pipe of
    ClientWitness.v to a started plugin on the files of MemKernel.v. *)
From stdpp Require Import base numbers list option gmap strings.
From Stdlib Require Import ZArith Lia.
From S2P Require Import Prelude Wire CLib PluginApi Posix.
From S2P Require Import Filesystem FsPath FsSafety MemKernel FsProps FsStore FsRefine FsSession MemStore FsPlugin.
From S2P Require Import Runtime Client ClientCalls ClientSafety ClientLink ClientPages ClientFs ClientWitness.

Local Open Scope Z_scope.
Local Open Scope squid_scope.

Definition fs_peer : list Z -> fs_world mem -> option (list Z) * fs_world mem :=
  plugin_reply handle_squid_fs_packet 1 (replicate 255 0).
Definition fs_server : fs_world mem := FsWorld sample_os (FsPluginState (sample_context 0) 1).

#[local] Instance fs_pipe : Squid (pipe (fs_world mem)) := pipe_squid fs_peer.
#[local] Instance fs_pipe_host : ClientHost (pipe (fs_world mem)) := pipe_host.
#[local] Instance fs_link idle fd : LinkLaws idle fd pipe_up p_inbox p_server p_waits fs_peer := pipe_laws fs_peer idle fd.

Local Abbreviation sample_files := (files (mem_view sample_mem)).
Local Abbreviation sample_handles := (handles (mem_view sample_mem)).
Local Abbreviation serving := (in_step mem_view mem_sound pipe_up p_inbox p_server (sample_context 0) 0 sample_handles).
Local Abbreviation start := (at_mem 0 100 true (quiet fs_server) (replicate 101 0)).

Lemma server_in_step : serving sample_files (quiet fs_server).
Proof.
  split; [exact I|]. split; [done|]. split_and!; [done|done|apply sample_at_store|apply sample_root].
Qed.

(** Renaming [b] to [docs/b]. *)
Definition move_b : fs_op := OpRename (text "b") (text "docs/b").

Lemma text_path s : forallb (fun c => (0 <? c) && (c <? 256)) (text s) = true ->
  (zlen (text s) <=? 240) = true -> (0 <? zlen (text s)) = true -> client_path false (text s).
Proof.
  intros Hc Hl Hp. split_and!; [by apply text_cstr_ok|lia|]. intros _ E. by rewrite E in Hp.
Qed.

Lemma client_fs_refines_store_witness :
  exists code value n' mem' ns',
    ends (fun fuel => fs_call fuel move_b) start (code, value) (at_mem 0 100 true n' mem') /\
    serving ns' n' /\ zlen mem' = 101 /\
    match value with
    | Some v => code = 0 /\ fs_result 0 move_b sample_files v mem' ns'
    | None => code <> 0 /\ fs_failed 0 move_b sample_files ns'
    end.
Proof.
  apply (client_fs_refines_store mem_view mem_sound 0 100 true pipe_up p_inbox p_server p_waits 1
    (replicate 255 0) (sample_context 0) 0 sample_handles 101 sample_base ltac:(lia) eq_refl ltac:(lia) ltac:(lia)
    move_b (quiet fs_server) (replicate 101 0) sample_files).
  - split; apply text_path; vm_compute; reflexivity.
  - exact I.
  - vm_compute. discriminate.
  - reflexivity.
  - apply server_in_step.
Defined.

(** The call succeeds, and the entry has moved. *)
Example move_b_moves :
  cwp False (fs_call 100 move_b) (fun r s => r = (0, Some ValDone) /\
    walk (files (mem_view (world (fs_os (p_server (c_net s)))))) 0 (names (text "docs/b")) = Some 3) start.
Proof. vm_compute. by split. Qed.

Lemma client_file_roundtrip_witness :
  exists results n1 mem1 code value n2 mem2,
    ends (fun fuel => fs_calls fuel (upload new_path new_chunks)) start results (at_mem 0 100 true n1 mem1) /\
    ends (fun fuel => fs_call fuel (OpRead new_path 6 4)) (at_mem 0 100 true n1 mem1) (code, value)
      (at_mem 0 100 true n2 mem2) /\
    (results = all_accepted new_chunks ->
     match value with
     | None => code <> 0
     | Some v => exists chunk, v = ValRead chunk /\ code = 0 /\ chunk_offset chunk = 6 /\
         chunk_total chunk = zlen (concat new_chunks) /\
         referred mem2 (chunk_data chunk) `prefix_of` drop (Z.to_nat 6) (concat new_chunks) /\
         (referred mem2 (chunk_data chunk) = [] -> 6 = zlen (concat new_chunks))
     end).
Proof.
  apply (client_file_roundtrip mem_view mem_sound 0 100 true pipe_up p_inbox p_server p_waits 1
    (replicate 255 0) (sample_context 0) 0 sample_handles 101 sample_base ltac:(lia) eq_refl ltac:(lia) ltac:(lia)
    new_path new_chunks 6 4 (quiet fs_server) (replicate 101 0) sample_files).
  - assert (client_path false new_path) by (apply text_path; vm_compute; reflexivity).
    repeat constructor; try done; closed.
  - split; [split; [apply text_path; vm_compute; reflexivity|closed]|closed].
  - discriminate.
  - reflexivity.
  - apply server_in_step.
Defined.

(** Every piece is accepted, and the four bytes at offset 6 come back. *)
Example client_reads_back :
  cwp False
    (let^ results := fs_calls 100 (upload new_path new_chunks) in
     let^ '(code, value) := fs_call 100 (OpRead new_path 6 4) in
     let^ mem := workspace in
     cret (results, code, match value with Some (ValRead c) => referred mem (chunk_data c) | _ => [] end))
    (fun r _ => r = (all_accepted new_chunks, 0, text "serv")) start.
Proof. by vm_compute. Qed.
